(* ===== verification/_CoqProject ===== *)
-Q . S2P
Prelude.v
LinkedList.v
Frames.v
Mm.v
HeapApi.v
Paging.v
LibK.v
FdTable.v
Sync.v
Ringbuffer.v
Ports.v
Interrupts.v
Timer.v
Pci.v
Ata.v
Sockets.v
Sched.v
Disk.v
AtaSpec.v
AtaWrite.v
AtaInit.v
Kmem.v
FileIo.v
Vfs.v
VfsPath.v
Net.v
VfsLink.v
VfsOps.v
Syscalls.v
Devices.v
ProcCalls.v
Dirents.v
Env.v
User.v
Ext2.v
Ext2Blocks.v
Ext2Files.v
Ext2Write.v
Ext2Alloc.v
Ext2Dir.v
Ext2Vfs.v
Video.v
Format.v
Tty.v
TtyScreen.v
TtyEscape.v
Serial.v
Boot.v
Printk.v
PrintkSpec.v
Stdin.v
Elf.v
Input.v
Winserv.v
Yash.v
