(* ===== verification/Prelude.v ===== *)
(** * Yanix: a verification of the kernel's core

    Yanix is a small Unix-like system for i386, written in C: a kernel under
    src/kernel, its boot loader and a few programs.  This library models its core: memory management, the C
    library it is built on, file descriptors, pipes, locks, the scheduler,
    sockets, the virtual file system, ext2, the layers that turn byte positions
    into block requests, terminals and kernel output, system calls, the
    drivers that talk to the hardware through ports, the boot loader's second stage, and
    of the programs the window server's renderer and the shell's command line.

    ** How the parts fit together

    The kernel heap (mm/linkedlist.c) keeps two lists of block headers, one of
    blocks in use and one of free blocks sorted by size, and grows its region
    up to a maximum; mm/heap.c puts the kernel and the user heap, [kmalloc]
    and [kfree] on top, and yanix/stack/stack.c allocates stacks from a heap.
    Page tables come from that heap or, before it exists, from a placement
    pointer; the frames they point to come from a bitmap (mm/paging.c).  A page
    fault (mm/fault.c) asks both: an address of a heap or of the running
    program gets a fresh frame.  Tasks (proc/tasking.c) are linked into the
    scheduler's lists (proc/sched.c) and own a vector of file descriptors
    (fs/filedescriptor.c, yanix/ds/fd_vector.c).  Pipes (fs/vfs/pipe.c) use the
    ring buffer (yanix/ds/ringbuffer.c), which uses the spin lock
    (yanix/atomic.c).  A path becomes a node of the tree in fs/vfs/vfs.c, a
    node a descriptor; file data goes through fs/fs.c to a filesystem driver,
    fs/ext2/ext2.c, and through drivers/disk.c to a disk driver.  Text goes to
    the screen buffer of a terminal (yanix/tty/tty_dev.c), also what printk
    (yanix/functions/kernelio.c) formats, and from there to the framebuffer
    (drivers/video); debug output goes to the serial line (drivers/serial).  drivers/keyboard.c and drivers/ps2/mouse.c turn device
    bytes into characters and positions.  Programs reach all of this through
    interrupt 0x80 (proc/syscalls); the tables of arch/i386/cpu lead interrupts
    to their handlers, the timer (core/timer.c) to the scheduler.  The disk
    driver is drivers/ata, found on the bus that drivers/pci scans.  The kernel itself
    is put into memory by src/bootloader/stage2.  The window server (src/apps/winserv)
    copies its windows to the framebuffer; the shell is src/system/yash.

    ** Files

    - [Prelude]: the state monad [M] with its outcomes [Ok], [Fault] (an access
      C leaves undefined) and [Hang] (a loop that runs out of fuel), total
      weakest preconditions [wp], machine integers [u8], [u16], [u32], [s32],
      and page arithmetic.
    - [LinkedList]: mm/linkedlist.c over a store of headers; the abstract
      allocator ([aget], [afree], [tiled]) it refines.
    - [Frames]: the frame bitmap and page table entries of mm/paging.c.
    - [Mm]: the state that heap.c, paging.c and fault.c share, and their
      operations; [HeapApi] and [Paging] hold the theorems about them.  The
      class [TableAllocator] of [Paging] is what mapping needs of the heap.
    - [LibK]: libk/string, stdlib, stdio and the integers of math, over a byte
      memory.
    - [FdTable]: the descriptor vector and the descriptor operations.
    - [Sync]: the atomic instructions, spin locks and the queue.
    - [Ringbuffer]: ring buffers and pipes.
    - [Sched]: the task lists, scheduling, blocking, signals, fork and exit.
    - [Ports]: the in and out instructions over a history of events; devices are
      functions of that history, the class [Devices].
    - [Interrupts]: gdt.c, idt.c, isr.c, pic.c, ic.c and cpu.c; a registered
      handler is known by what running it does.
    - [Timer]: pit.c, core/timer.c, cmos.c, drivers/time and [sleep] under timer
      interrupts.
    - [Pci]: pci.c against the class [PciBus]; the devices are linked records.
    - [Ata]: ata.c; [AtaSpec] has the class [AtaDevice], what the ATA standard
      says a drive answers, and the theorems about reading, [AtaWrite] those
      about writing, [AtaInit] the detection of drives against the class
      [Identifies].
    - [Sockets]: unix sockets (net/socket.c, net/socket/unix.c) over [Ringbuffer]
      and [Sync], with a step relation for several tasks.
    - [Net]: network devices, Ethernet frames and the RTL8139 driver.
    - [Disk]: disk.c and ramdisk.c; the classes [DiskDriver] and [BlockDevice]
      state what a disk driver promises.
    - [Kmem]: the byte memory together with an allocator, in which storage that
      is not in use is not mapped; the classes [KernelHeap], [HeapLaws] and
      [UserLaws] are what its clients rely on, and the memory manager is an
      instance.
    - [FileIo]: reading and writing file contents in fs.c, against the same
      interface and [FsNode].
    - [Vfs]: vfs.c, with the node tree as a store of records, over [Kmem],
      [FdTable] and [FileIo]; the functions that nodes and filesystems carry
      are the class of their driver.  [VfsPath] relates the store to an
      abstract tree and proves path lookup, [VfsLink] adding a node, [VfsOps]
      open, read, seek, stat and creation.
    - [Syscalls]: the tables and the handler of interrupt 0x80 and the calls on
      files; the other calls are an argument of the table.  [Dirents]:
      what getdents delivers, against the class [DirStream].  [ProcCalls]: the calls
      on tasks, owners, the program break, the system and the time, over [Sched], [Mm],
      [Timer] and the byte memory; the calls on sockets are in [Sockets].
    - [Devices]: pipes, fifos and character devices (fs/vfs/pipe.c, chardev.c) as
      nodes of the vfs; the class [Pipes] is where their ring buffers are.
    - [Env]: argument and environment vectors (yanix/env.c); [User]: the passwd
      file and login (yanix/users).
    - [Ext2]: ext2.c over [Disk] and [Kmem], its on-disk structures as bytes.
      [Ext2Blocks] (block map), [Ext2Files] (inodes, reading), [Ext2Write],
      [Ext2Alloc] (bitmaps), [Ext2Dir] (directories) are its theorems by
      layer; [Ext2Vfs] makes ext2 the filesystem of the vfs.
    - [Video]: the font, the framebuffer and the text mode (drivers/video).
    - [Tty]: tty_dev.c and termios.c over a byte memory; calls to the video
      driver are recorded in a list.  [TtyScreen] has the abstract screen,
      [TtyEscape] the escape sequence that places the cursor.
    - [Format]: the loops that print numbers, which kernelio.c and debug.c share,
      over any output, and the text a format stands for; the class [Sink] is
      what an output promises.
    - [Serial]: serial.c and debug.c against the class [Transmits].
    - [Printk]: kernelio.c and the standard output of fs.c; [PrintkSpec] has the
      theorems.  [Stdin]: the standard input, with line editing and echo.
    - [Boot]: the boot loader's second stage over the BIOS disk interrupt.
    - [Elf]: loading a program (yanix/execute/elf.c), with the open file and the
      mapping of pages behind the class [ElfEnv].
    - [Input]: keyboard.c and mouse.c, with the I/O ports as parameters.
    - [Winserv]: the vector of src/external/eclib, the windows and the renderer of
      src/apps/winserv, and the frames of src/libs/libgfx, over a program's memory.
    - [Yash]: the command line of src/system/yash.

    Every C function is one definition of the same name; a loop body that is
    used in proofs on its own has a definition too.  Pointers are integers with
    0 for NULL, structures are records in finite maps at their addresses, and
    arithmetic is kept at the width C gives it wherever it can wrap.

    ** What the theorems show

    - Memory: [get_free] and [free_node] refine the abstract best-fit
      allocator, blocks never overlap, every reachable heap is tiled by its
      blocks; allocation and free are a round trip; a frame is never handed out
      twice; what was mapped is what translates; a page fault on a valid
      address maps exactly one page.
    - Sockets: any interleaving of connects and accepts pairs each client with one
      connection, and a line sent by either end arrives whole at the other.
    - Data structures: the queue is a FIFO, the ring buffer a stream, new
      descriptors are the lowest free ones, [dup2] copies.
    - Scheduling: one round runs every ready task once, in order; blocking,
      resuming and forking preserve the invariant [sched_ok]; a task that waits is woken
      when its child exits, whatever runs in between.
    - Booting: the boot loader puts the whole blocks of the kernel's file at its address.
    - Pipes: what is written to one end is read from the other, from the system call to
      the ring buffer.  Typing: a line with its backspaces is read as edited and shown as
      typed.
    - Programs: growing the break maps fresh frames, or fails and leaves the break; the
      screen shows the topmost window at every pixel; a command line is split into its
      words.
    - Storage: data written at a block boundary is read back, on disks and in
      files, for every driver that meets the interface.
    - Paths: lookup terminates and returns what walking the abstract tree
      returns; a node that was linked is found; open, read and seek.
    - ext2: the offset of a block is that of the reference block map; reading
      returns the file's blocks in order, writing and reading are a round trip
      that leaves the rest of the disk; directories are read entry by entry;
      [ext2_open_read] composes path, descriptor, block layer, inode, disk and
      kernel heap.
    - System calls: opening and reading a file through interrupt 0x80; a failing
      call gives the negated error; getdents packs what fits.
    - Hardware: reading sectors over ATA delivers the sectors addressed, for
      every drive that answers as the standard says; the scan of the bus finds
      exactly the functions that answer; a drive is entered as it identifies
      itself and can be read then; after boot the descriptor tables are
      well formed and every interrupt reaches its handler and is acknowledged;
      sleeping ends after the ticks it asked for; a character is drawn pixel by
      pixel as its glyph says.
    - Output: printk hands over the text its format and arguments stand for, and
      that text appears on the abstract screen; debug output sends the same text
      over the serial line.
    - Terminals: text without escape sequences is typed on an abstract screen,
      with wrapping and scrolling; a position on the screen is reached.
    - Loading: a supported ELF file is loaded segment by segment at its
      addresses and the program break is the end of its highest segment.
    - Library: [memmove], [memcpy], [strcmp] and the decimal conversions.
    - Defects: where the code does not do what it means to, the theorem states
      what it does, for all inputs of that kind: lost frames, a bitmap that is
      too small, a lock that excludes nobody, an index that overruns its
      buffer, a removed task that still runs, interrupts that stay off, an
      inode that is handed out twice, a file that is never created, text that
      is stored behind the screen, disk addresses that lose bits, errors of the
      drive that count as success, a directory entry that is skipped, a frame
      whose payload is a byte off.

    ** Bounds and fuel

    Loops over lists take the number of records in the store plus one or two as
    fuel, which is enough for every list of distinct nodes; loops over strings
    take the size of the memory; loops over pages take [PAGE_FUEL], two more
    than the pages of the address space.  Path lookup calls itself at most once
    ([FIND_DEPTH]) because a working directory is absolute; loops over blocks
    and over text take their count plus one; the digits of a number take
    [DIGIT_FUEL], more than 32 bits have; printk calls itself at most
    [PRINTK_DEPTH] times for a format without a log level; walks along device
    lists take one round per allocation.  Waiting for hardware has no bound of
    its own: [patience] is how long a drive or a line stays busy or a tick stays
    away, a property of the device.  The theorems conclude with [Ok], so the fuel is
    shown to be enough.  Theorems about sizes near 2^31 or 2^32
    carry the bound as a hypothesis.

    ** Not modelled

    The assembly that boots, enters and leaves the kernel and switches stacks, and with it
    threads and the jump of exec into a program; stack dumps, direct memory access and
    floating point; the start-up sequence, a list of calls to the components, and the
    system's name and version, which come from a generated header.  Of the programs:
    what only calls the C library or the kernel (the shell's built-in commands, the shell
    tools, the server's sockets, libevent, igl).  Destructors that only free blocks are
    left out where nothing depends on them.  The interleavings are those of the step
    relations of [Sync] and [Sockets], the ticks of [ProcCalls] and the timer interrupts
    of [Timer]. *)
From stdpp Require Export base gmap list sets fin_maps.
From Stdlib Require Export ZArith Lia.

#[export] Set Default Goal Selector "!".
Open Scope Z_scope.

(** ** Outcomes of C code

    [Ok] is a normal return; [Fault] is an access C leaves undefined (a null or
    unmapped pointer, an index outside its array); [Hang] is a loop that spends
    its fuel, which the theorems exclude. *)
Inductive result (A : Type) : Type :=
| Ok (a : A)
| Fault
| Hang.

Arguments Ok {A} a.
Arguments Fault {A}.
Arguments Hang {A}.

(** State-passing computations over a component's state. *)
Definition M (S A : Type) : Type := S → result (A * S).

#[export] Instance M_ret S : MRet (M S) := λ A a s, Ok (a, s).
#[export] Instance M_bind S : MBind (M S) := λ A B f c s,
  match c s with
  | Ok (a, s') => f a s'
  | Fault => Fault
  | Hang => Hang
  end.

Definition fault {S A : Type} : M S A := λ _, Fault.
Definition hang {S A : Type} : M S A := λ _, Hang.
Definition get {S A : Type} (f : S → A) : M S A := λ s, Ok (f s, s).
Definition modify {S : Type} (f : S → S) : M S unit := λ s, Ok (tt, f s).

(** [of_option o] is an access that is undefined when [o] is [None]. *)
Definition of_option {S A : Type} (o : option A) : M S A :=
  match o with Some a => mret a | None => fault end.

(** A C loop: the body yields the next iterate or the value it leaves with. *)
Fixpoint loop {S A R : Type} (fuel : nat) (body : A → M S (A + R)) (a : A) : M S R :=
  match fuel with
  | O => hang
  | S n =>
    r ← body a;
    match r with
    | inl a' => loop n body a'
    | inr x => mret x
    end
  end.

(** ** Total-correctness weakest preconditions

    [wp c Q s]: from [s], [c] returns (neither faults nor hangs) and its value
    and final state satisfy [Q]. *)
Definition wp {S A : Type} (c : M S A) (Q : A → S → Prop) (s : S) : Prop :=
  match c s with
  | Ok (a, s') => Q a s'
  | _ => False
  end.

Section wp_rules.
Context {S : Type}.

Lemma wp_ret {A} (a : A) (Q : A → S → Prop) s : Q a s → wp (mret a) Q s.
Proof. done. Qed.

Lemma wp_get {A} (f : S → A) (Q : A → S → Prop) s : Q (f s) s → wp (get f) Q s.
Proof. done. Qed.

Lemma wp_modify (f : S → S) (Q : unit → S → Prop) s : Q tt (f s) → wp (modify f) Q s.
Proof. done. Qed.

Lemma wp_option {A} (o : option A) a (Q : A → S → Prop) s :
  o = Some a → Q a s → wp (of_option o) Q s.
Proof. by intros ->. Qed.

Lemma wp_bind {A B} (c : M S A) (f : A → M S B) (Q : B → S → Prop) s :
  wp c (λ a s', wp (f a) Q s') s → wp (c ≫= f) Q s.
Proof.
  unfold wp, mbind, M_bind. by destruct (c s) as [[a s']| |].
Qed.

Lemma wp_mono {A} (c : M S A) (P Q : A → S → Prop) s :
  wp c P s → (∀ a s', P a s' → Q a s') → wp c Q s.
Proof. unfold wp. destruct (c s) as [[a s']| |]; auto. Qed.

(** A loop whose invariant carries a decreasing measure returns. *)
Lemma wp_loop {A R} (body : A → M S (A + R)) (I : nat → A → S → Prop)
    (Q : R → S → Prop) :
  (∀ n a s, I n a s →
     wp (body a) (λ r s', match r with
                          | inl a' => ∃ m, (m < n)%nat ∧ I m a' s'
                          | inr x => Q x s'
                          end) s) →
  ∀ fuel n a s, I n a s → (n < fuel)%nat → wp (loop fuel body a) Q s.
Proof.
  intros Hbody fuel. induction fuel as [|fuel IH]; intros n a s HI Hn; [lia|].
  simpl. apply wp_bind. eapply wp_mono; [by apply Hbody|].
  intros [a'|x] s' Hr; [|by apply wp_ret].
  destruct Hr as (m & Hm & HI'). eapply IH; [done|lia].
Qed.

Lemma wp_run {A} (c : M S A) (Q : A → S → Prop) s :
  wp c Q s → ∃ a s', c s = Ok (a, s') ∧ Q a s'.
Proof. unfold wp. destruct (c s) as [[a s']| |]; naive_solver. Qed.

Lemma run_wp {A} (c : M S A) (Q : A → S → Prop) s a s' :
  c s = Ok (a, s') → Q a s' → wp c Q s.
Proof. unfold wp. by intros ->. Qed.
End wp_rules.

(** The evaluation of a sequence whose first part is known. *)
Lemma bind_ok {S A B} (c : M S A) (f : A → M S B) s a s' :
  c s = Ok (a, s') → (c ≫= f) s = f a s'.
Proof. unfold mbind, M_bind. by intros ->. Qed.

(** One round of a loop. *)
Lemma loop_next {S A R} n (body : A → M S (A + R)) a s a' s' :
  body a s = Ok (inl a', s') → loop (Datatypes.S n) body a s = loop n body a' s'.
Proof. intros Hb. cbn [loop]. by rewrite (bind_ok _ _ _ _ _ Hb). Qed.

Lemma loop_done {S A R} n (body : A → M S (A + R)) a s x s' :
  body a s = Ok (inr x, s') → loop (Datatypes.S n) body a s = Ok (x, s').
Proof. intros Hb. cbn [loop]. by rewrite (bind_ok _ _ _ _ _ Hb). Qed.

Lemma bind_fault {S A B} (c : M S A) (f : A → M S B) s :
  c s = Fault → (c ≫= f) s = Fault.
Proof. unfold mbind, M_bind. by intros ->. Qed.

(** One symbolic step of a straight-line computation. *)
Ltac wp_step :=
  lazymatch goal with
  | |- wp (mbind _ _) _ _ => apply wp_bind
  | |- wp (mret _) _ _ => apply wp_ret
  | |- wp (get _) _ _ => apply wp_get
  | |- wp (modify _) _ _ => apply wp_modify
  | |- wp (of_option _) _ _ => eapply wp_option
  end.

Ltac wp_steps := repeat (wp_step; simpl).

(** A loop over the elements of a list. *)
Fixpoint for_each {S A : Type} (xs : list A) (body : A → M S unit) : M S unit :=
  match xs with
  | [] => mret tt
  | x :: xs' => _ ← body x; for_each xs' body
  end.

(** A division whose divisor is 0 traps. *)
Definition udiv {S : Type} (a b : Z) : M S Z := if b =? 0 then fault else mret (a / b).
Definition umod {S : Type} (a b : Z) : M S Z := if b =? 0 then fault else mret (a mod b).

Lemma udiv_ok {S} a b (s : S) : b ≠ 0 → udiv a b s = Ok (a / b, s).
Proof. intros Hb. unfold udiv. by destruct (Z.eqb_spec b 0). Qed.

Lemma umod_ok {S} a b (s : S) : b ≠ 0 → umod a b s = Ok (a mod b, s).
Proof. intros Hb. unfold umod. by destruct (Z.eqb_spec b 0). Qed.

(** ** Machine integers: i386, two's complement *)
Definition u8 (z : Z) : Z := z mod 256.
Definition u16 (z : Z) : Z := z mod 65536.
Definition u32 (z : Z) : Z := z mod 4294967296.
Definition s32 (z : Z) : Z :=
  let y := u32 z in if y <? 2147483648 then y else y - 4294967296.

Lemma u32_small z : 0 ≤ z < 4294967296 → u32 z = z.
Proof. apply Z.mod_small. Qed.

Lemma u32_range z : 0 ≤ u32 z < 4294967296.
Proof. by apply Z.mod_pos_bound. Qed.

Lemma u16_small z : 0 ≤ z < 65536 → u16 z = z.
Proof. apply Z.mod_small. Qed.

Lemma u16_range z : 0 ≤ u16 z < 65536.
Proof. by apply Z.mod_pos_bound. Qed.

Lemma u8_small z : 0 ≤ z < 256 → u8 z = z.
Proof. apply Z.mod_small. Qed.

Lemma s32_small z : -2147483648 ≤ z < 2147483648 → s32 z = z.
Proof.
  intros Hz. unfold s32, u32. destruct (decide (0 ≤ z)).
  - rewrite Z.mod_small by lia. destruct (Z.ltb_spec z 2147483648); lia.
  - replace (z mod 4294967296) with (z + 4294967296).
    + destruct (Z.ltb_spec (z + 4294967296) 2147483648); lia.
    + rewrite <- (Z.mod_small (z + 4294967296) 4294967296) at 1 by lia.
      rewrite <- (Z_mod_plus_full z 1 4294967296). f_equal; lia.
Qed.

Create HintDb yanix.
#[export] Hint Resolve u32_range u16_range : yanix.

(** Split every boolean comparison of the goal or of a hypothesis. *)
Ltac bool_cases :=
  repeat match goal with
  | |- context [Z.eqb ?a ?b] => destruct (Z.eqb_spec a b)
  | |- context [Z.ltb ?a ?b] => destruct (Z.ltb_spec a b)
  | |- context [Z.leb ?a ?b] => destruct (Z.leb_spec a b)
  | H : context [Z.eqb ?a ?b] |- _ => destruct (Z.eqb_spec a b)
  | H : context [Z.ltb ?a ?b] |- _ => destruct (Z.ltb_spec a b)
  | H : context [Z.leb ?a ?b] |- _ => destruct (Z.leb_spec a b)
  end.

(** ** Page arithmetic: the masks 0xFFF and 0xFFFFF000 *)

Lemma testbit_above m w n : 0 ≤ m < 2 ^ w → 0 ≤ w ≤ n → Z.testbit m n = false.
Proof.
  intros Hm Hn. rewrite <- (Z.mod_small m (2 ^ w)) by done.
  by apply Z.mod_pow2_bits_high.
Qed.

Lemma land_page_offset m : Z.land m 4095 = m mod 4096.
Proof. change 4095 with (Z.ones 12). by rewrite Z.land_ones. Qed.

Lemma land_page_base m : 0 ≤ m < 4294967296 → Z.land m 4294963200 = m - m mod 4096.
Proof.
  intros Hm. transitivity (m / 4096 * 4096).
  2: { pose proof (Z.div_mod m 4096). lia. }
  change 4294963200 with (Z.shiftl (Z.ones 20) 12).
  change (m / 4096 * 4096) with (m / 2 ^ 12 * 2 ^ 12).
  rewrite <- Z.shiftr_div_pow2, <- Z.shiftl_mul_pow2 by lia.
  apply Z.bits_inj'. intros n Hn. rewrite Z.land_spec, !Z.shiftl_spec by lia.
  destruct (decide (n < 12)).
  - rewrite !(Z.testbit_neg_r _ (n - 12)) by lia. apply andb_false_r.
  - rewrite Z.shiftr_spec by lia. replace (n - 12 + 12) with n by lia.
    destruct (decide (n < 32)).
    + rewrite Z.ones_spec_low by lia. apply andb_true_r.
    + rewrite (testbit_above m 32) by lia. done.
Qed.
