(* ===== verification/LinkedList.v ===== *)
(** * The block lists of the kernel heap (kernel/mm/linkedlist.c)

    A heap is a region [memstart, memstart + cursize) cut into blocks.  Each
    block starts with a [struct ll_node] header (12 bytes on i386) and is on one
    of two doubly linked lists: the used list, in allocation order, and the free
    list, sorted by size.  The headers live in the store [ll_mem] at their
    addresses, so the lists are the pointers of the code, with 0 for NULL; an
    access through NULL or to an address with no header is [Fault].

    The file has the code, the abstract heap (two lists of blocks) it implements,
    the refinement theorems and the invariant of the abstract heap. *)
From S2P Require Import Prelude.

Definition NODESIZE_MAX : Z := 32.
Definition SIZEOF_LL_NODE : Z := 12.
Definition ENOMEM : Z := 12.
Definition EFAULT : Z := 14.

Record ll_node := LLNode { nd_size : Z; nd_next : Z; nd_prev : Z }.

Record linkedlist := Linkedlist {
  memstart : Z;
  maxsize : Z;
  cursize : Z;
  user : Z;
  start_used : Z;
  start_free : Z
}.

Record llst := LLSt {
  ll_list : linkedlist;
  ll_mem : gmap Z ll_node;
  ll_errno : Z
}.

(** ** Access to the list structure and to the headers *)

Definition upd_list (f : linkedlist → linkedlist) : M llst unit :=
  modify (λ s, LLSt (f (ll_list s)) (ll_mem s) (ll_errno s)).

Definition with_start_used (v : Z) (l : linkedlist) : linkedlist :=
  Linkedlist (memstart l) (maxsize l) (cursize l) (user l) v (start_free l).
Definition with_start_free (v : Z) (l : linkedlist) : linkedlist :=
  Linkedlist (memstart l) (maxsize l) (cursize l) (user l) (start_used l) v.
Definition with_cursize (v : Z) (l : linkedlist) : linkedlist :=
  Linkedlist (memstart l) (maxsize l) v (user l) (start_used l) (start_free l).

Definition set_errno (e : Z) : M llst unit :=
  modify (λ s, LLSt (ll_list s) (ll_mem s) e).

Definition put_node (p : Z) (n : ll_node) : M llst unit :=
  if p =? 0 then fault
  else modify (λ s, LLSt (ll_list s) (<[p := n]> (ll_mem s)) (ll_errno s)).

Definition get_node (p : Z) : M llst ll_node :=
  if p =? 0 then fault else m ← get ll_mem; of_option (m !! p).

Definition set_next (p v : Z) : M llst unit :=
  n ← get_node p; put_node p (LLNode (nd_size n) v (nd_prev n)).
Definition set_prev (p v : Z) : M llst unit :=
  n ← get_node p; put_node p (LLNode (nd_size n) (nd_next n) v).
Definition set_size (p v : Z) : M llst unit :=
  n ← get_node p; put_node p (LLNode v (nd_next n) (nd_prev n)).

(** Enough iterations for any list whose nodes are distinct headers. *)
Definition list_fuel (s : llst) : nat := S (size (ll_mem s)).

(** ** List operations *)

Definition listcount (start : Z) : M llst Z :=
  if start =? 0 then mret 0
  else
    fuel ← get list_fuel;
    loop fuel (λ '(p, cnt),
      n ← get_node p;
      if nd_next n =? 0 then mret (inr cnt)
      else mret (inl (nd_next n, s32 (cnt + 1)))) (start, 1).

(** [while (tmp->next) tmp = tmp->next;] *)
Definition last_node (start : Z) : M llst Z :=
  fuel ← get list_fuel;
  loop fuel (λ p,
    n ← get_node p;
    if nd_next n =? 0 then mret (inr p) else mret (inl (nd_next n))) start.

(** [tmp->next = node; node->prev = tmp; node->next = 0;] *)
Definition link_after (node tmp : Z) : M llst unit :=
  _ ← set_next tmp node;
  _ ← set_prev node tmp;
  set_next node 0.

Definition add_to_used (node : Z) : M llst unit :=
  l ← get ll_list;
  if start_used l =? 0 then
    _ ← upd_list (with_start_used node);
    _ ← set_prev node 0;
    set_next node 0
  else
    tmp ← last_node (start_used l);
    link_after node tmp.

(** Link [node] in front of [tmp]. *)
Definition link_before (node tmp : Z) : M llst unit :=
  t ← get_node tmp;
  _ ← (if nd_prev t =? 0 then upd_list (with_start_free node)
       else set_next (nd_prev t) node);
  t' ← get_node tmp;
  _ ← set_prev node (nd_prev t');
  _ ← set_prev tmp node;
  set_next node tmp.

Definition add_to_free (node : Z) : M llst unit :=
  l ← get ll_list;
  if start_free l =? 0 then
    _ ← upd_list (with_start_free node);
    _ ← set_prev node 0;
    set_next node 0
  else
    fuel ← get list_fuel;
    loop fuel (λ tmp,
      t ← get_node tmp;
      nd ← get_node node;
      if nd_size nd <? nd_size t then
        _ ← link_before node tmp;
        mret (inr tt)
      else if nd_next t =? 0 then
        _ ← link_after node tmp;
        mret (inr tt)
      else mret (inl (nd_next t))) (start_free l).

(** Unlink [node] from the list whose head field [with_start] updates. *)
Definition release_node (node : Z) (with_start : Z → linkedlist → linkedlist) :
    M llst unit :=
  n ← get_node node;
  _ ← (if nd_prev n =? 0 then upd_list (with_start (nd_next n))
       else set_next (nd_prev n) (nd_next n));
  n' ← get_node node;
  if nd_next n' =? 0 then mret tt else set_prev (nd_next n') (nd_prev n').

Definition mark_used (node : Z) : M llst unit :=
  _ ← release_node node with_start_free;
  add_to_used node.

Definition mark_free (node : Z) : M llst unit :=
  _ ← release_node node with_start_used;
  add_to_free node.

Definition next_page_address (m : Z) : Z := u32 (Z.land m 4294963200 + 4096).

(** ** Growing the heap *)

Definition expand_heap_align_split (nodesize heapend alignoffset : Z) : M llst Z :=
  _ ← put_node heapend (LLNode (u32 (alignoffset - SIZEOF_LL_NODE * 2)) 0 0);
  _ ← add_to_free heapend;
  let newnode := u32 (heapend + alignoffset - SIZEOF_LL_NODE) in
  _ ← put_node newnode (LLNode nodesize 0 0);
  _ ← upd_list (λ l, with_cursize (u32 (cursize l + (alignoffset + nodesize))) l);
  mret newnode.

Definition expand_heap (nodesize : Z) (pagealign : bool) : M llst Z :=
  l ← get ll_list;
  let heapend := u32 (memstart l + cursize l) in
  if pagealign then
    let addr := next_page_address heapend in
    let offset := u32 (addr - heapend) in
    if u32 (offset + nodesize + cursize l) <=? maxsize l then
      if SIZEOF_LL_NODE * 2 + NODESIZE_MAX <=? offset then
        expand_heap_align_split nodesize heapend offset
      else if offset =? SIZEOF_LL_NODE then
        _ ← put_node heapend (LLNode nodesize 0 0);
        _ ← upd_list (λ l, with_cursize (u32 (cursize l + (nodesize + offset))) l);
        mret heapend
      else
        expand_heap_align_split nodesize heapend (u32 (offset + 4096))
    else
      _ ← set_errno ENOMEM;
      mret 0
  else
    if u32 (cursize l + nodesize + SIZEOF_LL_NODE) <=? maxsize l then
      _ ← put_node heapend (LLNode nodesize 0 0);
      _ ← upd_list (λ l, with_cursize (u32 (cursize l + (nodesize + SIZEOF_LL_NODE))) l);
      mret heapend
    else
      _ ← set_errno ENOMEM;
      mret 0.

(** ** Allocating and freeing a block *)

Definition perfect_fit (node : Z) : M llst Z :=
  _ ← mark_used node;
  mret node.

Definition split_fit (nodesize node : Z) : M llst Z :=
  n ← get_node node;
  if u32 (nd_size n - nodesize) <? NODESIZE_MAX + SIZEOF_LL_NODE then
    _ ← mark_used node;
    mret node
  else
    let newnode := u32 (node + nodesize + SIZEOF_LL_NODE) in
    _ ← put_node newnode
          (LLNode (u32 (nd_size n - (nodesize + SIZEOF_LL_NODE))) 0 0);
    _ ← set_size node nodesize;
    _ ← mark_used node;
    _ ← add_to_free newnode;
    mret node.

Definition check_pa_addr_in (node sz : Z) : Z := 0.

Definition fit (searchsize node : Z) : M llst Z :=
  n ← get_node node;
  if nd_size n =? searchsize then perfect_fit node else split_fit searchsize node.

(** The search of the free list; [None] when no block fits.  Under [pagealigned]
    only a block whose data already starts on a page boundary is taken: the code
    after the [continue] in the C loop is never reached. *)
Definition search_free (searchsize : Z) (pagealigned : bool) (start : Z) :
    M llst (option Z) :=
  fuel ← get list_fuel;
  loop fuel (λ tmp,
    t ← get_node tmp;
    if (searchsize <=? nd_size t) &&
       (negb pagealigned || (Z.land (tmp + SIZEOF_LL_NODE) 4095 =? 0)) then
      r ← fit searchsize tmp;
      mret (inr (Some r))
    else if nd_next t =? 0 then mret (inr None)
    else mret (inl (nd_next t))) start.

Definition get_free (searchsize : Z) (pagealigned : bool) : M llst Z :=
  let searchsize := if searchsize <? NODESIZE_MAX then NODESIZE_MAX else searchsize in
  l ← get ll_list;
  found ← (if start_free l =? 0 then mret None
           else search_free searchsize pagealigned (start_free l));
  match found with
  | Some r => mret r
  | None =>
    newnode ← expand_heap searchsize pagealigned;
    _ ← add_to_used newnode;
    mret newnode
  end.

(** Whether a node is on the list that starts at [start]. *)
Definition on_list (start node : Z) : M llst bool :=
  if start =? 0 then mret false
  else
    fuel ← get list_fuel;
    loop fuel (λ tmp,
      if tmp =? node then mret (inr true)
      else
        t ← get_node tmp;
        if nd_next t =? 0 then mret (inr false) else mret (inl (nd_next t))) start.

Definition free_node (node : Z) : M llst Z :=
  l ← get ll_list;
  found ← on_list (start_used l) node;
  if (found : bool) then
    _ ← mark_free node;
    mret 0
  else
    _ ← set_errno EFAULT;
    mret (-1).

Definition dbg_is_heapblock_free (node : Z) : M llst Z :=
  l ← get ll_list;
  found ← on_list (start_free l) node;
  mret (if (found : bool) then 1 else 0).

(** ** The abstract heap *)

(** A block: the address of its header and the size of its data. *)
Notation blk := (Z * Z)%type.

Definition addrs (bs : list blk) : list Z := bs.*1.

Record aheap := AHeap {
  a_start : Z;
  a_max : Z;
  a_cur : Z;
  a_free : list blk;
  a_used : list blk
}.

(** Insertion in the free list: in front of the first strictly larger block. *)
Fixpoint insert_free (b : blk) (bs : list blk) : list blk :=
  match bs with
  | [] => [b]
  | c :: bs' => if b.2 <? c.2 then b :: c :: bs' else c :: insert_free b bs'
  end.

Fixpoint find_fit (p : blk → bool) (bs : list blk) : option (list blk * blk * list blk) :=
  match bs with
  | [] => None
  | b :: bs' =>
    if p b then Some ([], b, bs')
    else match find_fit p bs' with
         | Some (pre, c, post) => Some (b :: pre, c, post)
         | None => None
         end
  end.

Definition fits (sz : Z) (align : bool) (b : blk) : bool :=
  (sz <=? b.2) && (negb align || (Z.land (b.1 + SIZEOF_LL_NODE) 4095 =? 0)).

Definition round_req (req : Z) : Z := if req <? NODESIZE_MAX then NODESIZE_MAX else req.

(** Take block [b] out of the free list [rest] for a request of [sz] bytes. *)
Definition carve (sz : Z) (b : blk) (rest : list blk) (a : aheap) : Z * aheap :=
  if b.2 - sz <? NODESIZE_MAX + SIZEOF_LL_NODE then
    (b.1, AHeap (a_start a) (a_max a) (a_cur a) rest (a_used a ++ [b]))
  else
    (b.1, AHeap (a_start a) (a_max a) (a_cur a)
            (insert_free (b.1 + sz + SIZEOF_LL_NODE, b.2 - (sz + SIZEOF_LL_NODE)) rest)
            (a_used a ++ [(b.1, sz)])).

(** The distance from the heap's end to the next page boundary, in 1..4096. *)
Definition page_gap (a : aheap) : Z := 4096 - (a_start a + a_cur a) mod 4096.

Definition grow (sz : Z) (align : bool) (a : aheap) : option (Z * aheap) :=
  let heapend := a_start a + a_cur a in
  if align then
    let gap := page_gap a in
    if gap + sz + a_cur a <=? a_max a then
      if gap =? SIZEOF_LL_NODE then
        Some (heapend, AHeap (a_start a) (a_max a) (a_cur a + gap + sz)
                         (a_free a) (a_used a ++ [(heapend, sz)]))
      else
        let gap' := if SIZEOF_LL_NODE * 2 + NODESIZE_MAX <=? gap then gap
                    else gap + 4096 in
        let node := heapend + gap' - SIZEOF_LL_NODE in
        Some (node, AHeap (a_start a) (a_max a) (a_cur a + gap' + sz)
                      (insert_free (heapend, gap' - SIZEOF_LL_NODE * 2) (a_free a))
                      (a_used a ++ [(node, sz)]))
    else None
  else
    if a_cur a + sz + SIZEOF_LL_NODE <=? a_max a then
      Some (heapend, AHeap (a_start a) (a_max a) (a_cur a + sz + SIZEOF_LL_NODE)
                       (a_free a) (a_used a ++ [(heapend, sz)]))
    else None.

Definition aget (req : Z) (align : bool) (a : aheap) : option (Z * aheap) :=
  let sz := round_req req in
  match find_fit (fits sz align) (a_free a) with
  | Some (pre, b, post) => Some (carve sz b (pre ++ post) a)
  | None => grow sz align a
  end.

Definition afree (node : Z) (a : aheap) : option aheap :=
  match find_fit (λ b, b.1 =? node) (a_used a) with
  | Some (pre, b, post) =>
    Some (AHeap (a_start a) (a_max a) (a_cur a)
            (insert_free b (a_free a)) (pre ++ post))
  | None => None
  end.

(** ** Linked lists in the store *)

Definition head_addr (bs : list blk) (d : Z) : Z :=
  match bs with [] => d | b :: _ => b.1 end.

Fixpoint last_addr (bs : list blk) (d : Z) : Z :=
  match bs with [] => d | b :: bs' => last_addr bs' b.1 end.

(** [chain m prv bs nxt]: the headers of [bs] are linked in order, both ways,
    between [prv] and [nxt]. *)
Fixpoint chain (m : gmap Z ll_node) (prv : Z) (bs : list blk) (nxt : Z) : Prop :=
  match bs with
  | [] => True
  | b :: bs' =>
    b.1 ≠ 0 ∧ m !! b.1 = Some (LLNode b.2 (head_addr bs' nxt) prv) ∧
    chain m b.1 bs' nxt
  end.

Lemma head_addr_app bs cs d : head_addr (bs ++ cs) d = head_addr bs (head_addr cs d).
Proof. by destruct bs. Qed.

Lemma last_addr_app bs cs d : last_addr (bs ++ cs) d = last_addr cs (last_addr bs d).
Proof. revert d. induction bs; simpl; auto. Qed.

Lemma chain_app m prv bs cs nxt :
  chain m prv (bs ++ cs) nxt ↔
  chain m prv bs (head_addr cs nxt) ∧ chain m (last_addr bs prv) cs nxt.
Proof.
  revert prv. induction bs as [|b bs IH]; intros prv; simpl; [tauto|].
  rewrite IH, head_addr_app. tauto.
Qed.

Lemma chain_frame m m' prv bs nxt :
  (∀ x, x ∈ addrs bs → m' !! x = m !! x) → chain m prv bs nxt → chain m' prv bs nxt.
Proof.
  revert prv. induction bs as [|b bs IH]; intros prv Hm; simpl; [done|].
  intros (Hb & Hl & Hc). split_and!; [done| |].
  - rewrite Hm; [done|]. left.
  - apply IH; [|done]. intros x Hx. apply Hm. by right.
Qed.

Lemma chain_insert m prv bs nxt a n :
  a ∉ addrs bs → chain m prv bs nxt → chain (<[a := n]> m) prv bs nxt.
Proof.
  intros Ha. apply chain_frame. intros x Hx. apply lookup_insert_ne. set_solver.
Qed.

Lemma chain_lookup m prv bs nxt a : chain m prv bs nxt → a ∈ addrs bs → is_Some (m !! a).
Proof.
  revert prv. induction bs as [|b bs IH]; intros prv; simpl.
  - intros _ Ha. by apply elem_of_nil in Ha.
  - intros (_ & Hl & Hc) Ha. apply elem_of_cons in Ha as [->|Ha]; [eauto|].
    by eapply IH.
Qed.

Lemma chain_nonzero m prv bs nxt : chain m prv bs nxt → 0 ∉ addrs bs.
Proof.
  revert prv. induction bs as [|b bs IH]; intros prv; simpl.
  - intros _. apply not_elem_of_nil.
  - intros (Hb & _ & Hc). apply not_elem_of_cons. split; [done|]. by eapply IH.
Qed.

Lemma chain_length m prv bs nxt :
  NoDup (addrs bs) → chain m prv bs nxt → (length bs ≤ size m)%nat.
Proof.
  intros Hnd Hc. rewrite <- (length_fmap fst bs). fold (addrs bs).
  rewrite <- (size_list_to_set (C := gset Z)) by done.
  rewrite <- (size_dom m). apply subseteq_size. intros a Ha.
  rewrite elem_of_list_to_set in Ha. apply elem_of_dom. by eapply chain_lookup.
Qed.

Lemma head_addr_zero m prv bs : chain m prv bs 0 → head_addr bs 0 = 0 → bs = [].
Proof. destruct bs as [|b bs]; [done|]. simpl. intros (Hb & _). done. Qed.

Lemma addrs_app bs cs : addrs (bs ++ cs) = addrs bs ++ addrs cs.
Proof. apply fmap_app. Qed.

Lemma addrs_cons b bs : addrs (b :: bs) = b.1 :: addrs bs.
Proof. done. Qed.

(** ** Specifications of the pointer operations *)

Notation put s p n := (LLSt (ll_list s) (<[p := n]> (ll_mem s)) (ll_errno s)).

Lemma wp_get_node p n (Q : ll_node → llst → Prop) s :
  p ≠ 0 → ll_mem s !! p = Some n → Q n s → wp (get_node p) Q s.
Proof.
  intros Hp Hn HQ. unfold get_node. destruct (Z.eqb_spec p 0); [done|].
  wp_steps; done.
Qed.

Lemma wp_put_node p n (Q : unit → llst → Prop) s :
  p ≠ 0 → Q tt (put s p n) → wp (put_node p n) Q s.
Proof. intros Hp HQ. unfold put_node. by destruct (Z.eqb_spec p 0). Qed.

Lemma wp_set_next p v n (Q : unit → llst → Prop) s :
  p ≠ 0 → ll_mem s !! p = Some n →
  Q tt (put s p (LLNode (nd_size n) v (nd_prev n))) → wp (set_next p v) Q s.
Proof.
  intros. unfold set_next. wp_step. eapply wp_get_node; [done..|].
  by apply wp_put_node.
Qed.

Lemma wp_set_prev p v n (Q : unit → llst → Prop) s :
  p ≠ 0 → ll_mem s !! p = Some n →
  Q tt (put s p (LLNode (nd_size n) (nd_next n) v)) → wp (set_prev p v) Q s.
Proof.
  intros. unfold set_prev. wp_step. eapply wp_get_node; [done..|].
  by apply wp_put_node.
Qed.

Lemma wp_set_size p v n (Q : unit → llst → Prop) s :
  p ≠ 0 → ll_mem s !! p = Some n →
  Q tt (put s p (LLNode v (nd_next n) (nd_prev n))) → wp (set_size p v) Q s.
Proof.
  intros. unfold set_size. wp_step. eapply wp_get_node; [done..|].
  by apply wp_put_node.
Qed.

Lemma get_node_run p n s : p ≠ 0 → ll_mem s !! p = Some n → get_node p s = Ok (n, s).
Proof.
  intros Hp Hn. unfold get_node. destruct (Z.eqb_spec p 0); [done|].
  unfold get, of_option, mbind, M_bind. by rewrite Hn.
Qed.

(** Solve the lookup premises of the rules above. *)
Ltac lkp := simpl; first [done | by simplify_map_eq].

(** One step of pointer code; lookups are discharged from the context. *)
Ltac ll_step :=
  lazymatch goal with
  | |- wp (get_node _) _ _ => eapply wp_get_node; [done|lkp|]
  | |- wp (set_next _ _) _ _ => eapply wp_set_next; [done|lkp|]
  | |- wp (set_prev _ _) _ _ => eapply wp_set_prev; [done|lkp|]
  | |- wp (set_size _ _) _ _ => eapply wp_set_size; [done|lkp|]
  | |- wp (put_node _ _) _ _ => apply wp_put_node; [done|]
  | |- wp (upd_list _) _ _ => apply wp_modify
  | |- wp (set_errno _) _ _ => apply wp_modify
  | _ => wp_step
  end; simpl.

Ltac ll_steps := repeat ll_step.

(** The state an operation on one of the lists leaves: the list structure is
    [l], the chain is [bs], and no header outside [dom] changed. *)
Definition linked (l : linkedlist) (m : gmap Z ll_node) (e : Z)
    (bs : list blk) (dom : list Z) (s : llst) : Prop :=
  ll_list s = l ∧ ll_errno s = e ∧ chain (ll_mem s) 0 bs 0 ∧
  ∀ x, x ∉ dom → ll_mem s !! x = m !! x.

Lemma list_fuel_chain s prv bs nxt :
  NoDup (addrs bs) → chain (ll_mem s) prv bs nxt → (length bs < list_fuel s)%nat.
Proof. intros Hnd Hc. unfold list_fuel. pose proof (chain_length _ _ _ _ Hnd Hc). lia. Qed.

Lemma last_node_spec s prv bs t :
  NoDup (addrs (bs ++ [t])) → chain (ll_mem s) prv (bs ++ [t]) 0 →
  last_node (head_addr (bs ++ [t]) 0) s = Ok (t.1, s).
Proof.
  intros Hnd Hc. unfold last_node. rewrite (bind_ok _ _ s (list_fuel s) s) by done.
  pose proof (list_fuel_chain _ _ _ _ Hnd Hc) as Hf. clear Hnd.
  revert prv Hc Hf. generalize (list_fuel s). induction bs as [|b bs IH]; intros fuel prv Hc Hf.
  - destruct fuel as [|fuel]; simpl in Hf; [lia|]. simpl in Hc.
    destruct Hc as (Ht & Hl & _). simpl.
    unfold mbind, M_bind. by rewrite (get_node_run _ _ _ Ht Hl).
  - destruct fuel as [|fuel]; simpl in Hf; [lia|]. simpl in Hc.
    destruct Hc as (Hb & Hl & Hc). simpl. rewrite head_addr_app in Hl. simpl in Hl.
    rewrite (bind_ok _ _ s (inl (head_addr bs t.1)) s).
    + specialize (IH fuel b.1 Hc). rewrite head_addr_app in IH. apply IH. lia.
    + unfold get_node. destruct (Z.eqb_spec b.1 0); [done|].
      unfold get, of_option, mbind, M_bind. rewrite Hl. simpl.
      destruct (Z.eqb_spec (head_addr bs t.1) 0) as [He|]; [|done].
      destruct bs as [|c bs]; simpl in *; naive_solver.
Qed.

Lemma insert_free_app pre b post :
  Forall (λ c, c.2 ≤ b.2) pre → insert_free b (pre ++ post) = pre ++ insert_free b post.
Proof.
  induction 1 as [|c pre Hc _ IH]; [done|]. simpl. rewrite IH.
  destruct (Z.ltb_spec b.2 c.2); [lia|done].
Qed.

#[export] Instance addrs_perm : Proper (Permutation ==> Permutation) addrs.
Proof. intros bs cs H. by apply fmap_Permutation. Qed.

Lemma NoDup_mid pre t post :
  NoDup (addrs (pre ++ t :: post)) ↔
  t.1 ∉ addrs pre ∧ t.1 ∉ addrs post ∧ NoDup (addrs (pre ++ post)).
Proof.
  rewrite <- Permutation_middle. rewrite addrs_cons, NoDup_cons, !addrs_app,
    not_elem_of_app. tauto.
Qed.

(** Put the freshness hypotheses in the form of one fact per list. *)
Ltac ni_norm :=
  repeat match goal with
  | H : NoDup (addrs (_ ++ _ :: _)) |- _ => apply NoDup_mid in H
  | H : NoDup (addrs (_ :: _)) |- _ => rewrite addrs_cons in H
  | H : NoDup (_ :: _) |- _ => apply NoDup_cons in H
  | H : NoDup (addrs ((_ ++ [_]) ++ _)) |- _ => rewrite <- app_assoc in H; simpl in H
  | H : _ ∉ addrs (_ ++ _) |- _ => rewrite addrs_app in H
  | H : _ ∉ addrs (_ :: _) |- _ => rewrite addrs_cons in H
  | H : _ ∉ addrs [] |- _ => clear H
  | H : _ ∉ _ ++ _ |- _ => apply not_elem_of_app in H
  | H : _ ∉ _ :: _ |- _ => apply not_elem_of_cons in H
  | H : _ ∧ _ |- _ => destruct H
  end.

Ltac ni := ni_norm; rewrite ?addrs_app, ?addrs_cons, ?not_elem_of_app, ?not_elem_of_cons;
  split_and?; auto using not_elem_of_nil.

Ltac chain_frames := repeat (apply chain_insert; [by ni|]).

Ltac frame_lookup :=
  let z := fresh "z" in let Hz := fresh "Hz" in
  intros z Hz; ni_norm; rewrite ?lookup_insert_ne by congruence; auto.

(** Linking [node] before [t], the head of the suffix [t :: post]. *)
Lemma link_before_spec s pre t post node sz x y :
  start_free (ll_list s) = head_addr pre t.1 →
  chain (ll_mem s) 0 (pre ++ t :: post) 0 → NoDup (addrs (pre ++ t :: post)) →
  node ∉ addrs (pre ++ t :: post) → node ≠ 0 →
  ll_mem s !! node = Some (LLNode sz x y) →
  wp (link_before node t.1)
     (λ _, linked (with_start_free (head_addr pre node) (ll_list s)) (ll_mem s) (ll_errno s)
             (pre ++ (node, sz) :: t :: post) (node :: addrs (pre ++ t :: post))) s.
Proof.
  intros Hst Hc Hnd Hni Hn0 Hn. unfold link_before. ni_norm.
  apply chain_app in Hc as [Hc1 Hc2]. simpl in Hc2. destruct Hc2 as (Ht0 & Ht & Hc2).
  destruct pre as [|p pre _] using rev_ind; simpl in *.
  - ll_steps. split_and!; simpl; [done..| |frame_lookup].
    split_and!; try done; [by simplify_map_eq..|]. by chain_frames.
  - rewrite last_addr_app in Ht. simpl in Ht.
    apply chain_app in Hc1 as [Hc1 Hp]. simpl in Hc1, Hp. destruct Hp as (Hp0 & Hp & _).
    ni_norm. do 2 ll_step. destruct (Z.eqb_spec p.1 0); [done|]. ll_steps.
    split_and!; simpl.
    + rewrite head_addr_app. destruct (ll_list s); simpl in *.
      rewrite head_addr_app in Hst. by destruct pre; simpl in *; subst.
    + done.
    + rewrite <- app_assoc. apply chain_app. split; [by chain_frames|].
      simpl. split_and!; try done; try by simplify_map_eq.
      by chain_frames.
    + frame_lookup.
Qed.

(** Linking [node] after [t], the last block. *)
Lemma link_after_spec s bs t node sz x y :
  chain (ll_mem s) 0 (bs ++ [t]) 0 → NoDup (addrs (bs ++ [t])) →
  node ∉ addrs (bs ++ [t]) → node ≠ 0 → ll_mem s !! node = Some (LLNode sz x y) →
  wp (link_after node t.1)
     (λ _, linked (ll_list s) (ll_mem s) (ll_errno s)
             ((bs ++ [t]) ++ [(node, sz)]) (node :: addrs (bs ++ [t]))) s.
Proof.
  intros Hc Hnd Hni Hn0 Hn. unfold link_after.
  apply chain_app in Hc as [Hc1 Hc2]. simpl in Hc1, Hc2. destruct Hc2 as (Ht0 & Ht & _). ni_norm. ll_steps.
  split_and!; [done..| |]; simpl; [|frame_lookup].
  rewrite <- app_assoc. apply chain_app. split; [by chain_frames|].
  simpl. split_and!; try done; by simplify_map_eq.
Qed.

Lemma add_to_used_spec s us node sz x y :
  start_used (ll_list s) = head_addr us 0 →
  chain (ll_mem s) 0 us 0 → NoDup (addrs us) → node ∉ addrs us → node ≠ 0 →
  ll_mem s !! node = Some (LLNode sz x y) →
  wp (add_to_used node)
     (λ _, linked (with_start_used (head_addr us node) (ll_list s)) (ll_mem s) (ll_errno s)
             (us ++ [(node, sz)]) (node :: addrs us)) s.
Proof.
  intros Hst Hc Hnd Hni Hn0 Hn. unfold add_to_used. do 2 wp_step. rewrite Hst.
  destruct (Z.eqb_spec (head_addr us 0) 0) as [He|He].
  - apply (head_addr_zero _ _ _ Hc) in He as ->. simpl in *.
    ll_steps. split_and!; [done..| |]; simpl; [|frame_lookup].
    rewrite insert_insert_eq. by simplify_map_eq.
  - destruct us as [|t us _] using rev_ind; [done|].
    wp_step. eapply run_wp; [by eapply last_node_spec|].
    eapply wp_mono; [by eapply link_after_spec|].
    intros _ s' (Hl & He' & Hc' & Hf). split_and!; try done.
    rewrite Hl, head_addr_app. rewrite head_addr_app in Hst. simpl in *.
    destruct (ll_list s); simpl in *. by destruct us; simpl in *; subst.
Qed.

Lemma add_to_free_spec s fs node sz x y :
  start_free (ll_list s) = head_addr fs 0 →
  chain (ll_mem s) 0 fs 0 → NoDup (addrs fs) → node ∉ addrs fs → node ≠ 0 →
  ll_mem s !! node = Some (LLNode sz x y) →
  wp (add_to_free node)
     (λ _, linked (with_start_free (head_addr (insert_free (node, sz) fs) 0) (ll_list s))
             (ll_mem s) (ll_errno s) (insert_free (node, sz) fs) (node :: addrs fs)) s.
Proof.
  intros Hst Hc Hnd Hni Hn0 Hn. unfold add_to_free. do 2 wp_step. rewrite Hst.
  destruct (Z.eqb_spec (head_addr fs 0) 0) as [He|He].
  - apply (head_addr_zero _ _ _ Hc) in He as ->. simpl in *.
    ll_steps. split_and!; [done..| |]; simpl; [|frame_lookup].
    rewrite insert_insert_eq. by simplify_map_eq.
  - do 2 wp_step. destruct fs as [|t fs]; [done|]. clear He. simpl head_addr at 1.
    eapply (wp_loop _ (λ n tmp s', s' = s ∧ ∃ pre u post,
      t :: fs = pre ++ u :: post ∧ tmp = u.1 ∧ n = length post ∧
      Forall (λ c, c.2 ≤ sz) pre)).
    2: { split; [done|]. by exists [], t, fs. }
    2: { pose proof (list_fuel_chain _ _ _ _ Hnd Hc) as Hf. simpl in Hf. lia. }
    intros n tmp s' (-> & pre & u & post & Hfs & -> & -> & Hpre).
    rewrite Hfs in *. rewrite (insert_free_app pre) by done.
    pose proof Hc as Hc'. apply chain_app in Hc' as [_ (Hu0 & Hu & Hc2)].
    do 4 ll_step. simpl insert_free. destruct (Z.ltb_spec sz u.2) as [Hlt|Hge].
    + wp_step. eapply wp_mono.
      { eapply link_before_spec; try done. by rewrite Hst, head_addr_app. }
      intros _ s' (Hl & He' & Hc' & Hf). wp_step. split_and!; try done.
      by rewrite Hl, head_addr_app.
    + destruct (Z.eqb_spec (head_addr post 0) 0) as [Hz|Hz].
      * apply (head_addr_zero _ _ _ Hc2) in Hz as ->. wp_step.
        eapply wp_mono; [by eapply link_after_spec|].
        intros _ s' (Hl & He' & Hc' & Hf). wp_step. rewrite <- app_assoc in Hc'.
        split_and!; try done. rewrite Hl. rewrite !head_addr_app in *. simpl in *.
        destruct (ll_list s); simpl in *. by destruct pre; simpl in *; subst.
      * ll_step. destruct post as [|v post]; [done|]. exists (length post).
        split; [simpl; lia|]. split; [done|]. exists (pre ++ [u]), v, post.
        rewrite <- app_assoc. split_and!; try done. by apply Forall_app_2; [|constructor].
Qed.

Lemma release_node_spec s with_start pre b post :
  with_start (head_addr (pre ++ b :: post) 0) (ll_list s) = ll_list s →
  chain (ll_mem s) 0 (pre ++ b :: post) 0 → NoDup (addrs (pre ++ b :: post)) →
  wp (release_node b.1 with_start)
     (λ _, linked (with_start (head_addr (pre ++ post) 0) (ll_list s))
             (ll_mem s) (ll_errno s) (pre ++ post) (addrs (pre ++ post))) s.
Proof.
  intros Hst Hc Hnd. unfold release_node. ni_norm.
  apply chain_app in Hc as [Hc1 Hc2]. simpl in Hc2. destruct Hc2 as (Hb0 & Hb & Hc2).
  destruct pre as [|p pre _] using rev_ind; simpl in *.
  - ll_steps. destruct (Z.eqb_spec (head_addr post 0) 0) as [He|He].
    + apply (head_addr_zero _ _ _ Hc2) in He as ->. by wp_steps.
    + destruct post as [|c post]; [done|]. simpl in *. destruct Hc2 as (Hc0 & Hlc & Hc2).
      ni_norm. ll_steps. split_and!; try done; simpl; [|frame_lookup].
      split_and!; try done; [by simplify_map_eq|by chain_frames].
  - rewrite last_addr_app in Hb. simpl in Hb.
    apply chain_app in Hc1 as [Hc1 Hp]. simpl in Hc1, Hp. destruct Hp as (Hp0 & Hp & _).
    ni_norm. do 2 ll_step. destruct (Z.eqb_spec p.1 0); [done|]. do 4 ll_step.
    assert (Hl : ll_list s = with_start (head_addr ((pre ++ [p]) ++ post) 0) (ll_list s)).
    { rewrite <- Hst at 1. f_equal. rewrite !head_addr_app. by destruct pre. }
    destruct (Z.eqb_spec (head_addr post 0) 0) as [He|He].
    + apply (head_addr_zero _ _ _ Hc2) in He as ->. ll_steps.
      split_and!; try done; simpl; rewrite ?app_nil_r in *; [|frame_lookup].
      apply chain_app. split; [by chain_frames|]. simpl. by simplify_map_eq.
    + destruct post as [|c post]; [done|]. simpl in *. destruct Hc2 as (Hc0 & Hlc & Hc2).
      ni_norm.
      ll_steps. split_and!; try done; simpl; [|frame_lookup].
      rewrite <- app_assoc. apply chain_app. split; [by chain_frames|].
      simpl. split_and!; try done; [by simplify_map_eq..|by chain_frames].
Qed.

(** ** Representation of an abstract heap *)

Definition with_free (a : aheap) (fs : list blk) : aheap :=
  AHeap (a_start a) (a_max a) (a_cur a) fs (a_used a).
Definition with_used (a : aheap) (us : list blk) : aheap :=
  AHeap (a_start a) (a_max a) (a_cur a) (a_free a) us.
Definition blocks (a : aheap) : list blk := a_free a ++ a_used a.

Record rep (s : llst) (a : aheap) : Prop := Rep {
  rep_start : memstart (ll_list s) = a_start a;
  rep_max : maxsize (ll_list s) = a_max a;
  rep_cur : cursize (ll_list s) = a_cur a;
  rep_sfree : start_free (ll_list s) = head_addr (a_free a) 0;
  rep_sused : start_used (ll_list s) = head_addr (a_used a) 0;
  rep_free : chain (ll_mem s) 0 (a_free a) 0;
  rep_used : chain (ll_mem s) 0 (a_used a) 0;
  rep_nodup : NoDup (addrs (blocks a))
}.

(** Headers that are on no list are left alone, and so is errno. *)
Definition quiet (s : llst) (a : aheap) (fresh : list Z) (s' : llst) : Prop :=
  ll_errno s' = ll_errno s ∧
  ∀ x, x ∉ fresh → x ∉ addrs (blocks a) → ll_mem s' !! x = ll_mem s !! x.

Lemma insert_free_perm b bs : insert_free b bs ≡ₚ b :: bs.
Proof.
  induction bs as [|c bs IH]; simpl; [done|]. destruct (Z.ltb_spec b.2 c.2); [done|].
  rewrite IH. constructor.
Qed.

Lemma blocks_disj a x :
  NoDup (addrs (blocks a)) → x ∈ addrs (a_free a) → x ∉ addrs (a_used a).
Proof.
  unfold blocks. rewrite addrs_app. intros (_ & Hd & _)%NoDup_app Hx. by apply Hd.
Qed.

Lemma blocks_nodup a :
  NoDup (addrs (blocks a)) → NoDup (addrs (a_free a)) ∧ NoDup (addrs (a_used a)).
Proof. unfold blocks. rewrite addrs_app. by intros (? & _ & ?)%NoDup_app. Qed.

Lemma rep_head_lookup s a b :
  rep s a → b ∈ blocks a → b.1 ≠ 0 ∧ ∃ x y, ll_mem s !! b.1 = Some (LLNode b.2 x y).
Proof.
  assert (Hlk : ∀ m prv bs, chain m prv bs 0 → b ∈ bs →
    b.1 ≠ 0 ∧ ∃ x y, m !! b.1 = Some (LLNode b.2 x y)).
  { intros m prv bs. revert prv. induction bs as [|c bs IH]; intros prv; simpl.
    - by intros _ ?%elem_of_nil.
    - intros (? & ? & Hc) [->|Hb]%elem_of_cons; [eauto|]. by eapply IH. }
  intros Hr [Hb|Hb]%elem_of_app.
  - by eapply Hlk, Hb; apply (rep_free _ _ Hr).
  - by eapply Hlk, Hb; apply (rep_used _ _ Hr).
Qed.

(** Adding a header that is on no list. *)
Lemma rep_add_used s a node sz x y :
  rep s a → node ∉ addrs (blocks a) → node ≠ 0 →
  ll_mem s !! node = Some (LLNode sz x y) →
  wp (add_to_used node)
     (λ _ s', rep s' (with_used a (a_used a ++ [(node, sz)])) ∧ quiet s a [node] s') s.
Proof.
  intros Hr Hni Hn0 Hn. pose proof (blocks_nodup _ (rep_nodup _ _ Hr)) as [_ Hnd].
  pose proof Hni as Hni'. unfold blocks in Hni'. rewrite addrs_app in Hni'.
  apply not_elem_of_app in Hni' as [Hf Hu]. destruct Hr.
  eapply wp_mono; [by eapply add_to_used_spec|].
  intros _ s' (Hl & He & Hc & Hfr). split.
  - split; try (rewrite Hl; simpl); try done.
    + rewrite head_addr_app. done.
    + eapply chain_frame; [|done]. intros z Hz. apply Hfr. apply not_elem_of_cons.
      split; [by intros ->|]. by eapply blocks_disj.
    + unfold blocks, with_used. simpl. rewrite app_assoc. fold (blocks a).
      rewrite addrs_app. apply NoDup_app. split_and!; [done| |by apply NoDup_singleton].
      intros z Hz ->%list_elem_of_singleton. done.
  - split; [done|]. intros z Hz1 Hz2. apply Hfr. unfold blocks in Hz2.
    rewrite addrs_app in Hz2. set_solver.
Qed.

Lemma rep_add_free s a node sz x y :
  rep s a → node ∉ addrs (blocks a) → node ≠ 0 →
  ll_mem s !! node = Some (LLNode sz x y) →
  wp (add_to_free node)
     (λ _ s', rep s' (with_free a (insert_free (node, sz) (a_free a))) ∧
              quiet s a [node] s') s.
Proof.
  intros Hr Hni Hn0 Hn. pose proof (blocks_nodup _ (rep_nodup _ _ Hr)) as [Hnd _].
  pose proof Hni as Hni'. unfold blocks in Hni'. rewrite addrs_app in Hni'.
  apply not_elem_of_app in Hni' as [Hf Hu]. destruct Hr.
  eapply wp_mono; [by eapply add_to_free_spec|].
  intros _ s' (Hl & He & Hc & Hfr). split.
  - split; try (rewrite Hl; simpl); try done.
    + eapply chain_frame; [|done]. intros z Hz. apply Hfr. apply not_elem_of_cons.
      split; [by intros ->|]. intros Hz'. by eapply blocks_disj.
    + unfold blocks, with_free. simpl. rewrite insert_free_perm.
      by apply NoDup_cons.
  - split; [done|]. intros z Hz1 Hz2. apply Hfr. unfold blocks in Hz2.
    rewrite addrs_app in Hz2. set_solver.
Qed.

Lemma with_start_free_id l : with_start_free (start_free l) l = l.
Proof. by destruct l. Qed.
Lemma with_start_used_id l : with_start_used (start_used l) l = l.
Proof. by destruct l. Qed.

(** Moving a block between the lists. *)
Lemma mark_used_spec s a pre b post :
  rep s a → a_free a = pre ++ b :: post →
  wp (mark_used b.1)
     (λ _ s', rep s' (with_used (with_free a (pre ++ post)) (a_used a ++ [b])) ∧
              quiet s a [] s') s.
Proof.
  intros Hr Hfree. pose proof (blocks_nodup _ (rep_nodup _ _ Hr)) as [Hnd _].
  rewrite Hfree in Hnd. unfold mark_used. wp_step.
  assert (Hb : b ∈ blocks a) by (unfold blocks; rewrite Hfree; set_solver).
  destruct (rep_head_lookup _ _ _ Hr Hb) as (Hb0 & x & y & Hlb).
  assert (Hperm : blocks a ≡ₚ b :: blocks (with_free a (pre ++ post))).
  { unfold blocks. simpl. rewrite Hfree. by rewrite <- Permutation_middle. }
  pose proof (rep_nodup _ _ Hr) as Hnd'. rewrite Hperm in Hnd'.
  apply NoDup_cons in Hnd' as [Hni Hnd'].
  assert (Hsub : ∀ z, z ∈ addrs (pre ++ post) → z ∈ addrs (blocks a)).
  { intros z Hz. rewrite Hperm. right. unfold blocks. simpl. rewrite addrs_app. set_solver. }
  eapply wp_mono.
  { apply (release_node_spec s with_start_free pre b post).
    - rewrite <- Hfree, <- (rep_sfree _ _ Hr). apply with_start_free_id.
    - rewrite <- Hfree. apply (rep_free _ _ Hr).
    - done. }
  intros _ s1 (Hl & He & Hc & Hfr).
  assert (Hr1 : rep s1 (with_free a (pre ++ post))).
  { destruct Hr. split; try (rewrite Hl; simpl); try done.
    eapply chain_frame; [|done]. intros z Hz. apply Hfr. intros Hz'.
    eapply (blocks_disj (with_free a (pre ++ post))); [done|done|done]. }
  eapply wp_mono.
  { eapply (rep_add_used s1 _ b.1 b.2 x y Hr1); [done|done|].
    rewrite Hfr; [done|]. by ni. }
  intros _ s2 [Hr2 [He2 Hq2]]. split.
  - destruct b. exact Hr2.
  - split; [congruence|]. intros z _ Hz. rewrite Hq2.
    + apply Hfr. naive_solver.
    + rewrite Hperm in Hz. set_solver.
    + rewrite Hperm in Hz. set_solver.
Qed.

Lemma mark_free_spec s a pre b post :
  rep s a → a_used a = pre ++ b :: post →
  wp (mark_free b.1)
     (λ _ s', rep s' (with_free (with_used a (pre ++ post)) (insert_free b (a_free a))) ∧
              quiet s a [] s') s.
Proof.
  intros Hr Hused. pose proof (blocks_nodup _ (rep_nodup _ _ Hr)) as [_ Hnd].
  rewrite Hused in Hnd. unfold mark_free. wp_step.
  assert (Hb : b ∈ blocks a) by (unfold blocks; rewrite Hused; set_solver).
  destruct (rep_head_lookup _ _ _ Hr Hb) as (Hb0 & x & y & Hlb).
  assert (Hperm : blocks a ≡ₚ b :: blocks (with_used a (pre ++ post))).
  { unfold blocks. simpl. rewrite Hused. by rewrite !Permutation_middle. }
  pose proof (rep_nodup _ _ Hr) as Hnd'. rewrite Hperm in Hnd'.
  apply NoDup_cons in Hnd' as [Hni Hnd'].
  assert (Hsub : ∀ z, z ∈ addrs (pre ++ post) → z ∈ addrs (blocks a)).
  { intros z Hz. rewrite Hperm. right. unfold blocks. simpl. rewrite addrs_app. set_solver. }
  eapply wp_mono.
  { apply (release_node_spec s with_start_used pre b post).
    - rewrite <- Hused, <- (rep_sused _ _ Hr). apply with_start_used_id.
    - rewrite <- Hused. apply (rep_used _ _ Hr).
    - done. }
  intros _ s1 (Hl & He & Hc & Hfr).
  assert (Hr1 : rep s1 (with_used a (pre ++ post))).
  { destruct Hr. split; try (rewrite Hl; simpl); try done.
    eapply chain_frame; [|done]. intros z Hz. apply Hfr.
    by apply (blocks_disj (with_used a (pre ++ post))). }
  eapply wp_mono.
  { eapply (rep_add_free s1 _ b.1 b.2 x y Hr1); [done|done|].
    rewrite Hfr; [done|]. by ni. }
  intros _ s2 [Hr2 [He2 Hq2]]. split.
  - destruct b. exact Hr2.
  - split; [congruence|]. intros z _ Hz. rewrite Hperm in Hz.
    rewrite Hq2; [|set_solver..]. apply Hfr. rewrite <- Hperm in Hz. naive_solver.
Qed.

(** ** The invariant of the abstract heap *)

(** [tiles lo l hi]: the blocks of [l] fill [lo, hi) exactly, in this order. *)
Fixpoint tiles (lo : Z) (l : list blk) (hi : Z) : Prop :=
  match l with
  | [] => lo = hi
  | b :: l' => b.1 = lo ∧ NODESIZE_MAX ≤ b.2 ∧ tiles (lo + SIZEOF_LL_NODE + b.2) l' hi
  end.

(** The free list is sorted by size. *)
Fixpoint by_size (bs : list blk) : Prop :=
  match bs with
  | [] => True
  | b :: bs' => Forall (λ c, b.2 ≤ c.2) bs' ∧ by_size bs'
  end.

Definition tiled (a : aheap) : Prop :=
  ∃ l, l ≡ₚ blocks a ∧ tiles (a_start a) l (a_start a + a_cur a).

(** The bounds keep the header arithmetic of the code below 2^32; the kernel's
    heaps (0xC0000000 and 0xD0000000 with 16 MiB, the stack heaps with 4 MiB)
    satisfy them.  A page-aligned request may push [cursize] one page past
    [maxsize]: that is what the code's check allows. *)
Record wf (a : aheap) : Prop := Wf {
  wf_start : 0 < a_start a;
  wf_max : 0 ≤ a_max a ≤ 1073741824;
  wf_top : a_start a + a_max a + 8192 < 4294967296;
  wf_cur : 0 ≤ a_cur a ≤ a_max a + 4096;
  wf_sorted : by_size (a_free a);
  wf_tiled : tiled a
}.

Lemma tiles_app lo l1 l2 hi :
  tiles lo (l1 ++ l2) hi ↔ ∃ mid, tiles lo l1 mid ∧ tiles mid l2 hi.
Proof.
  revert lo. induction l1 as [|b l1 IH]; intros lo; simpl.
  - split; [by exists lo|]. by intros (mid & -> & ?).
  - rewrite IH. naive_solver.
Qed.

Lemma tiles_le lo l hi : tiles lo l hi → lo ≤ hi.
Proof.
  revert lo. induction l as [|b l IH]; intros lo; simpl; [lia|].
  unfold NODESIZE_MAX, SIZEOF_LL_NODE. intros (_ & Hb & H%IH). lia.
Qed.

Lemma tiles_in lo l hi b :
  tiles lo l hi → b ∈ l →
  lo ≤ b.1 ∧ NODESIZE_MAX ≤ b.2 ∧ b.1 + SIZEOF_LL_NODE + b.2 ≤ hi.
Proof.
  intros Ht Hb. apply list_elem_of_split in Hb as (l1 & l2 & ->).
  apply tiles_app in Ht as (mid & H1 & H2). simpl in H2.
  destruct H2 as (<- & ? & H2). apply tiles_le in H1, H2. lia.
Qed.

(** Distinct blocks of a tiling do not overlap. *)
Lemma tiles_disjoint lo l hi b c :
  tiles lo l hi → b ∈ l → c ∈ l → b ≠ c →
  b.1 + SIZEOF_LL_NODE + b.2 ≤ c.1 ∨ c.1 + SIZEOF_LL_NODE + c.2 ≤ b.1.
Proof.
  revert lo. induction l as [|d l IH]; intros lo Ht Hb Hc Hne; [by apply elem_of_nil in Hb|].
  simpl in Ht. destruct Ht as (Hd & ? & Ht).
  apply elem_of_cons in Hb as [->|Hb], Hc as [->|Hc]; [done| | |by eapply IH].
  - left. pose proof (tiles_in _ _ _ _ Ht Hc). lia.
  - right. pose proof (tiles_in _ _ _ _ Ht Hb). lia.
Qed.

Lemma tiles_nodup lo l hi : tiles lo l hi → NoDup (addrs l).
Proof.
  revert lo. induction l as [|b l IH]; intros lo; simpl; [by constructor|].
  intros (Hb & Hs & Ht). apply NoDup_cons. split; [|by eapply IH].
  intros (c & Hc & Hcl)%list_elem_of_fmap.
  pose proof (tiles_in _ _ _ _ Ht Hcl). unfold NODESIZE_MAX, SIZEOF_LL_NODE in *. lia.
Qed.

Lemma insert_free_forall (P : blk → Prop) b bs :
  P b → Forall P bs → Forall P (insert_free b bs).
Proof. intros Hb Hbs. rewrite insert_free_perm. by constructor. Qed.

Lemma insert_free_sorted b bs : by_size bs → by_size (insert_free b bs).
Proof.
  induction bs as [|c bs IH]; simpl; [done|]. intros [Hc Hs].
  destruct (Z.ltb_spec b.2 c.2).
  - simpl. split_and!; [|done..]. constructor; [lia|].
    eapply Forall_impl; [done|]. simpl. lia.
  - simpl. split; [|by apply IH]. apply insert_free_forall; [lia|done].
Qed.

Lemma by_size_remove pre b post : by_size (pre ++ b :: post) → by_size (pre ++ post).
Proof.
  induction pre as [|c pre IH]; simpl; [tauto|].
  intros [Hc Hs]. split; [|by apply IH]. rewrite Forall_app, Forall_cons in Hc.
  apply Forall_app. tauto.
Qed.

Lemma find_fit_some p bs pre b post :
  find_fit p bs = Some (pre, b, post) →
  bs = pre ++ b :: post ∧ p b = true ∧ Forall (λ c, p c = false) pre.
Proof.
  revert pre. induction bs as [|c bs IH]; intros pre; simpl; [done|].
  destruct (p c) eqn:Hpc; [by intros [= <- <- <-]|].
  destruct (find_fit p bs) as [[[pre' b'] post']|]; [|done].
  intros [= <- <- <-]. destruct (IH pre') as (-> & ? & ?); [done|]. auto.
Qed.

Lemma find_fit_none p bs : find_fit p bs = None → Forall (λ c, p c = false) bs.
Proof.
  induction bs as [|c bs IH]; simpl; [by constructor|].
  destruct (p c) eqn:Hpc; [done|].
  destruct (find_fit p bs) as [[[pre' b'] post']|]; [done|]. auto.
Qed.

Lemma round_req_ge req : NODESIZE_MAX ≤ round_req req ∧ req ≤ round_req req.
Proof. unfold round_req. destruct (Z.ltb_spec req NODESIZE_MAX); lia. Qed.

(** Replacing one block of a tiling by blocks that fill the same space. *)
Lemma tiled_replace lo hi l b bs rest :
  l ≡ₚ b :: rest → tiles lo l hi →
  tiles b.1 bs (b.1 + SIZEOF_LL_NODE + b.2) →
  ∃ l', l' ≡ₚ bs ++ rest ∧ tiles lo l' hi.
Proof.
  intros Hp Ht Hbs.
  assert (Hb : b ∈ l) by (rewrite Hp; left).
  apply list_elem_of_split in Hb as (l1 & l2 & ->).
  apply tiles_app in Ht as (mid & H1 & H2). simpl in H2. destruct H2 as (<- & ? & H2).
  exists (l1 ++ bs ++ l2). split.
  - rewrite <- Permutation_middle in Hp. apply Permutation_cons_inv in Hp.
    rewrite <- Hp. rewrite !app_assoc. apply Permutation_app_tail, Permutation_app_comm.
  - apply tiles_app. exists b.1. split; [done|]. apply tiles_app. eauto.
Qed.

Lemma carve_wf sz b pre post a :
  wf a → a_free a = pre ++ b :: post → NODESIZE_MAX ≤ sz → sz ≤ b.2 →
  wf (carve sz b (pre ++ post) a).2.
Proof.
  intros [Hst Hmx Htop Hcur Hsrt (l & Hl & Ht)] Hfree Hsz Hfit.
  rewrite Hfree in Hsrt. pose proof (by_size_remove _ _ _ Hsrt) as Hsrt'.
  assert (Hperm : l ≡ₚ b :: (pre ++ post) ++ a_used a).
  { rewrite Hl. unfold blocks. rewrite Hfree. by rewrite <- Permutation_middle. }
  unfold carve. destruct (Z.ltb_spec (b.2 - sz) (NODESIZE_MAX + SIZEOF_LL_NODE)); simpl.
  - split; try done. exists l. split; [|done]. rewrite Hperm. unfold blocks. simpl.
    rewrite (app_assoc _ _ [b]). by rewrite <- Permutation_cons_append.
  - split; simpl; try done; [by apply insert_free_sorted|].
    destruct (tiled_replace _ _ _ b
      [(b.1, sz); (b.1 + sz + SIZEOF_LL_NODE, b.2 - (sz + SIZEOF_LL_NODE))] _ Hperm Ht)
      as (l' & Hl' & Ht').
    { simpl. unfold NODESIZE_MAX, SIZEOF_LL_NODE in *. lia. }
    exists l'. split; [|done]. rewrite Hl'. unfold blocks. simpl.
    rewrite insert_free_perm. simpl. rewrite perm_swap. constructor.
    rewrite (app_assoc _ _ [_]). by rewrite <- Permutation_cons_append.
Qed.

Lemma page_gap_range a : 1 ≤ page_gap a ≤ 4096.
Proof. unfold page_gap. pose proof (Z.mod_pos_bound (a_start a + a_cur a) 4096). lia. Qed.

Lemma insert_free_app_perm x y F U : insert_free x F ++ U ++ [y] ≡ₚ (F ++ U) ++ [x; y].
Proof.
  rewrite insert_free_perm. simpl. rewrite (app_assoc F U [y]), Permutation_middle.
  by rewrite <- !(app_assoc F), <- Permutation_middle.
Qed.

Lemma grow_wf sz align a r a' :
  wf a → NODESIZE_MAX ≤ sz → grow sz align a = Some (r, a') → wf a'.
Proof.
  intros [Hst Hmx Htop Hcur Hsrt (l & Hl & Ht)] Hsz.
  pose proof (page_gap_range a) as Hgap. unfold grow.
  assert (Hend : ∀ n c, tiles (a_start a + a_cur a) n (a_start a + c) →
    ∀ bs, bs ≡ₚ blocks a ++ n → ∃ l', l' ≡ₚ bs ∧ tiles (a_start a) l' (a_start a + c)).
  { intros n c Hn bs Hbs. exists (l ++ n). split; [by rewrite Hbs, Hl|].
    apply tiles_app. eauto. }
  assert (H1 : ∀ c, c = a_cur a + SIZEOF_LL_NODE + sz → tiled (AHeap (a_start a) (a_max a) c
    (a_free a) (a_used a ++ [(a_start a + a_cur a, sz)]))).
  { intros c ->. eapply Hend; [|by unfold blocks; simpl; rewrite app_assoc].
    simpl. unfold SIZEOF_LL_NODE. lia. }
  assert (H2 : ∀ g, SIZEOF_LL_NODE * 2 + NODESIZE_MAX ≤ g →
    tiled (AHeap (a_start a) (a_max a) (a_cur a + g + sz)
      (insert_free (a_start a + a_cur a, g - SIZEOF_LL_NODE * 2) (a_free a))
      (a_used a ++ [(a_start a + a_cur a + g - SIZEOF_LL_NODE, sz)]))).
  { intros g Hg. eapply Hend; [|apply insert_free_app_perm].
    simpl. unfold NODESIZE_MAX, SIZEOF_LL_NODE in *. lia. }
  assert (Hs' := λ b, insert_free_sorted b _ Hsrt).
  unfold NODESIZE_MAX, SIZEOF_LL_NODE in *.
  destruct align; bool_cases; try done; intros [= <- <-]; split; simpl; try done; try lia.
  all: first [apply H1; lia | apply H2; lia].
Qed.

Lemma aget_wf req align a r a' : wf a → aget req align a = Some (r, a') → wf a'.
Proof.
  intros Hwf. unfold aget. destruct (round_req_ge req) as [Hmin _].
  destruct (find_fit _ _) as [[[pre b] post]|] eqn:Hfind.
  - apply find_fit_some in Hfind as (Hfree & Hfits & _). intros [= Hc].
    change a' with ((r, a').2). rewrite <- Hc. apply carve_wf; try done.
    unfold fits in Hfits. apply andb_prop in Hfits as [Hle _]. by apply Z.leb_le.
  - by apply grow_wf.
Qed.

Lemma afree_wf node a a' : wf a → afree node a = Some a' → wf a'.
Proof.
  intros [Hst Hmx Htop Hcur Hsrt (l & Hl & Ht)]. unfold afree.
  destruct (find_fit _ _) as [[[pre b] post]|] eqn:Hfind; [|done]. intros [= <-].
  apply find_fit_some in Hfind as (Hused & _ & _).
  split; simpl; try done; [by apply insert_free_sorted|].
  exists l. split; [|done]. rewrite Hl. unfold blocks. simpl.
  rewrite insert_free_perm, Hused. simpl. by rewrite !Permutation_middle.
Qed.

Lemma wf_bounds a b : wf a → b ∈ blocks a →
  a_start a ≤ b.1 ∧ NODESIZE_MAX ≤ b.2 ∧
  b.1 + SIZEOF_LL_NODE + b.2 ≤ a_start a + a_cur a.
Proof.
  intros [_ _ _ _ _ (l & Hl & Ht)] Hb. eapply tiles_in; [done|]. by rewrite Hl.
Qed.

(** No header lies at the end of the heap or inside a block. *)
Lemma wf_fresh_end a x : wf a → a_start a + a_cur a ≤ x → x ∉ addrs (blocks a).
Proof.
  intros Hwf Hx (b & -> & Hb)%list_elem_of_fmap.
  pose proof (wf_bounds _ _ Hwf Hb). unfold NODESIZE_MAX, SIZEOF_LL_NODE in *. lia.
Qed.

Lemma wf_fresh_inside a b x :
  wf a → b ∈ blocks a → b.1 < x → x < b.1 + SIZEOF_LL_NODE + b.2 → x ∉ addrs (blocks a).
Proof.
  intros Hwf Hb Hlo Hhi (c & -> & Hc)%list_elem_of_fmap.
  destruct (wf_tiled _ Hwf) as (l & Hl & Ht).
  rewrite <- Hl in Hb, Hc. destruct (decide (b = c)) as [->|Hne]; [lia|].
  pose proof (tiles_in _ _ _ _ Ht Hc).
  destruct (tiles_disjoint _ _ _ _ _ Ht Hb Hc Hne);
    unfold NODESIZE_MAX, SIZEOF_LL_NODE in *; lia.
Qed.

(** ** Refinement: the code implements the abstract heap *)

(** The state [s'] implements [a'], and errno is that of [s]. *)
Definition implements (s : llst) (a' : aheap) (s' : llst) : Prop :=
  rep s' a' ∧ ll_errno s' = ll_errno s.

Lemma rep_put_fresh s a p n : rep s a → p ∉ addrs (blocks a) → rep (put s p n) a.
Proof.
  unfold blocks. rewrite addrs_app. intros [] [? ?]%not_elem_of_app.
  split; simpl; try done; by apply chain_insert.
Qed.

(** Shrinking a block that is still on the free list. *)
Lemma rep_shrink s a pre b post sz x y :
  rep s a → a_free a = pre ++ b :: post → ll_mem s !! b.1 = Some (LLNode b.2 x y) →
  rep (put s b.1 (LLNode sz x y)) (with_free a (pre ++ (b.1, sz) :: post)).
Proof.
  intros Hr Hfree Hb. pose proof (blocks_nodup _ (rep_nodup _ _ Hr)) as [Hnd _].
  assert (Hd : b.1 ∉ addrs (a_used a)).
  { apply (blocks_disj a); [apply (rep_nodup _ _ Hr)|]. rewrite Hfree, addrs_app. set_solver. }
  destruct Hr. rewrite Hfree in *. split; simpl; try done.
  - rewrite rep_sfree0. by destruct pre.
  - apply chain_app in rep_free0 as [H1 (Hb0 & Hb' & H2)]. ni_norm. simplify_eq.
    apply chain_app. simpl. split; [by chain_frames|]. split_and!; [done| |by chain_frames].
    by simplify_map_eq.
  - by chain_frames.
  - unfold blocks in *. simpl. rewrite Hfree in rep_nodup0.
    rewrite !addrs_app, !addrs_cons in *. done.
Qed.

Lemma split_fit_refines s a pre b post sz :
  rep s a → wf a → a_free a = pre ++ b :: post → NODESIZE_MAX ≤ sz → sz ≤ b.2 →
  wp (split_fit sz b.1)
     (λ r s', r = (carve sz b (pre ++ post) a).1 ∧
              implements s (carve sz b (pre ++ post) a).2 s') s.
Proof.
  intros Hr Hwf Hfree Hsz Hfit.
  assert (Hb : b ∈ blocks a) by (unfold blocks; rewrite Hfree; set_solver).
  destruct (rep_head_lookup _ _ _ Hr Hb) as (Hb0 & x & y & Hlb).
  pose proof (wf_bounds _ _ Hwf Hb) as Hbb. pose proof Hwf as [Hst Hmx Htop Hcur _ _].
  unfold NODESIZE_MAX, SIZEOF_LL_NODE in *. unfold split_fit. do 2 ll_step.
  unfold carve, NODESIZE_MAX, SIZEOF_LL_NODE. rewrite (u32_small (b.2 - sz)) by lia.
  destruct (Z.ltb_spec (b.2 - sz) (32 + 12)).
  - wp_step. eapply wp_mono; [by eapply mark_used_spec|].
    intros _ s' [Hr' [He _]]. by wp_step.
  - rewrite !u32_small by lia. set (nn := b.1 + sz + 12).
    assert (Hnn0 : nn ≠ 0) by (subst nn; lia).
    assert (Hnn : nn ∉ addrs (blocks a)).
    { apply (wf_fresh_inside a b); unfold SIZEOF_LL_NODE; try done; subst nn; lia. }
    assert (Hne : b.1 ≠ nn) by (subst nn; lia).
    ll_step. ll_step. ll_step. ll_step. simpl. set (s2 := LLSt _ _ _).
    assert (Hr2 : rep s2 (with_free a (pre ++ (b.1, sz) :: post))).
    { apply (rep_put_fresh _ _ nn (LLNode (b.2 - (sz + 12)) 0 0)) in Hr; [|done].
      refine (rep_shrink _ a pre b post sz x y Hr Hfree _). simpl. by simplify_map_eq. }
    assert (Hblk : addrs (blocks (with_free a (pre ++ (b.1, sz) :: post))) = addrs (blocks a)).
    { unfold blocks. simpl. rewrite Hfree. by rewrite !addrs_app, !addrs_cons. }
    wp_step. eapply wp_mono; [by eapply (mark_used_spec s2 _ pre (b.1, sz) post)|].
    intros _ s3 [Hr3 [He3 Hq3]]. wp_step. eapply wp_mono.
    { eapply (rep_add_free s3 _ nn (b.2 - (sz + 12)) 0 0 Hr3); [|done|].
      - intros Hin. apply Hnn. rewrite <- Hblk. revert Hin. unfold blocks. simpl.
        rewrite !addrs_app, !addrs_cons. set_solver.
      - rewrite Hq3; [|set_solver|by rewrite Hblk]. subst s2. simpl. by simplify_map_eq. }
    intros _ s4 [Hr4 [He4 _]]. wp_step. split; [done|]. split; [exact Hr4|]. by rewrite He4, He3.
Qed.

Lemma fit_refines s a pre b post sz :
  rep s a → wf a → a_free a = pre ++ b :: post → NODESIZE_MAX ≤ sz → sz ≤ b.2 →
  wp (fit sz b.1)
     (λ r s', r = (carve sz b (pre ++ post) a).1 ∧
              implements s (carve sz b (pre ++ post) a).2 s') s.
Proof.
  intros Hr Hwf Hfree Hsz Hfit.
  assert (Hb : b ∈ blocks a) by (unfold blocks; rewrite Hfree; set_solver).
  destruct (rep_head_lookup _ _ _ Hr Hb) as (Hb0 & x & y & Hlb).
  unfold fit. do 2 ll_step. destruct (Z.eqb_spec b.2 sz) as [<-|];
    [|by apply split_fit_refines].
  unfold perfect_fit, carve, NODESIZE_MAX, SIZEOF_LL_NODE.
  destruct (Z.ltb_spec (b.2 - b.2) (32 + 12)); [|lia].
  wp_step. eapply wp_mono; [by eapply mark_used_spec|].
  intros _ s' [Hr' [He _]]. by wp_step.
Qed.

Lemma search_free_refines s a sz align :
  rep s a → wf a → NODESIZE_MAX ≤ sz → a_free a ≠ [] →
  wp (search_free sz align (head_addr (a_free a) 0))
     (λ r s', match find_fit (fits sz align) (a_free a) with
              | Some (pre, b, post) =>
                r = Some (carve sz b (pre ++ post) a).1 ∧
                implements s (carve sz b (pre ++ post) a).2 s'
              | None => r = None ∧ s' = s
              end) s.
Proof.
  intros Hr Hwf Hsz Hne. unfold search_free. do 2 wp_step.
  destruct (a_free a) as [|t fs] eqn:Hfree; [done|]. clear Hne.
  pose proof (blocks_nodup _ (rep_nodup _ _ Hr)) as [Hnd _].
  pose proof (rep_free _ _ Hr) as Hc. rewrite Hfree in Hnd, Hc.
  eapply (wp_loop _ (λ n tmp s', s' = s ∧ ∃ pre u post,
    t :: fs = pre ++ u :: post ∧ tmp = u.1 ∧ n = length post ∧
    Forall (λ c, fits sz align c = false) pre)).
  2: { split; [done|]. by exists [], t, fs. }
  2: { pose proof (list_fuel_chain _ _ _ _ Hnd Hc) as Hf. simpl in Hf. lia. }
  intros n tmp s' (-> & pre & u & post & Hfs & -> & -> & Hpre).
  rewrite Hfs in *. pose proof Hc as Hc'. apply chain_app in Hc' as [_ (Hu0 & Hu & Hc2)].
  assert (Hskip : ∀ l, find_fit (fits sz align) (pre ++ l) =
    match find_fit (fits sz align) l with
    | Some (p, b, q) => Some (pre ++ p, b, q) | None => None end).
  { intros l. clear -Hpre. induction Hpre as [|c pre Hc _ IH]; simpl.
    - by destruct (find_fit _ _) as [[[??]?]|].
    - rewrite Hc, IH. by destruct (find_fit _ l) as [[[??]?]|]. }
  rewrite Hskip. simpl. do 2 ll_step. fold (fits sz align u).
  change (_ && _) with (fits sz align u). destruct (fits sz align u) eqn:Hfit.
  - wp_step. rewrite app_nil_r. eapply wp_mono.
    { eapply fit_refines; try done. apply andb_prop in Hfit as [? _]. by apply Z.leb_le. }
    intros r s' [-> Hi]. by wp_step.
  - destruct (Z.eqb_spec (head_addr post 0) 0) as [Hz|Hz].
    + apply (head_addr_zero _ _ _ Hc2) in Hz as ->. by wp_step.
    + wp_step. destruct post as [|v post]; [done|]. exists (length post).
      split; [simpl; lia|]. split; [done|]. exists (pre ++ [u]), v, post.
      rewrite <- app_assoc. split_and!; try done. by apply Forall_app_2; [|constructor].
Qed.

Lemma next_page_gap a :
  wf a → next_page_address (a_start a + a_cur a) = a_start a + a_cur a + page_gap a.
Proof.
  intros [Hst Hmx Htop Hcur _ _]. unfold next_page_address, page_gap.
  rewrite land_page_base by lia.
  pose proof (Z.mod_pos_bound (a_start a + a_cur a) 4096).
  rewrite u32_small; lia.
Qed.

Definition out_of_memory (s : llst) : llst := LLSt (ll_list s) (ll_mem s) ENOMEM.

(** What [expand_heap] leaves when the abstract heap grows to [a'] with the new
    block at [r]: everything of [a'] but the new block on the used list. *)
Definition expanded (s : llst) (a : aheap) (sz r : Z) (a' : aheap) (s' : llst) : Prop :=
  implements s (with_used a' (a_used a)) s' ∧ a_used a' = a_used a ++ [(r, sz)] ∧
  r ∉ addrs (blocks (with_used a' (a_used a))) ∧ r ≠ 0 ∧
  ∃ p q, ll_mem s' !! r = Some (LLNode sz p q).

Lemma rep_cursize s a c :
  rep s a →
  rep (LLSt (with_cursize c (ll_list s)) (ll_mem s) (ll_errno s))
      (AHeap (a_start a) (a_max a) c (a_free a) (a_used a)).
Proof. intros []. by split. Qed.

(** The one-block growth: [newnode] at the end of the heap. *)
Lemma expand_one s a sz c d :
  rep s a → wf a → u32 (a_cur a + d) = c →
  wp (_ ← put_node (a_start a + a_cur a) (LLNode sz 0 0);
      _ ← upd_list (λ l, with_cursize (u32 (cursize l + d)) l);
      mret (a_start a + a_cur a))
     (λ r s', r = a_start a + a_cur a ∧
        expanded s a sz r (AHeap (a_start a) (a_max a) c (a_free a)
                             (a_used a ++ [(a_start a + a_cur a, sz)])) s') s.
Proof.
  intros Hr Hwf Hc. pose proof (wf_start _ Hwf). pose proof (wf_cur _ Hwf).
  assert (Hx0 : a_start a + a_cur a ≠ 0) by lia.
  assert (Hni : a_start a + a_cur a ∉ addrs (blocks a)) by (apply wf_fresh_end; [done|lia]).
  ll_steps. rewrite (rep_cur _ _ Hr), Hc. split; [done|].
  split_and!; try done.
  - split; [|done].
    exact (rep_cursize _ _ c (rep_put_fresh _ _ _ (LLNode sz 0 0) Hr Hni)).
  - simpl. exists 0, 0. by simplify_map_eq.
Qed.

Lemma expand_split s a sz g :
  rep s a → wf a → SIZEOF_LL_NODE * 2 + NODESIZE_MAX ≤ g ≤ 8192 →
  a_start a + a_cur a + g < 4294967296 → 0 ≤ sz → a_cur a + g + sz < 4294967296 →
  wp (expand_heap_align_split sz (a_start a + a_cur a) g)
     (λ r s', r = a_start a + a_cur a + g - SIZEOF_LL_NODE ∧
        expanded s a sz r
          (AHeap (a_start a) (a_max a) (a_cur a + g + sz)
             (insert_free (a_start a + a_cur a, g - SIZEOF_LL_NODE * 2) (a_free a))
             (a_used a ++ [(a_start a + a_cur a + g - SIZEOF_LL_NODE, sz)])) s') s.
Proof.
  intros Hr Hwf Hg Hb1 Hsz Hb2. pose proof (wf_start _ Hwf). pose proof (wf_cur _ Hwf).
  unfold SIZEOF_LL_NODE, NODESIZE_MAX in *. set (x := a_start a + a_cur a) in *.
  assert (Hx0 : x ≠ 0) by lia.
  assert (Hni : x ∉ addrs (blocks a)) by (apply wf_fresh_end; [done|lia]).
  unfold expand_heap_align_split, SIZEOF_LL_NODE. rewrite !u32_small by lia.
  ll_step. ll_step. wp_step. eapply wp_mono.
  { eapply (rep_add_free _ a x (g - 12 * 2) 0 0); try done; [by apply rep_put_fresh|].
    simpl. by simplify_map_eq. }
  intros _ s1 [Hr1 [He1 _]].
  assert (Hr0 : x + g - 12 ≠ 0) by lia.
  assert (Hni1 : x + g - 12 ∉
    addrs (blocks (with_free a (insert_free (x, g - 12 * 2) (a_free a))))).
  { unfold blocks. simpl. rewrite insert_free_perm.
    apply not_elem_of_cons. split; [simpl; lia|]. apply wf_fresh_end; [done|lia]. }
  ll_steps. rewrite (rep_cur _ _ Hr1). simpl.
  replace (u32 (a_cur a + (g + sz))) with (a_cur a + g + sz) by (rewrite u32_small; lia).
  split; [done|]. split_and!; try done.
  - split; [|done].
    exact (rep_cursize _ _ (a_cur a + g + sz)
             (rep_put_fresh _ _ _ (LLNode sz 0 0) Hr1 Hni1)).
  - simpl. exists 0, 0. by simplify_map_eq.
Qed.

Lemma expand_heap_refines s a sz align :
  rep s a → wf a → NODESIZE_MAX ≤ sz < 2147483648 →
  wp (expand_heap sz align)
     (λ r s', match grow sz align a with
              | Some (r', a') => r = r' ∧ expanded s a sz r a' s'
              | None => r = 0 ∧ s' = out_of_memory s
              end) s.
Proof.
  intros Hr Hwf Hsz. pose proof Hwf as [Hst Hmx Htop Hcur _ _].
  pose proof (page_gap_range a) as Hgap.
  unfold expand_heap. do 2 wp_step.
  rewrite (rep_start _ _ Hr), (rep_cur _ _ Hr), (rep_max _ _ Hr).
  rewrite (u32_small (a_start a + a_cur a)) by lia. rewrite next_page_gap by done.
  replace (a_start a + a_cur a + page_gap a - (a_start a + a_cur a)) with (page_gap a) by lia.
  rewrite (u32_small (page_gap a)) by lia.
  unfold NODESIZE_MAX, SIZEOF_LL_NODE, grow in *.
  rewrite (u32_small (page_gap a + sz + a_cur a)), (u32_small (a_cur a + sz + 12)) by lia.
  destruct align.
  - destruct (Z.leb_spec (page_gap a + sz + a_cur a) (a_max a)); [|by ll_steps].
    unfold NODESIZE_MAX, SIZEOF_LL_NODE.
    destruct (Z.leb_spec (12 * 2 + 32) (page_gap a)), (Z.eqb_spec (page_gap a) 12); try lia.
    + apply expand_split; unfold NODESIZE_MAX, SIZEOF_LL_NODE; try done; lia.
    + eapply wp_mono; [exact (expand_one s a sz _ (sz + page_gap a) Hr Hwf eq_refl)|].
      intros r s' [-> He]. split; [done|].
      rewrite u32_small in He by lia. by replace (a_cur a + page_gap a + sz)
        with (a_cur a + (sz + page_gap a)) by lia.
    + rewrite u32_small by lia.
      apply expand_split; unfold NODESIZE_MAX, SIZEOF_LL_NODE; try done; lia.
  - unfold SIZEOF_LL_NODE. destruct (Z.leb_spec (a_cur a + sz + 12) (a_max a)); [|by ll_steps].
    eapply wp_mono; [exact (expand_one s a sz _ (sz + 12) Hr Hwf eq_refl)|].
    intros r s' [-> He]. split; [done|]. rewrite u32_small in He by lia.
    by replace (a_cur a + sz + 12) with (a_cur a + (sz + 12)) by lia.
Qed.

(** Adding NULL to the used list writes through NULL. *)
Lemma add_to_used_null s a : rep s a → add_to_used 0 s = Fault.
Proof.
  intros Hr. unfold add_to_used. rewrite (bind_ok _ _ s (ll_list s) s) by done.
  rewrite (rep_sused _ _ Hr). pose proof (rep_used _ _ Hr) as Hc.
  pose proof (blocks_nodup _ (rep_nodup _ _ Hr)) as [_ Hnd].
  destruct (Z.eqb_spec (head_addr (a_used a) 0) 0) as [He|He]; [done|].
  destruct (a_used a) as [|t us _] using rev_ind; [done|].
  rewrite (bind_ok _ _ s t.1 s) by (by eapply last_node_spec).
  unfold link_after. apply chain_app in Hc as [_ (Ht0 & Ht & _)].
  edestruct (wp_run (set_next t.1 0)) as ([] & s' & Hs & _).
  { eapply (wp_set_next _ _ _ (λ _ _, True)); done. }
  by rewrite (bind_ok _ _ s () s' Hs).
Qed.

(** [expand_heap] followed by the append to the used list is [grow]. *)
Lemma expand_add_refines s a sz align r a' :
  rep s a → wf a → NODESIZE_MAX ≤ sz < 2147483648 → grow sz align a = Some (r, a') →
  wp (newnode ← expand_heap sz align; _ ← add_to_used newnode; mret newnode)
     (λ x s', x = r ∧ implements s a' s') s.
Proof.
  intros Hr Hwf Hsz Hg. wp_step. eapply wp_mono; [by apply expand_heap_refines|].
  rewrite Hg. intros x s1 (-> & [Hr1 He1] & Hu & Hni & Hr0 & p & q & Hn).
  wp_step. eapply wp_mono; [by eapply rep_add_used|].
  intros _ s2 [Hr2 [He2 _]]. wp_step. split; [done|]. split; [|congruence].
  simpl in Hr2. rewrite <- Hu in Hr2. by destruct a'.
Qed.

Lemma get_free_some s a req align r a' :
  rep s a → wf a → 0 ≤ req < 2147483648 → aget req align a = Some (r, a') →
  wp (get_free req align) (λ x s', x = r ∧ implements s a' s') s.
Proof.
  intros Hr Hwf Hreq. unfold aget, get_free.
  change (if req <? NODESIZE_MAX then NODESIZE_MAX else req) with (round_req req).
  destruct (round_req_ge req) as [Hmin _]. set (sz := round_req req) in *.
  assert (sz < 2147483648) by (subst sz; unfold round_req, NODESIZE_MAX; bool_cases; lia).
  intros Hg. do 3 wp_step. rewrite (rep_sfree _ _ Hr).
  destruct (Z.eqb_spec (head_addr (a_free a) 0) 0) as [He|He].
  - apply (head_addr_zero _ _ _ (rep_free _ _ Hr)) in He. rewrite He in Hg. simpl in Hg.
    wp_step. by eapply expand_add_refines.
  - eapply wp_mono; [apply search_free_refines; try done; by intros H0; rewrite H0 in He|].
    destruct (find_fit _ _) as [[[pre b] post]|].
    + intros x s' [-> Hi]. wp_step. injection Hg as Hg. by rewrite Hg in Hi |- *.
    + intros x s' [-> ->]. by eapply expand_add_refines.
Qed.

Lemma get_free_none s a req align :
  rep s a → wf a → 0 ≤ req < 2147483648 → aget req align a = None →
  get_free req align s = Fault.
Proof.
  intros Hr Hwf Hreq. unfold aget, get_free.
  change (if req <? NODESIZE_MAX then NODESIZE_MAX else req) with (round_req req).
  destruct (round_req_ge req) as [Hmin _]. set (sz := round_req req) in *.
  assert (sz < 2147483648) by (subst sz; unfold round_req, NODESIZE_MAX; bool_cases; lia).
  destruct (find_fit _ _) as [[[pre b] post]|] eqn:Hfind; [done|]. intros Hg.
  rewrite (bind_ok _ _ s (ll_list s) s) by done. rewrite (rep_sfree _ _ Hr).
  assert (Hs : ∃ x, (if head_addr (a_free a) 0 =? 0 then mret None
    else search_free sz align (head_addr (a_free a) 0)) s = Ok (x, s) ∧ x = None).
  { destruct (Z.eqb_spec (head_addr (a_free a) 0) 0) as [He|He]; [by eexists|].
    edestruct (wp_run _ _ _ (search_free_refines s a sz align Hr Hwf Hmin
      ltac:(by intros H0; rewrite H0 in He))) as (x & s' & Hrun & Hx).
    rewrite Hfind in Hx. destruct Hx as [-> ->]. by eexists. }
  destruct Hs as (x & Hs & ->). rewrite (bind_ok _ _ s None s Hs). simpl.
  edestruct (wp_run _ _ _ (expand_heap_refines s a sz align Hr Hwf ltac:(lia)))
    as (x & s' & Hrun & Hx). rewrite Hg in Hx. destruct Hx as [-> ->].
  rewrite (bind_ok _ _ s 0 (out_of_memory s) Hrun). apply bind_fault.
  apply (add_to_used_null _ a). by destruct Hr; split.
Qed.

(** ** Freeing *)

(** [on_list] decides membership and changes nothing. *)
Lemma on_list_spec s prv bs node :
  NoDup (addrs bs) → chain (ll_mem s) prv bs 0 →
  on_list (head_addr bs 0) node s = Ok (bool_decide (node ∈ addrs bs), s).
Proof.
  intros Hnd Hc. unfold on_list. destruct bs as [|b bs]; [done|].
  destruct (Z.eqb_spec (head_addr (b :: bs) 0) 0) as [He|_].
  { by apply (head_addr_zero _ _ _ Hc) in He. }
  rewrite (bind_ok _ _ s (list_fuel s) s) by done.
  pose proof (list_fuel_chain _ _ _ _ Hnd Hc) as Hf. clear Hnd. simpl head_addr.
  revert b prv Hc Hf. generalize (list_fuel s).
  induction bs as [|c bs IH]; intros fuel b prv (Hb0 & Hb & Hc) Hf;
    (destruct fuel as [|fuel]; simpl in Hf; [lia|]); simpl.
  all: destruct (Z.eqb_spec b.1 node) as [Hbn|Hbn];
    [by unfold mret, M_ret, mbind, M_bind; rewrite bool_decide_eq_true_2; [|rewrite <- Hbn; left]|].
  all: unfold mbind, M_bind; rewrite (get_node_run _ _ _ Hb0 Hb); simpl.
  - simpl. rewrite bool_decide_eq_false_2; [done|].
    intros [?|?%elem_of_nil]%elem_of_cons; congruence.
  - simpl. destruct Hc as (Hc0 & Hcc). destruct (Z.eqb_spec c.1 0); [done|].
    etransitivity; [apply (IH fuel c b.1); [done|simpl in *; lia]|]. f_equal. f_equal.
    apply bool_decide_ext. rewrite !addrs_cons, !elem_of_cons. naive_solver.
Qed.

Lemma find_addr bs node :
  match find_fit (λ b, b.1 =? node) bs with
  | Some (pre, b, post) => bs = pre ++ b :: post ∧ b.1 = node
  | None => node ∉ addrs bs
  end.
Proof.
  destruct (find_fit _ _) as [[[pre b] post]|] eqn:Hf.
  - apply find_fit_some in Hf as (-> & Hb & _). by apply Z.eqb_eq in Hb.
  - apply find_fit_none in Hf. intros (b & -> & Hb)%list_elem_of_fmap.
    rewrite Forall_forall in Hf. specialize (Hf b Hb). simpl in Hf. by rewrite Z.eqb_refl in Hf.
Qed.

Lemma free_node_run s a node :
  rep s a →
  match afree node a with
  | Some a' => ∃ s', free_node node s = Ok (0, s') ∧ implements s a' s'
  | None => free_node node s = Ok (-1, LLSt (ll_list s) (ll_mem s) EFAULT)
  end.
Proof.
  intros Hr. unfold free_node. rewrite (bind_ok _ _ s (ll_list s) s) by done.
  pose proof (blocks_nodup _ (rep_nodup _ _ Hr)) as [_ Hnd].
  rewrite (rep_sused _ _ Hr).
  rewrite (bind_ok _ _ s _ s (on_list_spec _ _ _ node Hnd (rep_used _ _ Hr))).
  unfold afree. pose proof (find_addr (a_used a) node) as Hfa.
  destruct (find_fit _ _) as [[[pre b] post]|].
  - destruct Hfa as [Hu <-]. rewrite bool_decide_eq_true_2.
    2: { rewrite Hu, addrs_app, addrs_cons. set_solver. }
    edestruct (wp_run _ _ _ (mark_free_spec s a pre b post Hr Hu)) as ([] & s' & Hrun & Hr' & He & _).
    exists s'. rewrite (bind_ok _ _ s tt s' Hrun). split; [done|]. by split.
  - rewrite bool_decide_eq_false_2 by done. done.
Qed.

(** ** What the abstract heap promises its clients *)

(** [a'] has the blocks of [a] with [r] in use, and leaves every other used
    block of [a] in use. *)
Definition allocated (a : aheap) (r sz : Z) (a' : aheap) : Prop :=
  ∃ b, a_used a' = a_used a ++ [b] ∧ b.1 = r ∧ sz ≤ b.2.

Lemma aget_allocated req align a r a' :
  aget req align a = Some (r, a') → allocated a r req a'.
Proof.
  unfold aget, grow, carve. destruct (round_req_ge req) as [_ Hreq].
  destruct (find_fit _ _) as [[[pre b] post]|] eqn:Hf.
  - apply find_fit_some in Hf as (_ & Hfit & _). apply andb_prop in Hfit as [Hle%Z.leb_le _].
    intros [= Hc]. revert Hc. bool_cases; intros [= <- <-].
    + exists b. split_and!; try done. lia.
    + by exists (b.1, round_req req).
  - destruct align; bool_cases; intros [= <- <-]; by eexists (_, round_req req).
Qed.

Lemma aget_bounds req align a r a' :
  aget req align a = Some (r, a') → a_start a' = a_start a ∧ a_max a' = a_max a.
Proof.
  unfold aget, grow, carve. destruct (find_fit _ _) as [[[pre b] post]|].
  - intros [= Hc]. revert Hc. by bool_cases; intros [= <- <-].
  - by destruct align; bool_cases; intros [= <- <-].
Qed.

Lemma used_disjoint a b c :
  wf a → b ∈ a_used a → c ∈ a_used a → b ≠ c →
  b.1 + SIZEOF_LL_NODE + b.2 ≤ c.1 ∨ c.1 + SIZEOF_LL_NODE + c.2 ≤ b.1.
Proof.
  intros Hwf Hb Hc. destruct (wf_tiled _ Hwf) as (l & Hl & Ht).
  eapply tiles_disjoint; [done|rewrite Hl..]; unfold blocks; set_solver.
Qed.

Lemma aget_aligned req a r a' :
  aget req true a = Some (r, a') → (r + SIZEOF_LL_NODE) mod 4096 = 0.
Proof.
  unfold aget, grow, carve, page_gap, SIZEOF_LL_NODE.
  destruct (find_fit _ _) as [[[pre b] post]|] eqn:Hf.
  - apply find_fit_some in Hf as (_ & Hfit & _). apply andb_prop in Hfit as [_ Hal].
    simpl in Hal. apply Z.eqb_eq in Hal. rewrite land_page_offset in Hal.
    intros [= Hc]. revert Hc. unfold SIZEOF_LL_NODE in Hal. by bool_cases; intros [= <- <-].
  - set (x := a_start a + a_cur a).
    assert (Hx : ∀ k, (x + (4096 - x mod 4096) + k * 4096) mod 4096 = 0).
    { intros k. rewrite Z_mod_plus_full. pose proof (Z.div_mod x 4096 ltac:(lia)).
      replace (x + (4096 - x mod 4096)) with ((x / 4096 + 1) * 4096) by lia.
      by rewrite Z_mod_mult. }
    intros Hg. revert Hg. bool_cases; intros [= <- <-].
    + etransitivity; [|exact (Hx 0)]. f_equal. lia.
    + etransitivity; [|exact (Hx 0)]. f_equal. lia.
    + etransitivity; [|exact (Hx 1)]. f_equal. lia.
Qed.

(** The free list is searched smallest block first, so the block taken is the
    smallest of those that fit. *)
Lemma find_fit_best sz align a pre b post :
  by_size (a_free a) → find_fit (fits sz align) (a_free a) = Some (pre, b, post) →
  ∀ c, c ∈ a_free a → fits sz align c = true → b.2 ≤ c.2.
Proof.
  intros Hs Hf c Hc Hfc. apply find_fit_some in Hf as (He & _ & Hpre).
  rewrite He in Hs, Hc. apply elem_of_app in Hc as [Hc|Hc].
  - rewrite Forall_forall in Hpre. rewrite (Hpre c Hc) in Hfc. done.
  - assert (Hb : by_size (b :: post)).
    { clear -Hs. induction pre as [|d pre IH]; [done|]. apply IH, Hs. }
    apply elem_of_cons in Hc as [->|Hc]; [lia|]. destruct Hb as [Hb _].
    rewrite Forall_forall in Hb. by apply Hb.
Qed.

(** ** Reachable heaps *)

(** A freshly created heap ([create_linkedlist]) and the calls clients make that
    return; a request is below 2^31, the range in which the code's 32-bit size
    arithmetic is exact. *)
Definition fresh_list (start max usr : Z) : linkedlist := Linkedlist start max 0 usr 0 0.

Inductive heap_step : llst → llst → Prop :=
| step_get req align r s s' :
    0 ≤ req < 2147483648 → get_free req align s = Ok (r, s') → heap_step s s'
| step_free node r s s' : free_node node s = Ok (r, s') → heap_step s s'.

Definition heap_bounds (start max : Z) : Prop :=
  0 < start ∧ 0 ≤ max ≤ 1073741824 ∧ start + max + 8192 < 4294967296.

Lemma rep_fresh start max usr m e :
  heap_bounds start max →
  rep (LLSt (fresh_list start max usr) m e) (AHeap start max 0 [] []) ∧
  wf (AHeap start max 0 [] []).
Proof.
  intros (? & ? & ?). split; [split; try done; constructor|].
  split; simpl; try done; try lia. exists []. split; [done|]. simpl. lia.
Qed.

Lemma rep_errno s a e : rep s a → rep (LLSt (ll_list s) (ll_mem s) e) a.
Proof. intros []. by split. Qed.

Lemma heap_step_preserves s s' a :
  rep s a → wf a → heap_step s s' →
  ∃ a', rep s' a' ∧ wf a' ∧ a_start a' = a_start a ∧ a_max a' = a_max a.
Proof.
  intros Hr Hwf Hst. destruct Hst as [req align r s s' Hreq Hrun|node r s s' Hrun].
  - destruct (aget req align a) as [[r' a']|] eqn:Ha.
    + edestruct (wp_run _ _ _ (get_free_some _ _ _ _ _ _ Hr Hwf Hreq Ha)) as (x & s1 & Hrun' & _ & Hi).
      rewrite Hrun in Hrun'. simplify_eq. exists a'. destruct (aget_bounds _ _ _ _ _ Ha).
      split_and!; try done; [by destruct Hi|by eapply aget_wf].
    + by rewrite (get_free_none _ _ _ _ Hr Hwf Hreq Ha) in Hrun.
  - pose proof (free_node_run s a node Hr) as Hf. destruct (afree node a) as [a'|] eqn:Ha.
    + destruct Hf as (s1 & Hrun' & Hi & _). rewrite Hrun in Hrun'. simplify_eq.
      exists a'. pose proof (afree_wf _ _ _ Hwf Ha).
      unfold afree in Ha. destruct (find_fit _ _) as [[[??]?]|]; by simplify_eq.
    + rewrite Hrun in Hf. simplify_eq. exists a. by split; [apply rep_errno|].
Qed.

Lemma heap_reachable start max usr m e s :
  heap_bounds start max → rtc heap_step (LLSt (fresh_list start max usr) m e) s →
  ∃ a, rep s a ∧ wf a ∧ a_start a = start ∧ a_max a = max.
Proof.
  intros Hb Hsteps.
  destruct (rep_fresh start max usr m e Hb) as [Hr Hwf].
  assert (Hgen : ∀ s0 s, rtc heap_step s0 s → ∀ a, rep s0 a → wf a →
    ∃ a', rep s a' ∧ wf a' ∧ a_start a' = a_start a ∧ a_max a' = a_max a).
  { induction 1 as [|s0 s1 s2 H1 _ IH]; intros a Hr0 Hwf0; [by exists a|].
    destruct (heap_step_preserves _ _ _ Hr0 Hwf0 H1) as (a1 & Hr1 & Hwf1 & <- & <-).
    by apply IH. }
  by apply (Hgen _ _ Hsteps _ Hr Hwf).
Qed.

(** ** Theorems *)

(** C1: [get_free] implements best-fit allocation.  On a well-formed heap and a
    request below 2^31, either the abstract allocator finds or makes room, and
    then the code terminates, returns the header it chose and leaves the two
    pointer lists that represent the abstract result; or there is no room, and
    then [expand_heap]'s NULL goes to [add_to_used], which writes through it. *)
Theorem get_free_refines s a req align :
  rep s a → wf a → 0 ≤ req < 2147483648 →
  match aget req align a with
  | Some (r, a') => ∃ s', get_free req align s = Ok (r, s') ∧ implements s a' s' ∧ wf a'
  | None => get_free req align s = Fault
  end.
Proof.
  intros Hr Hwf Hreq. destruct (aget req align a) as [[r a']|] eqn:Ha.
  - edestruct (wp_run _ _ _ (get_free_some _ _ _ _ _ _ Hr Hwf Hreq Ha)) as (x & s' & Hrun & -> & Hi).
    exists s'. split_and!; try done. by eapply aget_wf.
  - by eapply get_free_none.
Qed.

(** A heap of one page in use: a first block of 40 bytes, freed, and a second. *)
Definition demo_list : linkedlist := Linkedlist 4096 65536 164 0 4148 4096.
Definition demo_heap : llst :=
  LLSt demo_list {[ 4096 := LLNode 40 0 0; 4148 := LLNode 100 0 0 ]} 0.
Definition demo_aheap : aheap := AHeap 4096 65536 164 [(4096, 40)] [(4148, 100)].

Lemma demo_rep : rep demo_heap demo_aheap.
Proof.
  split; try reflexivity; try (vm_compute; tauto).
  - simpl. split_and!; [lia|reflexivity|exact I].
  - simpl. split_and!; [lia|reflexivity|exact I].
  - apply (bool_decide_unpack _). vm_compute. exact I.
Defined.

Lemma demo_wf : wf demo_aheap.
Proof.
  split; unfold demo_aheap; simpl; try lia.
  - split; [constructor|exact I].
  - exists [(4096, 40); (4148, 100)]. split; [reflexivity|].
    unfold tiles, NODESIZE_MAX, SIZEOF_LL_NODE. simpl. lia.
Defined.

Lemma get_free_refines_witness :
  ∃ s', get_free 20 false demo_heap = Ok (4096, s') ∧
    implements demo_heap (AHeap 4096 65536 164 [] [(4148, 100); (4096, 40)]) s' ∧
    wf (AHeap 4096 65536 164 [] [(4148, 100); (4096, 40)]).
Proof. exact (get_free_refines demo_heap demo_aheap 20 false demo_rep demo_wf ltac:(lia)). Defined.

(** What an allocation gives its caller: a block of at least the requested
    size inside the heap's region (which may exceed [maxsize] by less than a page
    when the request is page aligned), disjoint from every block that was in use,
    page aligned when asked, and every block in use before still is. *)
Theorem get_free_safe s a req align r s' :
  rep s a → wf a → 0 ≤ req < 2147483648 → get_free req align s = Ok (r, s') →
  ∃ a' sz, rep s' a' ∧ wf a' ∧ a_used a' = a_used a ++ [(r, sz)] ∧ req ≤ sz ∧
    a_start a ≤ r ∧ r + SIZEOF_LL_NODE + sz ≤ a_start a + a_max a + 4096 ∧
    (align = true → (r + SIZEOF_LL_NODE) mod 4096 = 0) ∧
    ∀ b, b ∈ a_used a →
      b.1 + SIZEOF_LL_NODE + b.2 ≤ r ∨ r + SIZEOF_LL_NODE + sz ≤ b.1.
Proof.
  intros Hr Hwf Hreq Hrun. destruct (aget req align a) as [[r' a']|] eqn:Ha.
  2: { by rewrite (get_free_none _ _ _ _ Hr Hwf Hreq Ha) in Hrun. }
  edestruct (wp_run _ _ _ (get_free_some _ _ _ _ _ _ Hr Hwf Hreq Ha)) as (x & s1 & Hrun' & -> & [Hr' _]).
  rewrite Hrun in Hrun'. simplify_eq. pose proof (aget_wf _ _ _ _ _ Hwf Ha) as Hwf'.
  destruct (aget_allocated _ _ _ _ _ Ha) as ([r0 sz] & Hu & Hrb & Hsz). simpl in *. subst r0.
  destruct (aget_bounds _ _ _ _ _ Ha) as [Hs Hm].
  assert (Hb : (r', sz) ∈ a_used a') by (rewrite Hu; set_solver).
  pose proof (wf_bounds a' (r', sz) Hwf' ltac:(unfold blocks; set_solver)) as (? & ? & ?).
  pose proof (wf_cur _ Hwf'). simpl in *. exists a', sz. split_and!; try done; try lia.
  - intros ->. by eapply aget_aligned.
  - intros b Hbu. apply (used_disjoint a' b (r', sz) Hwf'); [rewrite Hu; set_solver|done|].
    intros ->. pose proof (rep_nodup _ _ Hr') as Hnd. apply blocks_nodup in Hnd as [_ Hnd].
    rewrite Hu, addrs_app in Hnd. apply NoDup_app in Hnd as (_ & Hd & _).
    apply (Hd r'); [|set_solver]. by apply (list_elem_of_fmap_2 fst) in Hbu.
Qed.

Lemma get_free_safe_witness :
  ∃ a' sz, rep (match get_free 5000 true demo_heap with Ok (_, s) => s | _ => demo_heap end) a' ∧
    wf a' ∧ a_used a' = a_used demo_aheap ++ [(8180, sz)] ∧ 5000 ≤ sz ∧
    4096 ≤ 8180 ∧ 8180 + SIZEOF_LL_NODE + sz ≤ 4096 + 65536 + 4096 ∧
    (true = true → (8180 + SIZEOF_LL_NODE) mod 4096 = 0) ∧
    ∀ b, b ∈ a_used demo_aheap →
      b.1 + SIZEOF_LL_NODE + b.2 ≤ 8180 ∨ 8180 + SIZEOF_LL_NODE + sz ≤ b.1.
Proof.
  apply (get_free_safe demo_heap demo_aheap 5000 true 8180 _ demo_rep demo_wf); [lia|].
  vm_compute. reflexivity.
Defined.

(** C27: [free_node] moves a block in use to its place in the size order of the
    free list, and rejects any address that is not a block in use with -1 and
    EFAULT, leaving both lists as they were. *)
Theorem free_node_refines s a node :
  rep s a → wf a →
  match afree node a with
  | Some a' => ∃ s', free_node node s = Ok (0, s') ∧ implements s a' s' ∧ wf a'
  | None => node ∉ addrs (a_used a) ∧
            free_node node s = Ok (-1, LLSt (ll_list s) (ll_mem s) EFAULT)
  end.
Proof.
  intros Hr Hwf. pose proof (free_node_run s a node Hr) as Hf.
  destruct (afree node a) as [a'|] eqn:Ha.
  - destruct Hf as (s' & Hrun & Hi). exists s'. split_and!; try done. by eapply afree_wf.
  - split; [|done]. pose proof (find_addr (a_used a) node) as Hfa. unfold afree in Ha.
    by destruct (find_fit _ _) as [[[??]?]|].
Qed.

Lemma free_node_refines_witness :
  ∃ s', free_node 4148 demo_heap = Ok (0, s') ∧
    implements demo_heap (AHeap 4096 65536 164 [(4096, 40); (4148, 100)] []) s' ∧
    wf (AHeap 4096 65536 164 [(4096, 40); (4148, 100)] []).
Proof. exact (free_node_refines demo_heap demo_aheap 4148 demo_rep demo_wf). Defined.

(** C9: Every heap that a sequence of allocations and frees can reach is two
    sound lists whose blocks exactly fill [memstart, memstart + cursize): the
    blocks in use are pairwise disjoint, the free list is sorted by size, and
    the heap has grown at most one page past its maximum. *)
Theorem heap_always_tiled start max usr m e s :
  heap_bounds start max → rtc heap_step (LLSt (fresh_list start max usr) m e) s →
  ∃ a, rep s a ∧ tiled a ∧ by_size (a_free a) ∧
    0 ≤ cursize (ll_list s) ≤ max + 4096 ∧
    ∀ b c, b ∈ a_used a → c ∈ a_used a → b ≠ c →
      b.1 + SIZEOF_LL_NODE + b.2 ≤ c.1 ∨ c.1 + SIZEOF_LL_NODE + c.2 ≤ b.1.
Proof.
  intros Hb Hst. destruct (heap_reachable _ _ _ _ _ _ Hb Hst) as (a & Hr & Hwf & Hs & Hm).
  exists a. rewrite (rep_cur _ _ Hr), <- Hm. split_and!; try done; try apply Hwf.
  intros b c. by apply used_disjoint.
Qed.

Lemma heap_always_tiled_witness :
  ∃ a, rep (match (_ ← get_free 10 false; get_free 100 true) (LLSt (fresh_list 4096 65536 0) ∅ 0)
            with Ok (_, s) => s | _ => demo_heap end) a ∧ tiled a ∧ by_size (a_free a) ∧
    0 ≤ cursize (ll_list (match (_ ← get_free 10 false; get_free 100 true)
      (LLSt (fresh_list 4096 65536 0) ∅ 0) with Ok (_, s) => s | _ => demo_heap end)) ≤ 65536 + 4096 ∧
    ∀ b c, b ∈ a_used a → c ∈ a_used a → b ≠ c →
      b.1 + SIZEOF_LL_NODE + b.2 ≤ c.1 ∨ c.1 + SIZEOF_LL_NODE + c.2 ≤ b.1.
Proof.
  apply (heap_always_tiled 4096 65536 0 ∅ 0); [unfold heap_bounds; lia|].
  eapply rtc_l; [apply (step_get 10 false 4096); [lia|vm_compute; reflexivity]|].
  eapply rtc_l; [apply (step_get 100 true 8180); [lia|vm_compute; reflexivity]|].
  apply rtc_refl.
Defined.

(** The size check of [expand_heap] is done modulo 2^32: for a request of
    2^32 - 16 bytes it passes on every heap that has grown at all, and the heap
    shrinks by 4 bytes, so the next header lands inside the last block. *)
Theorem expand_heap_wraps s :
  4 ≤ cursize (ll_list s) ≤ maxsize (ll_list s) → maxsize (ll_list s) < 4294967296 →
  u32 (memstart (ll_list s) + cursize (ll_list s)) ≠ 0 →
  ∃ s', expand_heap 4294967280 false s =
          Ok (u32 (memstart (ll_list s) + cursize (ll_list s)), s') ∧
        cursize (ll_list s') = cursize (ll_list s) - 4.
Proof.
  intros Hc Hm Hz. unfold expand_heap. rewrite (bind_ok _ _ s (ll_list s) s) by done.
  unfold SIZEOF_LL_NODE.
  assert (Hw : ∀ x, x = cursize (ll_list s) + 4294967292 → u32 x = cursize (ll_list s) - 4).
  { intros x ->. unfold u32.
    replace (cursize (ll_list s) + 4294967292) with (cursize (ll_list s) - 4 + 1 * 4294967296) by lia.
    rewrite Z_mod_plus_full. apply Z.mod_small. lia. }
  rewrite (Hw (cursize (ll_list s) + 4294967280 + 12)) by lia.
  destruct (Z.leb_spec (cursize (ll_list s) - 4) (maxsize (ll_list s))); [|lia].
  unfold put_node. destruct (Z.eqb_spec (u32 (memstart (ll_list s) + cursize (ll_list s))) 0); [done|].
  eexists. split; [reflexivity|]. simpl. apply Hw. lia.
Qed.

Lemma expand_heap_wraps_witness :
  ∃ s', expand_heap 4294967280 false demo_heap = Ok (4260, s') ∧
        cursize (ll_list s') = 160.
Proof. apply (expand_heap_wraps demo_heap); [simpl; lia|simpl; lia|vm_compute; discriminate]. Defined.
