(* ===== verification/Frames.v ===== *)
(** * Physical frames (kernel/mm/paging.c, the bitset and the frame allocator)

    The bitmap [g_frames] has one bit per 4 KiB frame, in 32-bit words; a word
    outside the memory allocated for it is [Fault].  A [page_t] is the record of
    its bit fields, passed in and returned, since every function here reads and
    writes only the one page it is given. *)
From S2P Require Import Prelude.

Record page := Page {
  pg_present : Z;
  pg_rw : Z;
  pg_user : Z;
  pg_accessed : Z;
  pg_dirty : Z;
  pg_unused : Z;
  pg_frame : Z
}.

Definition zero_pte : page := Page 0 0 0 0 0 0 0.

Record frst := FrSt {
  g_frames : list Z;
  g_nframes : Z;
  fr_errno : Z
}.

Definition FR_ENOMEM : Z := 12.
Definition ALL_ONES : Z := 4294967295.

Definition INDEX_FROM_BIT (a : Z) : Z := a / (8 * 4).
Definition OFFSET_FROM_BIT (a : Z) : Z := a mod (8 * 4).

(** ** The bitset *)

Definition read_word (i : Z) : M frst Z :=
  fr ← get g_frames; of_option (fr !! Z.to_nat i).

Definition write_word (i w : Z) : M frst unit :=
  _ ← read_word i;
  modify (λ s, FrSt (<[Z.to_nat i := w]> (g_frames s)) (g_nframes s) (fr_errno s)).

Definition fr_set_errno (e : Z) : M frst unit :=
  modify (λ s, FrSt (g_frames s) (g_nframes s) e).

(** [g_frames[index] &= 0x1 << offset], converted to int. *)
Definition get_frame (frame_addr : Z) : M frst Z :=
  let frame := frame_addr / 4096 in
  w ← read_word (INDEX_FROM_BIT frame);
  let v := Z.land w (Z.shiftl 1 (OFFSET_FROM_BIT frame)) in
  _ ← write_word (INDEX_FROM_BIT frame) v;
  mret (s32 v).

Definition set_frame (frame_addr : Z) : M frst unit :=
  let frame := frame_addr / 4096 in
  w ← read_word (INDEX_FROM_BIT frame);
  write_word (INDEX_FROM_BIT frame) (Z.lor w (Z.shiftl 1 (OFFSET_FROM_BIT frame))).

Definition clear_frame (frame_addr : Z) : M frst unit :=
  let frame := frame_addr / 4096 in
  w ← read_word (INDEX_FROM_BIT frame);
  write_word (INDEX_FROM_BIT frame)
    (Z.land w (u32 (Z.lnot (Z.shiftl 1 (OFFSET_FROM_BIT frame))))).

(** The inner loop over the bits of a word. *)
Fixpoint first_zero_bit (w j : Z) (fuel : nat) : option Z :=
  match fuel with
  | O => None
  | S n => if Z.land w (Z.shiftl 1 j) =? 0 then Some j else first_zero_bit w (j + 1) n
  end.

Definition first_frame : M frst Z :=
  nf ← get g_nframes;
  loop (S (Z.to_nat (INDEX_FROM_BIT nf))) (λ i,
    if i <? INDEX_FROM_BIT nf then
      w ← read_word i;
      if w =? ALL_ONES then mret (inl (i + 1))
      else match first_zero_bit w 0 32 with
           | Some j => mret (inr (s32 (i * 4 * 8 + j)))
           | None => mret (inl (i + 1))
           end
    else mret (inr (-1))) 0.

(** ** Frames and pages *)

Definition flag (v : Z) : Z := if v =? 0 then 0 else 1.
Definition not_flag (v : Z) : Z := if v =? 0 then 1 else 0.

(** [present], [rw], [user] and the 20-bit [frame] field. *)
Definition bind_page (p : page) (is_kernel writable index : Z) : page :=
  Page 1 (flag writable) (not_flag is_kernel) (pg_accessed p) (pg_dirty p) (pg_unused p)
    (Z.land index 1048575).

Definition alloc_frame (p : page) (is_kernel writable : Z) : M frst (Z * page) :=
  if negb (pg_frame p =? 0) then mret (-1, p)
  else
    index ← first_frame;
    if index =? -1 then
      _ ← fr_set_errno FR_ENOMEM;
      mret (-2, p)
    else
      _ ← set_frame (u32 (index * 4096));
      mret (0, bind_page p is_kernel writable index).

Definition set_frame_flags (p : page) (kernel writeable : Z) : page :=
  Page (pg_present p) (flag writeable) (not_flag kernel) (pg_accessed p) (pg_dirty p)
    (pg_unused p) (pg_frame p).

Definition flagforce_alloc_frame (p : page) (is_kernel writeable : Z) : M frst (Z * page) :=
  '(ret, p') ← alloc_frame p is_kernel writeable;
  if ret =? -1 then mret (0, set_frame_flags p' is_kernel writeable)
  else if ret =? -2 then mret (-1, p')
  else mret (0, p').

Definition realloc_frame (p : page) (is_kernel writable : Z) : M frst (Z * page) :=
  _ ← (if negb (pg_frame p =? 0) then clear_frame (pg_frame p) else mret tt);
  index ← first_frame;
  if index =? -1 then
    _ ← fr_set_errno FR_ENOMEM;
    mret (-2, p)
  else
    _ ← set_frame (u32 (index * 4096));
    mret (0, bind_page p is_kernel writable index).

Definition map_frame (p : page) (addr remap is_kernel writable : Z) : M frst (Z * page) :=
  if negb (pg_frame p =? 0) && (remap =? 0) then mret (-1, p)
  else
    _ ← set_frame addr;
    mret (0, bind_page p is_kernel writable (addr / 4096)).

Definition with_pg_frame (p : page) (f : Z) : page :=
  Page (pg_present p) (pg_rw p) (pg_user p) (pg_accessed p) (pg_dirty p) (pg_unused p) f.

Definition free_frame (p : page) : M frst page :=
  let frame := 0 in
  if negb (frame =? pg_frame p) then mret p
  else
    _ ← clear_frame frame;
    mret (with_pg_frame p 0).

(** [GETBIT(n, k)]. *)
Definition GETBIT (n k : Z) : Z := Z.land (Z.shiftr n k) 1.

Fixpoint count_free_bits (w : Z) (bits : list Z) (acc : Z) : Z :=
  match bits with
  | [] => acc
  | j :: bits' =>
    count_free_bits w bits' (if GETBIT w j =? 0 then u32 (acc + 1) else acc)
  end.

Definition phys_freeram_amount : M frst Z :=
  nf ← get g_nframes;
  let ints := nf / 32 in
  freeram ← loop (S (Z.to_nat ints)) (λ '(i, freeram),
    if i <? ints then
      w ← read_word i;
      if w =? 0 then mret (inl (i + 1, u32 (freeram + 32)))
      else mret (inl (i + 1, count_free_bits w (seqZ 0 32) freeram))
    else mret (inr freeram)) (0, 0);
  mret (u32 (freeram * 4096)).

(** [getbit] of libk/bit.c: an arithmetic shift on a 32-bit int. *)
Definition getbit (n k : Z) : Z := Z.shiftr (s32 (Z.land n (Z.shiftl 1 k))) k.

(** ** The set of frames in use *)

Definition used (ws : list Z) (i : Z) : bool :=
  Z.testbit (default 0 (ws !! Z.to_nat (i / 32))) (i mod 32).

Definition is_word (w : Z) : Prop := 0 ≤ w < 4294967296.

(** A bitmap that has a 32-bit word for every frame it is asked about. *)
Record frames_ok (s : frst) : Prop := FramesOk {
  fr_words : Forall is_word (g_frames s);
  fr_nframes : 0 ≤ g_nframes s < 67108864;
  fr_len : g_nframes s / 32 ≤ Z.of_nat (length (g_frames s))
}.

Definition capacity (s : frst) : Z := 32 * Z.of_nat (length (g_frames s)).

Lemma frame_split i : 0 ≤ i → i = 32 * (i / 32) + i mod 32 ∧ 0 ≤ i / 32 ∧ 0 ≤ i mod 32 < 32.
Proof.
  intros Hi. pose proof (Z.div_mod i 32). pose proof (Z.mod_pos_bound i 32).
  pose proof (Z.div_pos i 32). lia.
Qed.

Lemma word_index s i :
  0 ≤ i < capacity s → ∃ w, g_frames s !! Z.to_nat (i / 32) = Some w.
Proof.
  unfold capacity. intros Hi. pose proof (frame_split i).
  apply lookup_lt_is_Some. lia.
Qed.

Lemma run_read_word s i w :
  g_frames s !! Z.to_nat i = Some w → read_word i s = Ok (w, s).
Proof. intros Hw. unfold read_word, get, of_option, mbind, M_bind. by rewrite Hw. Qed.

Lemma run_write_word s i w v :
  g_frames s !! Z.to_nat i = Some w →
  write_word i v s =
    Ok (tt, FrSt (<[Z.to_nat i := v]> (g_frames s)) (g_nframes s) (fr_errno s)).
Proof.
  intros Hw. unfold write_word. by rewrite (bind_ok _ _ s w s) by by apply run_read_word.
Qed.

Lemma word_bits_high w n : is_word w → 32 ≤ n → Z.testbit w n = false.
Proof. intros Hw Hn. by apply (testbit_above w 32); [|lia]. Qed.

(** Words are bounded by their bits. *)
Lemma is_word_bits w : (∀ n, n < 0 ∨ 32 ≤ n → Z.testbit w n = false) → is_word w.
Proof.
  intros Hw. unfold is_word. replace w with (w mod 2 ^ 32).
  - apply Z.mod_pos_bound. lia.
  - apply Z.bits_inj'. intros n Hn. destruct (decide (n < 32)).
    + by rewrite Z.mod_pow2_bits_low by lia.
    + rewrite Z.mod_pow2_bits_high by lia. symmetry. apply Hw. lia.
Qed.

Lemma shiftl1_testbit k n : 0 ≤ k → 0 ≤ n → Z.testbit (Z.shiftl 1 k) n = (n =? k).
Proof.
  intros Hk Hn. rewrite Z.shiftl_spec by lia. destruct (Z.eqb_spec n k) as [->|Hne].
  - by rewrite Z.sub_diag.
  - destruct (decide (n < k)); [by rewrite Z.testbit_neg_r by lia|].
    by rewrite (testbit_above 1 1) by lia.
Qed.

Lemma clear_mask_testbit k n :
  0 ≤ k < 32 → 0 ≤ n < 32 → Z.testbit (u32 (Z.lnot (Z.shiftl 1 k))) n = negb (n =? k).
Proof.
  intros Hk Hn. unfold u32. change 4294967296 with (2 ^ 32).
  rewrite Z.mod_pow2_bits_low by lia. rewrite Z.lnot_spec, shiftl1_testbit by lia. done.
Qed.

Lemma land_bit_zero w k : 0 ≤ k → (Z.land w (Z.shiftl 1 k) =? 0) = negb (Z.testbit w k).
Proof.
  intros Hk. destruct (Z.testbit w k) eqn:Hb; simpl.
  - apply Z.eqb_neq. intros Hz. apply (f_equal (λ x, Z.testbit x k)) in Hz.
    rewrite Z.land_spec, shiftl1_testbit, Hb, Z.eqb_refl, Z.testbit_0_l in Hz by done. done.
  - apply Z.eqb_eq. apply Z.bits_inj'. intros n Hn.
    rewrite Z.land_spec, shiftl1_testbit, Z.testbit_0_l by lia.
    destruct (Z.eqb_spec n k) as [->|]; [by rewrite Hb|apply andb_false_r].
Qed.

(** Changing the word of frame [f] changes no bit of another word. *)
Lemma used_insert_word ws f v w j :
  0 ≤ f → 0 ≤ j → ws !! Z.to_nat (f / 32) = Some w →
  used (<[Z.to_nat (f / 32) := v]> ws) j =
    if j / 32 =? f / 32 then Z.testbit v (j mod 32) else used ws j.
Proof.
  intros Hf Hj Hw. unfold used.
  pose proof (frame_split f Hf) as (_ & ? & _). pose proof (frame_split j Hj) as (_ & ? & _).
  destruct (Z.eqb_spec (j / 32) (f / 32)) as [->|Hne].
  - rewrite list_lookup_insert_eq; [done|]. by eapply lookup_lt_Some.
  - rewrite list_lookup_insert_ne; [done|]. lia.
Qed.

(** What an update of the bit of frame [f] to [b] leaves. *)
Definition bit_updated (s : frst) (f : Z) (b : bool) (s' : frst) : Prop :=
  g_nframes s' = g_nframes s ∧ fr_errno s' = fr_errno s ∧
  length (g_frames s') = length (g_frames s) ∧
  Forall is_word (g_frames s') ∧
  ∀ j, 0 ≤ j → used (g_frames s') j = if j =? f then b else used (g_frames s) j.

Lemma update_word_spec s f b w v :
  0 ≤ f → Forall is_word (g_frames s) → g_frames s !! Z.to_nat (f / 32) = Some w →
  is_word v →
  (∀ n, 0 ≤ n < 32 → Z.testbit v n = if n =? f mod 32 then b else Z.testbit w n) →
  bit_updated s f b
    (FrSt (<[Z.to_nat (f / 32) := v]> (g_frames s)) (g_nframes s) (fr_errno s)).
Proof.
  intros Hf Hws Hw Hv Hbits. split_and!; try done; simpl.
  - apply length_insert.
  - by apply Forall_insert.
  - intros j Hj. rewrite (used_insert_word _ _ _ w) by done.
    pose proof (frame_split f Hf) as (Ef & ? & ?). pose proof (frame_split j Hj) as (Ej & ? & ?).
    destruct (Z.eqb_spec (j / 32) (f / 32)) as [He|He].
    + rewrite Hbits by lia. unfold used. rewrite He, Hw. simpl.
      destruct (Z.eqb_spec (j mod 32) (f mod 32)), (Z.eqb_spec j f); try done; lia || congruence.
    + destruct (Z.eqb_spec j f); [congruence|done].
Qed.

Lemma set_frame_spec s a :
  0 ≤ a → a / 4096 < capacity s → Forall is_word (g_frames s) →
  wp (set_frame a) (λ _ s', bit_updated s (a / 4096) true s') s.
Proof.
  intros Ha Hc Hws. set (f := a / 4096) in *.
  assert (Hf : 0 ≤ f) by (apply Z.div_pos; lia).
  destruct (word_index s f) as [w Hw]; [lia|].
  pose proof (frame_split f Hf) as (_ & ? & ?).
  unfold set_frame. fold f. unfold INDEX_FROM_BIT, OFFSET_FROM_BIT. change (8 * 4) with 32.
  wp_step. eapply run_wp; [by apply run_read_word|]. eapply run_wp; [by eapply run_write_word|].
  assert (is_word w) by (by eapply Forall_lookup_1).
  eapply update_word_spec; try done.
  - apply is_word_bits. intros n Hn. rewrite Z.lor_spec.
    destruct (decide (n < 0)); [by rewrite !Z.testbit_neg_r by lia|].
    rewrite (word_bits_high w), shiftl1_testbit by (assumption || lia). apply Z.eqb_neq. lia.
  - intros n Hn. rewrite Z.lor_spec, shiftl1_testbit by lia.
    destruct (Z.eqb_spec n (f mod 32)); [apply orb_true_r|apply orb_false_r].
Qed.

Lemma clear_frame_spec s a :
  0 ≤ a → a / 4096 < capacity s → Forall is_word (g_frames s) →
  wp (clear_frame a) (λ _ s', bit_updated s (a / 4096) false s') s.
Proof.
  intros Ha Hc Hws. set (f := a / 4096) in *.
  assert (Hf : 0 ≤ f) by (apply Z.div_pos; lia).
  destruct (word_index s f) as [w Hw]; [lia|].
  pose proof (frame_split f Hf) as (_ & ? & ?).
  unfold clear_frame. fold f. unfold INDEX_FROM_BIT, OFFSET_FROM_BIT. change (8 * 4) with 32.
  wp_step. eapply run_wp; [by apply run_read_word|]. eapply run_wp; [by eapply run_write_word|].
  assert (is_word w) by (by eapply Forall_lookup_1).
  eapply update_word_spec; try done.
  - apply is_word_bits. intros n Hn. rewrite Z.land_spec.
    destruct (decide (n < 0)); [by rewrite !Z.testbit_neg_r by lia|].
    by rewrite (word_bits_high w) by (assumption || lia).
  - intros n Hn. rewrite Z.land_spec, clear_mask_testbit by lia.
    destruct (Z.eqb_spec n (f mod 32)); [apply andb_false_r|apply andb_true_r].
Qed.

Lemma first_zero_bit_spec w j fuel :
  0 ≤ j →
  match first_zero_bit w j fuel with
  | Some k => j ≤ k < j + Z.of_nat fuel ∧ Z.testbit w k = false ∧
              ∀ i, j ≤ i < k → Z.testbit w i = true
  | None => ∀ i, j ≤ i < j + Z.of_nat fuel → Z.testbit w i = true
  end.
Proof.
  revert j. induction fuel as [|fuel IH]; intros j Hj; simpl; [intros; lia|].
  rewrite land_bit_zero by lia. destruct (Z.testbit w j) eqn:Hb; simpl.
  - specialize (IH (j + 1) ltac:(lia)).
    destruct (first_zero_bit w (j + 1) fuel) as [k|].
    + destruct IH as (? & ? & Hall). split_and!; [lia..|done|].
      intros i Hi. destruct (decide (i = j)) as [->|]; [done|]. apply Hall. lia.
    + intros i Hi. destruct (decide (i = j)) as [->|]; [done|]. apply IH. lia.
  - split_and!; [lia..|done|]. intros; lia.
Qed.

Lemma ones_testbit i : 0 ≤ i < 32 → Z.testbit ALL_ONES i = true.
Proof. intros Hi. change ALL_ONES with (Z.ones 32). by apply Z.ones_spec_low. Qed.

Lemma used_word ws q k : 0 ≤ q → 0 ≤ k < 32 →
  used ws (32 * q + k) = Z.testbit (default 0 (ws !! Z.to_nat q)) k.
Proof.
  intros Hq Hk. unfold used. rewrite Z.mul_comm, Z.div_add_l, Z.div_small, Z.add_0_r by lia.
  by rewrite Z.add_comm, Z_mod_plus_full, Z.mod_small by lia.
Qed.

(** The frames the allocator can hand out: whole words only. *)
Definition frame_limit (s : frst) : Z := 32 * (g_nframes s / 32).

Definition lowest_free (s : frst) (r : Z) : Prop :=
  (r = -1 ∧ ∀ j, 0 ≤ j < frame_limit s → used (g_frames s) j = true) ∨
  (0 ≤ r < frame_limit s ∧ used (g_frames s) r = false ∧
   ∀ j, 0 ≤ j < r → used (g_frames s) j = true).

(** All bits of one more word. *)
Lemma extend_used ws q w :
  0 ≤ q → ws !! Z.to_nat q = Some w → (∀ i, 0 ≤ i < 32 → Z.testbit w i = true) →
  (∀ j, 0 ≤ j < 32 * q → used ws j = true) →
  ∀ j, 0 ≤ j < 32 * (q + 1) → used ws j = true.
Proof.
  intros Hq Hw Hbits Hlow j Hj. destruct (decide (j < 32 * q)); [by apply Hlow; lia|].
  replace j with (32 * q + (j - 32 * q)) by lia. rewrite used_word by lia.
  rewrite Hw. apply Hbits. lia.
Qed.

Lemma first_frame_spec s :
  frames_ok s → wp first_frame (λ r s', s' = s ∧ lowest_free s r) s.
Proof.
  intros [Hws Hnf Hlen]. unfold first_frame. do 2 wp_step.
  unfold INDEX_FROM_BIT. change (8 * 4) with 32. set (n := g_nframes s / 32) in *.
  assert (0 ≤ n < 2097152).
  { subst n. split; [apply Z.div_pos; lia|]. apply Z.div_lt_upper_bound; lia. }
  eapply (wp_loop _ (λ m i s', s' = s ∧ 0 ≤ i ≤ n ∧ m = Z.to_nat (n - i) ∧
    ∀ j, 0 ≤ j < 32 * i → used (g_frames s) j = true)).
  2: { split_and!; try done; try lia. }
  2: { lia. }
  intros m i s' (-> & Hi & -> & Hlow). destruct (Z.ltb_spec i n) as [Hlt|Hge].
  2: { wp_step. split; [done|]. left. split; [done|]. unfold frame_limit. fold n.
       intros j Hj. apply Hlow. lia. }
  assert (is_Some (g_frames s !! Z.to_nat i)) as [w Hw] by (apply lookup_lt_is_Some; lia).
  wp_step. eapply run_wp; [by apply run_read_word|].
  assert (Hnext : (∀ k, 0 ≤ k < 32 → Z.testbit w k = true) →
    ∃ m, (m < Z.to_nat (n - i))%nat ∧ s = s ∧ 0 ≤ i + 1 ≤ n ∧ m = Z.to_nat (n - (i + 1)) ∧
      ∀ j, 0 ≤ j < 32 * (i + 1) → used (g_frames s) j = true).
  { intros Hall. eexists. split_and!; try done; try lia. by apply (extend_used _ i w); [lia|..]. }
  destruct (Z.eqb_spec w ALL_ONES) as [->|Hne].
  { wp_step. apply Hnext. apply ones_testbit. }
  pose proof (first_zero_bit_spec w 0 32 ltac:(lia)) as Hfz.
  destruct (first_zero_bit w 0 32) as [k|].
  - destruct Hfz as (Hk & Hbit & Hbelow). wp_step. split; [done|]. right.
    replace (i * 4 * 8 + k) with (32 * i + k) by lia. rewrite s32_small by lia.
    split_and!; [lia|unfold frame_limit; fold n; lia|rewrite used_word, Hw by lia; done|].
    intros j Hj. destruct (decide (j < 32 * i)); [apply Hlow; lia|].
    replace j with (32 * i + (j - 32 * i)) by lia. rewrite used_word, Hw by lia.
    apply Hbelow. lia.
  - wp_step. apply Hnext. intros k Hk. apply Hfz. lia.
Qed.

Lemma bit_updated_ok s f b s' : frames_ok s → bit_updated s f b s' → frames_ok s'.
Proof.
  intros [Hws Hnf Hlen] (Hn & _ & Hl & Hws' & _). by split; rewrite ?Hn, ?Hl.
Qed.

(** The first free frame is marked and bound to [p]. *)
Definition frame_taken (s : frst) (p : page) (is_kernel writable : Z)
    (p' : page) (s' : frst) : Prop :=
  ∃ f, 0 ≤ f < frame_limit s ∧ lowest_free s f ∧ bit_updated s f true s' ∧
       p' = bind_page p is_kernel writable f.

Lemma take_first_frame s p is_kernel writable :
  frames_ok s → g_nframes s ≤ 1048576 →
  wp (index ← first_frame;
      if index =? -1 then _ ← fr_set_errno FR_ENOMEM; mret (-2, p)
      else _ ← set_frame (u32 (index * 4096));
           mret (0, bind_page p is_kernel writable index))
     (λ '(r, p') s',
        (r = -2 ∧ p' = p ∧ lowest_free s (-1) ∧
         s' = FrSt (g_frames s) (g_nframes s) FR_ENOMEM) ∨
        (r = 0 ∧ frame_taken s p is_kernel writable p' s')) s.
Proof.
  intros Hok Hn. pose proof Hok as [Hws Hnf Hlen]. wp_step.
  eapply wp_mono; [by apply first_frame_spec|]. intros r s' [-> Hr].
  assert (32 * (g_nframes s / 32) ≤ g_nframes s) by (apply Z.mul_div_le; lia).
  destruct (Z.eqb_spec r (-1)) as [->|Hne].
  - wp_step. apply wp_modify. wp_step. left. done.
  - destruct Hr as [[? _]|(Hr & Hu & Hb)]; [done|]. unfold frame_limit in Hr.
    rewrite u32_small by lia. wp_step. eapply wp_mono.
    { apply set_frame_spec; [lia| |done]. rewrite Z.div_mul by lia. unfold capacity. lia. }
    intros [] s' Hs'. rewrite Z.div_mul in Hs' by lia. wp_step. right. split; [done|].
    exists r. split_and!; try done; try lia; [unfold frame_limit; lia|]. by right; unfold frame_limit; split_and!; try lia.
Qed.

Lemma alloc_frame_spec s p is_kernel writable :
  frames_ok s → g_nframes s ≤ 1048576 → pg_frame p = 0 →
  wp (alloc_frame p is_kernel writable)
     (λ '(r, p') s',
        (r = -2 ∧ p' = p ∧ lowest_free s (-1) ∧
         s' = FrSt (g_frames s) (g_nframes s) FR_ENOMEM) ∨
        (r = 0 ∧ frame_taken s p is_kernel writable p' s')) s.
Proof.
  intros Hok Hn Hp. unfold alloc_frame. rewrite Hp. simpl. by apply take_first_frame.
Qed.

Lemma alloc_frame_mapped s p is_kernel writable :
  pg_frame p ≠ 0 → alloc_frame p is_kernel writable s = Ok ((-1, p), s).
Proof. intros Hp. unfold alloc_frame. by destruct (Z.eqb_spec (pg_frame p) 0). Qed.

Lemma frame_taken_field s p k w p' s' :
  g_nframes s ≤ 1048576 → 0 ≤ g_nframes s → frame_taken s p k w p' s' →
  0 ≤ pg_frame p' < frame_limit s ∧ used (g_frames s) (pg_frame p') = false ∧
  used (g_frames s') (pg_frame p') = true.
Proof.
  intros Hn H0 (f & Hf & Hl & (_ & _ & _ & _ & Hu) & ->).
  assert (32 * (g_nframes s / 32) ≤ g_nframes s) by (apply Z.mul_div_le; lia).
  unfold frame_limit in *. simpl. change 1048575 with (Z.ones 20).
  rewrite Z.land_ones, Z.mod_small by lia. split_and!; try lia.
  - destruct Hl as [[-> _]|(_ & ? & _)]; [lia|done].
  - rewrite Hu by lia. by rewrite Z.eqb_refl.
Qed.

(** ** Counting free frames *)

(** The number of the frames [js] that are free. *)
Fixpoint count_free (ws : list Z) (js : list Z) : Z :=
  match js with
  | [] => 0
  | j :: js' => (if used ws j then 0 else 1) + count_free ws js'
  end.

Lemma count_free_app ws js ks :
  count_free ws (js ++ ks) = count_free ws js + count_free ws ks.
Proof. induction js as [|j js IH]; simpl; [done|]. rewrite IH. lia. Qed.

Lemma count_free_bound ws js : 0 ≤ count_free ws js ≤ Z.of_nat (length js).
Proof. induction js as [|j js IH]; simpl; [lia|]. destruct (used ws j); lia. Qed.

Lemma GETBIT_testbit w k : 0 ≤ k → (GETBIT w k =? 0) = negb (Z.testbit w k).
Proof.
  intros Hk. unfold GETBIT. change (Z.land (Z.shiftr w k) 1) with (Z.land (Z.shiftr w k) (Z.shiftl 1 0)).
  rewrite land_bit_zero by lia. by rewrite Z.shiftr_spec.
Qed.

Lemma count_free_bits_spec ws q w js acc :
  0 ≤ q → ws !! Z.to_nat q = Some w → Forall (λ j, 0 ≤ j < 32) js →
  0 ≤ acc → acc + Z.of_nat (length js) < 4294967296 →
  count_free_bits w js acc = acc + count_free ws ((λ j, 32 * q + j) <$> js).
Proof.
  intros Hq Hw. revert acc. induction js as [|j js IH]; intros acc Hjs Hacc Hb; simpl; [lia|].
  apply Forall_cons in Hjs as [Hj Hjs]. simpl in Hb. rewrite GETBIT_testbit by lia.
  rewrite used_word, Hw by lia. simpl.
  destruct (Z.testbit w j); simpl; [|rewrite u32_small by lia]; rewrite IH by (done || lia);
    unfold fmap; lia.
Qed.

Lemma seqZ_word q : (λ j, 32 * q + j) <$> seqZ 0 32 = seqZ (32 * q) 32.
Proof. etransitivity; [apply (fmap_add_seqZ (32 * q) 0 32)|]. by rewrite Z.add_0_r. Qed.

Lemma count_free_next ws q : 0 ≤ q →
  count_free ws (seqZ 0 (32 * (q + 1))) =
  count_free ws (seqZ 0 (32 * q)) + count_free ws (seqZ (32 * q) 32).
Proof.
  intros Hq. replace (32 * (q + 1)) with (32 * q + 32) by lia.
  rewrite seqZ_app by lia. by rewrite count_free_app, Z.add_0_l.
Qed.

Lemma seqZ_range a n : Forall (λ j, a ≤ j < a + n) (seqZ a n).
Proof. apply Forall_forall. intros j Hj. by apply elem_of_seqZ in Hj. Qed.

Lemma word_zero_count ws q : 0 ≤ q → ws !! Z.to_nat q = Some 0 →
  count_free ws (seqZ (32 * q) 32) = 32.
Proof.
  intros Hq Hw. rewrite <- seqZ_word.
  rewrite <- (Z.add_0_l (count_free _ _)).
  rewrite <- (count_free_bits_spec ws q 0 (seqZ 0 32) 0); try done.
  apply (seqZ_range 0 32).
Qed.

Lemma freeram_loop s :
  frames_ok s →
  wp phys_freeram_amount
     (λ r s', s' = s ∧ r = u32 (count_free (g_frames s) (seqZ 0 (frame_limit s)) * 4096)) s.
Proof.
  intros [Hws Hnf Hlen]. unfold phys_freeram_amount. do 3 wp_step.
  unfold frame_limit. set (n := g_nframes s / 32) in *.
  assert (0 ≤ n < 2097152).
  { subst n. split; [apply Z.div_pos; lia|]. apply Z.div_lt_upper_bound; lia. }
  eapply (wp_loop _ (λ m '(i, acc) s', s' = s ∧ 0 ≤ i ≤ n ∧ m = Z.to_nat (n - i) ∧
    acc = count_free (g_frames s) (seqZ 0 (32 * i)))).
  2: { split_and!; try done; lia. }
  2: { lia. }
  intros m [i acc] s' (-> & Hi & -> & ->). destruct (Z.ltb_spec i n) as [Hlt|Hge].
  2: { wp_step. wp_step. by replace i with n by lia. }
  assert (is_Some (g_frames s !! Z.to_nat i)) as [w Hw] by (apply lookup_lt_is_Some; lia).
  wp_step. eapply run_wp; [by apply run_read_word|].
  pose proof (count_free_bound (g_frames s) (seqZ 0 (32 * i))) as Hcb. rewrite length_seqZ in Hcb.
  destruct (Z.eqb_spec w 0) as [->|Hne]; wp_step; eexists; (split; [|split_and!; [done|lia..| |]]);
    try reflexivity; try lia; rewrite count_free_next by lia.
  - rewrite word_zero_count by (done || lia). rewrite u32_small; lia.
  - rewrite (count_free_bits_spec (g_frames s) i w); [by rewrite seqZ_word|lia|done|..];
      [apply (seqZ_range 0 32)|lia|rewrite length_seqZ; lia].
Qed.

(** ** Theorems *)

(** A bitmap of 64 frames of which 0, 1 and 2 are in use. *)
Definition demo_frames : frst := FrSt [7; 0] 64 0.

Lemma demo_frames_ok : frames_ok demo_frames.
Proof.
  split; [repeat constructor; unfold is_word; lia|simpl; lia|vm_compute; discriminate].
Defined.

(** C11: [alloc_frame] on every branch: a page that has a frame is left alone
    with -1; when every frame is in use the page is left alone with -2 and
    errno ENOMEM; otherwise the lowest free frame, and only that one, becomes
    used and the page is present with it and with the requested rights. *)
Theorem alloc_frame_correct s p is_kernel writable :
  frames_ok s → g_nframes s ≤ 1048576 →
  ∃ r p' s', alloc_frame p is_kernel writable s = Ok ((r, p'), s') ∧ frames_ok s' ∧
    ((r = -1 ∧ pg_frame p ≠ 0 ∧ p' = p ∧ s' = s) ∨
     (r = -2 ∧ p' = p ∧ fr_errno s' = FR_ENOMEM ∧ g_frames s' = g_frames s ∧
      ∀ j, 0 ≤ j < frame_limit s → used (g_frames s) j = true) ∨
     (r = 0 ∧ ∃ f, 0 ≤ f < frame_limit s ∧ used (g_frames s) f = false ∧
      (∀ j, 0 ≤ j < f → used (g_frames s) j = true) ∧
      (∀ j, 0 ≤ j → used (g_frames s') j = (j =? f) || used (g_frames s) j) ∧
      p' = Page 1 (flag writable) (not_flag is_kernel) (pg_accessed p) (pg_dirty p)
             (pg_unused p) f)).
Proof.
  intros Hok Hn. destruct (decide (pg_frame p = 0)) as [Hp|Hp].
  2: { exists (-1), p, s. rewrite alloc_frame_mapped by done. split_and!; auto. }
  destruct (wp_run _ _ _ (alloc_frame_spec s p is_kernel writable Hok Hn Hp))
    as ([r p'] & s' & Hrun & Hr). exists r, p', s'. split; [done|].
  destruct Hr as [(-> & -> & Hlow & ->)|(-> & Ht)].
  - split; [by destruct Hok|]. right. left. split_and!; try done.
    destruct Hlow as [[_ H]|[? _]]; [done|lia].
  - pose proof Ht as (f & Hf & Hlow & Hup & ->). split; [by eapply bit_updated_ok|].
    right. right. split; [done|]. exists f.
    destruct Hlow as [[-> _]|(_ & Hfree & Hbelow)]; [lia|]. split_and!; try done; try lia.
    + intros j Hj. destruct Hup as (_ & _ & _ & _ & Hup). rewrite Hup by done. by destruct (j =? f).
    + unfold bind_page. f_equal. change 1048575 with (Z.ones 20). rewrite Z.land_ones by lia.
      pose proof (Z.mul_div_le (g_nframes s) 32). unfold frame_limit in Hf.
      apply Z.mod_small. lia.
Qed.

Lemma alloc_frame_correct_witness :
  ∃ r p' s', alloc_frame zero_pte 1 0 demo_frames = Ok ((r, p'), s') ∧ frames_ok s' ∧
    ((r = -1 ∧ 0 ≠ 0 ∧ p' = zero_pte ∧ s' = demo_frames) ∨
     (r = -2 ∧ p' = zero_pte ∧ fr_errno s' = FR_ENOMEM ∧ g_frames s' = [7; 0] ∧
      ∀ j, 0 ≤ j < frame_limit demo_frames → used [7; 0] j = true) ∨
     (r = 0 ∧ ∃ f, 0 ≤ f < frame_limit demo_frames ∧ used [7; 0] f = false ∧
      (∀ j, 0 ≤ j < f → used [7; 0] j = true) ∧
      (∀ j, 0 ≤ j → used (g_frames s') j = (j =? f) || used [7; 0] j) ∧
      p' = Page 1 0 0 0 0 0 f)).
Proof. apply (alloc_frame_correct demo_frames zero_pte 1 0 demo_frames_ok). simpl. lia. Defined.

(** The pages of [ps] given frames one after the other, stopping at the first
    that gets none. *)
Fixpoint alloc_frames (ps : list page) : M frst (list page) :=
  match ps with
  | [] => mret []
  | p :: ps' =>
    '(r, p') ← alloc_frame p 0 1;
    if r =? 0 then qs ← alloc_frames ps'; mret (p' :: qs) else mret []
  end.

Lemma alloc_frames_fresh ps s qs s' :
  frames_ok s → g_nframes s ≤ 1048576 → alloc_frames ps s = Ok (qs, s') →
  NoDup (pg_frame <$> qs) ∧
  Forall (λ q, used (g_frames s) (pg_frame q) = false ∧ 0 ≤ pg_frame q) qs.
Proof.
  revert s qs s'. induction ps as [|p ps IH]; intros s qs s' Hok Hn; simpl.
  { intros [= <- _]. split; constructor. }
  destruct (decide (pg_frame p = 0)) as [Hp|Hp].
  2: { unfold mbind, M_bind. rewrite alloc_frame_mapped by done. intros [= <- _]. split; constructor. }
  destruct (wp_run _ _ _ (alloc_frame_spec s p 0 1 Hok Hn Hp)) as ([r p'] & s1 & Hrun & Hr).
  rewrite (bind_ok _ _ s (r, p') s1 Hrun).
  destruct Hr as [(-> & _)|(-> & Ht)]; [intros [= <- _]; split; constructor|]. simpl.
  pose proof Ht as (f & Hf & _ & Hup & _). pose proof (bit_updated_ok _ _ _ _ Hok Hup) as Hok1.
  destruct (frame_taken_field s p 0 1 p' s1) as (Hf0 & Hfree & Hused); try done; [apply Hok|].
  destruct Hup as (Hn1 & _ & _ & _ & Hbits).
  unfold mbind at 1, M_bind at 1. destruct (alloc_frames ps s1) as [[qs1 s2]| |] eqn:Hps; [|done..].
  intros [= <- <-]. destruct (IH s1 qs1 s2 Hok1 ltac:(lia) Hps) as [Hnd Hall].
  assert (Hfr : Forall (λ q, used (g_frames s) (pg_frame q) = false ∧ 0 ≤ pg_frame q) qs1).
  { eapply Forall_impl; [exact Hall|]. intros q [Hq1 Hq2]. split; [|done].
    rewrite Hbits in Hq1 by done. by destruct (pg_frame q =? f). }
  split; simpl; [|by repeat constructor; try apply Hf0].
  apply NoDup_cons. split; [|done]. intros (q & Hq & Hin)%list_elem_of_fmap.
  rewrite Forall_forall in Hall. destruct (Hall q Hin) as [Hq1 _]. congruence.
Qed.

(** No frame is handed out twice: the frames given to a sequence of pages
    are pairwise distinct and were all free before. *)
Theorem alloc_frames_distinct ps s qs s' :
  frames_ok s → g_nframes s ≤ 1048576 → alloc_frames ps s = Ok (qs, s') →
  NoDup (pg_frame <$> qs) ∧ ∀ q, q ∈ qs → used (g_frames s) (pg_frame q) = false.
Proof.
  intros Hok Hn Hrun. destruct (alloc_frames_fresh _ _ _ _ Hok Hn Hrun) as [Hnd Hall].
  split; [done|]. intros q Hq. rewrite Forall_forall in Hall. by apply Hall.
Qed.

Lemma alloc_frames_distinct_witness :
  NoDup [3; 4] ∧ ∀ q, q ∈ [Page 1 1 1 0 0 0 3; Page 1 1 1 0 0 0 4] →
    used [7; 0] (pg_frame q) = false.
Proof.
  apply (alloc_frames_distinct [zero_pte; zero_pte] demo_frames
    [Page 1 1 1 0 0 0 3; Page 1 1 1 0 0 0 4] (FrSt [31; 0] 64 0) demo_frames_ok);
    [simpl; lia|vm_compute; reflexivity].
Defined.

(** [phys_freeram_amount] returns, changes nothing, and reports 4096 bytes
    per free frame, modulo 2^32. *)
Theorem phys_freeram_correct s :
  frames_ok s →
  phys_freeram_amount s =
    Ok (u32 (count_free (g_frames s) (seqZ 0 (frame_limit s)) * 4096), s).
Proof.
  intros Hok. by destruct (wp_run _ _ _ (freeram_loop s Hok)) as (r & s' & -> & -> & ->).
Qed.

Lemma phys_freeram_correct_witness : phys_freeram_amount demo_frames = Ok (61 * 4096, demo_frames).
Proof. exact (phys_freeram_correct demo_frames demo_frames_ok). Defined.

(** [realloc_frame] clears the wrong bit.  It passes the frame's number where
    [clear_frame] takes an address, so a page on frame [f] keeps frame [f] marked
    as used for ever, and instead frame [f / 4096] is freed and handed out again
    unless a lower one is free: the page always lands at or below it. *)
Theorem realloc_frame_leaks s p is_kernel writable :
  frames_ok s → g_nframes s ≤ 1048576 → 0 < pg_frame p < frame_limit s →
  used (g_frames s) (pg_frame p) = true →
  ∃ p' s', realloc_frame p is_kernel writable s = Ok ((0, p'), s') ∧
    pg_frame p' ≤ pg_frame p / 4096 ∧ pg_frame p' ≠ pg_frame p ∧
    used (g_frames s') (pg_frame p) = true.
Proof.
  intros Hok Hn Hp Hu. pose proof Hok as [Hws Hnf Hlen].
  assert (Hq : 0 ≤ pg_frame p / 4096 < pg_frame p).
  { split; [apply Z.div_pos; lia|]. apply Z.div_lt; lia. }
  unfold frame_limit in Hp.
  destruct (wp_run _ _ _ (clear_frame_spec s (pg_frame p) ltac:(lia)
    ltac:(unfold capacity; lia) Hws)) as ([] & s1 & Hc & Hup).
  pose proof (bit_updated_ok _ _ _ _ Hok Hup) as Hok1.
  destruct Hup as (Hn1 & _ & _ & _ & Hb1).
  destruct (wp_run _ _ _ (take_first_frame s1 p is_kernel writable Hok1 ltac:(lia)))
    as ([r p'] & s' & Hrun & Hr).
  unfold realloc_frame. destruct (Z.eqb_spec (pg_frame p) 0); [lia|]. simpl.
  rewrite (bind_ok _ _ s tt s1 Hc).
  assert (Hfree : used (g_frames s1) (pg_frame p / 4096) = false)
    by (rewrite Hb1, Z.eqb_refl by lia; done).
  destruct Hr as [(_ & _ & [[_ Hall]|[? _]] & _)|(-> & Ht)]; [|lia|].
  { unfold frame_limit in Hall. rewrite Hn1 in Hall. rewrite Hall in Hfree by lia. done. }
  exists p', s'. split; [exact Hrun|].
  destruct Ht as (f & Hf1 & [[-> _]|(_ & _ & Hlow)] & (_ & _ & _ & _ & Hb2) & ->); [lia|].
  simpl in *. set (g := Z.land f 1048575) in *.
  assert (Hgf : g = f).
  { subst g. change 1048575 with (Z.ones 20). rewrite Z.land_ones by lia.
    unfold frame_limit in Hf1. pose proof (Z.mul_div_le (g_nframes s1) 32). apply Z.mod_small. lia. }
  assert (Hle : f ≤ pg_frame p / 4096).
  { destruct (decide (pg_frame p / 4096 < f)); [|lia]. rewrite Hlow in Hfree by lia. done. }
  split_and!; [lia|lia|]. rewrite Hb2, Hb1 by lia.
  destruct (Z.eqb_spec (pg_frame p) f), (Z.eqb_spec (pg_frame p) (pg_frame p / 4096)); try done; lia.
Qed.

Lemma realloc_frame_leaks_witness :
  ∃ p' s', realloc_frame (Page 1 1 1 0 0 0 2) 0 1 demo_frames = Ok ((0, p'), s') ∧
    pg_frame p' ≤ 0 ∧ pg_frame p' ≠ 2 ∧ used (g_frames s') 2 = true.
Proof.
  apply (realloc_frame_leaks demo_frames (Page 1 1 1 0 0 0 2) 0 1 demo_frames_ok);
    [simpl; lia|vm_compute; split; reflexivity|vm_compute; reflexivity].
Defined.

(** [free_frame] never frees anything: on a page that has a frame it returns
    with page and bitmap unchanged, and on one that has none it clears frame 0. *)
Theorem free_frame_never_frees s p :
  frames_ok s → 32 ≤ g_nframes s →
  ∃ p' s', free_frame p s = Ok (p', s') ∧ pg_frame p' = pg_frame p ∧
    ∀ j, 0 < j → used (g_frames s') j = used (g_frames s) j.
Proof.
  intros [Hws Hnf Hlen] Hn. unfold free_frame. destruct (Z.eqb_spec 0 (pg_frame p)) as [<-|Hp]; simpl.
  - pose proof (Z.div_le_mono 32 (g_nframes s) 32 ltac:(lia) Hn) as Hd. rewrite Z.div_same in Hd by lia.
    destruct (wp_run _ _ _ (clear_frame_spec s 0 ltac:(lia)
      ltac:(unfold capacity; rewrite Z.div_0_l; lia) Hws)) as ([] & s' & Hc & (_ & _ & _ & _ & Hb)).
    rewrite (bind_ok _ _ s tt s' Hc). eexists _, s'. split_and!; [done|done|].
    intros j Hj. rewrite Hb by lia. rewrite Z.div_0_l by lia. by destruct (Z.eqb_spec j 0); [lia|].
  - by exists p, s.
Qed.

Lemma free_frame_never_frees_witness :
  ∃ p' s', free_frame (Page 1 1 1 0 0 0 2) demo_frames = Ok (p', s') ∧ pg_frame p' = 2 ∧
    ∀ j, 0 < j → used (g_frames s') j = used [7; 0] j.
Proof.
  apply (free_frame_never_frees demo_frames (Page 1 1 1 0 0 0 2) demo_frames_ok). simpl. lia.
Defined.
