(* ===== verification/Mm.v ===== *)
(** * The memory manager (kernel/mm/heap.c, paging.c, fault.c, yanix/stack.c)

    One state holds what these files share: the placement address of the boot
    allocator, the [struct heap]s and their block lists, the frame bitmap, the
    page directories and page tables, and the contents of the frames.  Structures
    are stored under the addresses the code gives them, with 0 for NULL.

    [kmalloc_base], [get_page] and [alloc_page_table] call each other: a page
    table is allocated on the kernel heap, whose pages may need a page table. *)
From S2P Require Import Prelude LinkedList Frames.

Record heap := Heap {
  hp_start : Z;
  hp_size : Z;
  hp_maxsize : Z;
  hp_usermode : Z;
  hp_linkedlist : Z;
  hp_nextheap : Z
}.

(** [tables] and [tablesPhysical] hold the non-zero entries. *)
Record page_directory := PageDirectory {
  tables : gmap Z Z;
  tablesPhysical : gmap Z Z;
  physicalAddress : Z
}.

Record mm := Mm {
  placement_address : Z;
  mm_heaps : gmap Z heap;
  mm_lists : gmap Z linkedlist;
  mm_nodes : gmap Z ll_node;
  heaplist : Z;
  kernel_heap : Z;
  user_heap : Z;
  mm_frames : frst;
  mm_dirs : gmap Z page_directory;
  mm_tabs : gmap Z (gmap Z page);
  mm_data : gmap Z (list Z);
  g_kernel_directory : Z;
  g_current_directory : Z;
  mm_cr3 : Z
}.

Definition KHEAP_START : Z := 3221225472.
Definition KHEAP_MAXSIZE : Z := 16777216.
Definition KHEAP_INITIAL_SIZE : Z := 4096.
Definition UHEAP_START : Z := 3489660928.
Definition UHEAP_MAXSIZE : Z := 16777216.
Definition UHEAP_INITIAL_SIZE : Z := 4096.
Definition PREHEAPSPACE : Z := 544768.
Definition PAGE_BUFFER_LOCATION : Z := 17825792.
Definition PAGES : Z := 1024.
Definition SIZEOF_PAGE_TABLE : Z := 4096.
Definition SIZEOF_PAGE_DIRECTORY : Z := 8196.
Definition SIZEOF_HEAP : Z := 24.
Definition SIZEOF_LINKEDLIST : Z := 24.

(** ** Updates of one field *)

Definition set_placement (v : Z) (s : mm) : mm :=
  Mm v (mm_heaps s) (mm_lists s) (mm_nodes s) (heaplist s) (kernel_heap s) (user_heap s)
    (mm_frames s) (mm_dirs s) (mm_tabs s) (mm_data s) (g_kernel_directory s)
    (g_current_directory s) (mm_cr3 s).
Definition set_heaps (v : gmap Z heap) (s : mm) : mm :=
  Mm (placement_address s) v (mm_lists s) (mm_nodes s) (heaplist s) (kernel_heap s)
    (user_heap s) (mm_frames s) (mm_dirs s) (mm_tabs s) (mm_data s) (g_kernel_directory s)
    (g_current_directory s) (mm_cr3 s).
Definition set_lists (v : gmap Z linkedlist) (n : gmap Z ll_node) (s : mm) : mm :=
  Mm (placement_address s) (mm_heaps s) v n (heaplist s) (kernel_heap s) (user_heap s)
    (mm_frames s) (mm_dirs s) (mm_tabs s) (mm_data s) (g_kernel_directory s)
    (g_current_directory s) (mm_cr3 s).
Definition set_roots (l k u : Z) (s : mm) : mm :=
  Mm (placement_address s) (mm_heaps s) (mm_lists s) (mm_nodes s) l k u
    (mm_frames s) (mm_dirs s) (mm_tabs s) (mm_data s) (g_kernel_directory s)
    (g_current_directory s) (mm_cr3 s).
Definition set_frames (v : frst) (s : mm) : mm :=
  Mm (placement_address s) (mm_heaps s) (mm_lists s) (mm_nodes s) (heaplist s)
    (kernel_heap s) (user_heap s) v (mm_dirs s) (mm_tabs s) (mm_data s)
    (g_kernel_directory s) (g_current_directory s) (mm_cr3 s).
Definition set_dirs (v : gmap Z page_directory) (s : mm) : mm :=
  Mm (placement_address s) (mm_heaps s) (mm_lists s) (mm_nodes s) (heaplist s)
    (kernel_heap s) (user_heap s) (mm_frames s) v (mm_tabs s) (mm_data s)
    (g_kernel_directory s) (g_current_directory s) (mm_cr3 s).
Definition set_tabs (v : gmap Z (gmap Z page)) (s : mm) : mm :=
  Mm (placement_address s) (mm_heaps s) (mm_lists s) (mm_nodes s) (heaplist s)
    (kernel_heap s) (user_heap s) (mm_frames s) (mm_dirs s) v (mm_data s)
    (g_kernel_directory s) (g_current_directory s) (mm_cr3 s).
Definition set_data (v : gmap Z (list Z)) (s : mm) : mm :=
  Mm (placement_address s) (mm_heaps s) (mm_lists s) (mm_nodes s) (heaplist s)
    (kernel_heap s) (user_heap s) (mm_frames s) (mm_dirs s) (mm_tabs s) v
    (g_kernel_directory s) (g_current_directory s) (mm_cr3 s).
Definition set_dir_roots (k c r : Z) (s : mm) : mm :=
  Mm (placement_address s) (mm_heaps s) (mm_lists s) (mm_nodes s) (heaplist s)
    (kernel_heap s) (user_heap s) (mm_frames s) (mm_dirs s) (mm_tabs s) (mm_data s) k c r.

(** ** Access to the parts *)

(** A computation on the frame bitmap. *)
Definition on_frames {A} (c : M frst A) : M mm A := λ s,
  match c (mm_frames s) with
  | Ok (a, f) => Ok (a, set_frames f s)
  | Fault => Fault
  | Hang => Hang
  end.

(** A computation on the block list stored at [lp]; errno is shared. *)
Definition on_llist {A} (lp : Z) (c : M llst A) : M mm A := λ s,
  match mm_lists s !! lp with
  | None => Fault
  | Some l =>
    match c (LLSt l (mm_nodes s) (fr_errno (mm_frames s))) with
    | Ok (a, t) =>
      Ok (a, set_frames (FrSt (g_frames (mm_frames s)) (g_nframes (mm_frames s)) (ll_errno t))
               (set_lists (<[lp := ll_list t]> (mm_lists s)) (ll_mem t) s))
    | Fault => Fault
    | Hang => Hang
    end
  end.

Definition load_heap (h : Z) : M mm heap := hs ← get mm_heaps; of_option (hs !! h).
Definition store_heap (h : Z) (v : heap) : M mm unit :=
  modify (λ s, set_heaps (<[h := v]> (mm_heaps s)) s).

Definition load_dir (d : Z) : M mm page_directory := ds ← get mm_dirs; of_option (ds !! d).
Definition store_dir (d : Z) (v : page_directory) : M mm unit :=
  modify (λ s, set_dirs (<[d := v]> (mm_dirs s)) s).

(** A [page_t *]: the address of its table and its index there. *)
Notation pageref := (Z * Z)%type.

Definition load_page (r : pageref) : M mm page :=
  ts ← get mm_tabs;
  t ← of_option (ts !! r.1);
  mret (default zero_pte (t !! r.2)).

Definition store_page (r : pageref) (p : page) : M mm unit :=
  ts ← get mm_tabs;
  t ← of_option (ts !! r.1);
  modify (λ s, set_tabs (<[r.1 := <[r.2 := p]> t]> (mm_tabs s)) s).

(** Run a frame operation on the page behind a pointer. *)
Definition on_page (r : pageref) (f : page → M frst (Z * page)) : M mm Z :=
  p ← load_page r;
  '(ret, p') ← on_frames (f p);
  _ ← store_page r p';
  mret ret.

Definition table_entry (d : page_directory) (i : Z) : Z := default 0 (tables d !! i).
Definition phys_entry (d : page_directory) (i : Z) : Z := default 0 (tablesPhysical d !! i).

(** ** heap.c: the boot allocator and the heaps *)

Definition simple_alloc (size align : Z) : M mm Z :=
  p ← get placement_address;
  let p1 := if align =? 0 then p else u32 (Z.land p 4294963200 + 4096) in
  let p2 := u32 (p1 + size) in
  _ ← modify (set_placement p2);
  mret (u32 (p2 - size)).

Definition create_linkedlist (memorystart maxsize user : Z) : M mm Z :=
  lp ← simple_alloc SIZEOF_LINKEDLIST 0;
  _ ← modify (λ s, set_lists (<[lp := Linkedlist memorystart maxsize 0 user 0 0]> (mm_lists s))
                     (mm_nodes s) s);
  mret lp.

Definition alloc (h size align : Z) : M mm Z :=
  hp ← load_heap h;
  freenode ← on_llist (hp_linkedlist hp) (get_free size (negb (align =? 0)));
  if freenode =? 0 then mret 0 else mret (u32 (freenode + SIZEOF_LL_NODE)).

Definition free (h memory : Z) : M mm Z :=
  hp ← load_heap h;
  on_llist (hp_linkedlist hp) (free_node (u32 (memory - SIZEOF_LL_NODE))).

Definition kmalloc_gen (h size : Z) : M mm Z := alloc h size 1.

Definition kfree_gen (h addr : Z) : M mm Z := free h addr.

(** ** Page tables on the kernel heap

    The [phys_addr_t *] argument is a flag here; the physical address comes back
    as [Some] when the code stores it. *)

Fixpoint kmalloc_base (depth : nat) (size align : Z) (physical : bool) {struct depth} :
    M mm (Z * option Z) :=
  match depth with
  | O => hang
  | S depth =>
    kh ← get kernel_heap;
    if kh =? 0 then
      addr ← simple_alloc size align;
      mret (addr, if physical then Some addr else None)
    else
      addr ← alloc kh size align;
      if addr =? 0 then mret (0, None)
      else if physical then
        kd ← get g_kernel_directory;
        pr ← get_page depth addr true kd;
        r ← of_option pr;
        p ← load_page r;
        _ ← (if pg_frame p =? 0 then on_page r (λ p, alloc_frame p 1 0) else mret 0);
        p' ← load_page r;
        mret (addr, Some (u32 (pg_frame p' * 4096 + Z.land addr 4095)))
      else mret (addr, None)
  end
with get_page (depth : nat) (virtual_address : Z) (make_page_table : bool) (dir : Z)
    {struct depth} : M mm (option pageref) :=
  match depth with
  | O => hang
  | S depth =>
    let vpage := virtual_address / 4096 in
    d ← load_dir dir;
    let present := negb (table_entry d (vpage / PAGES) =? 0) in
    if negb present && negb make_page_table then mret None
    else
      _ ← (if present then mret tt else alloc_page_table depth (vpage / PAGES) 7 dir);
      d' ← load_dir dir;
      mret (Some (table_entry d' (vpage / PAGES), vpage mod PAGES))
  end
with alloc_page_table (depth : nat) (table_index flags dir : Z) {struct depth} : M mm unit :=
  match depth with
  | O => hang
  | S depth =>
    '(t, phys) ← kmalloc_base depth SIZEOF_PAGE_TABLE 1 true;
    if t =? 0 then fault
    else
      d ← load_dir dir;
      _ ← store_dir dir (PageDirectory (<[table_index := t]> (tables d)) (tablesPhysical d)
                           (physicalAddress d));
      _ ← modify (λ s, set_tabs (<[t := ∅]> (mm_tabs s)) s);
      d' ← load_dir dir;
      store_dir dir (PageDirectory (tables d')
                       (<[table_index := Z.lor (default 0 phys) flags]> (tablesPhysical d'))
                       (physicalAddress d'))
  end.

(** Three calls per page table; the kernel heap's own tables exist from boot, so
    the recursion is one level deep. *)
Definition DEPTH : nat := 8.

Definition get_page_at (va : Z) (dir : Z) : M mm pageref :=
  pr ← get_page DEPTH va true dir; of_option pr.

(** [kmalloc_gen_base]: the page comes from the current directory. *)
Definition kmalloc_gen_base (h size align : Z) (physical : bool) : M mm (Z * option Z) :=
  addr ← alloc h size align;
  if addr =? 0 then mret (0, None)
  else if physical then
    cd ← get g_current_directory;
    r ← get_page_at addr cd;
    p ← load_page r;
    _ ← (if pg_frame p =? 0 then on_page r (λ p, alloc_frame p 0 1) else mret 0);
    p' ← load_page r;
    mret (addr, Some (u32 (pg_frame p' * 4096 + Z.land addr 4095)))
  else mret (addr, None).

Definition kmalloc_user_base (size align : Z) (physical : bool) : M mm (Z * option Z) :=
  uh ← get user_heap; kmalloc_gen_base uh size align physical.

Definition kmalloc (size : Z) : M mm Z :=
  '(a, _) ← kmalloc_base DEPTH size 0 false; mret a.

Definition kmalloc_user (size : Z) : M mm Z :=
  '(a, _) ← kmalloc_user_base size 0 false; mret a.

Definition kfree (addr : Z) : M mm Z := kh ← get kernel_heap; free kh addr.
Definition kfree_user (addr : Z) : M mm Z := uh ← get user_heap; free uh addr.

Definition get_placement_addr : M mm Z := get placement_address.

(** Enough iterations for a list of distinct heaps. *)
Definition heap_fuel (s : mm) : nat := S (S (size (mm_heaps s))).

Definition is_addr_in_heap (addr : Z) : M mm Z :=
  start ← get heaplist;
  fuel ← get heap_fuel;
  loop fuel (λ tmp,
    if tmp =? 0 then mret (inr 0)
    else
      h ← load_heap tmp;
      if (hp_start h <=? addr) && (addr <? u32 (hp_start h + hp_maxsize h))
      then mret (inr tmp)
      else mret (inl (hp_nextheap h))) start.

Definition with_nextheap (h : heap) (v : Z) : heap :=
  Heap (hp_start h) (hp_size h) (hp_maxsize h) (hp_usermode h) (hp_linkedlist h) v.

Definition add_heap (hp : Z) : M mm unit :=
  h ← load_heap hp;
  _ ← store_heap hp (with_nextheap h 0);
  start ← get heaplist;
  if start =? 0 then modify (λ s, set_roots hp (kernel_heap s) (user_heap s) s)
  else
    fuel ← get heap_fuel;
    last ← loop fuel (λ tmp,
      t ← load_heap tmp;
      if hp_nextheap t =? 0 then mret (inr tmp) else mret (inl (hp_nextheap t))) start;
    t ← load_heap last;
    store_heap last (with_nextheap t hp).

Definition allocate_heap : M mm Z := simple_alloc SIZEOF_HEAP 0.

Definition create_heap (h0 start maxsize usermode : Z) : M mm Z :=
  h ← (if h0 =? 0 then allocate_heap else mret h0);
  lp ← create_linkedlist start maxsize usermode;
  _ ← store_heap h (Heap start 0 maxsize usermode lp 0);
  _ ← add_heap h;
  mret h.

Definition init_kheap : M mm Z :=
  h ← create_heap 0 KHEAP_START KHEAP_MAXSIZE 0;
  _ ← modify (λ s, set_roots (heaplist s) h (user_heap s) s);
  mret 0.

Definition init_uheap : M mm Z :=
  h ← create_heap 0 UHEAP_START UHEAP_MAXSIZE 1;
  _ ← modify (λ s, set_roots (heaplist s) (kernel_heap s) h s);
  mret 0.

Definition debug_is_heapblock_free (addr : Z) : M mm Z :=
  kh ← get kernel_heap;
  hp ← load_heap kh;
  on_llist (hp_linkedlist hp) (dbg_is_heapblock_free (u32 (addr - SIZEOF_LL_NODE))).

Definition heap_setusermode (hp : Z) : M mm unit :=
  h ← load_heap hp;
  store_heap hp (Heap (hp_start h) (hp_size h) (hp_maxsize h) 1 (hp_linkedlist h)
                   (hp_nextheap h)).

(** ** paging.c: mapping *)

(** [for (x = start; x < limit; x += 0x1000)] over 32-bit [x]; [test] is the
    loop condition on the current value, [body] may return early with a value. *)
Definition page_loop (test : Z → bool) (body : Z → M mm (option Z)) (done : Z)
    (fuel : nat) (start : Z) : M mm Z :=
  loop fuel (λ x,
    if test x then
      r ← body x;
      match r with
      | Some v => mret (inr v)
      | None => mret (inl (u32 (x + 4096)))
      end
    else mret (inr done)) start.

(** One iteration per page of the 4 GiB address space, and one to leave. *)
Definition PAGE_FUEL : nat := Z.to_nat 1048578.

Definition alloc_virt (start size user : Z) : M mm unit :=
  _ ← page_loop (λ i, i <=? size) (λ i,
    kd ← get g_kernel_directory;
    r ← get_page_at (u32 (start + i)) kd;
    _ ← on_page r (λ p, alloc_frame p (not_flag user) user);
    mret None) 0 PAGE_FUEL 0;
  mret tt.

Definition virt_to_phys_from_dir (virtual_address dir : Z) : M mm Z :=
  let aligned := Z.land virtual_address 4294963200 in
  d ← load_dir dir;
  p ← load_page (table_entry d (aligned / 4096 / PAGES), aligned / 4096 mod PAGES);
  if pg_frame p =? 0 then mret 0
  else mret (u32 (pg_frame p * 4096 + Z.land virtual_address 4095)).

Definition switch_page_directory (dir : Z) : M mm unit :=
  d ← load_dir dir;
  modify (λ s, set_dir_roots (g_kernel_directory s) dir (physicalAddress d) s).

Definition read_frame (f : Z) : M mm (list Z) := d ← get mm_data; mret (default [] (d !! f)).
Definition write_frame (f : Z) (v : list Z) : M mm unit :=
  modify (λ s, set_data (<[f := v]> (mm_data s)) s).

(** The frame behind a virtual page of directory [dir], for an access. *)
Definition translate (va dir : Z) : M mm Z :=
  d ← load_dir dir;
  p ← load_page (table_entry d (va / 4096 / PAGES), va / 4096 mod PAGES);
  if pg_present p =? 0 then fault else mret (pg_frame p).

(** The [memcpy] of one whole page. *)
Definition copy_page_data (dst src : Z) : M mm unit :=
  cd ← get g_current_directory;
  sf ← translate src cd;
  df ← translate dst cd;
  bytes ← read_frame sf;
  write_frame df bytes.

Definition set_page_frame (r : pageref) (f : Z) : M mm unit :=
  p ← load_page r; store_page r (with_pg_frame p (Z.land f 1048575)).

Definition copy_page (addr newdir : Z) : M mm unit :=
  curdir ← get g_current_directory;
  cp ← get_page_at addr curdir;
  bp ← get_page_at PAGE_BUFFER_LOCATION curdir;
  np ← get_page_at addr newdir;
  buf ← load_page bp;
  src ← load_page cp;
  _ ← on_page np (λ p, alloc_frame p (not_flag (pg_user src)) (pg_rw src));
  new ← load_page np;
  _ ← set_page_frame bp (pg_frame new);
  _ ← copy_page_data PAGE_BUFFER_LOCATION addr;
  set_page_frame bp (pg_frame buf).

(** The copy of one page table that is not shared with the kernel. *)
Definition copy_table (newdir tableiter : Z) : M mm unit :=
  '(t, phys) ← kmalloc_base DEPTH SIZEOF_PAGE_TABLE 1 true;
  cur ← get g_current_directory;
  c ← load_dir cur;
  d ← load_dir newdir;
  _ ← store_dir newdir (PageDirectory (<[tableiter := t]> (tables d))
        (<[tableiter := Z.lor (default 0 phys) (Z.land (phys_entry c tableiter) 15)]>
           (tablesPhysical d)) (physicalAddress d));
  _ ← (if t =? 0 then fault else modify (λ s, set_tabs (<[t := ∅]> (mm_tabs s)) s));
  for_each (seqZ 0 PAGES) (λ pageiter,
    c' ← load_dir cur;
    p ← load_page (table_entry c' tableiter, pageiter);
    if pg_present p =? 0 then mret tt
    else copy_page ((tableiter * PAGES + pageiter) * 4096) newdir).

Definition duplicate_current_page_directory : M mm Z :=
  '(newdir, phys) ← kmalloc_base DEPTH SIZEOF_PAGE_DIRECTORY 1 true;
  _ ← (if newdir =? 0 then fault
       else store_dir newdir (PageDirectory ∅ ∅ (u32 (default 0 phys + 4096))));
  _ ← for_each (seqZ 0 PAGES) (λ tableiter,
    cur ← get g_current_directory;
    kd ← get g_kernel_directory;
    c ← load_dir cur;
    k ← load_dir kd;
    if phys_entry c tableiter =? 0 then mret tt
    else if table_entry c tableiter =? table_entry k tableiter then
      d ← load_dir newdir;
      store_dir newdir (PageDirectory
        (<[tableiter := table_entry c tableiter]> (tables d))
        (<[tableiter := phys_entry c tableiter]> (tablesPhysical d)) (physicalAddress d))
    else copy_table newdir tableiter);
  mret newdir.

(** The loop that frees the frames of table number [table], stored at [t]. *)
Definition clear_table_frames (t table : Z) : M mm unit :=
  for_each (seqZ 0 PAGES) (λ pg,
    p ← load_page (t, pg);
    if pg_frame p =? 0 then mret tt
    else on_frames (clear_frame (u32 ((table * PAGES + pg) * 4096)))).

Definition clear_page_directory (dir : Z) : M mm unit :=
  for_each (seqZ 0 PAGES) (λ table,
    kd ← get g_kernel_directory;
    d ← load_dir dir;
    k ← load_dir kd;
    if table_entry d table =? table_entry k table then mret tt
    else
      _ ← clear_table_frames (table_entry d table) table;
      _ ← kfree (table_entry d table);
      mret tt).

Definition map_memory_block (startaddr endaddr is_kernel writeable dir : Z) : M mm Z :=
  page_loop (λ a, a <? endaddr) (λ a,
    r ← get_page_at a dir;
    _ ← on_page r (λ p, flagforce_alloc_frame p is_kernel writeable);
    mret None) 0 PAGE_FUEL startaddr.

Definition remap_memory_block (startaddr endaddr is_kernel writeable dir : Z) : M mm Z :=
  page_loop (λ a, a <=? endaddr) (λ a,
    r ← get_page_at a dir;
    _ ← on_page r (λ p, realloc_frame p is_kernel writeable);
    mret None) 0 PAGE_FUEL startaddr.

Definition map_mem (startaddr endaddr is_kernel writable : Z) : M mm Z :=
  cd ← get g_current_directory; map_memory_block startaddr endaddr is_kernel writable cd.

Definition remap_mem (startaddr endaddr is_kernel writable : Z) : M mm Z :=
  cd ← get g_current_directory; remap_memory_block startaddr endaddr is_kernel writable cd.

Definition identity_map_memory_block (startaddr endaddr is_kernel writable dir : Z) : M mm Z :=
  page_loop (λ a, a <=? endaddr) (λ a,
    r ← get_page_at a dir;
    ret ← on_page r (λ p, map_frame p a 1 is_kernel writable);
    mret (if ret =? 0 then None else Some ret)) 0 PAGE_FUEL startaddr.

Definition map_physical_to_virtual (physical_address virtual_address size is_kernel
    writable dir : Z) : M mm Z :=
  page_loop (λ i, i <? size) (λ i,
    r ← get_page_at (u32 (virtual_address + i)) dir;
    ret ← on_page r (λ p, map_frame p (u32 (physical_address + i)) 1 is_kernel writable);
    mret (if ret =? 0 then None else Some (-1))) 0 PAGE_FUEL 0.

Definition initialize_mem (start size um dir0 : Z) : M mm Z :=
  cd ← get g_current_directory;
  let dir := if dir0 =? 0 then cd else dir0 in
  page_loop (λ a, a <? u32 (a + size)) (λ a,
    r ← get_page_at a dir;
    ret ← on_page r (λ p, alloc_frame p (not_flag um) um);
    mret (if ret =? 0 then None else Some (-1))) 0 PAGE_FUEL start.

(** ** paging.c: boot *)

(** [init_paging] up to the switch of directories; [fb] and [fbsize] are the
    video driver's frame buffer and its size in bytes. *)
Definition END_OF_MEMORY : Z := 536870912.

Definition init_bitmap : M mm unit :=
  let nframes := END_OF_MEMORY / 4096 in
  '(_, _) ← kmalloc_base DEPTH (nframes / 32) 1 false;
  (* the allocation is nframes / 32 bytes: a quarter of the words the loops visit *)
  modify (λ s, set_frames (FrSt (replicate (Z.to_nat (nframes / 32 / 4)) 0) nframes
                             (fr_errno (mm_frames s))) s).

Definition init_kernel_directory : M mm unit :=
  '(kd, _) ← kmalloc_base DEPTH SIZEOF_PAGE_DIRECTORY 1 false;
  _ ← store_dir kd (PageDirectory ∅ ∅ (u32 (kd + 4096)));
  modify (λ s, set_dir_roots kd kd (mm_cr3 s) s).

Definition init_paging (fb fbsize : Z) : M mm Z :=
  _ ← init_bitmap;
  _ ← init_kernel_directory;
  kd ← get g_kernel_directory;
  _ ← page_loop (λ i, i <? KHEAP_START + KHEAP_MAXSIZE) (λ i,
        _ ← get_page_at i kd; mret None) 0 PAGE_FUEL KHEAP_START;
  pa ← get_placement_addr;
  _ ← identity_map_memory_block 0 (u32 (pa + PREHEAPSPACE)) 1 0 kd;
  _ ← map_memory_block KHEAP_START (KHEAP_START + KHEAP_INITIAL_SIZE) 1 0 kd;
  _ ← map_memory_block UHEAP_START (UHEAP_START + UHEAP_INITIAL_SIZE) 0 1 kd;
  r ← get_page_at PAGE_BUFFER_LOCATION kd;
  _ ← on_page r (λ p, alloc_frame p 1 0);
  _ ← identity_map_memory_block fb (u32 (fb + fbsize)) 0 1 kd;
  nd ← duplicate_current_page_directory;
  _ ← switch_page_directory nd;
  mret 0.

(** ** fault.c *)

Definition zero_page (addr pdir user : Z) : M mm unit :=
  r ← get_page_at addr pdir;
  _ ← on_page r (λ p, alloc_frame p (not_flag user) user);
  mret tt.

Definition EPERM : Z := 1.
Definition EACCES : Z := 13.

(** How the fault handler ends: it returns to the faulting instruction, or it
    reports and never returns (a kernel task hangs the machine, a user task is
    sent SIGKILL first). *)
Inductive fault_end := Resumed | KernelHalted | SegvKilled.

Definition error_message (ring rw us reserved : Z) : M mm fault_end :=
  if negb (ring =? 3) then
    _ ← on_frames (if rw =? 0 then mret tt else fr_set_errno (- EPERM));
    _ ← on_frames (if us =? 0 then mret tt else fr_set_errno (- EACCES));
    _ ← on_frames (if reserved =? 0 then mret tt else fr_set_errno (- EACCES));
    mret KernelHalted
  else mret SegvKilled.

(** [faulting_address] is cr2, [err_code] the CPU's error code; the last three
    arguments are fields of the current task. *)
Definition page_fault (faulting_address err_code program_start program_break ring : Z) :
    M mm fault_end :=
  let not_present := Z.land err_code 1 =? 0 in
  let rw := Z.land err_code 2 in
  let us := Z.land err_code 4 in
  let reserved := Z.land err_code 8 in
  h ← is_addr_in_heap faulting_address;
  if not_present then
    cd ← get g_current_directory;
    if negb (h =? 0) then
      hp ← load_heap h;
      _ ← zero_page faulting_address cd (hp_usermode hp);
      mret Resumed
    else if (program_start <=? faulting_address) && (faulting_address <=? program_break) then
      _ ← zero_page faulting_address cd ring;
      mret Resumed
    else error_message ring rw us reserved
  else error_message ring rw us reserved.

(** ** yanix/stack.c *)

Definition KERNEL_STACK_SIZE : Z := 20480.
Definition USER_STACK_SIZE : Z := 16384.

(** [kstackheap] is [g_kernel_stackheap], [taskheap] the current task's
    [stack_heap]; [sheap] overrides both when it is not NULL. *)
Definition stack_alloc (kstackheap taskheap kernel sheap : Z) : M mm Z :=
  let sz := if kernel =? 0 then USER_STACK_SIZE else KERNEL_STACK_SIZE in
  let h0 := if kernel =? 0 then taskheap else kstackheap in
  let h := if sheap =? 0 then h0 else sheap in
  '(base, _) ← kmalloc_gen_base h sz 1 false;
  let addr := u32 (base + sz) in
  _ ← initialize_mem addr sz (not_flag kernel) 0;
  mret (u32 (addr + sz)).

Definition stack_free (kstackheap taskheap kernel top : Z) : M mm Z :=
  if kernel =? 0 then kfree_gen taskheap (u32 (top - USER_STACK_SIZE))
  else kfree_gen kstackheap (u32 (top - KERNEL_STACK_SIZE)).

(** ** Rules for the accesses *)

Lemma wp_load_dir dir d (Q : page_directory → mm → Prop) s :
  mm_dirs s !! dir = Some d → Q d s → wp (load_dir dir) Q s.
Proof. intros Hd HQ. unfold load_dir. do 2 wp_step. by eapply wp_option. Qed.

Lemma wp_load_heap hp h (Q : heap → mm → Prop) s :
  mm_heaps s !! hp = Some h → Q h s → wp (load_heap hp) Q s.
Proof. intros Hd HQ. unfold load_heap. do 2 wp_step. by eapply wp_option. Qed.

Lemma wp_load_page r t (Q : page → mm → Prop) s :
  mm_tabs s !! r.1 = Some t → Q (default zero_pte (t !! r.2)) s → wp (load_page r) Q s.
Proof.
  intros Ht HQ. unfold load_page. do 3 wp_step. eapply wp_option; [exact Ht|]. by wp_step.
Qed.

Lemma wp_store_page r t p (Q : unit → mm → Prop) s :
  mm_tabs s !! r.1 = Some t →
  Q tt (set_tabs (<[r.1 := <[r.2 := p]> t]> (mm_tabs s)) s) → wp (store_page r p) Q s.
Proof.
  intros Ht HQ. unfold store_page. do 3 wp_step. eapply wp_option; [exact Ht|]. by wp_step.
Qed.

Lemma wp_on_frames {A} (c : M frst A) (Q : A → mm → Prop) s :
  wp c (λ a f, Q a (set_frames f s)) (mm_frames s) → wp (on_frames c) Q s.
Proof. unfold wp, on_frames. by destruct (c (mm_frames s)) as [[a f]| |]. Qed.
