(* ===== verification/HeapApi.v ===== *)
(** * The allocator interface (kernel/mm/heap.c) and its client stack.c

    The functions of heap.c on a heap whose block list is well formed: the
    refinement of LinkedList.v carried to the shared state of the memory
    manager. *)
From S2P Require Import Prelude LinkedList Frames Mm.

(** Heap [hp] of state [s] is the abstract heap [a]. *)
Definition heap_is (s : mm) (hp : Z) (a : aheap) : Prop :=
  ∃ h l, mm_heaps s !! hp = Some h ∧ mm_lists s !! hp_linkedlist h = Some l ∧
    rep (LLSt l (mm_nodes s) (fr_errno (mm_frames s))) a ∧ wf a.

(** [s'] is [s] but for the block list of [hp], the headers and errno. *)
Definition same_but_heap (s s' : mm) : Prop :=
  mm_heaps s' = mm_heaps s ∧ mm_dirs s' = mm_dirs s ∧ mm_tabs s' = mm_tabs s ∧
  g_frames (mm_frames s') = g_frames (mm_frames s) ∧ mm_data s' = mm_data s ∧
  kernel_heap s' = kernel_heap s ∧ user_heap s' = user_heap s.

(** A block operation that returns [r] and turns [a] into [a'] does so on the
    heap. *)
Lemma on_heap {A} (c : M llst A) s hp h a :
  mm_heaps s !! hp = Some h → heap_is s hp a →
  ∃ l, mm_lists s !! hp_linkedlist h = Some l ∧
    let t := LLSt l (mm_nodes s) (fr_errno (mm_frames s)) in
    rep t a ∧
    (c t = Fault → on_llist (hp_linkedlist h) c s = Fault) ∧
    ∀ r t' a', c t = Ok (r, t') → rep t' a' → wf a' →
      ∃ s', on_llist (hp_linkedlist h) c s = Ok (r, s') ∧ heap_is s' hp a' ∧
            same_but_heap s s' ∧ fr_errno (mm_frames s') = ll_errno t'.
Proof.
  intros Hh (h' & l & Hh' & Hl & Hr & Hwf). rewrite Hh in Hh'. injection Hh' as <-.
  exists l. split; [done|]. split; [done|]. split.
  - intros Hc. unfold on_llist. by rewrite Hl, Hc.
  - intros r t' a' Hc Hr' Hwf'. unfold on_llist. rewrite Hl, Hc. eexists. split; [done|].
    split; [|done]. exists h, (ll_list t'). split_and!; simpl; try done.
    + by rewrite lookup_insert_eq.
    + by destruct t'.
Qed.

Lemma wf_node_range a b : wf a → b ∈ blocks a → 0 < b.1 ∧ b.1 + SIZEOF_LL_NODE < 4294967296.
Proof.
  intros Hwf Hb. pose proof (wf_bounds _ _ Hwf Hb) as (? & ? & ?).
  destruct Hwf. unfold SIZEOF_LL_NODE, NODESIZE_MAX in *. lia.
Qed.

Lemma alloc_run s hp a size align r a' :
  heap_is s hp a → 0 ≤ size < 2147483648 → aget size (negb (align =? 0)) a = Some (r, a') →
  ∃ s', alloc hp size align s = Ok (r + SIZEOF_LL_NODE, s') ∧ heap_is s' hp a' ∧
        same_but_heap s s'.
Proof.
  intros Hs Hsz Ha. pose proof Hs as (h & _ & Hh & _ & _ & Hwf).
  destruct (on_heap (get_free size (negb (align =? 0))) s hp h a Hh Hs) as (l & Hl & Hr & _ & Hok).
  edestruct (wp_run _ _ _ (get_free_some _ _ _ _ _ _ Hr Hwf Hsz Ha)) as (x & t' & Hrun & -> & Hr' & _).
  pose proof (aget_wf _ _ _ _ _ Hwf Ha) as Hwf'.
  destruct (Hok _ _ _ Hrun Hr' Hwf') as (s' & Hs' & Hh' & Hsame & _).
  destruct (aget_allocated _ _ _ _ _ Ha) as (b & Hu & <- & _).
  destruct (wf_node_range a' b Hwf') as [Hb1 Hb2]; [unfold blocks; rewrite Hu; set_solver|].
  exists s'. split; [|done]. unfold alloc.
  rewrite (bind_ok _ _ s h s) by (unfold load_heap, get, of_option, mbind, M_bind; by rewrite Hh).
  rewrite (bind_ok _ _ s b.1 s' Hs'). destruct (Z.eqb_spec b.1 0); [lia|].
  unfold SIZEOF_LL_NODE in *. by rewrite u32_small by lia.
Qed.

Lemma free_run s hp a node :
  heap_is s hp a → 0 ≤ node → node + SIZEOF_LL_NODE < 4294967296 →
  match afree node a with
  | Some a' => ∃ s', free hp (node + SIZEOF_LL_NODE) s = Ok (0, s') ∧ heap_is s' hp a' ∧
                     same_but_heap s s'
  | None => ∃ s', free hp (node + SIZEOF_LL_NODE) s = Ok (-1, s') ∧ heap_is s' hp a ∧
                  same_but_heap s s' ∧ fr_errno (mm_frames s') = EFAULT
  end.
Proof.
  intros Hs Hn Hn'. pose proof Hs as (h & _ & Hh & _ & _ & Hwf).
  destruct (on_heap (free_node node) s hp h a Hh Hs) as (l & Hl & Hr & _ & Hok).
  assert (Hfree : ∀ r s', on_llist (hp_linkedlist h) (free_node node) s = Ok (r, s') →
    free hp (node + SIZEOF_LL_NODE) s = Ok (r, s')).
  { intros r s' Hrun. unfold free.
    rewrite (bind_ok _ _ s h s) by (unfold load_heap, get, of_option, mbind, M_bind; by rewrite Hh).
    unfold SIZEOF_LL_NODE in *. replace (node + 12 - 12) with node by lia.
    by rewrite u32_small by lia. }
  pose proof (free_node_run _ a node Hr) as Hf. destruct (afree node a) as [a'|] eqn:Ha.
  - destruct Hf as (t' & Hrun & Hr' & _).
    destruct (Hok _ _ _ Hrun Hr' (afree_wf _ _ _ Hwf Ha)) as (s' & Hs' & ? & ? & _).
    exists s'. auto.
  - destruct (Hok _ _ a Hf) as (s' & Hs' & ? & ? & ?); [by apply (rep_errno _ _ EFAULT)|done|].
    exists s'. auto.
Qed.

Lemma afree_used a node b :
  b ∈ a_used a → b.1 = node → ∃ a', afree node a = Some a'.
Proof.
  intros Hb <-. unfold afree. pose proof (find_addr (a_used a) b.1) as Hf.
  destruct (find_fit _ _) as [[[??]?]|]; [by eexists|]. destruct Hf.
  by apply (list_elem_of_fmap_2 fst).
Qed.

(** Freeing an address strictly inside a block is refused. *)
Lemma afree_inside a b node :
  wf a → b ∈ blocks a → b.1 < node → node < b.1 + SIZEOF_LL_NODE + b.2 → afree node a = None.
Proof.
  intros Hwf Hb H1 H2. unfold afree. pose proof (find_addr (a_used a) node) as Hf.
  destruct (find_fit _ _) as [[[pre c] post]|]; [|done]. destruct Hf as [Hu Hc].
  destruct (wf_fresh_inside a b node Hwf Hb H1 H2). unfold blocks.
  rewrite Hu, !addrs_app, addrs_cons, Hc. set_solver.
Qed.

Lemma afree_freed node a a' : NoDup (addrs (a_used a)) →
  afree node a = Some a' → afree node a' = None.
Proof.
  intros Hnd. unfold afree at 1. pose proof (find_addr (a_used a) node) as Hf.
  destruct (find_fit _ _) as [[[pre b] post]|]; [|done]. destruct Hf as [Hu Hb].
  intros [= <-]. unfold afree. simpl. pose proof (find_addr (pre ++ post) node) as Hf'.
  destruct (find_fit _ (pre ++ post)) as [[[pre' c] post']|]; [|done].
  destruct Hf' as [Hu' Hc]. rewrite Hu in Hnd. apply NoDup_mid in Hnd as (H1 & H2 & _).
  assert (Hbin : b.1 ∈ addrs pre ++ addrs post).
  { rewrite <- addrs_app, Hu', addrs_app, addrs_cons, Hb, Hc. set_solver. }
  by apply elem_of_app in Hbin as [?|?].
Qed.

(** ** Theorems *)

(** Allocate and free.  When the heap has room, [alloc] returns the data
    address of a block and [free] of it succeeds; a second [free] of the same
    address is refused with -1 and EFAULT and leaves the heap as it was. *)
Theorem alloc_free_roundtrip s hp a size align :
  heap_is s hp a → 0 ≤ size < 2147483648 → aget size (negb (align =? 0)) a ≠ None →
  ∃ p s1 s2 s3 a2, alloc hp size align s = Ok (p, s1) ∧ p ≠ 0 ∧
    free hp p s1 = Ok (0, s2) ∧ heap_is s2 hp a2 ∧
    free hp p s2 = Ok (-1, s3) ∧ heap_is s3 hp a2 ∧ fr_errno (mm_frames s3) = EFAULT.
Proof.
  intros Hs Hsz Ha. destruct (aget size (negb (align =? 0)) a) as [[r a1]|] eqn:Hg; [|done].
  destruct (alloc_run s hp a size align r a1 Hs Hsz Hg) as (s1 & H1 & Hs1 & _).
  pose proof Hs1 as (? & ? & _ & _ & Hr1 & Hwf1).
  destruct (aget_allocated _ _ _ _ _ Hg) as (b & Hu & Hb & _).
  assert (Hin : b ∈ a_used a1) by (rewrite Hu; set_solver).
  destruct (wf_node_range a1 b Hwf1) as [Hb1 Hb2]; [unfold blocks; set_solver|].
  rewrite Hb in Hb1, Hb2. destruct (afree_used a1 r b Hin Hb) as [a2 Ha2].
  pose proof (free_run s1 hp a1 r Hs1 ltac:(lia) Hb2) as Hf. rewrite Ha2 in Hf.
  destruct Hf as (s2 & H2 & Hs2 & _).
  pose proof (free_run s2 hp a2 r Hs2 ltac:(lia) Hb2) as Hf.
  rewrite (afree_freed r a1 a2) in Hf; [|apply (blocks_nodup _ (rep_nodup _ _ Hr1))|done].
  destruct Hf as (s3 & H3 & Hs3 & _ & He). exists (r + SIZEOF_LL_NODE), s1, s2, s3, a2.
  split_and!; try done. unfold SIZEOF_LL_NODE. lia.
Qed.

(** The kernel heap right after [init_kheap], whose list is at 24. *)
Definition kheap_mm : mm :=
  Mm 1048576 {[ 100 := Heap KHEAP_START 0 KHEAP_MAXSIZE 0 24 0 ]}
    {[ 24 := fresh_list KHEAP_START KHEAP_MAXSIZE 0 ]} ∅ 100 100 0 (FrSt [] 0 0) ∅ ∅ ∅ 0 0 0.

Definition kheap_aheap : aheap := AHeap KHEAP_START KHEAP_MAXSIZE 0 [] [].

Lemma kheap_mm_is : heap_is kheap_mm 100 kheap_aheap.
Proof.
  exists (Heap KHEAP_START 0 KHEAP_MAXSIZE 0 24 0), (fresh_list KHEAP_START KHEAP_MAXSIZE 0).
  split; [reflexivity|]. split; [reflexivity|].
  apply (rep_fresh KHEAP_START KHEAP_MAXSIZE 0 ∅ 0). unfold heap_bounds, KHEAP_START, KHEAP_MAXSIZE. lia.
Defined.

Lemma alloc_free_roundtrip_witness :
  ∃ p s1 s2 s3 a2, alloc 100 5000 1 kheap_mm = Ok (p, s1) ∧ p ≠ 0 ∧
    free 100 p s1 = Ok (0, s2) ∧ heap_is s2 100 a2 ∧
    free 100 p s2 = Ok (-1, s3) ∧ heap_is s3 100 a2 ∧ fr_errno (mm_frames s3) = EFAULT.
Proof.
  apply (alloc_free_roundtrip kheap_mm 100 kheap_aheap 5000 1 kheap_mm_is); [lia|].
  vm_compute. discriminate.
Defined.

(** The stack's top is two stack sizes above the block. *)
Lemma stack_alloc_top s hp th top s' :
  stack_alloc hp th 1 0 s = Ok (top, s') →
  ∃ base ph s1, kmalloc_gen_base hp KERNEL_STACK_SIZE 1 false s = Ok ((base, ph), s1) ∧
    top = u32 (u32 (base + KERNEL_STACK_SIZE) + KERNEL_STACK_SIZE).
Proof.
  unfold stack_alloc. simpl. unfold mbind at 1, M_bind at 1.
  destruct (kmalloc_gen_base hp KERNEL_STACK_SIZE 1 false s) as [[[base ph] s1]| |]; [|done..].
  unfold mbind, M_bind. destruct (initialize_mem _ _ _ _ s1) as [[x s2]| |]; [|done..].
  intros [= <- <-]. by exists base, ph, s1.
Qed.

(** Kernel stacks are never given back.  [stack_alloc] returns the address
    two stack sizes above the block it allocated, while [stack_free] subtracts
    one: the address it frees lies inside the block, so the heap refuses it with
    -1 and EFAULT and the block stays in use. *)
Theorem stack_free_refused s0 s hp th a base ph sz s1 top :
  stack_alloc hp th 1 0 s0 = Ok (top, s) →
  kmalloc_gen_base hp KERNEL_STACK_SIZE 1 false s0 = Ok ((base, ph), s1) →
  heap_is s hp a → (base - SIZEOF_LL_NODE, sz) ∈ a_used a → KERNEL_STACK_SIZE ≤ sz →
  base + 2 * KERNEL_STACK_SIZE < 4294967296 →
  ∃ s', stack_free hp th 1 top s = Ok (-1, s') ∧ heap_is s' hp a ∧
        fr_errno (mm_frames s') = EFAULT.
Proof.
  intros Hal Hk Hs Hb Hsz Htop. apply stack_alloc_top in Hal as (base' & ph' & s1' & Hk' & ->).
  rewrite Hk in Hk'. injection Hk' as <- <- <-. pose proof Hs as (_ & _ & _ & _ & _ & Hwf).
  assert (Hin : (base - SIZEOF_LL_NODE, sz) ∈ blocks a) by (unfold blocks; set_solver).
  destruct (wf_node_range a _ Hwf Hin) as [Hb1 Hb2]. simpl in *.
  unfold KERNEL_STACK_SIZE, SIZEOF_LL_NODE in *.
  pose proof (free_run s hp a (base + 20480 - 12) Hs ltac:(lia) ltac:(unfold SIZEOF_LL_NODE; lia)) as Hf.
  rewrite (afree_inside a (base - 12, sz)) in Hf; [|done|done|simpl; lia|simpl; unfold SIZEOF_LL_NODE; lia].
  destruct Hf as (s' & Hrun & Hs' & _ & He). exists s'. split; [|done].
  unfold stack_free, kfree_gen, KERNEL_STACK_SIZE. simpl.
  rewrite !(u32_small (base + 20480)), (u32_small (base + 20480 + 20480)), u32_small by lia.
  replace (base + 20480 + 20480 - 20480) with (base + 20480 - 12 + SIZEOF_LL_NODE)
    by (unfold SIZEOF_LL_NODE; lia). done.
Qed.

(** A stack heap at 0x1000000 before the kernel heap exists, with 32 frames. *)
Definition stack_mm : mm :=
  Mm 1048576 {[ 100 := Heap 16777216 0 4194304 0 24 0 ]}
    {[ 24 := fresh_list 16777216 4194304 0 ]} ∅ 100 0 0 (FrSt [0] 32 0)
    {[ 512 := PageDirectory ∅ ∅ 4608 ]} ∅ ∅ 512 512 0.

Definition stack_mm' : mm :=
  match stack_alloc 100 0 1 0 stack_mm with Ok (_, s) => s | _ => stack_mm end.

Definition stack_aheap : aheap :=
  AHeap 16777216 4194304 24576 [(16777216, 4072)] [(16781300, 20480)].

Lemma stack_mm_is : heap_is stack_mm' 100 stack_aheap.
Proof.
  exists (Heap 16777216 0 4194304 0 24 0), (Linkedlist 16777216 4194304 24576 0 16781300 16777216).
  split; [vm_compute; reflexivity|]. split; [vm_compute; reflexivity|]. split.
  - split; try (vm_compute; reflexivity).
    + simpl. split; [lia|]. split; [vm_compute; reflexivity|exact I].
    + simpl. split; [lia|]. split; [vm_compute; reflexivity|exact I].
    + apply (bool_decide_unpack _). vm_compute. exact I.
  - split; simpl; try lia; [split; [constructor|exact I]|].
    exists [(16777216, 4072); (16781300, 20480)]. split; [reflexivity|].
    unfold tiles, NODESIZE_MAX, SIZEOF_LL_NODE. simpl. lia.
Defined.

Lemma stack_free_refused_witness :
  ∃ s', stack_free 100 0 1 16822272 stack_mm' = Ok (-1, s') ∧
        heap_is s' 100 stack_aheap ∧ fr_errno (mm_frames s') = EFAULT.
Proof.
  apply (stack_free_refused stack_mm stack_mm' 100 0 stack_aheap 16781312 None 20480
    (match kmalloc_gen_base 100 KERNEL_STACK_SIZE 1 false stack_mm with
     | Ok (_, s) => s | _ => stack_mm end) 16822272).
  - vm_compute. reflexivity.
  - vm_compute. reflexivity.
  - exact stack_mm_is.
  - simpl. left.
  - unfold KERNEL_STACK_SIZE. lia.
  - unfold KERNEL_STACK_SIZE. lia.
Defined.
