(* ===== verification/Paging.v ===== *)
(** * Address spaces: what the mapping functions of kernel/mm/paging.c establish

    [pte] reads the page entry of a virtual page in a directory.  The mapping
    functions are proved against an interface, [TableAllocator], that says what
    they need from [alloc_page_table]; the boot allocator implements it. *)
From S2P Require Import Prelude LinkedList Frames Mm.

Global Opaque PAGE_FUEL.

Lemma page_fuel_enough n : 0 ≤ n ≤ 1048577 → (Z.to_nat n < PAGE_FUEL)%nat.
Proof. Local Transparent PAGE_FUEL. unfold PAGE_FUEL. lia. Qed.

(** ** Page entries *)

Definition pte (s : mm) (dir v : Z) : option page :=
  match mm_dirs s !! dir with
  | None => None
  | Some d =>
    match mm_tabs s !! table_entry d (v / PAGES) with
    | None => None
    | Some t => Some (default zero_pte (t !! (v mod PAGES)))
    end
  end.

(** A page with no table reads as an unmapped one. *)
Definition pte0 (s : mm) (dir v : Z) : page := default zero_pte (pte s dir v).

(** The tables of a directory exist and are distinct. *)
Record dir_ok (s : mm) (dir : Z) : Prop := DirOk {
  dir_null : mm_tabs s !! 0 = None;
  dir_tabs : ∀ d i t, mm_dirs s !! dir = Some d → tables d !! i = Some t →
    is_Some (mm_tabs s !! t);
  dir_inj : ∀ d i j t, mm_dirs s !! dir = Some d → tables d !! i = Some t →
    tables d !! j = Some t → i = j
}.

(** The pages of the kernel heap, which the allocator itself may map. *)
Definition kheap_page (v : Z) : Prop := KHEAP_START / 4096 ≤ v < (KHEAP_START + KHEAP_MAXSIZE) / 4096.

(** Nothing but pages of the kernel heap changed, and frames were only taken. *)
Record extends (s : mm) (dir : Z) (s' : mm) : Prop := Extends {
  ext_pages : ∀ w, 0 ≤ w → ¬ kheap_page w → pte0 s' dir w = pte0 s dir w;
  ext_mapped : ∀ w, is_Some (pte s dir w) → is_Some (pte s' dir w);
  ext_words : length (g_frames (mm_frames s')) = length (g_frames (mm_frames s));
  ext_nframes : g_nframes (mm_frames s') = g_nframes (mm_frames s);
  ext_used : ∀ j, 0 ≤ j → used (g_frames (mm_frames s)) j = true →
    used (g_frames (mm_frames s')) j = true;
  ext_ok : Forall is_word (g_frames (mm_frames s)) → Forall is_word (g_frames (mm_frames s'))
}.

(** What the mapping functions need from [alloc_page_table]: under the
    invariant, a missing table can be made, pages of [dir] can be rewritten, and
    the invariant is kept. *)
Class TableAllocator (I : Z → mm → Prop) := {
  ta_dir : ∀ dir s, I dir s → dir_ok s dir ∧ is_Some (mm_dirs s !! dir);
  ta_table : ∀ dir s d i, I dir s → mm_dirs s !! dir = Some d → 0 ≤ i < 1024 →
    table_entry d i = 0 →
    wp (alloc_page_table 7 i 7 dir)
       (λ _ s', I dir s' ∧ extends s dir s' ∧
                ∀ v, v / PAGES = i → is_Some (pte s' dir v)) s;
  ta_page : ∀ dir s t ps v p f, I dir s → mm_tabs s !! t = Some ps →
    length (g_frames f) = length (g_frames (mm_frames s)) →
    I dir (set_tabs (<[t := <[v := p]> ps]> (mm_tabs s)) (set_frames f s))
}.

Section mapping.
Context (I : Z → mm → Prop) `{!TableAllocator I}.

Lemma extends_refl s dir : extends s dir s.
Proof. by split. Qed.

Lemma extends_trans s1 s2 s3 dir : extends s1 dir s2 → extends s2 dir s3 → extends s1 dir s3.
Proof.
  intros [H1 H2 H3 H4 H5 H6] [K1 K2 K3 K4 K5 K6]. split; auto; try congruence.
  intros w Hw Hk. by rewrite K1, H1.
Qed.

Lemma vpage_range va : 0 ≤ va < 4294967296 →
  0 ≤ va / 4096 < 1048576 ∧ 0 ≤ va / 4096 / PAGES < 1024 ∧ 0 ≤ va / 4096 mod PAGES < 1024.
Proof.
  intros Hva. unfold PAGES.
  assert (0 ≤ va / 4096 < 1048576) by (split; [apply Z.div_pos|apply Z.div_lt_upper_bound]; lia).
  split_and!; try lia; try apply Z.mod_pos_bound; try lia.
  - apply Z.div_pos; lia.
  - apply Z.div_lt_upper_bound; lia.
Qed.

(** The reference [get_page] returns: the table of [v] and the index there. *)
Definition page_ref (s : mm) (dir v : Z) (r : pageref) : Prop :=
  ∃ d t, mm_dirs s !! dir = Some d ∧ r = (table_entry d (v / PAGES), v mod PAGES) ∧
    mm_tabs s !! r.1 = Some t ∧ pte s dir v = Some (default zero_pte (t !! r.2)).

Lemma page_ref_pte s dir d v :
  mm_dirs s !! dir = Some d → is_Some (pte s dir v) →
  page_ref s dir v (table_entry d (v / PAGES), v mod PAGES).
Proof.
  intros Hd [p Hp]. unfold pte in Hp. rewrite Hd in Hp.
  destruct (mm_tabs s !! table_entry d (v / PAGES)) as [t|] eqn:Ht; [|done].
  exists d, t. split_and!; try done. unfold pte. by rewrite Hd, Ht.
Qed.

(** A present entry names an existing table, an absent one reads as NULL. *)
Lemma entry_present s dir d v :
  dir_ok s dir → mm_dirs s !! dir = Some d →
  table_entry d (v / PAGES) ≠ 0 → is_Some (pte s dir v).
Proof.
  intros Hok Hd He. unfold pte. rewrite Hd. unfold table_entry in *.
  destruct (tables d !! (v / PAGES)) as [t|] eqn:Ht; simpl in *; [|done].
  destruct (dir_tabs _ _ Hok _ _ _ Hd Ht) as [ps ->]. by eexists.
Qed.

Lemma get_page_spec s dir va :
  I dir s → 0 ≤ va < 4294967296 →
  wp (get_page_at va dir)
     (λ r s', I dir s' ∧ extends s dir s' ∧ page_ref s' dir (va / 4096) r) s.
Proof.
  intros HI Hva. destruct (ta_dir _ _ HI) as [Hok [d Hd]].
  pose proof (vpage_range va Hva) as (Hv & Hti & _).
  unfold get_page_at, DEPTH. wp_step. cbn [get_page].
  wp_step. eapply wp_load_dir; [exact Hd|].
  rewrite andb_false_r. wp_step.
  destruct (Z.eqb_spec (table_entry d (va / 4096 / PAGES)) 0) as [He|He]; simpl.
  - eapply wp_mono; [by eapply ta_table|]. intros [] s' (HI' & Hx & Hm).
    destruct (ta_dir _ _ HI') as [Hok' [d' Hd']].
    wp_step. eapply wp_load_dir; [exact Hd'|]. wp_step. wp_step; [done|].
    split; [done|]. split; [done|]. apply page_ref_pte; [done|]. by apply Hm.
  - wp_step. wp_step. eapply wp_load_dir; [exact Hd|]. wp_step. wp_step; [done|].
    split; [done|]. split; [apply extends_refl|]. apply page_ref_pte; [done|].
    by eapply entry_present.
Qed.

(** ** Writing one page *)

Lemma pte_store s dir v r p ps f w :
  dir_ok s dir → page_ref s dir v r → mm_tabs s !! r.1 = Some ps → 0 ≤ v → 0 ≤ w →
  pte (set_tabs (<[r.1 := <[r.2 := p]> ps]> (mm_tabs s)) (set_frames f s)) dir w =
    if w =? v then Some p else pte s dir w.
Proof.
  intros Hok (d & t & Hd & Hr & Ht & Hp) Hps Hv Hw. rewrite Ht in Hps. injection Hps as <-.
  subst r. simpl in *. unfold pte. simpl. rewrite Hd.
  destruct (Z.eqb_spec w v) as [->|Hne].
  - by rewrite !lookup_insert_eq.
  - destruct (decide (table_entry d (w / PAGES) = table_entry d (v / PAGES))) as [He|He].
    + rewrite He, lookup_insert_eq, Ht, lookup_insert_ne; [done|]. intros Hm. apply Hne.
      assert (Hq : w / PAGES = v / PAGES).
      { unfold table_entry in *. destruct (tables d !! (w / PAGES)) as [a|] eqn:Ha,
          (tables d !! (v / PAGES)) as [b|] eqn:Hb; simpl in *; subst.
        - by eapply (dir_inj _ _ Hok).
        - destruct (dir_tabs _ _ Hok _ _ _ Hd Ha) as [? H0]. by rewrite (dir_null _ _ Hok) in H0.
        - destruct (dir_tabs _ _ Hok _ _ _ Hd Hb) as [? H0]. by rewrite (dir_null _ _ Hok) in H0.
        - by rewrite (dir_null _ _ Hok) in Ht. }
      pose proof (Z.div_mod w PAGES ltac:(unfold PAGES; lia)).
      pose proof (Z.div_mod v PAGES ltac:(unfold PAGES; lia)). congruence.
    + by rewrite lookup_insert_ne by congruence.
Qed.

(** A frame operation run on the page behind [r]. *)
Lemma on_page_spec s dir v r (g : page → M frst (Z * page)) (Q : Z → page → frst → Prop) :
  dir_ok s dir → page_ref s dir v r → 0 ≤ v →
  wp (g (pte0 s dir v)) (λ '(ret, p) f, Q ret p f) (mm_frames s) →
  wp (on_page r g)
     (λ ret s', ∃ ps p f, Q ret p f ∧ mm_tabs s !! r.1 = Some ps ∧
        s' = set_tabs (<[r.1 := <[r.2 := p]> ps]> (mm_tabs s)) (set_frames f s) ∧
        ∀ w, 0 ≤ w → pte s' dir w = if w =? v then Some p else pte s dir w) s.
Proof.
  intros Hok Hr Hv Hg. pose proof Hr as (d & t & Hd & Er & Ht & Hp).
  unfold on_page. wp_step. eapply wp_load_page; [exact Ht|]. wp_step. apply wp_on_frames.
  unfold pte0 in Hg. rewrite Hp in Hg. simpl in Hg.
  eapply wp_mono; [exact Hg|]. intros [ret p] f HQ. wp_step.
  eapply wp_store_page; [exact Ht|]. wp_step.
  exists t, p, f. split_and!; try done.
  intros w Hw. exact (pte_store s dir v r p t f w Hok Hr Ht Hv Hw).
Qed.

(** ** Mapping a range of pages onto a range of frames *)

Definition mapped_range (s : mm) (dir v f n is_kernel writable : Z) (s' : mm) : Prop :=
  ∀ u, 0 ≤ u → ¬ kheap_page u →
    pte0 s' dir u =
      if (v <=? u) && (u <? v + n) then bind_page (pte0 s dir u) is_kernel writable (f + (u - v))
      else pte0 s dir u.

Definition mm_capacity (s : mm) : Z := capacity (mm_frames s).
Definition words_ok (s : mm) : Prop := Forall is_word (g_frames (mm_frames s)).

Lemma map_frame_spec f p pa is_kernel writable :
  0 ≤ pa → pa / 4096 < capacity f → Forall is_word (g_frames f) →
  wp (map_frame p pa 1 is_kernel writable)
     (λ '(ret, p') f', ret = 0 ∧ p' = bind_page p is_kernel writable (pa / 4096) ∧
                       bit_updated f (pa / 4096) true f') f.
Proof.
  intros Hpa Hc Hws. unfold map_frame. rewrite andb_false_r. wp_step.
  eapply wp_mono; [by apply set_frame_spec|]. intros [] f' Hup. by wp_step.
Qed.

(** What holds between the iterations of a mapping loop. *)
Record map_inv (s : mm) (dir v f n is_kernel writable : Z) (s' : mm) : Prop := MapInv {
  mi_inv : I dir s';
  mi_words : words_ok s';
  mi_cap : mm_capacity s' = mm_capacity s;
  mi_range : mapped_range s dir v f n is_kernel writable s'
}.

Lemma map_one s dir va pa is_kernel writable (e : Z → Z) :
  I dir s → words_ok s → 0 ≤ va < 4294967296 → ¬ kheap_page (va / 4096) →
  0 ≤ pa → pa / 4096 < mm_capacity s →
  wp (r ← get_page_at va dir;
      ret ← on_page r (λ p, map_frame p pa 1 is_kernel writable);
      mret (if ret =? 0 then None else Some (e ret)))
     (λ x s', x = None ∧ map_inv s dir (va / 4096) (pa / 4096) 1 is_kernel writable s') s.
Proof.
  intros HI Hws Hva Hk Hpa Hcap. pose proof (vpage_range va Hva) as (Hv & _).
  wp_step. eapply wp_mono; [by apply get_page_spec|]. intros r s1 (HI1 & [Hx1 Hx2 Hx3 Hxn Hx4 Hx5] & Hr).
  destruct (ta_dir _ _ HI1) as [Hok1 _]. wp_step.
  eapply wp_mono.
  { eapply (on_page_spec s1 dir (va / 4096) r); try done; [lia|].
    apply map_frame_spec; [done| |by apply Hx5].
    unfold mm_capacity, capacity in *. by rewrite Hx3. }
  intros ret s2 (ps & p & f & (-> & -> & Hup) & Hps & -> & Hpte). wp_step. split; [done|].
  destruct Hup as (_ & _ & Hlen & Hws' & _). split.
  - by apply ta_page.
  - done.
  - unfold mm_capacity, capacity in *. simpl. by rewrite Hlen, Hx3.
  - intros u Hu Hku. unfold pte0 at 1. rewrite Hpte by done.
    destruct (Z.eqb_spec u (va / 4096)) as [->|Hne].
    + destruct (Z.leb_spec (va / 4096) (va / 4096)), (Z.ltb_spec (va / 4096) (va / 4096 + 1)); try lia.
      simpl. rewrite Hx1 by done. f_equal. lia.
    + fold (pte0 s1 dir u). rewrite Hx1 by done.
      destruct (Z.leb_spec (va / 4096) u), (Z.ltb_spec u (va / 4096 + 1)); try done; lia.
Qed.

(** One more page at the end of a mapped range. *)
Lemma mapped_range_step s dir v f n is_kernel writable s1 s2 :
  0 ≤ n → mapped_range s dir v f n is_kernel writable s1 →
  mapped_range s1 dir (v + n) (f + n) 1 is_kernel writable s2 →
  mapped_range s dir v f (n + 1) is_kernel writable s2.
Proof.
  intros Hn H1 H2 u Hu Hk. rewrite (H2 u Hu Hk), !(H1 u Hu Hk).
  destruct (Z.leb_spec (v + n) u), (Z.ltb_spec u (v + n + 1)), (Z.leb_spec v u),
    (Z.ltb_spec u (v + n)), (Z.ltb_spec u (v + (n + 1))); simpl; try done; try lia.
  all: f_equal; lia.
Qed.

Lemma page_step a n : (a + 4096 * n) / 4096 = a / 4096 + n.
Proof. rewrite Z.mul_comm, Z.div_add by lia. done. Qed.

(** The number of pages a loop [for (i = 0; i < size; i += 0x1000)] visits. *)
Definition page_count (size : Z) : Z := (size + 4095) / 4096.

Lemma page_count_lt size n : 0 ≤ size → (4096 * n < size ↔ n < page_count size).
Proof.
  intros Hs. unfold page_count. pose proof (Z.div_mod (size + 4095) 4096).
  pose proof (Z.mod_pos_bound (size + 4095) 4096). lia.
Qed.

Lemma map_physical_loop s dir pa va size is_kernel writable :
  I dir s → words_ok s → 0 ≤ va → va + size ≤ 4294967296 → 0 ≤ size ≤ 4294963200 →
  (∀ u, va / 4096 ≤ u < va / 4096 + page_count size → ¬ kheap_page u) →
  0 ≤ pa → pa + size ≤ 4294967296 → pa / 4096 + page_count size ≤ mm_capacity s →
  wp (map_physical_to_virtual pa va size is_kernel writable dir)
     (λ r s', r = 0 ∧
        map_inv s dir (va / 4096) (pa / 4096) (page_count size) is_kernel writable s') s.
Proof.
  intros HI Hws Hva Hvs Hs Hk Hpa Hps Hcap. unfold map_physical_to_virtual, page_loop.
  assert (Hpc : 0 ≤ page_count size ≤ 1048576).
  { unfold page_count. split; [apply Z.div_pos; lia|].
    apply Z.lt_succ_r, Z.div_lt_upper_bound; lia. }
  eapply (wp_loop _ (λ m x s', ∃ n, x = 4096 * n ∧ 0 ≤ n ≤ page_count size ∧
    m = Z.to_nat (page_count size - n) ∧
    map_inv s dir (va / 4096) (pa / 4096) n is_kernel writable s')).
  2: { exists 0. split_and!; try done; try lia. split; try done.
       intros u Hu _. destruct (Z.leb_spec (va / 4096) u), (Z.ltb_spec u (va / 4096 + 0));
         try done; lia. }
  2: { apply page_fuel_enough. lia. }
  intros m x s1 (n & -> & Hn & -> & [HI1 Hw1 Hc1 Hm1]).
  destruct (Z.ltb_spec (4096 * n) size) as [Hlt|Hge].
  2: { wp_step. split; [done|]. replace (page_count size) with n; [done|].
       pose proof (page_count_lt size n (proj1 Hs)). lia. }
  apply page_count_lt in Hlt as Hlt'; [|apply Hs]. rewrite !(u32_small (_ + 4096 * n)) by lia.
  wp_step. eapply wp_mono.
  { apply (map_one s1 dir (va + 4096 * n) (pa + 4096 * n) is_kernel writable (λ _, -1));
      rewrite ?page_step; try done; try lia; apply Hk; lia. }
  intros y s2 [-> [HI2 Hw2 Hc2 Hm2]]. wp_step.
  exists (Z.to_nat (page_count size - (n + 1))). split; [lia|]. exists (n + 1).
  rewrite u32_small by lia. split_and!; try done; try lia.
  rewrite !page_step in Hm2. split; try done; [congruence|]. eapply mapped_range_step; [|done|done]. lia.
Qed.
End mapping.

(** ** Reading a mapping back *)

Lemma page_base_div va : 0 ≤ va < 4294967296 → Z.land va 4294963200 / 4096 = va / 4096.
Proof.
  intros Hva. rewrite land_page_base by done. pose proof (Z.div_mod va 4096 ltac:(lia)).
  replace (va - va mod 4096) with (va / 4096 * 4096) by lia. by apply Z.div_mul.
Qed.

Lemma virt_to_phys_spec s dir va :
  dir_ok s dir → 0 ≤ va < 4294967296 → is_Some (pte s dir (va / 4096)) →
  virt_to_phys_from_dir va dir s =
    Ok (let f := pg_frame (pte0 s dir (va / 4096)) in
        if f =? 0 then 0 else u32 (f * 4096 + va mod 4096), s).
Proof.
  intros Hok Hva Hp.
  destruct (mm_dirs s !! dir) as [d|] eqn:Hd.
  2: { destruct Hp as [p Hp]. unfold pte in Hp. by rewrite Hd in Hp. }
  destruct (page_ref_pte s dir d (va / 4096) Hd Hp) as (d' & t & Hd' & _ & Ht & Hpte).
  assert (Hw : wp (virt_to_phys_from_dir va dir) (λ r s', s' = s ∧
    r = let f := pg_frame (pte0 s dir (va / 4096)) in
        if f =? 0 then 0 else u32 (f * 4096 + va mod 4096)) s).
  { unfold virt_to_phys_from_dir. rewrite page_base_div by done.
    wp_step. eapply wp_load_dir; [exact Hd|]. wp_step. eapply wp_load_page; [exact Ht|].
    unfold pte0. rewrite Hpte. simpl. rewrite land_page_offset.
    destruct (Z.eqb_spec (pg_frame (default zero_pte (t !! ((va / 4096) mod PAGES)))) 0); by wp_step. }
  by destruct (wp_run _ _ _ Hw) as (r & s' & -> & -> & ->).
Qed.

(** ** The boot allocator implements the interface

    Before the kernel heap exists, page tables come from the memory after the
    kernel: every table lies below the placement address, and there is room for
    the tables that [dir] still lacks. *)
Record boot_inv (dir : Z) (s : mm) : Prop := BootInv {
  bi_noheap : kernel_heap s = 0;
  bi_dir : dir_ok s dir;
  bi_some : is_Some (mm_dirs s !! dir);
  bi_low : ∀ t, is_Some (mm_tabs s !! t) → t < placement_address s;
  bi_place : 0 ≤ placement_address s;
  bi_index : ∀ d i, mm_dirs s !! dir = Some d → is_Some (tables d !! i) → 0 ≤ i < 1024;
  bi_room : ∀ d, mm_dirs s !! dir = Some d →
    placement_address s + 8192 * (1024 - Z.of_nat (size (tables d))) < 4294967296
}.

Lemma simple_alloc_aligned s size :
  0 ≤ placement_address s → 0 ≤ size → placement_address s + 4096 + size < 4294967296 →
  ∃ t, simple_alloc size 1 s = Ok (t, set_placement (t + size) s) ∧
       placement_address s < t ≤ placement_address s + 4096 ∧ t mod 4096 = 0.
Proof.
  intros Hp Hs Hr. set (p := placement_address s) in *.
  pose proof (Z.mod_pos_bound p 4096 ltac:(lia)). pose proof (Z.mod_le p 4096 Hp ltac:(lia)).
  exists (p - p mod 4096 + 4096). unfold simple_alloc, mbind, M_bind, get, modify. fold p. simpl.
  rewrite land_page_base by lia. rewrite (u32_small (p - p mod 4096 + 4096)) by lia.
  rewrite (u32_small (_ + size)) by lia. rewrite u32_small by lia.
  replace (p - p mod 4096 + 4096 + size - size) with (p - p mod 4096 + 4096) by lia.
  split; [done|]. split; [lia|].
  pose proof (Z.div_mod p 4096 ltac:(lia)).
  replace (p - p mod 4096 + 4096) with ((p / 4096 + 1) * 4096) by lia. apply Z_mod_mult.
Qed.

Lemma tables_room (m : gmap Z Z) i :
  (∀ j, is_Some (m !! j) → 0 ≤ j < 1024) → 0 ≤ i < 1024 → m !! i = None → (size m < 1024)%nat.
Proof.
  intros Hm Hi Hn.
  assert (Hsub : dom (<[i := 0]> m) ⊆ list_to_set (seqZ 0 1024)).
  { intros j Hj. apply elem_of_list_to_set, elem_of_seqZ. apply elem_of_dom in Hj.
    destruct (decide (j = i)) as [->|]; [lia|]. rewrite lookup_insert_ne in Hj by done.
    apply Hm in Hj. lia. }
  apply subseteq_size in Hsub. rewrite size_dom, map_size_insert_None in Hsub by done.
  rewrite size_list_to_set, length_seqZ in Hsub by apply NoDup_seqZ. lia.
Qed.

Lemma kmalloc_base_boot n size align phys s :
  kernel_heap s = 0 →
  kmalloc_base (S n) size align phys s =
    (addr ← simple_alloc size align; mret (addr, if phys then Some addr else None)) s.
Proof.
  intros Hk. cbn [kmalloc_base].
  by rewrite (bind_ok _ _ s 0 s) by (unfold get; by rewrite Hk).
Qed.

(** The state after a table was made at [t]. *)
Lemma boot_alloc_table s dir d i :
  boot_inv dir s → mm_dirs s !! dir = Some d → 0 ≤ i < 1024 → table_entry d i = 0 →
  ∃ t, placement_address s < t ≤ placement_address s + 4096 ∧ tables d !! i = None ∧
    alloc_page_table 7 i 7 dir s = Ok (tt,
      set_dirs (<[dir := PageDirectory (<[i := t]> (tables d))
                           (<[i := Z.lor t 7]> (tablesPhysical d)) (physicalAddress d)]> (mm_dirs s))
        (set_tabs (<[t := ∅]> (mm_tabs s)) (set_placement (t + 4096) s))).
Proof.
  intros Hb Hd Hi He.
  assert (Hn : tables d !! i = None).
  { unfold table_entry in He. destruct (tables d !! i) as [t|] eqn:Ht; [|done]. simpl in He. subst.
    destruct (dir_tabs _ _ (bi_dir _ _ Hb) _ _ _ Hd Ht) as [? H0].
    by rewrite (dir_null _ _ (bi_dir _ _ Hb)) in H0. }
  assert (Hsz : (size (tables d) < 1024)%nat).
  { apply (tables_room _ i); try done. intros j Hj. by eapply (bi_index _ _ Hb). }
  pose proof (bi_room _ _ Hb _ Hd). pose proof (bi_place _ _ Hb).
  destruct (simple_alloc_aligned s SIZEOF_PAGE_TABLE) as (t & Hrun & Ht & _);
    [done|unfold SIZEOF_PAGE_TABLE; lia..|].
  exists t. split_and!; [lia..|done|].
  cbn [alloc_page_table].
  rewrite (bind_ok _ _ s (t, Some t) (set_placement (t + 4096) s)).
  2: { rewrite kmalloc_base_boot by apply (bi_noheap _ _ Hb). by rewrite (bind_ok _ _ _ _ _ Hrun). }
  destruct (Z.eqb_spec t 0); [lia|].
  unfold load_dir, store_dir, get, modify, of_option, mbind, M_bind, mret, M_ret. simpl.
  rewrite Hd. simpl. rewrite lookup_insert_eq. simpl. by rewrite insert_insert_eq.
Qed.

Lemma boot_pte_new s dir d i t pd :
  boot_inv dir s → mm_dirs s !! dir = Some d → tables d !! i = None →
  placement_address s < t → tables pd = <[i := t]> (tables d) →
  ∀ w, pte (set_dirs (<[dir := pd]> (mm_dirs s))
              (set_tabs (<[t := ∅]> (mm_tabs s)) (set_placement (t + 4096) s))) dir w =
       if w / PAGES =? i then Some zero_pte else pte s dir w.
Proof.
  intros Hb Hd Hn Ht Hpd w. unfold pte. simpl. rewrite lookup_insert_eq, Hd.
  unfold table_entry. rewrite Hpd. destruct (Z.eqb_spec (w / PAGES) i) as [->|Hne].
  - rewrite lookup_insert_eq. simpl. by rewrite lookup_insert_eq, lookup_empty.
  - rewrite (lookup_insert_ne (tables d)) by done.
    rewrite (lookup_insert_ne (mm_tabs s)); [done|]. intros Hte.
    destruct (tables d !! (w / PAGES)) as [t'|] eqn:Ht'; simpl in *.
    + pose proof (bi_low _ _ Hb _ (dir_tabs _ _ (bi_dir _ _ Hb) _ _ _ Hd Ht')). lia.
    + pose proof (bi_place _ _ Hb). lia.
Qed.

Lemma boot_inv_new s dir d i t pd :
  boot_inv dir s → mm_dirs s !! dir = Some d → 0 ≤ i < 1024 → tables d !! i = None →
  placement_address s < t ≤ placement_address s + 4096 → tables pd = <[i := t]> (tables d) →
  boot_inv dir (set_dirs (<[dir := pd]> (mm_dirs s))
    (set_tabs (<[t := ∅]> (mm_tabs s)) (set_placement (t + 4096) s))).
Proof.
  intros Hb Hd Hi Hn Ht Hpd. pose proof (bi_place _ _ Hb). pose proof (bi_dir _ _ Hb) as Hok.
  assert (Hold : ∀ j t', tables d !! j = Some t' → t' < t ∧ is_Some (mm_tabs s !! t')).
  { intros j t' Hj. pose proof (dir_tabs _ _ Hok _ _ _ Hd Hj) as H1.
    pose proof (bi_low _ _ Hb _ H1). split; [lia|done]. }
  assert (Hsz : (size (tables d) < 1024)%nat).
  { apply (tables_room _ i); try done. intros j Hj. by eapply (bi_index _ _ Hb). }
  split; simpl; try (by apply Hb).
  - split; simpl.
    + rewrite lookup_insert_ne by lia. apply (dir_null _ _ Hok).
    + intros d0 j t'. rewrite lookup_insert_eq. intros [= <-]. rewrite Hpd.
      intros [[-> ->]|[? Hj]]%lookup_insert_Some; [by rewrite lookup_insert_eq; eexists|].
      destruct (Hold _ _ Hj). by rewrite lookup_insert_ne by lia.
    + intros d0 j k t'. rewrite lookup_insert_eq. intros [= <-]. rewrite Hpd.
      intros [[-> ->]|[? Hj]]%lookup_insert_Some [[-> ?]|[? Hk]]%lookup_insert_Some; try done.
      * destruct (Hold _ _ Hk). lia.
      * destruct (Hold _ _ Hj). lia.
      * by eapply (dir_inj _ _ Hok).
  - rewrite lookup_insert_eq. by eexists.
  - intros t' Ht'. destruct (decide (t' = t)) as [->|]; [lia|].
    rewrite lookup_insert_ne in Ht' by done. pose proof (bi_low _ _ Hb _ Ht'). lia.
  - lia.
  - intros d0 j. rewrite lookup_insert_eq. intros [= <-]. rewrite Hpd.
    destruct (decide (j = i)) as [->|]; [done|]. rewrite lookup_insert_ne by done.
    by apply (bi_index _ _ Hb).
  - intros d0. rewrite lookup_insert_eq. intros [= <-]. rewrite Hpd.
    rewrite map_size_insert_None by done. pose proof (bi_room _ _ Hb _ Hd). lia.
Qed.

Lemma boot_inv_page dir s t ps v p f :
  boot_inv dir s → mm_tabs s !! t = Some ps →
  boot_inv dir (set_tabs (<[t := <[v := p]> ps]> (mm_tabs s)) (set_frames f s)).
Proof.
  intros Hb Ht. pose proof (bi_dir _ _ Hb) as Hok.
  assert (Hdom : ∀ x, is_Some (<[t := <[v := p]> ps]> (mm_tabs s) !! x) ↔ is_Some (mm_tabs s !! x)).
  { intros x. destruct (decide (x = t)) as [->|].
    - rewrite lookup_insert_eq, Ht. split; by eexists.
    - by rewrite lookup_insert_ne. }
  split; simpl; try (by apply Hb).
  - split; simpl.
    + apply eq_None_not_Some. rewrite Hdom, (dir_null _ _ Hok). by intros [? ?].
    + intros d i x Hd Hi. apply Hdom. by eapply (dir_tabs _ _ Hok).
    + apply (dir_inj _ _ Hok).
  - intros x Hx. apply (bi_low _ _ Hb). by apply Hdom.
Qed.

#[export] Instance boot_table_allocator : TableAllocator boot_inv.
Proof.
  split.
  - intros dir s Hb. split; apply Hb.
  - intros dir s d i Hb Hd Hi He.
    destruct (boot_alloc_table s dir d i Hb Hd Hi He) as (t & Ht & Hn & Hrun).
    eapply run_wp; [exact Hrun|].
    pose proof (boot_pte_new s dir d i t (PageDirectory (<[i := t]> (tables d))
      (<[i := Z.lor t 7]> (tablesPhysical d)) (physicalAddress d)) Hb Hd Hn (proj1 Ht) eq_refl) as Hpte.
    split; [by eapply boot_inv_new|]. split.
    + split; try done.
      * intros w Hw _. unfold pte0. rewrite Hpte. destruct (Z.eqb_spec (w / PAGES) i) as [Hw'|]; [|done].
        unfold pte. rewrite Hd, Hw', He. by rewrite (dir_null _ _ (bi_dir _ _ Hb)).
      * intros w Hw. rewrite Hpte. by destruct (_ =? i); [eexists|].
    + intros v Hv. rewrite Hpte, Hv, Z.eqb_refl. by eexists.
  - intros dir s t ps v p f Hb Ht _. by apply boot_inv_page.
Qed.

(** ** Theorems *)

(** C19: Mapping and reading back.  [map_physical_to_virtual] of page-aligned
    ranges terminates with 0, after which every address of the virtual range
    translates to the physical address at the same offset, and every page
    outside the range (and outside the kernel heap, where new page tables may
    come from) is as before. *)
Theorem map_translate_roundtrip (I : Z → mm → Prop) (TA : TableAllocator I)
    s dir pa va size is_kernel writable :
  I dir s → words_ok s → 0 ≤ va → va mod 4096 = 0 → va + size ≤ 4294967296 →
  0 ≤ size ≤ 4294963200 →
  (∀ u, va / 4096 ≤ u < va / 4096 + page_count size → ¬ kheap_page u) →
  4096 ≤ pa → pa mod 4096 = 0 → pa + size ≤ 4294967296 →
  pa / 4096 + page_count size ≤ mm_capacity s →
  ∃ s', map_physical_to_virtual pa va size is_kernel writable dir s = Ok (0, s') ∧
    (∀ off, 0 ≤ off < size → virt_to_phys_from_dir (va + off) dir s' = Ok (pa + off, s')) ∧
    (∀ u, 0 ≤ u → ¬ kheap_page u →
       ¬ va / 4096 ≤ u < va / 4096 + page_count size → pte0 s' dir u = pte0 s dir u).
Proof.
  intros HI Hws Hva Hvm Hvs Hs Hk Hpa Hpm Hps Hcap.
  destruct (wp_run _ _ _ (map_physical_loop I s dir pa va size is_kernel writable HI Hws Hva Hvs
    Hs Hk ltac:(lia) Hps Hcap)) as (r & s' & Hrun & -> & [HI' _ _ Hm]).
  exists s'. split; [done|]. split.
  - intros off Ho. destruct (ta_dir _ _ HI') as [Hok' _].
    set (u := (va + off) / 4096). set (n := off / 4096).
    assert (Hn : 0 ≤ n ∧ off = 4096 * n + off mod 4096 ∧ 0 ≤ off mod 4096 < 4096).
    { subst n. pose proof (Z.div_mod off 4096). pose proof (Z.mod_pos_bound off 4096).
      pose proof (Z.div_pos off 4096). lia. }
    assert (Hv0 : va = 4096 * (va / 4096)) by (pose proof (Z.div_mod va 4096); lia).
    assert (Hp0 : pa = 4096 * (pa / 4096)) by (pose proof (Z.div_mod pa 4096); lia).
    assert (Hu : u = va / 4096 + n).
    { subst u n. rewrite Hv0 at 1. by rewrite Z.mul_comm, Z.div_add_l by lia. }
    assert (Hrange : n < page_count size) by (apply page_count_lt; lia).
    pose proof (Z.div_pos va 4096). specialize (Hm u ltac:(lia) (Hk u ltac:(lia))).
    destruct (Z.leb_spec (va / 4096) u), (Z.ltb_spec u (va / 4096 + page_count size)); try lia.
    simpl in Hm.
    assert (Hf : pg_frame (pte0 s' dir u) = pa / 4096 + n).
    { rewrite Hm. simpl. change 1048575 with (Z.ones 20). rewrite Z.land_ones by lia.
      replace (pa / 4096 + (u - va / 4096)) with (pa / 4096 + n) by lia. apply Z.mod_small. lia. }
    rewrite virt_to_phys_spec by (done || lia ||
      (fold u; unfold pte0 in Hf; destruct (pte s' dir u); [by eexists|simpl in Hf; lia])).
    fold u. cbv zeta. rewrite Hf. destruct (Z.eqb_spec (pa / 4096 + n) 0); [lia|].
    replace ((va + off) mod 4096) with (off mod 4096).
    + rewrite u32_small by lia. f_equal. f_equal. lia.
    + rewrite Hv0, Z.add_comm, Z.mul_comm, Z_mod_plus_full. done.
  - intros u Hu Hku Hout. rewrite Hm by done.
    destruct (Z.leb_spec (va / 4096) u), (Z.ltb_spec u (va / 4096 + page_count size));
      try done; lia.
Qed.

(** A boot-time state: an empty kernel directory at 0x300000, 64 MiB of frames. *)
Definition boot_mm : mm :=
  Mm 4194304 ∅ ∅ ∅ 0 0 0 (FrSt (replicate 512 0) 16384 0)
    {[ 3145728 := PageDirectory ∅ ∅ 3149824 ]} ∅ ∅ 3145728 3145728 0.

Lemma boot_mm_dir d : mm_dirs boot_mm !! 3145728 = Some d → d = PageDirectory ∅ ∅ 3149824.
Proof. intros H. change (Some (PageDirectory ∅ ∅ 3149824) = Some d) in H. congruence. Qed.

Lemma boot_mm_inv : boot_inv 3145728 boot_mm.
Proof.
  split.
  - reflexivity.
  - split; [reflexivity|..].
    + intros d i t ->%boot_mm_dir Hi. simpl in Hi. by rewrite lookup_empty in Hi.
    + intros d i j t ->%boot_mm_dir Hi. simpl in Hi. by rewrite lookup_empty in Hi.
  - by eexists.
  - intros t [? Ht]. simpl in Ht. by rewrite lookup_empty in Ht.
  - simpl. lia.
  - intros d i ->%boot_mm_dir [? Hi]. simpl in Hi. by rewrite lookup_empty in Hi.
  - intros d ->%boot_mm_dir. simpl. rewrite map_size_empty. lia.
Defined.

Lemma map_translate_roundtrip_witness :
  ∃ s', map_physical_to_virtual 8192 65536 5000 0 1 3145728 boot_mm = Ok (0, s') ∧
    (∀ off, 0 ≤ off < 5000 →
       virt_to_phys_from_dir (65536 + off) 3145728 s' = Ok (8192 + off, s')) ∧
    (∀ u, 0 ≤ u → ¬ kheap_page u → ¬ 65536 / 4096 ≤ u < 65536 / 4096 + page_count 5000 →
       pte0 s' 3145728 u = pte0 boot_mm 3145728 u).
Proof.
  apply (map_translate_roundtrip boot_inv boot_table_allocator boot_mm 3145728 8192 65536 5000 0 1
           boot_mm_inv); try lia; try reflexivity.
  - unfold words_ok, boot_mm, mm_frames, g_frames. apply Forall_replicate. unfold is_word. lia.
  - intros u [_ Hu]. change (u < 18) in Hu. intros [Hk _]. change (786432 ≤ u) in Hk. lia.
  - change (4 ≤ 16384). lia.
Defined.

(** ** The bitmap [init_paging] makes *)

Lemma set_frame_outside f a :
  0 ≤ a → capacity f ≤ a / 4096 → set_frame a f = Fault.
Proof.
  intros Ha Hc. unfold set_frame, INDEX_FROM_BIT. change (8 * 4) with 32.
  apply bind_fault. unfold read_word, get, of_option, mbind, M_bind.
  replace (g_frames f !! Z.to_nat (a / 4096 / 32)) with (@None Z); [done|].
  symmetry. apply lookup_ge_None. unfold capacity in Hc.
  assert (Z.of_nat (length (g_frames f)) ≤ a / 4096 / 32).
  { apply Z.div_le_lower_bound; lia. }
  lia.
Qed.

(** The frame bitmap is too small.  [init_paging] allocates [g_nframes / 32]
    bytes for [g_nframes / 32] words, so only the frames of the first 128 MiB of
    the 512 MiB it manages have a bit inside the allocation; identity mapping
    any address from there up (the video frame buffer, for one) writes outside
    it. *)
Theorem init_bitmap_short s s1 :
  init_bitmap s = Ok (tt, s1) →
  g_nframes (mm_frames s1) = 131072 ∧ mm_capacity s1 = 32768 ∧
  ∀ a, 134217728 ≤ a → on_frames (set_frame a) s1 = Fault.
Proof.
  unfold init_bitmap. unfold mbind, M_bind.
  destruct (kmalloc_base _ _ _ _ s) as [[[x y] s0]| |]; [|done..].
  intros [= <-].
  assert (Hcap : mm_capacity (set_frames (FrSt (replicate (Z.to_nat (END_OF_MEMORY / 4096 / 32 / 4)) 0)
    (END_OF_MEMORY / 4096) (fr_errno (mm_frames s0))) s0) = 32768).
  { unfold mm_capacity, capacity. cbn [mm_frames set_frames g_frames].
    rewrite length_replicate. reflexivity. }
  split_and!; [reflexivity|exact Hcap|]. intros a Ha. unfold on_frames.
  rewrite set_frame_outside; [done|lia|].
  etransitivity; [exact (Z.eq_le_incl _ _ Hcap)|]. apply Z.div_le_lower_bound; lia.
Qed.

Lemma init_bitmap_short_witness :
  g_nframes (mm_frames (match init_bitmap boot_mm with Ok (_, s) => s | _ => boot_mm end)) = 131072 ∧
  mm_capacity (match init_bitmap boot_mm with Ok (_, s) => s | _ => boot_mm end) = 32768 ∧
  ∀ a, 134217728 ≤ a →
    on_frames (set_frame a) (match init_bitmap boot_mm with Ok (_, s) => s | _ => boot_mm end) = Fault.
Proof. apply (init_bitmap_short boot_mm). vm_compute. reflexivity. Defined.

(** ** Tearing down an address space *)

(** Whether virtual page [j] is one of the pages [pgs] of a table and mapped. *)
Definition cleared (ps : gmap Z page) (table : Z) (pgs : list Z) (j : Z) : bool :=
  existsb (λ pg, (j =? table * 1024 + pg) &&
                 negb (pg_frame (default zero_pte (ps !! pg)) =? 0)) pgs.

Lemma clear_table_loop s t ps table pgs :
  mm_tabs s !! t = Some ps → words_ok s → 0 ≤ table < 1024 →
  (table + 1) * 1024 ≤ mm_capacity s → Forall (λ pg, 0 ≤ pg < 1024) pgs →
  wp (for_each pgs (λ pg,
        p ← load_page (t, pg);
        if pg_frame p =? 0 then mret tt
        else on_frames (clear_frame (u32 ((table * PAGES + pg) * 4096)))))
     (λ _ s', mm_tabs s' = mm_tabs s ∧
        ∀ j, 0 ≤ j → used (g_frames (mm_frames s')) j =
          used (g_frames (mm_frames s)) j && negb (cleared ps table pgs j)) s.
Proof.
  intros Ht Hws Htab Hcap. revert s Ht Hws Hcap.
  induction pgs as [|pg pgs IH]; intros s Ht Hws Hcap Hpgs; simpl.
  { wp_step. split; [done|]. intros j Hj. by rewrite andb_true_r. }
  apply Forall_cons in Hpgs as [Hpg Hpgs]. wp_step. wp_step. eapply wp_load_page; [exact Ht|].
  simpl. set (p := default zero_pte (ps !! pg)). destruct (Z.eqb_spec (pg_frame p) 0) as [Hz|Hnz].
  - wp_step. eapply wp_mono; [by apply IH|]. intros [] s' [Hts Hu]. split; [done|].
    intros j Hj. rewrite Hu by done. by rewrite andb_false_r.
  - unfold PAGES. rewrite u32_small by lia. apply wp_on_frames. unfold mm_capacity in Hcap.
    eapply wp_mono; [apply clear_frame_spec; [lia|rewrite Z.div_mul by lia; lia|exact Hws]|].
    intros [] f (_ & _ & Hlen & Hws' & Hb). rewrite Z.div_mul in Hb by lia.
    eapply wp_mono.
    { apply (IH (set_frames f s)); try done. unfold mm_capacity, capacity in *. simpl. by rewrite Hlen. }
    intros [] s' [Hts Hu]. split; [done|]. intros j Hj. rewrite Hu by done. simpl. rewrite Hb by done.
    destruct (Z.eqb_spec j (table * 1024 + pg)) as [->|Hne]; simpl; [by rewrite andb_false_r|done].
Qed.

(** [clear_page_directory] frees frames by the wrong number.  For a table of
    an address space it clears the bits whose numbers are the mapped virtual
    pages, so a frame that does not happen to carry the number of a mapped page
    of that table stays in use, and frames of other owners are freed. *)
Theorem clear_table_by_virtual_page s t ps table :
  mm_tabs s !! t = Some ps → words_ok s → 0 ≤ table < 1024 →
  (table + 1) * 1024 ≤ mm_capacity s →
  ∃ s', clear_table_frames t table s = Ok (tt, s') ∧
    (∀ j, 0 ≤ j → ¬ table * 1024 ≤ j < (table + 1) * 1024 →
       used (g_frames (mm_frames s')) j = used (g_frames (mm_frames s)) j) ∧
    (∀ pg, 0 ≤ pg < 1024 → pg_frame (default zero_pte (ps !! pg)) ≠ 0 →
       used (g_frames (mm_frames s')) (table * 1024 + pg) = false).
Proof.
  intros Ht Hws Htab Hcap.
  destruct (wp_run _ _ _ (clear_table_loop s t ps table (seqZ 0 1024) Ht Hws Htab Hcap
    (seqZ_range 0 1024))) as ([] & s' & Hrun & _ & Hu).
  exists s'. split; [exact Hrun|]. split.
  - intros j Hj Hout. rewrite Hu by done.
    replace (cleared ps table (seqZ 0 1024) j) with false; [apply andb_true_r|].
    symmetry. apply not_true_is_false. unfold cleared. rewrite existsb_exists.
    intros (pg & Hpg & Hh). apply list_elem_of_In, elem_of_seqZ in Hpg.
    apply andb_prop in Hh as [Hh%Z.eqb_eq _]. lia.
  - intros pg Hpg Hf. rewrite Hu by lia.
    replace (cleared ps table (seqZ 0 1024) (table * 1024 + pg)) with true; [apply andb_false_r|].
    symmetry. unfold cleared. rewrite existsb_exists. exists pg. split.
    + apply list_elem_of_In, elem_of_seqZ. lia.
    + rewrite Z.eqb_refl. by destruct (Z.eqb_spec (pg_frame (default zero_pte (ps !! pg))) 0).
Qed.

(** A table at 4096 whose page 3 is on frame 2000. *)
Definition teardown_mm : mm :=
  Mm 0 ∅ ∅ ∅ 0 0 0 (FrSt (replicate 64 ALL_ONES) 2048 0) ∅
    {[ 4096 := {[ 3 := Page 1 1 1 0 0 0 2000 ]} ]} ∅ 0 0 0.

Lemma clear_table_by_virtual_page_witness :
  ∃ s', clear_table_frames 4096 0 teardown_mm = Ok (tt, s') ∧
    (∀ j, 0 ≤ j → ¬ 0 * 1024 ≤ j < (0 + 1) * 1024 →
       used (g_frames (mm_frames s')) j = used (g_frames (mm_frames teardown_mm)) j) ∧
    (∀ pg, 0 ≤ pg < 1024 →
       pg_frame (default zero_pte (({[ 3 := Page 1 1 1 0 0 0 2000 ]} : gmap Z page) !! pg)) ≠ 0 →
       used (g_frames (mm_frames s')) (0 * 1024 + pg) = false).
Proof.
  apply (clear_table_by_virtual_page teardown_mm 4096); [reflexivity| |lia|change (1024 ≤ 2048); lia].
  unfold words_ok, teardown_mm, mm_frames, g_frames. apply Forall_replicate.
  unfold is_word, ALL_ONES. lia.
Defined.

(** ** The page-fault handler *)

(** The list of heaps that starts at [p]. *)
Fixpoint hchain (m : gmap Z heap) (p : Z) (hs : list (Z * heap)) : Prop :=
  match hs with
  | [] => p = 0
  | (q, h) :: hs' => p = q ∧ q ≠ 0 ∧ m !! q = Some h ∧ hchain m (hp_nextheap h) hs'
  end.

Definition in_heap (addr : Z) (h : heap) : bool :=
  (hp_start h <=? addr) && (addr <? u32 (hp_start h + hp_maxsize h)).

Definition heap_list (s : mm) (hs : list (Z * heap)) : Prop :=
  hchain (mm_heaps s) (heaplist s) hs ∧ NoDup hs.*1.

Lemma hchain_length m p hs : hchain m p hs → NoDup hs.*1 → (length hs ≤ size m)%nat.
Proof.
  intros Hc Hnd. rewrite <- (length_fmap fst hs).
  rewrite <- (size_list_to_set (C := gset Z)) by done. rewrite <- (size_dom m).
  apply subseteq_size. intros q Hq. rewrite elem_of_list_to_set in Hq. apply elem_of_dom.
  clear Hnd. revert p Hc. induction hs as [|[r h] hs IH]; intros p Hc; simpl in *.
  - by apply elem_of_nil in Hq.
  - destruct Hc as (_ & _ & Hm & Hc). apply elem_of_cons in Hq as [->|Hq]; [by eexists|]. by eapply IH.
Qed.

Lemma is_addr_in_heap_spec s hs addr :
  heap_list s hs →
  is_addr_in_heap addr s =
    Ok (match list_find (λ x, in_heap addr x.2 = true) hs with
        | Some (_, (q, _)) => q | None => 0 end, s).
Proof.
  intros [Hc Hnd]. pose proof (hchain_length _ _ _ Hc Hnd) as Hlen. unfold is_addr_in_heap.
  rewrite (bind_ok _ _ s (heaplist s) s) by done. rewrite (bind_ok _ _ s (heap_fuel s) s) by done.
  assert (Hf : (length hs < heap_fuel s)%nat) by (unfold heap_fuel; lia). clear Hlen Hnd.
  revert Hc Hf. generalize (heaplist s). generalize (heap_fuel s).
  induction hs as [|[q h] hs IH]; intros fuel p Hc Hf; (destruct fuel as [|fuel]; simpl in Hf; [lia|]).
  - simpl in Hc. by subst p.
  - destruct Hc as (-> & Hq & Hm & Hc). cbn [loop]. destruct (Z.eqb_spec q 0); [done|].
    unfold mbind at 1, M_bind at 1.
    rewrite (bind_ok _ _ s h s) by (unfold load_heap, get, of_option, mbind, M_bind; by rewrite Hm).
    fold (in_heap addr h). cbn [list_find]. unfold in_heap at 1.
    fold (in_heap addr h). destruct (in_heap addr h) eqn:Hin.
    + by rewrite decide_True by done.
    + rewrite decide_False by (simpl; congruence). simpl. etransitivity; [apply (IH fuel _ Hc); lia|].
      by destruct (list_find _ hs) as [[? [? ?]]|].
Qed.

(** How a page [old] comes out of the demand-zero path with right [u]. *)
Definition demand_mapped (s : mm) (old : page) (u : Z) (new : page) (s' : mm) : Prop :=
  (pg_frame old ≠ 0 ∧ new = old) ∨
  (∃ f, used (g_frames (mm_frames s)) f = false ∧ used (g_frames (mm_frames s')) f = true ∧
        new = bind_page old (not_flag u) u f) ∨
  (pg_frame old = 0 ∧ new = old ∧
   ∀ j, 0 ≤ j < frame_limit (mm_frames s') → used (g_frames (mm_frames s')) j = true).

Lemma zero_page_spec (I : Z → mm → Prop) `{!TableAllocator I} s dir va u :
  I dir s → frames_ok (mm_frames s) → g_nframes (mm_frames s) ≤ 1048576 →
  0 ≤ va < 4294967296 → ¬ kheap_page (va / 4096) →
  wp (zero_page va dir u)
     (λ _ s', demand_mapped s (pte0 s dir (va / 4096)) u (pte0 s' dir (va / 4096)) s' ∧
        ∀ w, 0 ≤ w → ¬ kheap_page w → w ≠ va / 4096 → pte0 s' dir w = pte0 s dir w) s.
Proof.
  intros HI [Hws Hnf Hlen] Hn Hva Hk. pose proof (vpage_range va Hva) as (Hv & _).
  unfold zero_page. wp_step. eapply wp_mono; [by eapply get_page_spec|].
  intros r s1 (HI1 & [Hx1 Hx2 Hx3 Hxn Hx4 Hx5] & Hr). destruct (ta_dir _ _ HI1) as [Hok1 _].
  assert (Hfo1 : frames_ok (mm_frames s1)) by (split; [by apply Hx5|by rewrite Hxn|by rewrite Hxn, Hx3]).
  wp_step. eapply wp_mono.
  { eapply (on_page_spec s1 dir (va / 4096) r _ (λ ret p f,
      (pg_frame (pte0 s1 dir (va / 4096)) ≠ 0 ∧ p = pte0 s1 dir (va / 4096)) ∨
      (pg_frame (pte0 s1 dir (va / 4096)) = 0 ∧ p = pte0 s1 dir (va / 4096) ∧
       g_frames f = g_frames (mm_frames s1) ∧ g_nframes f = g_nframes (mm_frames s1) ∧
       lowest_free (mm_frames s1) (-1)) ∨
      frame_taken (mm_frames s1) (pte0 s1 dir (va / 4096)) (not_flag u) u p f)); try done; [lia|].
    destruct (decide (pg_frame (pte0 s1 dir (va / 4096)) = 0)) as [Hz|Hz].
    - eapply wp_mono; [apply alloc_frame_spec; [done|by rewrite Hxn|done]|].
      intros [ret p] f [(_ & -> & Hl & ->)|(_ & Ht)]; [right; left|right; right]; done.
    - eapply run_wp; [by apply alloc_frame_mapped|]. by left. }
  intros ret s2 (ps & p & f & HQ & Hps & -> & Hpte). wp_step.
  specialize (Hx1 (va / 4096) ltac:(lia) Hk) as Hold. rewrite Hold in HQ.
  set (s2 := set_tabs _ _) in *.
  assert (Hnew : pte0 s2 dir (va / 4096) = p)
    by (unfold pte0; rewrite Hpte, Z.eqb_refl by lia; done).
  split.
  - rewrite Hnew. unfold demand_mapped.
    destruct HQ as [[Hz ->]|[(Hz & -> & Hg & Hgn & Hl)|(g & Hg & Hl & Hup & ->)]]; [by left| |].
    + right. right. split_and!; try done. unfold frame_limit. subst s2. simpl. rewrite Hg, Hgn.
      destruct Hl as [[_ Hl]|[? _]]; [|lia]. exact Hl.
    + right. left. exists g. destruct Hl as [[-> _]|(_ & Hfree & _)]; [lia|].
      destruct Hup as (_ & _ & _ & _ & Hup). split_and!; [|by rewrite Hup, Z.eqb_refl by lia|done].
      destruct (used (g_frames (mm_frames s)) g) eqn:Hu; [|done].
      rewrite Hx4 in Hfree by (done || lia). done.
  - intros w Hw Hkw Hne. unfold pte0 at 1. rewrite Hpte by done.
    destruct (Z.eqb_spec w (va / 4096)); [done|]. by apply Hx1.
Qed.


(** The boot state with a user heap in the list and the first 16 frames in use. *)
Definition fault_mm : mm :=
  set_frames (FrSt (65535 :: replicate 511 0) 16384 0)
    (set_roots 100 0 0 (set_heaps {[ 100 := Heap UHEAP_START 0 UHEAP_MAXSIZE 1 24 0 ]} boot_mm)).

Lemma fault_mm_inv : boot_inv 3145728 fault_mm.
Proof. destruct boot_mm_inv as [? [? ? ?] ? ? ? ? ?]. by split; [|split|..]. Defined.

