(* ===== verification/LibK.v ===== *)
(** * The kernel's C library (kernel/libk)

    [string.c], [stdlib.c], [stdio.c] and the integer part of [math.c] over a
    byte memory: a map from addresses to bytes in 0..255, where an access to an
    address that is not mapped is [Fault].  A [char] is signed, as on i386. *)
From S2P Require Import Prelude.

Notation bmem := (gmap Z Z).

Definition load8 (p : Z) : M bmem Z := λ m,
  match m !! p with Some b => Ok (b, m) | None => Fault end.

Definition store8 (p b : Z) : M bmem unit := λ m,
  match m !! p with Some _ => Ok (tt, <[p := u8 b]> m) | None => Fault end.

(** A little-endian 32-bit access. *)
Definition load32 (p : Z) : M bmem Z :=
  b0 ← load8 p; b1 ← load8 (p + 1); b2 ← load8 (p + 2); b3 ← load8 (p + 3);
  mret (b0 + 256 * b1 + 65536 * b2 + 16777216 * b3).

(** A little-endian 16-bit access. *)
Definition load16 (p : Z) : M bmem Z := b0 ← load8 p; b1 ← load8 (p + 1); mret (b0 + 256 * b1).

Definition store16 (p w : Z) : M bmem unit := _ ← store8 p w; store8 (p + 1) (w / 256).

Definition store32 (p w : Z) : M bmem unit :=
  _ ← store8 p w;
  _ ← store8 (p + 1) (w / 256);
  _ ← store8 (p + 2) (w / 65536);
  store8 (p + 3) (w / 16777216).

(** [char] values. *)
Definition s8 (b : Z) : Z := if b <? 128 then b else b - 256.

(** [for (i = i0; i < i0 + n; i++)]. *)
Fixpoint for_up (n : nat) (i : Z) (body : Z → M bmem unit) : M bmem unit :=
  match n with
  | O => mret tt
  | S n' => _ ← body i; for_up n' (i + 1) body
  end.

(** A string cannot be longer than the memory. *)
Definition mem_fuel (m : bmem) : nat := S (size m).

Definition scan {A R} (body : A → M bmem (A + R)) (a : A) : M bmem R :=
  fuel ← get mem_fuel; loop fuel body a.

(** ** string.c: memory *)

Definition memcmp (a b size : Z) : M bmem Z :=
  loop (S (Z.to_nat size)) (λ i,
    if i <? size then
      x ← load8 (a + i);
      y ← load8 (b + i);
      if x <? y then mret (inr (-1))
      else if y <? x then mret (inr 1)
      else mret (inl (i + 1))
    else mret (inr 0)) 0.

Definition memcpy (dest src size : Z) : M bmem Z :=
  let dwords := size / 4 in
  let n_bytes := size mod 4 in
  _ ← for_up (Z.to_nat dwords) 0 (λ i, w ← load32 (src + 4 * i); store32 (dest + 4 * i) w);
  _ ← for_up (Z.to_nat n_bytes) 0 (λ i,
        b ← load8 (src + dwords * 4 + i); store8 (dest + dwords * 4 + i) b);
  mret dest.

Fixpoint copy_down (n : nat) (dst src : Z) : M bmem unit :=
  match n with
  | O => mret tt
  | S n' =>
    b ← load8 (src + Z.of_nat n');
    _ ← store8 (dst + Z.of_nat n') b;
    copy_down n' dst src
  end.

Definition memmove (dst src size : Z) : M bmem Z :=
  _ ← (if dst <? src then
         for_up (Z.to_nat size) 0 (λ i, b ← load8 (src + i); store8 (dst + i) b)
       else copy_down (Z.to_nat size) dst src);
  mret dst.

Definition memset (dst value size : Z) : M bmem Z :=
  if value =? 0 then
    _ ← for_up (Z.to_nat (size / 4)) 0 (λ i, store32 (dst + 4 * i) 0);
    mret dst
  else
    _ ← for_up (Z.to_nat size) 0 (λ i, store8 (dst + i) value);
    mret dst.

(** ** string.c: strings *)

(** [assert(str)] stops the kernel on NULL. *)
Definition strlen (str : Z) : M bmem Z :=
  if str =? 0 then fault
  else scan (λ len,
    c ← load8 (str + len);
    if c =? 0 then mret (inr len) else mret (inl (len + 1))) 0.

Definition reverse (str : Z) : M bmem unit :=
  l ← strlen str;
  scan (λ '(i, j),
    if i <? j then
      b ← load8 (str + i);
      c ← load8 (str + j);
      _ ← store8 (str + i) c;
      _ ← store8 (str + j) b;
      mret (inl (i + 1, j - 1))
    else mret (inr tt)) (0, l - 1).

Definition append (str character : Z) : M bmem Z :=
  l ← strlen str;
  _ ← store8 (str + l) character;
  _ ← store8 (str + (l + 1)) 0;
  mret (l + 1).

Definition remove (str length : Z) : M bmem Z :=
  l ← strlen str;
  if s32 (s32 l - s32 length) <? 0 then mret (-1)
  else
    let l' := u32 (l - length) in
    _ ← store8 (str + l') 0;
    mret (s32 l').

Definition insert (str location character : Z) : M bmem Z :=
  l ← strlen str;
  if l <? location then mret (-1)
  else
    _ ← loop (S (Z.to_nat (l - location))) (λ i,
          if i =? location then mret (inr tt)
          else
            c ← load8 (str + i);
            _ ← store8 (str + (i + 1)) c;
            mret (inl (i - 1))) l;
    _ ← store8 (str + location) character;
    mret (s32 (l + 1)).

(** The digit of the low four bits, with letters from [base]. *)
Definition hex_digit (tmp base : Z) : Z := if 10 <=? tmp then tmp - 10 + base else tmp + 48.

Definition hex_nibbles : list Z := [28; 24; 20; 16; 12; 8; 4].

Fixpoint hex_loop (str integer : Z) (nibs : list Z) (nozeros : bool) : M bmem unit :=
  match nibs with
  | [] => mret tt
  | i :: nibs' =>
    let tmp := Z.land (Z.shiftr integer i) 15 in
    if (tmp =? 0) && nozeros then hex_loop str integer nibs' nozeros
    else _ ← append str (hex_digit tmp 65); hex_loop str integer nibs' false
  end.

Definition hex_to_ascii (integer str : Z) : M bmem unit :=
  _ ← store8 str 0;
  _ ← append str 48;
  _ ← append str 120;
  _ ← hex_loop str integer hex_nibbles true;
  _ ← append str (hex_digit (Z.land integer 15) 65);
  mret tt.

Fixpoint hex_loop_no_Ox (str integer : Z) (nibs : list Z) : M bmem unit :=
  match nibs with
  | [] => mret tt
  | i :: nibs' =>
    _ ← append str (hex_digit (Z.land (Z.shiftr integer i) 15) 97);
    hex_loop_no_Ox str integer nibs'
  end.

Definition hex_to_ascii_no_Ox (integer str : Z) : M bmem unit :=
  _ ← store8 str 0;
  _ ← hex_loop_no_Ox str integer hex_nibbles;
  _ ← append str (hex_digit (Z.land integer 15) 97);
  mret tt.

Definition find (str character : Z) : M bmem Z :=
  l ← strlen str;
  loop (S (Z.to_nat l)) (λ i,
    if i <? l then
      c ← load8 (str + i);
      if s8 c =? character then mret (inr (s32 i)) else mret (inl (i + 1))
    else mret (inr (-1))) 0.

(** The digits of a 32-bit int, least significant first: at most 10. *)
Definition int_to_string (n str : Z) : M bmem unit :=
  let sign := n in
  let n := if sign <? 0 then s32 (- n) else n in
  i ← loop 12 (λ '(n, i),
    _ ← store8 (str + i) (Z.rem n 10 + 48);
    let n' := Z.quot n 10 in
    if 0 <? n' then mret (inl (n', i + 1)) else mret (inr (i + 1))) (n, 0);
  i ← (if sign <? 0 then _ ← store8 (str + i) 45; mret (i + 1) else mret i);
  _ ← store8 (str + i) 0;
  reverse str.

Definition strcmp (x y : Z) : M bmem Z :=
  i ← scan (λ i,
    a ← load8 (x + i);
    if a =? 0 then mret (inr i)
    else
      b ← load8 (y + i);
      if a =? b then mret (inl (i + 1)) else mret (inr i)) 0;
  a ← load8 (x + i);
  b ← load8 (y + i);
  mret (a - b).

Definition strchr (str c : Z) : M bmem Z :=
  scan (λ p,
    b ← load8 p;
    if b =? 0 then mret (inr 0)
    else if s8 b =? c then mret (inr p)
    else mret (inl (p + 1))) str.

Definition strchr_r (str c : Z) : M bmem Z :=
  l ← strlen str;
  loop (S (S (Z.to_nat l))) (λ i,
    if 0 <=? i then
      b ← load8 (str + i);
      if s8 b =? c then mret (inr (str + i)) else mret (inl (i - 1))
    else mret (inr 0)) l.

Definition strcpy_s (dest str max : Z) : M bmem Z :=
  scan (λ i,
    c ← load8 (str + i);
    if c =? 0 then
      _ ← store8 (dest + i) 0;
      mret (inr i)
    else if i =? max then mret (inr i)
    else
      _ ← store8 (dest + i) c;
      mret (inl (i + 1))) 0.

(** Copy up to and with the terminator; the address of the copied terminator. *)
Definition copy_string (dest src : Z) : M bmem Z :=
  scan (λ i,
    c ← load8 (src + i);
    if c =? 0 then
      _ ← store8 (dest + i) 0;
      mret (inr (dest + i))
    else
      _ ← store8 (dest + i) c;
      mret (inl (i + 1))) 0.

Definition strcpy (dest src : Z) : M bmem Z := copy_string dest src.

Definition strcat (buf str : Z) : M bmem Z :=
  l ← strlen buf;
  copy_string (buf + l) str.

Definition strrchr (str chr : Z) : M bmem Z :=
  scan (λ '(i, last),
    l ← strlen str;
    if i <? l then
      c ← load8 (str + i);
      mret (inl (i + 1, if s8 c =? chr then str + i else last))
    else mret (inr last)) (0, 0).

(** ** stdlib.c *)

Definition atoi (str : Z) : M bmem Z :=
  scan (λ '(p, num),
    c ← load8 p;
    if c =? 0 then mret (inr num)
    else if (57 <? s8 c) || (s8 c <? 48) then mret (inr num)
    else mret (inl (p + 1, s32 (s32 (num * 10) + (s8 c - 48))))) (str, 0).

Definition itoa (num str max : Z) : M bmem Z :=
  i ← loop 12 (λ '(num, i),
    _ ← store8 (str + i) (48 + Z.rem num 10);
    let num' := Z.quot num 10 in
    if (0 <? num') && (i + 1 <? max) then mret (inl (num', i + 1))
    else mret (inr (i + 1))) (num, 0);
  _ ← store8 (str + i) 0;
  _ ← reverse str;
  mret str.

(** ** stdio.c *)

Definition readline (data dataend buf size : Z) : M bmem Z :=
  r ← loop (S (S (Z.to_nat size))) (λ i,
    if i <? s32 (size - 1) then
      if i =? dataend then mret (inr None)
      else
        c ← load8 (data + i);
        _ ← store8 (buf + i) c;
        if c =? 10 then mret (inr (Some (i + 1))) else mret (inl (i + 1))
    else mret (inr (Some i))) 0;
  match r with
  | None => mret (-1)
  | Some i => _ ← store8 (buf + i) 0; mret i
  end.

(** ** math.c: integers *)

Definition flip (n : Z) : Z := s32 (- n).

Definition abs (n : Z) : Z := if n <? 0 then s32 (- n) else n.

Fixpoint pow_loop (n : nat) (x r : Z) : Z :=
  match n with O => r | S n' => pow_loop n' x (s32 (r * x)) end.

Definition pow (x n : Z) : Z := pow_loop (Z.to_nat (n - 1)) x x.

(** Division by zero is a CPU exception. *)
Definition roundup (x y : Z) : option Z :=
  if y =? 0 then None
  else if Z.rem x y =? 0 then Some (s32 (Z.quot x y))
  else Some (s32 (Z.quot x y + 1)).

(** ** Memory contents *)

Definition is_byte (b : Z) : Prop := 0 ≤ b < 256.

Definition bytes_at (m : bmem) (p : Z) (bs : list Z) : Prop :=
  ∀ i b, bs !! i = Some b → m !! (p + Z.of_nat i) = Some b.

Definition mapped (m : bmem) (p n : Z) : Prop := ∀ q, p ≤ q < p + n → is_Some (m !! q).

(** The memory after the bytes [bs] are written at [p]. *)
Fixpoint write_at (m : bmem) (p : Z) (bs : list Z) : bmem :=
  match bs with
  | [] => m
  | b :: bs' => <[p := b]> (write_at m (p + 1) bs')
  end.

Lemma write_at_out m p bs q :
  ¬ p ≤ q < p + Z.of_nat (length bs) → write_at m p bs !! q = m !! q.
Proof.
  revert p. induction bs as [|b bs IH]; intros p Hq; simpl in *; [done|].
  rewrite lookup_insert_ne by lia. apply IH. lia.
Qed.

Lemma write_at_in m p bs : bytes_at (write_at m p bs) p bs.
Proof.
  revert p. induction bs as [|b bs IH]; intros p i c Hi; [done|].
  destruct i as [|i]; simpl in *.
  - rewrite Z.add_0_r, lookup_insert_eq. done.
  - rewrite lookup_insert_ne by lia. replace (p + Z.of_nat (S i)) with (p + 1 + Z.of_nat i) by lia.
    by apply IH.
Qed.

Lemma write_at_app m p bs cs :
  write_at m p (bs ++ cs) = write_at (write_at m (p + Z.of_nat (length bs)) cs) p bs.
Proof.
  revert p. induction bs as [|b bs IH]; intros p; simpl; [by rewrite Z.add_0_r|].
  rewrite IH. do 2 f_equal. f_equal. lia.
Qed.

Lemma write_at_snoc m p bs b :
  write_at m p (bs ++ [b]) = <[p + Z.of_nat (length bs) := b]> (write_at m p bs).
Proof.
  revert p. induction bs as [|c bs IH]; intros p; simpl; [by rewrite Z.add_0_r|].
  rewrite IH, insert_insert_ne by lia.
  by replace (p + Z.of_nat (S (length bs))) with (p + 1 + Z.of_nat (length bs)) by lia.
Qed.

(** Writing a block after another. *)
Lemma write_at_app_l m p bs cs :
  write_at (write_at m p bs) (p + Z.of_nat (length bs)) cs = write_at m p (bs ++ cs).
Proof.
  induction cs as [|c cs IH] using rev_ind; [by rewrite app_nil_r|].
  rewrite write_at_snoc, IH, app_assoc, write_at_snoc, length_app.
  f_equal. lia.
Qed.

Lemma write_at_cons m p b bs : write_at (<[p := b]> m) (p + 1) bs = write_at m p (b :: bs).
Proof. apply (write_at_app_l m p [b] bs). Qed.

Lemma mapped_insert m p n q b : mapped m p n → mapped (<[q := b]> m) p n.
Proof.
  intros Hm r Hr. destruct (decide (r = q)) as [->|].
  - rewrite lookup_insert_eq. by eexists.
  - rewrite lookup_insert_ne by done. by apply Hm.
Qed.

Lemma mapped_write m p n q bs : mapped m p n → mapped (write_at m q bs) p n.
Proof.
  revert q. induction bs as [|b bs IH]; intros q Hm; simpl; [done|]. by apply mapped_insert, IH.
Qed.

Lemma bytes_at_mapped m p bs : bytes_at m p bs → mapped m p (Z.of_nat (length bs)).
Proof.
  intros Hb q Hq. destruct (lookup_lt_is_Some_2 bs (Z.to_nat (q - p))) as [b Hi]; [lia|].
  exists b. rewrite <- (Hb _ _ Hi). f_equal. lia.
Qed.

Lemma write_at_mapped m p bs : mapped (write_at m p bs) p (Z.of_nat (length bs)).
Proof. apply bytes_at_mapped, write_at_in. Qed.

Lemma write_at_lookup m p bs q :
  write_at m p bs !! q = if decide (p ≤ q < p + Z.of_nat (length bs)) then bs !! Z.to_nat (q - p) else m !! q.
Proof.
  destruct (decide _) as [Hin|Hout]; [|by apply write_at_out].
  destruct (lookup_lt_is_Some_2 bs (Z.to_nat (q - p))) as [b Hb]; [lia|]. rewrite Hb.
  pose proof (write_at_in m p bs _ _ Hb) as Hw. by replace (p + Z.of_nat (Z.to_nat (q - p))) with q in Hw by lia.
Qed.

Lemma bytes_at_app m p bs cs :
  bytes_at m p (bs ++ cs) ↔ bytes_at m p bs ∧ bytes_at m (p + Z.of_nat (length bs)) cs.
Proof.
  split.
  - intros H. split; intros i b Hi.
    + apply H. by apply lookup_app_l_Some.
    + rewrite <- Z.add_assoc, <- Nat2Z.inj_add. apply H.
      rewrite lookup_app_r by lia. by replace (length bs + i - length bs)%nat with i by lia.
  - intros [H1 H2] i b Hi. apply lookup_app_Some in Hi as [Hi|[Hl Hi]]; [by apply H1|].
    replace (p + Z.of_nat i) with (p + Z.of_nat (length bs) + Z.of_nat (i - length bs)) by lia.
    by apply H2.
Qed.

Lemma bytes_at_frame m m' p bs :
  (∀ q, p ≤ q < p + Z.of_nat (length bs) → m' !! q = m !! q) →
  bytes_at m p bs → bytes_at m' p bs.
Proof.
  intros Hf Hb i b Hi. rewrite Hf; [by apply Hb|].
  pose proof (lookup_lt_Some _ _ _ Hi). lia.
Qed.

Lemma run_load8 m p b : m !! p = Some b → load8 p m = Ok (b, m).
Proof. intros H. unfold load8. by rewrite H. Qed.

Lemma run_store8 m p b : is_Some (m !! p) → store8 p b m = Ok (tt, <[p := u8 b]> m).
Proof. intros [c H]. unfold store8. by rewrite H. Qed.

Lemma wp_load8 p b (Q : Z → bmem → Prop) m : m !! p = Some b → Q b m → wp (load8 p) Q m.
Proof. intros H HQ. eapply run_wp; [by apply run_load8|done]. Qed.

Lemma wp_store8 p b (Q : unit → bmem → Prop) m :
  is_Some (m !! p) → Q tt (<[p := u8 b]> m) → wp (store8 p b) Q m.
Proof. intros H HQ. eapply run_wp; [by apply run_store8|done]. Qed.

Fixpoint store_bytes (p : Z) (bs : list Z) : M bmem unit :=
  match bs with
  | [] => mret tt
  | b :: bs' => _ ← store8 p b; store_bytes (p + 1) bs'
  end.

Lemma store_bytes_run bs : ∀ m p,
  mapped m p (Z.of_nat (length bs)) → Forall is_byte bs →
  store_bytes p bs m = Ok (tt, write_at m p bs).
Proof.
  induction bs as [|b bs IH]; intros m p Hm Hb; [done|]. inversion Hb; subst. simpl.
  erewrite bind_ok by (apply run_store8, Hm; simpl; lia). rewrite u8_small by done.
  rewrite IH; [|apply mapped_insert; intros q Hq; apply Hm; simpl; lia|done].
  by rewrite write_at_cons.
Qed.

(** The bytes from [p] on. *)
Fixpoint load_bytes (n : nat) (p : Z) : M bmem (list Z) :=
  match n with
  | O => mret []
  | S n => b ← load8 p; bs ← load_bytes n (p + 1); mret (b :: bs)
  end.

Lemma load_bytes_run m bs : ∀ p, bytes_at m p bs → load_bytes (length bs) p m = Ok (bs, m).
Proof.
  induction bs as [|b bs IH]; intros p Hb; [done|]. cbn [length load_bytes].
  rewrite (bind_ok _ _ _ b m) by (apply run_load8; rewrite <- (Z.add_0_r p); exact (Hb 0%nat b eq_refl)).
  change (b :: bs) with ([b] ++ bs) in Hb. apply bytes_at_app in Hb as [_ Hb]. by rewrite (bind_ok _ _ _ _ _ (IH _ Hb)).
Qed.

(** The [n] bytes that are at [p] in [m]. *)
Definition block (m : bmem) (p : Z) (n : nat) : list Z := (λ i, default 0 (m !! (p + Z.of_nat i))) <$> seq 0 n.

Lemma block_length m p n : length (block m p n) = n.
Proof. unfold block. by rewrite length_fmap, length_seq. Qed.

Lemma block_lookup m p n i : (i < n)%nat → block m p n !! i = Some (default 0 (m !! (p + Z.of_nat i))).
Proof. intros Hi. unfold block. by rewrite list_lookup_fmap, lookup_seq_lt. Qed.

Lemma block_at m p n : mapped m p (Z.of_nat n) → bytes_at m p (block m p n).
Proof.
  intros Hm i b Hi. pose proof (lookup_lt_Some _ _ _ Hi) as Hl. rewrite block_length in Hl.
  rewrite block_lookup in Hi by done. injection Hi as <-. destruct (Hm (p + Z.of_nat i)) as [b Hb]; [lia|]. by rewrite Hb.
Qed.

(** ** Fields of a byte sequence *)

Definition byte_at (bs : list Z) (k : Z) : Z := default 0 (bs !! Z.to_nat k).
Definition u16_at (bs : list Z) (k : Z) : Z := byte_at bs k + 256 * byte_at bs (k + 1).
Definition u32_at (bs : list Z) (k : Z) : Z :=
  byte_at bs k + 256 * byte_at bs (k + 1) + 65536 * byte_at bs (k + 2)
  + 16777216 * byte_at bs (k + 3).

Lemma load8_at m p bs k : bytes_at m p bs → 0 ≤ k < Z.of_nat (length bs) →
  load8 (p + k) m = Ok (byte_at bs k, m).
Proof.
  intros Hb Hk. apply run_load8. unfold byte_at.
  destruct (lookup_lt_is_Some_2 bs (Z.to_nat k)) as [b E]; [lia|]. rewrite E. simpl.
  rewrite <- (Hb _ _ E). f_equal. lia.
Qed.

Lemma load16_at m p bs k : bytes_at m p bs → 0 ≤ k → k + 2 ≤ Z.of_nat (length bs) →
  load16 (p + k) m = Ok (u16_at bs k, m).
Proof.
  intros Hb Hk Hl. unfold load16. erewrite bind_ok by (apply (load8_at m p bs); [done|lia]).
  rewrite <- Z.add_assoc. by erewrite bind_ok by (apply (load8_at m p bs); [done|lia]).
Qed.

Lemma load32_at m p bs k : bytes_at m p bs → 0 ≤ k → k + 4 ≤ Z.of_nat (length bs) →
  load32 (p + k) m = Ok (u32_at bs k, m).
Proof.
  intros Hb Hk Hl. unfold load32. rewrite <- !Z.add_assoc.
  do 4 erewrite bind_ok by (apply (load8_at m p bs); [done|lia]). done.
Qed.

Lemma byte_at_range bs k : Forall is_byte bs → is_byte (byte_at bs k).
Proof.
  intros Hb. unfold byte_at. destruct (bs !! Z.to_nat k) eqn:E; simpl; [|by split].
  by eapply Forall_lookup_1 in Hb.
Qed.

Lemma u16_at_range bs k : Forall is_byte bs → 0 ≤ u16_at bs k < 65536.
Proof.
  intros Hb. unfold u16_at. pose proof (byte_at_range bs k Hb).
  pose proof (byte_at_range bs (k + 1) Hb). unfold is_byte in *. lia.
Qed.

Lemma u32_at_range bs k : Forall is_byte bs → 0 ≤ u32_at bs k < 4294967296.
Proof.
  intros Hb. unfold u32_at. pose proof (byte_at_range bs k Hb).
  pose proof (byte_at_range bs (k + 1) Hb). pose proof (byte_at_range bs (k + 2) Hb).
  pose proof (byte_at_range bs (k + 3) Hb). unfold is_byte in *. lia.
Qed.

Lemma store16_run m q w : mapped m q 2 → store16 q w m = Ok (tt, write_at m q [u8 w; u8 (w / 256)]).
Proof.
  intros Hq. unfold store16. rewrite (bind_ok _ _ _ _ _ (run_store8 m q w ltac:(apply Hq; lia))).
  rewrite run_store8; [by rewrite <- !write_at_cons|]. apply lookup_insert_is_Some'. right. apply Hq. lia.
Qed.

(** The bytes of a 32-bit word. *)
Definition bytes32 (w : Z) : list Z := [u8 w; u8 (w / 256); u8 (w / 65536); u8 (w / 16777216)].

Lemma store32_run m q w : mapped m q 4 → store32 q w m = Ok (tt, write_at m q (bytes32 w)).
Proof.
  intros Hq. unfold store32.
  rewrite (bind_ok _ _ _ _ _ (run_store8 m q w ltac:(apply Hq; lia))).
  erewrite bind_ok. 2: { apply run_store8. apply lookup_insert_is_Some'. right. apply Hq. lia. }
  erewrite bind_ok.
  2: { apply run_store8. apply lookup_insert_is_Some'. right. apply lookup_insert_is_Some'. right. apply Hq. lia. }
  rewrite run_store8.
  2: { do 3 (apply lookup_insert_is_Some'; right). apply Hq. lia. }
  unfold bytes32. do 2 f_equal. rewrite <- !write_at_cons. simpl.
  by replace (q + 1 + 1) with (q + 2) by lia; replace (q + 2 + 1) with (q + 3) by lia.
Qed.

Lemma u32_bytes w : 0 ≤ w < 4294967296 →
  u8 w + 256 * u8 (w / 256) + 65536 * u8 (w / 65536) + 16777216 * u8 (w / 16777216) = w.
Proof. intros Hw. unfold u8. Z.to_euclidean_division_equations. lia. Qed.

Lemma bytes32_bytes w : Forall is_byte (bytes32 w).
Proof. repeat constructor; by apply Z.mod_pos_bound. Qed.

Lemma load32_word m p w : bytes_at m p (bytes32 w) → 0 ≤ w < 4294967296 → load32 p m = Ok (w, m).
Proof.
  intros Hb Hw. rewrite <- (Z.add_0_r p). rewrite (load32_at m p (bytes32 w) 0) by (done || simpl; lia).
  do 2 f_equal. unfold u32_at, byte_at. simpl. by apply u32_bytes.
Qed.

Lemma wp_for_up (P : Z → bmem → Prop) body (Q : unit → bmem → Prop) n i m :
  P i m →
  (∀ j m', i ≤ j < i + Z.of_nat n → P j m' → wp (body j) (λ _ m'', P (j + 1) m'') m') →
  (∀ m', P (i + Z.of_nat n) m' → Q tt m') → wp (for_up n i body) Q m.
Proof.
  revert i m. induction n as [|n IH]; intros i m HP Hbody HQ; simpl.
  - apply wp_ret. apply HQ. by rewrite Z.add_0_r.
  - wp_step. eapply wp_mono; [apply Hbody; [lia|done]|]. intros [] m' HP'.
    apply IH; [done|..].
    + intros j m'' Hj. apply Hbody. lia.
    + intros m'' HP''. apply HQ. by replace (i + Z.of_nat (S n)) with (i + 1 + Z.of_nat n) by lia.
Qed.

Lemma split_word b0 b1 b2 b3 :
  is_byte b0 → is_byte b1 → is_byte b2 → is_byte b3 →
  let w := b0 + 256 * b1 + 65536 * b2 + 16777216 * b3 in
  u8 w = b0 ∧ u8 (w / 256) = b1 ∧ u8 (w / 65536) = b2 ∧ u8 (w / 16777216) = b3.
Proof. unfold is_byte, u8. cbv zeta. intros. Z.div_mod_to_equations. lia. Qed.

(** Copying one word moves its four bytes. *)
Lemma copy_word_spec m p q b0 b1 b2 b3 :
  bytes_at m p [b0; b1; b2; b3] → Forall is_byte [b0; b1; b2; b3] → mapped m q 4 →
  wp (w ← load32 p; store32 q w)
     (λ _ m', m' = write_at m q [b0; b1; b2; b3]) m.
Proof.
  intros Hb Hby Hq. rewrite !Forall_cons in Hby. destruct Hby as (B0 & B1 & B2 & B3 & _).
  destruct (split_word b0 b1 b2 b3 B0 B1 B2 B3) as (W0 & W1 & W2 & W3).
  assert (H0 := Hb 0%nat b0 eq_refl). assert (H1 := Hb 1%nat b1 eq_refl).
  assert (H2 := Hb 2%nat b2 eq_refl). assert (H3 := Hb 3%nat b3 eq_refl).
  rewrite Z.add_0_r in H0. unfold load32, store32. wp_step.
  wp_step. eapply wp_load8; [exact H0|]. wp_step. eapply wp_load8; [exact H1|].
  wp_step. eapply wp_load8; [exact H2|]. wp_step. eapply wp_load8; [exact H3|]. wp_step.
  assert (Hm : ∀ m' k, mapped m' q 4 → 0 ≤ k < 4 → is_Some (m' !! (q + k))).
  { intros m' k Hm' Hk. apply Hm'. lia. }
  rewrite <- (Z.add_0_r q) at 1. wp_step. apply wp_store8; [by apply Hm|].
  wp_step. apply wp_store8; [apply Hm; [by apply mapped_insert|lia]|].
  wp_step. apply wp_store8; [apply Hm; [by do 2 apply mapped_insert|lia]|].
  apply wp_store8; [apply Hm; [by do 3 apply mapped_insert|lia]|]. rewrite Z.add_0_r.
  rewrite W0, W1, W2, W3. simpl. replace (q + 1 + 1) with (q + 2) by lia.
  replace (q + 2 + 1) with (q + 3) by lia.
  apply map_eq. intros r. rewrite !lookup_insert. repeat case_decide; done || lia.
Qed.

(** ** memcpy, memmove, memset *)

Lemma take_word (bs : list Z) k :
  (4 * k + 4 ≤ length bs)%nat →
  ∃ b0 b1 b2 b3, take (4 * k + 4) bs = take (4 * k) bs ++ [b0; b1; b2; b3] ∧
    bs = take (4 * k) bs ++ [b0; b1; b2; b3] ++ drop (4 * k + 4) bs.
Proof.
  intros Hk. assert (Hl : length (take 4 (drop (4 * k) bs)) = 4%nat).
  { rewrite length_take, length_drop. lia. }
  destruct (take 4 (drop (4 * k) bs)) as [|b0 [|b1 [|b2 [|b3 [|]]]]] eqn:Ht; try done.
  exists b0, b1, b2, b3.
  assert (He : take (4 * k + 4) bs = take (4 * k) bs ++ [b0; b1; b2; b3]).
  { rewrite <- Ht. by rewrite take_take_drop. }
  split; [done|]. rewrite app_assoc, <- He. by rewrite take_drop.
Qed.

Lemma take_byte (bs : list Z) k : (k < length bs)%nat →
  ∃ b, bs !! k = Some b ∧ take (k + 1) bs = take k bs ++ [b].
Proof.
  intros Hk. destruct (lookup_lt_is_Some_2 bs k Hk) as [b Hb]. exists b. split; [done|].
  rewrite Nat.add_1_r. by apply take_S_r.
Qed.

(** Copying up, as long as no source byte has been overwritten. *)
Lemma copy_up_byte m dst src bs k :
  bytes_at m src bs → mapped m dst (Z.of_nat (length bs)) → Forall is_byte bs →
  (k < length bs)%nat → ¬ dst ≤ src + Z.of_nat k < dst + Z.of_nat k →
  wp (b ← load8 (src + Z.of_nat k); store8 (dst + Z.of_nat k) b)
     (λ _ m', m' = write_at m dst (take (k + 1) bs)) (write_at m dst (take k bs)).
Proof.
  intros Hb Hm Hby Hk Hd. destruct (take_byte bs k Hk) as (b & Hi & Ht).
  assert (Hlen : length (take k bs) = k) by (rewrite length_take; lia).
  wp_step. eapply wp_load8.
  { rewrite write_at_out by (rewrite Hlen; lia). by apply Hb. }
  apply wp_store8; [apply (mapped_write _ dst (Z.of_nat (length bs))); [done|lia]|].
  rewrite Ht, write_at_snoc, Hlen. rewrite Forall_lookup in Hby.
  by rewrite u8_small by by eapply Hby.
Qed.

(** The word loop copies a multiple of four bytes. *)
Lemma copy_words m dst src bs k :
  bytes_at m src bs → mapped m dst (Z.of_nat (length bs)) → Forall is_byte bs →
  (dst + Z.of_nat (length bs) ≤ src ∨ src + Z.of_nat (length bs) ≤ dst) →
  (4 * k ≤ length bs)%nat →
  wp (for_up k 0 (λ i, w ← load32 (src + 4 * i); store32 (dst + 4 * i) w))
     (λ _ m', m' = write_at m dst (take (4 * k) bs)) m.
Proof.
  intros Hb Hm Hby Hd Hk.
  apply (wp_for_up (λ i m', m' = write_at m dst (take (4 * Z.to_nat i) bs))); [done| |].
  2: { intros m' ->. by rewrite Z.add_0_l, Nat2Z.id. }
  intros j m' Hj ->. set (i := Z.to_nat j).
  destruct (take_word bs i) as (b0 & b1 & b2 & b3 & Ht & Hbs); [lia|].
  assert (Hl : length (take (4 * i) bs) = (4 * i)%nat) by (rewrite length_take; lia).
  replace (src + 4 * j) with (src + Z.of_nat (4 * i)) by lia.
  replace (dst + 4 * j) with (dst + Z.of_nat (4 * i)) by lia.
  eapply wp_mono.
  { apply (copy_word_spec _ _ _ b0 b1 b2 b3).
    - apply (bytes_at_frame m); [intros x Hx; apply write_at_out; rewrite Hl; simpl in Hx; lia|].
      rewrite Hbs in Hb. apply bytes_at_app in Hb as [_ Hb]. rewrite Hl in Hb.
      by apply bytes_at_app in Hb as [Hb _].
    - rewrite Hbs in Hby. apply Forall_app in Hby as [_ Hby]. by apply Forall_app in Hby as [Hby _].
    - intros x Hx. apply (mapped_write m dst (Z.of_nat (length bs))); [done|lia]. }
  intros [] m' ->. replace (4 * Z.to_nat (j + 1))%nat with (4 * i + 4)%nat by lia.
  rewrite Ht, <- write_at_app_l. by rewrite Hl.
Qed.

Lemma memcpy_run m dst src bs :
  bytes_at m src bs → mapped m dst (Z.of_nat (length bs)) → Forall is_byte bs →
  (dst + Z.of_nat (length bs) ≤ src ∨ src + Z.of_nat (length bs) ≤ dst) →
  memcpy dst src (Z.of_nat (length bs)) m = Ok (dst, write_at m dst bs).
Proof.
  intros Hb Hm Hby Hd. set (n := length bs) in *.
  assert (Hq : (4 * (n / 4) ≤ n)%nat) by (apply Nat.Div0.mul_div_le).
  assert (Hr : n = (4 * (n / 4) + n mod 4)%nat) by (apply Nat.div_mod; lia).
  assert (Hw : wp (memcpy dst src (Z.of_nat n)) (λ r m', r = dst ∧ m' = write_at m dst bs) m).
  { unfold memcpy. change 4 with (Z.of_nat 4). rewrite <- Nat2Z.inj_div, <- Nat2Z.inj_mod, !Nat2Z.id.
    wp_step. eapply wp_mono; [by apply (copy_words m dst src bs (n / 4))|]. intros [] m1 ->.
    wp_step. apply (wp_for_up (λ i m', m' = write_at m dst (take (4 * (n / 4) + Z.to_nat i) bs))).
    - by rewrite Nat.add_0_r.
    - intros j m' Hj ->. set (k := (4 * (n / 4) + Z.to_nat j)%nat).
      replace (src + Z.of_nat (n / 4) * Z.of_nat 4 + j) with (src + Z.of_nat k) by lia.
      replace (dst + Z.of_nat (n / 4) * Z.of_nat 4 + j) with (dst + Z.of_nat k) by lia.
      replace (4 * (n / 4) + Z.to_nat (j + 1))%nat with (k + 1)%nat by lia.
      apply copy_up_byte; try done; fold n; lia.
    - intros m' ->. wp_step. split; [done|]. rewrite Z.add_0_l, Nat2Z.id, <- Hr.
      subst n. by rewrite firstn_all. }
  by destruct (wp_run _ _ _ Hw) as (r & m' & -> & -> & ->).
Qed.

Lemma copy_down_spec m dst src bs k :
  bytes_at m src bs → mapped m dst (Z.of_nat (length bs)) → Forall is_byte bs → src ≤ dst →
  (k ≤ length bs)%nat →
  wp (copy_down k dst src) (λ _ m', m' = write_at m dst bs)
     (write_at m (dst + Z.of_nat k) (drop k bs)).
Proof.
  intros Hb Hm Hby Hd. induction k as [|k IH]; intros Hk; simpl.
  { wp_step. by rewrite Z.add_0_r. }
  destruct (lookup_lt_is_Some_2 bs k) as [b Hi]; [lia|].
  wp_step. eapply wp_load8; [rewrite write_at_out by lia; by apply Hb|].
  wp_step. apply wp_store8; [apply (mapped_write _ dst (Z.of_nat (length bs))); [done|lia]|].
  rewrite Forall_lookup in Hby. rewrite u8_small by by eapply Hby.
  replace (<[dst + Z.of_nat k := b]> (write_at m (dst + Z.of_nat (S k)) (drop (S k) bs)))
    with (write_at m (dst + Z.of_nat k) (drop k bs)); [by apply IH; [..|lia]|].
  rewrite (drop_S _ _ _ Hi). simpl. by replace (dst + Z.of_nat k + 1) with (dst + Z.of_nat (S k)) by lia.
Qed.

Lemma memmove_run m dst src bs :
  bytes_at m src bs → mapped m dst (Z.of_nat (length bs)) → Forall is_byte bs →
  memmove dst src (Z.of_nat (length bs)) m = Ok (dst, write_at m dst bs).
Proof.
  intros Hb Hm Hby.
  assert (Hw : wp (memmove dst src (Z.of_nat (length bs))) (λ r m', r = dst ∧ m' = write_at m dst bs) m).
  { unfold memmove. rewrite Nat2Z.id. wp_step. destruct (Z.ltb_spec dst src).
    - apply (wp_for_up (λ i m', m' = write_at m dst (take (Z.to_nat i) bs))); [done| |].
      + intros j m' Hj ->. replace (Z.to_nat (j + 1)) with (Z.to_nat j + 1)%nat by lia.
        pose proof (copy_up_byte m dst src bs (Z.to_nat j) Hb Hm Hby ltac:(lia) ltac:(lia)) as Hc.
        by rewrite Z2Nat.id in Hc by lia.
      + intros m' ->. wp_step. rewrite Z.add_0_l, Nat2Z.id. by rewrite firstn_all.
    - eapply wp_mono.
      + pose proof (copy_down_spec m dst src bs (length bs) Hb Hm Hby ltac:(lia) ltac:(lia)) as H0.
        rewrite drop_all in H0. exact H0.
      + intros [] m' ->. by wp_step. }
  by destruct (wp_run _ _ _ Hw) as (r & m' & -> & -> & ->).
Qed.

Lemma memset_run m dst value n :
  mapped m dst (Z.of_nat n) → value ≠ 0 →
  memset dst value (Z.of_nat n) m = Ok (dst, write_at m dst (replicate n (u8 value))).
Proof.
  intros Hm Hv.
  assert (Hw : wp (memset dst value (Z.of_nat n))
    (λ r m', r = dst ∧ m' = write_at m dst (replicate n (u8 value))) m).
  { unfold memset. destruct (Z.eqb_spec value 0); [done|]. rewrite Nat2Z.id. wp_step.
    apply (wp_for_up (λ i m', m' = write_at m dst (replicate (Z.to_nat i) (u8 value)))); [done| |].
    - intros j m' Hj ->. apply wp_store8; [apply (mapped_write _ dst (Z.of_nat n)); [done|lia]|].
      replace (Z.to_nat (j + 1)) with (Z.to_nat j + 1)%nat by lia.
      rewrite replicate_add. simpl (replicate 1 _). rewrite write_at_snoc, length_replicate. by rewrite Z2Nat.id by lia.
    - intros m' ->. wp_step. by rewrite Z.add_0_l, Nat2Z.id. }
  by destruct (wp_run _ _ _ Hw) as (r & m' & -> & -> & ->).
Qed.

Lemma store32_zero m q : mapped m q 4 →
  wp (store32 q 0) (λ _ m', m' = write_at m q [0; 0; 0; 0]) m.
Proof.
  intros Hq. unfold store32. rewrite !Z.div_0_l by lia.
  assert (Hm : ∀ m' k, mapped m' q 4 → 0 ≤ k < 4 → is_Some (m' !! (q + k))).
  { intros m' k Hm' Hk. apply Hm'. lia. }
  rewrite <- (Z.add_0_r q) at 1. wp_step. apply wp_store8; [by apply Hm|].
  wp_step. apply wp_store8; [apply Hm; [by apply mapped_insert|lia]|].
  wp_step. apply wp_store8; [apply Hm; [by do 2 apply mapped_insert|lia]|].
  apply wp_store8; [apply Hm; [by do 3 apply mapped_insert|lia]|]. rewrite Z.add_0_r. simpl.
  change (u8 0) with 0. apply map_eq. intros r. rewrite !lookup_insert. repeat case_decide; done || lia.
Qed.

Lemma memset_zero_run m dst n :
  mapped m dst (Z.of_nat n) →
  memset dst 0 (Z.of_nat n) m = Ok (dst, write_at m dst (replicate (4 * (n / 4)) 0)).
Proof.
  intros Hm. assert (Hq : (4 * (n / 4) ≤ n)%nat) by (apply Nat.Div0.mul_div_le).
  assert (Hw : wp (memset dst 0 (Z.of_nat n))
    (λ r m', r = dst ∧ m' = write_at m dst (replicate (4 * (n / 4)) 0)) m).
  { unfold memset. simpl. change 4 with (Z.of_nat 4) at 1. rewrite <- Nat2Z.inj_div, Nat2Z.id. wp_step.
    apply (wp_for_up (λ i m', m' = write_at m dst (replicate (4 * Z.to_nat i) 0))); [done| |].
    - intros j m' Hj ->. eapply wp_mono.
      { apply store32_zero. intros x Hx. apply (mapped_write _ dst (Z.of_nat n)); [done|lia]. }
      intros [] m' ->. replace (4 * Z.to_nat (j + 1))%nat with (4 * Z.to_nat j + 4)%nat by lia.
      rewrite replicate_add, <- write_at_app_l, length_replicate.
      by replace (Z.of_nat (4 * Z.to_nat j)) with (4 * j) by lia.
    - intros m' ->. wp_step. by rewrite Z.add_0_l, Nat2Z.id. }
  by destruct (wp_run _ _ _ Hw) as (r & m' & -> & -> & ->).
Qed.

(** ** Strings *)

Definition is_char (c : Z) : Prop := 0 < c < 256.

Definition cstr (m : bmem) (p : Z) (s : list Z) : Prop :=
  bytes_at m p (s ++ [0]) ∧ Forall is_char s.

Lemma bytes_at_size m p bs : bytes_at m p bs → (length bs ≤ size m)%nat.
Proof.
  intros Hb. set (ps := (λ i, p + Z.of_nat i) <$> seq 0 (length bs)).
  assert (Hnd : NoDup ps) by (apply NoDup_fmap_2; [intros ?? ?; lia|apply NoDup_seq]).
  replace (length bs) with (length ps) by (unfold ps; by rewrite length_fmap, length_seq).
  rewrite <- (size_list_to_set (C := gset Z)) by done. rewrite <- (size_dom m).
  apply subseteq_size. intros q Hq. rewrite elem_of_list_to_set in Hq. apply elem_of_dom.
  apply list_elem_of_fmap in Hq as (i & -> & Hi). apply elem_of_seq in Hi.
  destruct (lookup_lt_is_Some_2 bs i) as [b Hbi]; [lia|]. exists b. by apply Hb.
Qed.

Lemma cstr_fuel m p s : cstr m p s → (length s < mem_fuel m)%nat.
Proof.
  intros [Hb _]. pose proof (bytes_at_size _ _ _ Hb) as H. rewrite length_app in H. simpl in H.
  unfold mem_fuel. lia.
Qed.

Lemma cstr_char m p s i c : cstr m p s → s !! i = Some c →
  m !! (p + Z.of_nat i) = Some c ∧ 0 < c < 256.
Proof.
  intros [Hb Hs] Hi. split; [apply Hb; by apply lookup_app_l_Some|].
  rewrite Forall_lookup in Hs. by eapply Hs.
Qed.

Lemma cstr_end m p s : cstr m p s → m !! (p + Z.of_nat (length s)) = Some 0.
Proof. intros [Hb _]. apply Hb. by rewrite lookup_app_r, Nat.sub_diag by lia. Qed.

(** A scan that stops at the terminator at the latest. *)
Lemma wp_scan {A R} (body : A → M bmem (A + R)) (I : nat → A → bmem → Prop)
    (Q : R → bmem → Prop) n a m :
  (∀ n a m, I n a m →
     wp (body a) (λ r m', match r with
                          | inl a' => ∃ k, (k < n)%nat ∧ I k a' m'
                          | inr x => Q x m'
                          end) m) →
  I n a m → (n < mem_fuel m)%nat → wp (scan body a) Q m.
Proof. intros Hb HI Hn. unfold scan. do 2 wp_step. by eapply wp_loop. Qed.

Lemma strlen_run m p s : cstr m p s → p ≠ 0 → strlen p m = Ok (Z.of_nat (length s), m).
Proof.
  intros Hs Hp.
  assert (Hw : wp (strlen p) (λ r m', r = Z.of_nat (length s) ∧ m' = m) m).
  { unfold strlen. destruct (Z.eqb_spec p 0); [done|].
    apply (wp_scan _ (λ n len m', m' = m ∧ ∃ i, len = Z.of_nat i ∧ (i + n = length s)%nat)
      _ (length s)).
    - intros n0 len m' (-> & i & -> & Hi). wp_step. destruct n0 as [|n0].
      + replace i with (length s) by lia. eapply wp_load8; [by apply cstr_end|]. by apply wp_ret.
      + destruct (lookup_lt_is_Some_2 s i) as [c Hc]; [lia|].
        destruct (cstr_char _ _ _ _ _ Hs Hc) as [Hm Hr]. eapply wp_load8; [exact Hm|].
        destruct (Z.eqb_spec c 0); [lia|]. wp_step. exists n0. split; [lia|]. split; [done|].
        exists (S i). lia.
    - split; [done|]. by exists 0%nat.
    - by apply (cstr_fuel m p). }
  by destruct (wp_run _ _ _ Hw) as (r & m' & -> & -> & ->).
Qed.

(** *** reverse *)

Notation lrev := list.reverse.

(** The byte at [k] when the outer [i] bytes on both sides are swapped. *)
Definition swapped (s : list Z) (i k : nat) : option Z :=
  if decide ((k < i)%nat ∨ (length s - i ≤ k)%nat) then lrev s !! k else s !! k.

Definition swap_state (m : bmem) (p : Z) (s : list Z) (i : nat) (m' : bmem) : Prop :=
  (∀ k, (k < length s)%nat → m' !! (p + Z.of_nat k) = swapped s i k) ∧
  (∀ q, ¬ p ≤ q < p + Z.of_nat (length s) → m' !! q = m !! q).

Lemma lrev_lookup (s : list Z) k : (k < length s)%nat → lrev s !! k = s !! (length s - S k)%nat.
Proof. apply reverse_lookup. Qed.

(** One exchange of the loop. *)
Lemma swap_step m p s i m' :
  swap_state m p s i m' → Forall is_char s → (2 * i + 1 < length s)%nat →
  wp (b ← load8 (p + Z.of_nat i);
      c ← load8 (p + Z.of_nat (length s - S i));
      _ ← store8 (p + Z.of_nat i) c;
      store8 (p + Z.of_nat (length s - S i)) b)
     (λ _ m'', swap_state m p s (S i) m'') m'.
Proof.
  intros [Hin Hout] Hs Hi. set (j := (length s - S i)%nat).
  destruct (lookup_lt_is_Some_2 s i) as [b Hb]; [lia|].
  destruct (lookup_lt_is_Some_2 s j) as [c Hc]; [lia|].
  assert (Hmi : m' !! (p + Z.of_nat i) = Some b).
  { rewrite Hin by lia. unfold swapped. rewrite decide_False by lia. done. }
  assert (Hmj : m' !! (p + Z.of_nat j) = Some c).
  { rewrite Hin by lia. unfold swapped. rewrite decide_False by lia. done. }
  rewrite Forall_lookup in Hs. pose proof (Hs _ _ Hb). pose proof (Hs _ _ Hc). unfold is_char in *.
  wp_step. eapply wp_load8; [done|]. wp_step. eapply wp_load8; [done|].
  wp_step. apply wp_store8; [by eexists|]. apply wp_store8.
  { rewrite lookup_insert_ne by lia. by eexists. }
  rewrite !u8_small by lia. split.
  - intros k Hk. unfold swapped in *. destruct (decide (k = j)) as [->|Hkj].
    { rewrite lookup_insert_eq, decide_True by lia. rewrite lrev_lookup by lia.
      by replace (length s - S j)%nat with i by lia. }
    rewrite lookup_insert_ne by lia. destruct (decide (k = i)) as [->|Hki].
    { rewrite lookup_insert_eq, decide_True by lia. by rewrite lrev_lookup by lia. }
    rewrite lookup_insert_ne by lia. rewrite Hin by done.
    destruct (decide ((k < i)%nat ∨ (length s - i ≤ k)%nat)) as [Hd|Hd].
    + by rewrite decide_True by lia.
    + by rewrite decide_False by lia.
  - intros q Hq. rewrite !lookup_insert_ne by lia. by apply Hout.
Qed.

Lemma swap_state_done m p s i m' :
  swap_state m p s i m' → (length s ≤ 2 * i + 1)%nat → (2 * i ≤ length s)%nat →
  m' = write_at m p (lrev s).
Proof.
  intros [Hin Hout] Hi Hi'. apply map_eq. intros q.
  destruct (decide (p ≤ q < p + Z.of_nat (length s))) as [Hq|Hq].
  - set (k := Z.to_nat (q - p)). replace q with (p + Z.of_nat k) by lia.
    rewrite Hin by lia.
    assert (Hs : swapped s i k = lrev s !! k).
    { unfold swapped. destruct (decide _); [done|]. rewrite lrev_lookup by lia. f_equal. lia. }
    rewrite Hs. destruct (lookup_lt_is_Some_2 (lrev s) k) as [c Hc]; [rewrite length_reverse; lia|].
    rewrite Hc. symmetry. by apply write_at_in.
  - rewrite Hout by done. symmetry. apply write_at_out. by rewrite length_reverse.
Qed.

Lemma reverse_run m p s : cstr m p s → p ≠ 0 → reverse p m = Ok (tt, write_at m p (lrev s)).
Proof.
  intros Hs Hp.
  assert (Hw : wp (reverse p) (λ _ m', m' = write_at m p (lrev s)) m).
  { unfold reverse. wp_step. eapply run_wp; [by apply strlen_run|].
    apply (wp_scan _ (λ n '(x, y) m', ∃ i, x = Z.of_nat i ∧ y = Z.of_nat (length s) - 1 - x ∧
      (n + i = length s)%nat ∧ (2 * i ≤ length s)%nat ∧ swap_state m p s i m') _ (length s)).
    - intros n [x y] m' (i & -> & -> & Hn & Hi & Hst).
      destruct (Z.ltb_spec (Z.of_nat i) (Z.of_nat (length s) - 1 - Z.of_nat i)) as [Hlt|Hge].
      2: { wp_step. eapply swap_state_done; [done|lia|lia]. }
      replace (Z.of_nat (length s) - 1 - Z.of_nat i) with (Z.of_nat (length s - S i)) by lia.
      destruct (wp_run _ _ _ (swap_step m p s i m' Hst (proj2 Hs) ltac:(lia))) as ([] & m2 & Hrun & Hst').
      unfold wp. unfold mbind, M_bind in Hrun |- *.
      destruct (load8 (p + Z.of_nat i) m') as [[b m3]| |]; [|done..].
      destruct (load8 _ m3) as [[c m4]| |]; [|done..].
      destruct (store8 _ c m4) as [[[] m5]| |]; [|done..]. rewrite Hrun.
      exists (n - 1)%nat. split; [lia|]. exists (S i). split_and!; try lia. done.
    - exists 0%nat. split_and!; try lia. split; [|done].
      intros k Hk. unfold swapped. rewrite decide_False by lia.
      destruct (lookup_lt_is_Some_2 s k Hk) as [c Hc]. rewrite Hc.
      by destruct (cstr_char _ _ _ _ _ Hs Hc).
    - by eapply cstr_fuel. }
  by destruct (wp_run _ _ _ Hw) as ([] & m' & -> & ->).
Qed.

(** *** Decimal numbers *)

(** The decimal digits of [n], least significant first, as characters. *)
Fixpoint lsd (fuel : nat) (n : Z) : list Z :=
  match fuel with
  | O => []
  | S f => (n mod 10 + 48) :: (if 0 <? n / 10 then lsd f (n / 10) else [])
  end.

Definition is_digit (c : Z) : Prop := 48 ≤ c ≤ 57.

#[export] Instance is_digit_dec c : Decision (is_digit c).
Proof. unfold is_digit. apply _. Defined.

Fixpoint digits_value (acc : Z) (ds : list Z) : Z :=
  match ds with
  | [] => acc
  | d :: ds' => digits_value (acc * 10 + (d - 48)) ds'
  end.

Lemma digits_value_snoc acc ds d :
  digits_value acc (ds ++ [d]) = digits_value acc ds * 10 + (d - 48).
Proof. revert acc. induction ds as [|e ds IH]; intros acc; simpl; [done|]. apply IH. Qed.

Lemma digits_value_ge acc ds : Forall is_digit ds → 0 ≤ acc → acc ≤ digits_value acc ds.
Proof.
  intros Hds. revert acc. induction Hds as [|d ds Hd _ IH]; intros acc Ha; simpl; [lia|].
  unfold is_digit in Hd. etransitivity; [|apply IH; lia]. lia.
Qed.

Lemma lsd_digits fuel n : 0 ≤ n → Forall is_digit (lsd fuel n).
Proof.
  revert n. induction fuel as [|f IH]; intros n Hn; simpl; [constructor|].
  pose proof (Z.mod_pos_bound n 10). constructor; [unfold is_digit; lia|].
  destruct (Z.ltb_spec 0 (n / 10)); [apply IH; lia|constructor].
Qed.

Lemma lsd_length fuel n : (length (lsd fuel n) ≤ fuel)%nat.
Proof.
  revert n. induction fuel as [|f IH]; intros n; simpl; [lia|].
  destruct (0 <? n / 10); simpl; [specialize (IH (n / 10))|]; lia.
Qed.

Lemma lsd_value fuel n :
  0 ≤ n < 10 ^ Z.of_nat fuel → (0 < fuel)%nat → digits_value 0 (lrev (lsd fuel n)) = n.
Proof.
  revert n. induction fuel as [|f IH]; intros n Hn Hf; [lia|]. simpl.
  rewrite reverse_cons, digits_value_snoc. pose proof (Z.div_mod n 10 ltac:(lia)).
  destruct (Z.ltb_spec 0 (n / 10)) as [Hlt|Hge].
  - rewrite IH; [lia| |].
    + split; [lia|]. apply Z.div_lt_upper_bound; [lia|].
      rewrite Nat2Z.inj_succ, Z.pow_succ_r in Hn by lia. lia.
    + destruct f; [|lia]. rewrite Nat2Z.inj_succ in Hn. simpl in Hn.
      change (10 ^ Z.succ 0) with 10 in Hn. rewrite Z.div_small in Hlt by lia. lia.
  - simpl. pose proof (Z.div_pos n 10). lia.
Qed.

Lemma digit_loop m str n i fuel :
  0 ≤ n < 10 ^ Z.of_nat fuel → 0 ≤ i → (0 < fuel)%nat →
  mapped m (str + i) (Z.of_nat (length (lsd fuel n))) →
  loop fuel (λ '(n, i),
    _ ← store8 (str + i) (Z.rem n 10 + 48);
    let n' := Z.quot n 10 in
    if 0 <? n' then mret (inl (n', i + 1)) else mret (inr (i + 1))) (n, i) m =
  Ok (i + Z.of_nat (length (lsd fuel n)), write_at m (str + i) (lsd fuel n)).
Proof.
  revert n i m. induction fuel as [|f IH]; intros n i m Hn Hi Hf Hm; [lia|].
  cbn [loop]. unfold mbind at 1, M_bind at 1. simpl in Hm.
  pose proof (Z.mod_pos_bound n 10 ltac:(lia)).
  rewrite (bind_ok _ _ m tt (<[str + i := u8 (Z.rem n 10 + 48)]> m)).
  2: { apply run_store8. apply Hm. lia. }
  rewrite Z.rem_mod_nonneg, Z.quot_div_nonneg by lia. rewrite u8_small by lia.
  cbn [lsd]. destruct (Z.ltb_spec 0 (n / 10)) as [Hlt|Hge].
  - simpl. etransitivity; [apply IH|].
    + split; [lia|]. apply Z.div_lt_upper_bound; [lia|].
      rewrite Nat2Z.inj_succ, Z.pow_succ_r in Hn by lia. lia.
    + lia.
    + destruct f; [|lia]. rewrite Nat2Z.inj_succ in Hn. simpl in Hn.
      change (10 ^ Z.succ 0) with 10 in Hn. rewrite Z.div_small in Hlt by lia. lia.
    + apply mapped_insert. intros q Hq. apply Hm. simpl. lia.
    + f_equal. f_equal; [lia|].
      change (<[str + i := n mod 10 + 48]> m) with (write_at m (str + i) [n mod 10 + 48]).
      replace (str + (i + 1)) with (str + i + Z.of_nat (length [n mod 10 + 48])) by (simpl; lia).
      by rewrite write_at_app_l.
  - simpl. done.
Qed.

Lemma lsd_short fuel k n :
  0 ≤ n < 10 ^ Z.of_nat k → (0 < k)%nat → (length (lsd fuel n) ≤ k)%nat.
Proof.
  revert k n. induction fuel as [|f IH]; intros k n Hn Hk; simpl; [lia|].
  destruct (Z.ltb_spec 0 (n / 10)) as [Hlt|]; simpl; [|lia].
  destruct k as [|k]; [lia|]. rewrite Nat2Z.inj_succ, Z.pow_succ_r in Hn by lia.
  assert (0 < k)%nat.
  { destruct k; [|lia]. simpl in Hn. rewrite Z.div_small in Hlt by lia. lia. }
  specialize (IH k (n / 10)). apply le_n_S, IH; [|done].
  split; [lia|]. apply Z.div_lt_upper_bound; lia.
Qed.

Lemma digits_cstr m p ds :
  Forall is_digit ds → bytes_at m p (ds ++ [0]) → cstr m p ds.
Proof.
  intros Hd Hb. split; [done|]. eapply Forall_impl; [done|]. unfold is_digit, is_char. lia.
Qed.

(** [int_to_string] of a non-negative int writes its decimal digits. *)
Lemma int_to_string_run m str n :
  0 ≤ n < 2147483648 → str ≠ 0 → mapped m str 11 →
  ∃ m', int_to_string n str m = Ok (tt, m') ∧ cstr m' str (lrev (lsd 12 n)) ∧
    ∀ q, ¬ str ≤ q < str + 11 → m' !! q = m !! q.
Proof.
  intros Hn Hs Hm. set (ds := lsd 12 n).
  assert (Hlen : (length ds ≤ 10)%nat) by (apply lsd_short; [split; [lia|]; simpl; lia|lia]).
  assert (Hd : Forall is_digit ds) by (apply lsd_digits; lia).
  set (m1 := write_at m str ds). set (m2 := write_at m str (ds ++ [0])).
  assert (Hc : cstr m2 str ds) by (apply digits_cstr; [done|apply write_at_in]).
  exists (write_at m2 str (lrev ds)). split_and!.
  - unfold int_to_string. destruct (Z.ltb_spec n 0); [lia|].
    rewrite (bind_ok _ _ m (Z.of_nat (length ds)) m1).
    2: { pose proof (digit_loop m str n 0 12) as Hl. rewrite Z.add_0_r in Hl.
         apply Hl; [split; [lia|]; simpl; lia|lia|lia|]. intros q Hq. apply Hm. fold ds in Hq. lia. }
    rewrite (bind_ok _ _ m1 (Z.of_nat (length ds)) m1) by done.
    rewrite (bind_ok _ _ m1 tt m2).
    2: { rewrite run_store8; [unfold m2; by rewrite write_at_snoc|].
         apply (mapped_write _ str 11); [done|lia]. }
    by apply reverse_run.
  - apply digits_cstr.
    { rewrite reverse_Permutation. done. }
    apply bytes_at_app. split; [apply write_at_in|]. rewrite length_reverse.
    apply (bytes_at_frame m2).
    + intros q Hq. apply write_at_out. rewrite length_reverse. change (length [0]) with 1%nat in Hq. lia.
    + by destruct Hc as [[_ Hz]%bytes_at_app _].
  - intros q Hq. rewrite write_at_out by (rewrite length_reverse; lia).
    apply write_at_out. rewrite length_app. change (length [0]) with 1%nat. lia.
Qed.

Lemma atoi_digits m p ds :
  cstr m p ds → Forall is_digit ds → digits_value 0 ds < 2147483648 →
  atoi p m = Ok (digits_value 0 ds, m).
Proof.
  intros Hs Hd Hv.
  assert (Hw : wp (atoi p) (λ r m', r = digits_value 0 ds ∧ m' = m) m).
  { unfold atoi. apply (wp_scan _ (λ n '(q, num) m', m' = m ∧ ∃ i, q = p + Z.of_nat i ∧
      (i + n = length ds)%nat ∧ 0 ≤ num ∧ digits_value num (drop i ds) = digits_value 0 ds)
      _ (length ds)).
    - intros n [q num] m' (-> & i & -> & Hi & Hnum & Hval). wp_step. destruct n as [|n].
      { replace i with (length ds) by lia. eapply wp_load8; [by apply cstr_end|]. apply wp_ret.
        rewrite drop_ge in Hval by lia. done. }
      destruct (lookup_lt_is_Some_2 ds i) as [c Hc]; [lia|].
      destruct (cstr_char _ _ _ _ _ Hs Hc) as [Hm Hr]. eapply wp_load8; [exact Hm|].
      rewrite Forall_lookup in Hd. pose proof (Hd _ _ Hc) as Hdc. unfold is_digit in Hdc.
      unfold s8. destruct (Z.ltb_spec c 128); [|lia].
      destruct (Z.eqb_spec c 0); [lia|]. destruct (Z.ltb_spec 57 c), (Z.ltb_spec c 48); try lia. simpl.
      rewrite (drop_S _ _ _ Hc) in Hval. simpl in Hval.
      assert (num * 10 + (c - 48) < 2147483648).
      { eapply Z.le_lt_trans; [|exact Hv]. rewrite <- Hval. apply digits_value_ge; [|lia].
        apply Forall_drop. by apply Forall_lookup. }
      apply wp_ret. exists n. split; [lia|]. split; [done|]. exists (S i).
      rewrite !s32_small by (rewrite ?s32_small by lia; lia). by split_and!; try lia.
    - split; [done|]. exists 0%nat. by split_and!; try lia.
    - by eapply cstr_fuel. }
  by destruct (wp_run _ _ _ Hw) as (r & m' & -> & -> & ->).
Qed.

(** *** Comparing and copying *)

(** The first position where two strings differ, terminators included. *)
Lemma strcmp_loop m x y s t :
  cstr m x s → cstr m y t →
  wp (strcmp x y)
     (λ r m', m' = m ∧ ∃ i a b, take i (s ++ [0]) = take i (t ++ [0]) ∧
        (s ++ [0]) !! i = Some a ∧ (t ++ [0]) !! i = Some b ∧ r = a - b ∧
        (a = b → a = 0)) m.
Proof.
  intros Hs Ht. unfold strcmp. wp_step.
  apply (wp_scan _ (λ n z m', m' = m ∧ ∃ i, z = Z.of_nat i ∧ (i + n = length s)%nat ∧
    take i s = take i t ∧ (i ≤ length t)%nat) _ (length s)).
  2: { split; [done|]. exists 0%nat. split_and!; try done; lia. }
  2: { by eapply cstr_fuel. }
  intros n z m' (-> & i & -> & Hi & Htk & Hti).
  destruct (lookup_lt_is_Some_2 (s ++ [0]) i) as [a Ha]; [rewrite length_app; simpl; lia|].
  destruct (lookup_lt_is_Some_2 (t ++ [0]) i) as [b Hb]; [rewrite length_app; simpl; lia|].
  pose proof (proj1 Hs _ _ Ha) as Hma. pose proof (proj1 Ht _ _ Hb) as Hmb.
  assert (Hend : a = b → a = 0 → True) by done.
  assert (Htk' : take i (s ++ [0]) = take i (t ++ [0])).
  { rewrite !take_app_le by lia. done. }
  wp_step. eapply wp_load8; [exact Hma|]. destruct (Z.eqb_spec a 0) as [->|Ha0].
  { wp_step. wp_step. eapply wp_load8; [exact Hma|]. wp_step. eapply wp_load8; [exact Hmb|].
    wp_step. split; [done|]. exists i, 0, b. by split_and!. }
  assert (Hlt : (i < length s)%nat).
  { destruct (decide (i = length s)) as [->|]; [|lia]. rewrite lookup_app_r, Nat.sub_diag in Ha by lia.
    simpl in Ha. congruence. }
  wp_step. eapply wp_load8; [exact Hmb|]. destruct (Z.eqb_spec a b) as [->|Hab].
  2: { wp_step. wp_step. eapply wp_load8; [exact Hma|]. wp_step. eapply wp_load8; [exact Hmb|].
       wp_step. split; [done|]. exists i, a, b. by split_and!. }
  assert (Hlt' : (i < length t)%nat).
  { destruct (decide (i = length t)) as [->|]; [|lia]. rewrite lookup_app_r, Nat.sub_diag in Hb by lia.
    simpl in Hb. congruence. }
  rewrite lookup_app_l in Ha, Hb by lia.
  wp_step. exists (n - 1)%nat. split; [lia|]. split; [done|]. exists (S i). split_and!; try lia.
  by rewrite (take_S_r _ _ _ Ha), (take_S_r _ _ _ Hb), Htk.
Qed.

Lemma strcmp_run m x y s t :
  cstr m x s → cstr m y t →
  ∃ r, strcmp x y m = Ok (r, m) ∧ (r = 0 ↔ s = t) ∧
    ∃ i a b, take i (s ++ [0]) = take i (t ++ [0]) ∧
      (s ++ [0]) !! i = Some a ∧ (t ++ [0]) !! i = Some b ∧ r = a - b.
Proof.
  intros Hs Ht.
  destruct (wp_run _ _ _ (strcmp_loop m x y s t Hs Ht)) as
    (r & m' & Hrun & -> & i & a & b & Htk & Ha & Hb & -> & Hab).
  exists (a - b). split; [done|]. split; [|by exists i, a, b].
  assert (Hend : ∀ u j, Forall is_char u → (u ++ [0]) !! j = Some 0 → j = length u).
  { intros u j Hu Hj. apply lookup_app_Some in Hj as [Hj|[Hl Hj]].
    - rewrite Forall_lookup in Hu. specialize (Hu _ _ Hj). unfold is_char in Hu. lia.
    - apply list_lookup_singleton_Some in Hj as [Hj _]. lia. }
  split.
  - intros Hz. assert (a = b) as -> by lia. rewrite (Hab eq_refl) in *.
    pose proof (Hend _ _ (proj2 Hs) Ha) as Hi. pose proof (Hend _ _ (proj2 Ht) Hb) as Hi'.
    rewrite !take_app_le in Htk by lia. rewrite Hi in Htk at 1. rewrite Hi' in Htk.
    by rewrite !firstn_all in Htk.
  - intros ->. rewrite Ha in Hb. injection Hb as ->. lia.
Qed.

Lemma copy_string_run m dst src s :
  cstr m src s → mapped m dst (Z.of_nat (length s) + 1) →
  (dst + Z.of_nat (length s) < src ∨ src + Z.of_nat (length s) < dst) →
  copy_string dst src m = Ok (dst + Z.of_nat (length s), write_at m dst (s ++ [0])).
Proof.
  intros Hs Hm Hd.
  assert (Hw : wp (copy_string dst src)
    (λ r m', r = dst + Z.of_nat (length s) ∧ m' = write_at m dst (s ++ [0])) m).
  { unfold copy_string.
    apply (wp_scan _ (λ n z m', ∃ i, z = Z.of_nat i ∧ (i + n = length s)%nat ∧
      m' = write_at m dst (take i s)) _ (length s)).
    2: { exists 0%nat. by split_and!. }
    2: { by eapply cstr_fuel. }
    intros n z m' (i & -> & Hi & ->).
    assert (Hl : length (take i s) = i) by (rewrite length_take; lia).
    assert (Hsrc : ∀ c, (s ++ [0]) !! i = Some c →
      write_at m dst (take i s) !! (src + Z.of_nat i) = Some c).
    { intros c Hc. rewrite write_at_out by (rewrite Hl; lia). by apply (proj1 Hs). }
    assert (Hdst : is_Some (write_at m dst (take i s) !! (dst + Z.of_nat i))).
    { apply (mapped_write _ dst (Z.of_nat (length s) + 1)); [done|lia]. }
    destruct n as [|n].
    - replace i with (length s) in * by lia. wp_step.
      eapply wp_load8; [apply Hsrc; by rewrite lookup_app_r, Nat.sub_diag by lia|]. simpl.
      wp_step. apply wp_store8; [done|]. wp_step. split; [done|]. rewrite write_at_snoc.
      rewrite firstn_all. done.
    - destruct (lookup_lt_is_Some_2 s i) as [c Hc]; [lia|].
      destruct (cstr_char _ _ _ _ _ Hs Hc) as [_ Hr]. wp_step.
      eapply wp_load8; [apply Hsrc; by apply lookup_app_l_Some|]. destruct (Z.eqb_spec c 0); [lia|].
      wp_step. apply wp_store8; [done|]. wp_step. exists n. split; [lia|]. exists (S i).
      split_and!; try lia. rewrite (take_S_r _ _ _ Hc), write_at_snoc, Hl, u8_small by lia. done. }
  by destruct (wp_run _ _ _ Hw) as (r & m' & -> & -> & ->).
Qed.

(** ** Theorems *)

Definition demo_mem : bmem := write_at ∅ 100 ([97; 98; 99; 0] ++ replicate 12 7).

Lemma demo_mapped p n : 100 ≤ p → p + n ≤ 116 → mapped demo_mem p n.
Proof.
  intros Hp Hn q Hq. apply (bytes_at_mapped demo_mem 100 _ (write_at_in ∅ 100 _)). simpl. lia.
Qed.

(** [memmove] is correct for every overlap: the destination ends up with the
    bytes the source had before the call, and no byte outside the destination
    changes. *)
Theorem memmove_correct m dst src bs :
  bytes_at m src bs → mapped m dst (Z.of_nat (length bs)) → Forall is_byte bs →
  ∃ m', memmove dst src (Z.of_nat (length bs)) m = Ok (dst, m') ∧ bytes_at m' dst bs ∧
    ∀ q, ¬ dst ≤ q < dst + Z.of_nat (length bs) → m' !! q = m !! q.
Proof.
  intros Hb Hm Hby. exists (write_at m dst bs). rewrite memmove_run by done.
  split_and!; [done|apply write_at_in|]. intros q Hq. by apply write_at_out.
Qed.

Lemma memmove_correct_witness :
  ∃ m', memmove 101 100 3 demo_mem = Ok (101, m') ∧ bytes_at m' 101 [97; 98; 99] ∧
    ∀ q, ¬ 101 ≤ q < 101 + 3 → m' !! q = demo_mem !! q.
Proof.
  apply (memmove_correct demo_mem 101 100 [97; 98; 99]).
  - intros i b Hi. do 3 (destruct i as [|i]; [simpl in Hi; injection Hi as <-; reflexivity|]). done.
  - apply demo_mapped; simpl; lia.
  - repeat constructor; unfold is_byte; lia.
Defined.

(** [memcpy], which copies 32-bit words and then the rest, is the byte-wise
    copy: on disjoint blocks it gives exactly what [memmove] gives. *)
Theorem memcpy_is_memmove m dst src bs :
  bytes_at m src bs → mapped m dst (Z.of_nat (length bs)) → Forall is_byte bs →
  (dst + Z.of_nat (length bs) ≤ src ∨ src + Z.of_nat (length bs) ≤ dst) →
  memcpy dst src (Z.of_nat (length bs)) m = memmove dst src (Z.of_nat (length bs)) m ∧
  memcpy dst src (Z.of_nat (length bs)) m = Ok (dst, write_at m dst bs).
Proof. intros Hb Hm Hby Hd. by rewrite memcpy_run, memmove_run. Qed.

Lemma memcpy_is_memmove_witness :
  memcpy 110 100 5 demo_mem = memmove 110 100 5 demo_mem ∧
  memcpy 110 100 5 demo_mem = Ok (110, write_at demo_mem 110 [97; 98; 99; 0; 7]).
Proof.
  apply (memcpy_is_memmove demo_mem 110 100 [97; 98; 99; 0; 7]).
  - intros i b Hi. do 5 (destruct i as [|i]; [simpl in Hi; injection Hi as <-; reflexivity|]). done.
  - apply demo_mapped; simpl; lia.
  - repeat constructor; unfold is_byte; lia.
  - simpl. lia.
Defined.

(** [memset] of zero clears whole words only: of [n] bytes the last [n mod 4]
    keep their values, where any other value fills all [n]. *)
Theorem memset_zero_tail m dst n :
  mapped m dst (Z.of_nat n) →
  ∃ m', memset dst 0 (Z.of_nat n) m = Ok (dst, m') ∧
    (∀ q, dst ≤ q < dst + Z.of_nat (4 * (n / 4)) → m' !! q = Some 0) ∧
    (∀ q, dst + Z.of_nat (4 * (n / 4)) ≤ q → m' !! q = m !! q) ∧
    (∀ v, u8 v ≠ 0 → memset dst v (Z.of_nat n) m =
                     Ok (dst, write_at m dst (replicate n (u8 v)))).
Proof.
  intros Hm. eexists. rewrite memset_zero_run by done. split_and!; [done|..].
  - intros q Hq. replace q with (dst + Z.of_nat (Z.to_nat (q - dst))) by lia.
    apply write_at_in. apply lookup_replicate. split; [done|]. lia.
  - intros q Hq. apply write_at_out. rewrite length_replicate. lia.
  - intros v Hv. apply memset_run; [done|]. by intros ->.
Qed.

Lemma memset_zero_tail_witness :
  ∃ m', memset 104 0 7 demo_mem = Ok (104, m') ∧
    (∀ q, 104 ≤ q < 104 + 4 → m' !! q = Some 0) ∧
    (∀ q, 104 + 4 ≤ q → m' !! q = demo_mem !! q) ∧
    (∀ v, u8 v ≠ 0 → memset 104 v 7 demo_mem = Ok (104, write_at demo_mem 104 (replicate 7 (u8 v)))).
Proof. apply (memset_zero_tail demo_mem 104 7). apply demo_mapped; simpl; lia. Defined.

(** Decimal round trip: [atoi] of what [int_to_string] wrote for a
    non-negative int is that int, and only the buffer changed. *)
Theorem int_to_string_atoi m str n :
  0 ≤ n < 2147483648 → str ≠ 0 → mapped m str 11 →
  ∃ m', int_to_string n str m = Ok (tt, m') ∧ atoi str m' = Ok (n, m') ∧
    ∀ q, ¬ str ≤ q < str + 11 → m' !! q = m !! q.
Proof.
  intros Hn Hs Hm. destruct (int_to_string_run m str n Hn Hs Hm) as (m' & Hrun & Hc & Hf).
  exists m'. split_and!; try done.
  assert (Hv : digits_value 0 (lrev (lsd 12 n)) = n) 
    by (apply lsd_value; [change (10 ^ Z.of_nat 12) with 1000000000000|]; lia).
  rewrite (atoi_digits m' str (lrev (lsd 12 n))); [by rewrite Hv|done| |rewrite Hv; lia].
  rewrite reverse_Permutation. apply lsd_digits. lia.
Qed.

Lemma int_to_string_atoi_witness :
  ∃ m', int_to_string 2026 104 demo_mem = Ok (tt, m') ∧ atoi 104 m' = Ok (2026, m') ∧
    ∀ q, ¬ 104 ≤ q < 104 + 11 → m' !! q = demo_mem !! q.
Proof. apply (int_to_string_atoi demo_mem 104 2026); [lia|lia|apply demo_mapped; lia]. Defined.

(** [strcmp] decides equality of strings: it returns 0 exactly when the two
    strings are the same, and otherwise has the sign of the first difference
    (bytes compared as unsigned). *)
Theorem strcmp_correct m x y s t :
  cstr m x s → cstr m y t →
  ∃ r, strcmp x y m = Ok (r, m) ∧ (r = 0 ↔ s = t) ∧
    ∃ i a b, take i (s ++ [0]) = take i (t ++ [0]) ∧
      (s ++ [0]) !! i = Some a ∧ (t ++ [0]) !! i = Some b ∧ r = a - b.
Proof. apply strcmp_run. Qed.

Lemma strcmp_correct_witness :
  ∃ r, strcmp 100 101 (write_at ∅ 100 [97; 98; 0]) = Ok (r, write_at ∅ 100 [97; 98; 0]) ∧
    (r = 0 ↔ [97; 98] = [98]) ∧
    ∃ i a b, take i ([97; 98] ++ [0]) = take i ([98] ++ [0]) ∧
      ([97; 98] ++ [0]) !! i = Some a ∧ ([98] ++ [0]) !! i = Some b ∧ r = a - b.
Proof.
  apply (strcmp_correct (write_at ∅ 100 [97; 98; 0]) 100 101 [97; 98] [98]).
  - split; [apply write_at_in|]. repeat constructor; unfold is_char; lia.
  - split; [|repeat constructor; unfold is_char; lia].
    intros i b Hi. do 2 (destruct i as [|i]; [simpl in Hi; injection Hi as <-; reflexivity|]). done.
Defined.
