(* ===== verification/FdTable.v ===== *)
(** * File descriptors (kernel/yanix/ds/fd_vector.c, kernel/fs/filedescriptor.c)

    A task's descriptors are a growable array.  The array is the list
    [vector_buffer], an index outside it is [Fault]; a [struct file_descriptor *]
    is its index.  A descriptor is open when its [node] is not NULL.  Whether
    [kmalloc] returns memory is the section variable [kmalloc_ok]: on the
    kernel's heap it always does or does not return at all. *)
From S2P Require Import Prelude LibK.

Record file_descriptor := FileDescriptor {
  fd_node : Z;
  fd_mode : Z;
  fd_flags : Z;
  fd_seek : Z;
  fd_lock_index : Z
}.

Definition zero_fd : file_descriptor := FileDescriptor 0 0 0 0 0.

Record vector := Vector {
  vector_buffer : list file_descriptor;
  vector_size : Z;
  vector_maxsize : Z
}.

Record file_lock := FileLock { fl_node : Z; fl_pid : Z }.

(** The current task's vector ([None]: there is no current task), the table of
    locked files and errno. *)
Record fdst := FdSt {
  task_fds : option vector;
  global_file_table : list file_lock;
  fds_errno : Z
}.

Definition VECTOR_BEGIN_AMOUNT : Z := 8.
Definition SIZEOF_FD : Z := 20.
Definition GLOBAL_FILE_TABLE_SIZE : Z := 1024.
Definition E_CLOEXEC : Z := 1.
Definition ENFILE : Z := 23.
Definition EBADFD : Z := 77.

(** ** fd_vector.c *)

Definition load_slot (i : Z) : M vector file_descriptor :=
  b ← get vector_buffer;
  if i <? 0 then fault else of_option (b !! Z.to_nat i).

Definition store_slot (i : Z) (fd : file_descriptor) : M vector unit :=
  _ ← load_slot i;
  modify (λ v, Vector (<[Z.to_nat i := fd]> (vector_buffer v)) (vector_size v) (vector_maxsize v)).

Definition set_vector_size (n : Z) : M vector unit :=
  modify (λ v, Vector (vector_buffer v) n (vector_maxsize v)).

Section vector.
Variable kmalloc_ok : Z → bool.

Definition vector_create : option vector :=
  if kmalloc_ok 12 && kmalloc_ok (SIZEOF_FD * VECTOR_BEGIN_AMOUNT) then
    Some (Vector (replicate (Z.to_nat VECTOR_BEGIN_AMOUNT) zero_fd) 0 VECTOR_BEGIN_AMOUNT)
  else None.

(** The copy has a buffer of its own. *)
Definition vector_copy (cp : vector) : option vector :=
  if kmalloc_ok 12 && kmalloc_ok (SIZEOF_FD * vector_maxsize cp) then
    Some (Vector (take (Z.to_nat (vector_maxsize cp)) (vector_buffer cp))
            (vector_size cp) (vector_maxsize cp))
  else None.

(** The new buffer is cleared, then the old entries are copied into it; the copy
    overruns it when it is the smaller one. *)
Definition vector_expand (amount : Z) : M vector Z :=
  v ← get id;
  let newsize := s32 (vector_maxsize v * amount) in
  if kmalloc_ok (u32 (SIZEOF_FD * newsize)) then
    if newsize <? vector_maxsize v then fault
    else
      _ ← modify (λ v, Vector
            (vector_buffer v ++ replicate (Z.to_nat (newsize - vector_maxsize v)) zero_fd)
            (vector_size v) newsize);
      mret 0
  else mret (-1).

Definition vector_push (fd : file_descriptor) : M vector Z :=
  v ← get id;
  r ← (if vector_size v =? vector_maxsize v then vector_expand 2 else mret 0);
  if r =? 0 then
    n ← get vector_size;
    _ ← set_vector_size (s32 (n + 1));
    _ ← store_slot n fd;
    n' ← get vector_size;
    mret (s32 (n' - 1))
  else mret (-1).

(** Index of the first closed slot from [i], below [limit]. *)
Definition first_closed (i limit : Z) : M vector (option Z) :=
  loop (S (Z.to_nat (limit - i))) (λ i,
    if i <? limit then
      d ← load_slot i;
      if fd_node d =? 0 then mret (inr (Some i)) else mret (inl (i + 1))
    else mret (inr None)) i.

Definition vector_add (fd : file_descriptor) : M vector Z :=
  n ← get vector_size;
  r ← first_closed 0 n;
  match r with
  | Some i => _ ← store_slot i fd; mret i
  | None => vector_push fd
  end.

Definition vector_clear (fd : Z) : M vector Z :=
  d ← load_slot fd;
  _ ← store_slot fd (FileDescriptor 0 (fd_mode d) (fd_flags d) (fd_seek d) (fd_lock_index d));
  mret 0.

Definition vector_get (fd : Z) : M vector (option Z) :=
  n ← get vector_size;
  mret (if fd <? n then Some fd else None).

Definition vector_get_node (node : Z) : M vector (option Z) :=
  if node =? 0 then mret None
  else
    n ← get vector_size;
    loop (S (Z.to_nat n)) (λ i,
      if i <? n then
        d ← load_slot i;
        if fd_node d =? node then mret (inr (Some i)) else mret (inl (i + 1))
      else mret (inr None)) 0.

Definition vector_add_from (fd : file_descriptor) (from : Z) : M vector Z :=
  m ← get vector_maxsize;
  _ ← (if m <? from then k ← of_option (roundup from m); vector_expand k else mret 0);
  m' ← get vector_maxsize;
  r ← first_closed from m';
  match r with
  | Some i =>
    n ← get vector_size;
    _ ← (if n <=? i then set_vector_size (i + 1) else mret tt);
    _ ← store_slot i fd;
    mret i
  | None => vector_push fd
  end.

Definition vector_set (obj : file_descriptor) (fd : Z) : M vector Z :=
  m ← get vector_maxsize;
  _ ← (if m <=? fd then k ← of_option (roundup fd m); vector_expand k else mret 0);
  n ← get vector_size;
  _ ← (if n <=? fd then set_vector_size (fd + 1) else mret tt);
  _ ← store_slot fd obj;
  mret fd.

(** ** filedescriptor.c *)

Definition fd_set_errno (e : Z) : M fdst unit :=
  modify (λ s, FdSt (task_fds s) (global_file_table s) e).

(** A computation on the current task's vector. *)
Definition on_vec {A} (c : M vector A) : M fdst A := λ s,
  match task_fds s with
  | None => Fault
  | Some v =>
    match c v with
    | Ok (a, v') => Ok (a, FdSt (Some v') (global_file_table s) (fds_errno s))
    | Fault => Fault
    | Hang => Hang
    end
  end.

Definition load_lock (i : Z) : M fdst file_lock :=
  t ← get global_file_table;
  if i <? 0 then fault else of_option (t !! Z.to_nat i).

Definition store_lock (i : Z) (l : file_lock) : M fdst unit :=
  _ ← load_lock i;
  modify (λ s, FdSt (task_fds s) (<[Z.to_nat i := l]> (global_file_table s)) (fds_errno s)).

Definition lock_file (node pid : Z) : M fdst Z :=
  r ← loop (S (Z.to_nat GLOBAL_FILE_TABLE_SIZE)) (λ i,
    if i <? GLOBAL_FILE_TABLE_SIZE then
      l ← load_lock i;
      if fl_node l =? 0 then mret (inr (Some i)) else mret (inl (i + 1))
    else mret (inr None)) 0;
  match r with
  | Some i => _ ← store_lock i (FileLock node pid); mret i
  | None => _ ← fd_set_errno ENFILE; mret (-1)
  end.

Definition find_locked_file (node : Z) : M fdst Z :=
  loop (S (Z.to_nat GLOBAL_FILE_TABLE_SIZE)) (λ i,
    if i <? GLOBAL_FILE_TABLE_SIZE then
      l ← load_lock i;
      if fl_node l =? node then mret (inr i) else mret (inl (i + 1))
    else mret (inr (-1))) 0.

Definition unlock_file (index : Z) : M fdst Z :=
  l ← load_lock index;
  _ ← store_lock index (FileLock 0 (fl_pid l));
  mret 0.

Definition register_filedescriptor (node flags mode lock_index : Z) : M fdst Z :=
  on_vec (vector_add (FileDescriptor node mode flags 0 lock_index)).

Definition get_filedescriptor (fd : Z) : M fdst (option Z) :=
  if fd <? 0 then _ ← fd_set_errno EBADFD; mret None
  else
    t ← get task_fds;
    match t with
    | Some _ => on_vec (vector_get fd)
    | None => _ ← fd_set_errno EBADFD; mret None
    end.

Definition get_filedescriptor_from_node (node : Z) : M fdst (option Z) :=
  t ← get task_fds;
  match t with
  | Some _ => on_vec (vector_get_node node)
  | None => _ ← fd_set_errno EBADFD; mret None
  end.

Definition get_filedescriptor_node (fd : Z) : M fdst Z :=
  r ← get_filedescriptor fd;
  match r with
  | None => mret 0
  | Some i => d ← on_vec (load_slot i); mret (fd_node d)
  end.

Definition close_filedescriptor (fd : Z) : M fdst Z :=
  r ← get_filedescriptor fd;
  match r with
  | None => mret 0
  | Some _ => _ ← on_vec (vector_clear fd); mret 0
  end.

Definition dup_filedescriptor (fd from : Z) : M fdst Z :=
  r ← get_filedescriptor fd;
  match r with
  | None => mret (-1)
  | Some i =>
    d ← on_vec (load_slot i);
    if fd_node d =? 0 then mret (-1)
    else if from =? -1 then on_vec (vector_add d)
    else on_vec (vector_add_from d from)
  end.

Definition setflags_filedescriptor (fd flags : Z) : M fdst Z :=
  r ← get_filedescriptor fd;
  match r with
  | None => mret (-1)
  | Some i =>
    d ← on_vec (load_slot i);
    _ ← on_vec (store_slot i
          (FileDescriptor (fd_node d) (fd_mode d) flags (fd_seek d) (fd_lock_index d)));
    mret 0
  end.

Definition check_filedescriptors : M fdst unit :=
  fds ← on_vec (get vector_size);
  loop (S (Z.to_nat fds)) (λ i,
    if i <? fds then
      r ← get_filedescriptor i;
      match r with
      | None => mret (inl (i + 1))
      | Some j =>
        d ← on_vec (load_slot j);
        if Z.land (fd_flags d) E_CLOEXEC =? 0 then mret (inl (i + 1))
        else _ ← close_filedescriptor i; mret (inl (i + 1))
      end
    else mret (inr tt)) 0.

(** [oldfd] is a pointer: the struct is read when it is passed to [vector_set],
    after [new] was closed. *)
Definition dup2_filedescriptor (old new : Z) : M fdst Z :=
  r ← get_filedescriptor old;
  match r with
  | None => mret (-1)
  | Some i =>
    d ← on_vec (load_slot i);
    if fd_node d =? 0 then mret (-1)
    else
      n ← get_filedescriptor new;
      _ ← match n with Some _ => close_filedescriptor new | None => mret 0 end;
      d' ← on_vec (load_slot i);
      on_vec (vector_set d' new)
  end.
End vector.

(** ** Well-formed vectors *)

Definition slot (v : vector) (i : Z) : option file_descriptor := vector_buffer v !! Z.to_nat i.

Definition open_at (v : vector) (i : Z) : Prop :=
  ∃ d, slot v i = Some d ∧ fd_node d ≠ 0 ∧ 0 ≤ i < vector_size v.

(** The buffer has [vector_maxsize] entries, of which the first [vector_size]
    are in use; the bound keeps the sizes below 2^31 when they double. *)
Record vec_ok (v : vector) : Prop := VecOk {
  vo_len : Z.of_nat (length (vector_buffer v)) = vector_maxsize v;
  vo_size : 0 ≤ vector_size v ≤ vector_maxsize v;
  vo_max : 0 < vector_maxsize v ≤ 1048576
}.

Lemma run_load_slot v i d : 0 ≤ i → slot v i = Some d → load_slot i v = Ok (d, v).
Proof.
  intros Hi Hd. unfold load_slot, slot, get, of_option, mbind, M_bind in *.
  destruct (Z.ltb_spec i 0); [lia|]. by rewrite Hd.
Qed.

Lemma run_store_slot v i fd : 0 ≤ i < Z.of_nat (length (vector_buffer v)) →
  store_slot i fd v =
    Ok (tt, Vector (<[Z.to_nat i := fd]> (vector_buffer v)) (vector_size v) (vector_maxsize v)).
Proof.
  intros Hi. destruct (lookup_lt_is_Some_2 (vector_buffer v) (Z.to_nat i)) as [d Hd]; [lia|].
  unfold store_slot. rewrite (bind_ok _ _ v d v); [done|]. apply run_load_slot; [lia|done].
Qed.

Lemma slot_some v i : vec_ok v → 0 ≤ i < vector_maxsize v → ∃ d, slot v i = Some d.
Proof.
  intros [Hl _ _] Hi. destruct (lookup_lt_is_Some_2 (vector_buffer v) (Z.to_nat i)) as [d Hd]; [lia|].
  by exists d.
Qed.

(** [v'] is [v] with [fd] at [i], grown if needed: no other slot of [v] changed. *)
Record put_at (v : vector) (i : Z) (fd : file_descriptor) (v' : vector) : Prop := PutAt {
  pa_slot : slot v' i = Some fd;
  pa_rest : ∀ k, 0 ≤ k < vector_maxsize v → k ≠ i → slot v' k = slot v k;
  pa_size : vector_size v' = Z.max (vector_size v) (i + 1);
  pa_max : vector_maxsize v ≤ vector_maxsize v';
  pa_len : Z.of_nat (length (vector_buffer v')) = vector_maxsize v';
  pa_in : 0 ≤ i < vector_maxsize v'
}.

Lemma put_at_insert v w i fd :
  vec_ok v → Z.of_nat (length (vector_buffer w)) = vector_maxsize w →
  vector_maxsize v ≤ vector_maxsize w →
  (∀ k, 0 ≤ k < vector_maxsize v → slot w k = slot v k) →
  vector_size w = Z.max (vector_size v) (i + 1) → 0 ≤ i < vector_maxsize w →
  put_at v i fd (Vector (<[Z.to_nat i := fd]> (vector_buffer w)) (vector_size w) (vector_maxsize w)).
Proof.
  intros [Hl Hs Hm] Hlw Hmw Hk Hsz Hi. split; simpl; try done.
  - unfold slot. simpl. apply list_lookup_insert_eq. lia.
  - intros k Hkr Hne. unfold slot. simpl. rewrite list_lookup_insert_ne by lia. by apply Hk.
  - by rewrite length_insert.
Qed.

Section vector_specs.
Variable kmalloc_ok : Z → bool.
Hypothesis Hmem : ∀ n, kmalloc_ok n = true.

Lemma first_closed_spec v i limit :
  vec_ok v → 0 ≤ i → limit ≤ vector_maxsize v →
  wp (first_closed i limit)
     (λ r v', v' = v ∧
        match r with
        | Some j => i ≤ j < limit ∧ (∃ d, slot v j = Some d ∧ fd_node d = 0) ∧
                    ∀ k, i ≤ k < j → ∃ d, slot v k = Some d ∧ fd_node d ≠ 0
        | None => ∀ k, i ≤ k < limit → ∃ d, slot v k = Some d ∧ fd_node d ≠ 0
        end) v.
Proof.
  intros Hok Hi Hlim. unfold first_closed.
  eapply (wp_loop _ (λ n j v', v' = v ∧ i ≤ j ∧ n = Z.to_nat (limit - j) ∧
    ∀ k, i ≤ k < j → ∃ d, slot v k = Some d ∧ fd_node d ≠ 0)).
  2: { split_and!; try done. intros; lia. }
  2: { lia. }
  intros n j v' (-> & Hj & -> & Hk). destruct (Z.ltb_spec j limit).
  2: { wp_step. split; [done|]. intros k Hk'. apply Hk. lia. }
  destruct (slot_some v j Hok) as [d Hd]; [lia|].
  wp_step. eapply run_wp; [apply run_load_slot; [lia|exact Hd]|].
  destruct (Z.eqb_spec (fd_node d) 0); wp_step.
  - split; [done|]. split_and!; try done. by exists d.
  - eexists. split; [|split_and!; [done|..]]; [|lia|reflexivity|]; [lia|].
    intros k Hk'. destruct (decide (k = j)) as [->|]; [by exists d|]. apply Hk. lia.
Qed.

Lemma vector_expand_spec v k :
  vec_ok v → 1 ≤ k → vector_maxsize v * k < 2147483648 →
  vector_expand kmalloc_ok k v =
    Ok (0, Vector (vector_buffer v ++
                   replicate (Z.to_nat (vector_maxsize v * k - vector_maxsize v)) zero_fd)
             (vector_size v) (vector_maxsize v * k)).
Proof.
  intros [Hl Hs Hm] Hk Hb. unfold vector_expand, id. rewrite (bind_ok _ _ v v v) by done.
  rewrite Hmem, s32_small by nia. destruct (Z.ltb_spec (vector_maxsize v * k) (vector_maxsize v)); [nia|].
  done.
Qed.

Lemma vector_push_spec v fd :
  vec_ok v →
  wp (vector_push kmalloc_ok fd) (λ i v', i = vector_size v ∧ put_at v i fd v') v.
Proof.
  intros Hok. pose proof Hok as [Hl Hs Hm]. unfold vector_push, id. do 2 wp_step.
  assert (Hpush : ∀ w, Z.of_nat (length (vector_buffer w)) = vector_maxsize w →
    vector_maxsize v ≤ vector_maxsize w ≤ 2097152 → vector_size w = vector_size v →
    vector_size v < vector_maxsize w →
    (∀ k, 0 ≤ k < vector_maxsize v → slot w k = slot v k) →
    wp (n ← get vector_size; _ ← set_vector_size (s32 (n + 1)); _ ← store_slot n fd;
        n' ← get vector_size; mret (s32 (n' - 1)))
       (λ i v', i = vector_size v ∧ put_at v i fd v') w).
  { intros w Hlw Hmw Hsw Hlt Hsl. do 3 wp_step. apply wp_modify. rewrite Hsw, s32_small by lia.
    wp_step. eapply run_wp; [apply run_store_slot; simpl; lia|]. do 3 wp_step. simpl.
    rewrite s32_small by lia. replace (vector_size v + 1 - 1) with (vector_size v) by lia.
    split; [done|].
    apply (put_at_insert v (Vector (vector_buffer w) (vector_size v + 1) (vector_maxsize w)));
      simpl; try done; lia. }
  wp_step. destruct (Z.eqb_spec (vector_size v) (vector_maxsize v)) as [He|He].
  - eapply run_wp; [apply vector_expand_spec; [done|lia|lia]|]. simpl.
    apply Hpush; simpl; try lia.
    + rewrite length_app, length_replicate. lia.
    + intros k Hk. unfold slot. simpl. apply lookup_app_l. lia.
  - wp_step. simpl. apply Hpush; try done; lia.
Qed.

(** The lowest closed slot, or the end. *)
Definition lowest_closed (v : vector) (i : Z) : Prop :=
  0 ≤ i ≤ vector_size v ∧ (∀ k, 0 ≤ k < i → open_at v k) ∧ ¬ open_at v i.

Lemma vector_add_spec v fd :
  vec_ok v →
  wp (vector_add kmalloc_ok fd) (λ i v', lowest_closed v i ∧ put_at v i fd v') v.
Proof.
  intros Hok. pose proof Hok as [Hl Hs Hm]. unfold vector_add. do 3 wp_step.
  eapply wp_mono; [apply first_closed_spec; [done|lia|lia]|].
  intros [j|] v' (-> & Hr).
  - destruct Hr as (Hj & (d & Hd & Hz) & Hk). wp_step.
    eapply run_wp; [apply run_store_slot; lia|]. wp_step. split.
    + split_and!; try lia.
      * intros k Hkj. destruct (Hk k Hkj) as (e & ? & ?). exists e. split_and!; try done; lia.
      * intros (e & He & Hne & _). congruence.
    + apply put_at_insert; try done; lia.
  - eapply wp_mono; [by apply vector_push_spec|]. intros i v' [-> Hp]. split; [|done].
    split_and!; try lia.
    + intros k Hkj. destruct (Hr k Hkj) as (e & ? & ?). exists e. split_and!; try done; lia.
    + intros (e & _ & _ & ?). lia.
Qed.

Lemma roundup_pos x y : 0 ≤ x < 2147483647 → 0 < y →
  roundup x y = Some (if x mod y =? 0 then x / y else x / y + 1).
Proof.
  intros Hx Hy. unfold roundup. destruct (Z.eqb_spec y 0); [lia|].
  rewrite Z.rem_mod_nonneg, Z.quot_div_nonneg by lia.
  assert (0 ≤ x / y ≤ x) by (split; [apply Z.div_pos; lia|apply Z.div_le_upper_bound; nia]).
  destruct (x mod y =? 0); by rewrite s32_small by lia.
Qed.

(** The size [vector_set] expands to for an index past the end: the next multiple
    of the old size above [fd], unless [fd] is one itself. *)
Definition room_for (v : vector) (fd : Z) : Prop :=
  0 ≤ fd ∧ (fd < vector_maxsize v ∨ fd mod vector_maxsize v ≠ 0) ∧ fd < 1048576.

Lemma vector_set_spec v obj fd :
  vec_ok v → room_for v fd →
  wp (vector_set kmalloc_ok obj fd) (λ r v', r = fd ∧ put_at v fd obj v') v.
Proof.
  intros Hok (Hf & Hroom & Hbig). pose proof Hok as [Hl Hs Hm]. unfold vector_set. do 2 wp_step.
  assert (Hput : ∀ w, Z.of_nat (length (vector_buffer w)) = vector_maxsize w →
    vector_maxsize v ≤ vector_maxsize w → vector_size w = vector_size v → fd < vector_maxsize w →
    (∀ k, 0 ≤ k < vector_maxsize v → slot w k = slot v k) →
    wp (n ← get vector_size;
        _ ← (if n <=? fd then set_vector_size (fd + 1) else mret tt);
        _ ← store_slot fd obj; mret fd) (λ r v', r = fd ∧ put_at v fd obj v') w).
  { intros w Hlw Hmw Hsw Hlt Hsl. do 2 wp_step. rewrite Hsw. wp_step.
    destruct (Z.leb_spec (vector_size v) fd).
    - apply wp_modify. wp_step. eapply run_wp; [apply run_store_slot; simpl; lia|]. wp_step.
      split; [done|].
      apply (put_at_insert v (Vector (vector_buffer w) (fd + 1) (vector_maxsize w))); simpl; try done; lia.
    - wp_step. wp_step. eapply run_wp; [apply run_store_slot; lia|]. wp_step. split; [done|].
      apply put_at_insert; try done; lia. }
  wp_step. destruct (Z.leb_spec (vector_maxsize v) fd) as [Hge|Hlt].
  - destruct Hroom as [?|Hmod]; [lia|]. wp_step. eapply wp_option; [apply roundup_pos; lia|].
    destruct (Z.eqb_spec (fd mod vector_maxsize v) 0); [done|].
    pose proof (Z.div_mod fd (vector_maxsize v) ltac:(lia)).
    pose proof (Z.mod_pos_bound fd (vector_maxsize v) ltac:(lia)).
    assert (1 ≤ fd / vector_maxsize v) by (apply Z.div_le_lower_bound; lia).
    eapply run_wp; [apply vector_expand_spec; [done|lia|nia]|].
    apply Hput; simpl; try nia.
    + rewrite length_app, length_replicate. nia.
    + intros k Hk. unfold slot. simpl. apply lookup_app_l. lia.
  - wp_step. by apply Hput.
Qed.

(** At a multiple of the size the buffer ends right before the slot. *)
Lemma vector_set_overrun_run v obj k :
  vec_ok v → 1 ≤ k → vector_maxsize v * k < 2147483647 →
  vector_set kmalloc_ok obj (vector_maxsize v * k) v = Fault.
Proof.
  intros Hok Hk Hb. pose proof Hok as [Hl Hs Hm]. unfold vector_set.
  rewrite (bind_ok _ _ v (vector_maxsize v) v) by done.
  destruct (Z.leb_spec (vector_maxsize v) (vector_maxsize v * k)); [|nia].
  rewrite (bind_ok _ _ v 0 (Vector (vector_buffer v ++
    replicate (Z.to_nat (vector_maxsize v * k - vector_maxsize v)) zero_fd)
    (vector_size v) (vector_maxsize v * k))).
  2: { rewrite (bind_ok _ _ v k v).
       - apply vector_expand_spec; [done|lia|lia].
       - unfold of_option. rewrite roundup_pos by nia.
         rewrite Z.mul_comm, Z_mod_mult, Z.div_mul by lia. done. }
  rewrite (bind_ok _ _ _ (vector_size v) _) by done.
  destruct (Z.leb_spec (vector_size v) (vector_maxsize v * k)); [|nia].
  unfold set_vector_size. rewrite (bind_ok (modify _) _ _ tt (Vector (vector_buffer v ++
    replicate (Z.to_nat (vector_maxsize v * k - vector_maxsize v)) zero_fd)
    (vector_maxsize v * k + 1) (vector_maxsize v * k))) by done.
  apply bind_fault. unfold store_slot. apply bind_fault.
  unfold load_slot, get, of_option, mbind, M_bind. simpl.
  destruct (Z.ltb_spec (vector_maxsize v * k) 0); [nia|].
  rewrite lookup_ge_None_2; [done|]. rewrite length_app, length_replicate. nia.
Qed.
End vector_specs.

(** ** The descriptor table *)

Lemma run_on_vec {A} (c : M vector A) s v a v' :
  task_fds s = Some v → c v = Ok (a, v') →
  on_vec c s = Ok (a, FdSt (Some v') (global_file_table s) (fds_errno s)).
Proof. intros Hv Hc. unfold on_vec. by rewrite Hv, Hc. Qed.

Lemma wp_on_vec {A} (c : M vector A) (Q : A → fdst → Prop) s v :
  task_fds s = Some v →
  wp c (λ a v', Q a (FdSt (Some v') (global_file_table s) (fds_errno s))) v → wp (on_vec c) Q s.
Proof. intros Hv Hc. unfold wp, on_vec in *. rewrite Hv. by destruct (c v) as [[a v']| |]. Qed.

Lemma fdst_eta s v : task_fds s = Some v → FdSt (Some v) (global_file_table s) (fds_errno s) = s.
Proof. destruct s. simpl. by intros ->. Qed.

Lemma run_get_filedescriptor s v fd :
  task_fds s = Some v → 0 ≤ fd →
  get_filedescriptor fd s = Ok (if fd <? vector_size v then Some fd else None, s).
Proof.
  intros Hv Hfd. unfold get_filedescriptor. destruct (Z.ltb_spec fd 0); [lia|].
  rewrite (bind_ok _ _ s (Some v) s) by (unfold get; by rewrite Hv). unfold on_vec. rewrite Hv.
  unfold vector_get, get, mbind, M_bind, mret, M_ret. by rewrite fdst_eta.
Qed.

Lemma open_slot v i d : vec_ok v → slot v i = Some d → fd_node d ≠ 0 → 0 ≤ i < vector_size v →
  open_at v i.
Proof. intros. by exists d. Qed.

(** Closing an entry only clears its node. *)
Definition closed (d : file_descriptor) : file_descriptor :=
  FileDescriptor 0 (fd_mode d) (fd_flags d) (fd_seek d) (fd_lock_index d).

Definition close_in (v : vector) (i : Z) (d : file_descriptor) : vector :=
  Vector (<[Z.to_nat i := closed d]> (vector_buffer v)) (vector_size v) (vector_maxsize v).

Lemma run_close s v fd d :
  task_fds s = Some v → vec_ok v → 0 ≤ fd < vector_size v → slot v fd = Some d →
  close_filedescriptor fd s =
    Ok (0, FdSt (Some (close_in v fd d)) (global_file_table s) (fds_errno s)).
Proof.
  intros Hv [Hl Hs Hm] Hfd Hd. unfold close_filedescriptor.
  rewrite (bind_ok _ _ s (Some fd) s).
  2: { rewrite (run_get_filedescriptor s v) by (done || lia).
       by destruct (Z.ltb_spec fd (vector_size v)); [|lia]. }
  rewrite (bind_ok _ _ s 0 (FdSt (Some (close_in v fd d)) (global_file_table s) (fds_errno s))); [done|].
  eapply run_on_vec; [done|]. unfold vector_clear.
  rewrite (bind_ok _ _ v d v) by (apply run_load_slot; [lia|done]).
  by rewrite (bind_ok _ _ v tt (close_in v fd d)) by (apply run_store_slot; lia).
Qed.

Lemma close_in_ok v i d : vec_ok v → vec_ok (close_in v i d).
Proof. intros [Hl Hs Hm]. split; simpl; rewrite ?length_insert; done. Qed.

(** The lookup at [i] of an open descriptor. *)
Lemma run_dup2_load s v i d :
  task_fds s = Some v → 0 ≤ i → slot v i = Some d → on_vec (load_slot i) s = Ok (d, s).
Proof.
  intros Hv Hi Hd. erewrite run_on_vec; [|done|by apply run_load_slot]. by rewrite fdst_eta.
Qed.

(** ** Theorems *)

(** A task with descriptors 0 and 2 open, 1 closed. *)
Definition demo_vec : vector :=
  Vector ([FileDescriptor 500 0 0 0 0; zero_fd; FileDescriptor 600 0 1 9 0] ++ replicate 5 zero_fd) 3 8.
Definition demo_fds : fdst := FdSt (Some demo_vec) [] 0.

Lemma demo_vec_ok : vec_ok demo_vec.
Proof. split; simpl; lia. Defined.

(** A new descriptor is the lowest one that is not open, it is bound to the
    node with offset 0, and every other descriptor is as before. *)
Theorem register_lowest (kmalloc_ok : Z → bool) s v node flags mode lock :
  (∀ n, kmalloc_ok n = true) → task_fds s = Some v → vec_ok v →
  ∃ i v', register_filedescriptor kmalloc_ok node flags mode lock s =
            Ok (i, FdSt (Some v') (global_file_table s) (fds_errno s)) ∧
    lowest_closed v i ∧ slot v' i = Some (FileDescriptor node mode flags 0 lock) ∧
    (∀ k, 0 ≤ k < vector_maxsize v → k ≠ i → slot v' k = slot v k) ∧
    vector_size v' = Z.max (vector_size v) (i + 1).
Proof.
  intros Hmem Hv Hok.
  destruct (wp_run _ _ _ (vector_add_spec kmalloc_ok Hmem v (FileDescriptor node mode flags 0 lock) Hok))
    as (i & v' & Hrun & Hlow & [H1 H2 H3 _ _ _]).
  exists i, v'. unfold register_filedescriptor. by rewrite (run_on_vec _ s v i v').
Qed.

Lemma register_lowest_witness :
  ∃ i v', register_filedescriptor (λ _, true) 700 0 0 0 demo_fds =
            Ok (i, FdSt (Some v') [] 0) ∧
    lowest_closed demo_vec i ∧ slot v' i = Some (FileDescriptor 700 0 0 0 0) ∧
    (∀ k, 0 ≤ k < 8 → k ≠ i → slot v' k = slot demo_vec k) ∧
    vector_size v' = Z.max 3 (i + 1).
Proof. by apply (register_lowest (λ _, true) demo_fds demo_vec 700 0 0 0); [|reflexivity|exact demo_vec_ok]. Defined.

(** [dup2] to another descriptor: [new] becomes a copy of [old] (closing what
    it was) and every other descriptor, [old] included, is as before.  The index
    must be below the vector's capacity or not a multiple of it. *)
Theorem dup2_correct (kmalloc_ok : Z → bool) s v old new d :
  (∀ n, kmalloc_ok n = true) → task_fds s = Some v → vec_ok v →
  0 ≤ old < vector_size v → slot v old = Some d → fd_node d ≠ 0 →
  new ≠ old → room_for v new →
  ∃ v', dup2_filedescriptor kmalloc_ok old new s =
          Ok (new, FdSt (Some v') (global_file_table s) (fds_errno s)) ∧
    slot v' new = Some d ∧
    ∀ k, 0 ≤ k < vector_maxsize v → k ≠ new → slot v' k = slot v k.
Proof.
  intros Hmem Hv Hok Hold Hd Hn Hne Hroom. pose proof Hok as [Hl Hs Hm].
  pose proof Hroom as (Hnew & _ & _). unfold dup2_filedescriptor.
  rewrite (bind_ok _ _ s (Some old) s).
  2: { rewrite (run_get_filedescriptor s v) by (done || lia).
       by destruct (Z.ltb_spec old (vector_size v)); [|lia]. }
  rewrite (bind_ok _ _ s d s) by (apply (run_dup2_load s v); [done|lia|done]).
  destruct (Z.eqb_spec (fd_node d) 0); [done|].
  rewrite (bind_ok _ _ s _ s (run_get_filedescriptor s v new Hv Hnew)).
  assert (Hset : ∀ w, vec_ok w → vector_maxsize w = vector_maxsize v → slot w old = Some d →
    (∀ k, 0 ≤ k < vector_maxsize v → k ≠ new → slot w k = slot v k) →
    ∃ v', (d' ← on_vec (load_slot old); on_vec (vector_set kmalloc_ok d' new))
            (FdSt (Some w) (global_file_table s) (fds_errno s)) =
          Ok (new, FdSt (Some v') (global_file_table s) (fds_errno s)) ∧ slot v' new = Some d ∧
      ∀ k, 0 ≤ k < vector_maxsize v → k ≠ new → slot v' k = slot v k).
  { intros w Hw Hmw Hdw Hk. erewrite bind_ok; [|apply (run_dup2_load _ w); [done|lia|done]].
    assert (Hrw : room_for w new) by (unfold room_for in *; by rewrite Hmw).
    destruct (wp_run _ _ _ (vector_set_spec kmalloc_ok Hmem w d new Hw Hrw)) as (r & v' & Hrun & -> & Hp).
    exists v'. erewrite run_on_vec; [|reflexivity|exact Hrun]. destruct Hp as [H1 H2 _ _ _ _].
    rewrite Hmw in H2. split_and!; try done. intros k Hk1 Hk2. by rewrite H2, Hk. }
  destruct (Z.ltb_spec new (vector_size v)) as [Hlt|Hge].
  - destruct (slot_some v new Hok) as [e He]; [lia|].
    erewrite bind_ok; [|by apply (run_close s v new e)]. apply Hset.
    + by apply close_in_ok.
    + done.
    + unfold slot, close_in. simpl. rewrite list_lookup_insert_ne by lia. exact Hd.
    + intros k Hk Hkn. unfold slot, close_in. simpl. by rewrite list_lookup_insert_ne by lia.
  - rewrite (bind_ok _ _ s 0 s) by done. destruct (Hset v Hok eq_refl Hd ltac:(done)) as (v' & Hrun & Hrest).
    rewrite (fdst_eta s v Hv) in Hrun. by exists v'.
Qed.

Lemma dup2_correct_witness :
  ∃ v', dup2_filedescriptor (λ _, true) 2 0 demo_fds = Ok (0, FdSt (Some v') [] 0) ∧
    slot v' 0 = Some (FileDescriptor 600 0 1 9 0) ∧
    ∀ k, 0 ≤ k < 8 → k ≠ 0 → slot v' k = slot demo_vec k.
Proof.
  apply (dup2_correct (λ _, true) demo_fds demo_vec 2 0); try done; try (simpl; lia); try exact demo_vec_ok.
  split; [lia|]. split; [left; simpl; lia|lia].
Defined.

(** [dup2] of a descriptor onto itself closes it: [new] is closed before
    [old] is copied, and they are the same slot. *)
Theorem dup2_self_closes (kmalloc_ok : Z → bool) s v fd d :
  (∀ n, kmalloc_ok n = true) → task_fds s = Some v → vec_ok v →
  0 ≤ fd < vector_size v → fd < 1048576 → slot v fd = Some d → fd_node d ≠ 0 →
  ∃ v', dup2_filedescriptor kmalloc_ok fd fd s =
          Ok (fd, FdSt (Some v') (global_file_table s) (fds_errno s)) ∧
        ¬ open_at v' fd.
Proof.
  intros Hmem Hv Hok Hfd Hbig Hd Hn. pose proof Hok as [Hl Hs Hm]. unfold dup2_filedescriptor.
  assert (Hget : get_filedescriptor fd s = Ok (Some fd, s)).
  { rewrite (run_get_filedescriptor s v) by (done || lia).
    by destruct (Z.ltb_spec fd (vector_size v)); [|lia]. }
  rewrite (bind_ok _ _ s (Some fd) s Hget).
  rewrite (bind_ok _ _ s d s) by (apply (run_dup2_load s v); [done|lia|done]).
  destruct (Z.eqb_spec (fd_node d) 0); [done|]. rewrite (bind_ok _ _ s (Some fd) s Hget).
  erewrite bind_ok; [|by apply (run_close s v fd d)].
  assert (Hc : slot (close_in v fd d) fd = Some (closed d)).
  { unfold slot, close_in. simpl. apply list_lookup_insert_eq. lia. }
  erewrite bind_ok; [|apply (run_dup2_load _ (close_in v fd d)); [done|lia|exact Hc]].
  destruct (wp_run _ _ _ (vector_set_spec kmalloc_ok Hmem (close_in v fd d) (closed d) fd
    (close_in_ok v fd d Hok) ltac:(split; [lia|split; [left; simpl; lia|lia]])))
    as (r & v' & Hrun & -> & [Hsl _ _ _ _ _]).
  exists v'. erewrite run_on_vec; [|reflexivity|exact Hrun]. split; [done|]. intros (e & He & Hne & _).
  rewrite Hsl in He. injection He as <-. done.
Qed.

Lemma dup2_self_closes_witness :
  ∃ v', dup2_filedescriptor (λ _, true) 2 2 demo_fds = Ok (2, FdSt (Some v') [] 0) ∧ ¬ open_at v' 2.
Proof.
  by apply (dup2_self_closes (λ _, true) demo_fds demo_vec 2 (FileDescriptor 600 0 1 9 0));
    [|reflexivity|exact demo_vec_ok|simpl; lia|lia|reflexivity|].
Defined.

(** [vector_set] writes past its buffer when the index is a multiple of the
    capacity: the expansion rounds [fd / maxsize] up, which for a multiple gives
    a buffer of exactly [fd] entries. *)
Theorem vector_set_overrun (kmalloc_ok : Z → bool) v obj k :
  (∀ n, kmalloc_ok n = true) → vec_ok v → 1 ≤ k → vector_maxsize v * k < 2147483647 →
  vector_set kmalloc_ok obj (vector_maxsize v * k) v = Fault.
Proof. intros. by apply vector_set_overrun_run. Qed.

Lemma vector_set_overrun_witness : vector_set (λ _, true) zero_fd 8 demo_vec = Fault.
Proof. apply (vector_set_overrun (λ _, true) demo_vec zero_fd 1); [done|exact demo_vec_ok|lia|simpl; lia]. Defined.
