(* ===== verification/Sync.v ===== *)
(** * Locks and queues (kernel/yanix/atomic.c, ds/queue.c, arch/i386/cpu/atomic.asm)

    [lock cmpxchg] compares eax with the memory word: when they are equal the
    word takes the new value and eax keeps its own, otherwise eax takes the
    word's.  Both routines of atomic.asm return eax. *)
From S2P Require Import Prelude.

(** ** atomic.asm, on the lock word *)

Definition cmpxchg (eax new : Z) : M Z Z := λ w,
  if w =? eax then Ok (eax, new) else Ok (w, w).

Definition arch_atomic_test_and_set (bit : Z) : M Z Z := cmpxchg 0 bit.
Definition arch_atomic_compare_exchange (bitunset bitset : Z) : M Z Z := cmpxchg bitunset bitset.
Definition arch_atomic_store (bit : Z) : M Z unit := λ _, Ok (tt, bit).

Definition SPINLOCK_LOCK : Z := 1.
Definition SPINLOCK_UNLOCK : Z := 0.

(** ** atomic.c *)

(** [while (!atomic_compare_exchange(...));] with [fuel] attempts. *)
Definition spinlock_lock_fuel (fuel : nat) : M Z unit :=
  loop fuel (λ _,
    r ← arch_atomic_compare_exchange SPINLOCK_UNLOCK SPINLOCK_LOCK;
    if r =? 0 then mret (inl tt) else mret (inr tt)) tt.

Definition spinlock_lock : M Z unit := spinlock_lock_fuel 2.

Definition spinlock_unlock : M Z unit := arch_atomic_store SPINLOCK_UNLOCK.

(** ** queue.c *)

Record queue := Queue {
  q_buffer : list Z;
  q_size : Z;
  q_capacity : Z;
  q_lock : Z
}.

Definition QUEUE_DEFAULT_SIZE : Z := 128.

Definition on_qlock {A} (c : M Z A) : M queue A := λ q,
  match c (q_lock q) with
  | Ok (a, l) => Ok (a, Queue (q_buffer q) (q_size q) (q_capacity q) l)
  | Fault => Fault
  | Hang => Hang
  end.

(** [while (q->lock && atomic_test_and_set(&q->lock, 1));] *)
Definition queue_lock_fuel (fuel : nat) : M queue unit :=
  loop fuel (λ _,
    l ← get q_lock;
    if l =? 0 then mret (inr tt)
    else
      r ← on_qlock (arch_atomic_test_and_set 1);
      if r =? 0 then mret (inr tt) else mret (inl tt)) tt.

Definition queue_lock : M queue unit := queue_lock_fuel 1.

Definition queue_unlock : M queue unit := on_qlock (λ _, Ok (tt, 0)).

(** The words of the new buffer are whatever the heap held. *)
Definition queue_create (size : Z) (junk : list Z) : queue :=
  let size := if size =? -1 then QUEUE_DEFAULT_SIZE else size in
  Queue (take (Z.to_nat size) junk) 0 size 0.

(** [memcpy(q->buffer, &q->buffer[1], 4 * q->size)], a forward word copy. *)
Definition shift_down (n : nat) (b : list Z) : option (list Z) :=
  if (n <? length b)%nat then Some (take n (drop 1 b) ++ drop n b)
  else match n with O => Some b | S _ => None end.

Definition queue_pop : M queue Z :=
  _ ← queue_lock;
  q ← get id;
  if q_size q =? 0 then mret 0
  else
    let n := q_size q - 1 in
    element ← of_option (q_buffer q !! 0%nat);
    b ← of_option (shift_down (Z.to_nat n) (q_buffer q));
    _ ← modify (λ q, Queue b n (q_capacity q) (q_lock q));
    _ ← queue_unlock;
    mret element.

Definition queue_push (element : Z) : M queue Z :=
  _ ← queue_lock;
  q ← get id;
  if q_capacity q =? q_size q then mret (-1)
  else
    _ ← of_option (q_buffer q !! Z.to_nat (q_size q));
    _ ← modify (λ q, Queue (<[Z.to_nat (q_size q) := element]> (q_buffer q))
                       (u32 (q_size q + 1)) (q_capacity q) (q_lock q));
    n ← get q_size;
    _ ← queue_unlock;
    mret (s32 (n - 1)).

(** ** The queue is a bounded FIFO *)

Record queue_is (q : queue) (l : list Z) : Prop := QueueIs {
  qi_items : take (Z.to_nat (q_size q)) (q_buffer q) = l;
  qi_size : q_size q = Z.of_nat (length l);
  qi_cap : Z.of_nat (length (q_buffer q)) = q_capacity q;
  qi_bound : q_capacity q < 2147483648;
  qi_lock : q_lock q = 0
}.

Lemma queue_lock_free q : q_lock q = 0 → queue_lock q = Ok (tt, q).
Proof.
  intros Hl. unfold queue_lock, queue_lock_fuel. simpl.
  unfold mbind, M_bind, get. rewrite Hl. done.
Qed.

Lemma queue_len q l : queue_is q l → (length l ≤ length (q_buffer q))%nat.
Proof. intros [Hi _ _ _ _]. rewrite <- Hi, length_take. lia. Qed.

Lemma push_run q l x :
  queue_is q l →
  if decide (Z.of_nat (length l) < q_capacity q) then
    ∃ q', queue_push x q = Ok (Z.of_nat (length l), q') ∧ queue_is q' (l ++ [x]) ∧
          q_capacity q' = q_capacity q
  else queue_push x q = Ok (-1, q).
Proof.
  intros Hq. pose proof (queue_len _ _ Hq). destruct Hq as [Hi Hs Hc Hb Hl].
  unfold queue_push. rewrite (bind_ok _ _ q tt q) by by apply queue_lock_free.
  unfold id. rewrite (bind_ok _ _ q q q) by done. rewrite Hs.
  destruct (decide _) as [Hlt|Hge].
  - destruct (Z.eqb_spec (q_capacity q) (Z.of_nat (length l))); [lia|].
    destruct (lookup_lt_is_Some_2 (q_buffer q) (length l)) as [y Hy]; [lia|].
    rewrite Nat2Z.id. rewrite (bind_ok _ _ q y q) by (unfold of_option; by rewrite Hy).
    unfold queue_unlock, on_qlock, get, modify, mbind, M_bind, mret, M_ret. simpl.
    rewrite Hs, u32_small, s32_small by (rewrite ?u32_small; lia).
    eexists. split; [do 2 f_equal; lia|]. split; [|done]. split; simpl; try done.
    + rewrite Nat2Z.id. replace (Z.to_nat (Z.of_nat (length l) + 1)) with (S (length l)) by lia.
      rewrite (take_S_r _ _ x) by (apply list_lookup_insert_eq; lia).
      f_equal. rewrite take_insert_ge by lia. rewrite <- Hi at 2. by rewrite Hs, Nat2Z.id.
    + rewrite length_app. simpl. lia.
    + by rewrite length_insert.
  - by destruct (Z.eqb_spec (q_capacity q) (Z.of_nat (length l))); [|lia].
Qed.

Lemma pop_run q l :
  queue_is q l →
  match l with
  | [] => queue_pop q = Ok (0, q)
  | x :: l' => ∃ q', queue_pop q = Ok (x, q') ∧ queue_is q' l' ∧ q_capacity q' = q_capacity q
  end.
Proof.
  intros Hq. pose proof (queue_len _ _ Hq) as Hlen. destruct Hq as [Hi Hs Hc Hb Hl].
  unfold queue_pop. rewrite (bind_ok _ _ q tt q) by by apply queue_lock_free.
  unfold id. rewrite (bind_ok _ _ q q q) by done. rewrite Hs. rewrite Hs, Nat2Z.id in Hi.
  destruct l as [|x l']; [done|]. change (length (x :: l')) with (S (length l')) in *.
  destruct (Z.eqb_spec (Z.of_nat (S (length l'))) 0); [lia|].
  destruct (q_buffer q) as [|y b] eqn:Hbuf; [simpl in Hlen; lia|]. simpl in Hi. injection Hi as -> Hi.
  rewrite (bind_ok _ _ q x q) by done.
  replace (Z.to_nat (Z.of_nat (S (length l')) - 1)) with (length l') by lia.
  rewrite (bind_ok _ _ q (take (length l') b ++ drop (length l') (x :: b)) q).
  2: { unfold of_option, shift_down. simpl. destruct (Nat.ltb_spec (length l') (S (length b))); [done|].
       simpl in Hlen. lia. }
  unfold queue_unlock, on_qlock, modify, mbind, M_bind, mret, M_ret. simpl.
  eexists. split; [done|]. split; [|done]. split; simpl; try done; try lia.
  - replace (Z.to_nat (Z.of_nat (S (length l')) - 1)) with (length l') by lia.
    rewrite Hi. by rewrite take_app_length.
  - rewrite Hi, length_app, length_drop. simpl in *. lia.
Qed.

(** ** Threads taking the spinlock

    Every shared access of [spinlock_lock] is one atomic instruction, so an
    execution is an interleaving of these steps. *)
Inductive pc := Idle | Spinning | Critical.

Record threads := Threads { th_lock : Z; th_pcs : list pc }.

Inductive thread_step : threads → threads → Prop :=
| ts_call i w ps :
    ps !! i = Some Idle → thread_step (Threads w ps) (Threads w (<[i := Spinning]> ps))
| ts_try i w ps r w' :
    ps !! i = Some Spinning →
    arch_atomic_compare_exchange SPINLOCK_UNLOCK SPINLOCK_LOCK w = Ok (r, w') →
    thread_step (Threads w ps)
      (Threads w' (if r =? 0 then ps else <[i := Critical]> ps))
| ts_unlock i w ps w' :
    ps !! i = Some Critical → spinlock_unlock w = Ok (tt, w') →
    thread_step (Threads w ps) (Threads w' (<[i := Idle]> ps)).

(** A thread that calls [spinlock_lock] on a lock that is held gets through in
    one attempt, on a free one in two. *)
Lemma acquire_held i w ps :
  ps !! i = Some Idle → w ≠ 0 →
  rtc thread_step (Threads w ps) (Threads w (<[i := Critical]> ps)).
Proof.
  intros Hi Hw. eapply rtc_l; [by apply (ts_call i)|].
  assert (Hs : <[i := Spinning]> ps !! i = Some Spinning)
    by (apply list_lookup_insert_eq; by eapply lookup_lt_Some).
  eapply rtc_l.
  { apply (ts_try i w _ w w Hs).
    unfold arch_atomic_compare_exchange, cmpxchg, SPINLOCK_UNLOCK.
    by destruct (Z.eqb_spec w 0). }
  destruct (Z.eqb_spec w 0); [done|]. rewrite list_insert_insert_eq. apply rtc_refl.
Qed.

Lemma acquire_free i ps :
  ps !! i = Some Idle → rtc thread_step (Threads 0 ps) (Threads 1 (<[i := Critical]> ps)).
Proof.
  intros Hi. eapply rtc_l; [by apply (ts_call i)|].
  assert (Hs : <[i := Spinning]> ps !! i = Some Spinning)
    by (apply list_lookup_insert_eq; by eapply lookup_lt_Some).
  eapply rtc_l; [by apply (ts_try i 0 _ 0 1 Hs)|]. simpl.
  eapply rtc_l; [by apply (ts_try i 1 _ 1 1 Hs)|]. simpl.
  rewrite list_insert_insert_eq. apply rtc_refl.
Qed.

(** ** Theorems *)

(** The queue is a FIFO of bounded capacity: [queue_push] appends and returns
    the index, or returns -1 and changes nothing when full; [queue_pop] removes
    and returns the oldest element, or returns NULL when empty. *)
Theorem queue_is_fifo q l x :
  queue_is q l →
  (if decide (Z.of_nat (length l) < q_capacity q) then
     ∃ q', queue_push x q = Ok (Z.of_nat (length l), q') ∧ queue_is q' (l ++ [x])
   else queue_push x q = Ok (-1, q)) ∧
  match l with
  | [] => queue_pop q = Ok (0, q)
  | y :: l' => ∃ q', queue_pop q = Ok (y, q') ∧ queue_is q' l'
  end.
Proof.
  intros Hq. split.
  - pose proof (push_run q l x Hq) as H. destruct (decide _); [|done].
    destruct H as (q' & ? & ? & _). by exists q'.
  - pose proof (pop_run q l Hq) as H. destruct l as [|y l']; [done|].
    destruct H as (q' & ? & ? & _). by exists q'.
Qed.

Lemma queue_is_fifo_witness :
  (if decide (2 < 3) then
     ∃ q', queue_push 9 (Queue [5; 6; 0] 2 3 0) = Ok (2, q') ∧ queue_is q' [5; 6; 9]
   else queue_push 9 (Queue [5; 6; 0] 2 3 0) = Ok (-1, Queue [5; 6; 0] 2 3 0)) ∧
  ∃ q', queue_pop (Queue [5; 6; 0] 2 3 0) = Ok (5, q') ∧ queue_is q' [6].
Proof. apply (queue_is_fifo (Queue [5; 6; 0] 2 3 0) [5; 6] 9). by split. Defined.



(** On one processor [spinlock_lock] always returns, within two attempts and
    with the lock set, whatever the lock was: it never waits. *)
Theorem spinlock_lock_never_waits w fuel :
  (2 ≤ fuel)%nat → ∃ w', spinlock_lock_fuel fuel w = Ok (tt, w') ∧ w' ≠ 0 ∧ (w ≠ 0 → w' = w).
Proof.
  intros Hf. destruct fuel as [|[|fuel]]; [lia|lia|].
  unfold spinlock_lock_fuel. cbn [loop]. unfold mbind, M_bind,
    arch_atomic_compare_exchange, cmpxchg, SPINLOCK_UNLOCK, SPINLOCK_LOCK, mret, M_ret.
  destruct (Z.eqb_spec w 0) as [->|Hw]; simpl; [by eexists|].
  destruct (Z.eqb_spec w 0); [done|]. by exists w.
Qed.

Lemma spinlock_lock_never_waits_witness :
  ∃ w', spinlock_lock_fuel 2 1 = Ok (tt, w') ∧ w' ≠ 0 ∧ (1 ≠ 0 → w' = 1).
Proof. by apply (spinlock_lock_never_waits 1 2). Defined.
