(* ===== verification/Ringbuffer.v ===== *)
(** * Ring buffers and pipes (kernel/yanix/ds/ringbuffer.c, kernel/fs/vfs/pipe.c)

    The buffer is the list [rb_buffer] of bytes; an index outside it is [Fault].
    [virtual_begin] and [virtual_end] are 32-bit positions in the stream, of
    which the low 16 bits index the buffer.  The bytes a read stores in the
    caller's buffer come back as a list. *)
From S2P Require Import Prelude Sync.

Record ringbuffer := Ringbuffer {
  rb_size : Z;
  virtual_end : Z;
  virtual_begin : Z;
  rb_buffer : list Z;
  rb_cursize : Z;
  rb_lock : Z;
  rb_flags : Z;
  rb_errno : Z
}.

Definition RINGBUFFER_OPTIMIZE_USHORTINT : Z := 1.
Definition USHRT_MAX : Z := 65535.
Definition RB_O_NONBLOCK : Z := 16384.
Definition ENOSYS : Z := 38.
Definition EPIPE : Z := 32.
Definition NEWLINE : Z := 10.

Definition set_positions (b e : Z) : M ringbuffer unit :=
  modify (λ r, Ringbuffer (rb_size r) e b (rb_buffer r) (rb_cursize r) (rb_lock r) (rb_flags r)
                 (rb_errno r)).
Definition set_cursize (v : Z) : M ringbuffer unit :=
  modify (λ r, Ringbuffer (rb_size r) (virtual_end r) (virtual_begin r) (rb_buffer r) v
                 (rb_lock r) (rb_flags r) (rb_errno r)).
Definition set_rb_flags (v : Z) : M ringbuffer unit :=
  modify (λ r, Ringbuffer (rb_size r) (virtual_end r) (virtual_begin r) (rb_buffer r)
                 (rb_cursize r) (rb_lock r) v (rb_errno r)).
Definition set_rb_errno (v : Z) : M ringbuffer unit :=
  modify (λ r, Ringbuffer (rb_size r) (virtual_end r) (virtual_begin r) (rb_buffer r)
                 (rb_cursize r) (rb_lock r) (rb_flags r) v).

Definition on_rblock {A} (c : M Z A) : M ringbuffer A := λ r,
  match c (rb_lock r) with
  | Ok (a, l) => Ok (a, Ringbuffer (rb_size r) (virtual_end r) (virtual_begin r) (rb_buffer r)
                          (rb_cursize r) l (rb_flags r) (rb_errno r))
  | Fault => Fault
  | Hang => Hang
  end.

Definition rb_get (i : Z) : M ringbuffer Z :=
  b ← get rb_buffer;
  if i <? 0 then fault else of_option (b !! Z.to_nat i).

Definition rb_put (i c : Z) : M ringbuffer unit :=
  _ ← rb_get i;
  modify (λ r, Ringbuffer (rb_size r) (virtual_end r) (virtual_begin r)
                 (<[Z.to_nat i := c]> (rb_buffer r)) (rb_cursize r) (rb_lock r) (rb_flags r)
                 (rb_errno r)).

(** ** ringbuffer.c *)

(** [junk] is what the heap block held before. *)
Definition create_ringbuffer (size flags : Z) (junk : list Z) : ringbuffer :=
  let size := if Z.land flags RINGBUFFER_OPTIMIZE_USHORTINT =? 0 then size else USHRT_MAX in
  Ringbuffer size 0 0 (take (Z.to_nat size) junk) 0 0 flags 0.

Definition ushort_mode : M ringbuffer bool :=
  r ← get id; mret (negb (Z.land (rb_flags r) RINGBUFFER_OPTIMIZE_USHORTINT =? 0)).

Definition not_supported {A} (x : A) : M ringbuffer A := _ ← set_rb_errno ENOSYS; mret x.

(** The copy loop of the read: [n] bytes from the wrapping index [ind]. *)
Fixpoint read_bytes (n : nat) (ind : Z) : M ringbuffer (list Z) :=
  match n with
  | O => mret []
  | S n' => c ← rb_get ind; cs ← read_bytes n' (u16 (ind + 1)); mret (c :: cs)
  end.

Definition ringbuffer_read_index (size index : Z) : M ringbuffer (Z * list Z) :=
  r ← get id;
  let size := if negb (rb_cursize r =? 0) && (rb_cursize r <? size) then rb_cursize r else size in
  ok ← ushort_mode;
  if (ok : bool) then
    let avail := u32 (virtual_end r - virtual_begin r) in
    let max := if avail <? size then avail else size in
    bs ← read_bytes (Z.to_nat max) (u16 index);
    _ ← set_positions (u32 (index + max)) (virtual_end r);
    _ ← (if rb_cursize r =? 0 then mret tt else set_cursize (u32 (rb_cursize r - max)));
    mret (s32 max, bs)
  else not_supported (-1, []).

Definition ringbuffer_read (size : Z) : M ringbuffer (Z * list Z) :=
  _ ← on_rblock spinlock_lock;
  b ← get virtual_begin;
  ret ← ringbuffer_read_index size b;
  _ ← on_rblock spinlock_unlock;
  mret ret.

(** The copy loop of the write: byte number [i] of the message is the head. *)
Fixpoint write_bytes (bs : list Z) (i ind : Z) : M ringbuffer unit :=
  match bs with
  | [] => mret tt
  | c :: bs' =>
    r ← get id;
    _ ← (if negb (Z.land (rb_flags r) RB_O_NONBLOCK =? 0) || (c =? NEWLINE)
         then set_cursize (u32 (virtual_end r - virtual_begin r + i + 1)) else mret tt);
    _ ← rb_put ind c;
    write_bytes bs' (i + 1) (u16 (ind + 1))
  end.

Definition ringbuffer_write_index (bs : list Z) (index : Z) : M ringbuffer Z :=
  ok ← ushort_mode;
  if (ok : bool) then
    _ ← write_bytes bs 0 (u16 index);
    b ← get virtual_begin;
    _ ← set_positions b (u32 (index + Z.of_nat (length bs)));
    mret (s32 (Z.of_nat (length bs)))
  else not_supported (-1).

Definition ringbuffer_write (bs : list Z) : M ringbuffer Z :=
  _ ← on_rblock spinlock_lock;
  e ← get virtual_end;
  ret ← ringbuffer_write_index bs e;
  _ ← on_rblock spinlock_unlock;
  mret ret.

(** [while (!circbuf->cursize);]: without another writer it never ends. *)
Definition ringbuffer_block : M ringbuffer unit :=
  c ← get rb_cursize; if c =? 0 then hang else mret tt.

Definition ringbuffer_flush : M ringbuffer unit :=
  e ← get virtual_end;
  _ ← set_positions e e;
  set_cursize 0.

Fixpoint shift_bytes (n : nat) (i : Z) : M ringbuffer unit :=
  match n with
  | O => mret tt
  | S n' => c ← rb_get (i + 1); _ ← rb_put i c; shift_bytes n' (i + 1)
  end.

Definition ringbuffer_remove (location : Z) : M ringbuffer Z :=
  r ← get id;
  if u32 (virtual_end r - virtual_begin r) =? 0 then mret (-1)
  else
    ok ← ushort_mode;
    if (ok : bool) then
      let base := u16 (u16 (virtual_end r) - location - 1) in
      _ ← shift_bytes (Z.to_nat (location - 1)) base;
      _ ← rb_put (virtual_end r) 0;
      _ ← set_positions (virtual_begin r) (u32 (virtual_end r - 1));
      mret 0
    else not_supported (-1).

(** ** pipe.c

    A [struct pipe *] is its ring buffer, [None] for NULL. *)

Definition pipe_close : Z := 0.

(** [None] is the NULL pipe: errno becomes EPIPE. *)
Definition pipe_read_raw (size flags : Z) (p : option ringbuffer) :
    result (Z * list Z * option ringbuffer) * Z :=
  match p with
  | None => (Ok ((-1, []), None), EPIPE)
  | Some rb =>
    (match (_ ← (if Z.land flags RB_O_NONBLOCK =? 0 then ringbuffer_block else mret tt);
            ringbuffer_read size) rb with
     | Ok (x, rb') => Ok (x, Some rb')
     | Fault => Fault
     | Hang => Hang
     end, 0)
  end.

Definition pipe_write_raw (bs : list Z) (flags : Z) (p : option ringbuffer) :
    result (Z * option ringbuffer) * Z :=
  match p with
  | None => (Ok (-1, None), EPIPE)
  | Some rb =>
    (match (r ← get id;
            _ ← set_rb_flags (Z.lor (rb_flags r) (Z.land flags RB_O_NONBLOCK));
            ringbuffer_write bs) rb with
     | Ok (x, rb') => Ok (x, Some rb')
     | Fault => Fault
     | Hang => Hang
     end, 0)
  end.

Definition pipe_remove (location : Z) (p : option ringbuffer) :
    result (Z * option ringbuffer) * Z :=
  match p with
  | None => (Ok (-1, None), EPIPE)
  | Some rb =>
    (match ringbuffer_remove location rb with
     | Ok (x, rb') => Ok (x, Some rb')
     | Fault => Fault
     | Hang => Hang
     end, 0)
  end.

Definition pipe_create (junk : list Z) : ringbuffer :=
  create_ringbuffer 0 RINGBUFFER_OPTIMIZE_USHORTINT junk.

(** ** The contents of a ring buffer

    In the first lap of the stream, before position 65535. *)
Record rb_is (r : ringbuffer) (q : list Z) : Prop := RbIs {
  ri_mode : Z.land (rb_flags r) RINGBUFFER_OPTIMIZE_USHORTINT ≠ 0;
  ri_len : Z.of_nat (length (rb_buffer r)) = USHRT_MAX;
  ri_begin : 0 ≤ virtual_begin r;
  ri_end : virtual_end r = virtual_begin r + Z.of_nat (length q);
  ri_lap : virtual_end r ≤ USHRT_MAX;
  ri_data : ∀ i c, q !! i = Some c → rb_buffer r !! (Z.to_nat (virtual_begin r) + i)%nat = Some c;
  ri_cursize : 0 ≤ rb_cursize r ≤ Z.of_nat (length q)
}.

Lemma run_rb_get r i c : 0 ≤ i → rb_buffer r !! Z.to_nat i = Some c → rb_get i r = Ok (c, r).
Proof.
  intros Hi Hc. unfold rb_get, get, of_option, mbind, M_bind.
  destruct (Z.ltb_spec i 0); [lia|]. by rewrite Hc.
Qed.

Lemma run_rb_put r i c : 0 ≤ i < Z.of_nat (length (rb_buffer r)) →
  rb_put i c r = Ok (tt, Ringbuffer (rb_size r) (virtual_end r) (virtual_begin r)
    (<[Z.to_nat i := c]> (rb_buffer r)) (rb_cursize r) (rb_lock r) (rb_flags r) (rb_errno r)).
Proof.
  intros Hi. destruct (lookup_lt_is_Some_2 (rb_buffer r) (Z.to_nat i)) as [d Hd]; [lia|].
  unfold rb_put. rewrite (bind_ok _ _ r d r); [done|]. apply run_rb_get; [lia|done].
Qed.

(** How many bytes of the message are released to readers, counted from its
    start: up to the last newline, or all of it under O_NONBLOCK. *)
Fixpoint released (nb : bool) (bs : list Z) (i : Z) (old : Z) (len : Z) : Z :=
  match bs with
  | [] => old
  | c :: bs' => released nb bs' (i + 1) (if nb || (c =? NEWLINE) then len + i + 1 else old) len
  end.

Lemma released_bound nb bs i old len :
  0 ≤ old ≤ len + i + Z.of_nat (length bs) → 0 ≤ i → 0 ≤ len →
  0 ≤ released nb bs i old len ≤ len + i + Z.of_nat (length bs).
Proof.
  revert i old. induction bs as [|c bs IH]; intros i old Ho Hi Hl; simpl in *; [lia|].
  destruct (IH (i + 1) (if nb || (c =? NEWLINE) then len + i + 1 else old)); [|lia..|lia].
  destruct (nb || (c =? NEWLINE)); lia.
Qed.

(** [r'] is [r] with [bs] in its buffer from [ind] and a new [cursize]. *)
Record wrote (r : ringbuffer) (bs : list Z) (ind cur : Z) (r' : ringbuffer) : Prop := Wrote {
  wr_begin : virtual_begin r' = virtual_begin r;
  wr_end : virtual_end r' = virtual_end r;
  wr_flags : rb_flags r' = rb_flags r;
  wr_lock : rb_lock r' = rb_lock r;
  wr_cur : rb_cursize r' = cur;
  wr_len : length (rb_buffer r') = length (rb_buffer r);
  wr_new : ∀ i c, bs !! i = Some c → rb_buffer r' !! (Z.to_nat ind + i)%nat = Some c;
  wr_old : ∀ k, (k < Z.to_nat ind)%nat → rb_buffer r' !! k = rb_buffer r !! k
}.

Definition nonblock (r : ringbuffer) : bool := negb (Z.land (rb_flags r) RB_O_NONBLOCK =? 0).

Lemma write_bytes_run r bs i ind :
  Z.of_nat (length (rb_buffer r)) = USHRT_MAX → 0 ≤ ind → ind + Z.of_nat (length bs) ≤ USHRT_MAX →
  0 ≤ i → 0 ≤ virtual_begin r ≤ virtual_end r → virtual_end r - virtual_begin r + i + Z.of_nat (length bs) < 4294967296 →
  wp (write_bytes bs i ind)
     (λ _ r', wrote r bs ind (released (nonblock r) bs i (rb_cursize r)
                               (virtual_end r - virtual_begin r)) r') r.
Proof.
  revert r i ind. induction bs as [|c bs IH]; intros r i ind Hl Hind Hfit Hi Hve Hb; simpl.
  { wp_step. split; try done. }
  simpl in Hfit, Hb. unfold USHRT_MAX in *. unfold id. do 2 wp_step.
  change (negb (Z.land (rb_flags r) RB_O_NONBLOCK =? 0)) with (nonblock r). wp_step.
  set (cur := if nonblock r || (c =? NEWLINE) then virtual_end r - virtual_begin r + i + 1 else rb_cursize r).
  apply (wp_mono _ (λ _ r', r' = Ringbuffer (rb_size r) (virtual_end r) (virtual_begin r) (rb_buffer r)
    cur (rb_lock r) (rb_flags r) (rb_errno r))).
  { subst cur. destruct (nonblock r || (c =? NEWLINE)).
    - apply wp_modify. by rewrite u32_small by lia.
    - wp_step. by destruct r. }
  intros [] r1 ->. wp_step. eapply run_wp; [apply run_rb_put; simpl; lia|]. simpl.
  rewrite u16_small by lia.
  eapply wp_mono; [apply IH; simpl; rewrite ?length_insert; lia|]. simpl.
  intros [] r2 [H1 H2 H3 H4 H5 H6 H7 H8]. simpl in *.
  split; try done.
  - by rewrite H6, length_insert.
  - intros k d Hk. destruct k as [|k]; simpl in Hk.
    + injection Hk as <-. rewrite H8 by lia. rewrite Nat.add_0_r. apply list_lookup_insert_eq. lia.
    + specialize (H7 k d Hk). by replace (Z.to_nat ind + S k)%nat with (Z.to_nat (ind + 1) + k)%nat by lia.
  - intros k Hk. rewrite H8 by lia. apply list_lookup_insert_ne. lia.
Qed.

Lemma write_bytes_overrun r bs i ind :
  Z.of_nat (length (rb_buffer r)) = USHRT_MAX → 0 ≤ ind ≤ USHRT_MAX →
  USHRT_MAX < ind + Z.of_nat (length bs) → write_bytes bs i ind r = Fault.
Proof.
  revert r i ind. induction bs as [|c bs IH]; intros r i ind Hl Hind Hover; simpl in *;
    unfold USHRT_MAX in *; [lia|].
  unfold id. rewrite (bind_ok _ _ r r r) by done.
  set (upd := if _ || _ then set_cursize _ else mret tt).
  assert (Hupd : ∃ r1, upd r = Ok (tt, r1) ∧ rb_buffer r1 = rb_buffer r).
  { subst upd. destruct (_ || _); [by eexists|by exists r]. }
  destruct Hupd as (r1 & Hu & Hb1). rewrite (bind_ok _ _ r tt r1 Hu).
  destruct (decide (ind = 65535)) as [->|Hne].
  - apply bind_fault. unfold rb_put. apply bind_fault.
    unfold rb_get, get, of_option, mbind, M_bind. simpl. rewrite Hb1.
    rewrite lookup_ge_None_2 by lia. done.
  - erewrite bind_ok; [|apply run_rb_put; rewrite Hb1; lia].
    rewrite u16_small by lia. apply IH; simpl; rewrite ?length_insert, ?Hb1; lia.
Qed.

Lemma lock_run r : ∃ w, on_rblock spinlock_lock r =
  Ok (tt, Ringbuffer (rb_size r) (virtual_end r) (virtual_begin r) (rb_buffer r) (rb_cursize r) w
            (rb_flags r) (rb_errno r)).
Proof.
  unfold on_rblock, spinlock_lock, spinlock_lock_fuel. cbn [loop].
  unfold mbind, M_bind, arch_atomic_compare_exchange, cmpxchg, SPINLOCK_UNLOCK, SPINLOCK_LOCK, mret, M_ret.
  destruct (Z.eqb_spec (rb_lock r) 0); simpl; [by eexists|].
  destruct (Z.eqb_spec (rb_lock r) 0); [done|]. by eexists.
Qed.

Lemma ushort_mode_run r : Z.land (rb_flags r) RINGBUFFER_OPTIMIZE_USHORTINT ≠ 0 →
  ushort_mode r = Ok (true, r).
Proof.
  intros Hm. unfold ushort_mode, get, id, mbind, M_bind.
  by destruct (Z.eqb_spec (Z.land (rb_flags r) RINGBUFFER_OPTIMIZE_USHORTINT) 0).
Qed.

Lemma write_run r q bs :
  rb_is r q → virtual_end r + Z.of_nat (length bs) ≤ USHRT_MAX →
  ∃ r', ringbuffer_write bs r = Ok (Z.of_nat (length bs), r') ∧ rb_is r' (q ++ bs) ∧
    rb_cursize r' = released (nonblock r) bs 0 (rb_cursize r) (Z.of_nat (length q)) ∧
    virtual_end r' = virtual_end r + Z.of_nat (length bs) ∧ virtual_begin r' = virtual_begin r ∧
    rb_flags r' = rb_flags r.
Proof.
  intros [Hm Hl Hb He Hlap Hd Hc] Hfit. unfold USHRT_MAX in *.
  destruct (lock_run r) as [w Hw]. set (r1 := Ringbuffer _ _ _ _ _ w _ _) in Hw.
  assert (Hwb : wp (write_bytes bs 0 (u16 (virtual_end r)))
    (λ _ r', wrote r1 bs (virtual_end r) (released (nonblock r) bs 0 (rb_cursize r)
                               (virtual_end r - virtual_begin r)) r') r1).
  { rewrite u16_small by lia. apply (write_bytes_run r1); subst r1; simpl; unfold USHRT_MAX; lia. }
  destruct (wp_run _ _ _ Hwb) as ([] & r2 & Hrun & [H1 H2 H3 H4 H5 H6 H7 H8]).
  subst r1. simpl in *. unfold ringbuffer_write.
  rewrite (bind_ok _ _ r tt _ Hw). rewrite (bind_ok _ _ _ (virtual_end r) _) by done.
  unfold ringbuffer_write_index. unfold mbind at 1, M_bind at 1.
  rewrite (bind_ok ushort_mode _ _ true _) by by apply ushort_mode_run.
  rewrite (bind_ok _ _ _ tt r2 Hrun). rewrite (bind_ok _ _ r2 (virtual_begin r2) r2) by done.
  rewrite u32_small, s32_small by lia.
  unfold set_positions, modify, mbind, M_bind, mret, M_ret, on_rblock, spinlock_unlock,
    arch_atomic_store. simpl.
  eexists. split; [done|]. replace (virtual_end r - virtual_begin r) with (Z.of_nat (length q)) in H5 by lia.
  split; [|simpl; by rewrite H1, H3, H5].
  split; simpl; try done.
  - by rewrite H3.
  - by rewrite H6.
  - by rewrite H1.
  - rewrite H1, length_app. lia.
  - intros i c Hi. rewrite H1. apply lookup_app_Some in Hi as [Hi|[Hge Hi]].
    + pose proof (lookup_lt_Some _ _ _ Hi). rewrite H8 by lia. by apply Hd.
    + replace (Z.to_nat (virtual_begin r) + i)%nat with (Z.to_nat (virtual_end r) + (i - length q))%nat by lia.
      by apply H7.
  - rewrite H5, length_app, Nat2Z.inj_add.
    pose proof (released_bound (nonblock r) bs 0 (rb_cursize r) (Z.of_nat (length q))). lia.
Qed.

Lemma write_overrun r q bs :
  rb_is r q → USHRT_MAX < virtual_end r + Z.of_nat (length bs) →
  ringbuffer_write bs r = Fault.
Proof.
  intros [Hm Hl Hb He Hlap Hd Hc] Hover. unfold USHRT_MAX in *.
  destruct (lock_run r) as [w Hw]. unfold ringbuffer_write. rewrite (bind_ok _ _ r tt _ Hw).
  rewrite (bind_ok _ _ _ (virtual_end r) _) by done. apply bind_fault.
  unfold ringbuffer_write_index.
  rewrite (bind_ok ushort_mode _ _ true _) by by apply ushort_mode_run.
  apply bind_fault. apply write_bytes_overrun; simpl; rewrite ?u16_small; unfold USHRT_MAX; lia.
Qed.

Lemma read_bytes_run r n ind :
  0 ≤ ind → ind + Z.of_nat n ≤ Z.of_nat (length (rb_buffer r)) →
  Z.of_nat (length (rb_buffer r)) = USHRT_MAX →
  read_bytes n ind r = Ok (take n (drop (Z.to_nat ind) (rb_buffer r)), r).
Proof.
  revert ind. induction n as [|n IH]; intros ind Hi Hn Hl; unfold USHRT_MAX in *; simpl; [done|].
  destruct (lookup_lt_is_Some_2 (rb_buffer r) (Z.to_nat ind)) as [c Hc]; [lia|].
  rewrite (bind_ok _ _ r c r) by (apply run_rb_get; [lia|done]). rewrite u16_small by lia.
  rewrite (bind_ok _ _ r _ r) by (apply IH; lia).
  rewrite (drop_S _ _ _ Hc). by replace (Z.to_nat (ind + 1)) with (S (Z.to_nat ind)) by lia.
Qed.

(** What a read of [size] bytes takes. *)
Definition read_amount (r : ringbuffer) (q : list Z) (size : Z) : Z :=
  let size := if negb (rb_cursize r =? 0) && (rb_cursize r <? size) then rb_cursize r else size in
  Z.min size (Z.of_nat (length q)).

Lemma rb_data_take r q k :
  rb_is r q → (k ≤ length q)%nat →
  take k (drop (Z.to_nat (virtual_begin r)) (rb_buffer r)) = take k q.
Proof.
  intros [Hm Hl Hb He Hlap Hd Hc] Hk. apply list_eq. intros i. destruct (decide (i < k)%nat) as [Hi|Hi].
  - rewrite !lookup_take_lt by lia. rewrite lookup_drop.
    destruct (lookup_lt_is_Some_2 q i) as [c Hq]; [lia|]. rewrite Hq. by apply Hd.
  - rewrite !lookup_take_ge by lia. done.
Qed.

Lemma read_run r q size :
  rb_is r q → 0 ≤ size < 2147483648 →
  let k := read_amount r q size in
  ∃ r', ringbuffer_read size r = Ok ((k, take (Z.to_nat k) q), r') ∧
    rb_is r' (drop (Z.to_nat k) q) ∧ 0 ≤ k ≤ Z.of_nat (length q) ∧
    virtual_end r' = virtual_end r ∧ rb_flags r' = rb_flags r.
Proof.
  intros Hr Hs k. pose proof Hr as [Hm Hl Hb He Hlap Hd Hc]. unfold USHRT_MAX in *.
  assert (Hk : 0 ≤ k ≤ Z.of_nat (length q) ∧ (rb_cursize r ≠ 0 → k ≤ rb_cursize r)).
  { unfold k, read_amount. destruct (Z.eqb_spec (rb_cursize r) 0), (Z.ltb_spec (rb_cursize r) size);
      simpl; lia. }
  assert (Hmax : (if u32 (virtual_end r - virtual_begin r) <?
      (if negb (rb_cursize r =? 0) && (rb_cursize r <? size) then rb_cursize r else size)
    then u32 (virtual_end r - virtual_begin r)
    else (if negb (rb_cursize r =? 0) && (rb_cursize r <? size) then rb_cursize r else size)) = k).
  { rewrite u32_small by lia. replace (virtual_end r - virtual_begin r) with (Z.of_nat (length q)) by lia.
    unfold k, read_amount. set (z := if _ && _ then _ else _).
    destruct (Z.ltb_spec (Z.of_nat (length q)) z); lia. }
  destruct (lock_run r) as [w Hw]. unfold ringbuffer_read.
  rewrite (bind_ok _ _ r tt _ Hw). rewrite (bind_ok _ _ _ (virtual_begin r) _) by done.
  unfold ringbuffer_read_index, id. unfold mbind at 1, M_bind at 1.
  rewrite (bind_ok (get _) _ _ _ _ eq_refl). cbn [rb_cursize virtual_end virtual_begin].
  rewrite (bind_ok ushort_mode _ _ true _) by by apply ushort_mode_run.
  rewrite Hmax. rewrite u16_small by lia.
  erewrite (bind_ok (read_bytes _ _)); [|apply read_bytes_run; cbn [rb_buffer]; unfold USHRT_MAX; lia].
  cbn [rb_buffer]. rewrite (rb_data_take r q) by (done || lia).
  rewrite (s32_small k), (u32_small (virtual_begin r + k)) by lia.
  unfold set_positions, set_cursize, modify, mbind, M_bind, mret, M_ret, on_rblock, spinlock_unlock,
    arch_atomic_store.
  assert (Hnew : ∀ cur, 0 ≤ cur ≤ Z.of_nat (length (drop (Z.to_nat k) q)) →
    rb_is (Ringbuffer (rb_size r) (virtual_end r) (virtual_begin r + k) (rb_buffer r) cur
             SPINLOCK_UNLOCK (rb_flags r) (rb_errno r)) (drop (Z.to_nat k) q)).
  { intros cur Hcur. split; simpl; try done; try lia.
    - rewrite length_drop. lia.
    - intros i c Hi. rewrite lookup_drop in Hi. rewrite <- (Hd _ _ Hi). f_equal. lia. }
  destruct Hk as [Hk Hk'].
  destruct (Z.eqb_spec (rb_cursize r) 0) as [Hz|Hz]; simpl; eexists;
    (split; [reflexivity|]); (split; [apply Hnew|split; [exact Hk|done]]); rewrite length_drop.
  - lia.
  - rewrite u32_small by lia. lia.
Qed.

(** Taking back the last byte. *)
Lemma remove_run r q x : rb_is r (q ++ [x]) → virtual_end r < USHRT_MAX → rb_cursize r ≤ Z.of_nat (length q) →
  ∃ r', ringbuffer_remove 1 r = Ok (0, r') ∧ rb_is r' q ∧ virtual_end r' = virtual_end r - 1 ∧
    rb_cursize r' = rb_cursize r ∧ rb_flags r' = rb_flags r.
Proof.
  intros [Hm Hl Hb He Hlap Hd Hc] Hlt Hcur. unfold USHRT_MAX in *. rewrite length_app in *. simpl in He, Hc. eexists. split.
  - unfold ringbuffer_remove. rewrite (bind_ok _ _ _ r r) by done. rewrite u32_small by lia.
    destruct (Z.eqb_spec (virtual_end r - virtual_begin r) 0); [lia|].
    rewrite (bind_ok ushort_mode _ _ true _) by by apply ushort_mode_run. cbv zeta. cbn [Z.sub Z.to_nat shift_bytes Z.add Z.opp Z.pos_sub].
    rewrite (bind_ok _ _ _ tt r) by done. rewrite (bind_ok _ _ _ _ _ (run_rb_put r (virtual_end r) 0 ltac:(lia))).
    rewrite u32_small by lia. done.
  - split; [|done]. split; cbn; try done; try lia; [by rewrite length_insert|unfold USHRT_MAX; lia|].
    intros i y Hi. pose proof (lookup_lt_Some _ _ _ Hi). rewrite list_lookup_insert_ne by lia. apply Hd. by apply lookup_app_l_Some.
Qed.

Lemma remove_none r : rb_is r [] → ringbuffer_remove 1 r = Ok (-1, r).
Proof.
  intros [Hm Hl Hb He Hlap Hd Hc]. unfold ringbuffer_remove. rewrite (bind_ok _ _ _ r r) by done. simpl in He.
  replace (virtual_end r - virtual_begin r) with 0 by lia. done.
Qed.

(** ** Streams of writes and reads *)

Inductive rb_op := OpWrite (bs : list Z) | OpRead (size : Z).

Fixpoint rb_run (ops : list rb_op) : M ringbuffer (list Z) :=
  match ops with
  | [] => mret []
  | OpWrite bs :: ops' => _ ← ringbuffer_write bs; rb_run ops'
  | OpRead n :: ops' =>
    '(_, bs) ← ringbuffer_read n;
    rest ← rb_run ops';
    mret (bs ++ rest)
  end.

Definition written (ops : list rb_op) : list Z :=
  mjoin (omap (λ o, match o with OpWrite bs => Some bs | OpRead _ => None end) ops).

Definition reads_ok (ops : list rb_op) : Prop :=
  Forall (λ o, match o with OpWrite _ => True | OpRead n => 0 ≤ n < 2147483648 end) ops.

Lemma rb_run_fifo ops r q :
  rb_is r q → reads_ok ops → virtual_end r + Z.of_nat (length (written ops)) ≤ USHRT_MAX →
  ∃ out rest r', rb_run ops r = Ok (out, r') ∧ rb_is r' rest ∧ q ++ written ops = out ++ rest.
Proof.
  revert r q. induction ops as [|[bs|n] ops IH]; intros r q Hr Hok Hfit; simpl in *.
  - exists [], q, r. split_and!; try done. by rewrite app_nil_r.
  - change (written (OpWrite bs :: ops)) with (bs ++ written ops) in *.
    rewrite length_app in Hfit. apply Forall_cons in Hok as [_ Hok].
    destruct (write_run r q bs Hr) as (r1 & Hw & Hr1 & _ & He & _); [lia|].
    destruct (IH r1 (q ++ bs) Hr1 Hok) as (out & rest & r' & Hrun & Hr' & Heq); [lia|].
    exists out, rest, r'. rewrite (bind_ok _ _ r _ r1 Hw). split_and!; try done.
    by rewrite app_assoc.
  - change (written (OpRead n :: ops)) with (written ops) in *.
    apply Forall_cons in Hok as [Hn Hok].
    destruct (read_run r q n Hr Hn) as (r1 & Hrd & Hr1 & Hk & He & _).
    destruct (IH r1 _ Hr1 Hok) as (out & rest & r' & Hrun & Hr' & Heq); [lia|].
    eexists _, rest, r'. rewrite (bind_ok _ _ r _ r1 Hrd). cbv beta iota.
    rewrite (bind_ok _ _ r1 out r' Hrun). split_and!; [reflexivity|done|].
    rewrite <- app_assoc, <- Heq, app_assoc. by rewrite take_drop.
Qed.

Lemma created_is junk flags size :
  Z.land flags RINGBUFFER_OPTIMIZE_USHORTINT ≠ 0 → (Z.to_nat USHRT_MAX ≤ length junk)%nat →
  rb_is (create_ringbuffer size flags junk) [].
Proof.
  intros Hf Hj. unfold create_ringbuffer.
  destruct (Z.eqb_spec (Z.land flags RINGBUFFER_OPTIMIZE_USHORTINT) 0); [done|].
  split; cbn [rb_flags rb_buffer virtual_begin virtual_end rb_cursize length]; try done.
  rewrite length_take. unfold USHRT_MAX in *. lia.
Qed.

(** ** A line through a pipe *)

Lemma released_none bs i old len : NEWLINE ∉ bs → released false bs i old len = old.
Proof.
  revert i old. induction bs as [|c bs IH]; intros i old Hn; simpl; [done|].
  apply not_elem_of_cons in Hn as [Hc Hn]. destruct (Z.eqb_spec c NEWLINE); [congruence|]. by apply IH.
Qed.

Lemma released_line bs i old len : released false (bs ++ [NEWLINE]) i old len = len + i + Z.of_nat (length bs) + 1.
Proof.
  revert i old. induction bs as [|c bs IH]; intros i old; simpl; [lia|]. rewrite IH. lia.
Qed.

Lemma released_some bs i old len :
  0 ≤ i → 0 ≤ len → 0 ≤ old → NEWLINE ∈ bs ∨ 0 < old → 0 < released false bs i old len.
Proof.
  revert i old. induction bs as [|c bs IH]; intros i old Hi Hl Ho Hn; simpl; [set_solver|].
  apply IH; [lia|lia|destruct (c =? NEWLINE); simpl; lia|].
  destruct (Z.eqb_spec c NEWLINE); [right; simpl; lia|]. set_solver.
Qed.

Lemma pipe_write_run r q bs flags :
  rb_is r q → rb_cursize r = 0 → nonblock r = false → Z.land flags RB_O_NONBLOCK = 0 →
  virtual_end r + Z.of_nat (length bs) ≤ USHRT_MAX →
  ∃ r', pipe_write_raw bs flags (Some r) = (Ok (Z.of_nat (length bs), Some r'), 0) ∧ rb_is r' (q ++ bs) ∧
    rb_cursize r' = released false bs 0 0 (Z.of_nat (length q)).
Proof.
  intros Hr Hcur Hnb Hfl Hfit. destruct (write_run r q bs Hr Hfit) as (r' & Hw & Hr' & Hc' & _).
  exists r'. rewrite Hnb, Hcur in Hc'. split_and!; [|done..]. unfold pipe_write_raw.
  assert (Hid : (r ← get id; _ ← set_rb_flags (Z.lor (rb_flags r) (Z.land flags RB_O_NONBLOCK)); ringbuffer_write bs) r = ringbuffer_write bs r).
  { unfold get, id, set_rb_flags, modify, mbind, M_bind. rewrite Hfl, Z.lor_0_r. by destruct r. }
  by rewrite Hid, Hw.
Qed.

(** A reader gets what has been released, as far as it has room; when nothing has been it
    waits. *)
Lemma pipe_read_run r q size flags :
  rb_is r q → 0 ≤ size < 2147483648 → Z.land flags RB_O_NONBLOCK = 0 →
  let k := Z.min (rb_cursize r) size in
  if rb_cursize r =? 0 then pipe_read_raw size flags (Some r) = (Hang, 0)
  else ∃ r', pipe_read_raw size flags (Some r) = (Ok (k, take (Z.to_nat k) q, Some r'), 0) ∧ rb_is r' (drop (Z.to_nat k) q).
Proof.
  intros Hr Hs Hfl k. unfold pipe_read_raw, ringbuffer_block, mbind, M_bind, get, mret, M_ret. rewrite Hfl. cbn [Z.eqb].
  destruct (Z.eqb_spec (rb_cursize r) 0) as [|Hne]; [done|].
  destruct (read_run r q size Hr ltac:(lia)) as (r' & Hrd & Hr' & _).
  assert (Hk : read_amount r q size = k).
  { unfold read_amount, k. pose proof (ri_cursize _ _ Hr). destruct (Z.eqb_spec (rb_cursize r) 0); [done|].
    cbn [negb andb]. destruct (Z.ltb_spec (rb_cursize r) size); lia. }
  rewrite Hk in Hrd, Hr'. exists r'. by rewrite Hrd.
Qed.

(** ** Theorems *)



(** The 65536th position has no byte.  The buffer has 65535 bytes but the
    16-bit index runs up to 65535, so the write that reaches stream position
    65535 goes past the end of the allocation. *)
Theorem ringbuffer_lap_overrun r q bs :
  rb_is r q → USHRT_MAX < virtual_end r + Z.of_nat (length bs) →
  ringbuffer_write bs r = Fault.
Proof. apply write_overrun. Qed.

Lemma ringbuffer_lap_overrun_witness :
  ringbuffer_write [7] (Ringbuffer 65535 65535 65535 (replicate (Z.to_nat USHRT_MAX) 0) 0 0 1 0) = Fault.
Proof.
  apply (ringbuffer_lap_overrun _ []).
  - split; cbn [rb_flags rb_buffer virtual_begin virtual_end rb_cursize length]; try done.
  - simpl. unfold USHRT_MAX. lia.
Defined.

(** A reader of a pipe without O_NONBLOCK waits for a line: with no newline
    written it blocks (for ever, when nobody else writes), and after a write that
    contains one it returns at once, with at most the bytes up to the last
    newline. *)
Theorem pipe_blocks_until_newline r q bs size flags :
  rb_is r q → rb_cursize r = 0 → nonblock r = false → Z.land flags RB_O_NONBLOCK = 0 →
  virtual_end r + Z.of_nat (length bs) ≤ USHRT_MAX → 0 < size < 2147483648 →
  ∃ r', (pipe_write_raw bs flags (Some r)).1 = Ok (Z.of_nat (length bs), Some r') ∧
    if decide (NEWLINE ∈ bs) then
      ∃ k r'', (pipe_read_raw size flags (Some r')).1 = Ok ((k, take (Z.to_nat k) (q ++ bs)), Some r'') ∧
        0 < k ≤ rb_cursize r'
    else (pipe_read_raw size flags (Some r')).1 = Hang.
Proof.
  intros Hr Hcur Hnb Hfl Hfit Hsz. destruct (pipe_write_run r q bs flags Hr Hcur Hnb Hfl Hfit) as (r' & Hw & Hr' & Hc').
  exists r'. rewrite Hw. split; [done|]. pose proof (pipe_read_run r' (q ++ bs) size flags Hr' ltac:(lia) Hfl) as Hrd.
  destruct (decide (NEWLINE ∈ bs)) as [Hin|Hin].
  - pose proof (released_some bs 0 0 (Z.of_nat (length q)) ltac:(lia) ltac:(lia) ltac:(lia) (or_introl Hin)).
    destruct (Z.eqb_spec (rb_cursize r') 0); [lia|]. destruct Hrd as (r'' & -> & _).
    exists (Z.min (rb_cursize r') size), r''. split; [done|lia].
  - rewrite released_none in Hc' by done. rewrite Hc' in Hrd. by rewrite Hrd.
Qed.

Lemma pipe_blocks_until_newline_witness :
  ∃ r', (pipe_write_raw [104; 10] 0
           (Some (create_ringbuffer 0 1 (replicate (Z.to_nat USHRT_MAX) 0)))).1 = Ok (2, Some r') ∧
    ∃ k r'', (pipe_read_raw 80 0 (Some r')).1 = Ok ((k, take (Z.to_nat k) [104; 10]), Some r'') ∧
      0 < k ≤ rb_cursize r'.
Proof.
  apply (pipe_blocks_until_newline _ [] [104; 10] 80 0); try reflexivity; try lia.
  - apply created_is; [discriminate|by rewrite length_replicate].
  - vm_compute. discriminate.
Defined.
