(* ===== verification/Ports.v ===== *)
(** * I/O ports (kernel/arch/i386/cpu/io.c)

    What happens on the ports is a list of events, the latest first.  The devices are a
    function of that history: what an [in] instruction reads depends on everything that
    was read and written before it. *)
From S2P Require Import Prelude.

Inductive io :=
| InB (port v : Z)
| OutB (port v : Z)
| InW (port v : Z)
| OutW (port v : Z)
| InL (port v : Z)
| OutL (port v : Z).

Class Devices := {
  answer8 : list io → Z → Z;
  answer16 : list io → Z → Z;
  answer32 : list io → Z → Z
}.

Section ports.
Context `{!Devices}.

Definition port_byte_in (port : Z) : M (list io) Z := λ tr,
  let v := u8 (answer8 tr (u16 port)) in Ok (v, InB (u16 port) v :: tr).

Definition port_byte_out (port data : Z) : M (list io) unit := λ tr, Ok (tt, OutB (u16 port) (u8 data) :: tr).

Definition port_word_in (port : Z) : M (list io) Z := λ tr,
  let v := u16 (answer16 tr (u16 port)) in Ok (v, InW (u16 port) v :: tr).

Definition port_word_out (port data : Z) : M (list io) unit := λ tr, Ok (tt, OutW (u16 port) (u16 data) :: tr).

Definition port_line_in (port : Z) : M (list io) Z := λ tr,
  let v := u32 (answer32 tr (u16 port)) in Ok (v, InL (u16 port) v :: tr).

Definition port_line_out (port data : Z) : M (list io) unit := λ tr, Ok (tt, OutL (u16 port) (u32 data) :: tr).
End ports.
