(* ===== verification/Interrupts.v ===== *)
(** * Descriptor tables and interrupts (kernel/arch/i386/cpu: gdt.c, idt.c, isr.c, pic.c, ic.c, cpu.c)

    The segment, task state and interrupt tables with the registers of the processor that
    are loaded with them, the table of interrupt handlers and the interrupt controller.
    The entry stubs of interrupts.asm are known by their addresses, a registered handler
    by what running it does. *)
From S2P Require Import Prelude Ports.

(** ** Tables *)

Record gdt_entry := GdtEntry {
  limit_low : Z; base_low : Z; base_middle : Z; access : Z; granularity : Z; base_high : Z
}.

Record tss_entry := TssEntry {
  prev_tss : Z; esp0 : Z; ss0 : Z; esp1 : Z; ss1 : Z; esp2 : Z; ss2 : Z; tss_cr3 : Z; tss_eip : Z; tss_eflags : Z;
  tss_eax : Z; tss_ecx : Z; tss_edx : Z; tss_ebx : Z; tss_esp : Z; tss_ebp : Z; tss_esi : Z; tss_edi : Z;
  tss_es : Z; tss_cs : Z; tss_ss : Z; tss_ds : Z; tss_fs : Z; tss_gs : Z; tss_ldt : Z; tss_trap : Z; iomap_base : Z
}.

Record idt_gate := IdtGate { low_offset : Z; sel : Z; gate_zero : Z; gate_flags : Z; high_offset : Z }.

(** What [lgdt] and [lidt] load. *)
Record table_ptr := TablePtr { ptr_limit : Z; ptr_base : Z }.

Definition GDT_AMOUNT : Z := 6.
Definition SIZEOF_GDT_ENTRY : Z := 8.
Definition SIZEOF_TSS : Z := 104.
Definition SIZEOF_IDT_GATE : Z := 8.
Definition IDT_ENTRIES : Z := 256.
Definition KERNEL_CS : Z := 8.

(** The registers as the stubs push them. *)
Record registers_t := RegistersT {
  rt_ds : Z; rt_edi : Z; rt_esi : Z; rt_ebp : Z; rt_useless : Z; rt_ebx : Z; rt_edx : Z; rt_ecx : Z; rt_eax : Z;
  int_no : Z; err_code : Z;
  rt_eip : Z; rt_cs : Z; rt_eflags : Z; rt_esp : Z; rt_ss : Z
}.

(** [i_rest] is what the handlers work on. *)
Record ist (K : Type) := Ist {
  gdt_entries : list gdt_entry;
  gdt_ptr : table_ptr;
  tss_entries : list tss_entry;
  idt : list idt_gate;
  idt_reg : table_ptr;
  interrupt_handlers : list Z;
  g_latest_irq : Z;
  apic : Z;
  cpu_gdtr : table_ptr;
  cpu_idtr : table_ptr;
  cpu_tr : Z;
  i_io : list io;
  i_rest : K
}.

Arguments Ist {K}.
Arguments gdt_entries {K}. Arguments gdt_ptr {K}. Arguments tss_entries {K}. Arguments idt {K}. Arguments idt_reg {K}.
Arguments interrupt_handlers {K}. Arguments g_latest_irq {K}. Arguments apic {K}. Arguments cpu_gdtr {K}.
Arguments cpu_idtr {K}. Arguments cpu_tr {K}. Arguments i_io {K}. Arguments i_rest {K}.

(** An array is written inside its bounds. *)
Definition set_nth {S A : Type} (l : list A) (i : Z) (x : A) : M S (list A) :=
  if (0 <=? i) && (i <? Z.of_nat (length l)) then mret (<[Z.to_nat i := x]> l) else fault.

Section interrupts.
Context `{!Devices} {K : Type}.
Implicit Types s : ist K.

Definition set_gdt (g : list gdt_entry) s : ist K :=
  Ist g (gdt_ptr s) (tss_entries s) (idt s) (idt_reg s) (interrupt_handlers s) (g_latest_irq s) (apic s)
    (cpu_gdtr s) (cpu_idtr s) (cpu_tr s) (i_io s) (i_rest s).
Definition set_gdt_ptr (p : table_ptr) s : ist K :=
  Ist (gdt_entries s) p (tss_entries s) (idt s) (idt_reg s) (interrupt_handlers s) (g_latest_irq s) (apic s)
    (cpu_gdtr s) (cpu_idtr s) (cpu_tr s) (i_io s) (i_rest s).
Definition set_tss (t : list tss_entry) s : ist K :=
  Ist (gdt_entries s) (gdt_ptr s) t (idt s) (idt_reg s) (interrupt_handlers s) (g_latest_irq s) (apic s)
    (cpu_gdtr s) (cpu_idtr s) (cpu_tr s) (i_io s) (i_rest s).
Definition set_idt_list (i : list idt_gate) s : ist K :=
  Ist (gdt_entries s) (gdt_ptr s) (tss_entries s) i (idt_reg s) (interrupt_handlers s) (g_latest_irq s) (apic s)
    (cpu_gdtr s) (cpu_idtr s) (cpu_tr s) (i_io s) (i_rest s).
Definition set_handlers (h : list Z) s : ist K :=
  Ist (gdt_entries s) (gdt_ptr s) (tss_entries s) (idt s) (idt_reg s) h (g_latest_irq s) (apic s)
    (cpu_gdtr s) (cpu_idtr s) (cpu_tr s) (i_io s) (i_rest s).
Definition set_latest (n : Z) s : ist K :=
  Ist (gdt_entries s) (gdt_ptr s) (tss_entries s) (idt s) (idt_reg s) (interrupt_handlers s) n (apic s)
    (cpu_gdtr s) (cpu_idtr s) (cpu_tr s) (i_io s) (i_rest s).
Definition set_apic (n : Z) s : ist K :=
  Ist (gdt_entries s) (gdt_ptr s) (tss_entries s) (idt s) (idt_reg s) (interrupt_handlers s) (g_latest_irq s) n
    (cpu_gdtr s) (cpu_idtr s) (cpu_tr s) (i_io s) (i_rest s).
Definition with_ports (tr : list io) s : ist K :=
  Ist (gdt_entries s) (gdt_ptr s) (tss_entries s) (idt s) (idt_reg s) (interrupt_handlers s) (g_latest_irq s) (apic s)
    (cpu_gdtr s) (cpu_idtr s) (cpu_tr s) tr (i_rest s).

Definition on_ports {A} (c : M (list io) A) : M (ist K) A := λ s,
  match c (i_io s) with
  | Ok (a, tr) => Ok (a, with_ports tr s)
  | Fault => Fault
  | Hang => Hang
  end.

(** ** gdt.c *)

Definition gdt_set_gate (num base limit access gran : Z) : M (ist K) unit :=
  g ← get gdt_entries;
  g' ← set_nth g num (GdtEntry
    (u16 (Z.land limit 65535))
    (u16 (Z.land base 65535))
    (u8 (Z.land (Z.shiftr base 16) 255))
    (u8 access)
    (u8 (Z.lor (u8 (Z.land (Z.shiftr limit 16) 15)) (Z.land gran 240)))
    (u8 (Z.land (Z.shiftr base 24) 255)));
  modify (set_gdt g').

(** The addresses of the tables. *)
Variables (gdt_addr tss_addr idt_addr : Z).

(** What [memset] with 0 leaves, and the fields set afterwards. *)
Definition new_tss (ss0 esp0 : Z) : tss_entry :=
  TssEntry 0 (u32 esp0) (u16 ss0) 0 0 0 0 0 0 0 0 0 0 0 0 0 0 0 19 11 19 19 19 19 0 0 SIZEOF_TSS.

Definition write_tss (num gatenum ss0 esp0 : Z) : M (ist K) unit :=
  let base := u32 (tss_addr + num * SIZEOF_TSS) in
  let limit := u32 (base + SIZEOF_TSS) in
  _ ← gdt_set_gate gatenum base limit 233 0;
  t ← get tss_entries;
  t' ← set_nth t num (new_tss ss0 esp0);
  modify (set_tss t').

(** [lgdt] and [ltr]; the segment registers get the new selectors. *)
Definition gdt_flush : M (ist K) unit := modify (λ s,
  Ist (gdt_entries s) (gdt_ptr s) (tss_entries s) (idt s) (idt_reg s) (interrupt_handlers s) (g_latest_irq s) (apic s)
    (gdt_ptr s) (cpu_idtr s) (cpu_tr s) (i_io s) (i_rest s)).
Definition tss_flush (selector : Z) : M (ist K) unit := modify (λ s,
  Ist (gdt_entries s) (gdt_ptr s) (tss_entries s) (idt s) (idt_reg s) (interrupt_handlers s) (g_latest_irq s) (apic s)
    (cpu_gdtr s) (cpu_idtr s) (u16 selector) (i_io s) (i_rest s)).

Definition init_gdt : M (ist K) unit :=
  _ ← modify (set_gdt_ptr (TablePtr (u16 (SIZEOF_GDT_ENTRY * GDT_AMOUNT - 1)) (u32 gdt_addr)));
  _ ← gdt_set_gate 0 0 0 0 0;
  _ ← gdt_set_gate 1 0 4294967295 154 207;
  _ ← gdt_set_gate 2 0 4294967295 146 207;
  _ ← gdt_set_gate 3 0 4294967295 250 207;
  _ ← gdt_set_gate 4 0 4294967295 242 207;
  _ ← write_tss 0 5 16 0;
  _ ← gdt_flush;
  tss_flush 40.

Definition tss_set_kernel_stack (stack : Z) : M (ist K) unit :=
  t ← get tss_entries;
  e ← of_option (t !! 0%nat);
  modify (set_tss (<[0%nat := TssEntry (prev_tss e) (u32 stack) 16 (esp1 e) (ss1 e) (esp2 e) (ss2 e) (tss_cr3 e) (tss_eip e)
    (tss_eflags e) (tss_eax e) (tss_ecx e) (tss_edx e) (tss_ebx e) (tss_esp e) (tss_ebp e) (tss_esi e) (tss_edi e)
    (tss_es e) (tss_cs e) (tss_ss e) (tss_ds e) (tss_fs e) (tss_gs e) (tss_ldt e) (tss_trap e) (iomap_base e)]> t)).

Definition init_descriptor_tables : M (ist K) unit := init_gdt.

(** ** idt.c *)

Definition low16 (address : Z) : Z := u16 (Z.land address 65535).
Definition high16 (address : Z) : Z := u16 (Z.land (Z.shiftr address 16) 65535).

Definition set_idt_gate (n handler : Z) : M (ist K) unit :=
  i ← get idt;
  i' ← set_nth i n (IdtGate (low16 handler) KERNEL_CS 0 (u8 (Z.lor 142 96)) (high16 handler));
  modify (set_idt_list i').

Definition set_task_gate (n handler : Z) : M (ist K) unit :=
  i ← get idt;
  i' ← set_nth i n (IdtGate 0 40 0 133 0);
  modify (set_idt_list i').

Definition set_idt : M (ist K) unit := modify (λ s,
  let p := TablePtr (u16 (IDT_ENTRIES * SIZEOF_IDT_GATE - 1)) (u32 idt_addr) in
  Ist (gdt_entries s) (gdt_ptr s) (tss_entries s) (idt s) p (interrupt_handlers s) (g_latest_irq s) (apic s)
    (cpu_gdtr s) p (cpu_tr s) (i_io s) (i_rest s)).

(** ** pic.c and ic.c *)

Definition PIC_MASTER_CMD : Z := 32.
Definition PIC_MASTER_DATA : Z := 33.
Definition PIC_SLAVE_CMD : Z := 160.
Definition PIC_SLAVE_DATA : Z := 161.
Definition PIC_CMD_EOI : Z := 32.
Definition PIC_CMD_ICW1_ICW4 : Z := 1.
Definition PIC_CMD_ICW1_INIT : Z := 16.
Definition PIC_CMD_ICW4_8086 : Z := 1.
Definition PIC_CMD_SLAVE_AT_IRQ2 : Z := 4.
Definition PIC_CMD_CASCADE_ID : Z := 2.

Definition pic_remap (master_offset slave_offset : Z) : M (list io) unit :=
  _ ← port_byte_out PIC_MASTER_CMD (Z.lor PIC_CMD_ICW1_INIT PIC_CMD_ICW1_ICW4);
  _ ← port_byte_out PIC_SLAVE_CMD (Z.lor PIC_CMD_ICW1_INIT PIC_CMD_ICW1_ICW4);
  _ ← port_byte_out PIC_MASTER_DATA master_offset;
  _ ← port_byte_out PIC_SLAVE_DATA slave_offset;
  _ ← port_byte_out PIC_MASTER_DATA PIC_CMD_SLAVE_AT_IRQ2;
  _ ← port_byte_out PIC_SLAVE_DATA PIC_CMD_CASCADE_ID;
  _ ← port_byte_out PIC_MASTER_DATA PIC_CMD_ICW4_8086;
  _ ← port_byte_out PIC_SLAVE_DATA PIC_CMD_ICW4_8086;
  _ ← port_byte_out PIC_MASTER_DATA 0;
  port_byte_out PIC_SLAVE_DATA 0.

Definition pic_send_eio (irq : Z) : M (list io) unit :=
  _ ← (if 8 <=? u32 irq then port_byte_out PIC_SLAVE_CMD PIC_CMD_EOI else mret tt);
  port_byte_out PIC_MASTER_CMD PIC_CMD_EOI.

Definition init_pic : Z := 0.
Definition init_apic : Z := -1.
Definition apic_send_eio (inter : Z) : M (list io) unit := mret tt.

Definition init_ic : M (ist K) Z :=
  _ ← modify (set_apic 0);
  _ ← (if init_apic =? -1 then let _ := init_pic in mret tt else modify (set_apic 1));
  mret 0.

Definition ic_send_eio (inter : Z) : M (ist K) unit :=
  a ← get apic;
  if negb (a =? 0) then on_ports (apic_send_eio inter) else on_ports (pic_send_eio inter).

(** ** isr.c *)

(** The stubs of interrupts.asm. *)
Variables isr_stub irq_stub : Z → Z.

Definition set_idt_gates (first : Z) (gates : list Z) (stub : Z → Z) : M (ist K) unit :=
  foldr (λ n k, _ ← set_idt_gate (first + n) (stub n); k) (mret tt) gates.

Definition isr_install : M (ist K) unit :=
  _ ← set_idt_gates 0 (seqZ 0 32) isr_stub;
  _ ← set_idt_gate 128 (isr_stub 128);
  _ ← on_ports (pic_remap 32 40);
  _ ← set_idt_gates 32 (seqZ 0 16) irq_stub;
  set_idt.

Definition arch_register_interrupt_handler (n handler : Z) : M (ist K) unit :=
  h ← get interrupt_handlers;
  h' ← set_nth h (u8 n) handler;
  modify (set_handlers h').

(** What the handler at an address does to the registers and the state. *)
Variable call_isr : Z → registers_t → M (ist K) registers_t.

Definition EXCEPTION_MESSAGES : Z := 32.

(** Without a handler the message is looked up and printed and the processor halts. *)
Definition isr_handler (r : registers_t) : M (ist K) registers_t :=
  let num := Z.land (int_no r) 255 in
  h ← get interrupt_handlers;
  handler ← of_option (h !! Z.to_nat num);
  if handler =? 0 then
    if EXCEPTION_MESSAGES <? num then hang
    else if num <? EXCEPTION_MESSAGES then hang else fault
  else call_isr handler r.

Definition end_of_interrupt : M (ist K) unit := irq ← get g_latest_irq; ic_send_eio irq.

Definition irq_handler (r : registers_t) : M (ist K) registers_t :=
  _ ← modify (set_latest (s32 (int_no r - 32)));
  h ← get interrupt_handlers;
  handler ← of_option (h !! Z.to_nat (int_no r));
  r' ← (if negb (handler =? 0) then call_isr handler r else mret r);
  _ ← end_of_interrupt;
  mret r'.

(** ** cpu.c *)

Definition arch_init : M (ist K) Z :=
  _ ← init_descriptor_tables;
  _ ← isr_install;
  _ ← init_ic;
  mret 0.
End interrupts.

(** ** What the processor reads from the tables *)

Definition seg_base (e : gdt_entry) : Z := base_low e + 65536 * base_middle e + 16777216 * base_high e.
Definition seg_limit (e : gdt_entry) : Z := limit_low e + 65536 * (granularity e mod 16).
Definition seg_flags (e : gdt_entry) : Z := granularity e / 16.
Definition gate_offset (g : idt_gate) : Z := low_offset g + 65536 * high_offset g.

(** A present 32-bit interrupt gate to [handler] that privilege level [dpl] may call. *)
Definition interrupt_gate (g : idt_gate) (handler dpl : Z) : Prop :=
  gate_offset g = handler ∧ sel g = KERNEL_CS ∧ gate_flags g = 128 + 32 * dpl + 14.

(** A segment of 4 KiB units that spans the address space. *)
Definition flat (e : gdt_entry) (acc : Z) : Prop :=
  seg_base e = 0 ∧ seg_limit e = 1048575 ∧ seg_flags e = 12 ∧ access e = acc.

(** An end-of-interrupt command for request [irq], the last first. *)
Definition eoi (irq : Z) : list io :=
  OutB PIC_MASTER_CMD PIC_CMD_EOI :: if 8 <=? irq then [OutB PIC_SLAVE_CMD PIC_CMD_EOI] else [].

Lemma land_ones_mod z n k : 0 ≤ n → k = 2 ^ n - 1 → Z.land z k = z mod 2 ^ n.
Proof. intros Hn ->. rewrite <- Z.land_ones by done. f_equal. rewrite Z.ones_equiv. lia. Qed.

Lemma low16_mod z : low16 z = z mod 65536.
Proof. unfold low16, u16. rewrite (land_ones_mod z 16) by lia. apply Z.mod_mod. lia. Qed.

Lemma shifted_byte z n : 0 ≤ n → u8 (Z.land (Z.shiftr z n) 255) = z / 2 ^ n mod 256.
Proof. intros Hn. unfold u8. rewrite (land_ones_mod _ 8), Z.shiftr_div_pow2 by lia. apply Z.mod_mod. lia. Qed.

Lemma high16_div z : 0 ≤ z < 4294967296 → high16 z = z / 65536.
Proof.
  intros Hz. unfold high16, u16. rewrite (land_ones_mod _ 16), Z.shiftr_div_pow2 by lia.
  change (2 ^ 16) with 65536. rewrite Z.mod_mod by lia. apply Z.mod_small.
  split; [apply Z.div_pos|apply Z.div_lt_upper_bound]; lia.
Qed.

(** A fact about bytes, by looking at each of them. *)
Lemma bytes_all (P : Z → bool) n z : forallb P (seqZ 0 n) = true → 0 ≤ z < n → P z = true.
Proof. intros Hf Hz. rewrite forallb_forall in Hf. apply Hf, list_elem_of_In, elem_of_seqZ. lia. Qed.

(** The limit shares a byte with the flags. *)
Lemma gran_byte limit gran : 0 ≤ gran < 256 →
  let g := u8 (Z.lor (u8 (Z.land (Z.shiftr limit 16) 15)) (Z.land gran 240)) in
  g mod 16 = limit / 65536 mod 16 ∧ g / 16 = gran / 16.
Proof.
  intros Hg g. set (a := limit / 65536 mod 16). assert (Hr : 0 ≤ a < 16) by (apply Z.mod_pos_bound; lia).
  assert (Ha : u8 (Z.land (Z.shiftr limit 16) 15) = a).
  { rewrite (land_ones_mod _ 4), Z.shiftr_div_pow2 by lia. apply u8_small. change (2 ^ 16) with 65536. change (2 ^ 4) with 16. fold a. lia. }
  assert (Hall : forallb (λ b, forallb (λ c, (u8 (Z.lor b (Z.land c 240)) mod 16 =? b) &&
    (u8 (Z.lor b (Z.land c 240)) / 16 =? c / 16)) (seqZ 0 256)) (seqZ 0 16) = true) by (vm_compute; reflexivity).
  pose proof (bytes_all _ _ _ (bytes_all _ _ _ Hall Hr) Hg) as E. simpl in E. apply andb_prop in E as [E1 E2].
  unfold g. rewrite Ha. split; [by apply Z.eqb_eq|by apply Z.eqb_eq].
Qed.

(** A descriptor holds what was put into it, but for the limit, of which 20 bits fit. *)
Definition describes (e : gdt_entry) (base limit acc gran : Z) : Prop :=
  seg_base e = base ∧ seg_limit e = limit mod 1048576 ∧ access e = acc ∧ seg_flags e = gran / 16.

Lemma base_split z : 0 ≤ z < 4294967296 → z mod 65536 + 65536 * (z / 65536 mod 256) + 16777216 * (z / 16777216 mod 256) = z.
Proof.
  intros Hz. pose proof (Z.div_mod z 65536 ltac:(lia)). pose proof (Z.div_mod (z / 65536) 256 ltac:(lia)).
  rewrite Z.div_div in * by lia. change (65536 * 256) with 16777216 in *.
  rewrite (Z.mod_small (z / 16777216)); [lia|]. split; [apply Z.div_pos|apply Z.div_lt_upper_bound]; lia.
Qed.

Lemma limit_split z : 0 ≤ z → z mod 65536 + 65536 * (z / 65536 mod 16) = z mod 1048576.
Proof.
  intros Hz. change 1048576 with (65536 * 16). rewrite Z.rem_mul_r by lia. lia.
Qed.

Section tables.
Context `{!Devices} {K : Type}.
Implicit Types s : ist K.

Lemma set_nth_ok {S A} (l : list A) i x (s : S) : 0 ≤ i < Z.of_nat (length l) → set_nth l i x s = Ok (<[Z.to_nat i := x]> l, s).
Proof. intros Hi. unfold set_nth. destruct (Z.leb_spec 0 i), (Z.ltb_spec i (Z.of_nat (length l))); try lia. done. Qed.

Lemma set_gate_run s num base limit acc gran : 0 ≤ num < Z.of_nat (length (gdt_entries s)) → 0 ≤ base < 4294967296 → 0 ≤ limit →
  0 ≤ acc < 256 → 0 ≤ gran < 256 →
  ∃ e, gdt_set_gate num base limit acc gran s = Ok (tt, set_gdt (<[Z.to_nat num := e]> (gdt_entries s)) s) ∧
    describes e base limit acc gran.
Proof.
  intros Hn Hb Hl Ha Hg. destruct (gran_byte limit gran Hg) as [G1 G2]. unfold gdt_set_gate. eexists. split.
  { rewrite (bind_ok _ _ _ (gdt_entries s) s) by done. rewrite (bind_ok _ _ _ _ _ (set_nth_ok _ _ _ s Hn)). reflexivity. }
  unfold describes, seg_base, seg_limit, seg_flags. cbn [base_low base_middle base_high limit_low granularity access].
  rewrite !shifted_byte by lia. fold (low16 base) (low16 limit). rewrite !low16_mod. split_and!.
  - by apply base_split.
  - rewrite G1. by apply limit_split.
  - by apply u8_small.
  - done.
Qed.

(** One more gate in front of a computation. *)
Lemma gate_then {A} (k : M (ist K) A) s num base limit acc gran g : gdt_entries s = g → 0 ≤ num < Z.of_nat (length g) →
  0 ≤ base < 4294967296 → 0 ≤ limit → 0 ≤ acc < 256 → 0 ≤ gran < 256 →
  ∃ e, (_ ← gdt_set_gate num base limit acc gran; k) s = k (set_gdt (<[Z.to_nat num := e]> g) s) ∧ describes e base limit acc gran.
Proof.
  intros <- Hn Hb Hl Ha Hg. destruct (set_gate_run s num base limit acc gran) as (e & He & Hd); try done.
  exists e. by rewrite (bind_ok _ _ _ _ _ He).
Qed.

Ltac gate_step :=
  match goal with
  | |- context [mbind (λ _, ?k) (gdt_set_gate ?n ?b ?l ?a ?g) ?s] =>
    let e := fresh "e" in
    destruct (gate_then k s n b l a g _ eq_refl) as (e & -> & ?); [simpl; lia..|]; cbn [Z.to_nat insert list_insert set_gdt]
  end.

Lemma write_tss_run tss_addr s num gatenum ss esp : 0 ≤ num < Z.of_nat (length (tss_entries s)) →
  0 ≤ gatenum < Z.of_nat (length (gdt_entries s)) → 0 ≤ tss_addr → tss_addr + (num + 1) * SIZEOF_TSS < 4294967296 →
  ∃ e, write_tss tss_addr num gatenum ss esp s =
      Ok (tt, set_tss (<[Z.to_nat num := new_tss ss esp]> (tss_entries s)) (set_gdt (<[Z.to_nat gatenum := e]> (gdt_entries s)) s)) ∧
    describes e (tss_addr + num * SIZEOF_TSS) (tss_addr + (num + 1) * SIZEOF_TSS) 233 0.
Proof.
  intros Hn Hg Ht Ha. unfold SIZEOF_TSS in *. unfold write_tss, SIZEOF_TSS. rewrite !u32_small by lia.
  replace (tss_addr + num * 104 + 104) with (tss_addr + (num + 1) * 104) by lia.
  destruct (set_gate_run s gatenum (tss_addr + num * 104) (tss_addr + (num + 1) * 104) 233 0) as (e & He & Hd); try lia.
  exists e. split; [|done]. rewrite (bind_ok _ _ _ _ _ He), (bind_ok _ _ _ (tss_entries s) (set_gdt (<[Z.to_nat gatenum := e]> (gdt_entries s)) s)) by done.
  rewrite (bind_ok _ _ _ _ _ (set_nth_ok _ _ _ _ Hn)). done.
Qed.

Definition booted_gdt (g : list gdt_entry) (tss_addr : Z) : Prop :=
  ∃ e0 e1 e2 e3 e4 e5, g = [e0; e1; e2; e3; e4; e5] ∧ describes e0 0 0 0 0 ∧
    flat e1 154 ∧ flat e2 146 ∧ flat e3 250 ∧ flat e4 242 ∧
    describes e5 tss_addr (tss_addr + SIZEOF_TSS) 233 0.

Lemma init_gdt_run gdt_addr tss_addr s : length (gdt_entries s) = 6%nat → length (tss_entries s) = 2%nat →
  0 ≤ tss_addr → tss_addr + 2 * SIZEOF_TSS < 4294967296 → 0 ≤ gdt_addr < 4294967296 →
  ∃ g, init_gdt gdt_addr tss_addr s = Ok (tt, Ist g (TablePtr 47 gdt_addr) (<[0%nat := new_tss 16 0]> (tss_entries s))
      (idt s) (idt_reg s) (interrupt_handlers s) (g_latest_irq s) (apic s) (TablePtr 47 gdt_addr) (cpu_idtr s) 40 (i_io s) (i_rest s)) ∧
    booted_gdt g tss_addr.
Proof.
  intros Hg Ht Ha Hta Hga. destruct s as [g gp t i ir h l a cg ci tr io r]. simpl in Hg, Ht.
  destruct g as [|g0 [|g1 [|g2 [|g3 [|g4 [|g5 [|]]]]]]]; try done. unfold init_gdt, SIZEOF_TSS in *.
  rewrite (bind_ok _ _ _ _ _ (eq_refl : modify _ _ = Ok (tt, _))). unfold set_gdt_ptr at 1. cbn [gdt_entries tss_entries idt idt_reg interrupt_handlers g_latest_irq apic cpu_gdtr cpu_idtr cpu_tr i_io i_rest].
  do 5 gate_step.
  edestruct (write_tss_run tss_addr) as (e5 & Hw & H5).
  5: { rewrite (bind_ok _ _ _ _ _ Hw). eexists. split; [simpl; rewrite u32_small by lia; reflexivity|].
       do 6 eexists. split; [reflexivity|]. rewrite Z.add_0_r in H5.
       assert (Hf : ∀ e acc, describes e 0 4294967295 acc 207 → flat e acc) by (intros ?? (? & ? & ? & ?); by split_and!).
       split_and!; try done; by apply Hf. }
  all: simpl; unfold SIZEOF_TSS; lia.
Qed.

(** ** Gates *)

Definition gate_of (handler : Z) : idt_gate := IdtGate (low16 handler) KERNEL_CS 0 238 (high16 handler).

Lemma gate_of_ok handler : 0 ≤ handler < 4294967296 → interrupt_gate (gate_of handler) handler 3.
Proof.
  intros Hh. unfold interrupt_gate, gate_offset, gate_of. cbn [low_offset high_offset sel gate_flags]. split_and!; [|done..].
  rewrite low16_mod, high16_div by done. pose proof (Z.div_mod handler 65536). lia.
Qed.

Lemma set_idt_gate_run s n handler : 0 ≤ n < Z.of_nat (length (idt s)) →
  set_idt_gate n handler s = Ok (tt, set_idt_list (<[Z.to_nat n := gate_of handler]> (idt s)) s).
Proof. intros Hn. unfold set_idt_gate. rewrite (bind_ok _ _ _ (idt s) s) by done. by rewrite (bind_ok _ _ _ _ _ (set_nth_ok _ _ _ s Hn)). Qed.

Definition put_gates (first : Z) (gates : list Z) (stub : Z → Z) (i : list idt_gate) : list idt_gate :=
  foldl (λ i n, <[Z.to_nat (first + n) := gate_of (stub n)]> i) i gates.

Lemma set_idt_gates_run first gates stub : ∀ s, (∀ n, n ∈ gates → 0 ≤ first + n < Z.of_nat (length (idt s))) →
  set_idt_gates first gates stub s = Ok (tt, set_idt_list (put_gates first gates stub (idt s)) s).
Proof.
  induction gates as [|n gates IH]; intros s Hn; simpl; [by destruct s|].
  rewrite (bind_ok _ _ _ _ _ (set_idt_gate_run s (first + n) (stub n) ltac:(apply Hn; left))), IH; [done|].
  intros k Hk. simpl. rewrite length_insert. apply Hn. by right.
Qed.

Lemma put_gates_length first gates stub i : length (put_gates first gates stub i) = length i.
Proof. revert i. induction gates as [|n gates IH]; intros i; simpl; [done|]. rewrite IH. apply length_insert. Qed.

Lemma put_gates_out first gates stub i k : (∀ n, n ∈ gates → Z.to_nat (first + n) ≠ k) → put_gates first gates stub i !! k = i !! k.
Proof.
  revert i. induction gates as [|n gates IH]; intros i Hk; simpl; [done|].
  rewrite IH by (intros j Hj; apply Hk; by right). apply list_lookup_insert_ne. apply Hk. left.
Qed.

Lemma put_gates_in first gates stub n : NoDup gates → (∀ k, k ∈ gates → 0 ≤ first + k) → n ∈ gates → ∀ i,
  first + n < Z.of_nat (length i) → put_gates first gates stub i !! Z.to_nat (first + n) = Some (gate_of (stub n)).
Proof.
  induction 1 as [|k gates Hk Hnd IH]; intros Hp Hn i Hl; [by apply elem_of_nil in Hn|]. simpl.
  destruct (decide (n = k)) as [->|Hne].
  - rewrite put_gates_out. { apply list_lookup_insert_eq. specialize (Hp k ltac:(left)). lia. }
    intros j Hj E. pose proof (Hp j ltac:(by right)). pose proof (Hp k ltac:(left)). assert (j = k) as -> by lia. done.
  - apply elem_of_cons in Hn as [?|Hn]; [done|]. apply IH; [|done|by rewrite length_insert]. intros j Hj. apply Hp. by right.
Qed.

Definition remapped (tr : list io) : list io :=
  [OutB 161 0; OutB 33 0; OutB 161 1; OutB 33 1; OutB 161 2; OutB 33 4; OutB 161 40; OutB 33 32; OutB 160 17; OutB 32 17] ++ tr.

Definition booted_idt (isr irq : Z → Z) (i : list idt_gate) : list idt_gate :=
  put_gates 32 (seqZ 0 16) irq (<[128%nat := gate_of (isr 128)]> (put_gates 0 (seqZ 0 32) isr i)).

Lemma isr_install_run idt_addr isr irq s : length (idt s) = 256%nat → 0 ≤ idt_addr < 4294967296 →
  isr_install idt_addr isr irq s = Ok (tt, Ist (gdt_entries s) (gdt_ptr s) (tss_entries s) (booted_idt isr irq (idt s))
    (TablePtr 2047 idt_addr) (interrupt_handlers s) (g_latest_irq s) (apic s) (cpu_gdtr s) (TablePtr 2047 idt_addr)
    (cpu_tr s) (remapped (i_io s)) (i_rest s)).
Proof.
  intros Hl Ha. unfold isr_install. rewrite (bind_ok _ _ _ _ _ (set_idt_gates_run 0 (seqZ 0 32) isr s ltac:(intros n Hn; apply elem_of_seqZ in Hn; lia))).
  erewrite bind_ok. 2: { apply set_idt_gate_run. cbn [idt set_idt_list]. rewrite put_gates_length. lia. }
  rewrite (bind_ok _ _ _ _ _ (eq_refl : on_ports (pic_remap 32 40) _ = Ok (tt, _))).
  erewrite bind_ok.
  2: { apply set_idt_gates_run. intros n Hn. apply elem_of_seqZ in Hn. cbn [idt set_idt_list with_ports]. rewrite length_insert, put_gates_length. lia. }
  unfold set_idt, modify. cbn [idt set_idt_list with_ports]. rewrite u32_small by done. reflexivity.
Qed.

(** ** Handlers *)

Lemma register_run n handler s : length (interrupt_handlers s) = 256%nat →
  arch_register_interrupt_handler n handler s = Ok (tt, set_handlers (<[Z.to_nat (u8 n) := handler]> (interrupt_handlers s)) s).
Proof.
  intros Hl. unfold arch_register_interrupt_handler. rewrite (bind_ok _ _ _ (interrupt_handlers s) s) by done.
  rewrite (bind_ok _ _ _ _ _ (set_nth_ok (interrupt_handlers s) (u8 n) handler s ltac:(pose proof (Z.mod_pos_bound n 256); unfold u8; lia))). done.
Qed.

Lemma eoi_run s : apic s = 0 → 0 ≤ g_latest_irq s < 16 →
  end_of_interrupt s = Ok (tt, with_ports (eoi (g_latest_irq s) ++ i_io s) s).
Proof.
  intros Ha Hi. unfold end_of_interrupt. rewrite (bind_ok _ _ _ (g_latest_irq s) s) by done. unfold ic_send_eio.
  rewrite (bind_ok _ _ _ 0 s) by (unfold get; by rewrite Ha). simpl. unfold on_ports, pic_send_eio, eoi. rewrite u32_small by lia.
  by destruct (Z.leb_spec 8 (g_latest_irq s)).
Qed.
End tables.

(** C17: Booting the processor.  [arch_init] loads a table of flat code and data segments for the
    kernel and for user programs and a task segment at the task state, and an interrupt table in which every
    exception, every hardware interrupt and 0x80 leads to its stub in the kernel's code
    segment, all of them callable from user mode; the other gates stay as they were and
    the interrupt controllers are remapped to vectors 32 to 47.  The limit in the task segment
    is the address behind the task state instead of its size. *)
Theorem arch_init_tables `{!Devices} {K} gdt_addr tss_addr idt_addr isr irq (s : ist K) :
  length (gdt_entries s) = 6%nat → length (tss_entries s) = 2%nat → length (idt s) = 256%nat →
  0 ≤ tss_addr → tss_addr + 2 * SIZEOF_TSS < 4294967296 → 0 ≤ gdt_addr < 4294967296 → 0 ≤ idt_addr < 4294967296 →
  (∀ n, 0 ≤ isr n < 4294967296) → (∀ n, 0 ≤ irq n < 4294967296) →
  ∃ s', arch_init gdt_addr tss_addr idt_addr isr irq s = Ok (0, s') ∧ booted_gdt (gdt_entries s') tss_addr ∧
    cpu_gdtr s' = TablePtr 47 gdt_addr ∧ cpu_idtr s' = TablePtr 2047 idt_addr ∧ cpu_tr s' = 40 ∧
    (∀ n, 0 ≤ n < 256 → ∃ g, idt s' !! Z.to_nat n = Some g ∧
       if n <? 32 then interrupt_gate g (isr n) 3
       else if n <? 48 then interrupt_gate g (irq (n - 32)) 3
       else if n =? 128 then interrupt_gate g (isr 128) 3
       else idt s !! Z.to_nat n = Some g) ∧
    i_io s' = remapped (i_io s) ∧ interrupt_handlers s' = interrupt_handlers s ∧ apic s' = 0.
Proof.
  intros Hg Ht Hi Ha Hta Hga Hia Hisr Hirq.
  destruct (init_gdt_run gdt_addr tss_addr s Hg Ht Ha Hta Hga) as (g & Hrun & Hb).
  eexists. split.
  { unfold arch_init, init_descriptor_tables. rewrite (bind_ok _ _ _ _ _ Hrun).
    rewrite (bind_ok _ _ _ _ _ (isr_install_run idt_addr isr irq (Ist g _ _ (idt s) _ _ _ _ _ _ _ _ _) Hi Hia)). reflexivity. }
  cbn [cpu_gdtr cpu_idtr cpu_tr idt i_io interrupt_handlers apic set_apic gdt_entries]. split; [exact Hb|]. split_and!; try done.
  intros n Hn. unfold booted_idt. set (i0 := put_gates 0 (seqZ 0 32) isr (idt s)).
  assert (Hl0 : length i0 = 256%nat) by (unfold i0; by rewrite put_gates_length).
  destruct (Z.ltb_spec n 32).
  { rewrite put_gates_out, list_lookup_insert_ne by (try (intros k Hk; apply elem_of_seqZ in Hk); lia).
    exists (gate_of (isr n)). split; [|by apply gate_of_ok]. apply (put_gates_in 0); [apply NoDup_seqZ|intros k Hk; apply elem_of_seqZ in Hk; lia|apply elem_of_seqZ; lia|lia]. }
  destruct (Z.ltb_spec n 48).
  { exists (gate_of (irq (n - 32))). split; [|by apply gate_of_ok]. replace n with (32 + (n - 32)) at 1 by lia.
    apply put_gates_in; [apply NoDup_seqZ|intros k Hk; apply elem_of_seqZ in Hk; lia|apply elem_of_seqZ; lia|rewrite length_insert; lia]. }
  rewrite put_gates_out by (intros k Hk; apply elem_of_seqZ in Hk; lia).
  destruct (Z.eqb_spec n 128) as [->|].
  { exists (gate_of (isr 128)). split; [|by apply gate_of_ok]. apply list_lookup_insert_eq. lia. }
  rewrite list_lookup_insert_ne by lia. unfold i0. rewrite put_gates_out by (intros k Hk; apply elem_of_seqZ in Hk; lia).
  destruct (lookup_lt_is_Some_2 (idt s) (Z.to_nat n)) as [x Hx]; [lia|]. by exists x.
Qed.

(** Dispatching an interrupt.  After a handler is registered for vector [n], an interrupt whose number is [n]
    in its low byte runs that handler on the saved registers, whatever the other bytes, and
    other vectors keep their handlers.  Without a handler an exception halts the processor
    after its message, and so does every vector but 32, for which the message is read from
    behind the table. *)
Theorem isr_dispatch `{!Devices} {K} (call : Z → registers_t → M (ist K) registers_t) n handler r (s : ist K) :
  length (interrupt_handlers s) = 256%nat → handler ≠ 0 → 0 ≤ n < 256 → 0 ≤ int_no r →
  ∃ s', arch_register_interrupt_handler n handler s = Ok (tt, s') ∧
    (int_no r mod 256 = n → isr_handler call r s' = call handler r s') ∧
    (int_no r mod 256 ≠ n → ∃ h, interrupt_handlers s !! Z.to_nat (int_no r mod 256) = Some h ∧
       isr_handler call r s' =
         if h =? 0 then if int_no r mod 256 =? 32 then Fault else Hang else call h r s').
Proof.
  intros Hl Hh Hn Hr. eexists. split; [by apply register_run|]. rewrite u8_small by lia.
  unfold isr_handler. rewrite (land_ones_mod _ 8) by done. change (2 ^ 8) with 256. set (k := int_no r mod 256).
  assert (Hk : 0 ≤ k < 256) by (apply Z.mod_pos_bound; lia).
  set (s' := set_handlers _ s). rewrite (bind_ok _ _ s' (<[Z.to_nat n := handler]> (interrupt_handlers s)) s') by done.
  split.
  - intros ->. rewrite list_lookup_insert_eq by lia. rewrite (bind_ok _ _ s' handler s') by done. by destruct (Z.eqb_spec handler 0).
  - intros Hne. rewrite list_lookup_insert_ne by lia. destruct (lookup_lt_is_Some_2 (interrupt_handlers s) (Z.to_nat k)) as [h Hx]; [lia|].
    exists h. split; [done|]. rewrite Hx, (bind_ok _ _ s' h s') by done. unfold EXCEPTION_MESSAGES.
    destruct (Z.eqb_spec h 0), (Z.ltb_spec 32 k), (Z.ltb_spec k 32), (Z.eqb_spec k 32); try lia; done.
Qed.

(** Acknowledging hardware interrupts.  [irq_handler] runs the handler of the vector, or none, and only then sends
    the end of interrupt: to the first controller always, and to the second controller when
    the latest request was 8 or above.  The latest request is looked up again after the
    handler, so a request that arrived meanwhile decides. *)
Theorem irq_acknowledged `{!Devices} {K} (call : Z → registers_t → M (ist K) registers_t) r h (s : ist K) r' s1 :
  interrupt_handlers s !! Z.to_nat (int_no r) = Some h → 32 ≤ int_no r < 48 →
  (if h =? 0 then mret r else call h r) (set_latest (int_no r - 32) s) = Ok (r', s1) →
  apic s1 = 0 → 0 ≤ g_latest_irq s1 < 16 →
  irq_handler call r s = Ok (r', with_ports (eoi (g_latest_irq s1) ++ i_io s1) s1).
Proof.
  intros Hh Hr Hc Ha Hi. unfold irq_handler. rewrite s32_small by lia. set (s0 := set_latest _ s) in *.
  rewrite (bind_ok _ _ s tt s0) by done. rewrite (bind_ok _ _ s0 (interrupt_handlers s) s0) by done.
  rewrite Hh, (bind_ok _ _ s0 h s0) by done.
  rewrite (bind_ok _ _ s0 r' s1) by (rewrite <- Hc; by destruct (h =? 0)). by rewrite (bind_ok _ _ _ _ _ (eoi_run s1 Ha Hi)).
Qed.

(** ** A processor *)

#[local] Instance silent : Devices := {| answer8 _ _ := 0; answer16 _ _ := 0; answer32 _ _ := 0 |}.
Definition zero_gate : idt_gate := IdtGate 0 0 0 0 0.
Definition demo_cpu : ist Z :=
  Ist (replicate 6 (GdtEntry 0 0 0 0 0 0)) (TablePtr 0 0) (replicate 2 (new_tss 0 0)) (replicate 256 zero_gate) (TablePtr 0 0)
    (<[40%nat := 7000]> (replicate 256 0)) 0 0 (TablePtr 0 0) (TablePtr 0 0) 0 [] 5.
Definition regs_for (n : Z) : registers_t := RegistersT 0 0 0 0 0 0 0 0 0 n 0 0 0 0 0 0.

(** Each handler adds its address to the state; the one at 7000 is interrupted by request 0. *)
Definition demo_call (h : Z) (r : registers_t) : M (ist Z) registers_t := λ s,
  Ok (r, Ist (gdt_entries s) (gdt_ptr s) (tss_entries s) (idt s) (idt_reg s) (interrupt_handlers s)
    (if h =? 7000 then 0 else g_latest_irq s) (apic s) (cpu_gdtr s) (cpu_idtr s) (cpu_tr s) (i_io s) (i_rest s + h)).

Lemma arch_init_tables_witness :
  ∃ s', arch_init 1048576 1048640 1052672 (λ n, (2097152 + 16 * n) mod 4294967296) (λ n, (2101248 + 16 * n) mod 4294967296) demo_cpu = Ok (0, s') ∧
    booted_gdt (gdt_entries s') 1048640 ∧
    cpu_gdtr s' = TablePtr 47 1048576 ∧ cpu_idtr s' = TablePtr 2047 1052672 ∧ cpu_tr s' = 40 ∧
    (∀ n, 0 ≤ n < 256 → ∃ g, idt s' !! Z.to_nat n = Some g ∧
       if n <? 32 then interrupt_gate g ((2097152 + 16 * n) mod 4294967296) 3
       else if n <? 48 then interrupt_gate g ((2101248 + 16 * (n - 32)) mod 4294967296) 3
       else if n =? 128 then interrupt_gate g ((2097152 + 16 * 128) mod 4294967296) 3
       else idt demo_cpu !! Z.to_nat n = Some g) ∧
    i_io s' = remapped [] ∧ interrupt_handlers s' = interrupt_handlers demo_cpu ∧ apic s' = 0.
Proof.
  apply (arch_init_tables 1048576 1048640 1052672 (λ n, (2097152 + 16 * n) mod 4294967296) (λ n, (2101248 + 16 * n) mod 4294967296) demo_cpu);
    try done; intros n; apply Z.mod_pos_bound; lia.
Defined.

Lemma isr_dispatch_witness :
  ∃ s', arch_register_interrupt_handler 128 900 demo_cpu = Ok (tt, s') ∧
    (4294967168 mod 256 = 128 → isr_handler demo_call (regs_for 4294967168) s' = demo_call 900 (regs_for 4294967168) s') ∧
    (4294967168 mod 256 ≠ 128 → ∃ h, interrupt_handlers demo_cpu !! Z.to_nat (4294967168 mod 256) = Some h ∧
       isr_handler demo_call (regs_for 4294967168) s' =
         if h =? 0 then if 4294967168 mod 256 =? 32 then Fault else Hang else demo_call h (regs_for 4294967168) s').
Proof. apply (isr_dispatch demo_call 128 900 (regs_for 4294967168) demo_cpu); done. Defined.

Lemma irq_acknowledged_witness :
  let s1 := match demo_call 7000 (regs_for 40) (set_latest 8 demo_cpu) with Ok (_, s1) => s1 | _ => demo_cpu end in
  eoi (g_latest_irq s1) = [OutB 32 32] ∧
  irq_handler demo_call (regs_for 40) demo_cpu = Ok (regs_for 40, with_ports (eoi (g_latest_irq s1) ++ i_io s1) s1).
Proof.
  split; [reflexivity|].
  apply (irq_acknowledged demo_call (regs_for 40) 7000 demo_cpu (regs_for 40)); try done.
Defined.
