(* ===== verification/Timer.v ===== *)
(** * Time (kernel/arch/i386/cpu/pit.c, kernel/core/timer.c, kernel/drivers/cmos, kernel/drivers/time,
    kernel/yanix/time, [sleep] of kfunctions.c)

    The programmable timer and the tick counter its interrupt advances, the real-time clock
    and busy waiting.  What waits is interrupted: [arrivals] gives the number of timer
    interrupts before each look at the counter. *)
From S2P Require Import Prelude Ports Interrupts.

Record time_info := TimeInfo { ticks_since_boot : Z; period : Z; frequency : Z }.

(** [looks] counts the looks at the tick counter. *)
Record tst := Tst {
  g_pit_frequency : Z;
  timer_info : time_info;
  g_epoch_seconds : Z;
  g_epoch_delta : Z;
  looks_taken : nat
}.

Record time_s := TimeS { tm_sec : Z; tm_min : Z; tm_hour : Z; tm_mday : Z; tm_mon : Z; tm_year : Z }.

Definition PIT_PORT_DATA_0 : Z := 64.
Definition PIT_PORT_MODE_CMD : Z := 67.
Definition PIT_INPUT_FREQ : Z := 1193180.
Definition PIT_SET_FREQ_CMD : Z := 54.
Definition TIMER_FREQ : Z := 250.
Definition IRQ0 : Z := 32.
Definition CMOS_SELECT_PORT : Z := 112.
Definition CMOS_IO_PORT : Z := 113.

Definition set_ticks (n : Z) (t : tst) : tst :=
  Tst (g_pit_frequency t) (TimeInfo n (period (timer_info t)) (frequency (timer_info t))) (g_epoch_seconds t) (g_epoch_delta t) (looks_taken t).
Definition set_info (i : time_info) (t : tst) : tst := Tst (g_pit_frequency t) i (g_epoch_seconds t) (g_epoch_delta t) (looks_taken t).
Definition set_freq (f : Z) (t : tst) : tst := Tst f (timer_info t) (g_epoch_seconds t) (g_epoch_delta t) (looks_taken t).
Definition set_epoch (secs delta : Z) (t : tst) : tst := Tst (g_pit_frequency t) (timer_info t) secs delta (looks_taken t).

Section timer.
Context `{!Devices}.

Definition on_rest {K A} (c : M K A) : M (ist K) A := λ s,
  match c (i_rest s) with
  | Ok (a, k) => Ok (a, Ist (gdt_entries s) (gdt_ptr s) (tss_entries s) (idt s) (idt_reg s) (interrupt_handlers s) (g_latest_irq s)
                          (apic s) (cpu_gdtr s) (cpu_idtr s) (cpu_tr s) (i_io s) k)
  | Fault => Fault
  | Hang => Hang
  end.

(** ** pit.c *)

Definition pit_get_freq : M tst Z := get g_pit_frequency.

Definition init_pit (freq callback : Z) : M (ist tst) unit :=
  _ ← arch_register_interrupt_handler IRQ0 callback;
  divisor ← udiv PIT_INPUT_FREQ freq;
  let low := u8 (Z.land divisor 255) in
  let high := u8 (Z.land (Z.shiftr divisor 8) 255) in
  _ ← on_ports (port_byte_out PIT_PORT_MODE_CMD PIT_SET_FREQ_CMD);
  _ ← on_ports (port_byte_out PIT_PORT_DATA_0 low);
  _ ← on_ports (port_byte_out PIT_PORT_DATA_0 high);
  on_rest (modify (set_freq freq)).

Definition arch_init_timer (frequency callback : Z) : M (ist tst) unit := init_pit frequency callback.
Definition arch_timer_get_frequency : M tst Z := pit_get_freq.

(** ** core/timer.c *)

(** [schedule] may run other tasks before it returns to this one. *)
Definition timer_callback {K} (schedule : M (tst * K) unit) : M (tst * K) unit :=
  _ ← modify (λ '(t, k), (set_ticks (u32 (ticks_since_boot (timer_info t) + 1)) t, k));
  schedule.

Definition timer_get_period : M tst Z := get (λ t, period (timer_info t)).
Definition timer_get_frequency : M tst Z := get (λ t, frequency (timer_info t)).
Definition timer_get_cur_ticks : M tst Z := get (λ t, ticks_since_boot (timer_info t)).

(** [callback] is the address of [timer_callback]. *)
Definition init_timer (callback : Z) : M (ist tst) unit :=
  _ ← arch_init_timer TIMER_FREQ callback;
  on_rest (f ← arch_timer_get_frequency;
           p ← udiv 1000 f;
           modify (set_info (TimeInfo 0 p f))).

Definition timer_secs_since_boot : M tst Z :=
  count ← timer_get_cur_ticks; f ← arch_timer_get_frequency; udiv count f.

(** The seconds and, where the caller's variable is written, the microseconds. *)
Definition time_since_boot : M tst (Z * option Z) :=
  count ← timer_get_cur_ticks;
  f ← arch_timer_get_frequency;
  sec ← udiv count f;
  ms ← umod count f;
  if negb (ms =? 0) then q ← udiv f ms; u ← udiv 1000 q; mret (sec, Some u) else mret (sec, None).

(** ** cmos.c and time.c *)

Definition cmos_read (addr : Z) : M (list io) Z :=
  _ ← port_byte_out CMOS_SELECT_PORT (Z.lor 128 addr);
  port_byte_in CMOS_IO_PORT.

Definition bcd_to_bin (val : Z) : Z := s32 (Z.land val 15 + Z.shiftr val 4 * 10).

Definition time_add_delta (milliseconds : Z) : M tst unit :=
  t ← get (λ t, t);
  let d := u32 (g_epoch_delta t + milliseconds) in
  if 1000 <? d then modify (set_epoch (g_epoch_seconds t + 1) 0) else modify (set_epoch (g_epoch_seconds t) d).

(** The variable [second] points to, when it is not null, and the result. *)
Definition time (second : bool) : M tst (option Z * Z) :=
  n ← get g_epoch_seconds; mret (if second then (Some n, 0) else (None, n)).

(** The structure is filled and then forgotten. *)
Definition init_time : M (list io * tst) time_s := λ '(tr, t),
  match (sec ← cmos_read 0;
         min ← cmos_read 2;
         hour ← cmos_read 4;
         mday ← cmos_read 7;
         mon ← cmos_read 8;
         year ← cmos_read 9;
         mret (TimeS (bcd_to_bin sec) (bcd_to_bin min) (bcd_to_bin hour) (bcd_to_bin mday) (bcd_to_bin (mon - 1)) (bcd_to_bin year))) tr with
  | Ok (g_time, tr') => Ok (g_time, (tr', set_epoch 0 (g_epoch_delta t) t))
  | Fault => Fault
  | Hang => Hang
  end.

(** ** kfunctions.c *)

Variable arrivals : nat → nat.

(** The tick counter as a loop sees it: the interrupts that are due come first. *)
Definition look_at_ticks : M tst Z := λ t,
  let t' := Tst (g_pit_frequency t)
    (TimeInfo (u32 (ticks_since_boot (timer_info t) + Z.of_nat (arrivals (looks_taken t)))) (period (timer_info t)) (frequency (timer_info t)))
    (g_epoch_seconds t) (g_epoch_delta t) (S (looks_taken t)) in
  timer_get_cur_ticks t'.

Definition _tick_sleep (fuel : nat) (amount : Z) : M tst unit :=
  start ← look_at_ticks;
  loop fuel (λ _ : unit, now ← look_at_ticks; if u32 (now - start) <=? amount then mret (inl tt) else mret (inr tt)) tt.

Definition sleep (fuel : nat) (milliseconds : Z) : M tst unit :=
  p ← timer_get_period;
  amount ← udiv milliseconds p;
  _tick_sleep fuel (if amount =? 0 then amount + 1 else amount).
End timer.

(** ** Waiting *)

(** The wrapping distance from [start] grows by what arrived. *)
Lemma distance_step T start n e : u32 (T - start) = e → 0 ≤ n → e + n < 4294967296 → u32 (u32 (T + n) - start) = e + n.
Proof.
  intros He Hn Hlt. unfold u32 in *. rewrite Zminus_mod_idemp_l. replace (T + n - start) with (T - start + n) by lia.
  rewrite <- Zplus_mod_idemp_l, He. apply Z.mod_small. pose proof (Z.mod_pos_bound (T - start) 4294967296). lia.
Qed.

Section waiting.
Variable arrivals : nat → nat.
Variable patience : nat.
Hypothesis one_at_a_time : ∀ k, (arrivals k ≤ 1)%nat.
Hypothesis keeps_ticking : ∀ k, ∃ j, (j < patience)%nat ∧ arrivals (k + j) = 1%nat.

Lemma next_arrival k : ∃ j, (j < patience)%nat ∧ arrivals (k + j) = 1%nat ∧ ∀ i, (i < j)%nat → arrivals (k + i) = 0%nat.
Proof.
  assert (Hn : ∀ n, (∀ i, (i < n)%nat → arrivals (k + i) = 0%nat) ∨
    ∃ j, (j < n)%nat ∧ arrivals (k + j) = 1%nat ∧ ∀ i, (i < j)%nat → arrivals (k + i) = 0%nat).
  { induction n as [|n [IH|(j & Hj & H1 & H0)]]; [left; lia| |right; exists j; split_and!; [lia|done..]].
    pose proof (one_at_a_time (k + n)). destruct (arrivals (k + n)) as [|[|]] eqn:E; [left|right; exists n; by split_and!; [lia|..]|lia].
    intros i Hi. destruct (decide (i = n)) as [->|]; [done|apply IH; lia]. }
  destruct (keeps_ticking k) as (j & Hj & Ha), (Hn patience) as [H0|(i & Hi & H1 & H0)]; [by rewrite H0 in Ha|by exists i].
Qed.

(** [m] looks are left at most. *)
Definition waiting (start amount : Z) (m : nat) (t : tst) : Prop :=
  ∃ j e, u32 (ticks_since_boot (timer_info t) - start) = e ∧ 0 ≤ e ≤ amount ∧ m = (Z.to_nat (amount - e) * patience + j)%nat ∧
    (j < patience)%nat ∧ arrivals (looks_taken t + j) = 1%nat ∧ ∀ i, (i < j)%nat → arrivals (looks_taken t + i) = 0%nat.

Lemma look_waits start amount m t : amount < 4294967294 → waiting start amount m t →
  wp (now ← look_at_ticks arrivals; if u32 (now - start) <=? amount then mret (inl tt) else mret (inr tt))
    (λ r t', match r with
             | inl _ => ∃ m', (m' < m)%nat ∧ waiting start amount m' t'
             | inr _ => u32 (ticks_since_boot (timer_info t') - start) = amount + 1 ∧ period (timer_info t') = period (timer_info t)
             end) t.
Proof.
  intros Ham (j & e & He & Hr & -> & Hj & H1 & H0). apply wp_bind.
  set (n := Z.of_nat (arrivals (looks_taken t))). assert (Hn : 0 ≤ n ≤ 1) by (pose proof (one_at_a_time (looks_taken t)); lia).
  pose proof (distance_step _ _ n _ He ltac:(lia) ltac:(lia)) as Hd. eapply run_wp; [reflexivity|]. cbn [timer_info ticks_since_boot]. fold n. rewrite Hd.
  destruct j as [|j].
  - rewrite Nat.add_0_r in H1. assert (Hn1 : n = 1) by (unfold n; rewrite H1; done). rewrite Hn1 in *.
    destruct (Z.leb_spec (e + 1) amount).
    + apply wp_ret. destruct (next_arrival (S (looks_taken t))) as (j & Hj' & Ha & Hb).
      exists (Z.to_nat (amount - (e + 1)) * patience + j)%nat. split; [nia|]. exists j, (e + 1). split_and!; try done; lia.
    + apply wp_ret. cbn [timer_info ticks_since_boot period]. split; [|done]. rewrite Hd. lia.
  - assert (Hn0 : n = 0) by (unfold n; specialize (H0 0%nat ltac:(lia)); rewrite Nat.add_0_r in H0; by rewrite H0). rewrite Hn0 in *.
    destruct (Z.leb_spec (e + 0) amount); [|lia]. apply wp_ret. exists (Z.to_nat (amount - e) * patience + j)%nat. split; [lia|].
    exists j, e. cbn [timer_info ticks_since_boot looks_taken]. split_and!; try lia.
    + rewrite <- Nat.add_succ_comm in H1. exact H1.
    + intros i Hi. specialize (H0 (S i) ltac:(lia)). rewrite <- Nat.add_succ_comm in H0. exact H0.
Qed.

Lemma tick_sleep_run fuel amount t : 0 ≤ amount < 4294967294 → (Z.to_nat (amount + 1) * patience < fuel)%nat →
  0 ≤ ticks_since_boot (timer_info t) < 4294967296 →
  ∃ t', _tick_sleep arrivals fuel amount t = Ok (tt, t') ∧
    u32 (ticks_since_boot (timer_info t') - (ticks_since_boot (timer_info t) + Z.of_nat (arrivals (looks_taken t)))) = amount + 1.
Proof.
  intros Ha Hf Ht. unfold _tick_sleep. set (start := u32 (ticks_since_boot (timer_info t) + Z.of_nat (arrivals (looks_taken t)))).
  set (t0 := Tst (g_pit_frequency t) (TimeInfo start (period (timer_info t)) (frequency (timer_info t))) (g_epoch_seconds t) (g_epoch_delta t) (S (looks_taken t))).
  rewrite (bind_ok _ _ t start t0) by done. destruct (next_arrival (looks_taken t0)) as (j & Hj & H1 & H0).
  assert (Hw : waiting start amount (Z.to_nat (amount - 0) * patience + j) t0).
  { exists j, 0. split_and!; try done; try lia. cbn [t0 timer_info ticks_since_boot]. by rewrite Z.sub_diag. }
  edestruct (wp_run (loop fuel (λ _ : unit, now ← look_at_ticks arrivals; if u32 (now - start) <=? amount then mret (inl tt) else mret (inr tt)) tt))
    as ([] & t' & Hr & HQ).
  { eapply (wp_loop _ (λ m _, waiting start amount m) (λ _ t', u32 (ticks_since_boot (timer_info t') - start) = amount + 1)); [|exact Hw|nia].
    intros m [] t1 H. eapply wp_mono; [apply look_waits; [lia|exact H]|]. intros [[]|[]] t2; [done|]. by intros []. }
  exists t'. split; [done|]. rewrite <- HQ. unfold start, u32. by rewrite Zminus_mod_idemp_r.
Qed.
End waiting.

(** ** Theorems *)

Lemma init_pit_run `{!Devices} freq callback (s : ist tst) : length (interrupt_handlers s) = 256%nat → freq ≠ 0 →
  let d := PIT_INPUT_FREQ / freq in
  init_pit freq callback s = Ok (tt, Ist (gdt_entries s) (gdt_ptr s) (tss_entries s) (idt s) (idt_reg s)
    (<[32%nat := callback]> (interrupt_handlers s)) (g_latest_irq s) (apic s) (cpu_gdtr s) (cpu_idtr s) (cpu_tr s)
    (OutB PIT_PORT_DATA_0 (u8 (Z.land (Z.shiftr d 8) 255)) :: OutB PIT_PORT_DATA_0 (u8 (Z.land d 255)) ::
     OutB PIT_PORT_MODE_CMD PIT_SET_FREQ_CMD :: i_io s) (set_freq freq (i_rest s))).
Proof.
  intros Hl Hf d. unfold init_pit. rewrite (bind_ok _ _ _ _ _ (register_run IRQ0 callback s Hl)).
  erewrite bind_ok by (by apply udiv_ok). fold d.
  set (l := u8 (Z.land d 255)). set (h := u8 (Z.land (Z.shiftr d 8) 255)).
  assert (El : u8 l = l) by (apply u8_small, Z.mod_pos_bound; lia). assert (Eh : u8 h = h) by (apply u8_small, Z.mod_pos_bound; lia).
  cbv zeta. unfold on_ports, on_rest, port_byte_out, mbind, M_bind, modify. rewrite El, Eh. reflexivity.
Qed.

(** Programming the timer.  For every frequency the timer's 16-bit divisor can express, [init_pit] sends it the
    two bytes of the divisor, installs the callback as the handler of interrupt 32 and remembers the frequency;
    frequency 0 traps.  At boot the timer runs at 250 Hz with a period of 4 ms. *)
Theorem timer_programmed `{!Devices} freq callback (s : ist tst) :
  length (interrupt_handlers s) = 256%nat → 19 ≤ freq ≤ PIT_INPUT_FREQ →
  (∃ low high s', init_pit freq callback s = Ok (tt, s') ∧ low + 256 * high = PIT_INPUT_FREQ / freq ∧
    i_io s' = OutB PIT_PORT_DATA_0 high :: OutB PIT_PORT_DATA_0 low :: OutB PIT_PORT_MODE_CMD PIT_SET_FREQ_CMD :: i_io s ∧
    interrupt_handlers s' = <[32%nat := callback]> (interrupt_handlers s) ∧ g_pit_frequency (i_rest s') = freq) ∧
  init_pit 0 callback s = Fault ∧
  ∃ s', init_timer callback s = Ok (tt, s') ∧ timer_info (i_rest s') = TimeInfo 0 4 250.
Proof.
  intros Hl Hf. assert (Hd : 0 ≤ PIT_INPUT_FREQ / freq < 65536).
  { unfold PIT_INPUT_FREQ in *. split; [apply Z.div_pos; lia|apply Z.div_lt_upper_bound; lia]. }
  split; [|split].
  - set (d := PIT_INPUT_FREQ / freq) in *. exists (u8 (Z.land d 255)), (u8 (Z.land (Z.shiftr d 8) 255)). eexists.
    split; [apply init_pit_run; [done|lia]|]. split; [|done].
    rewrite (land_ones_mod _ 8), shifted_byte by lia. unfold u8. change (2 ^ 8) with 256. rewrite Z.mod_mod by lia.
    rewrite (Z.mod_small (d / 256)) by (split; [apply Z.div_pos|apply Z.div_lt_upper_bound]; lia). pose proof (Z.div_mod d 256). lia.
  - unfold init_pit. by rewrite (bind_ok _ _ _ _ _ (register_run IRQ0 callback s Hl)).
  - eexists. split.
    + unfold init_timer. rewrite (bind_ok _ _ _ _ _ (init_pit_run TIMER_FREQ callback s Hl ltac:(done))). reflexivity.
    + reflexivity.
Qed.

(** The time since boot.  [time_since_boot] gives the whole seconds the tick counter stands for.  Its second result is not
    written when the second is full, and otherwise lies between the milliseconds since then and twice as
    many, although it is documented as microseconds. *)
Theorem uptime_resolution (t : tst) :
  g_pit_frequency t = 250 → 0 ≤ ticks_since_boot (timer_info t) →
  ∃ u, time_since_boot t = Ok ((ticks_since_boot (timer_info t) / 250, u), t) ∧
    match u with
    | None => ticks_since_boot (timer_info t) mod 250 = 0
    | Some v => let ms := 4 * (ticks_since_boot (timer_info t) mod 250) in 0 < ms ∧ ms ≤ v < 2 * ms
    end.
Proof.
  intros Hf Ht. unfold time_since_boot. set (c := ticks_since_boot (timer_info t)) in *.
  rewrite (bind_ok _ _ t c t), (bind_ok _ _ t 250 t) by (try done; unfold arch_timer_get_frequency, pit_get_freq, get; by rewrite Hf).
  rewrite (bind_ok _ _ _ _ _ (udiv_ok c 250 t ltac:(lia))), (bind_ok _ _ _ _ _ (umod_ok c 250 t ltac:(lia))).
  pose proof (Z.mod_pos_bound c 250 ltac:(lia)) as Hm. set (m := c mod 250) in *. destruct (Z.eqb_spec m 0) as [E|E]; simpl.
  - exists None. by rewrite E.
  - assert (Hall : forallb (λ m, (m =? 0) || (negb (250 / m =? 0) && (4 * m <=? 1000 / (250 / m)) && (1000 / (250 / m) <? 2 * (4 * m)))) (seqZ 0 250) = true)
      by (vm_compute; reflexivity).
    pose proof (bytes_all _ _ _ Hall Hm) as H. cbv beta in H. apply orb_prop in H as [H%Z.eqb_eq|H]; [exact (False_ind _ (E H))|].
    apply andb_prop in H as [[Hq H1]%andb_prop H2]. apply negb_true_iff, Z.eqb_neq in Hq. apply Z.leb_le in H1. apply Z.ltb_lt in H2.
    rewrite (bind_ok _ _ _ _ _ (udiv_ok 250 m t E)), (bind_ok _ _ _ _ _ (udiv_ok 1000 (250 / m) t Hq)).
    eexists. split; [reflexivity|]. simpl. lia.
Qed.

(** A real-time clock that shows the numbers [now] in decimal digits. *)
Class RtcClock `{!Devices} (now : Z → Z) : Prop := {
  rtc_range : ∀ a, 0 ≤ now a < 100;
  rtc_shows : ∀ a tr, 0 ≤ a < 128 → answer8 (OutB CMOS_SELECT_PORT (128 + a) :: tr) CMOS_IO_PORT = 16 * (now a / 10) + now a mod 10
}.

Lemma bcd_to_bin_ok v : 0 ≤ v < 100 → bcd_to_bin (16 * (v / 10) + v mod 10) = v.
Proof.
  intros Hv. assert (Hall : forallb (λ v, bcd_to_bin (16 * (v / 10) + v mod 10) =? v) (seqZ 0 100) = true) by (vm_compute; reflexivity).
  apply Z.eqb_eq. exact (bytes_all _ _ _ Hall Hv).
Qed.

Lemma bcd_range v : 0 ≤ v < 100 → 0 ≤ 16 * (v / 10) + v mod 10 < 256.
Proof.
  intros Hv. pose proof (Z.mod_pos_bound v 10). assert (0 ≤ v / 10 < 10) by (split; [apply Z.div_pos|apply Z.div_lt_upper_bound]; lia). lia.
Qed.

Lemma cmos_read_ok `{!Devices} now `{!RtcClock now} a tr : 0 ≤ a < 128 → Z.lor 128 a = 128 + a →
  ∃ tr', cmos_read a tr = Ok (16 * (now a / 10) + now a mod 10, tr').
Proof.
  intros Ha Hl. unfold cmos_read. erewrite bind_ok by done. unfold port_byte_in.
  rewrite (u16_small CMOS_IO_PORT), (u16_small CMOS_SELECT_PORT), Hl, (u8_small (128 + a)) by (unfold CMOS_IO_PORT, CMOS_SELECT_PORT; lia).
  rewrite rtc_shows by done. rewrite u8_small by (apply bcd_range, rtc_range). by eexists.
Qed.

(** Reading the clock.  [init_time] decodes the decimal digits of the real-time clock into the second, the minute, the hour,
    the day and the year.  The month is decreased before it is decoded: it counts from 0, but
    October comes out as 15. *)
Theorem clock_decoded `{!Devices} now `{!RtcClock now} tr t :
  1 ≤ now 8 ≤ 12 →
  ∃ tr', init_time (tr, t) = Ok (TimeS (now 0) (now 2) (now 4) (now 7) (if now 8 =? 10 then 15 else now 8 - 1) (now 9),
    (tr', set_epoch 0 (g_epoch_delta t) t)).
Proof.
  intros Hm. unfold init_time.
  edestruct (cmos_read_ok now 0 tr) as [t0 E0]; [lia|done|]. rewrite (bind_ok _ _ _ _ _ E0). edestruct (cmos_read_ok now 2 t0) as [t1 E1]; [lia|done|]. rewrite (bind_ok _ _ _ _ _ E1).
  edestruct (cmos_read_ok now 4 t1) as [t2 E2]; [lia|done|]. rewrite (bind_ok _ _ _ _ _ E2). edestruct (cmos_read_ok now 7 t2) as [t3 E3]; [lia|done|]. rewrite (bind_ok _ _ _ _ _ E3).
  edestruct (cmos_read_ok now 8 t3) as [t4 E4]; [lia|done|]. rewrite (bind_ok _ _ _ _ _ E4). edestruct (cmos_read_ok now 9 t4) as [t5 E5]; [lia|done|]. rewrite (bind_ok _ _ _ _ _ E5).
  exists t5. cbn [mret M_ret]. rewrite !bcd_to_bin_ok by apply rtc_range.
  assert (Hall : forallb (λ m, (m =? 0) || (bcd_to_bin (16 * (m / 10) + m mod 10 - 1) =? (if m =? 10 then 15 else m - 1))) (seqZ 0 13) = true) by (vm_compute; reflexivity).
  assert (Hm' : 0 ≤ now 8 < 13) by lia. pose proof (bytes_all _ _ _ Hall Hm') as Hx. cbv beta in Hx. apply orb_prop in Hx as [Hx%Z.eqb_eq|Hx%Z.eqb_eq]; [lia|].
  by rewrite Hx.
Qed.

(** C22: Sleeping ends.  As long as timer interrupts keep arriving, one at a time, [sleep] returns, and it does so when one tick more than the
    requested time has passed since it started, where less than a period counts as one; this also holds
    when the tick counter wraps around. *)
Theorem sleep_ticks arrivals patience fuel ms t :
  (∀ k, (arrivals k ≤ 1)%nat) → (∀ k, ∃ j, (j < patience)%nat ∧ arrivals (k + j)%nat = 1%nat) →
  0 < period (timer_info t) → 0 ≤ ms < 4294967294 → 0 ≤ ticks_since_boot (timer_info t) < 4294967296 →
  let amount := Z.max 1 (ms / period (timer_info t)) in
  (Z.to_nat (amount + 1) * patience < fuel)%nat →
  ∃ t', sleep arrivals fuel ms t = Ok (tt, t') ∧
    u32 (ticks_since_boot (timer_info t') - (ticks_since_boot (timer_info t) + Z.of_nat (arrivals (looks_taken t)))) = amount + 1.
Proof.
  intros H1 H2 Hp Hms Ht amount Hf. unfold sleep. rewrite (bind_ok _ _ t (period (timer_info t)) t) by done.
  rewrite (bind_ok _ _ _ _ _ (udiv_ok ms (period (timer_info t)) t ltac:(lia))).
  assert (0 ≤ ms / period (timer_info t) ≤ ms) by (split; [apply Z.div_pos; lia|apply Z.div_le_upper_bound; nia]).
  assert (Ha : (if ms / period (timer_info t) =? 0 then ms / period (timer_info t) + 1 else ms / period (timer_info t)) = amount)
    by (unfold amount; destruct (Z.eqb_spec (ms / period (timer_info t)) 0); lia).
  rewrite Ha. apply (tick_sleep_run arrivals patience H1 H2); [unfold amount; lia|done|done].
Qed.

(** ** A machine *)

#[local] Instance demo_rtc : Devices := {|
  answer8 tr _ := match tr with OutB _ x :: _ => if x =? 136 then 16 else 36 | _ => 0 end;
  answer16 _ _ := 0; answer32 _ _ := 0
|}.

Definition demo_now (a : Z) : Z := if a =? 8 then 10 else 24.

#[local] Instance demo_rtc_ok : RtcClock demo_now.
Proof.
  split.
  - intros a. unfold demo_now. destruct (a =? 8); lia.
  - intros a tr Ha. unfold demo_now. simpl. by destruct (Z.eqb_spec (128 + a) 136), (Z.eqb_spec a 8); try lia.
Defined.

Definition demo_tst : tst := Tst 250 (TimeInfo 4294967290 4 250) 0 0 0.
Definition demo_cpu_timer : ist tst :=
  Ist [] (TablePtr 0 0) [] [] (TablePtr 0 0) (replicate 256 0) 0 0 (TablePtr 0 0) (TablePtr 0 0) 0 [] demo_tst.

Lemma timer_programmed_witness :
  (∃ low high s', init_pit 1000 5000 demo_cpu_timer = Ok (tt, s') ∧ low + 256 * high = PIT_INPUT_FREQ / 1000 ∧
    i_io s' = [OutB PIT_PORT_DATA_0 high; OutB PIT_PORT_DATA_0 low; OutB PIT_PORT_MODE_CMD PIT_SET_FREQ_CMD] ∧
    interrupt_handlers s' = <[32%nat := 5000]> (replicate 256 0) ∧ g_pit_frequency (i_rest s') = 1000) ∧
  init_pit 0 5000 demo_cpu_timer = Fault ∧
  ∃ s', init_timer 5000 demo_cpu_timer = Ok (tt, s') ∧ timer_info (i_rest s') = TimeInfo 0 4 250.
Proof. apply (timer_programmed 1000 5000 demo_cpu_timer); [done|unfold PIT_INPUT_FREQ; lia]. Defined.

Lemma uptime_resolution_witness :
  ∃ u, time_since_boot demo_tst = Ok ((4294967290 / 250, u), demo_tst) ∧
    match u with None => 4294967290 mod 250 = 0 | Some v => let ms := 4 * (4294967290 mod 250) in 0 < ms ∧ ms ≤ v < 2 * ms end.
Proof. apply (uptime_resolution demo_tst); done. Defined.

Lemma clock_decoded_witness :
  ∃ tr', init_time ([], demo_tst) = Ok (TimeS 24 24 24 24 15 24, (tr', set_epoch 0 0 demo_tst)).
Proof. apply (clock_decoded demo_now [] demo_tst). unfold demo_now. simpl. lia. Defined.

Lemma sleep_ticks_witness :
  ∃ t', sleep (λ k, (k mod 2)%nat) 100 40 demo_tst = Ok (tt, t') ∧
    u32 (ticks_since_boot (timer_info t') - (4294967290 + 0)) = Z.max 1 (40 / 4) + 1.
Proof.
  apply (sleep_ticks (λ k, (k mod 2)%nat) 2 100 40 demo_tst); try (simpl; lia).
  intros k. destruct (Nat.Even_or_Odd k) as [[j ->]|[j ->]].
  - exists 1%nat. split; [lia|]. rewrite Nat.mul_comm, Nat.add_comm, Nat.Div0.mod_add. done.
  - exists 0%nat. split; [lia|]. rewrite Nat.add_0_r, Nat.mul_comm, Nat.add_comm, Nat.Div0.mod_add. done.
Defined.
