(* ===== verification/Pci.v ===== *)
(** * PCI devices (kernel/drivers/pci/pci.c)

    Configuration space is reached through two ports; [PciBus] states what the hardware
    answers.  The devices found are structures in memory, linked by addresses; [alloc] gives
    the address of each allocation. *)
From S2P Require Import Prelude Ports Interrupts.

Inductive pci_name := UnknownPciDevice | Rtl8139EthernetCard | PataHardDrive.

Record pci_device := PciDevice {
  pd_bus : Z; pd_device : Z; pd_function : Z;
  vendor_id : Z; device_id : Z; pd_command : Z;
  class_code : Z; subclass : Z; prog_if : Z; rev_id : Z; header_type : Z;
  pd_header : Z; pd_driver : Z; pd_name : pci_name; pd_next : Z
}.

Record pci_common_header := PciHeader { hdr_BAR : list Z; interrupt_line : Z; interrupt_pin : Z; min_grant : Z; max_latency : Z }.

Record pst := Pst {
  p_devs : gmap Z pci_device;
  p_headers : gmap Z pci_common_header;
  g_pcilist : Z;
  g_pci_device_count : Z;
  p_allocs : nat;
  p_io : list io
}.

Definition CONFIG_ADDRESS : Z := 3320.
Definition CONFIG_DATA : Z := 3324.
Definition PCI_VENDOR_OFFSET : Z := 0.
Definition PCI_DEVICE_ID_OFFSET : Z := 2.
Definition PCI_COMMAND_OFFSET : Z := 4.
Definition PCI_INTERRUPT_LINE_OFFSET : Z := 60.
Definition PCI_INTERRUPT_PIN_OFFSET : Z := 62.

Section pci.
Context `{!Devices}.
(** The address of the n-th allocation. *)
Variable alloc : nat → Z.
(** The addresses of the drivers. *)
Variables init_rtl8139 init_ata : Z.

Definition set_devs (d : gmap Z pci_device) (s : pst) : pst := Pst d (p_headers s) (g_pcilist s) (g_pci_device_count s) (p_allocs s) (p_io s).
Definition set_list (l : Z) (s : pst) : pst := Pst (p_devs s) (p_headers s) l (g_pci_device_count s) (p_allocs s) (p_io s).

Definition on_io {A} (c : M (list io) A) : M pst A := λ s,
  match c (p_io s) with
  | Ok (a, tr) => Ok (a, Pst (p_devs s) (p_headers s) (g_pcilist s) (g_pci_device_count s) (p_allocs s) tr)
  | Fault => Fault
  | Hang => Hang
  end.

(** ** Configuration space *)

Definition make_pci_addr (bus slot func offset : Z) : Z :=
  u32 (Z.lor (Z.lor (Z.lor (Z.lor (u32 (Z.shiftl (u16 bus) 16)) (u32 (Z.shiftl (u16 slot) 11))) (u32 (Z.shiftl (u16 func) 8)))
    (Z.land (u16 offset) 252)) 2147483648).

Definition pci_read_word (bus slot func offset : Z) : M pst Z :=
  _ ← on_io (port_line_out CONFIG_ADDRESS (make_pci_addr bus slot func offset));
  v ← on_io (port_line_in CONFIG_DATA);
  mret (u16 (Z.land (Z.shiftr v (Z.land (u16 offset) 2 * 8)) 65535)).

Definition pci_write_dword (bus slot function offset value : Z) : M pst unit :=
  _ ← on_io (port_line_out CONFIG_ADDRESS (make_pci_addr bus slot function offset));
  on_io (port_line_out CONFIG_DATA value).

Definition load_dev (p : Z) : M pst pci_device := s ← get p_devs; of_option (s !! p).
Definition upd_dev (p : Z) (f : pci_device → pci_device) : M pst unit :=
  d ← load_dev p; modify (λ s, set_devs (<[p := f d]> (p_devs s)) s).

Definition pci_read (pcidev offset : Z) : M pst Z :=
  d ← load_dev pcidev; pci_read_word (pd_bus d) (pd_device d) (pd_function d) offset.

Definition pci_get_vendor_id (bus device function : Z) : M pst Z := pci_read_word bus device function PCI_VENDOR_OFFSET.
Definition pci_get_command (bus device function : Z) : M pst Z := pci_read_word bus device function PCI_COMMAND_OFFSET.
Definition pci_get_device_id (bus device function : Z) : M pst Z := pci_read_word bus device function PCI_DEVICE_ID_OFFSET.
Definition pci_get_class_id (bus device function : Z) : M pst Z :=
  w ← pci_read_word bus device function 10; mret (u16 (Z.shiftr (Z.land w (Z.lnot 255)) 8)).
Definition pci_get_subclass_id (bus device function : Z) : M pst Z :=
  w ← pci_read_word bus device function 10; mret (u16 (Z.land w (Z.lnot 65280))).
Definition pci_get_prog_if (bus device function : Z) : M pst Z :=
  w ← pci_read_word bus device function 8; mret (u16 (Z.shiftr (Z.land w (Z.lnot 255)) 8)).
Definition pci_get_header_type (bus device function : Z) : M pst Z :=
  w ← pci_read_word bus device function 14; mret (u16 (Z.land w (Z.lnot 65280))).
Definition pci_get_rev_id (bus device function : Z) : M pst Z :=
  w ← pci_read_word bus device function 8; mret (u16 (Z.land w (Z.lnot 65280))).

Definition pci_get_base_address (bus device function address : Z) : M pst Z :=
  w ← pci_read_word bus device function (15 + address * 4);
  w' ← pci_read_word bus device function (15 + address * 4 + 2);
  mret (u16 (Z.lor (u32 (Z.shiftl w 16)) w')).

(** ** Devices *)

Definition kcalloc : M pst Z := λ s,
  Ok (alloc (p_allocs s), Pst (p_devs s) (p_headers s) (g_pcilist s) (g_pci_device_count s) (S (p_allocs s)) (p_io s)).

Definition load_header (p : Z) : M pst pci_common_header := h ← get p_headers; of_option (h !! p).

Definition pci_parse_header (bus slot function header_type : Z) : M pst Z :=
  if header_type =? 0 then
    header ← kcalloc;
    b0 ← pci_get_base_address bus slot function 0;
    b1 ← pci_get_base_address bus slot function 1;
    b2 ← pci_get_base_address bus slot function 2;
    b3 ← pci_get_base_address bus slot function 3;
    b4 ← pci_get_base_address bus slot function 4;
    b5 ← pci_get_base_address bus slot function 5;
    pin ← pci_read_word bus slot function PCI_INTERRUPT_PIN_OFFSET;
    line ← pci_read_word bus slot function PCI_INTERRUPT_LINE_OFFSET;
    _ ← modify (λ s, Pst (p_devs s) (<[header := PciHeader [b0; b1; b2; b3; b4; b5] (u8 line) (u8 pin) 0 0]> (p_headers s))
                       (g_pcilist s) (g_pci_device_count s) (p_allocs s) (p_io s));
    mret header
  else mret 0.

Definition pci_get_bar_by_index (pcidev index : Z) : M pst Z :=
  d ← load_dev pcidev; h ← load_header (pd_header d); of_option (hdr_BAR h !! Z.to_nat index).

Definition pci_get_bar_by_type (pcidev type : Z) : M pst Z :=
  d ← load_dev pcidev; h ← load_header (pd_header d);
  mret (default 4294967295 (snd <$> list_find (λ bar, Z.land bar 1 = type) (hdr_BAR h))).

Definition link_to (p : Z) (d : pci_device) : pci_device :=
  PciDevice (pd_bus d) (pd_device d) (pd_function d) (vendor_id d) (device_id d) (pd_command d) (class_code d) (subclass d)
    (prog_if d) (rev_id d) (header_type d) (pd_header d) (pd_driver d) (pd_name d) p.

Definition use_driver (driver : Z) (name : pci_name) (d : pci_device) : pci_device :=
  PciDevice (pd_bus d) (pd_device d) (pd_function d) (vendor_id d) (device_id d) (pd_command d) (class_code d) (subclass d)
    (prog_if d) (rev_id d) (header_type d) (pd_header d) driver name (pd_next d).

(** The walks along the list take at most a round per allocation. *)
Definition add_pci_device (dev : Z) : M pst unit :=
  s ← get (λ s, s);
  _ ← (if g_pcilist s =? 0 then modify (set_list dev)
       else
         tmp ← loop (S (p_allocs s)) (λ tmp,
           d ← load_dev tmp; if pd_next d =? 0 then mret (inr tmp) else mret (inl (pd_next d))) (g_pcilist s);
         upd_dev tmp (link_to dev));
  modify (λ s, Pst (p_devs s) (p_headers s) (g_pcilist s) (u32 (g_pci_device_count s + 1)) (p_allocs s) (p_io s)).

(** The tables [known_devices] and [generic_devices]; -1 stands for any interface. *)
Definition known_devices : list (Z * Z * Z * pci_name) := [(4332, 33081, init_rtl8139, Rtl8139EthernetCard)].
Definition generic_devices : list (Z * Z * Z * Z * pci_name) := [(1, 1, -1, init_ata, PataHardDrive)].

Definition match_known (d : pci_device) (e : Z * Z * Z * pci_name) : pci_device :=
  let '(v, i, driver, name) := e in
  if (v =? vendor_id d) && (i =? device_id d) then use_driver driver name d else d.
Definition match_generic (d : pci_device) (e : Z * Z * Z * Z * pci_name) : pci_device :=
  let '(c, sc, p, driver, name) := e in
  if (c =? class_code d) && (sc =? subclass d) && ((p =? -1) || (p =? prog_if d)) then use_driver driver name d else d.

Definition probe (bus slot function : Z) : M pst unit :=
  v ← pci_get_vendor_id bus slot function;
  if v =? 65535 then mret tt
  else
    pcidev ← kcalloc;
    did ← pci_get_device_id bus slot function;
    cmd ← pci_get_command bus slot function;
    cls ← pci_get_class_id bus slot function;
    sub ← pci_get_subclass_id bus slot function;
    pif ← pci_get_prog_if bus slot function;
    ht ← pci_get_header_type bus slot function;
    hdr ← pci_parse_header bus slot function (u8 ht);
    rev ← pci_get_rev_id bus slot function;
    _ ← modify (λ s, set_devs (<[pcidev := PciDevice (u16 bus) (u16 slot) (u16 function) v did cmd (u8 cls) (u8 sub) (u8 pif) (u8 rev) (u8 ht)
                                              hdr 0 UnknownPciDevice 0]> (p_devs s)) s);
    _ ← add_pci_device pcidev;
    _ ← upd_dev pcidev (λ d, foldl match_known d known_devices);
    upd_dev pcidev (λ d, foldl match_generic d generic_devices).

Definition _pci_find_brute : M pst unit :=
  for_each (seqZ 0 256) (λ bus,
    for_each (seqZ 0 32) (λ slot,
      for_each (seqZ 0 8) (λ function, probe bus slot function))).

Definition init_pci : M pst Z := _ ← _pci_find_brute; mret 0.

(** What the driver at an address does with a device. *)
Variable call_driver : Z → Z → M pst Z.

Definition init_pci_devices : M pst Z :=
  s ← get (λ s, s);
  if g_pcilist s =? 0 then mret 0
  else loop (S (p_allocs s)) (λ tmp,
    d ← load_dev tmp;
    _ ← (if negb (pd_driver d =? 0) then call_driver (pd_driver d) tmp else mret 0);
    d' ← load_dev tmp;
    if pd_next d' =? 0 then mret (inr 0) else mret (inl (pd_next d'))) (g_pcilist s).

Definition find_where (test : pci_device → bool) : M pst Z :=
  s ← get (λ s, s);
  if g_pcilist s =? 0 then mret 0
  else loop (S (p_allocs s)) (λ tmp,
    d ← load_dev tmp;
    if test d then mret (inr tmp)
    else if pd_next d =? 0 then mret (inr 0) else mret (inl (pd_next d))) (g_pcilist s).

Definition pci_find_by_class (classcode sub pif : Z) : M pst Z :=
  find_where (λ d, (class_code d =? classcode) && (subclass d =? sub) && (prog_if d =? pif)).

Definition pci_find_by_vendor (vendor device : Z) : M pst Z :=
  find_where (λ d, (vendor_id d =? vendor) && (device_id d =? device)).
End pci.

(** ** What the hardware answers *)

(** [cfg b s f o] is the 32-bit register at offset [o] of a function's configuration space. *)
Class PciBus `{!Devices} (cfg : Z → Z → Z → Z → Z) : Prop := {
  cfg_range : ∀ b s f o, 0 ≤ cfg b s f o < 4294967296;
  cfg_answer : ∀ b s f o tr, 0 ≤ b < 256 → 0 ≤ s < 32 → 0 ≤ f < 8 → 0 ≤ o < 64 →
    answer32 (OutL CONFIG_ADDRESS (2147483648 + 65536 * b + 2048 * s + 256 * f + 4 * o) :: tr) CONFIG_DATA = cfg b s f (4 * o)
}.

(** The byte and the word at an offset. *)
Definition cfg8 (cfg : Z → Z → Z → Z → Z) (b s f o : Z) : Z := cfg b s f (4 * (o / 4)) / 2 ^ (8 * (o mod 4)) mod 256.
Definition cfg16 (cfg : Z → Z → Z → Z → Z) (b s f o : Z) : Z := cfg b s f (4 * (o / 4)) / 2 ^ (8 * (o mod 4)) mod 65536.

Lemma lor_low a b n : 0 ≤ n → 0 ≤ b < 2 ^ n → Z.lor (a * 2 ^ n) b = a * 2 ^ n + b.
Proof.
  intros Hn Hb. rewrite <- Z.lxor_lor, <- Z.add_nocarry_lxor; [done|..];
    (apply Z.bits_inj'; intros k Hk; rewrite Z.land_spec, Z.bits_0; destruct (decide (k < n));
     [by rewrite Z.mul_pow2_bits_low by lia|by rewrite (testbit_above b n), andb_false_r by lia]).
Qed.

Lemma make_pci_addr_ok b s f o : 0 ≤ b < 256 → 0 ≤ s < 32 → 0 ≤ f < 8 → 0 ≤ o < 256 →
  make_pci_addr b s f o = 2147483648 + 65536 * b + 2048 * s + 256 * f + 4 * (o / 4).
Proof.
  intros Hb Hs Hf Ho. unfold make_pci_addr. rewrite !u16_small by lia. rewrite !Z.shiftl_mul_pow2 by lia.
  rewrite (u32_small (b * _)), (u32_small (s * _)), (u32_small (f * _)) by lia.
  assert (Hall : forallb (λ o, (Z.land o 252 =? 4 * (o / 4)) && (0 <=? 4 * (o / 4)) && (4 * (o / 4) <? 256)) (seqZ 0 256) = true) by (vm_compute; reflexivity).
  pose proof (bytes_all _ _ _ Hall Ho) as H. cbv beta in H. apply andb_prop in H as [[->%Z.eqb_eq H1%Z.leb_le]%andb_prop H2%Z.ltb_lt].
  rewrite lor_low by lia. replace (b * 2 ^ 16 + s * 2 ^ 11) with ((b * 32 + s) * 2 ^ 11) by lia.
  rewrite lor_low by lia. replace ((b * 32 + s) * 2 ^ 11 + f * 2 ^ 8) with ((b * 256 + s * 8 + f) * 2 ^ 8) by lia.
  rewrite lor_low by lia. rewrite Z.lor_comm. change 2147483648 with (1 * 2 ^ 31). rewrite lor_low by lia. rewrite u32_small; lia.
Qed.

Section hardware.
Context `{!Devices} (cfg : Z → Z → Z → Z → Z) `{!PciBus cfg}.

Definition in_bus (b s f : Z) : Prop := 0 ≤ b < 256 ∧ 0 ≤ s < 32 ∧ 0 ≤ f < 8.

(** Reading changes nothing but the history of the ports. *)
Definition same_but_io (s s' : pst) : Prop :=
  p_devs s' = p_devs s ∧ p_headers s' = p_headers s ∧ g_pcilist s' = g_pcilist s ∧ g_pci_device_count s' = g_pci_device_count s ∧
  p_allocs s' = p_allocs s.

(** The word is read from the register at a multiple of four, from its upper half when bit 1 of
    the offset is set. *)
Lemma read_word_ok b s f o st : in_bus b s f → 0 ≤ o < 256 →
  wp (pci_read_word b s f o) (λ w st', w = cfg16 cfg b s f (2 * (o / 2)) ∧ same_but_io st st') st.
Proof.
  intros (Hb & Hs & Hf) Ho.
  assert (Hall : forallb (λ o, (Z.land o 2 * 8 =? 8 * ((2 * (o / 2)) mod 4)) && (4 * (o / 4) =? 4 * ((2 * (o / 2)) / 4)) && (0 <=? o / 4) && (o / 4 <? 64))
    (seqZ 0 256) = true) by (vm_compute; reflexivity).
  pose proof (bytes_all _ _ _ Hall Ho) as Hx. cbv beta in Hx. apply andb_prop in Hx as [[[H1%Z.eqb_eq H2%Z.eqb_eq]%andb_prop H3%Z.leb_le]%andb_prop H4%Z.ltb_lt].
  eapply run_wp; [reflexivity|]. split; [|unfold same_but_io; split_and!; reflexivity]. rewrite make_pci_addr_ok by assumption. rewrite !(u32_small (_ + _)) by lia.
  rewrite (u16_small CONFIG_ADDRESS), (u16_small CONFIG_DATA), (u16_small o) by (unfold CONFIG_ADDRESS, CONFIG_DATA; lia).
  cbn [p_io]. rewrite cfg_answer by lia. rewrite H1. rewrite u32_small by apply cfg_range. unfold cfg16. rewrite <- H2.
  rewrite Z.shiftr_div_pow2 by (pose proof (Z.mod_pos_bound (2 * (o / 2)) 4); lia). rewrite (land_ones_mod _ 16) by done.
  change (2 ^ 16) with 65536. unfold u16. rewrite Z.mod_mod by lia. done.
Qed.

Lemma same_trans s1 s2 s3 : same_but_io s1 s2 → same_but_io s2 s3 → same_but_io s1 s3.
Proof. unfold same_but_io. intuition congruence. Qed.

Lemma cfg16_range b s f o : 0 ≤ cfg16 cfg b s f o < 65536.
Proof. apply Z.mod_pos_bound. lia. Qed.

Lemma low_byte w : 0 ≤ w < 65536 → u8 (u16 (Z.land w (Z.lnot 65280))) = w mod 256.
Proof.
  intros Hw. assert (E : Z.land w (Z.lnot 65280) = w mod 256).
  { rewrite <- (Z.mod_small w 65536) at 1 by lia. change 65536 with (2 ^ 16). rewrite <- Z.land_ones by lia.
    rewrite <- Z.land_assoc. change (Z.land (Z.ones 16) (Z.lnot 65280)) with 255. by rewrite (land_ones_mod _ 8). }
  pose proof (Z.mod_pos_bound w 256). rewrite E, u16_small, u8_small by lia. done.
Qed.

Lemma high_byte w : 0 ≤ w < 65536 → u8 (u16 (Z.shiftr (Z.land w (Z.lnot 255)) 8)) = w / 256.
Proof.
  intros Hw. assert (0 ≤ w / 256 < 256) by (split; [apply Z.div_pos|apply Z.div_lt_upper_bound]; lia).
  rewrite Z.shiftr_land. change (Z.shiftr (Z.lnot 255) 8) with (-1). rewrite Z.land_m1_r, Z.shiftr_div_pow2 by lia.
  change (2 ^ 8) with 256. rewrite u16_small, u8_small by lia. done.
Qed.

(** The bytes of a word. *)
Lemma cfg16_low b s f o : cfg16 cfg b s f o mod 256 = cfg8 cfg b s f o.
Proof. unfold cfg16, cfg8. set (z := _ / 2 ^ _). change 65536 with (256 * 256). rewrite Z.rem_mul_r by lia. rewrite Z.mul_comm, Z_mod_plus_full. apply Z.mod_mod. lia. Qed.

Lemma cfg16_high b s f o : 0 ≤ o mod 4 ≤ 2 → cfg16 cfg b s f o / 256 = cfg8 cfg b s f (o + 1).
Proof.
  intros Ho. unfold cfg16, cfg8. assert (Hq : (o + 1) / 4 = o / 4 ∧ (o + 1) mod 4 = o mod 4 + 1).
  { pose proof (Z.div_mod o 4 ltac:(lia)). split; [|]; symmetry; [apply (Z.div_unique _ _ _ (o mod 4 + 1))|apply (Z.mod_unique _ _ (o / 4))]; lia. }
  destruct Hq as [-> ->]. set (c := cfg _ _ _ _). replace (8 * (o mod 4 + 1)) with (8 * (o mod 4) + 8) by lia.
  rewrite Z.pow_add_r by lia. change (2 ^ 8) with 256. rewrite <- Z.div_div by lia. set (z := c / 2 ^ (8 * (o mod 4))).
  change 65536 with (256 * 256). rewrite Z.rem_mul_r by lia. rewrite (Z.mul_comm 256), Z.div_add, Z.div_small by (pose proof (Z.mod_pos_bound z 256); lia). lia.
Qed.

(** A byte read through a word. *)
Lemma low_of_word b s f o st : in_bus b s f → 0 ≤ o < 256 → o mod 2 = 0 →
  wp (w ← pci_read_word b s f o; mret (u16 (Z.land w (Z.lnot 65280))))
    (λ w st', u8 w = cfg8 cfg b s f o ∧ same_but_io st st') st.
Proof.
  intros Hin Ho He. apply wp_bind. eapply wp_mono; [by apply read_word_ok|]. intros w st' [-> Hs]. apply wp_ret. split; [|done].
  rewrite low_byte by apply cfg16_range. rewrite cfg16_low. f_equal. pose proof (Z.div_mod o 2). lia.
Qed.

Lemma high_of_word b s f o st : in_bus b s f → 0 ≤ o < 256 → o mod 4 = 0 ∨ o mod 4 = 2 → o mod 2 = 0 →
  wp (w ← pci_read_word b s f o; mret (u16 (Z.shiftr (Z.land w (Z.lnot 255)) 8)))
    (λ w st', u8 w = cfg8 cfg b s f (o + 1) ∧ same_but_io st st') st.
Proof.
  intros Hin Ho He H2. apply wp_bind. eapply wp_mono; [by apply read_word_ok|]. intros w st' [-> Hs]. apply wp_ret. split; [|done].
  replace (2 * (o / 2)) with o by (pose proof (Z.div_mod o 2); lia).
  rewrite high_byte by apply cfg16_range. apply cfg16_high. lia.
Qed.

(** Of a base address only the lower half survives. *)
Lemma base_address_ok b s f a st : in_bus b s f → 0 ≤ a < 6 →
  wp (pci_get_base_address b s f a) (λ w st', w = cfg16 cfg b s f (16 + 4 * a) ∧ same_but_io st st') st.
Proof.
  intros Hin Ha. unfold pci_get_base_address. apply wp_bind. eapply wp_mono; [apply read_word_ok; [done|lia]|]. intros w1 st1 [-> H1].
  apply wp_bind. eapply wp_mono; [apply read_word_ok; [done|lia]|]. intros w2 st2 [-> H2]. apply wp_ret. split; [|by eapply same_trans].
  replace (2 * ((15 + a * 4 + 2) / 2)) with (16 + 4 * a).
  2: { replace (15 + a * 4 + 2) with (1 + (8 + 2 * a) * 2) by lia. rewrite Z.div_add by lia. rewrite Z.div_small; lia. }
  pose proof (cfg16_range b s f (16 + 4 * a)) as Hr. set (w := cfg16 cfg b s f (16 + 4 * a)) in *.
  set (x := cfg16 _ _ _ _ _). assert (0 ≤ x < 65536) by apply cfg16_range.
  rewrite Z.shiftl_mul_pow2 by lia. rewrite u32_small by lia. rewrite lor_low by lia. unfold u16. rewrite Z.add_comm.
  change (2 ^ 16) with 65536. rewrite Z_mod_plus_full. apply Z.mod_small. lia.
Qed.
End hardware.

(** ** The list of devices *)

Fixpoint linked (devs : gmap Z pci_device) (head : Z) (ptrs : list Z) : Prop :=
  match ptrs with
  | [] => head = 0
  | p :: ps => head = p ∧ p ≠ 0 ∧ ∃ d, devs !! p = Some d ∧ linked devs (pd_next d) ps
  end.

Lemma linked_ext devs devs' ptrs : ∀ head, (∀ p, p ∈ ptrs → pd_next <$> devs' !! p = pd_next <$> devs !! p) →
  linked devs head ptrs → linked devs' head ptrs.
Proof.
  induction ptrs as [|p ps IH]; intros head Hp; [done|]. intros (-> & H0 & d & Hd & Hl). split_and!; [done..|].
  pose proof (Hp p ltac:(left)) as E. rewrite Hd in E. destruct (devs' !! p) as [d'|]; [|done]. exists d'. split; [done|].
  injection E as ->. apply IH; [|done]. intros q Hq. apply Hp. by right.
Qed.

(** The walk ends at the last device. *)
Lemma walk_last st q ps : ∀ head fuel, linked (p_devs st) head (ps ++ [q]) → (length ps < fuel)%nat →
  loop fuel (λ tmp, d ← load_dev tmp; if pd_next d =? 0 then mret (inr tmp) else mret (inl (pd_next d))) head st = Ok (q, st).
Proof.
  assert (Hload : ∀ p d, p_devs st !! p = Some d → load_dev p st = Ok (d, st)) by (intros p d Hd; unfold load_dev, get, of_option, mbind, M_bind; by rewrite Hd).
  induction ps as [|p ps IH]; intros head [|fuel] Hl Hf; try (simpl in Hf; lia); simpl app in Hl.
  - destruct Hl as (-> & H0 & d & Hd & Hn). simpl in Hn. rewrite (loop_done _ _ _ _ q st); [done|].
    rewrite (bind_ok _ _ _ _ _ (Hload _ _ Hd)), Hn. done.
  - destruct Hl as (-> & H0 & d & Hd & Hn). rewrite (loop_next _ _ _ _ (pd_next d) st).
    + apply IH; [done|simpl in Hf; lia].
    + rewrite (bind_ok _ _ _ _ _ (Hload _ _ Hd)). destruct (Z.eqb_spec (pd_next d) 0) as [E|]; [|done].
      destruct ps; destruct Hn as (E' & Hz & _); lia.
Qed.

Lemma linked_snoc devs head ps q dq p d : NoDup (ps ++ [q]) → p ∉ ps ++ [q] → linked devs head (ps ++ [q]) → devs !! q = Some dq →
  devs !! p = Some d → pd_next d = 0 → p ≠ 0 → linked (<[q := link_to p dq]> devs) head (ps ++ [q] ++ [p]).
Proof.
  revert head. induction ps as [|r ps IH]; intros head Hnd Hp Hl Hq Hd Hn H0; simpl in *.
  - destruct Hl as (-> & Hq0 & dq' & Hq' & Hn'). split_and!; [done..|]. exists (link_to p dq). split; [apply lookup_insert_eq|].
    simpl. split_and!; [done..|]. exists d. split; [|done]. rewrite lookup_insert_ne; [done|]. intros ->. apply Hp. left.
  - destruct Hl as (-> & Hr0 & dr & Hr & Hn'). apply NoDup_cons in Hnd as [Hr' Hnd]. split_and!; [done..|]. exists dr. split.
    + rewrite lookup_insert_ne; [done|]. intros ->. apply Hr'. apply elem_of_app. right. left.
    + apply IH; try done. intros Hx. apply Hp. by right.
Qed.

Section scan.
Context `{!Devices} (cfg : Z → Z → Z → Z → Z) `{!PciBus cfg}.
Variables (alloc : nat → Z) (init_rtl8139 init_ata : Z).
Hypothesis alloc_fresh : ∀ i j, alloc i = alloc j → i = j.
Hypothesis alloc_ok : ∀ i, alloc i ≠ 0.

(** A header as it is read for a plain device. *)
Definition header_of (b s f : Z) : pci_common_header :=
  PciHeader ((λ i, cfg16 cfg b s f (16 + 4 * i)) <$> [0; 1; 2; 3; 4; 5]) (cfg8 cfg b s f 60) (cfg8 cfg b s f 62) 0 0.

Definition header_shows (hs : gmap Z pci_common_header) (h : Z) (b s f : Z) : Prop :=
  if cfg8 cfg b s f 14 =? 0 then hs !! h = Some (header_of b s f) else h = 0.

(** The identification of a function, with the driver that is chosen for it; the link is left open. *)
Definition chosen (b s f : Z) : Z * pci_name :=
  if (1 =? cfg8 cfg b s f 11) && (1 =? cfg8 cfg b s f 10) then (init_ata, PataHardDrive)
  else if (4332 =? cfg16 cfg b s f 0) && (33081 =? cfg16 cfg b s f 2) then (init_rtl8139, Rtl8139EthernetCard)
  else (0, UnknownPciDevice).

Definition identified (b s f h driver : Z) (name : pci_name) (next : Z) : pci_device :=
  PciDevice b s f (cfg16 cfg b s f 0) (cfg16 cfg b s f 2) (cfg16 cfg b s f 4) (cfg8 cfg b s f 11) (cfg8 cfg b s f 10)
    (cfg8 cfg b s f 9) (cfg8 cfg b s f 8) (cfg8 cfg b s f 14) h driver name next.

Definition shows (st : pst) (p : Z) (x : Z * Z * Z) : Prop :=
  let '(b, s, f) := x in
  ∃ h next, p_devs st !! p = Some (identified b s f h (chosen b s f).1 (chosen b s f).2 next) ∧ header_shows (p_headers st) h b s f.

Definition taken (st : pst) (p : Z) : Prop := ∃ k, (k < p_allocs st)%nat ∧ p = alloc k.

(** The list holds the devices [ptrs], which show the functions [out]. *)
Record listed (ptrs : list Z) (out : list (Z * Z * Z)) (st : pst) : Prop := {
  li_linked : linked (p_devs st) (g_pcilist st) ptrs;
  li_shows : Forall2 (shows st) ptrs out;
  li_count : g_pci_device_count st = u32 (Z.of_nat (length ptrs));
  li_nodup : NoDup ptrs;
  li_taken : ∀ p, p ∈ ptrs ∨ is_Some (p_headers st !! p) → taken st p;
  li_room : (length ptrs ≤ p_allocs st)%nat
}.

Lemma taken_next st : ¬ taken st (alloc (p_allocs st)).
Proof. intros (k & Hk & E). apply alloc_fresh in E. lia. Qed.

(** What the list shows stays when devices outside it, headers and allocations are added. *)
Lemma listed_ext ptrs out st st' : listed ptrs out st → (∀ p, p ∈ ptrs → p_devs st' !! p = p_devs st !! p) →
  p_headers st ⊆ p_headers st' → (∀ p, is_Some (p_headers st' !! p) → taken st' p) → g_pcilist st' = g_pcilist st →
  g_pci_device_count st' = g_pci_device_count st → (p_allocs st ≤ p_allocs st')%nat → listed ptrs out st'.
Proof.
  intros [Hl Hs Hc Hn Ht Hr] Hd Hh Hh' Hg Hco Ha. split.
  - rewrite Hg. eapply linked_ext; [|done]. intros p Hp. by rewrite Hd.
  - apply Forall2_same_length_lookup. split; [by eapply Forall2_length|]. intros i p [[b s] f] Hp Hx.
    pose proof (Forall2_lookup_lr _ _ _ _ _ _ Hs Hp Hx) as (h & next & E & Hsh). exists h, next.
    split; [rewrite Hd; [done|by eapply list_elem_of_lookup_2]|]. unfold header_shows in *. destruct (_ =? 0); [|done]. by eapply lookup_weaken.
  - by rewrite Hco.
  - done.
  - intros p [Hp|Hp]; [|by apply Hh']. destruct (Ht p (or_introl Hp)) as (k & Hk & ->). exists k. split; [lia|done].
  - lia.
Qed.

Lemma listed_same ptrs out st st' : same_but_io st st' → listed ptrs out st → listed ptrs out st'.
Proof.
  intros (E1 & E2 & E3 & E4 & E5) Hli. eapply listed_ext; [done|..]; rewrite ?E1, ?E2, ?E3, ?E4, ?E5; try done.
  intros p Hp. destruct (li_taken _ _ _ Hli p (or_intror Hp)) as (k & Hk & ->). exists k. split; [congruence|done].
Qed.

(** What a step that reads and allocates keeps. *)
Definition grows (st st' : pst) : Prop :=
  p_devs st' = p_devs st ∧ g_pcilist st' = g_pcilist st ∧ g_pci_device_count st' = g_pci_device_count st ∧ (p_allocs st ≤ p_allocs st')%nat.

Lemma grows_same st st1 st2 : grows st st1 → same_but_io st1 st2 → grows st st2.
Proof. intros (? & ? & ? & ?) (? & ? & ? & ? & ?). split_and!; [congruence..|lia]. Qed.

Lemma word_ok b s f o st : in_bus b s f → 0 ≤ o < 256 → o mod 2 = 0 →
  wp (pci_read_word b s f o) (λ w st', w = cfg16 cfg b s f o ∧ same_but_io st st') st.
Proof.
  intros Hin Ho He. eapply wp_mono; [by apply (read_word_ok cfg)|]. intros w st' [-> Hs]. split; [|done].
  f_equal. pose proof (Z.div_mod o 2). lia.
Qed.

Lemma parse_header_ok ptrs out b s f st : in_bus b s f → listed ptrs out st →
  wp (pci_parse_header alloc b s f (cfg8 cfg b s f 14))
    (λ h st', listed ptrs out st' ∧ header_shows (p_headers st') h b s f ∧ grows st st') st.
Proof.
  intros Hin Hli. unfold pci_parse_header. destruct (Z.eqb_spec (cfg8 cfg b s f 14) 0) as [E|E].
  2: { apply wp_ret. split_and!; try done. unfold header_shows. by destruct (Z.eqb_spec (cfg8 cfg b s f 14) 0). }
  apply wp_bind. eapply run_wp; [reflexivity|]. set (h := alloc (p_allocs st)).
  do 6 (apply wp_bind; eapply wp_mono; [apply (base_address_ok cfg); [done|lia]|]; intros ? ? [-> ?]).
  apply wp_bind. eapply wp_mono; [apply word_ok; done|]. intros pin st2 [-> Hp2].
  apply wp_bind. eapply wp_mono; [apply word_ok; done|]. intros line st3 [-> Hp3].
  assert (Hall : same_but_io (Pst (p_devs st) (p_headers st) (g_pcilist st) (g_pci_device_count st) (S (p_allocs st)) (p_io st)) st3)
    by (repeat (eapply same_trans; [eassumption|]); done).
  destruct Hall as (E1 & E2 & E3 & E4 & E5). cbn [p_devs p_headers g_pcilist g_pci_device_count p_allocs] in *.
  unfold u8. change PCI_INTERRUPT_PIN_OFFSET with 62. change PCI_INTERRUPT_LINE_OFFSET with 60. rewrite !cfg16_low. simpl.
  apply wp_bind. eapply run_wp; [reflexivity|]. apply wp_ret. fold (header_of b s f). cbn [p_headers].
  assert (Hf : p_headers st !! h = None).
  { destruct (p_headers st !! h) eqn:Hx; [|done]. exfalso. apply (taken_next st). apply (li_taken _ _ _ Hli). right. by eexists. }
  split; [|split].
  - apply (listed_ext _ _ st); try done; cbn [p_devs p_headers g_pcilist g_pci_device_count p_allocs]; rewrite ?E1, ?E2, ?E3, ?E4, ?E5; try done; try lia.
    + by apply insert_subseteq.
    + intros p Hp. destruct (decide (p = h)) as [->|Hne]; [exists (p_allocs st); simpl; split; [lia|done]|].
      rewrite lookup_insert_ne in Hp by done. destruct (li_taken _ _ _ Hli p (or_intror Hp)) as (k & Hk & ->).
      exists k. simpl. split; [lia|done].
  - unfold header_shows. rewrite E. simpl. apply lookup_insert_eq.
  - split_and!; simpl; try done. lia.
Qed.

(** Appending a device that is not in the list yet. *)
Lemma add_device_ok ptrs out st p d : listed ptrs out st → p_devs st !! p = Some d → pd_next d = 0 → p ≠ 0 → p ∉ ptrs →
  ∃ st', add_pci_device p st = Ok (tt, st') ∧ linked (p_devs st') (g_pcilist st') (ptrs ++ [p]) ∧ Forall2 (shows st') ptrs out ∧
    p_devs st' !! p = Some d ∧ g_pci_device_count st' = u32 (Z.of_nat (length (ptrs ++ [p]))) ∧
    p_headers st' = p_headers st ∧ p_allocs st' = p_allocs st.
Proof.
  intros [Hl Hs Hc Hn Ht Hr] Hd Hx H0 Hp. unfold add_pci_device. rewrite (bind_ok _ _ st st st) by done.
  assert (Hcount : u32 (g_pci_device_count st + 1) = u32 (Z.of_nat (length (ptrs ++ [p])))).
  { rewrite Hc, length_app. simpl length. unfold u32. rewrite Zplus_mod_idemp_l. f_equal. lia. }
  destruct ptrs as [|q ps _] using rev_ind.
  - simpl in Hl. rewrite Hl. simpl. eexists. split; [reflexivity|]. apply Forall2_nil_inv_l in Hs as ->. simpl.
    split_and!; try done. exists d. done.
  - assert (Hh : g_pcilist st ≠ 0) by (destruct ps; destruct Hl as (-> & ? & _); done).
    destruct (Z.eqb_spec (g_pcilist st) 0); [done|].
    assert (Hdq : ∃ dq, p_devs st !! q = Some dq).
    { apply Forall2_length in Hs as Hlen. rewrite length_app in Hlen. simpl in Hlen.
      destruct (lookup_lt_is_Some_2 out (length ps)) as [[[b0 s0] f0] Hy]; [lia|].
      pose proof (Forall2_lookup_lr _ _ _ (length ps) q _ Hs ltac:(by rewrite lookup_app_r, Nat.sub_diag by lia) Hy) as (? & ? & E & _). by eexists. }
    destruct Hdq as [dq Hq].
    set (st1 := set_devs (<[q := link_to p dq]> (p_devs st)) st).
    rewrite (bind_ok _ _ st tt st1).
    2: { rewrite (bind_ok _ _ st q st) by (apply (walk_last st q ps); [done|rewrite length_app in Hr; simpl in Hr; lia]).
         unfold upd_dev, load_dev, get, of_option, mbind, M_bind. by rewrite Hq. }
    eexists. split; [reflexivity|]. cbn [p_devs g_pcilist g_pci_device_count p_headers p_allocs st1 set_devs].
    assert (Hpq : p ≠ q) by (intros ->; apply Hp, elem_of_app; right; left).
    split_and!; try done.
    + rewrite <- app_assoc. by eapply linked_snoc.
    + eapply Forall2_impl; [exact Hs|]. intros r [[b s] f] (h & next & E & Hsh). destruct (decide (r = q)) as [->|Hne].
      * exists h, p. split; [|done]. cbn [p_devs]. rewrite lookup_insert_eq. rewrite Hq in E. by injection E as ->.
      * exists h, next. split; [|done]. cbn [p_devs]. by rewrite lookup_insert_ne.
    + by rewrite lookup_insert_ne.
Qed.

(** The tables choose the driver. *)
Lemma drivers_matched b s f h :
  foldl match_generic (foldl match_known (identified b s f h 0 UnknownPciDevice 0) (known_devices init_rtl8139)) (generic_devices init_ata) =
  identified b s f h (chosen b s f).1 (chosen b s f).2 0.
Proof.
  unfold chosen, identified, known_devices, generic_devices, match_known, match_generic, use_driver.
  cbn [foldl vendor_id device_id class_code subclass prog_if].
  destruct (4332 =? cfg16 cfg b s f 0), (33081 =? cfg16 cfg b s f 2); cbn [andb class_code subclass];
    by destruct (1 =? cfg8 cfg b s f 11), (1 =? cfg8 cfg b s f 10).
Qed.

Lemma upd_dev_run p g d st : p_devs st !! p = Some d → upd_dev p g st = Ok (tt, set_devs (<[p := g d]> (p_devs st)) st).
Proof. intros Hd. unfold upd_dev, load_dev, get, of_option, mbind, M_bind. by rewrite Hd. Qed.

(** The device is appended and gets its driver. *)
Lemma enlist_ok ptrs out b s f h p st : listed ptrs out st → p ∉ ptrs → taken st p → header_shows (p_headers st) h b s f →
  (length ptrs < p_allocs st)%nat →
  p_devs st !! p = Some (identified b s f h 0 UnknownPciDevice 0) →
  wp (_ ← add_pci_device p; _ ← upd_dev p (λ d, foldl match_known d (known_devices init_rtl8139));
      upd_dev p (λ d, foldl match_generic d (generic_devices init_ata)))
    (λ _ st', listed (ptrs ++ [p]) (out ++ [(b, s, f)]) st') st.
Proof.
  intros Hli Hp Ht Hh Hroom Hd. assert (H0 : p ≠ 0) by (destruct Ht as (k & _ & ->); apply alloc_ok).
  destruct (add_device_ok ptrs out st p _ Hli Hd eq_refl H0 Hp) as (st1 & Hr & Hl & Hs & Hd1 & Hc & Eh & Ea).
  apply wp_bind. eapply run_wp; [exact Hr|]. apply wp_bind. eapply run_wp; [by apply upd_dev_run|].
  eapply run_wp; [apply upd_dev_run; apply lookup_insert_eq|]. cbn [p_devs set_devs]. rewrite insert_insert_eq, drivers_matched.
  split; cbn [p_devs g_pcilist g_pci_device_count p_headers p_allocs set_devs].
  - eapply linked_ext; [|exact Hl]. intros q Hq. destruct (decide (q = p)) as [->|]; [by rewrite lookup_insert_eq, Hd1|by rewrite lookup_insert_ne].
  - apply Forall2_app.
    + apply Forall2_same_length_lookup. split; [by eapply Forall2_length|]. intros i q [[b' s'] f'] Hq Hx.
      pose proof (Forall2_lookup_lr _ _ _ _ _ _ Hs Hq Hx) as (h' & next & E & Hsh). exists h', next. cbn [p_devs p_headers set_devs]. split; [|done].
      rewrite lookup_insert_ne; [done|]. intros ->. apply Hp. by eapply list_elem_of_lookup_2.
    + apply List.Forall2_cons; [|apply List.Forall2_nil]. exists h, 0. cbn [p_devs p_headers set_devs]. split; [apply lookup_insert_eq|by rewrite Eh].
  - done.
  - apply NoDup_app. split; [apply (li_nodup _ _ _ Hli)|]. split; [|apply NoDup_singleton]. intros q Hq ->%list_elem_of_singleton. done.
  - unfold taken. cbn [p_allocs set_devs]. rewrite Ea, Eh. intros q [Hq|Hq]; [|by apply (li_taken _ _ _ Hli q); right].
    apply elem_of_app in Hq as [Hq| ->%list_elem_of_singleton]; [by apply (li_taken _ _ _ Hli q); left|done].
  - rewrite length_app, Ea. simpl. lia.
Qed.

Definition present (b s f : Z) : list (Z * Z * Z) := if cfg16 cfg b s f 0 =? 65535 then [] else [(b, s, f)].

Lemma probe_ok ptrs out b s f st : in_bus b s f → listed ptrs out st →
  wp (probe alloc init_rtl8139 init_ata b s f) (λ _ st', ∃ ptrs', listed ptrs' (out ++ present b s f) st') st.
Proof.
  intros Hin Hli. unfold probe, pci_get_vendor_id, present. apply wp_bind. eapply wp_mono; [by apply word_ok|]. intros v st1 [-> H1].
  change PCI_VENDOR_OFFSET with 0. destruct (cfg16 cfg b s f 0 =? 65535). { apply wp_ret. exists ptrs. rewrite app_nil_r. by eapply listed_same. }
  pose proof (listed_same _ _ _ _ H1 Hli) as Hl1. apply wp_bind. eapply run_wp; [reflexivity|]. set (p := alloc (p_allocs st1)).
  set (st2 := Pst _ _ _ _ _ _). assert (Hl2 : listed ptrs out st2).
  { apply (listed_ext _ _ st1); try done; [|simpl; lia]. intros q Hq. destruct (li_taken _ _ _ Hl1 q (or_intror Hq)) as (k & Hk & ->). exists k. simpl. split; [lia|done]. }
  apply wp_bind. eapply wp_mono; [by apply word_ok|]. intros ? st3 [-> H3].
  apply wp_bind. eapply wp_mono; [by apply word_ok|]. intros ? st4 [-> H4].
  apply wp_bind. eapply wp_mono; [apply (high_of_word cfg); [done|done|by right|done]|]. intros cls st5 [Ecls H5].
  apply wp_bind. eapply wp_mono; [by apply (low_of_word cfg)|]. intros sub st6 [Esub H6].
  apply wp_bind. eapply wp_mono; [apply (high_of_word cfg); [done|done|by left|done]|]. intros pif st7 [Epif H7].
  apply wp_bind. eapply wp_mono; [by apply (low_of_word cfg)|]. intros ht st8 [Eht H8].
  assert (H28 : same_but_io st2 st8) by (repeat (eapply same_trans; [eassumption|]); done). rewrite Eht.
  apply wp_bind. eapply wp_mono; [apply parse_header_ok; [done|by eapply listed_same]|]. intros h st9 (Hl9 & Hh9 & Hg9).
  apply wp_bind. eapply wp_mono; [by apply (low_of_word cfg)|]. intros rev st10 [Erev H10].
  assert (Hp : p ∉ ptrs) by (intros Hx; apply (taken_next st1); apply (li_taken _ _ _ Hl1); by left).
  destruct Hg9 as (_ & _ & _ & Ha9). destruct H28 as (_ & _ & _ & _ & Ea8). pose proof H10 as (_ & E10h & _ & _ & E10a).
  assert (Hal : (p_allocs st1 < p_allocs st10)%nat) by (simpl in Ea8; lia). pose proof (li_room _ _ _ Hl1) as Hroom.
  destruct Hin as (Hb & Hs & Hf). rewrite !u16_small, Ecls, Esub, Epif, Erev by lia.
  apply wp_bind. eapply run_wp; [reflexivity|].
  eapply wp_mono.
  { apply (enlist_ok ptrs out b s f h p).
    - eapply listed_ext; [eapply listed_same; [exact H10|exact Hl9]|..]; try done; cbn [p_devs set_devs p_headers].
      + intros q Hq. rewrite lookup_insert_ne; [done|]. by intros ->.
      + intros q Hq. apply (li_taken _ _ _ (listed_same _ _ _ _ H10 Hl9) q). by right.
    - done.
    - exists (p_allocs st1). done.
    - cbn [p_headers set_devs]. by rewrite E10h.
    - cbn [p_allocs set_devs]. lia.
    - apply lookup_insert_eq. }
  intros [] st' Hst. by exists (ptrs ++ [p]).
Qed.

(** A loop that adds what it finds for each number. *)
Lemma each_collects {A} (R : list A → pst → Prop) (g : Z → list A) body l : (∀ x out st, x ∈ l → R out st → wp (body x) (λ _ st', R (out ++ g x) st') st) →
  ∀ out st, R out st → wp (for_each l body) (λ _ st', R (out ++ flat_map g l) st') st.
Proof.
  induction l as [|x l IH]; intros Hb out st HR; simpl. { apply wp_ret. by rewrite app_nil_r. }
  apply wp_bind. eapply wp_mono; [apply Hb; [left|done]|]. intros [] st' HR'. rewrite app_assoc. apply IH; [|done].
  intros y o s Hy. apply Hb. by right.
Qed.

(** All functions there can be, in the order they are probed. *)
Definition all_present : list (Z * Z * Z) :=
  flat_map (λ b, flat_map (λ s, flat_map (λ f, present b s f) (seqZ 0 8)) (seqZ 0 32)) (seqZ 0 256).

Lemma scan_ok st : listed [] [] st → wp (_pci_find_brute alloc init_rtl8139 init_ata) (λ _ st', ∃ ptrs, listed ptrs all_present st') st.
Proof.
  intros Hl. apply (each_collects (λ out st, ∃ ptrs, listed ptrs out st) _ _ _) with (out := []); [|by exists []].
  intros b out st1 Hb HR. apply (each_collects (λ out st, ∃ ptrs, listed ptrs out st)); [|done].
  intros s out2 st2 Hs HR2. apply (each_collects (λ out st, ∃ ptrs, listed ptrs out st)); [|done].
  intros f out3 st3 Hf (ptrs & HR3). apply probe_ok with (ptrs := ptrs); [|done].
  apply elem_of_seqZ in Hb, Hs, Hf. unfold in_bus. lia.
Qed.
End scan.

(** ** Theorems *)

(** C16: Finding the devices.  [init_pci] walks through every function of every slot of every bus and leaves exactly
    those that answer in the list, in that order, each with its identification, and with the
    disk driver for an IDE controller or the network driver for an RTL8139.  The base
    addresses of a plain device are the lower halves of its registers; the byte taken for the interrupt pin is the one
    at 0x3E, which is the minimum grant; a device whose header type is not 0, such as any
    function of a multifunction device, has no header. *)
Theorem pci_devices_found `{!Devices} cfg `{!PciBus cfg} alloc init_rtl8139 init_ata st :
  (∀ i j, alloc i = alloc j → i = j) → (∀ i, alloc i ≠ 0) →
  p_devs st = ∅ → p_headers st = ∅ → g_pcilist st = 0 → g_pci_device_count st = 0 →
  ∃ st' ptrs, init_pci alloc init_rtl8139 init_ata st = Ok (0, st') ∧
    linked (p_devs st') (g_pcilist st') ptrs ∧ NoDup ptrs ∧
    Forall2 (shows cfg init_rtl8139 init_ata st') ptrs (all_present cfg) ∧
    g_pci_device_count st' = u32 (Z.of_nat (length (all_present cfg))).
Proof.
  intros Hf Ha Hd Hh Hg Hc. assert (Hl : listed cfg alloc init_rtl8139 init_ata [] [] st).
  { split; try done; [apply NoDup_nil_2| |simpl; lia]. intros p [Hp|[h Hp]]; [by apply elem_of_nil in Hp|by rewrite Hh in Hp]. }
  destruct (wp_run _ _ _ (scan_ok cfg alloc init_rtl8139 init_ata Hf Ha st Hl)) as ([] & st' & Hr & ptrs & [Hli Hs Hco Hn _ _]).
  exists st', ptrs. split_and!; try done.
  - unfold init_pci. by rewrite (bind_ok _ _ _ _ _ Hr).
  - rewrite Hco. do 2 f_equal. by eapply Forall2_length.
Qed.

(** Looking a device up: [pci_find_by_class] and [pci_find_by_vendor] return the first device of the list that
    matches, or 0 when there is none. *)
Theorem pci_lookup st ptrs test :
  linked (p_devs st) (g_pcilist st) ptrs → (length ptrs ≤ p_allocs st)%nat →
  find_where test st = Ok (default 0 (head (filter (λ p, default false (test <$> p_devs st !! p) = true) ptrs)), st).
Proof.
  intros Hl Hr. unfold find_where. rewrite (bind_ok _ _ st st st) by done.
  destruct ptrs as [|p ps]; [simpl in Hl; by rewrite Hl|]. destruct (Z.eqb_spec (g_pcilist st) 0) as [E|_]; [destruct Hl as (? & ? & _); lia|].
  revert p Hl Hr. generalize (g_pcilist st) (p_allocs st). induction ps as [|q ps IH]; intros head [|fuel] p (-> & H0 & d & Hd & Hn) Hr; try (simpl in Hr; lia).
  - simpl in Hn. rewrite (loop_done _ _ _ _ (if test d then p else 0) st).
    + rewrite filter_cons, Hd. simpl. by destruct (test d).
    + unfold load_dev, get, of_option, mbind, M_bind. rewrite Hd. simpl. rewrite Hn. by destruct (test d).
  - destruct (test d) eqn:E.
    + rewrite (loop_done _ _ _ _ p st). { rewrite filter_cons, Hd. simpl. by rewrite E. } unfold load_dev, get, of_option, mbind, M_bind. rewrite Hd. simpl. by rewrite E.
    + rewrite (loop_next _ _ _ _ (pd_next d) st).
      * rewrite IH with (p := q) by (try done; simpl in *; lia). rewrite (filter_cons _ p), Hd. simpl. by rewrite E.
      * unfold load_dev, get, of_option, mbind, M_bind. rewrite Hd. simpl. rewrite E.
        destruct (Z.eqb_spec (pd_next d) 0) as [Ez|]; [|done]. destruct Hn as (? & ? & _). lia.
Qed.

(** ** A bus with a disk controller at 0:1.1 *)

Definition demo_cfg (b s f o : Z) : Z :=
  if (b =? 0) && (s =? 1) && (f =? 1) then
    if o =? 0 then 1879081094 else if o =? 8 then 16875520 else if o =? 32 then 49153 else 0
  else if o =? 0 then 4294967295 else 0.

(** The register the last address written selects. *)
#[local] Instance demo_bus : Devices := {|
  answer8 _ _ := 0; answer16 _ _ := 0;
  answer32 tr _ := match tr with
                   | OutL _ a :: _ => demo_cfg (a / 65536 mod 256) (a / 2048 mod 32) (a / 256 mod 8) (a mod 256)
                   | _ => 0
                   end
|}.

Lemma field_of a k m r : 0 < k → 0 ≤ r < k → 0 < m → (a * k + r) / k mod m = a mod m.
Proof. intros Hk Hr Hm. rewrite Z.add_comm, Z.div_add by lia. by rewrite (Z.div_small r). Qed.

#[local] Instance demo_bus_ok : PciBus demo_cfg.
Proof.
  split.
  - intros b s f o. unfold demo_cfg. repeat case_match; lia.
  - intros b s f o tr Hb Hs Hf Ho. simpl. set (a := 2147483648 + 65536 * b + 2048 * s + 256 * f + 4 * o).
    assert (E1 : a / 65536 mod 256 = b).
    { replace a with ((128 * 256 + b) * 65536 + (2048 * s + 256 * f + 4 * o)) by (unfold a; lia). rewrite field_of by lia.
      rewrite Z.add_comm, Z_mod_plus_full. apply Z.mod_small. lia. }
    assert (E2 : a / 2048 mod 32 = s).
    { replace a with (((128 * 256 + b) * 32 + s) * 2048 + (256 * f + 4 * o)) by (unfold a; lia). rewrite field_of by lia.
      rewrite Z.add_comm, Z_mod_plus_full. apply Z.mod_small. lia. }
    assert (E3 : a / 256 mod 8 = f).
    { replace a with ((((128 * 256 + b) * 32 + s) * 8 + f) * 256 + 4 * o) by (unfold a; lia). rewrite field_of by lia.
      rewrite Z.add_comm, Z_mod_plus_full. apply Z.mod_small. lia. }
    assert (E4 : a mod 256 = 4 * o).
    { replace a with (4 * o + (((128 * 256 + b) * 32 + s) * 8 + f) * 256) by (unfold a; lia). rewrite Z_mod_plus_full. apply Z.mod_small. lia. }
    by rewrite E1, E2, E3, E4.
Defined.

Lemma demo_chosen : present demo_cfg 0 1 1 = [(0, 1, 1)] ∧ present demo_cfg 0 1 0 = [] ∧ chosen demo_cfg 700 800 0 1 1 = (800, PataHardDrive) ∧
  hdr_BAR (header_of demo_cfg 0 1 1) = [0; 0; 0; 0; 49153; 0].
Proof. by vm_compute. Qed.

Lemma pci_devices_found_witness :
  ∃ st' ptrs, init_pci (λ n, 4096 + Z.of_nat n) 700 800 (Pst ∅ ∅ 0 0 0 []) = Ok (0, st') ∧
    linked (p_devs st') (g_pcilist st') ptrs ∧ NoDup ptrs ∧
    Forall2 (shows demo_cfg 700 800 st') ptrs (all_present demo_cfg) ∧
    g_pci_device_count st' = u32 (Z.of_nat (length (all_present demo_cfg))).
Proof.
  apply (pci_devices_found demo_cfg (λ n, 4096 + Z.of_nat n) 700 800 (Pst ∅ ∅ 0 0 0 [])); try reflexivity; intros; lia.
Defined.
