(* ===== verification/Ata.v ===== *)
(** * ATA disks (kernel/drivers/ata/ata.c)

    The driver over the ports and the byte memory.  Messages are left out.  The loop that
    waits for the busy bit runs as long as the drive is busy: [patience] is a bound on
    that, which the drive has to keep for the driver to return. *)
From S2P Require Import Prelude LibK Sync Ports.

(** ** State *)

Record ata_drive := AtaDrive {
  ad_base : Z;
  ad_ctrl : Z;
  ad_id : Z;
  ad_mode : Z;
  ad_type : Z;
  ad_slave : Z;
  ad_capabilities : Z;
  ad_command_set : Z;
  ad_signature : Z;
  ad_max_lba : Z
}.

Record ata := Ata {
  at_mem : bmem;
  at_drives : gmap Z ata_drive;
  at_selected_mode : Z;
  at_selected_drive : Z;
  at_lock : Z;
  at_errno : Z;
  at_io : list io
}.

Definition ATA_REG_DATA : Z := 0.
Definition ATA_REG_ERROR : Z := 1.
Definition ATA_REG_SECCOUNT0 : Z := 2.
Definition ATA_REG_LBA0 : Z := 3.
Definition ATA_REG_LBA1 : Z := 4.
Definition ATA_REG_LBA2 : Z := 5.
Definition ATA_REG_HDDEVSEL : Z := 6.
Definition ATA_REG_CMD : Z := 7.
Definition ATA_REG_STATUS : Z := 7.
Definition ATA_REG_SECCOUNT1 : Z := 8.
Definition ATA_REG_LBA3 : Z := 9.
Definition ATA_REG_LBA4 : Z := 10.
Definition ATA_REG_LBA5 : Z := 11.
Definition ATA_REG_CONTROL : Z := 12.
Definition ATA_REG_ALTSTATUS : Z := 12.
Definition ATA_ERROR_ABRT : Z := 4.
Definition ATA_CMD_RESET : Z := 4.
Definition ATA_CMD_READ_SECTORS : Z := 32.
Definition ATA_CMD_READ_SECTORS_EXT : Z := 36.
Definition ATA_CMD_WRITE_SECTORS : Z := 48.
Definition ATA_CMD_WRITE_SECTORS_EXT : Z := 52.
Definition ATA_CMD_CACHE_FLUSH : Z := 231.
Definition ATA_CMD_IDENTIFY : Z := 236.
Definition ATA_STATUS_BSY : Z := 128.
Definition ATA_STATUS_DF : Z := 32.
Definition ATA_STATUS_DRQ : Z := 8.
Definition ATA_STATUS_ERR : Z := 1.
Definition ATA_MODE_LBA28 : Z := 32.
Definition ATA_MODE_LBA48 : Z := 64.
Definition ATA_CAPABILITIES_LBA : Z := 512.
Definition EIO : Z := 5.
Definition EINVAL : Z := 22.

(** ** Operations on the parts of the state *)

Definition on_ports {A} (c : M (list io) A) : M ata A := λ s,
  match c (at_io s) with
  | Ok (a, tr) => Ok (a, Ata (at_mem s) (at_drives s) (at_selected_mode s) (at_selected_drive s) (at_lock s) (at_errno s) tr)
  | Fault => Fault
  | Hang => Hang
  end.

Definition on_ram {A} (c : M bmem A) : M ata A := λ s,
  match c (at_mem s) with
  | Ok (a, m) => Ok (a, Ata m (at_drives s) (at_selected_mode s) (at_selected_drive s) (at_lock s) (at_errno s) (at_io s))
  | Fault => Fault
  | Hang => Hang
  end.

Definition on_atalock {A} (c : M Z A) : M ata A := λ s,
  match c (at_lock s) with
  | Ok (a, l) => Ok (a, Ata (at_mem s) (at_drives s) (at_selected_mode s) (at_selected_drive s) l (at_errno s) (at_io s))
  | Fault => Fault
  | Hang => Hang
  end.

Definition load_drive (p : Z) : M ata ata_drive := m ← get at_drives; of_option (m !! p).

Definition set_ata_errno (e : Z) : M ata unit :=
  modify (λ s, Ata (at_mem s) (at_drives s) (at_selected_mode s) (at_selected_drive s) (at_lock s) e (at_io s)).

Definition set_selected (drive mode : Z) : M ata unit :=
  modify (λ s, Ata (at_mem s) (at_drives s) mode drive (at_lock s) (at_errno s) (at_io s)).

Section ata.
Context `{!Devices}.
(** A bound on the number of times a drive answers that it is busy. *)
Variable patience : nat.

(** Alone it is taken at once or never. *)
Definition ata_lock : M ata unit :=
  loop 2 (λ _ : unit,
    l ← get at_lock;
    if negb (l =? 0) then mret (inl tt)
    else
      r ← on_atalock (arch_atomic_test_and_set 1);
      if negb (r =? 0) then mret (inl tt) else mret (inr tt)) tt.

Definition ata_unlock : M ata unit :=
  on_atalock (λ _, Ok (tt, 0)).

Definition ata_wait (base : Z) : M (list io) unit :=
  _ ← port_byte_in (base + ATA_REG_ALTSTATUS);
  _ ← port_byte_in (base + ATA_REG_ALTSTATUS);
  _ ← port_byte_in (base + ATA_REG_ALTSTATUS);
  _ ← port_byte_in (base + ATA_REG_ALTSTATUS);
  mret tt.

Definition ata_wait_clear_bsy (base : Z) : M (list io) Z :=
  loop patience (λ _ : unit,
    ret ← port_byte_in (base + ATA_REG_STATUS);
    if negb (Z.land ret ATA_STATUS_BSY =? 0) then mret (inl tt) else mret (inr ret)) tt.

Definition clear_error (base : Z) : M (list io) unit := port_byte_out (base + ATA_REG_ERROR) 0.

(** Five times [ata_wait]. *)
Definition ata_wait5 (base : Z) : M (list io) unit :=
  _ ← ata_wait base; _ ← ata_wait base; _ ← ata_wait base; _ ← ata_wait base; ata_wait base.

Definition ata_select_drive (drive mode : Z) : M ata unit :=
  sd ← get at_selected_drive;
  sm ← get at_selected_mode;
  if negb (drive =? sd) && negb (mode =? sm) then
    d ← load_drive drive;
    let hi := if Z.land (ad_capabilities d) ATA_CAPABILITIES_LBA =? 0 then 160 else 224 in
    _ ← on_ports (port_byte_out (ad_base d + ATA_REG_HDDEVSEL)
           (Z.lor (Z.lor hi (Z.shiftl (ad_slave d) 4)) (Z.land mode 15)));
    _ ← on_ports (ata_wait5 (ad_base d));
    set_selected drive mode
  else mret tt.

Definition ata_software_reset (base ctrl : Z) : M (list io) unit :=
  _ ← port_byte_out ctrl ATA_CMD_RESET;
  _ ← ata_wait base;
  port_byte_out ctrl 0.

Definition ata_polling (base : Z) (advanced_check : bool) : M (list io) Z :=
  _ ← ata_wait base;
  status ← ata_wait_clear_bsy base;
  if advanced_check then
    if negb (Z.land status ATA_STATUS_ERR =? 0) || negb (Z.land status ATA_STATUS_DF =? 0) then
      _ ← ata_wait base;
      error ← port_byte_in (base + ATA_REG_ERROR);
      mret (- error)
    else if Z.land status ATA_STATUS_DRQ =? 0 then mret (-1)
    else mret 0
  else mret 0.

Definition ata_send_sec_and_lba (d : ata_drive) (lba count : Z) : M (list io) unit :=
  let base := ad_base d in
  _ ← (if ad_mode d =? ATA_MODE_LBA48 then
         _ ← port_byte_out (base + ATA_REG_SECCOUNT1) (Z.land count 65280);
         _ ← port_byte_out (base + ATA_REG_LBA3) 0;
         _ ← port_byte_out (base + ATA_REG_LBA4) 0;
         port_byte_out (base + ATA_REG_LBA5) 0
       else mret tt);
  _ ← port_byte_out (base + ATA_REG_SECCOUNT0) (Z.land count 255);
  _ ← port_byte_out (base + ATA_REG_LBA0) (u8 lba);
  _ ← port_byte_out (base + ATA_REG_LBA1) (u8 (Z.shiftr lba 8));
  port_byte_out (base + ATA_REG_LBA2) (u8 (Z.shiftr lba 16)).

(** ** Reading *)

(** The 256 words of a sector. *)
Definition read_words (base buffer : Z) : M ata unit :=
  loop 257 (λ i,
    if i <? 256 then
      data ← on_ports (port_word_in (base + ATA_REG_DATA));
      _ ← on_ram (store16 (buffer + 2 * i) data);
      mret (inl (i + 1))
    else mret (inr tt)) 0.

(** The loop over the sectors: where [buffer] stands, and whether to try again. *)
Definition read_sectors (base : Z) (n : nat) (buffer : Z) : M ata (Z * bool) :=
  loop (S n) (λ '(cnt, buffer),
    if negb (cnt =? 0) then
      poll_ret ← on_ports (ata_polling base true);
      if negb (poll_ret =? 0) && (poll_ret =? - ATA_ERROR_ABRT) then
        _ ← on_ports (ata_wait5 base);
        mret (inr (buffer, true))
      else
        _ ← read_words base buffer;
        _ ← on_ports (ata_wait base);
        _ ← on_ports (ata_polling base false);
        _ ← on_ports (port_byte_out (base + ATA_REG_DATA) ATA_CMD_CACHE_FLUSH);
        _ ← on_ports (ata_polling base false);
        mret (inl (cnt - 1, buffer + 512))
    else mret (inr (buffer, false))) (Z.of_nat n, buffer).

(** From the command on. *)
Definition read_command (d : ata_drive) : M (list io) unit :=
  _ ← ata_wait (ad_base d);
  _ ← port_byte_out (ad_base d + ATA_REG_CMD)
        (if ad_mode d =? ATA_MODE_LBA48 then ATA_CMD_READ_SECTORS_EXT else ATA_CMD_READ_SECTORS);
  ata_wait (ad_base d).

(** From the label [retry]: to it again with the number of attempts and [buffer], or the
    result. *)
Definition read_attempt (drive lba count : Z) : Z * Z → M ata (Z * Z + Z) := λ '(retry_count, buffer),
  let retry_count := retry_count + 1 in
  if retry_count =? 5 then
    _ ← set_ata_errno EIO;
    mret (inr (-1))
  else
    d ← load_drive drive;
    if negb (Z.land (ad_capabilities d) ATA_CAPABILITIES_LBA =? 0) then
      _ ← ata_select_drive drive (Z.lor (ad_mode d) (Z.land (Z.shiftr lba 24) 15));
      _ ← on_ports (clear_error (ad_base d));
      _ ← on_ports (ata_send_sec_and_lba d lba count);
      _ ← on_ports (read_command d);
      '(buffer, again) ← read_sectors (ad_base d) (Z.to_nat count) buffer;
      if (again : bool) then mret (inl (retry_count, buffer))
      else
        r ← on_ports (ata_polling (ad_base d) false);
        if negb (r =? 0) then _ ← set_ata_errno EINVAL; mret (inr (-1)) else mret (inr 0)
    else mret (inr 0).

Definition _atapio_read (drive lba buffer count : Z) : M ata Z := loop 5 (read_attempt drive lba count) (0, buffer).

(** ** Writing *)

Definition write_words (base buf : Z) : M ata unit :=
  loop 257 (λ i,
    if i <? 256 then
      w ← on_ram (load16 (buf + 2 * i));
      _ ← on_ports (port_word_out (base + ATA_REG_DATA) w);
      _ ← on_ports (port_word_out (base + ATA_REG_CMD) ATA_CMD_CACHE_FLUSH);
      mret (inl (i + 1))
    else mret (inr tt)) 0.

Definition write_sectors (base : Z) (n : nat) (buf : Z) : M ata Z :=
  loop (S n) (λ '(seccnt, buf),
    if seccnt <? Z.of_nat n then
      r ← on_ports (ata_polling base true);
      if negb (r =? 0) then _ ← set_ata_errno EINVAL; mret (inr (-1))
      else
        _ ← write_words base buf;
        mret (inl (seccnt + 1, u32 (buf + 512)))
    else mret (inr 0)) (0, buf).

Definition _atapio_write (drive lba buffer count : Z) : M ata Z :=
  d ← load_drive drive;
  _ ← ata_select_drive drive (ad_mode d);
  _ ← on_ports (clear_error (ad_base d));
  _ ← on_ports (ata_send_sec_and_lba d lba count);
  _ ← on_ports (ata_wait (ad_base d));
  _ ← on_ports (port_byte_out (ad_base d + ATA_REG_CMD)
         (if ad_mode d =? ATA_MODE_LBA48 then ATA_CMD_WRITE_SECTORS_EXT else ATA_CMD_WRITE_SECTORS));
  r ← write_sectors (ad_base d) (Z.to_nat count) buffer;
  if negb (r =? 0) then mret r
  else
    _ ← on_ports (ata_polling (ad_base d) false);
    _ ← on_ports (port_byte_out (ad_base d + ATA_REG_DATA) ATA_CMD_CACHE_FLUSH);
    _ ← on_ports (ata_polling (ad_base d) false);
    mret 0.

(** [drive] is the disk's [drive_info]. *)
Definition atapio_read (drive offset buffer count : Z) : M ata Z :=
  _ ← ata_lock;
  ret ← _atapio_read drive offset buffer count;
  _ ← ata_unlock;
  mret (if ret =? 0 then s32 count else -1).

Definition atapio_write (drive offset buffer count : Z) : M ata Z :=
  _ ← ata_lock;
  ret ← _atapio_write drive offset buffer count;
  _ ← ata_unlock;
  mret (if ret =? 0 then s32 count else -1).
End ata.
