(* ===== verification/Sockets.v ===== *)
(** * Unix sockets (kernel/net/socket.c, kernel/net/socket/unix.c)

    Sockets, connections, pending connections and pipes are records at their addresses.
    The addresses [kmalloc] returns are arguments of the operations that allocate.  What
    the vfs knows about paths, [vfs_find_path] and [vfs_sock_create], is a parameter.
    The two loops that wait for another task ([while (accept_conn->lock)] and
    [while (!q->size)]) are [Hang] when run alone, and steps that are enabled when the
    condition holds in the step relation of several tasks. *)
From S2P Require Import Prelude Sync Ringbuffer.

Record accept_conn := AcceptConn { ac_lock : Z; ac_client_pipe : Z; ac_server_pipe : Z }.

Record socket_conn := SocketConn {
  cn_client : Z;
  cn_soc : Z;
  cn_type : Z;
  cn_protocol : Z;
  cn_send_pipe : Z;
  cn_recv_pipe : Z
}.

Record socket := Socket {
  so_protocol : Z;
  so_type : Z;
  so_server_lock : Z;
  so_server_backlog : Z;
  so_queue : queue
}.

(** A pipe is its ring buffer and its flags. *)
Record net := Net {
  n_conns : gmap Z socket_conn;
  n_socks : gmap Z socket;
  n_accepts : gmap Z accept_conn;
  n_pipes : gmap Z (ringbuffer * Z);
  n_errno : Z
}.

Definition EADDRINUSE : Z := 112.
Definition ECONNREFUSED : Z := 111.
Definition ENOTSOCK : Z := 108.

Definition set_conns (v : gmap Z socket_conn) (n : net) : net := Net v (n_socks n) (n_accepts n) (n_pipes n) (n_errno n).
Definition set_socks (v : gmap Z socket) (n : net) : net := Net (n_conns n) v (n_accepts n) (n_pipes n) (n_errno n).
Definition set_accepts (v : gmap Z accept_conn) (n : net) : net := Net (n_conns n) (n_socks n) v (n_pipes n) (n_errno n).
Definition set_pipes (v : gmap Z (ringbuffer * Z)) (n : net) : net := Net (n_conns n) (n_socks n) (n_accepts n) v (n_errno n).
Definition set_net_errno (e : Z) : M net unit := modify (λ n, Net (n_conns n) (n_socks n) (n_accepts n) (n_pipes n) e).

Definition load_conn (p : Z) : M net socket_conn := m ← get n_conns; of_option (m !! p).
Definition store_conn (p : Z) (c : socket_conn) : M net unit := modify (λ n, set_conns (<[p := c]> (n_conns n)) n).
Definition load_sock (p : Z) : M net socket := m ← get n_socks; of_option (m !! p).
Definition store_sock (p : Z) (c : socket) : M net unit := modify (λ n, set_socks (<[p := c]> (n_socks n)) n).
Definition load_accept (p : Z) : M net accept_conn := m ← get n_accepts; of_option (m !! p).

(** A queue operation on the socket at [p]. *)
Definition on_queue {A} (p : Z) (c : M queue A) : M net A :=
  s ← load_sock p;
  match c (so_queue s) with
  | Ok (a, q) => _ ← store_sock p (Socket (so_protocol s) (so_type s) (so_server_lock s) (so_server_backlog s) q); mret a
  | Fault => fault
  | Hang => hang
  end.

(** ** unix.c *)

Definition unix_socket (addr type protocol : Z) : M net Z :=
  _ ← store_conn addr (SocketConn 0 0 type protocol 0 0);
  mret addr.

(** [junk] is what the queue's buffer held before. *)
Definition unix_socket_setup (addr : Z) (junk : list Z) (type protocol : Z) : M net Z :=
  _ ← store_sock addr (Socket protocol type 0 0 (queue_create (-1) junk));
  mret addr.

Section paths.
(** The socket of the node at the path of an address, 0 if there is none; making a node
    for a socket. *)
Variable find_socket : Z → net → Z.
Variable vfs_sock_create : Z → Z → M net Z.

Definition socket_from_addr (addr : Z) : M net Z := get (find_socket addr).

Definition unix_socket_bind (conn addr : Z) : M net Z :=
  tobind ← socket_from_addr addr;
  if tobind =? 0 then mret (-1)
  else
    c ← load_conn conn;
    _ ← store_conn conn (SocketConn (cn_client c) tobind (cn_type c) (cn_protocol c) (cn_send_pipe c) (cn_recv_pipe c));
    mret 0.

Definition unix_socket_create (soc : Z) (junk : list Z) (conn addr : Z) : M net Z :=
  c ← load_conn conn;
  soc ← unix_socket_setup soc junk (cn_type c) (cn_protocol c);
  r ← vfs_sock_create addr soc;
  if negb (r =? 0) then mret 0 else mret soc.

End paths.

Definition unix_socket_listen (conn backlog : Z) : M net Z :=
  c ← load_conn conn;
  s ← load_sock (cn_soc c);
  if negb (so_server_lock s =? 0) then _ ← set_net_errno EADDRINUSE; mret (-1)
  else
    _ ← store_sock (cn_soc c) (Socket (so_protocol s) (so_type s) 1 backlog (so_queue s));
    mret 0.

(** *** Connecting *)

Definition O_NONBLOCK : Z := 16384.

(** [pipe_create], with the flags changed. *)
Definition made_pipe (junk : list Z) : ringbuffer * Z := (pipe_create junk, Z.lxor 0 O_NONBLOCK).

Definition new_pipe (p : Z) (junk : list Z) : M net unit :=
  modify (λ n, set_pipes (<[p := made_pipe junk]> (n_pipes n)) n).

(** Up to the loop: the pending connection at [ac] with its pipes is put in the queue. *)
Definition tryconnect_push (ac cp sp : Z) (junk1 junk2 : list Z) (conn : Z) : M net Z :=
  _ ← new_pipe cp junk1;
  _ ← new_pipe sp junk2;
  _ ← modify (λ n, set_accepts (<[ac := AcceptConn 1 cp sp]> (n_accepts n)) n);
  c ← load_conn conn;
  r ← on_queue (cn_soc c) (queue_push ac);
  if r =? -1 then
    _ ← modify (λ n, set_pipes (delete sp (delete cp (n_pipes n))) n);
    _ ← modify (λ n, set_accepts (delete ac (n_accepts n)) n);
    mret (-1)
  else mret 0.

(** From the loop on. *)
Definition tryconnect_finish (ac conn : Z) : M net Z :=
  a ← load_accept ac;
  if negb (ac_lock a =? 0) then hang
  else
    c ← load_conn conn;
    _ ← store_conn conn (SocketConn (cn_client c) (cn_soc c) (cn_type c) (cn_protocol c) (ac_server_pipe a) (ac_client_pipe a));
    _ ← modify (λ n, set_accepts (delete ac (n_accepts n)) n);
    mret 0.

Definition unix_socket_tryconnect (ac cp sp : Z) (junk1 junk2 : list Z) (conn : Z) : M net Z :=
  r ← tryconnect_push ac cp sp junk1 junk2 conn;
  if r =? -1 then mret (-1) else tryconnect_finish ac conn.

(** Up to [unix_socket_tryconnect]: whether somebody listens. *)
Definition connect_check (conn : Z) : M net Z :=
  c ← load_conn conn;
  s ← load_sock (cn_soc c);
  if so_server_lock s =? 0 then _ ← set_net_errno ECONNREFUSED; mret (-1)
  else
    _ ← store_conn conn (SocketConn 1 (cn_soc c) (cn_type c) (cn_protocol c) (cn_send_pipe c) (cn_recv_pipe c));
    mret 0.

Definition unix_socket_connect (ac cp sp : Z) (junk1 junk2 : list Z) (conn : Z) : M net Z :=
  r ← connect_check conn;
  if r =? -1 then mret (-1) else unix_socket_tryconnect ac cp sp junk1 junk2 conn.

(** *** Accepting *)

Definition unix_socket_accept (new conn : Z) : M net Z :=
  c ← load_conn conn;
  s ← load_sock (cn_soc c);
  if q_size (so_queue s) =? 0 then hang
  else
    ac ← on_queue (cn_soc c) queue_pop;
    a ← load_accept ac;
    _ ← store_conn new (SocketConn (cn_client c) (cn_soc c) (cn_type c) (cn_protocol c) (ac_client_pipe a) (ac_server_pipe a));
    _ ← modify (λ n, set_accepts (<[ac := AcceptConn 0 (ac_client_pipe a) (ac_server_pipe a)]> (n_accepts n)) n);
    mret new.

(** *** Data *)

Definition load_ring (p : Z) (n : net) : option ringbuffer := fst <$> n_pipes n !! p.

Definition store_ring (p : Z) (r : option ringbuffer) (n : net) : net :=
  match r with
  | None => n
  | Some rb => set_pipes (alter (λ '(_, f), (rb, f)) p (n_pipes n)) n
  end.

(** The error number a pipe operation leaves. *)
Definition pipe_errno (e : Z) (n : net) : net :=
  if e =? 0 then n else Net (n_conns n) (n_socks n) (n_accepts n) (n_pipes n) e.

Definition unix_socket_send (conn : Z) (bs : list Z) : M net Z :=
  c ← load_conn conn;
  if cn_soc c =? 0 then mret (-1)
  else λ n,
    match pipe_write_raw bs 0 (load_ring (cn_send_pipe c) n) with
    | (Ok (r, rb), e) => Ok (r, pipe_errno e (store_ring (cn_send_pipe c) rb n))
    | (Fault, _) => Fault
    | (Hang, _) => Hang
    end.

Definition unix_socket_recv (conn size : Z) : M net (Z * list Z) :=
  c ← load_conn conn;
  if cn_soc c =? 0 then mret (-1, [])
  else λ n,
    match pipe_read_raw size 0 (load_ring (cn_recv_pipe c) n) with
    | (Ok (r, rb), e) => Ok (r, pipe_errno e (store_ring (cn_recv_pipe c) rb n))
    | (Fault, _) => Fault
    | (Hang, _) => Hang
    end.

(** ** socket.c

    A descriptor is the [offset] of its node, [None] when it has none: the address of its
    connection.  A socket is made by [unix_socket_setup] alone, so its functions are those
    of unix.c and never NULL. *)

Definition AF_UNIX : Z := 1.
Definition EAFNOSUPPORT : Z := 97.

Definition on_conn {A} (fd : option Z) (bad : A) (f : Z → M net A) : M net A :=
  match fd with
  | None => mret bad
  | Some conn => if conn =? 0 then mret bad else f conn
  end.

Definition need_socket {A} (fd : option Z) (bad : A) (f : Z → M net A) : M net A :=
  on_conn fd bad (λ conn,
    c ← load_conn conn;
    if cn_soc c =? 0 then _ ← set_net_errno ENOTSOCK; mret bad else f conn).

Definition sock_listen (fd : option Z) (backlog : Z) : M net Z := need_socket fd (-1) (λ conn, unix_socket_listen conn backlog).
Definition sock_send (fd : option Z) (bs : list Z) : M net Z := need_socket fd (-1) (λ conn, unix_socket_send conn bs).
Definition sock_recv (fd : option Z) (size : Z) : M net (Z * list Z) :=
  need_socket fd (-1, []) (λ conn, unix_socket_recv conn size).
Definition sock_close : Z := 0.

(** The system calls turn -1 into the negated error number. *)
Definition or_net_errno (c : M net Z) : M net Z := r ← c; if r =? -1 then e ← get n_errno; mret (- e) else mret r.

Definition sys_listen (fd : option Z) (backlog : Z) : M net Z := or_net_errno (sock_listen fd backlog).
Definition sys_send (fd : option Z) (bs : list Z) : M net Z := or_net_errno (sock_send fd bs).
Definition sys_recv (fd : option Z) (size : Z) : M net (Z * list Z) :=
  '(r, bs) ← sock_recv fd size; if r =? -1 then e ← get n_errno; mret (- e, bs) else mret (r, bs).

Section descriptors.
(** What the vfs knows about paths, and [register_filedescriptor] on a new node for a
    connection. *)
Variable find_socket : Z → net → Z.
Variable vfs_sock_create : Z → Z → M net Z.
Variable register : Z → M net Z.

Definition socket_open (addr domain type protocol : Z) : M net Z :=
  if domain =? AF_UNIX then soc ← unix_socket addr type protocol; register soc
  else _ ← set_net_errno EAFNOSUPPORT; mret (-1).

Definition sock_accept (new : Z) (fd : option Z) : M net Z :=
  need_socket fd (-1) (λ conn, accepted ← unix_socket_accept new conn; register accepted).

Definition sock_bind (soc : Z) (junk : list Z) (fd : option Z) (addr : Z) : M net Z :=
  on_conn fd (-1) (λ conn,
    c ← load_conn conn;
    if cn_soc c =? 0 then
      s ← unix_socket_create vfs_sock_create soc junk conn addr;
      c ← load_conn conn;
      _ ← store_conn conn (SocketConn (cn_client c) s (cn_type c) (cn_protocol c) (cn_send_pipe c) (cn_recv_pipe c));
      if s =? 0 then mret (-1) else unix_socket_bind find_socket conn addr
    else unix_socket_bind find_socket conn addr).

Definition sock_connect (soc : Z) (junk : list Z) (ac cp sp : Z) (junk1 junk2 : list Z) (fd : option Z) (addr : Z) : M net Z :=
  on_conn fd (-1) (λ conn,
    c ← load_conn conn;
    r ← (if cn_soc c =? 0 then sock_bind soc junk fd addr else mret 0);
    if r =? -1 then mret (-1) else unix_socket_connect ac cp sp junk1 junk2 conn).

Definition sys_socket (addr domain type protocol : Z) : M net Z := or_net_errno (socket_open addr domain type protocol).
Definition sys_accept (new : Z) (fd : option Z) : M net Z := or_net_errno (sock_accept new fd).
Definition sys_bind (soc : Z) (junk : list Z) (fd : option Z) (addr : Z) : M net Z := or_net_errno (sock_bind soc junk fd addr).
Definition sys_connect (soc : Z) (junk : list Z) (ac cp sp : Z) (junk1 junk2 : list Z) (fd : option Z) (addr : Z) : M net Z :=
  or_net_errno (sock_connect soc junk ac cp sp junk1 junk2 fd addr).
End descriptors.

(** ** Tasks that connect and accept *)

Inductive thread :=
| Connecting (conn : Z)
| Waiting (conn ac : Z)
| Connected (conn : Z)
| Refused (conn : Z)
| Accepting (conn : Z)
| Accepted (conn new : Z).

(** A pipe that has been made and not used yet: empty, its buffer whole, its flags as
    [unix_socket_tryconnect] leaves them. *)
Definition unused (n : net) (p : Z) : Prop :=
  ∃ r, n_pipes n !! p = Some (r, O_NONBLOCK) ∧ rb_is r [] ∧ rb_cursize r = 0 ∧ nonblock r = false ∧ virtual_end r = 0.

(** The blocks [kmalloc] gives hold a whole ring buffer. *)
Definition whole (junk : list Z) : Prop := (Z.to_nat USHRT_MAX ≤ length junk)%nat.

(** New addresses are not in use. *)
Definition new_addrs (n : net) (ac cp sp : Z) : Prop :=
  n_accepts n !! ac = None ∧ n_pipes n !! cp = None ∧ n_pipes n !! sp = None ∧ cp ≠ sp ∧ ac ≠ 0.

Inductive step : net * list thread → net * list thread → Prop :=
| step_push n ts i c ac cp sp junk1 junk2 n' :
    ts !! i = Some (Connecting c) → new_addrs n ac cp sp → whole junk1 → whole junk2 →
    tryconnect_push ac cp sp junk1 junk2 c n = Ok (0, n') →
    step (n, ts) (n', <[i := Waiting c ac]> ts)
| step_refused n ts i c ac cp sp junk1 junk2 n' :
    ts !! i = Some (Connecting c) → new_addrs n ac cp sp → whole junk1 → whole junk2 →
    tryconnect_push ac cp sp junk1 junk2 c n = Ok (-1, n') →
    step (n, ts) (n', <[i := Refused c]> ts)
| step_finish n ts i c ac n' :
    ts !! i = Some (Waiting c ac) → tryconnect_finish ac c n = Ok (0, n') →
    step (n, ts) (n', <[i := Connected c]> ts)
| step_accept n ts i c new n' :
    ts !! i = Some (Accepting c) → n_conns n !! new = None → new ≠ 0 →
    unix_socket_accept new c n = Ok (new, n') →
    step (n, ts) (n', <[i := Accepted c new]> ts).

(** The task is a client, with its connection. *)
Definition client_of (t : thread) : option Z :=
  match t with Connecting c | Waiting c _ | Connected c | Refused c => Some c | _ => None end.

(** The pipe to the client and the pipe to the server. *)
Definition client_pair (n : net) (t : thread) : option (Z * Z) :=
  match t with
  | Waiting _ ac => (λ a, (ac_client_pipe a, ac_server_pipe a)) <$> n_accepts n !! ac
  | Connected c => (λ cc, (cn_recv_pipe cc, cn_send_pipe cc)) <$> n_conns n !! c
  | _ => None
  end.

Definition server_pair (n : net) (t : thread) : option (Z * Z) :=
  match t with
  | Accepted _ new => (λ cc, (cn_send_pipe cc, cn_recv_pipe cc)) <$> n_conns n !! new
  | _ => None
  end.

(** Pairs of pipes that have nothing in common. *)
Definition apart (x y : Z * Z) : Prop := x.1 ≠ y.1 ∧ x.1 ≠ y.2 ∧ x.2 ≠ y.1 ∧ x.2 ≠ y.2.

(** The connection accepted last is the mate of [x]. *)
Definition served (n : net) (ts : list thread) (x : Z * Z) : Prop :=
  ∃ j k new, ts !! j = Some (Accepted k new) ∧ server_pair n (Accepted k new) = Some x.

(** A pending connection belongs to a waiting task and has not been accepted. *)
Definition pending (n : net) (ts : list thread) (ac : Z) : Prop :=
  ∃ i c a, ts !! i = Some (Waiting c ac) ∧ n_accepts n !! ac = Some a ∧
    ∀ j t, ts !! j = Some t → server_pair n t ≠ Some (ac_client_pipe a, ac_server_pipe a).

(** The invariant for the tasks of socket [S] with the queue [q]; [P] are the pairs of
    pipes made so far. *)
Record inv (S : Z) (q : list Z) (P : gset (Z * Z)) (n : net) (ts : list thread) : Prop := Inv {
  iv_sock : ∃ s, n_socks n !! S = Some s ∧ queue_is (so_queue s) q;
  iv_nodup : NoDup q;
  iv_conn : ∀ i t c, ts !! i = Some t → (client_of t = Some c ∨ t = Accepting c) → ∃ cc, n_conns n !! c = Some cc ∧ cn_soc cc = S;
  iv_clients : ∀ i j t u c, ts !! i = Some t → ts !! j = Some u → client_of t = Some c → client_of u = Some c → i = j;
  iv_new : ∀ i j t c k new, ts !! i = Some t → client_of t = Some c → ts !! j = Some (Accepted k new) → c ≠ new;
  iv_accepted : ∀ i k new, ts !! i = Some (Accepted k new) → ∃ cs, n_conns n !! new = Some cs ∧ cn_soc cs = S;
  iv_null : n_conns n !! 0 = None;
  iv_pipes : ∀ x, x ∈ P → unused n x.1 ∧ unused n x.2;
  iv_apart : ∀ x y, x ∈ P → y ∈ P → x ≠ y → apart x y;
  iv_client : ∀ i t x, ts !! i = Some t → client_pair n t = Some x → x ∈ P;
  iv_server : ∀ i t x, ts !! i = Some t → server_pair n t = Some x → x ∈ P;
  iv_client1 : ∀ i j t u x, ts !! i = Some t → ts !! j = Some u → client_pair n t = Some x → client_pair n u = Some x → i = j;
  iv_server1 : ∀ i j t u x, ts !! i = Some t → ts !! j = Some u → server_pair n t = Some x → server_pair n u = Some x → i = j;
  iv_acs : ∀ i j c c' ac, ts !! i = Some (Waiting c ac) → ts !! j = Some (Waiting c' ac) → i = j;
  iv_waiting : ∀ i c ac, ts !! i = Some (Waiting c ac) → ∃ a, n_accepts n !! ac = Some a ∧
    (ac_lock a = 0 → served n ts (ac_client_pipe a, ac_server_pipe a));
  iv_connected : ∀ i c, ts !! i = Some (Connected c) → ∃ x, client_pair n (Connected c) = Some x ∧ served n ts x;
  iv_pending : ∀ ac, ac ∈ q → pending n ts ac
}.

(** ** What the operations do *)

Definition with_queue (s : socket) (q : queue) : socket :=
  Socket (so_protocol s) (so_type s) (so_server_lock s) (so_server_backlog s) q.

Lemma run_load_conn n p c : n_conns n !! p = Some c → load_conn p n = Ok (c, n).
Proof. intros E. unfold load_conn, get, of_option, mbind, M_bind. by rewrite E. Qed.

Lemma run_load_sock n p s : n_socks n !! p = Some s → load_sock p n = Ok (s, n).
Proof. intros E. unfold load_sock, get, of_option, mbind, M_bind. by rewrite E. Qed.

Lemma run_load_accept n p a : n_accepts n !! p = Some a → load_accept p n = Ok (a, n).
Proof. intros E. unfold load_accept, get, of_option, mbind, M_bind. by rewrite E. Qed.

Lemma run_on_queue {A} n p s (f : M queue A) x q : n_socks n !! p = Some s → f (so_queue s) = Ok (x, q) →
  on_queue p f n = Ok (x, set_socks (<[p := with_queue s q]> (n_socks n)) n).
Proof. intros E Hf. unfold on_queue. rewrite (bind_ok _ _ _ _ _ (run_load_sock n p s E)), Hf. done. Qed.

Lemma push_ok n S c cc s l ac cp sp j1 j2 :
  n_conns n !! c = Some cc → cn_soc cc = S → n_socks n !! S = Some s → queue_is (so_queue s) l → new_addrs n ac cp sp →
  (∃ q, tryconnect_push ac cp sp j1 j2 c n =
      Ok (0, Net (n_conns n) (<[S := with_queue s q]> (n_socks n)) (<[ac := AcceptConn 1 cp sp]> (n_accepts n))
        (<[sp := made_pipe j2]> (<[cp := made_pipe j1]> (n_pipes n))) (n_errno n)) ∧
    queue_is q (l ++ [ac])) ∨
  tryconnect_push ac cp sp j1 j2 c n = Ok (-1, set_socks (<[S := with_queue s (so_queue s)]> (n_socks n)) n).
Proof.
  intros Hc HS Hs Hq (Ha & Hcp & Hsp & Hne & _). unfold tryconnect_push, new_pipe.
  set (pipes' := <[sp := made_pipe j2]> (<[cp := made_pipe j1]> (n_pipes n))).
  set (n1 := Net (n_conns n) (n_socks n) (<[ac := AcceptConn 1 cp sp]> (n_accepts n)) pipes' (n_errno n)).
  rewrite (bind_ok _ _ _ tt (set_pipes (<[cp := made_pipe j1]> (n_pipes n)) n)) by done.
  rewrite (bind_ok _ _ _ tt (set_pipes pipes' n)), (bind_ok _ _ _ tt n1) by done.
  rewrite (bind_ok _ _ _ _ _ (run_load_conn n1 c cc Hc)), HS. pose proof (push_run (so_queue s) l ac Hq) as Hp.
  destruct (decide _).
  - left. destruct Hp as (q & Hp & Hq' & _). exists q. split; [|done].
    rewrite (bind_ok _ _ _ _ _ (run_on_queue n1 S s _ _ _ Hs Hp)).
    by destruct (Z.eqb_spec (Z.of_nat (length l)) (-1)); [lia|].
  - right. rewrite (bind_ok _ _ _ _ _ (run_on_queue n1 S s _ _ _ Hs Hp)). cbn [Z.eqb Pos.eqb].
    unfold modify, mbind, M_bind, mret, M_ret, set_socks, set_accepts, set_pipes, n1, pipes'. cbn.
    rewrite (delete_insert_id (n_accepts n)) by done. do 3 f_equal.
    rewrite (insert_insert_ne _ sp cp) by done. rewrite delete_insert_id by (by rewrite lookup_insert_ne).
    by rewrite delete_insert_id.
Qed.

Lemma finish_ok n ac c n' : tryconnect_finish ac c n = Ok (0, n') →
  ∃ a cc, n_accepts n !! ac = Some a ∧ ac_lock a = 0 ∧ n_conns n !! c = Some cc ∧
    n' = Net (<[c := SocketConn (cn_client cc) (cn_soc cc) (cn_type cc) (cn_protocol cc) (ac_server_pipe a) (ac_client_pipe a)]> (n_conns n))
           (n_socks n) (delete ac (n_accepts n)) (n_pipes n) (n_errno n).
Proof.
  unfold tryconnect_finish. intros Hf. destruct (n_accepts n !! ac) as [a|] eqn:Ha.
  2: { unfold load_accept, get, of_option, mbind, M_bind in Hf. by rewrite Ha in Hf. }
  rewrite (bind_ok _ _ _ _ _ (run_load_accept n ac a Ha)) in Hf.
  destruct (Z.eqb_spec (ac_lock a) 0) as [Hl|]; [|done]. destruct (n_conns n !! c) as [cc|] eqn:Hc.
  2: { unfold load_conn, get, of_option, mbind, M_bind in Hf. simpl in Hf. by rewrite Hc in Hf. }
  cbn [negb] in Hf. rewrite (bind_ok _ _ _ _ _ (run_load_conn n c cc Hc)) in Hf. injection Hf as <-. by exists a, cc.
Qed.

Lemma accept_ok n S c cc s l new n' :
  n_conns n !! c = Some cc → cn_soc cc = S → n_socks n !! S = Some s → queue_is (so_queue s) l →
  unix_socket_accept new c n = Ok (new, n') →
  ∃ ac l' a q, l = ac :: l' ∧ n_accepts n !! ac = Some a ∧ queue_is q l' ∧
    n' = Net (<[new := SocketConn (cn_client cc) S (cn_type cc) (cn_protocol cc) (ac_client_pipe a) (ac_server_pipe a)]> (n_conns n))
           (<[S := with_queue s q]> (n_socks n)) (<[ac := AcceptConn 0 (ac_client_pipe a) (ac_server_pipe a)]> (n_accepts n))
           (n_pipes n) (n_errno n).
Proof.
  intros Hc HS Hs Hq Hf. unfold unix_socket_accept in Hf. rewrite (bind_ok _ _ _ _ _ (run_load_conn n c cc Hc)), HS in Hf.
  rewrite (bind_ok _ _ _ _ _ (run_load_sock n S s Hs)) in Hf. pose proof (pop_run _ _ Hq) as Hp. pose proof (qi_size _ _ Hq) as Hsz.
  rewrite Hsz in Hf. destruct l as [|ac l']; [done|]. destruct (Z.eqb_spec (Z.of_nat (length (ac :: l'))) 0); [simpl in *; lia|].
  destruct Hp as (q & Hp & Hq' & _). rewrite (bind_ok _ _ _ _ _ (run_on_queue n S s _ _ _ Hs Hp)) in Hf.
  set (n1 := set_socks _ n) in Hf. destruct (n_accepts n !! ac) as [a|] eqn:Ha.
  2: { unfold load_accept, get, of_option, mbind, M_bind in Hf. simpl in Hf. by rewrite Ha in Hf. }
  rewrite (bind_ok _ _ _ _ _ (run_load_accept n1 ac a Ha)) in Hf. injection Hf as <-. by exists ac, l', a, q.
Qed.

(** ** The invariant is preserved *)

(** A lookup in the updated list of tasks. *)
Ltac at_task H := apply list_lookup_insert_Some in H as [(? & ? & _)|[? H]]; simplify_eq/=.

Section preserve.
Variable S : Z.
Implicit Types (n : net) (ts : list thread).

(** Task [i] goes from [t] to [t'] and the state from [n] to [n']: what has to be shown. *)
Record move (P : gset (Z * Z)) n ts (i : nat) (t t' : thread) (q' : list Z) (P' : gset (Z * Z)) n' : Prop := Move {
  mv_at : ts !! i = Some t;
  mv_sock : ∃ s, n_socks n' !! S = Some s ∧ queue_is (so_queue s) q';
  mv_nodup : NoDup q';
  mv_conns : ∀ c cc, n_conns n !! c = Some cc → ∃ cc', n_conns n' !! c = Some cc' ∧ cn_soc cc' = cn_soc cc;
  mv_null : n_conns n' !! 0 = None;
  mv_client : client_of t' = client_of t ∧ (∀ c, t' ≠ Accepting c) ∧ server_pair n t = None;
  mv_new : ∀ k new, t' = Accepted k new →
    (∃ cs, n_conns n' !! new = Some cs ∧ cn_soc cs = S) ∧ ∀ j u c, ts !! j = Some u → client_of u = Some c → c ≠ new;
  mv_pairs : P ⊆ P' ∧ (∀ x, x ∈ P' → unused n' x.1 ∧ unused n' x.2) ∧
    (∀ x y, x ∈ P' → y ∈ P' → x ≠ y → apart x y);
  mv_others : ∀ j u, j ≠ i → ts !! j = Some u → client_pair n' u = client_pair n u ∧ server_pair n' u = server_pair n u;
  mv_cpair : ∀ x, client_pair n' t' = Some x → x ∈ P' ∧ ∀ j u, j ≠ i → ts !! j = Some u → client_pair n u ≠ Some x;
  mv_spair : ∀ x, server_pair n' t' = Some x → x ∈ P' ∧ ∀ j u, j ≠ i → ts !! j = Some u → server_pair n u ≠ Some x;
  mv_wait : ∀ c ac, t' = Waiting c ac →
    (∀ j c', j ≠ i → ts !! j ≠ Some (Waiting c' ac)) ∧ ∃ a, n_accepts n' !! ac = Some a ∧ ac_lock a ≠ 0;
  mv_waiting : ∀ j c ac a, j ≠ i → ts !! j = Some (Waiting c ac) → n_accepts n !! ac = Some a →
    n_accepts n' !! ac = Some a ∨
    n_accepts n' !! ac = Some (AcceptConn 0 (ac_client_pipe a) (ac_server_pipe a)) ∧
      server_pair n' t' = Some (ac_client_pipe a, ac_server_pipe a);
  mv_connected : ∀ c, t' = Connected c → ∃ x, client_pair n' t' = Some x ∧ served n ts x;
  mv_pending : ∀ ac, ac ∈ q' → pending n' (<[i := t']> ts) ac
}.

Lemma inv_move q P n ts (i : nat) t t' q' P' n' :
  inv S q P n ts → move P n ts i t t' q' P' n' → inv S q' P' n' (<[i := t']> ts).
Proof.
  intros [Hsk Hnd Hcn Hcl Hnw Hacc Hz Hin Hap Hc Hsv Hc1 Hs1 Hac Hw Hcon Hp]
    [Hi Hsk' Hnd' Hcn' Hz' (Hct & Hna & Hst) Hnw' (HP & Hin' & Hap') Hoth Hcp Hsp Hwt Hwt' Hcd Hpd].
  assert (Hserved : ∀ x, served n ts x → served n' (<[i := t']> ts) x).
  { intros x (j & k & new & Hj & Hx). assert (Hne : j ≠ i) by (intros ->; congruence).
    exists j, k, new. rewrite list_lookup_insert_ne by done. split; [done|]. by rewrite (proj2 (Hoth j _ Hne Hj)). }
  split; try done.
  - intros j u c Hj Hu. assert (Hold : ∃ u0, ts !! j = Some u0 ∧ (client_of u0 = Some c ∨ u0 = Accepting c)).
    { at_task Hj; [|by eauto]. exists t. split; [done|]. destruct Hu as [Hu| ->]; [left; congruence|by destruct (Hna c)]. }
    destruct Hold as (u0 & Hj0 & Hu0). destruct (Hcn j u0 c Hj0 Hu0) as (cc & Hcc & <-). by eapply Hcn'.
  - assert (Hold : ∀ j u c, <[i := t']> ts !! j = Some u → client_of u = Some c → ∃ u0, ts !! j = Some u0 ∧ client_of u0 = Some c).
    { intros j u c Hj Hu. at_task Hj; [|by eauto]. exists t. split; [done|congruence]. }
    intros j k u v c Hj Hk Hu Hv. destruct (Hold j u c Hj Hu) as (u0 & ? & ?), (Hold k v c Hk Hv) as (v0 & ? & ?). by eapply Hcl.
  - intros j k u c k2 new Hj Hu Hk.
    assert (Hold : ∃ u0, ts !! j = Some u0 ∧ client_of u0 = Some c) by (at_task Hj; [exists t; split; [done|congruence]|by eauto]).
    destruct Hold as (u0 & Hj0 & Hu0). at_task Hk; [by eapply (proj2 (Hnw' _ _ eq_refl))|by eapply Hnw].
  - intros j k new Hj. at_task Hj; [by eapply Hnw'|]. destruct (Hacc j k new Hj) as (cc & Hcc & <-). by eapply Hcn'.
  - intros j u x Hj Hx. at_task Hj; [by apply Hcp|]. rewrite (proj1 (Hoth j u ltac:(done) Hj)) in Hx. by apply HP, (Hc j u).
  - intros j u x Hj Hx. at_task Hj; [by apply Hsp|]. rewrite (proj2 (Hoth j u ltac:(done) Hj)) in Hx. by apply HP, (Hsv j u).
  - intros j k u v x Hj Hk Hu Hv. at_task Hj; at_task Hk; try done.
    + rewrite (proj1 (Hoth k v ltac:(done) Hk)) in Hv. destruct (Hcp x Hu) as [_ Hno]. by destruct (Hno k v).
    + rewrite (proj1 (Hoth j u ltac:(done) Hj)) in Hu. destruct (Hcp x Hv) as [_ Hno]. by destruct (Hno j u).
    + rewrite (proj1 (Hoth j u ltac:(done) Hj)) in Hu. rewrite (proj1 (Hoth k v ltac:(done) Hk)) in Hv. by eapply (Hc1 j k).
  - intros j k u v x Hj Hk Hu Hv. at_task Hj; at_task Hk; try done.
    + rewrite (proj2 (Hoth k v ltac:(done) Hk)) in Hv. destruct (Hsp x Hu) as [_ Hno]. by destruct (Hno k v).
    + rewrite (proj2 (Hoth j u ltac:(done) Hj)) in Hu. destruct (Hsp x Hv) as [_ Hno]. by destruct (Hno j u).
    + rewrite (proj2 (Hoth j u ltac:(done) Hj)) in Hu. rewrite (proj2 (Hoth k v ltac:(done) Hk)) in Hv. by eapply (Hs1 j k).
  - intros j k c c' ac Hj Hk. at_task Hj; at_task Hk; try done; [..|by eapply Hac].
    + by destruct (proj1 (Hwt _ _ eq_refl) k c').
    + by destruct (proj1 (Hwt _ _ eq_refl) j c).
  - intros j c ac Hj. at_task Hj.
    + destruct (Hwt _ _ eq_refl) as (_ & a & Ha & Hl). exists a. by split.
    + destruct (Hw j c ac Hj) as (a & Ha & Hl). destruct (Hwt' j c ac a ltac:(done) Hj Ha) as [Ha'|[Ha' Hx]].
      * exists a. split; [done|]. intros H0. by apply Hserved, Hl.
      * eexists. split; [exact Ha'|]. intros _. simpl. destruct t'; try done.
        exists i, conn, new. split; [|done]. apply list_lookup_insert_eq. by eapply lookup_lt_Some.
  - intros j c Hj. at_task Hj.
    + destruct (Hcd _ eq_refl) as (x & Hx & Hsd). exists x. split; [done|by apply Hserved].
    + destruct (Hcon j c Hj) as (x & Hx & Hsd). exists x. split; [|by apply Hserved]. pose proof (proj1 (Hoth j (Connected c) ltac:(done) Hj)) as E. simpl in E, Hx |- *. congruence.
Qed.

(** The pairs of a task depend on its connection and its pending connection only. *)
Lemma pairs_same n n' u :
  (∀ c k, (u = Connected c ∨ u = Accepted k c) → n_conns n' !! c = n_conns n !! c) →
  (∀ c ac, u = Waiting c ac → n_accepts n' !! ac = n_accepts n !! ac) →
  client_pair n' u = client_pair n u ∧ server_pair n' u = server_pair n u.
Proof.
  intros Hc Ha. destruct u; simpl; rewrite ?(Hc conn 0) by auto; rewrite ?(Hc new conn) by auto; rewrite ?(Ha _ _ eq_refl); done.
Qed.

Lemma pending_same n n' ts i t t' ac :
  ts !! i = Some t → (∀ c, t ≠ Waiting c ac) → server_pair n t = None →
  n_accepts n' !! ac = n_accepts n !! ac →
  (∀ j u, j ≠ i → ts !! j = Some u → server_pair n' u = server_pair n u) →
  (∀ a, n_accepts n !! ac = Some a → server_pair n' t' ≠ Some (ac_client_pipe a, ac_server_pipe a)) →
  pending n ts ac → pending n' (<[i := t']> ts) ac.
Proof.
  intros Hi Hne Hs Ha Ho Hnew (j & c & a & Hj & Hac & Hno).
  assert (j ≠ i) by (intros ->; rewrite Hj in Hi; simplify_eq; by eapply Hne).
  exists j, c, a. rewrite list_lookup_insert_ne by done. split_and!; [done|congruence|].
  intros k u Hk. at_task Hk; [by apply Hnew|]. rewrite (Ho k u) by done. by apply (Hno k u).
Qed.

(** A push that fails. *)
Lemma inv_refused q P n ts i c s q0 :
  inv S q P n ts → ts !! i = Some (Connecting c) → queue_is q0 q →
  inv S q P (set_socks (<[S := with_queue s q0]> (n_socks n)) n) (<[i := Refused c]> ts).
Proof.
  intros H Hi Hq. assert (Hsame := λ u, pairs_same n (set_socks (<[S := with_queue s q0]> (n_socks n)) n) u ltac:(done) ltac:(done)).
  eapply inv_move; [exact H|]. destruct H as [Hsk Hnd Hcn Hcl Hnw Hacc Hz Hin Hap Hc Hsv Hc1 Hs1 Hac Hw Hcon Hp].
  econstructor; [exact Hi|..]; try done; try (by eauto).
  - eexists. split; [by apply lookup_insert_eq|done].
  - intros ac Hin'. eapply pending_same; try done. by apply Hp.
Qed.

(** A new pair of pipes has nothing in common with those made before. *)
Lemma fresh_pair q P n ts cp sp x : inv S q P n ts → n_pipes n !! cp = None → n_pipes n !! sp = None → x ∈ P → apart (cp, sp) x.
Proof.
  intros H Hcp Hsp Hx. destruct (iv_pipes _ _ _ _ _ H x Hx) as [(r1 & H1 & _) (r2 & H2 & _)].
  repeat split; simpl; intros E; rewrite <- E in *; congruence.
Qed.

Lemma apart_sym x y : apart x y → apart y x.
Proof. unfold apart. naive_solver. Qed.

Lemma made_unused n p junk : n_pipes n !! p = Some (made_pipe junk) → whole junk → unused n p.
Proof. intros E Hj. exists (pipe_create junk). split; [done|]. split; [by apply created_is|done]. Qed.

(** A connection put in the queue. *)
Lemma inv_push q P n ts i c ac cp sp s q0 j1 j2 :
  inv S q P n ts → ts !! i = Some (Connecting c) → new_addrs n ac cp sp →
  queue_is q0 (q ++ [ac]) → whole j1 → whole j2 →
  inv S (q ++ [ac]) ({[(cp, sp)]} ∪ P)
    (Net (n_conns n) (<[S := with_queue s q0]> (n_socks n)) (<[ac := AcceptConn 1 cp sp]> (n_accepts n))
       (<[sp := made_pipe j2]> (<[cp := made_pipe j1]> (n_pipes n))) (n_errno n))
    (<[i := Waiting c ac]> ts).
Proof.
  intros H Hi (Ha & Hcp & Hsp & Hne & Hz) Hq Hj1 Hj2. pose proof (fresh_pair q P n ts cp sp) as Hfresh.
  assert (Hnew : ∀ x, x ∈ P → x ≠ (cp, sp)) by (intros x Hx ->; by destruct (Hfresh _ H Hcp Hsp Hx) as [? _]).
  set (n' := Net _ _ _ _ _).
  assert (Hold : ∀ j u, ts !! j = Some u → client_pair n' u = client_pair n u ∧ server_pair n' u = server_pair n u).
  { intros j u Hj. apply pairs_same; [done|]. intros c' ac' ->. simpl. apply lookup_insert_ne. intros <-.
    destruct (iv_waiting _ _ _ _ _ H j c' ac Hj) as (? & ? & _). congruence. }
  assert (Hfr : ∀ j c', ts !! j ≠ Some (Waiting c' ac)).
  { intros j c' Hj. destruct (iv_waiting _ _ _ _ _ H j c' ac Hj) as (? & ? & _). congruence. }
  assert (Hnq : ac ∉ q) by (intros Hin; destruct (iv_pending _ _ _ _ _ H ac Hin) as (j & c' & ? & Hj & _); by apply (Hfr j c')).
  eapply inv_move; [exact H|]. econstructor; [exact Hi|..]; try done; try (by eauto).
  - eexists. split; [by apply lookup_insert_eq|done].
  - apply NoDup_app. split_and!; [by eapply iv_nodup| |apply NoDup_singleton]. set_solver.
  - exact (iv_null _ _ _ _ _ H).
  - split_and!; [set_solver| |].
    + intros x [->%elem_of_singleton|Hx]%elem_of_union.
      * split; (eapply made_unused; [simpl; by simplify_map_eq|done]).
      * pose proof (Hfresh _ H Hcp Hsp Hx) as (? & ? & ? & ?). destruct (iv_pipes _ _ _ _ _ H x Hx) as [(r1 & Hr1 & ?) (r2 & Hr2 & ?)].
        split; [exists r1|exists r2]; (split; [simpl; by rewrite !lookup_insert_ne|done]).
    + intros x y Hx Hy Hxy. apply elem_of_union in Hx as [->%elem_of_singleton|Hx], Hy as [->%elem_of_singleton|Hy]; try done.
      * by apply Hfresh.
      * by apply apart_sym, Hfresh.
      * by eapply iv_apart.
  - intros x. simpl. rewrite lookup_insert_eq. intros [= <-]. split; [set_solver|]. intros j u _ Hj Hu.
    by destruct (Hnew (cp, sp) (iv_client _ _ _ _ _ H j u _ Hj Hu)).
  - intros c' ac' [= <- <-]. split; [by eauto|]. simpl. rewrite lookup_insert_eq. by eexists.
  - intros j c' ac' a _ Hj Ha'. left. simpl. rewrite lookup_insert_ne; [done|]. intros <-. by apply (Hfr j c').
  - intros ac' [Hin| ->%list_elem_of_singleton]%elem_of_app.
    + apply (pending_same n _ ts i (Connecting c)); try done; [|by eapply iv_pending].
      simpl. apply lookup_insert_ne. by intros <-.
    + exists i, c, (AcceptConn 1 cp sp). simpl. rewrite lookup_insert_eq, list_lookup_insert_eq by (by eapply lookup_lt_Some).
      split_and!; try done. intros j t Hj. at_task Hj; [done|]. rewrite (proj2 (Hold j t Hj)). intros Hx.
      by destruct (Hnew (cp, sp) (iv_server _ _ _ _ _ H j t _ Hj Hx)).
Qed.

(** A client that sees its connection accepted. *)
Lemma inv_finish q P n ts i c ac a cc :
  inv S q P n ts → ts !! i = Some (Waiting c ac) → n_accepts n !! ac = Some a → ac_lock a = 0 → n_conns n !! c = Some cc →
  inv S q P
    (Net (<[c := SocketConn (cn_client cc) (cn_soc cc) (cn_type cc) (cn_protocol cc) (ac_server_pipe a) (ac_client_pipe a)]> (n_conns n))
       (n_socks n) (delete ac (n_accepts n)) (n_pipes n) (n_errno n))
    (<[i := Connected c]> ts).
Proof.
  intros H Hi Ha Hl Hcc. set (n' := Net _ _ _ _ _). set (x := (ac_client_pipe a, ac_server_pipe a)).
  assert (Hcx : client_pair n' (Connected c) = Some x) by (simpl; by rewrite lookup_insert_eq).
  assert (Htx : client_pair n (Waiting c ac) = Some x) by (simpl; by rewrite Ha).
  assert (Hsx : served n ts x) by (destruct (iv_waiting _ _ _ _ _ H i c ac Hi) as (? & ? & Hs); simplify_eq; by apply Hs).
  assert (Hold : ∀ j u, j ≠ i → ts !! j = Some u → client_pair n' u = client_pair n u ∧ server_pair n' u = server_pair n u).
  { intros j u Hj Hu. apply pairs_same.
    - intros c' k Hk. simpl. apply lookup_insert_ne. intros <-. destruct Hk as [-> | ->].
      + by apply Hj; eapply (iv_clients _ _ _ _ _ H j i).
      + by eapply (iv_new _ _ _ _ _ H i j _ c).
    - intros c' ac' ->. simpl. apply lookup_delete_ne. intros <-. by apply Hj; eapply (iv_acs _ _ _ _ _ H j i). }
  eapply inv_move; [exact H|]. econstructor; [exact Hi|..]; try done.
  - exact (iv_sock _ _ _ _ _ H).
  - by eapply iv_nodup.
  - intros c' cc' Hc'. simpl. destruct (decide (c' = c)) as [->|Hne].
    + rewrite lookup_insert_eq. simplify_eq. by eexists.
    + rewrite lookup_insert_ne by done. by eexists.
  - simpl. rewrite lookup_insert_ne; [by eapply iv_null|]. intros ->. pose proof (iv_null _ _ _ _ _ H). congruence.
  - split_and!; [done|exact (iv_pipes _ _ _ _ _ H)|by eapply iv_apart].
  - intros y. rewrite Hcx. intros [= <-]. split; [by eapply iv_client|]. intros j u Hj Hu Hy. apply Hj. by eapply (iv_client1 _ _ _ _ _ H j i).
  - intros j c' ac' a' Hj Hu Ha'. left. simpl. rewrite lookup_delete_ne; [done|]. intros <-. by apply Hj; eapply (iv_acs _ _ _ _ _ H j i).
  - intros c' [= <-]. by exists x.
  - intros ac' Hin. pose proof (iv_pending _ _ _ _ _ H ac' Hin) as Hp. assert (ac' ≠ ac).
    { intros ->. destruct Hp as (? & ? & a' & _ & ? & Hno), Hsx as (j & k & new & Hj & Hx). simplify_eq. by apply (Hno j (Accepted k new)). }
    apply (pending_same n _ ts i (Waiting c ac)); try done; [naive_solver|simpl; by apply lookup_delete_ne|]. intros j u Hj Hu. by apply (Hold j u).
Qed.

(** A server that takes a connection off the queue. *)
Lemma inv_accept ac q P n ts i c new a cc s q0 :
  inv S (ac :: q) P n ts → ts !! i = Some (Accepting c) → n_conns n !! new = None → new ≠ 0 → n_accepts n !! ac = Some a → queue_is q0 q →
  inv S q P
    (Net (<[new := SocketConn (cn_client cc) S (cn_type cc) (cn_protocol cc) (ac_client_pipe a) (ac_server_pipe a)]> (n_conns n))
       (<[S := with_queue s q0]> (n_socks n)) (<[ac := AcceptConn 0 (ac_client_pipe a) (ac_server_pipe a)]> (n_accepts n))
       (n_pipes n) (n_errno n))
    (<[i := Accepted c new]> ts).
Proof.
  intros H Hi Hnew Hn0 Ha Hq. set (n' := Net _ _ _ _ _). set (x := (ac_client_pipe a, ac_server_pipe a)).
  destruct (iv_pending _ _ _ _ _ H ac ltac:(set_solver)) as (w & cw & a' & Hw & Haw & Hno). simplify_eq. fold x in Hno.
  assert (Hwx : client_pair n (Waiting cw ac) = Some x) by (simpl; by rewrite Ha).
  assert (Hsx : server_pair n' (Accepted c new) = Some x) by (simpl; by rewrite lookup_insert_eq).
  assert (Hcl : ∀ j u c', ts !! j = Some u → client_of u = Some c' → c' ≠ new).
  { intros j u c' Hj Hu ->. destruct (iv_conn _ _ _ _ _ H j u new Hj) as (? & ? & _); [by left|congruence]. }
  assert (Hsv : ∀ j u, ts !! j = Some u → server_pair n' u = server_pair n u).
  { intros j [] Hj; try done. simpl. rewrite lookup_insert_ne; [done|]. intros <-. destruct (iv_accepted _ _ _ _ _ H j _ _ Hj) as (? & ? & _). congruence. }
  assert (Hcp : ∀ j u, ts !! j = Some u → client_pair n' u = client_pair n u).
  { intros j [] Hj; try done; simpl.
    - destruct (decide (ac0 = ac)) as [->|]; [by rewrite lookup_insert_eq, Ha|by rewrite lookup_insert_ne].
    - rewrite lookup_insert_ne; [done|]. apply not_eq_sym. by eapply Hcl. }
  pose proof (iv_nodup _ _ _ _ _ H) as [Hni Hnd]%NoDup_cons.
  eapply inv_move; [exact H|]. econstructor; [exact Hi|..]; try done.
  - eexists. split; [by apply lookup_insert_eq|done].
  - intros c' cc' Hc'. exists cc'. simpl. by rewrite lookup_insert_ne by congruence.
  - simpl. rewrite lookup_insert_ne by done. by eapply iv_null.
  - intros k new' [= <- <-]. split; [|done]. simpl. rewrite lookup_insert_eq. by eexists.
  - split_and!; [done|exact (iv_pipes _ _ _ _ _ H)|by eapply iv_apart].
  - intros j u _ Hj. by rewrite (Hcp j u), (Hsv j u).
  - intros y. rewrite Hsx. intros [= <-]. split; [by eapply iv_client|]. intros j u _ Hj. by apply (Hno j u).
  - intros j c' ac' a0 _ Hj Ha0. simpl. destruct (decide (ac' = ac)) as [->|]; [|left; by rewrite lookup_insert_ne].
    right. rewrite lookup_insert_eq. by simplify_eq.
  - intros ac' Hin. assert (ac' ≠ ac) by congruence. pose proof (iv_pending _ _ _ _ _ H ac' ltac:(set_solver)) as Hp.
    apply (pending_same n _ ts i (Accepting c)); try done; [simpl; by apply lookup_insert_ne|naive_solver|].
    intros a0 Ha0. rewrite Hsx. destruct Hp as (w' & cw' & _ & Hw' & _). intros [= E1 E2].
    assert (w = w'); [|congruence]. eapply (iv_client1 _ _ _ _ _ H w w' _ _ x Hw Hw' Hwx). simpl. rewrite Ha0. simpl. by rewrite <- E1, <- E2.
Qed.

End preserve.

Lemma inv_step S q P n ts n' ts' : inv S q P n ts → step (n, ts) (n', ts') → ∃ q' P', inv S q' P' n' ts'.
Proof.
  intros H Hs. destruct (iv_sock _ _ _ _ _ H) as (s & Hsk & Hq). inversion Hs as [? ? i c|? ? i c|? ? i c|? ? i c]; simplify_eq.
  - destruct (iv_conn _ _ _ _ _ H i _ c ltac:(done)) as (cc & Hcc & Hsc); [by left|].
    edestruct (push_ok n S c cc s q) as [(q0 & E & Hq0)|E]; try done; rewrite E in *; simplify_eq.
    do 2 eexists. by eapply inv_push.
  - destruct (iv_conn _ _ _ _ _ H i _ c ltac:(done)) as (cc & Hcc & Hsc); [by left|].
    edestruct (push_ok n S c cc s q) as [(q0 & E & Hq0)|E]; try done; rewrite E in *; simplify_eq.
    do 2 eexists. by eapply inv_refused.
  - edestruct finish_ok as (a & cc & Ha & Hl & Hcc & ->); [done|]. do 2 eexists. by eapply inv_finish.
  - destruct (iv_conn _ _ _ _ _ H i _ c ltac:(done)) as (cc & Hcc & Hsc); [by right|].
    edestruct (accept_ok n S c cc s q) as (ac & l & a & q0 & -> & Ha & Hq0 & ->); try done.
    do 2 eexists. by eapply inv_accept.
Qed.

(** ** Sending and receiving *)

Lemma need_socket_run {A} n c cc (bad : A) f : c ≠ 0 → n_conns n !! c = Some cc → cn_soc cc ≠ 0 → need_socket (Some c) bad f n = f c n.
Proof.
  intros H0 Hc Hs. unfold need_socket, on_conn. destruct (Z.eqb_spec c 0); [done|]. rewrite (bind_ok _ _ _ _ _ (run_load_conn n c cc Hc)).
  by destruct (Z.eqb_spec (cn_soc cc) 0).
Qed.

Lemma send_run n c cc r fl bs :
  c ≠ 0 → n_conns n !! c = Some cc → cn_soc cc ≠ 0 → n_pipes n !! cn_send_pipe cc = Some (r, fl) →
  rb_is r [] → rb_cursize r = 0 → nonblock r = false → virtual_end r + Z.of_nat (length bs) ≤ USHRT_MAX →
  ∃ r', sock_send (Some c) bs n = Ok (Z.of_nat (length bs), set_pipes (<[cn_send_pipe cc := (r', fl)]> (n_pipes n)) n) ∧
    rb_is r' bs ∧ rb_cursize r' = released false bs 0 0 0.
Proof.
  intros H0 Hc Hs Hp Hr Hcur Hnb Hfit. destruct (pipe_write_run r [] bs 0 Hr Hcur Hnb eq_refl Hfit) as (r' & Hw & Hr' & Hc').
  exists r'. split; [|done]. unfold sock_send. erewrite need_socket_run by done. unfold unix_socket_send.
  rewrite (bind_ok _ _ _ _ _ (run_load_conn n c cc Hc)). destruct (Z.eqb_spec (cn_soc cc) 0); [done|].
  unfold load_ring. rewrite Hp. cbn [fmap option_fmap option_map fst]. rewrite Hw. simpl. unfold pipe_errno. simpl. unfold set_pipes. do 3 f_equal.
  apply map_eq. intros k. destruct (decide (k = cn_send_pipe cc)) as [->|].
  - by rewrite lookup_alter_eq, lookup_insert_eq, Hp.
  - by rewrite lookup_alter_ne, lookup_insert_ne.
Qed.

Lemma recv_run n c cc r fl q size :
  c ≠ 0 → n_conns n !! c = Some cc → cn_soc cc ≠ 0 → n_pipes n !! cn_recv_pipe cc = Some (r, fl) →
  rb_is r q → Z.of_nat (length q) ≤ size < 2147483648 →
  if rb_cursize r =? 0 then sock_recv (Some c) size n = Hang
  else ∃ n', sock_recv (Some c) size n = Ok (rb_cursize r, take (Z.to_nat (rb_cursize r)) q, n').
Proof.
  intros H0 Hc Hs Hp Hr Hsz. pose proof (pipe_read_run r q size 0 Hr ltac:(lia) eq_refl) as Hrd. rewrite Z.min_l in Hrd by (pose proof (ri_cursize _ _ Hr); lia). unfold sock_recv. erewrite need_socket_run by done.
  unfold unix_socket_recv. rewrite (bind_ok _ _ _ _ _ (run_load_conn n c cc Hc)). destruct (Z.eqb_spec (cn_soc cc) 0); [done|].
  unfold load_ring. rewrite Hp. cbn [fmap option_fmap option_map fst]. destruct (rb_cursize r =? 0); [by rewrite Hrd|].
  destruct Hrd as (r' & -> & _). by eexists.
Qed.

(** What one end sends the other receives: all of it when it is a line, and nothing, the
    reader waiting, when no newline is in it. *)
Definition carries (n : net) (from to : Z) : Prop :=
  ∀ bs size, Z.of_nat (length bs) ≤ Z.min size USHRT_MAX → size < 2147483648 →
    ∃ n1, sock_send (Some from) bs n = Ok (Z.of_nat (length bs), n1) ∧
      (last bs = Some NEWLINE → ∃ n2, sock_recv (Some to) size n1 = Ok (Z.of_nat (length bs), bs, n2)) ∧
      (NEWLINE ∉ bs → sock_recv (Some to) size n1 = Hang).

Lemma crossed_carries n c d cc cd :
  c ≠ 0 → d ≠ 0 → n_conns n !! c = Some cc → n_conns n !! d = Some cd → cn_soc cc ≠ 0 → cn_soc cd ≠ 0 →
  cn_send_pipe cc = cn_recv_pipe cd → unused n (cn_send_pipe cc) → carries n c d.
Proof.
  intros Hc0 Hd0 Hc Hd Hsc Hsd Hx (r & Hp & Hr & Hcur & Hnb & He) bs size Hlen Hsz.
  destruct (send_run n c cc r _ bs Hc0 Hc Hsc Hp Hr Hcur Hnb ltac:(lia)) as (r' & Hs & Hr' & Hc').
  eexists. split; [exact Hs|]. set (n1 := set_pipes _ n).
  assert (Hrd := recv_run n1 d cd r' O_NONBLOCK bs size Hd0 Hd Hsd ltac:(rewrite <- Hx; simpl; apply lookup_insert_eq) Hr' ltac:(lia)).
  rewrite Hc' in Hrd. split.
  - intros [l ->]%last_Some. rewrite released_line, length_app in *. simpl in *. destruct (Z.eqb_spec (0 + 0 + Z.of_nat (length l) + 1) 0); [lia|].
    destruct Hrd as (n2 & Hrd). exists n2. rewrite Hrd, take_ge by (rewrite length_app; simpl; lia). do 3 f_equal. lia.
  - intros Hn. by rewrite released_none in Hrd.
Qed.

(** ** Theorems *)

(** Servers and clients before anybody has connected: every connection is bound to the
    listening socket [S], and each client has one of its own. *)
Record starts (S : Z) (n : net) (ts : list thread) : Prop := Starts {
  st_sock : ∃ s, n_socks n !! S = Some s ∧ queue_is (so_queue s) [];
  st_addr : S ≠ 0;
  st_null : n_conns n !! 0 = None;
  st_task : ∀ i t, ts !! i = Some t → ∃ c cc, (t = Connecting c ∨ t = Accepting c) ∧ n_conns n !! c = Some cc ∧ cn_soc cc = S;
  st_one : ∀ i j c, ts !! i = Some (Connecting c) → ts !! j = Some (Connecting c) → i = j
}.

Lemma starts_inv S n ts : starts S n ts → inv S [] ∅ n ts.
Proof.
  intros [Hs _ Hz Ht H1].
  assert (Hno : ∀ i t x, ts !! i = Some t → client_pair n t ≠ Some x ∧ server_pair n t ≠ Some x).
  { intros i t x Hi. by destruct (Ht i t Hi) as (? & _ & [-> | ->] & _). }
  assert (Hbad : ∀ i t, ts !! i = Some t → match t with Connecting _ | Accepting _ => True | _ => False end).
  { intros i t Hi. by destruct (Ht i t Hi) as (? & _ & [-> | ->] & _). }
  split; [exact Hs|constructor|..].
  - intros i t c Hi Hc. destruct (Ht i t Hi) as (c' & cc & [-> | ->] & ? & ?); destruct Hc; simplify_eq/=; by eexists.
  - intros i j t u c Hi Hj Hti Huj. pose proof (Hbad i t Hi). pose proof (Hbad j u Hj). destruct t, u; simplify_eq/=; try done. by eapply H1.
  - intros i j t c k new _ _ Hj. by destruct (Hbad j _ Hj).
  - intros i k new Hi. by destruct (Hbad i _ Hi).
  - done.
  - set_solver.
  - set_solver.
  - intros i t x Hi Hx. by destruct (proj1 (Hno i t x Hi)).
  - intros i t x Hi Hx. by destruct (proj2 (Hno i t x Hi)).
  - intros i j t u x Hi _ Hx. by destruct (proj1 (Hno i t x Hi)).
  - intros i j t u x Hi _ Hx. by destruct (proj2 (Hno i t x Hi)).
  - intros i j c c' ac Hi. by destruct (Hbad i _ Hi).
  - intros i c ac Hi. by destruct (Hbad i _ Hi).
  - intros i c Hi. by destruct (Hbad i _ Hi).
  - intros ac Hin. by apply not_elem_of_nil in Hin.
Qed.

Lemma inv_reachable S n0 ts0 n ts : starts S n0 ts0 → rtc step (n0, ts0) (n, ts) → ∃ q P, inv S q P n ts.
Proof.
  intros H0 Hr. remember (n0, ts0) as s0 eqn:E0. remember (n, ts) as s eqn:E.
  assert (Hi : ∃ q P, inv S q P s0.1 s0.2) by (exists [], ∅; subst s0; by apply starts_inv).
  replace n with s.1 by by subst. replace ts with s.2 by by subst. clear E0 E H0 n ts n0 ts0.
  induction Hr as [|[n ts] [n' ts'] s Hs _ IH]; [done|]. destruct Hi as (q & P & Hi). apply IH. by eapply inv_step.
Qed.


Definition demo_net : net :=
  Net {[10 := SocketConn 0 5 1 0 0 0; 20 := SocketConn 1 5 1 0 0 0]}
    {[5 := Socket 0 1 1 4 (queue_create (-1) (replicate 128 0))]} ∅ ∅ 0.

Definition demo_junk : list Z := replicate (Z.to_nat USHRT_MAX) 0.

Lemma demo_starts : starts 5 demo_net [Accepting 10; Connecting 20].
Proof.
  split; [|done|done|..].
  - eexists. split; [reflexivity|by split].
  - intros [|[|i]] t Hi; simplify_eq/=; [exists 10|exists 20]; eexists; (split_and!; [auto|reflexivity|done]).
  - intros [|[|i]] [|[|j]] c Hi Hj; by simplify_eq/=.
Qed.

Lemma demo_run : ∃ n, rtc step (demo_net, [Accepting 10; Connecting 20]) (n, [Accepted 10 30; Connected 20]).
Proof.
  eexists. eapply rtc_l.
  { eapply (step_push _ _ 1 20 40 50 60 demo_junk demo_junk); try reflexivity; [by split_and!|..]; unfold whole, demo_junk; by rewrite length_replicate. }
  eapply rtc_l; [by eapply (step_accept _ _ 0 10 30); try reflexivity|].
  eapply rtc_l; [by eapply (step_finish _ _ 1 20 40); try reflexivity|]. apply rtc_refl.
Qed.

