(* ===== verification/Sched.v ===== *)
(** * Scheduling and tasks (kernel/proc/sched.c, kernel/proc/tasking.c)

    Tasks live in the store [sc_tasks] at their addresses, with 0 for NULL, and
    are linked through [t_next] into the ready, sleep and blocked lists.  Each
    list also has a cursor, [l_next], where the round robin goes on.  The stack
    and register switch of arch_task_switch is outside the model: [switch_task]
    ends when the next task is the running one.  The threads vector and the
    stack heap of a task, which no function of this file reads, are left out of
    the record; [kmalloc], [vector_copy], [strdup] and the new directory appear
    as the addresses they return. *)
From S2P Require Import Prelude.

Record task := Task {
  t_directory : Z;
  t_program_start : Z;
  t_program_break : Z;
  t_name : Z;
  t_cwd : Z;
  t_pid : Z;
  t_parent : Z;
  t_childamount : Z;
  t_uid : Z;
  t_euid : Z;
  t_umask : Z;
  t_gid : Z;
  t_egid : Z;
  t_ring : Z;
  t_fds : Z;
  t_lastsignal : Z;
  t_tty : Z;
  t_sighandlers : list (Z * Z);
  t_state : Z;
  t_timeslice : Z;
  t_timeused : Z;
  t_sliceused : Z;
  t_priority : Z;
  t_next : Z
}.

Definition zero_task : task := Task 0 0 0 0 0 0 0 0 0 0 0 0 0 0 0 0 0 [] 0 0 0 0 0 0.

Record task_list := TaskList { l_head : Z; l_next : Z }.

Record sched := Sched {
  sc_tasks : gmap Z task;
  ready_list : task_list;
  sleep_list : task_list;
  blocked_list : task_list;
  scheduler_locks : Z;
  interrupts : bool;
  g_runningtask : Z;
  current_dir : Z;
  PIDS : Z;
  sc_errno : Z
}.

(** Which list a function works on. *)
Inductive which := Ready | Sleep | Blocked.

Definition list_of (w : which) (s : sched) : task_list :=
  match w with Ready => ready_list s | Sleep => sleep_list s | Blocked => blocked_list s end.

Definition TASK_RUNNING : Z := 1.
Definition TASK_ZOMBIE : Z := 2.
Definition ECHILD : Z := 10.
Definition SIGINT : Z := 2.

(** ** Field access *)

Definition with_tasks (m : gmap Z task) (s : sched) : sched :=
  Sched m (ready_list s) (sleep_list s) (blocked_list s) (scheduler_locks s) (interrupts s)
    (g_runningtask s) (current_dir s) (PIDS s) (sc_errno s).

Definition with_list (w : which) (l : task_list) (s : sched) : sched :=
  match w with
  | Ready => Sched (sc_tasks s) l (sleep_list s) (blocked_list s) (scheduler_locks s)
               (interrupts s) (g_runningtask s) (current_dir s) (PIDS s) (sc_errno s)
  | Sleep => Sched (sc_tasks s) (ready_list s) l (blocked_list s) (scheduler_locks s)
               (interrupts s) (g_runningtask s) (current_dir s) (PIDS s) (sc_errno s)
  | Blocked => Sched (sc_tasks s) (ready_list s) (sleep_list s) l (scheduler_locks s)
                 (interrupts s) (g_runningtask s) (current_dir s) (PIDS s) (sc_errno s)
  end.

Definition with_locks (n : Z) (i : bool) (s : sched) : sched :=
  Sched (sc_tasks s) (ready_list s) (sleep_list s) (blocked_list s) n i
    (g_runningtask s) (current_dir s) (PIDS s) (sc_errno s).

Definition with_running (r d : Z) (s : sched) : sched :=
  Sched (sc_tasks s) (ready_list s) (sleep_list s) (blocked_list s) (scheduler_locks s)
    (interrupts s) r d (PIDS s) (sc_errno s).

Definition with_pids (n : Z) (s : sched) : sched :=
  Sched (sc_tasks s) (ready_list s) (sleep_list s) (blocked_list s) (scheduler_locks s)
    (interrupts s) (g_runningtask s) (current_dir s) n (sc_errno s).

Definition sc_set_errno (e : Z) : M sched unit :=
  modify (λ s, Sched (sc_tasks s) (ready_list s) (sleep_list s) (blocked_list s)
    (scheduler_locks s) (interrupts s) (g_runningtask s) (current_dir s) (PIDS s) e).

Definition load_task (p : Z) : M sched task :=
  m ← get sc_tasks; if p =? 0 then fault else of_option (m !! p).

Definition store_task (p : Z) (t : task) : M sched unit :=
  _ ← load_task p; modify (λ s, with_tasks (<[p := t]> (sc_tasks s)) s).

Definition with_next (t : task) (v : Z) : task :=
  Task (t_directory t) (t_program_start t) (t_program_break t) (t_name t) (t_cwd t) (t_pid t)
    (t_parent t) (t_childamount t) (t_uid t) (t_euid t) (t_umask t) (t_gid t) (t_egid t) (t_ring t) (t_fds t) (t_lastsignal t)
    (t_tty t) (t_sighandlers t) (t_state t) (t_timeslice t) (t_timeused t) (t_sliceused t) (t_priority t) v.

Definition with_state (t : task) (v : Z) : task :=
  Task (t_directory t) (t_program_start t) (t_program_break t) (t_name t) (t_cwd t) (t_pid t)
    (t_parent t) (t_childamount t) (t_uid t) (t_euid t) (t_umask t) (t_gid t) (t_egid t) (t_ring t) (t_fds t) (t_lastsignal t)
    (t_tty t) (t_sighandlers t) v (t_timeslice t) (t_timeused t) (t_sliceused t) (t_priority t) (t_next t).

Definition with_childamount (t : task) (v : Z) : task :=
  Task (t_directory t) (t_program_start t) (t_program_break t) (t_name t) (t_cwd t) (t_pid t)
    (t_parent t) v (t_uid t) (t_euid t) (t_umask t) (t_gid t) (t_egid t) (t_ring t) (t_fds t) (t_lastsignal t)
    (t_tty t) (t_sighandlers t) (t_state t) (t_timeslice t) (t_timeused t) (t_sliceused t) (t_priority t) (t_next t).

Definition with_sliceused (t : task) (v : Z) : task :=
  Task (t_directory t) (t_program_start t) (t_program_break t) (t_name t) (t_cwd t) (t_pid t)
    (t_parent t) (t_childamount t) (t_uid t) (t_euid t) (t_umask t) (t_gid t) (t_egid t) (t_ring t) (t_fds t) (t_lastsignal t)
    (t_tty t) (t_sighandlers t) (t_state t) (t_timeslice t) (t_timeused t) v (t_priority t) (t_next t).

Definition set_task_next (p v : Z) : M sched unit :=
  t ← load_task p; store_task p (with_next t v).

(** Enough iterations for a list of distinct tasks. *)
Definition task_fuel (s : sched) : nat := S (S (size (sc_tasks s))).

(** ** sched.c *)

Definition get_current_task : M sched Z := get g_runningtask.

Definition getpid : M sched Z :=
  r ← get g_runningtask; t ← load_task r; mret (t_pid t).

Definition set_list (w : which) (task : Z) : M sched unit :=
  modify (with_list w (TaskList task task)).

Definition add_to_list (w : which) (task : Z) : M sched unit :=
  l ← get (list_of w);
  _ ← set_task_next task 0;
  if l_head l =? 0 then set_list w task
  else
    fuel ← get task_fuel;
    last ← loop fuel (λ tmp,
      t ← load_task tmp;
      if t_next t =? 0 then mret (inr tmp) else mret (inl (t_next t))) (l_head l);
    set_task_next last task.

Definition remove_from_list (w : which) (task : Z) : M sched Z :=
  l ← get (list_of w);
  if l_head l =? 0 then mret (-1)
  else
    fuel ← get task_fuel;
    loop fuel (λ '(tmp, prev),
      if tmp =? 0 then mret (inr (-1))
      else
        t ← load_task tmp;
        if tmp =? task then
          _ ← (if prev =? 0 then set_list w (t_next t) else set_task_next prev (t_next t));
          mret (inr 0)
        else mret (inl (t_next t, tmp))) (l_head l, 0).

Definition get_next_from_list (w : which) : M sched Z :=
  l ← get (list_of w);
  if negb (l_next l =? 0) then
    t ← load_task (l_next l);
    _ ← modify (with_list w (TaskList (l_head l) (t_next t)));
    mret (l_next l)
  else
    t ← load_task (l_head l);
    _ ← modify (with_list w (TaskList (l_head l) (t_next t)));
    mret (l_head l).

Definition get_next_task : M sched Z := get_next_from_list Ready.

Definition remove_from_ready_list (task : Z) : M sched Z := remove_from_list Ready task.

Definition find_task_in_list_by_pid (w : which) (pid : Z) : M sched Z :=
  l ← get (list_of w);
  fuel ← get task_fuel;
  loop fuel (λ tmp,
    if tmp =? 0 then mret (inr 0)
    else
      t ← load_task tmp;
      if t_pid t =? pid then mret (inr tmp) else mret (inl (t_next t))) (l_head l).

Definition find_task_by_pid (pid : Z) : M sched Z :=
  r ← find_task_in_list_by_pid Ready pid;
  if negb (r =? 0) then mret r
  else
    r ← find_task_in_list_by_pid Sleep pid;
    if negb (r =? 0) then mret r else find_task_in_list_by_pid Blocked pid.

Definition add_task_to_queue (new_task : Z) : M sched unit := add_to_list Ready new_task.

Definition switch_task (next : Z) : M sched unit :=
  previous ← get g_runningtask;
  if previous =? next then mret tt
  else if next =? 0 then mret tt
  else
    t ← load_task next;
    _ ← store_task next (with_sliceused t 0);
    modify (with_running next (t_directory t)).

Definition lock_scheduler : M sched unit :=
  modify (λ s, with_locks (u32 (scheduler_locks s + 1)) false s).

Definition unlock_scheduler : M sched unit :=
  modify (λ s, let n := u32 (scheduler_locks s - 1) in
               with_locks n (if n =? 0 then true else interrupts s) s).

Definition schedule : M sched unit :=
  _ ← lock_scheduler;
  next ← get_next_task;
  _ ← (if next =? 0 then mret tt else switch_task next);
  unlock_scheduler.

Definition init_scheduler (mainloop : Z) : M sched Z :=
  _ ← set_list Ready mainloop;
  _ ← set_list Sleep 0;
  _ ← set_list Blocked 0;
  _ ← modify (λ s, with_running mainloop (current_dir s) s);
  mret 0.

Definition task_block (pid : Z) : M sched Z :=
  _ ← lock_scheduler;
  task ← find_task_in_list_by_pid Ready pid;
  if task =? 0 then mret (-1)
  else
    r ← remove_from_list Ready task;
    if r =? -1 then mret (-1)
    else
      _ ← add_to_list Blocked task;
      _ ← unlock_scheduler;
      _ ← schedule;
      mret 0.

Definition task_resume (pid : Z) : M sched Z :=
  _ ← lock_scheduler;
  task ← find_task_in_list_by_pid Blocked pid;
  if task =? 0 then mret (-1)
  else
    r ← remove_from_list Blocked task;
    if r =? -1 then mret (-1)
    else
      _ ← add_to_list Ready task;
      _ ← unlock_scheduler;
      mret 0.

Definition task_count_list (w : which) : M sched Z :=
  l ← get (list_of w);
  fuel ← get task_fuel;
  loop fuel (λ '(tmp, cnt),
    if tmp =? 0 then mret (inr cnt)
    else t ← load_task tmp; mret (inl (t_next t, s32 (cnt + 1)))) (l_head l, 0).

Definition task_count_all : M sched Z :=
  a ← task_count_list Ready;
  b ← task_count_list Blocked;
  c ← task_count_list Sleep;
  mret (s32 (a + b + c)).

(** ** tasking.c *)

Definition with_sighandlers (t : task) (hs : list (Z * Z)) : task :=
  Task (t_directory t) (t_program_start t) (t_program_break t) (t_name t) (t_cwd t) (t_pid t)
    (t_parent t) (t_childamount t) (t_uid t) (t_euid t) (t_umask t) (t_gid t) (t_egid t) (t_ring t) (t_fds t) (t_lastsignal t)
    (t_tty t) hs (t_state t) (t_timeslice t) (t_timeused t) (t_sliceused t) (t_priority t) (t_next t).

Definition signal (sig handler : Z) : M sched Z :=
  r ← get g_runningtask;
  t ← load_task r;
  _ ← store_task r (with_sighandlers t (t_sighandlers t ++ [(sig, handler)]));
  mret handler.

(** The first handler registered for [sig]; the iterator is back at 0 on both
    ways out. *)
Fixpoint findsighandler (hs : list (Z * Z)) (sig : Z) : Z :=
  match hs with
  | [] => 0
  | (s, h) :: hs' => if s =? sig then h else findsighandler hs' sig
  end.

Definition kill_proc (task : Z) : M sched unit :=
  t ← load_task task;
  _ ← store_task task (with_state t TASK_ZOMBIE);
  _ ← (if t_parent t =? 0 then mret tt
       else
         parent ← find_task_by_pid (t_parent t);
         p ← load_task parent;
         _ ← store_task parent (with_childamount p (s32 (t_childamount p - 1)));
         _ ← task_resume (t_parent t);
         mret tt);
  _ ← remove_from_ready_list task;
  cur ← get_current_task;
  if cur =? task then next ← get_next_task; switch_task next else mret tt.

(** What [send_task_signal] does: nothing, call a handler, or kill. *)
Inductive sig_effect := SigIgnored | SigHandler (h : Z) | SigKilled.

Definition send_task_signal (task sig : Z) : M sched sig_effect :=
  if task =? 0 then mret SigIgnored
  else if sig =? SIGINT then
    t ← load_task task;
    let h := findsighandler (t_sighandlers t) sig in
    if negb (h =? 0) then mret (SigHandler h)
    else _ ← kill_proc task; mret SigKilled
  else mret SigIgnored.

Definition send_sig (sig : Z) : M sched sig_effect :=
  c ← get_current_task; send_task_signal c sig.

Definition send_pid_sig (pid sig : Z) : M sched sig_effect :=
  t ← find_task_by_pid pid; send_task_signal t sig.

(** The fields [create_task] sets in a copy of the parent; [fds] and [cwd] are
    the copies made for the child. *)
Definition create_task (new_task : Z) (kernel_task : bool) (dir fds cwd : Z) : M sched unit :=
  cur ← get_current_task;
  curtask ← load_task cur;
  pid ← get PIDS;
  _ ← modify (with_pids (s32 (pid + 1)));
  t ← load_task new_task;
  _ ← store_task new_task
        (Task dir (t_program_start t) (t_program_break t) (t_name curtask) cwd pid (t_pid curtask)
           (t_childamount t) (t_uid curtask) (t_euid t) (t_umask t) (t_gid curtask) (t_egid t)
           (if kernel_task then 0 else 3) fds (t_lastsignal t) (t_tty curtask) (t_sighandlers curtask)
           TASK_RUNNING 100 (t_timeused t) (t_sliceused t) (t_priority curtask) (t_next t));
  p ← load_task cur;
  store_task cur (with_childamount p (s32 (t_childamount p + 1))).

Definition with_directory (t : task) (v : Z) : task :=
  Task v (t_program_start t) (t_program_break t) (t_name t) (t_cwd t) (t_pid t)
    (t_parent t) (t_childamount t) (t_uid t) (t_euid t) (t_umask t) (t_gid t) (t_egid t) (t_ring t) (t_fds t) (t_lastsignal t)
    (t_tty t) (t_sighandlers t) (t_state t) (t_timeslice t) (t_timeused t) (t_sliceused t) (t_priority t) (t_next t).

(** [fork] as the parent sees it: [addr] is the block [kmalloc] returned for the
    child, [newdir] the directory [arch_spawn_task] makes for it. *)
Definition fork (addr fds cwd newdir : Z) : M sched Z :=
  _ ← modify (λ s, with_locks (scheduler_locks s) false s);
  parent ← get_current_task;
  p ← load_task parent;
  _ ← (if addr =? 0 then fault else modify (λ s, with_tasks (<[addr := p]> (sc_tasks s)) s));
  _ ← create_task addr (t_ring p =? 0) 0 fds cwd;
  _ ← add_task_to_queue addr;
  c ← load_task addr;
  _ ← store_task addr (with_directory c newdir);
  _ ← modify (λ s, with_locks (scheduler_locks s) true s);
  n ← load_task addr;
  mret (t_pid n).

Definition init_tasking (addr fds dir name cwd : Z) : M sched Z :=
  pid ← get PIDS;
  _ ← modify (with_pids (s32 (pid + 1)));
  _ ← modify (λ s, with_tasks (<[addr :=
        Task dir 0 0 name cwd pid 0 0 0 0 0 0 0 0 fds 0 0 [] 0 100 0 0 0 0]> (sc_tasks s)) s);
  _ ← init_scheduler addr;
  mret 0.

Definition task_wait : M sched Z :=
  cur ← get_current_task;
  t ← load_task cur;
  if negb (t_childamount t =? 0) then
    pid ← getpid;
    _ ← task_block pid;
    mret 0
  else
    _ ← sc_set_errno ECHILD;
    mret (-1).

Definition get_proccount : M sched Z := n ← task_count_all; mret (u32 n).

Definition task_euid : M sched Z := c ← get_current_task; t ← load_task c; mret (t_euid t).
Definition task_egid : M sched Z := c ← get_current_task; t ← load_task c; mret (t_egid t).

(** ** Lists of tasks

    [tchain m p l]: from [p], the [t_next] links of [m] visit exactly [l] and
    end in NULL. *)
Fixpoint tchain (m : gmap Z task) (p : Z) (l : list Z) : Prop :=
  match l with
  | [] => p = 0
  | x :: l' => p = x ∧ x ≠ 0 ∧ ∃ t, m !! x = Some t ∧ tchain m (t_next t) l'
  end.

(** The list [w] holds the tasks [l], each once. *)
Definition list_at (w : which) (s : sched) (l : list Z) : Prop :=
  tchain (sc_tasks s) (l_head (list_of w s)) l ∧ NoDup l.

Lemma tchain_in m p l x : tchain m p l → x ∈ l → x ≠ 0 ∧ ∃ t, m !! x = Some t.
Proof.
  revert p. induction l as [|y l IH]; intros p Hc Hx; [by apply not_elem_of_nil in Hx|].
  destruct Hc as (_ & Hy & t & Ht & Hc). apply elem_of_cons in Hx as [->|Hx]; [by eauto|].
  by eapply IH.
Qed.

Lemma tchain_zero m l : tchain m 0 l → l = [].
Proof. destruct l; [done|]. simpl. naive_solver. Qed.

Lemma tchain_nonzero m x l : x ≠ 0 → tchain m x l → ∃ l', l = x :: l'.
Proof. destruct l as [|y l]; simpl; naive_solver. Qed.

Lemma tchain_app m p a b :
  tchain m p (a ++ b) ↔ ∃ q, tchain m q b ∧
    (∀ m', (∀ x, x ∈ a → m' !! x = m !! x) → ∀ c, tchain m' q c → tchain m' p (a ++ c)).
Proof.
  revert p. induction a as [|x a IH]; intros p; simpl.
  - split; [intros H; exists p; naive_solver|]. intros (q & Hq & H).
    by apply (H m).
  - split.
    + intros (-> & Hx & t & Ht & Hc). apply IH in Hc as (q & Hq & H).
      exists q. split; [done|]. intros m' Hm' c Hc. do 2 (split; [done|]).
      exists t. rewrite Hm' by set_solver. split; [done|]. apply H; set_solver.
    + intros (q & Hq & H). by apply (H m).
Qed.

(** Stores that keep the links of [l], or touch no task of [l], keep the chain. *)
Lemma tchain_agree m m' p l :
  (∀ x t, x ∈ l → m !! x = Some t → ∃ t', m' !! x = Some t' ∧ t_next t' = t_next t) →
  tchain m p l → tchain m' p l.
Proof.
  revert p. induction l as [|x l IH]; intros p Hm; simpl; [done|].
  intros (-> & Hx & t & Ht & Hc). do 2 (split; [done|]).
  destruct (Hm x t) as (t' & Ht' & Hn); [set_solver|done|].
  exists t'. split; [done|]. rewrite Hn. apply IH; [|done]. intros; apply Hm; set_solver.
Qed.

Lemma tchain_other m p l x t : x ∉ l → tchain m p l → tchain (<[x := t]> m) p l.
Proof.
  intros Hx. apply tchain_agree. intros y t' Hy Ht'. exists t'.
  rewrite lookup_insert_ne; [done|]. intros ->. done.
Qed.

Lemma tchain_same_next m p l x t t' :
  m !! x = Some t → t_next t' = t_next t → tchain m p l → tchain (<[x := t']> m) p l.
Proof.
  intros Ht Hn. apply tchain_agree. intros y u Hy Hu. destruct (decide (x = y)) as [->|Hne].
  - exists t'. rewrite lookup_insert_eq. split; [done|]. congruence.
  - exists u. by rewrite lookup_insert_ne.
Qed.

Lemma tchain_length m p l : tchain m p l → NoDup l → (length l ≤ size m)%nat.
Proof.
  intros Hc Hd. rewrite <- (size_dom (D := gset Z) m), <- (size_list_to_set (C := gset Z) l Hd).
  apply subseteq_size. intros x Hx%elem_of_list_to_set.
  destruct (tchain_in _ _ _ _ Hc Hx) as (_ & t & Ht). by apply elem_of_dom_2 in Ht.
Qed.

(** ** Accesses *)

Lemma load_task_ok p t s : sc_tasks s !! p = Some t → p ≠ 0 → load_task p s = Ok (t, s).
Proof.
  intros Ht Hp. unfold load_task, get, mbind, M_bind. simpl.
  destruct (Z.eqb_spec p 0); [done|]. unfold of_option. by rewrite Ht.
Qed.

Lemma wp_load_task p t Q s :
  sc_tasks s !! p = Some t → p ≠ 0 → Q t s → wp (load_task p) Q s.
Proof. intros Ht Hp HQ. eapply run_wp; [by apply load_task_ok|done]. Qed.

Lemma store_task_ok p t t' s :
  sc_tasks s !! p = Some t → p ≠ 0 →
  store_task p t' s = Ok (tt, with_tasks (<[p := t']> (sc_tasks s)) s).
Proof. intros Ht Hp. unfold store_task. by erewrite bind_ok by by apply load_task_ok. Qed.

Lemma wp_store_task p t t' Q s :
  sc_tasks s !! p = Some t → p ≠ 0 →
  Q tt (with_tasks (<[p := t']> (sc_tasks s)) s) → wp (store_task p t') Q s.
Proof.
  intros Ht Hp HQ. eapply run_wp; [by eapply store_task_ok|done].
Qed.

Lemma set_task_next_ok p t v s :
  sc_tasks s !! p = Some t → p ≠ 0 →
  set_task_next p v s = Ok (tt, with_tasks (<[p := with_next t v]> (sc_tasks s)) s).
Proof.
  intros Ht Hp. unfold set_task_next. erewrite bind_ok by by apply load_task_ok.
  by eapply store_task_ok.
Qed.

Lemma wp_set_task_next p t v Q s :
  sc_tasks s !! p = Some t → p ≠ 0 →
  Q tt (with_tasks (<[p := with_next t v]> (sc_tasks s)) s) → wp (set_task_next p v) Q s.
Proof.
  intros Ht Hp HQ. eapply run_wp; [by eapply set_task_next_ok|done].
Qed.

Lemma list_of_with_tasks w m s : list_of w (with_tasks m s) = list_of w s.
Proof. by destruct w. Qed.

Lemma list_of_with_list w l s : list_of w (with_list w l s) = l.
Proof. by destruct w. Qed.

Lemma list_of_with_list_ne w v l s : w ≠ v → list_of w (with_list v l s) = list_of w s.
Proof. by destruct w, v. Qed.

Lemma tasks_with_list w l s : sc_tasks (with_list w l s) = sc_tasks s.
Proof. by destruct w. Qed.

#[export] Hint Rewrite list_of_with_tasks list_of_with_list tasks_with_list : sched.

(** ** What the list operations change

    [relinked l m m']: [m'] differs from [m] only in the [t_next] of tasks of
    [l]. *)
Definition unlink (t : task) : task := with_next t 0.

Definition relinked (l : list Z) (m m' : gmap Z task) : Prop :=
  (∀ y, y ∉ l → m' !! y = m !! y) ∧ (∀ y, unlink <$> m' !! y = unlink <$> m !! y).

Lemma relinked_refl l m : relinked l m m.
Proof. done. Qed.

Lemma relinked_insert l m x t v :
  m !! x = Some t → x ∈ l → relinked l m (<[x := with_next t v]> m).
Proof.
  intros Ht Hx. split; intros y.
  - intros Hy. rewrite lookup_insert_ne; [done|]. by intros ->.
  - destruct (decide (x = y)) as [->|?]; [by rewrite lookup_insert_eq, Ht|].
    by rewrite lookup_insert_ne.
Qed.

Lemma relinked_trans l m1 m2 m3 : relinked l m1 m2 → relinked l m2 m3 → relinked l m1 m3.
Proof.
  intros [H1 H1'] [H2 H2']. split; intros y; [intros Hy; by rewrite H2, H1|].
  by rewrite H2', H1'.
Qed.

Lemma relinked_weaken l l' m m' : l ⊆ l' → relinked l m m' → relinked l' m m'.
Proof. intros Hl [H1 H2]. split; [|done]. intros y Hy. apply H1. set_solver. Qed.

Lemma relinked_chain l m m' p k :
  relinked l m m' → (∀ x, x ∈ k → x ∉ l) → tchain m p k → tchain m' p k.
Proof.
  intros [H _] Hd. apply tchain_agree. intros x t Hx Ht. exists t.
  by rewrite H by auto.
Qed.

Lemma unlink_inj t t' : unlink t' = unlink t → t' = with_next t (t_next t').
Proof. destruct t, t'. unfold unlink, with_next. simpl. intros [=]. by subst. Qed.

Lemma relinked_lookup l m m' x t :
  relinked l m m' → m !! x = Some t → ∃ n, m' !! x = Some (with_next t n).
Proof.
  intros [_ H] Ht. specialize (H x). rewrite Ht in H. simpl in H.
  destruct (m' !! x) as [t'|] eqn:E; [|done]. simpl in H.
  assert (E' : unlink t' = unlink t) by (by apply Some_inj).
  exists (t_next t'). f_equal. by apply unlink_inj.
Qed.

Lemma relinked_pid l m m' x : relinked l m m' → t_pid <$> m' !! x = t_pid <$> m !! x.
Proof.
  intros [_ H]. specialize (H x).
  destruct (m' !! x) as [t'|], (m !! x) as [t|]; simpl in *; try done.
  apply (Some_inj (unlink t') (unlink t)) in H. f_equal. apply (f_equal t_pid H).
Qed.

(** Rewriting the last link of a chain. *)
Lemma tchain_relink m p a y b v c t :
  tchain m p (a ++ y :: b) → NoDup (a ++ [y]) → m !! y = Some t →
  tchain (<[y := with_next t v]> m) v c →
  tchain (<[y := with_next t v]> m) p (a ++ y :: c).
Proof.
  intros Hc Hd Hy Hv. apply tchain_app in Hc as (q & Hq & H). apply H.
  - intros x Hx. rewrite lookup_insert_ne; [done|]. intros ->.
    apply NoDup_app in Hd as (_ & Hd & _). by apply (Hd x Hx), list_elem_of_singleton.
  - destruct Hq as (-> & Hne & _). do 2 (split; [done|]). exists (with_next t v).
    by rewrite lookup_insert_eq.
Qed.

(** Walking a chain to its last task. *)
Lemma find_last_ok w s a y :
  list_at w s (a ++ [y]) →
  loop (task_fuel s) (λ tmp,
      t ← load_task tmp;
      if t_next t =? 0 then mret (inr tmp) else mret (inl (t_next t))) (l_head (list_of w s)) s
  = Ok (y, s).
Proof.
  intros [Hc Hd].
  pose proof (tchain_length _ _ _ Hc Hd) as Hlen. rewrite length_app in Hlen. simpl in Hlen.
  assert (Hf : (length a < task_fuel s)%nat) by (unfold task_fuel; lia).
  revert Hc Hf. generalize (l_head (list_of w s)) as p, (task_fuel s) as fuel. clear.
  induction a as [|x a IH]; intros p fuel Hc Hf; destruct fuel as [|fuel]; try (simpl in *; lia).
  - destruct Hc as (-> & Hy & t & Ht & Hn). simpl in Hn.
    simpl. unfold mbind at 1, M_bind at 1. erewrite bind_ok by by apply load_task_ok.
    by rewrite Hn.
  - destruct Hc as (-> & Hx & t & Ht & Hn).
    simpl. unfold mbind at 1, M_bind at 1. erewrite bind_ok by by apply load_task_ok.
    assert (t_next t ≠ 0).
    { intros E. rewrite E in Hn. apply tchain_zero in Hn. by destruct a. }
    destruct (Z.eqb_spec (t_next t) 0); [done|]. simpl in *. apply IH; [done|lia].
Qed.

(** [add_to_list] appends. *)
Lemma add_to_list_spec w x t l s :
  list_at w s l → x ∉ l → x ≠ 0 → sc_tasks s !! x = Some t →
  wp (add_to_list w x) (λ _ s', ∃ m',
    relinked (l ++ [x]) (sc_tasks s) m' ∧
    s' = with_list w (if l is [] then TaskList x x else list_of w s) (with_tasks m' s) ∧
    list_at w s' (l ++ [x])) s.
Proof.
  intros Hl Hx Hx0 Ht. unfold add_to_list. do 2 wp_step. wp_step.
  eapply wp_set_task_next; [done..|]. set (m1 := <[x := with_next t 0]> (sc_tasks s)).
  assert (Hr : relinked (l ++ [x]) (sc_tasks s) m1)
    by (apply relinked_insert; [done|set_solver]).
  assert (Hl1 : list_at w (with_tasks m1 s) l).
  { destruct Hl as [Hc Hd]. split; [|done]. rewrite list_of_with_tasks. by apply tchain_other. }
  assert (Hone : tchain m1 x [x]).
  { do 2 (split; [done|]). exists (with_next t 0). unfold m1. by rewrite lookup_insert_eq. }
  destruct l as [|y l' _] using rev_ind.
  - destruct Hl as [Hc _]. simpl in Hc. rewrite Hc. simpl. apply wp_modify. exists m1.
    split; [done|]. split; [done|]. split; [|apply NoDup_singleton].
    by rewrite list_of_with_list, tasks_with_list.
  - assert (Hh : l_head (list_of w s) ≠ 0).
    { destruct Hl as [Hc _]. intros E. rewrite E in Hc. apply tchain_zero in Hc. by destruct l'. }
    destruct (Z.eqb_spec (l_head (list_of w s)) 0); [done|]. do 2 wp_step. wp_step.
    eapply run_wp; [rewrite <- (list_of_with_tasks w m1 s); by eapply find_last_ok|].
    destruct Hl1 as [Hc1 Hd]. rewrite list_of_with_tasks in Hc1. simpl in Hc1.
    destruct (tchain_in m1 _ _ y Hc1 ltac:(set_solver)) as (Hy0 & ty & Hty).
    eapply wp_set_task_next; [done..|]. simpl.
    exists (<[y := with_next ty x]> m1).
    assert (Hxy : x ≠ y) by set_solver.
    replace (with_tasks (<[y:=with_next ty x]> m1) (with_tasks m1 s))
      with (with_tasks (<[y:=with_next ty x]> m1) s) by done.
    split; [eapply relinked_trans; [done|]; apply relinked_insert; [done|set_solver]|].
    split; [destruct l', w, s; done|]. split.
    + rewrite list_of_with_tasks, <- app_assoc. simpl. eapply tchain_relink; [done..|].
      apply tchain_other; [set_solver|done].
    + apply NoDup_app. split; [done|]. split; [set_solver|apply NoDup_singleton].
Qed.

(** ** [remove_from_list] *)

Definition unlink_body (w : which) (task : Z) : Z * Z → M sched (Z * Z + Z) :=
  λ '(tmp, prev),
    if tmp =? 0 then mret (inr (-1))
    else
      t ← load_task tmp;
      if tmp =? task then
        _ ← (if prev =? 0 then set_list w (t_next t) else set_task_next prev (t_next t));
        mret (inr 0)
      else mret (inl (t_next t, tmp)).

Lemma unlink_body_miss w task tmp prev t s :
  sc_tasks s !! tmp = Some t → tmp ≠ 0 → tmp ≠ task →
  unlink_body w task (tmp, prev) s = Ok (inl (t_next t, tmp), s).
Proof.
  intros Ht H0 Hne. unfold unlink_body. destruct (Z.eqb_spec tmp 0); [done|].
  erewrite bind_ok by by apply load_task_ok. by destruct (Z.eqb_spec tmp task).
Qed.

Lemma unlink_walk w task a p prev q fuel s :
  tchain (sc_tasks s) p (a ++ q) → task ∉ a →
  ∃ p', tchain (sc_tasks s) p' q ∧
    loop (length a + fuel) (unlink_body w task) (p, prev) s
    = loop fuel (unlink_body w task) (p', default prev (last a)) s.
Proof.
  revert p prev. induction a as [|x a IH]; intros p prev Hc Hn; [by exists p|].
  destruct Hc as (-> & Hx & t & Ht & Hc).
  destruct (IH (t_next t) x) as (p' & Hp' & E); [done|set_solver|].
  exists p'. split; [done|]. simpl.
  erewrite bind_ok by (apply unlink_body_miss; [done..|set_solver]). simpl.
  rewrite E, last_cons. by destruct (last a).
Qed.

Lemma remove_from_list_absent w x l s :
  list_at w s l → x ∉ l → remove_from_list w x s = Ok (-1, s).
Proof.
  intros [Hc Hd] Hx. unfold remove_from_list. erewrite bind_ok by reflexivity.
  destruct (Z.eqb_spec (l_head (list_of w s)) 0); [done|].
  erewrite bind_ok by reflexivity. fold (unlink_body w x).
  pose proof (tchain_length _ _ _ Hc Hd) as Hlen.
  unfold task_fuel. replace (S (S (size (sc_tasks s))))
    with (length l + S (S (size (sc_tasks s)) - length l))%nat by lia.
  rewrite <- (app_nil_r l) in Hc.
  destruct (unlink_walk w x l _ 0 [] (S (S (size (sc_tasks s)) - length l)) s Hc Hx)
    as (p' & -> & ->). done.
Qed.

Lemma remove_from_list_present w x a b s :
  list_at w s (a ++ x :: b) →
  wp (remove_from_list w x) (λ r s', r = 0 ∧ ∃ m',
    relinked a (sc_tasks s) m' ∧
    s' = with_list w (if a is [] then TaskList (hd 0 b) (hd 0 b) else list_of w s)
           (with_tasks m' s) ∧
    list_at w s' (a ++ b)) s.
Proof.
  intros [Hc Hd]. unfold remove_from_list. do 2 wp_step.
  assert (Hh : l_head (list_of w s) ≠ 0).
  { intros E. rewrite E in Hc. apply tchain_zero in Hc. by destruct a. }
  destruct (Z.eqb_spec (l_head (list_of w s)) 0); [done|]. do 2 wp_step. fold (unlink_body w x).
  pose proof (tchain_length _ _ _ Hc Hd) as Hlen. rewrite length_app in Hlen. simpl in Hlen.
  unfold task_fuel. replace (S (S (size (sc_tasks s))))
    with (length a + S (S (size (sc_tasks s)) - length a))%nat by lia.
  assert (Hdx : x ∉ a) by (apply NoDup_app in Hd as (_ & Hd & _); intros H; apply (Hd x H); set_solver).
  destruct (unlink_walk w x a _ 0 (x :: b) (S (S (size (sc_tasks s)) - length a)) s Hc Hdx)
    as (p' & Hp' & E).
  unfold wp. rewrite E. destruct Hp' as (-> & Hx & t & Ht & Hb). simpl.
  unfold unlink_body at 1. destruct (Z.eqb_spec x 0); [done|].
  assert (Hdab : NoDup (a ++ b)).
  { apply NoDup_app in Hd as (Ha & Hab & Hb'). apply NoDup_cons in Hb' as [_ Hb'].
    apply NoDup_app. split; [done|]. split; [set_solver|done]. }
  assert (Hhd : t_next t = hd 0 b) by (destruct b; simpl in Hb; naive_solver).
  destruct a as [|y a' _] using rev_ind.
  - erewrite bind_ok. 2: { erewrite bind_ok by by apply load_task_ok. by rewrite Z.eqb_refl. }
    simpl. split; [done|]. exists (sc_tasks s). rewrite <- Hhd. destruct w, s; by split_and!.
  - destruct (tchain_in _ _ _ y Hc ltac:(set_solver)) as (Hy0 & ty & Hty).
    rewrite last_snoc. simpl.
    erewrite bind_ok. 2: { erewrite bind_ok by by apply load_task_ok. rewrite Z.eqb_refl.
      rewrite (proj2 (Z.eqb_neq y 0)) by done.
      erewrite bind_ok by (by apply (set_task_next_ok y ty)). reflexivity. }
    simpl. split; [done|]. exists (<[y := with_next ty (t_next t)]> (sc_tasks s)).
    split; [apply relinked_insert; [done|set_solver]|].
    split; [destruct a', w, s; done|]. split; [|done].
    rewrite list_of_with_tasks, <- app_assoc. rewrite <- app_assoc in Hc, Hdab. simpl.
    eapply tchain_relink; [done|by apply NoDup_app in Hd as [? _]|done|].
    apply tchain_other; [|done]. intros Hy.
    rewrite <- app_assoc in Hd. apply NoDup_app in Hd as (_ & _ & Hd).
    apply NoDup_cons in Hd as [Hd _]. set_solver.
Qed.

(** ** Searching by pid *)

Fixpoint first_pid (m : gmap Z task) (l : list Z) (pid : Z) : Z :=
  match l with
  | [] => 0
  | x :: l' => if decide (t_pid <$> m !! x = Some pid) then x else first_pid m l' pid
  end.

Lemma find_task_in_list_by_pid_ok w pid l s :
  list_at w s l → find_task_in_list_by_pid w pid s = Ok (first_pid (sc_tasks s) l pid, s).
Proof.
  intros [Hc Hd]. unfold find_task_in_list_by_pid. do 2 erewrite bind_ok by reflexivity.
  pose proof (tchain_length _ _ _ Hc Hd) as Hlen.
  assert (Hf : (length l < task_fuel s)%nat) by (unfold task_fuel; lia).
  revert Hc Hf. generalize (l_head (list_of w s)) as p, (task_fuel s) as fuel. clear.
  induction l as [|x l IH]; intros p fuel Hc Hf; destruct fuel as [|fuel]; try (simpl in *; lia).
  - simpl in Hc. by subst p.
  - destruct Hc as (-> & Hx & t & Ht & Hc). simpl. unfold mbind at 1, M_bind at 1.
    destruct (Z.eqb_spec x 0); [done|]. erewrite bind_ok by by apply load_task_ok.
    rewrite Ht. simpl. destruct (Z.eqb_spec (t_pid t) pid), (decide (Some (t_pid t) = Some pid));
      try (exfalso; congruence); [done|]. simpl in *. apply IH; [done|lia].
Qed.

Lemma first_pid_split m l pid x :
  first_pid m l pid = x → x ≠ 0 → ∃ a b, l = a ++ x :: b ∧ t_pid <$> m !! x = Some pid.
Proof.
  induction l as [|y l IH]; simpl; [by intros <-|]. destruct (decide _) as [Hy|Hy].
  - intros <- _. by exists [], l.
  - intros Hx Hx0. destruct (IH Hx Hx0) as (a & b & -> & Hp). by exists (y :: a), b.
Qed.

Lemma first_pid_none m l pid :
  (∀ x, x ∈ l → t_pid <$> m !! x ≠ Some pid) → first_pid m l pid = 0.
Proof.
  induction l as [|x l IH]; simpl; intros H; [done|].
  rewrite decide_False by (apply H; set_solver). apply IH. intros; apply H; set_solver.
Qed.

Lemma first_pid_unique m a x b pid :
  t_pid <$> m !! x = Some pid → (∀ y, y ∈ a → t_pid <$> m !! y ≠ Some pid) →
  first_pid m (a ++ x :: b) pid = x.
Proof.
  intros Hx. induction a as [|y a IH]; simpl; intros H; [by rewrite decide_True|].
  rewrite decide_False by (apply H; set_solver). apply IH. intros; apply H; set_solver.
Qed.

(** ** Round robin

    [cursor s b]: the tasks still to run in this round are [b]. *)
Definition cursor (s : sched) (b : list Z) : Prop :=
  tchain (sc_tasks s) (l_next (ready_list s)) b.

Lemma cursor_hd s b : cursor s b → l_next (ready_list s) = hd 0 b.
Proof. unfold cursor. destruct b; simpl; naive_solver. Qed.

Definition pending (l b : list Z) : list Z := if b is [] then l else b.

Lemma get_next_task_ok l b x c s :
  list_at Ready s l → cursor s b → pending l b = x :: c →
  get_next_task s = Ok (x, with_list Ready (TaskList (l_head (ready_list s)) (hd 0 c)) s).
Proof.
  intros [Hl _] Hb Hp. unfold get_next_task, get_next_from_list. erewrite bind_ok by reflexivity.
  simpl in Hl. unfold cursor in Hb. simpl. destruct b as [|y b]; simpl in Hp, Hb; subst.
  - rewrite Hb. simpl. destruct Hl as (E & Hx & t & Ht & Hc). rewrite E.
    erewrite bind_ok by by apply load_task_ok.
    replace (t_next t) with (hd 0 c); [done|]. destruct c; simpl in Hc; naive_solver.
  - injection Hp as -> ->. destruct Hb as (E & Hx & t & Ht & Hc). rewrite E.
    destruct (Z.eqb_spec x 0); [done|]. simpl. erewrite bind_ok by by apply load_task_ok.
    replace (t_next t) with (hd 0 c); [done|]. destruct c; simpl in Hc; naive_solver.
Qed.

Lemma tchain_tail m p x c : tchain m p (x :: c) → tchain m (hd 0 c) c.
Proof. intros (_ & _ & t & _ & Hc). destruct c; simpl in *; naive_solver. Qed.

Lemma pending_chain l b x c s :
  list_at Ready s l → cursor s b → pending l b = x :: c →
  x ≠ 0 ∧ (∃ t, sc_tasks s !! x = Some t) ∧ tchain (sc_tasks s) (hd 0 c) c.
Proof.
  intros [Hl _] Hb Hp. destruct b as [|y b]; simpl in Hp; subst.
  - split; [apply Hl|]. split; [destruct Hl as (_ & _ & t & Ht & _); eauto|].
    by eapply tchain_tail.
  - injection Hp as -> ->. split; [apply Hb|].
    split; [destruct Hb as (_ & _ & t & Ht & _); eauto|]. by eapply tchain_tail.
Qed.

(** Two states with the same chains and pids. *)
Definition same_chains (s s' : sched) : Prop :=
  (∀ p k, tchain (sc_tasks s) p k → tchain (sc_tasks s') p k) ∧
  (∀ x, t_pid <$> sc_tasks s' !! x = t_pid <$> sc_tasks s !! x) ∧ PIDS s' = PIDS s.

Lemma same_chains_refl s : same_chains s s.
Proof. by split_and!. Qed.

Lemma same_chains_pids s s' :
  same_chains s s' → (∀ x t, sc_tasks s !! x = Some t → t_pid t < PIDS s) →
  ∀ x t, sc_tasks s' !! x = Some t → t_pid t < PIDS s'.
Proof.
  intros (_ & H & ->) Hs x t Ht. specialize (H x). rewrite Ht in H. simpl in H.
  destruct (sc_tasks s !! x) as [t0|] eqn:E; [|done]. injection H as ->. by eapply Hs.
Qed.

Lemma switch_task_ok x t s :
  x ≠ 0 → sc_tasks s !! x = Some t →
  wp (switch_task x) (λ _ s', same_chains s s' ∧ g_runningtask s' = x ∧
    (∀ w, list_of w s' = list_of w s) ∧ scheduler_locks s' = scheduler_locks s ∧
    interrupts s' = interrupts s) s.
Proof.
  intros Hx Ht. unfold switch_task. do 2 wp_step. destruct (Z.eqb_spec (g_runningtask s) x).
  { wp_step. split_and!; try done. }
  destruct (Z.eqb_spec x 0); [done|]. wp_step. eapply wp_load_task; [done..|].
  wp_step. eapply wp_store_task; [done..|]. wp_step. split_and!; try done.
  split_and!; [intros p k; by eapply tchain_same_next| |done].
  intros y. simpl. destruct (decide (x = y)) as [->|?]; [by rewrite lookup_insert_eq, Ht|].
  by rewrite lookup_insert_ne.
Qed.

Lemma u32_lock n : 0 ≤ n < 4294967296 → u32 (u32 (n + 1) - 1) = n.
Proof.
  intros Hn. unfold u32. rewrite Zminus_mod_idemp_l. replace (n + 1 - 1) with n by lia.
  by apply Z.mod_small.
Qed.

Lemma schedule_ok l b x c s :
  list_at Ready s l → cursor s b → pending l b = x :: c →
  0 ≤ scheduler_locks s < 4294967296 →
  wp schedule (λ _ s', g_runningtask s' = x ∧ cursor s' c ∧ same_chains s s' ∧
    l_head (ready_list s') = l_head (ready_list s) ∧
    (∀ w, w ≠ Ready → list_of w s' = list_of w s) ∧
    scheduler_locks s' = scheduler_locks s ∧
    interrupts s' = (scheduler_locks s =? 0)) s.
Proof.
  intros Hl Hb Hp Hlk. destruct (pending_chain _ _ _ _ _ Hl Hb Hp) as (Hx & (t & Ht) & Hc).
  unfold schedule, lock_scheduler. do 2 wp_step. wp_step.
  eapply run_wp; [by eapply get_next_task_ok|].
  destruct (Z.eqb_spec x 0); [done|]. wp_step.
  eapply wp_mono; [by eapply switch_task_ok|].
  intros _ s1 (Hch & Hr & Hls & Hlocks & Hint). unfold unlock_scheduler. wp_step.
  simpl in Hlocks, Hint. rewrite Hlocks, u32_lock by done. simpl.
  pose proof (Hls Ready) as HR. simpl in HR. split_and!; try done.
  - unfold cursor. simpl. rewrite HR. simpl. by apply Hch.
  - by rewrite HR.
  - intros w Hw. destruct w; [done|apply (Hls Sleep)|apply (Hls Blocked)].
  - rewrite Hint. by destruct (scheduler_locks s =? 0).
Qed.

(** [n] ticks of the scheduler and the tasks that ran. *)
Fixpoint run_schedule (n : nat) : M sched (list Z) :=
  match n with
  | O => mret []
  | S n => _ ← schedule; r ← get_current_task; rs ← run_schedule n; mret (r :: rs)
  end.

Lemma run_schedule_pending l c : ∀ b d s,
  list_at Ready s l → cursor s b → c ≠ [] → pending l b = c ++ d →
  0 ≤ scheduler_locks s < 4294967296 →
  wp (run_schedule (length c)) (λ rs s', rs = c ∧ cursor s' d ∧ list_at Ready s' l ∧
    scheduler_locks s' = scheduler_locks s) s.
Proof.
  induction c as [|x c IH]; intros b d s Hl Hb Hc Hp Hlk; [done|]. simpl.
  wp_step. eapply wp_mono; [by eapply (schedule_ok l b x (c ++ d))|].
  intros _ s1 (Hr & Hcur & Hch & Hh & _ & Hlocks & _).
  assert (Hl1 : list_at Ready s1 l).
  { destruct Hl as [Hl Hd]. split; [|done]. apply Hch in Hl. simpl in *. by rewrite Hh. }
  unfold get_current_task. do 2 wp_step. rewrite Hr.
  destruct c as [|y c]; simpl in Hcur.
  - simpl. do 3 wp_step. by split_and!.
  - wp_step. eapply wp_mono; [apply (IH (y :: c ++ d) d); try done; by rewrite Hlocks|].
    intros rs s2 (-> & Hcur2 & Hl2 & Hlk2). wp_step. by rewrite Hlk2, Hlocks.
Qed.

(** C7: The scheduler is fair.  When the ready list is [a ++ b] and the round has
    [b] left, the next [length (a ++ b)] runs of [schedule] return and run the
    tasks of [b] and then those of [a], each exactly once in list order; the ready
    list and the scheduler lock are unchanged. *)
Theorem schedule_round_robin (a b : list Z) (s : sched)
    (Hl : list_at Ready s (a ++ b)) (Hb : cursor s b)
    (Hlk : 0 ≤ scheduler_locks s < 4294967296) :
  ∃ s', run_schedule (length b + length a) s = Ok (b ++ a, s') ∧
    list_at Ready s' (a ++ b) ∧ scheduler_locks s' = scheduler_locks s.
Proof.
  assert (Happ : ∀ n k s0, run_schedule (n + k) s0 =
    (r1 ← run_schedule n; r2 ← run_schedule k; mret (r1 ++ r2)) s0).
  { clear. induction n as [|n IH]; intros k s0; simpl.
    - unfold mbind, M_bind. simpl. by destruct (run_schedule k s0) as [[]| |].
    - unfold mbind, M_bind. destruct (schedule s0) as [[[] s1]| |]; [|done..]. simpl.
      rewrite IH. unfold mbind, M_bind. destruct (run_schedule n s1) as [[r1 s2]| |]; [|done..].
      simpl. by destruct (run_schedule k s2) as [[r2 s3]| |]. }
  assert (H1 : wp (run_schedule (length b)) (λ rs s', rs = b ∧ cursor s' [] ∧
    list_at Ready s' (a ++ b) ∧ scheduler_locks s' = scheduler_locks s) s).
  { destruct b as [|x b]; [by apply wp_ret|].
    eapply (run_schedule_pending _ (x :: b) (x :: b)); try done. simpl. by rewrite app_nil_r. }
  apply wp_run in H1 as (? & s1 & E1 & -> & Hc1 & Hl1 & Hk1).
  assert (H2 : wp (run_schedule (length a)) (λ rs s', rs = a ∧
    list_at Ready s' (a ++ b) ∧ scheduler_locks s' = scheduler_locks s) s1).
  { destruct a as [|x a]; [by apply wp_ret|].
    eapply wp_mono; [eapply (run_schedule_pending _ (x :: a) [] b); try done; by rewrite Hk1|].
    simpl. intros rs s2 (? & _ & ? & ?). by rewrite <- Hk1. }
  apply wp_run in H2 as (? & s2 & E2 & -> & Hl2 & Hk2).
  exists s2. rewrite Happ. erewrite bind_ok by done. by erewrite bind_ok by done.
Qed.

Definition demo_task (pid next : Z) : task :=
  Task 0 0 0 0 0 pid 0 0 0 0 0 0 0 0 0 0 0 [] TASK_RUNNING 100 0 0 0 next.

(** Ready: 16 and 32 and 48; blocked: 64; the round is at 32. *)
Definition demo_sched : sched :=
  Sched {[ 16 := demo_task 1 32; 32 := demo_task 2 48; 48 := demo_task 3 0; 64 := demo_task 4 0 ]}
    (TaskList 16 32) (TaskList 0 0) (TaskList 64 64) 0 true 16 0 5 0.

Lemma demo_ready : list_at Ready demo_sched [16; 32; 48].
Proof.
  split; [|by apply (bool_decide_unpack _); vm_compute].
  simpl. split_and!; try done. eexists. split; [by vm_compute|]. simpl.
  split_and!; try done. eexists. split; [by vm_compute|]. simpl.
  split_and!; try done. eexists. split; [by vm_compute|]. done.
Qed.

Lemma demo_cursor : cursor demo_sched [32; 48].
Proof.
  unfold cursor. simpl. split_and!; try done. eexists. split; [by vm_compute|]. simpl.
  split_and!; try done. eexists. split; [by vm_compute|]. done.
Qed.

Lemma schedule_round_robin_witness :
  ∃ s', run_schedule 3 demo_sched = Ok ([32; 48; 16], s') ∧
    list_at Ready s' [16; 32; 48] ∧ scheduler_locks s' = 0.
Proof.
  apply (schedule_round_robin [16] [32; 48] demo_sched demo_ready demo_cursor).
  simpl. lia.
Defined.

(** ** Moving a task between two lists *)

Lemma move_task_ok w v a x b l s :
  w ≠ v → list_at w s (a ++ x :: b) → list_at v s l → (∀ y, y ∈ l → y ∉ a ++ x :: b) →
  wp (remove_from_list w x) (λ r s1, r = 0 ∧
    wp (add_to_list v x) (λ _ s2, ∃ m',
      relinked (a ++ l ++ [x]) (sc_tasks s) m' ∧
      s2 = with_list v (if l is [] then TaskList x x else list_of v s)
             (with_list w (if a is [] then TaskList (hd 0 b) (hd 0 b) else list_of w s)
                (with_tasks m' s)) ∧
      list_at w s2 (a ++ b) ∧ list_at v s2 (l ++ [x])) s1) s.
Proof.
  intros Hwv Hw Hv Hdis. eapply wp_mono; [by apply remove_from_list_present|].
  intros r s1 (-> & m1 & Hr1 & -> & Hw1). split; [done|].
  destruct (tchain_in _ _ _ x (proj1 Hw)) as (Hx & t & Ht); [set_solver|].
  destruct (relinked_lookup _ _ _ _ _ Hr1 Ht) as (n & Ht1).
  set (L1 := if a is [] then _ else _) in *.
  set (s1 := with_list w L1 (with_tasks m1 s)) in *.
  assert (Hm1 : sc_tasks s1 = m1) by (unfold s1; by rewrite tasks_with_list).
  assert (Hlv : list_of v s1 = list_of v s)
    by (unfold s1; rewrite list_of_with_list_ne by done; apply list_of_with_tasks).
  assert (Hv1 : list_at v s1 l).
  { destruct Hv as [Hv Hd]. split; [|done]. rewrite Hm1, Hlv.
    eapply relinked_chain; [done| |done]. intros y Hy. specialize (Hdis y Hy). set_solver. }
  assert (Hxl : x ∉ l) by (intros H; apply (Hdis x H); set_solver).
  eapply wp_mono; [eapply add_to_list_spec; [done|done|done|by rewrite Hm1]|].
  intros _ s2 (m2 & Hr2 & -> & Hv2). exists m2. rewrite Hm1 in Hr2.
  split.
  { eapply relinked_trans; (eapply relinked_weaken; [|done]); set_solver. }
  assert (Hs2 : with_tasks m2 s1 = with_list w L1 (with_tasks m2 s)) by by destruct w.
  rewrite Hs2, Hlv in *. split; [done|]. split; [|done].
  destruct Hw1 as [Hw1 Hd1]. split; [|done]. rewrite Hm1 in Hw1.
  rewrite !tasks_with_list, list_of_with_list_ne, list_of_with_list by done.
  unfold s1 in Hw1. rewrite list_of_with_list in Hw1.
  eapply relinked_chain; [done| |done].
  destruct Hw as [_ Hd]. apply NoDup_app in Hd as (_ & Hd & Hd'). apply NoDup_cons in Hd' as [Hd' _].
  intros y Hy Hyl. apply elem_of_app in Hyl as [Hyl|Hyl].
  - specialize (Hdis y Hyl). set_solver.
  - apply list_elem_of_singleton in Hyl as ->. apply elem_of_app in Hy as [Hy|Hy]; [|done].
    apply (Hd x Hy). set_solver.
Qed.

(** ** The state of the scheduler

    [sched_ok s R S B]: the ready, sleep and blocked lists hold [R], [S] and [B],
    no task is on two of them or twice on one, and the round goes on at a ready
    task (or at the head). *)
Record sched_ok (s : sched) (R S B : list Z) : Prop := SchedOk {
  ok_ready : tchain (sc_tasks s) (l_head (ready_list s)) R;
  ok_sleep : tchain (sc_tasks s) (l_head (sleep_list s)) S;
  ok_blocked : tchain (sc_tasks s) (l_head (blocked_list s)) B;
  ok_nodup : NoDup (R ++ S ++ B);
  ok_cursor : l_next (ready_list s) ∈ 0 :: R;
  ok_locks : 0 ≤ scheduler_locks s < 4294967296;
  ok_pids : ∀ x t, sc_tasks s !! x = Some t → t_pid t < PIDS s
}.

Lemma ok_list_ready s R S B : sched_ok s R S B → list_at Ready s R.
Proof. intros H. split; [apply H|]. by apply ok_nodup, NoDup_app in H as [? _]. Qed.

Lemma ok_list_blocked s R S B : sched_ok s R S B → list_at Blocked s B.
Proof.
  intros H. split; [apply H|]. apply ok_nodup in H. apply NoDup_app in H as (_ & _ & H).
  by apply NoDup_app in H as (_ & _ & H).
Qed.

(** A cursor on a task of the list has the rest of the list to run. *)
Lemma cursor_in l s :
  list_at Ready s l → l_next (ready_list s) ∈ 0 :: l →
  ∃ b, cursor s b ∧ ∀ x c, pending l b = x :: c → x ∈ l ∧ hd 0 c ∈ 0 :: l.
Proof.
  intros [Hl _] [E|Hin]%elem_of_cons.
  - exists []. split; [done|]. simpl. intros x c ->. destruct c; set_solver.
  - apply list_elem_of_split in Hin as (u & v & E).
    rewrite E in Hl. apply tchain_app in Hl as (q & Hq & _).
    exists (l_next (ready_list s) :: v). split.
    + unfold cursor. destruct Hq as (-> & Hq). by split.
    + simpl. intros x c [= <- <-]. rewrite E. destruct v; set_solver.
Qed.

Lemma relinked_pids l m m' n :
  relinked l m m' → (∀ x t, m !! x = Some t → t_pid t < n) →
  ∀ x t, m' !! x = Some t → t_pid t < n.
Proof.
  intros Hr H x t Ht. pose proof (relinked_pid _ _ _ x Hr) as E. rewrite Ht in E. simpl in E.
  destruct (m !! x) as [t0|] eqn:E0; [|done]. simpl in E. injection E as ->. by eapply H.
Qed.

Lemma nodup_disjoint {A} (k l : list A) x : NoDup (k ++ l) → x ∈ k → x ∉ l.
Proof. intros (_ & H & _)%NoDup_app. apply H. Qed.

Lemma with_locks_ok n i s R S B :
  sched_ok s R S B → 0 ≤ n < 4294967296 → sched_ok (with_locks n i s) R S B.
Proof. intros [] Hn. by constructor. Qed.

(** [task_resume] of a blocked task returns 0, moves the task from the blocked
    list to the end of the ready list, keeps the running task, the sleep list, the lock
    count and (unless nothing was ready) the position of the round robin as they
    were, and preserves the scheduler's invariant. *)
Theorem task_resume_correct (R S a b : list Z) (x pid : Z) (s : sched)
    (Hok : sched_ok s R S (a ++ x :: b))
    (Hpid : first_pid (sc_tasks s) (a ++ x :: b) pid = x) :
  ∃ s', task_resume pid s = Ok (0, s') ∧ sched_ok s' (R ++ [x]) S (a ++ b) ∧
    scheduler_locks s' = scheduler_locks s ∧ g_runningtask s' = g_runningtask s ∧
    (R ≠ [] → l_next (ready_list s') = l_next (ready_list s)).
Proof.
  enough (H : wp (task_resume pid) (λ r s', r = 0 ∧ sched_ok s' (R ++ [x]) S (a ++ b) ∧
    scheduler_locks s' = scheduler_locks s ∧ g_runningtask s' = g_runningtask s ∧
    (R ≠ [] → l_next (ready_list s') = l_next (ready_list s))) s).
  { apply wp_run in H as (? & s' & E & -> & H). eauto. }
  unfold task_resume, lock_scheduler. do 2 wp_step.
  set (s1 := with_locks _ _ s). set (n := u32 (scheduler_locks s + 1)) in s1.
  assert (Hok1 : sched_ok s1 R S (a ++ x :: b)) by (apply with_locks_ok; [done|apply u32_range]).
  wp_step. eapply run_wp; [by eapply find_task_in_list_by_pid_ok, ok_list_blocked|].
  change (sc_tasks s1) with (sc_tasks s). rewrite Hpid.
  destruct (tchain_in _ _ _ x (ok_blocked _ _ _ _ Hok)) as (Hx & t & Ht); [set_solver|].
  destruct (Z.eqb_spec x 0); [done|]. wp_step.
  pose proof (ok_nodup _ _ _ _ Hok) as Hnd. rewrite app_assoc in Hnd.
  eapply wp_mono; [apply (move_task_ok Blocked Ready a x b R); [done|by eapply ok_list_blocked|
    by eapply ok_list_ready|]|].
  { intros y Hy. eapply nodup_disjoint; [done|set_solver]. }
  intros r s2 [-> Hadd]. simpl. wp_step. eapply wp_mono; [exact Hadd|].
  intros _ s3 (m' & Hr & -> & [Hb3 Hbd] & [Hr3 Hrd]). unfold unlock_scheduler. do 2 wp_step.
  assert (Hn : u32 (n - 1) = scheduler_locks s) by apply u32_lock, Hok.
  split; [done|]. rewrite tasks_with_list in Hb3, Hr3. simpl in Hb3, Hr3.
  split; [constructor; simpl|split_and!; [done|by destruct R..]].
  - done.
  - eapply relinked_chain; [done| |apply Hok]. intros y Hy Hin.
    rewrite <- app_assoc in Hnd. destruct (decide (y ∈ R)) as [HR|HR].
    { apply (nodup_disjoint _ _ _ Hnd HR). set_solver. }
    apply NoDup_app in Hnd as (_ & _ & Hnd).
    apply (nodup_disjoint _ _ _ Hnd Hy). set_solver.
  - done.
  - eapply NoDup_Permutation_proper; [|exact Hnd]. rewrite <- !app_assoc.
    apply Permutation_app_head. simpl. rewrite Permutation_middle.
    apply Permutation_app_head. by rewrite Permutation_middle.
  - pose proof (ok_cursor _ _ _ _ Hok) as Hc. destruct R as [|y R]; [set_solver|].
    simpl. set_solver.
  - rewrite Hn. apply Hok.
  - eapply relinked_pids; [done|apply Hok].
Qed.

(** What blocking the ready task [x] leaves before the next task is chosen. *)
Lemma block_move_ok R S B a b x s :
  R = a ++ x :: b → sched_ok s R S B → (a = [] ∨ l_next (ready_list s) ≠ x) →
  wp (remove_from_list Ready x) (λ r s1, r = 0 ∧
    wp (add_to_list Blocked x) (λ _ s2, sched_ok s2 (a ++ b) S (B ++ [x]) ∧
      scheduler_locks s2 = scheduler_locks s ∧ interrupts s2 = interrupts s) s1) s.
Proof.
  intros -> Hok Hcur. pose proof (ok_nodup _ _ _ _ Hok) as Hnd.
  eapply wp_mono; [apply (move_task_ok Ready Blocked a x b B); [done|by eapply ok_list_ready|
    by eapply ok_list_blocked|]|].
  { intros y Hy Hin. apply (nodup_disjoint _ _ _ Hnd Hin). set_solver. }
  intros r s1 [-> Hadd]. split; [done|]. eapply wp_mono; [exact Hadd|].
  intros _ s2 (m' & Hr & -> & [Hr3 _] & [Hb3 _]). rewrite tasks_with_list in Hb3, Hr3.
  simpl in Hb3, Hr3. split; [|done]. constructor; simpl.
  - done.
  - eapply relinked_chain; [done| |apply Hok]. intros y Hy Hin.
    destruct (decide (y ∈ a ++ x :: b)) as [HR|HR].
    { apply (nodup_disjoint _ _ _ Hnd HR). set_solver. }
    apply NoDup_app in Hnd as (_ & _ & Hnd).
    apply (nodup_disjoint _ _ _ Hnd Hy). set_solver.
  - done.
  - eapply NoDup_Permutation_proper; [|exact Hnd].
    rewrite <- !app_assoc. apply Permutation_app_head. simpl.
    rewrite !app_assoc. by rewrite (Permutation_app_comm _ [x]).
  - pose proof (ok_cursor _ _ _ _ Hok) as Hc. destruct a as [|y a].
    + simpl. destruct b; set_solver.
    + simpl. destruct Hcur as [?|Hcur]; [done|]. set_solver.
  - apply Hok.
  - eapply relinked_pids; [done|apply Hok].
Qed.

(** [task_block] of a ready task [x], when another task is ready and the round
    robin is not about to run [x], returns 0: [x] goes from the ready list to the
    end of the blocked list, another ready task runs, the lock count is what it was
    before, and the scheduler's invariant holds again. *)
Theorem task_block_correct (S B a b : list Z) (x pid : Z) (s : sched)
    (Hok : sched_ok s (a ++ x :: b) S B)
    (Hpid : first_pid (sc_tasks s) (a ++ x :: b) pid = x)
    (Hcur : a = [] ∨ l_next (ready_list s) ≠ x)
    (Hne : a ++ b ≠ []) :
  ∃ s', task_block pid s = Ok (0, s') ∧ sched_ok s' (a ++ b) S (B ++ [x]) ∧
    g_runningtask s' ∈ a ++ b ∧ scheduler_locks s' = scheduler_locks s.
Proof.
  enough (H : wp (task_block pid) (λ r s', r = 0 ∧ sched_ok s' (a ++ b) S (B ++ [x]) ∧
    g_runningtask s' ∈ a ++ b ∧ scheduler_locks s' = scheduler_locks s) s).
  { apply wp_run in H as (? & s' & E & -> & H). eauto. }
  unfold task_block, lock_scheduler. do 2 wp_step.
  set (s1 := with_locks _ _ s). set (n := u32 (scheduler_locks s + 1)) in s1.
  assert (Hok1 : sched_ok s1 (a ++ x :: b) S B) by (apply with_locks_ok; [done|apply u32_range]).
  wp_step. eapply run_wp; [by eapply find_task_in_list_by_pid_ok, ok_list_ready|].
  change (sc_tasks s1) with (sc_tasks s). rewrite Hpid.
  destruct (tchain_in _ _ _ x (ok_ready _ _ _ _ Hok)) as (Hx & t & Ht); [set_solver|].
  destruct (Z.eqb_spec x 0); [done|]. wp_step.
  eapply wp_mono; [by eapply block_move_ok|].
  intros r s2 [-> Hadd]. simpl. wp_step. eapply wp_mono; [exact Hadd|].
  intros _ s3 (Hok3 & Hlk3 & _). unfold unlock_scheduler. do 2 wp_step.
  rewrite Hlk3. change (scheduler_locks s1) with n.
  assert (Hn : u32 (n - 1) = scheduler_locks s) by apply u32_lock, Hok. rewrite Hn.
  set (s4 := with_locks _ _ s3).
  assert (Hok4 : sched_ok s4 (a ++ b) S (B ++ [x])) by (apply with_locks_ok; [done|apply Hok]).
  pose proof (ok_list_ready _ _ _ _ Hok4) as Hl4.
  destruct (cursor_in _ _ Hl4 (ok_cursor _ _ _ _ Hok4)) as (c & Hc & Hpend).
  destruct (pending (a ++ b) c) as [|y d] eqn:Ep.
  { destruct c; simpl in Ep; [by rewrite Ep in Hne|done]. }
  destruct (Hpend y d eq_refl) as [Hy Hd].
  wp_step. eapply wp_mono; [eapply (schedule_ok _ c y d); [done..|apply Hok4]|].
  intros _ s5 (Hrun & Hcur5 & Hch & Hhead & Hls & Hlk & _). wp_step. split; [done|].
  rewrite Hrun, Hlk. split; [|done].
  pose proof (Hls Sleep ltac:(done)) as HS. pose proof (Hls Blocked ltac:(done)) as HB.
  simpl in HS, HB.
  apply cursor_hd in Hcur5 as Hnx.
  constructor; rewrite ?Hhead, ?HS, ?HB, ?Hnx, ?Hlk; try apply Hch; try apply Hok4; try done.
  eapply same_chains_pids; [done|apply Hok4].
Qed.

Lemma demo_ok : sched_ok demo_sched [16; 32; 48] [] [64].
Proof.
  constructor.
  - apply demo_ready.
  - done.
  - simpl. split_and!; try done. eexists. split; [by vm_compute|]. done.
  - by apply (bool_decide_unpack _); vm_compute.
  - simpl. set_solver.
  - simpl. lia.
  - intros x t Hx. simpl in *.
    repeat (apply lookup_insert_Some in Hx as [[<- <-]|[_ Hx]]; [done|]).
    by apply lookup_singleton_Some in Hx as [<- <-].
Qed.

Lemma task_resume_correct_witness :
  ∃ s', task_resume 4 demo_sched = Ok (0, s') ∧ sched_ok s' [16; 32; 48; 64] [] [] ∧
    scheduler_locks s' = 0 ∧ g_runningtask s' = 16 ∧ ([16; 32; 48] ≠ [] → l_next (ready_list s') = 32).
Proof.
  apply (task_resume_correct [16; 32; 48] [] [] [] 64 4 demo_sched demo_ok). reflexivity.
Defined.

Lemma task_block_correct_witness :
  ∃ s', task_block 3 demo_sched = Ok (0, s') ∧ sched_ok s' [16; 32] [] [64; 48] ∧
    g_runningtask s' ∈ [16; 32] ∧ scheduler_locks s' = 0.
Proof.
  apply (task_block_correct [] [64] [16; 32] [] 48 3 demo_sched demo_ok);
    [reflexivity|right; discriminate|discriminate].
Defined.

(** [task_resume] of a task that is not blocked returns -1 with the scheduler
    still locked: the next [schedule] gives back only its own lock, so the count
    stays one higher and interrupts remain off. *)
Theorem task_resume_leaks_lock (R S B : list Z) (pid : Z) (s : sched)
    (Hok : sched_ok s R S B) (Hne : R ≠ [])
    (Hlk : scheduler_locks s + 1 < 4294967296)
    (Hpid : ∀ x, x ∈ B → t_pid <$> sc_tasks s !! x ≠ Some pid) :
  ∃ s1 s2, task_resume pid s = Ok (-1, s1) ∧ schedule s1 = Ok (tt, s2) ∧
    scheduler_locks s2 = scheduler_locks s + 1 ∧ interrupts s2 = false.
Proof.
  pose proof (ok_locks _ _ _ _ Hok) as Hlk0.
  set (s1 := with_locks (u32 (scheduler_locks s + 1)) false s).
  assert (Hok1 : sched_ok s1 R S B) by (apply with_locks_ok; [done|apply u32_range]).
  assert (E : task_resume pid s = Ok (-1, s1)).
  { unfold task_resume. erewrite bind_ok by reflexivity. fold s1.
    erewrite bind_ok by by eapply find_task_in_list_by_pid_ok, ok_list_blocked.
    by rewrite first_pid_none by done. }
  pose proof (ok_list_ready _ _ _ _ Hok1) as Hl1.
  destruct (cursor_in _ _ Hl1 (ok_cursor _ _ _ _ Hok1)) as (c & Hc & _).
  destruct (pending R c) as [|y d] eqn:Ep; [by destruct c|].
  pose proof (schedule_ok _ c y d s1 Hl1 Hc Ep (ok_locks _ _ _ _ Hok1)) as Hs.
  apply wp_run in Hs as ([] & s2 & E2 & _ & _ & _ & _ & _ & Hlk2 & Hi2).
  exists s1, s2. split_and!; [done|done| |].
  - rewrite Hlk2. simpl. apply u32_small. lia.
  - rewrite Hi2. simpl. rewrite u32_small by lia. apply Z.eqb_neq. lia.
Qed.

Lemma task_resume_leaks_lock_witness :
  ∃ s1 s2, task_resume 2 demo_sched = Ok (-1, s1) ∧ schedule s1 = Ok (tt, s2) ∧
    scheduler_locks s2 = 1 ∧ interrupts s2 = false.
Proof.
  apply (task_resume_leaks_lock [16; 32; 48] [] [64] 2 demo_sched demo_ok);
    [discriminate|reflexivity|].
  intros x Hx. apply list_elem_of_singleton in Hx as ->. vm_compute. discriminate.
Defined.

(** A task removed from the ready list can still run.  When the round robin is
    about to run [x] and [x] is not the head, [remove_from_ready_list] takes [x] out
    of the list and leaves the cursor on it, so the next task chosen is [x]. *)
Theorem removed_task_runs (a b : list Z) (x : Z) (s : sched)
    (Hl : list_at Ready s (a ++ x :: b)) (Ha : a ≠ [])
    (Hcur : l_next (ready_list s) = x) :
  ∃ s1 s2, remove_from_ready_list x s = Ok (0, s1) ∧ list_at Ready s1 (a ++ b) ∧
    x ∉ a ++ b ∧ get_next_task s1 = Ok (x, s2).
Proof.
  destruct (tchain_in _ _ _ x (proj1 Hl)) as (Hx & t & Ht); [set_solver|].
  assert (Hxa : x ∉ a ++ b).
  { destruct Hl as [_ Hd]. apply NoDup_app in Hd as (_ & Hd & Hd').
    apply NoDup_cons in Hd' as [Hd' _]. intros [H|H]%elem_of_app; [|done].
    apply (Hd x H). set_solver. }
  pose proof (remove_from_list_present Ready x a b s Hl) as H.
  apply wp_run in H as (? & s1 & E & -> & m' & Hr & Hs1 & Hl1).
  destruct a as [|y a]; [done|].
  assert (Hnext : l_next (ready_list s1) = x) by (by rewrite Hs1).
  assert (Ht1 : sc_tasks s1 !! x = Some t).
  { rewrite Hs1. simpl. rewrite (proj1 Hr); [done|set_solver]. }
  eexists s1, _. split_and!; [exact E|done|done|].
  unfold get_next_task, get_next_from_list. erewrite bind_ok by reflexivity.
  simpl. rewrite Hnext. rewrite (proj2 (Z.eqb_neq x 0)) by done. simpl.
  erewrite bind_ok by by apply load_task_ok. reflexivity.
Qed.

Lemma removed_task_runs_witness :
  ∃ s1 s2, remove_from_ready_list 32 demo_sched = Ok (0, s1) ∧ list_at Ready s1 [16; 48] ∧
    32 ∉ [16; 48] ∧ get_next_task s1 = Ok (32, s2).
Proof.
  apply (removed_task_runs [16] [48] 32 demo_sched demo_ready); [discriminate|reflexivity].
Defined.

(** ** Processes *)

Lemma not_dom_chain m p l x : tchain m p l → m !! x = None → x ∉ l.
Proof. intros Hc Hx Hin. destruct (tchain_in _ _ _ _ Hc Hin) as (_ & t & Ht). congruence. Qed.

(** The child's record as [create_task] leaves it. *)
Definition forked (p : task) (pid dir fds cwd : Z) : task :=
  Task dir (t_program_start p) (t_program_break p) (t_name p) cwd pid (t_pid p) (t_childamount p)
    (t_uid p) (t_euid p) (t_umask p) (t_gid p) (t_egid p) (if t_ring p =? 0 then 0 else 3) fds (t_lastsignal p) (t_tty p)
    (t_sighandlers p) TASK_RUNNING 100 (t_timeused p) (t_sliceused p) (t_priority p) (t_next p).

Lemma create_task_ok addr p fds cwd s :
  let r := g_runningtask s in
  sc_tasks s !! r = Some p → r ≠ 0 → addr ≠ 0 → r ≠ addr → sc_tasks s !! addr = Some p →
  create_task addr (t_ring p =? 0) 0 fds cwd s =
  Ok (tt, with_tasks (<[r := with_childamount p (s32 (t_childamount p + 1))]>
                       (<[addr := forked p (PIDS s) 0 fds cwd]> (sc_tasks s)))
           (with_pids (s32 (PIDS s + 1)) s)).
Proof.
  intros r Hr Hr0 Ha0 Hra Ha. unfold create_task, get_current_task.
  erewrite bind_ok by reflexivity. fold r. erewrite bind_ok by by apply load_task_ok.
  do 2 erewrite bind_ok by reflexivity.
  erewrite bind_ok by by apply load_task_ok.
  erewrite bind_ok by by eapply store_task_ok.
  erewrite bind_ok. 2: { apply load_task_ok; [|done]. simpl. by rewrite lookup_insert_ne. }
  erewrite store_task_ok; [done| |done]. simpl. by rewrite lookup_insert_ne.
Qed.

(** Ways of changing the tasks that keep the invariant. *)
Lemma sched_ok_store s R S B x t t' :
  sched_ok s R S B → sc_tasks s !! x = Some t → t_next t' = t_next t → t_pid t' = t_pid t →
  sched_ok (with_tasks (<[x := t']> (sc_tasks s)) s) R S B.
Proof.
  intros [] Hx Hn Hp. constructor; simpl; try done; try by eapply tchain_same_next.
  intros y u [[<- <-]|[_ Hu]]%lookup_insert_Some; [|by eauto]. rewrite Hp. by eauto.
Qed.

Lemma sched_ok_new s R S B x t :
  sched_ok s R S B → sc_tasks s !! x = None → t_pid t < PIDS s →
  sched_ok (with_tasks (<[x := t]> (sc_tasks s)) s) R S B.
Proof.
  intros [] Hx Hp.
  constructor; simpl; try done; try by (apply tchain_other; [by eapply not_dom_chain|]).
  intros y u [[<- <-]|[_ Hu]]%lookup_insert_Some; by eauto.
Qed.

Lemma sched_ok_more_pids s R S B n :
  sched_ok s R S B → PIDS s ≤ n → sched_ok (with_pids n s) R S B.
Proof.
  intros [] Hn. constructor; simpl; try done. intros x t Hx.
  specialize (ok_pids0 x t Hx). lia.
Qed.

Lemma add_ready_ok s R S B x t :
  sched_ok s R S B → x ∉ R ++ S ++ B → x ≠ 0 → sc_tasks s !! x = Some t →
  wp (add_task_to_queue x) (λ _ s', sched_ok s' (R ++ [x]) S B ∧
    relinked (R ++ [x]) (sc_tasks s) (sc_tasks s') ∧ PIDS s' = PIDS s) s.
Proof.
  intros Hok Hx Hx0 Ht. unfold add_task_to_queue. pose proof (ok_nodup _ _ _ _ Hok) as Hnd.
  eapply wp_mono.
  { eapply add_to_list_spec; [by eapply ok_list_ready|set_solver|done|done]. }
  intros _ s' (m' & Hr & -> & [Hl _]). split; [|done].
  assert (Hoth : ∀ p k, (∀ y, y ∈ k → y ∈ S ++ B) →
    tchain (sc_tasks s) p k → tchain m' p k).
  { intros p k Hk. apply (relinked_chain _ _ _ _ _ Hr). intros y Hy Hin.
    apply Hk in Hy. apply elem_of_app in Hin as [Hin|Hin].
    - by apply (nodup_disjoint _ _ _ Hnd Hin).
    - apply list_elem_of_singleton in Hin as ->. set_solver. }
  destruct Hok. constructor; simpl in *; try done.
  - apply Hoth; [set_solver|done].
  - apply Hoth; [set_solver|done].
  - rewrite <- app_assoc. eapply (NoDup_Permutation_proper _ (x :: R ++ S ++ B)).
    { simpl. symmetry. apply Permutation_middle. }
    by apply NoDup_cons.
  - destruct R as [|y R]; [set_solver|]. simpl in *. set_solver.
  - by eapply relinked_pids.
Qed.

(** C23: [fork] returns, in the parent, the pid of a child that is a copy of the
    running task: the pid is one no live task has, the child is last on the ready
    list with the parent's pid as its parent and its own directory, descriptors and
    working directory, the parent counts one child more, and the scheduler's
    invariant is preserved. *)
Theorem fork_correct (R S B : list Z) (p : task) (addr fds cwd newdir : Z) (s : sched)
    (Hok : sched_ok s R S B)
    (Hrun : sc_tasks s !! g_runningtask s = Some p) (Hrun0 : g_runningtask s ≠ 0)
    (Hnew : sc_tasks s !! addr = None) (Haddr : addr ≠ 0)
    (Hpids : 0 ≤ PIDS s < 2147483647) :
  ∃ s' n k, fork addr fds cwd newdir s = Ok (PIDS s, s') ∧
    (∀ x t, sc_tasks s !! x = Some t → t_pid t ≠ PIDS s) ∧
    sched_ok s' (R ++ [addr]) S B ∧
    sc_tasks s' !! addr = Some (with_next (forked p (PIDS s) newdir fds cwd) n) ∧
    sc_tasks s' !! g_runningtask s =
      Some (with_next (with_childamount p (s32 (t_childamount p + 1))) k) ∧
    PIDS s' = PIDS s + 1 ∧ interrupts s' = true.
Proof.
  assert (Hra : g_runningtask s ≠ addr) by congruence. set (r := g_runningtask s) in *.
  set (f := forked p (PIDS s) 0 fds cwd).
  set (p' := with_childamount p (s32 (t_childamount p + 1))).
  set (s1 := with_tasks (<[addr := p]> (sc_tasks s)) (with_locks (scheduler_locks s) false s)).
  set (m2 := <[r := p']> (<[addr := f]> (sc_tasks s1))).
  set (s2 := with_tasks m2 (with_pids (PIDS s + 1) s1)).
  assert (Hok2 : sched_ok s2 R S B).
  { pose proof (sched_ok_more_pids s R S B (PIDS s + 1) Hok ltac:(lia)) as H.
    apply (with_locks_ok (scheduler_locks s) false) in H; [|apply Hok].
    eapply (sched_ok_new _ _ _ _ addr f) in H; [|done|simpl; lia].
    eapply (sched_ok_store _ _ _ _ r p p') in H; [|simpl; by rewrite lookup_insert_ne|done..].
    unfold s2, m2, s1. simpl in *. by rewrite insert_insert_eq. }
  assert (E2 : ∀ A (k : M sched A), (_ ← create_task addr (t_ring p =? 0) 0 fds cwd; k) s1 = k s2).
  { intros A k. erewrite bind_ok. 2: { apply create_task_ok; simpl; fold r; try done.
      - by rewrite lookup_insert_ne.
      - by rewrite lookup_insert_eq. }
    simpl. by rewrite (s32_small (PIDS s + 1)) by lia. }
  assert (Hf : m2 !! addr = Some f).
  { unfold m2. by rewrite lookup_insert_ne, lookup_insert_eq. }
  assert (Hfresh : addr ∉ R ++ S ++ B).
  { intros Hin. destruct Hok. rewrite !elem_of_app in Hin.
    destruct Hin as [Hin|[Hin|Hin]]; revert Hin; by eapply not_dom_chain. }
  destruct (wp_run _ _ _ (add_ready_ok s2 R S B addr f Hok2 Hfresh Haddr Hf))
    as ([] & s3 & E3 & Hok3 & Hrl & Hp3).
  destruct (relinked_lookup _ _ _ _ _ Hrl Hf) as (n & Hf3).
  destruct (relinked_lookup _ _ _ r p' Hrl) as (k & Hr3).
  { simpl. unfold m2. by rewrite lookup_insert_eq. }
  set (s4 := with_tasks (<[addr := with_directory (with_next f n) newdir]> (sc_tasks s3)) s3).
  exists (with_locks (scheduler_locks s4) true s4), n, k. split.
  { unfold fork, get_current_task. do 2 erewrite bind_ok by reflexivity. simpl. fold r.
    erewrite bind_ok by by apply load_task_ok. rewrite (proj2 (Z.eqb_neq addr 0)) by done.
    erewrite bind_ok by reflexivity. fold s1. rewrite E2. erewrite bind_ok by exact E3.
    erewrite bind_ok by by apply load_task_ok. erewrite bind_ok by by eapply store_task_ok.
    erewrite bind_ok by reflexivity.
    erewrite bind_ok. 2: { apply load_task_ok; [simpl; by rewrite lookup_insert_eq|done]. }
    done. }
  split; [intros x t Hx; pose proof (ok_pids _ _ _ _ Hok x t Hx); lia|].
  split; [apply with_locks_ok; [by eapply sched_ok_store|apply Hok3]|].
  simpl. split_and!; [by rewrite lookup_insert_eq|by rewrite lookup_insert_ne|done|done].
Qed.

Lemma fork_correct_witness :
  ∃ s' n k, fork 80 1 2 3 demo_sched = Ok (5, s') ∧
    (∀ x t, sc_tasks demo_sched !! x = Some t → t_pid t ≠ 5) ∧
    sched_ok s' [16; 32; 48; 80] [] [64] ∧
    sc_tasks s' !! 80 = Some (with_next (forked (demo_task 1 32) 5 3 1 2) n) ∧
    sc_tasks s' !! 16 = Some (with_next (with_childamount (demo_task 1 32) 1) k) ∧
    PIDS s' = 6 ∧ interrupts s' = true.
Proof.
  apply (fork_correct [16; 32; 48] [] [64] (demo_task 1 32) 80 1 2 3 demo_sched demo_ok);
    [reflexivity|discriminate|reflexivity|discriminate|simpl; lia].
Defined.
