(* ===== verification/Disk.v ===== *)
(** * Disks (kernel/drivers/disk.c, kernel/drivers/ramdisk/ramdisk.c)

    [disk_read] and [disk_write] turn byte offsets into block requests to a
    driver, whose [read] and [write] are function pointers: they are the
    operations of the class [DiskDriver], over the byte memory and the driver's
    own state.  [BlockDevice] states what the layer above relies on: [count]
    blocks are transferred and [count] is returned, as atapio_read and
    atapio_write do.  The buffers [kmalloc] returns are arguments. *)
From S2P Require Import Prelude LibK.

(** ** The driver interface *)

Class DiskDriver (D : Type) := {
  drv_block_size : Z;
  drv_read : Z → Z → Z → M (bmem * D) Z;
  drv_write : Z → Z → Z → M (bmem * D) Z
}.

Definition on_mem {D A} (c : M bmem A) : M (bmem * D) A := λ '(m, d),
  match c m with
  | Ok (a, m') => Ok (a, (m', d))
  | Fault => Fault
  | Hang => Hang
  end.

Notation block_size_of D := (drv_block_size (D := D)).

(** [n] bytes from [k]. *)
Definition slice (bs : list Z) (k n : Z) : list Z := take (Z.to_nat n) (drop (Z.to_nat k) bs).

Definition splice (bs : list Z) (k : Z) (new : list Z) : list Z :=
  take (Z.to_nat k) bs ++ new ++ drop (Z.to_nat k + length new) bs.

Class BlockDevice (D : Type) `{!DiskDriver D} := {
  contents : D → list Z;
  block_size_pos : 0 < block_size_of D;
  contents_bytes : ∀ d, Forall is_byte (contents d);
  contents_blocks : ∀ d, Z.of_nat (length (contents d)) mod block_size_of D = 0;
  drv_read_blocks : ∀ lba buf n m d,
    0 ≤ lba → 0 ≤ n → (lba + n) * block_size_of D ≤ Z.of_nat (length (contents d)) →
    mapped m buf (n * block_size_of D) →
    drv_read lba buf n (m, d) =
      Ok (n, (write_at m buf (slice (contents d) (lba * block_size_of D) (n * block_size_of D)), d));
  drv_write_blocks : ∀ lba buf n m d bs,
    0 ≤ lba → (lba + n) * block_size_of D ≤ Z.of_nat (length (contents d)) →
    Z.of_nat (length bs) = n * block_size_of D → bytes_at m buf bs → Forall is_byte bs →
    ∃ d', drv_write lba buf n (m, d) = Ok (n, (m, d')) ∧
      contents d' = splice (contents d) (lba * block_size_of D) bs
}.

(** ** disk.c: byte access to a disk *)

Section disk.
Context {D : Type} `{!DiskDriver D}.

Local Notation block_size := (block_size_of D).

Definition disk_read (offset buffer size tmp1 tmp2 : Z) : M (bmem * D) Z :=
  let buf := buffer in
  if block_size =? 0 then drv_read offset buf size
  else
    let count := size / block_size in
    let c_rest := size mod block_size in
    let lba := offset / block_size in
    let l_rest := offset mod block_size in
    let '(l_size, count, c_rest) :=
      if (count =? 0) && negb (l_rest =? 0) then (c_rest, 1, 0)
      else if negb (l_rest =? 0) then (block_size - l_rest, count, u32 (c_rest - l_rest))
      else (l_rest, count, c_rest) in
    '(buf, lba, count, ret) ←
      (if negb (l_rest =? 0) then
         _ ← drv_read lba tmp1 1;
         _ ← on_mem (memcpy buf (tmp1 + l_rest) l_size);
         mret (buf + l_size, lba + 1, count - 1, l_size)
       else mret (buf, lba, count, 0));
    ret ← (if negb (count =? 0) then r ← drv_read lba buf count; mret (u32 (ret + r))
           else mret ret);
    ret ← (if negb (c_rest =? 0) then
             _ ← drv_read (lba + count) tmp2 1;
             _ ← on_mem (memcpy (buf + count * block_size) tmp2 c_rest);
             mret (u32 (ret + c_rest))
           else mret ret);
    mret (s32 ret).

Definition disk_write (offset buffer size tmp1 tmp2 : Z) : M (bmem * D) Z :=
  let buf := buffer in
  if block_size =? 0 then drv_write offset buf size
  else
    let blockiter := offset / block_size in
    let s_rest := offset mod block_size in
    let e_rest := u32 (size + s_rest) mod block_size in
    let e_rest := if negb (s_rest =? 0) && (size <? block_size - s_rest) then 0 else e_rest in
    let blkcnt := s32 (u32 (size - e_rest) / block_size) in
    '(blockiter, buf, ret) ←
      (if negb (s_rest =? 0) then
         _ ← drv_read blockiter tmp1 1;
         let memcpy_size := block_size - s_rest in
         let memcpy_size := if size <? memcpy_size then size else memcpy_size in
         _ ← on_mem (memcpy (tmp1 + s_rest) buf memcpy_size);
         _ ← drv_write blockiter tmp1 1;
         mret (blockiter + 1, buf + block_size, s32 block_size)
       else mret (blockiter, buf, 0));
    '(blockiter, buf, ret, short) ←
      (if negb (blkcnt =? 0) then
         blks ← drv_write blockiter buf blkcnt;
         mret (u32 (blockiter + blks), buf + u32 (blks * block_size),
               s32 (ret + u32 (blks * block_size)), negb (blks =? blkcnt))
       else mret (blockiter, buf, ret, false));
    if (short : bool) then mret ret
    else if negb (e_rest =? 0) then
      _ ← drv_read blockiter tmp2 1;
      _ ← on_mem (memcpy tmp2 buf e_rest);
      _ ← drv_write blockiter tmp2 1;
      mret (s32 (ret + e_rest))
    else mret ret.
End disk.

(** ** ramdisk.c: a disk in memory *)

Record ramdisk_info := RamdiskInfo { rd_location : Z; rd_size : Z }.

(** The pointer [memcpy] returns is the result, as a signed number. *)
Definition ramdisk_read (rd : ramdisk_info) (offset destination size : Z) : M bmem Z :=
  r ← memcpy destination (u32 (rd_location rd + offset)) size; mret (s32 r).

Definition ramdisk_write (rd : ramdisk_info) (offset buffer size : Z) : M bmem Z :=
  r ← memcpy (u32 (rd_location rd + offset)) buffer size; mret (s32 r).

(** The ramdisk is addressed in bytes: its block size is 0. *)
#[export] Instance ramdisk_driver : DiskDriver ramdisk_info := {
  drv_block_size := 0;
  drv_read offset buf size := rd ← get snd; on_mem (ramdisk_read rd offset buf size);
  drv_write offset buf size := rd ← get snd; on_mem (ramdisk_write rd offset buf size)
}.

(** ** The list of disks *)

Record disk_t := DiskT {
  dk_type : Z;
  dk_name : Z;
  dk_drive_info : Z;
  dk_block_size : Z;
  dk_read : Z;
  dk_write : Z;
  dk_next : Z
}.

Definition DISK_TYPE_RAMDISK : Z := 0.

Record disks := Disks {
  disk_store : gmap Z disk_t;
  rd_store : gmap Z ramdisk_info;
  disk_list : Z
}.

Definition load_disk (p : Z) : M disks disk_t :=
  s ← get disk_store; if p =? 0 then fault else of_option (s !! p).

Definition with_disk_next (d : disk_t) (n : Z) : disk_t :=
  DiskT (dk_type d) (dk_name d) (dk_drive_info d) (dk_block_size d) (dk_read d) (dk_write d) n.

Definition add_disk (disk : Z) : M disks unit :=
  l ← get disk_list;
  if l =? 0 then modify (λ s, Disks (disk_store s) (rd_store s) disk)
  else
    fuel ← get (λ s, S (size (disk_store s)));
    last ← loop fuel (λ tmp,
      d ← load_disk tmp;
      if negb (dk_next d =? 0) then mret (inl (dk_next d)) else mret (inr tmp)) l;
    d ← load_disk last;
    modify (λ s, Disks (<[last := with_disk_next d disk]> (disk_store s)) (rd_store s) (disk_list s)).

(** [rd_info] and [disk_info] are the blocks [kmalloc] returned; the name and the
    two driver functions are addresses. *)
Definition init_ramdisk (location size rd_info disk_info name read write : Z) : M disks unit :=
  _ ← modify (λ s, Disks (disk_store s) (<[rd_info := RamdiskInfo location size]> (rd_store s))
                     (disk_list s));
  _ ← modify (λ s, Disks
        (<[disk_info := DiskT DISK_TYPE_RAMDISK name rd_info 0 read write 0]> (disk_store s))
        (rd_store s) (disk_list s));
  add_disk disk_info.

(** ** Slices *)

Lemma slice_app a b c k n :
  k = Z.of_nat (length a) → n = Z.of_nat (length b) → slice (a ++ b ++ c) k n = b.
Proof.
  intros -> ->. unfold slice. rewrite !Nat2Z.id, drop_app_length. by rewrite take_app_length.
Qed.

Lemma splice_app a b c k new :
  k = Z.of_nat (length a) → length new = length b → splice (a ++ b ++ c) k new = a ++ new ++ c.
Proof.
  intros -> Hl. unfold splice. rewrite Nat2Z.id, take_app_length, Hl.
  rewrite (app_assoc a b c). replace (length a + length b)%nat with (length (a ++ b))
    by apply length_app. by rewrite drop_app_length.
Qed.

(** A list cut at [k] and [k + n]. *)
Lemma cut_at (l : list Z) k n : 0 ≤ k → 0 ≤ n → k + n ≤ Z.of_nat (length l) →
  ∃ a b c, l = a ++ b ++ c ∧ Z.of_nat (length a) = k ∧ Z.of_nat (length b) = n.
Proof.
  intros Hk Hn Hl. exists (take (Z.to_nat k) l), (take (Z.to_nat n) (drop (Z.to_nat k) l)),
    (drop (Z.to_nat n) (drop (Z.to_nat k) l)).
  rewrite take_drop, take_drop, !length_take, length_drop. split; [done|]. lia.
Qed.

Lemma slice_length l k n : 0 ≤ k → 0 ≤ n → k + n ≤ Z.of_nat (length l) →
  Z.of_nat (length (slice l k n)) = n.
Proof. intros Hk Hn Hl. unfold slice. rewrite length_take, length_drop. lia. Qed.

Lemma slice_bytes l k n : Forall is_byte l → Forall is_byte (slice l k n).
Proof. intros H. by apply Forall_take, Forall_drop. Qed.

Lemma slice_split l k n n' : 0 ≤ k → 0 ≤ n → 0 ≤ n' → k + n + n' ≤ Z.of_nat (length l) →
  slice l k (n + n') = slice l k n ++ slice l (k + n) n'.
Proof.
  intros Hk Hn Hn' Hl. unfold slice.
  replace (Z.to_nat (n + n')) with (Z.to_nat n + Z.to_nat n')%nat by lia.
  rewrite <- take_take_drop, drop_drop. do 3 f_equal. lia.
Qed.

(** The front of a slice is a slice. *)
Lemma slice_drop l k n r n' : 0 ≤ k → 0 ≤ r → 0 ≤ n' → r + n' ≤ n →
  k + n ≤ Z.of_nat (length l) →
  slice l k n = slice l k r ++ slice l (k + r) n' ++ slice l (k + r + n') (n - r - n').
Proof.
  intros. replace n with (r + (n' + (n - r - n'))) at 1 by lia.
  rewrite slice_split, slice_split by lia. done.
Qed.

(** Replacing the rest of the last block completes the write. *)
Lemma splice_tail c k da db n :
  0 ≤ k → 0 ≤ n →
  k + Z.of_nat (length da) + Z.of_nat (length db) + n ≤ Z.of_nat (length c) →
  let c1 := splice c k da in
  splice c1 (k + Z.of_nat (length da))
    (db ++ slice c1 (k + Z.of_nat (length da) + Z.of_nat (length db)) n) =
  splice c k (da ++ db).
Proof.
  intros Hk Hn Hl c1.
  destruct (cut_at c k (Z.of_nat (length da))) as (a & b & r & -> & Ha & Hb); [lia..|].
  rewrite !length_app in Hl.
  destruct (cut_at r (Z.of_nat (length db)) n) as (b2 & r2 & r3 & -> & Hb2 & Hr2); [lia..|].
  assert (E1 : c1 = a ++ da ++ b2 ++ r2 ++ r3) by (apply splice_app; lia).
  assert (E2 : slice c1 (k + Z.of_nat (length da) + Z.of_nat (length db)) n = r2).
  { rewrite E1, (app_assoc a da), (app_assoc (a ++ da) b2). apply slice_app; rewrite ?length_app; lia. }
  assert (E3 : splice (a ++ b ++ b2 ++ r2 ++ r3) k (da ++ db) = a ++ (da ++ db) ++ r2 ++ r3).
  { rewrite (app_assoc b b2). apply splice_app; rewrite ?length_app; lia. }
  rewrite E3, E2, E1, (app_assoc a da), (app_assoc b2 r2), splice_app by (rewrite ?length_app; lia).
  by rewrite <- !app_assoc.
Qed.

Lemma splice_nil c k : splice c k [] = c.
Proof. unfold splice. simpl. rewrite Nat.add_0_r. apply take_drop. Qed.

Lemma splice_slice c k new : 0 ≤ k → k + Z.of_nat (length new) ≤ Z.of_nat (length c) →
  slice (splice c k new) k (Z.of_nat (length new)) = new.
Proof.
  intros Hk Hl. destruct (cut_at c k (Z.of_nat (length new))) as (a & b & r & -> & Ha & Hb); [lia..|].
  rewrite splice_app by lia. apply slice_app; lia.
Qed.

Lemma splice_length c k new : 0 ≤ k → k + Z.of_nat (length new) ≤ Z.of_nat (length c) →
  length (splice c k new) = length c.
Proof.
  intros Hk Hl. unfold splice. rewrite !length_app, length_take, length_drop. lia.
Qed.

Definition disjoint_blocks (p n q k : Z) : Prop := p + n ≤ q ∨ q + k ≤ p.

(** Bytes beside a splice. *)

Lemma slice_lookup l k n i : 0 ≤ k → 0 ≤ n →
  slice l k n !! i = if decide (Z.of_nat i < n) then l !! (Z.to_nat k + i)%nat else None.
Proof.
  intros Hk Hn. unfold slice. destruct (decide _).
  - rewrite lookup_take_lt, lookup_drop by lia. done.
  - apply lookup_take_ge. lia.
Qed.

Lemma splice_lookup l a new i : 0 ≤ a → a + Z.of_nat (length new) ≤ Z.of_nat (length l) →
  Z.of_nat i < a ∨ a + Z.of_nat (length new) ≤ Z.of_nat i →
  splice l a new !! i = l !! i.
Proof.
  intros Ha Hl Hi. assert (Ht : length (take (Z.to_nat a) l) = Z.to_nat a) by (rewrite length_take; lia).
  unfold splice. destruct Hi as [Hi|Hi].
  - rewrite lookup_app_l by lia. apply lookup_take_lt. lia.
  - rewrite lookup_app_r, lookup_app_r, lookup_drop by lia. f_equal. lia.
Qed.

Lemma slice_splice_out l a new k n : 0 ≤ a → a + Z.of_nat (length new) ≤ Z.of_nat (length l) →
  0 ≤ k → 0 ≤ n → disjoint_blocks a (Z.of_nat (length new)) k n →
  slice (splice l a new) k n = slice l k n.
Proof.
  intros Ha Hl Hk Hn Hd. apply list_eq. intros i. rewrite !slice_lookup by done.
  destruct (decide _); [|done]. apply splice_lookup; [done|done|]. destruct Hd; lia.
Qed.

Lemma bytes_at_slice m p bs k n : 0 ≤ k → 0 ≤ n → bytes_at m p bs → bytes_at m (p + k) (slice bs k n).
Proof.
  intros Hk Hn Hb i x Hi. rewrite slice_lookup in Hi by done. destruct (decide _); [|done].
  apply Hb in Hi. by replace (p + Z.of_nat (Z.to_nat k + i)) with (p + k + Z.of_nat i) in Hi by lia.
Qed.

(** ** Reading *)

Lemma on_mem_ok {D A} (c : M bmem A) m (d : D) a m' :
  c m = Ok (a, m') → on_mem c (m, d) = Ok (a, (m', d)).
Proof. intros H. unfold on_mem. by rewrite H. Qed.

(** A write away from a block keeps it. *)
Lemma bytes_at_write m p bs q cs :
  disjoint_blocks p (Z.of_nat (length bs)) q (Z.of_nat (length cs)) →
  bytes_at m p bs → bytes_at (write_at m q cs) p bs.
Proof.
  intros Hd. apply bytes_at_frame. intros x Hx. apply write_at_out. destruct Hd; lia.
Qed.

Lemma bytes_at_splice m p a bs new : 0 ≤ a → a + Z.of_nat (length new) ≤ Z.of_nat (length bs) →
  bytes_at m p bs → bytes_at (write_at m (p + a) new) p (splice bs a new).
Proof.
  intros Ha Hl Hb i x Hi. destruct (decide (a ≤ Z.of_nat i < a + Z.of_nat (length new))) as [Hin|Hout].
  - assert (Ht : length (take (Z.to_nat a) bs) = Z.to_nat a) by (rewrite length_take; lia).
    unfold splice in Hi. rewrite lookup_app_r, lookup_app_l in Hi by lia.
    apply (write_at_in m (p + a)) in Hi. rewrite Ht in Hi. by replace (p + a + Z.of_nat (i - Z.to_nat a))
      with (p + Z.of_nat i) in Hi by lia.
  - rewrite splice_lookup in Hi by lia. rewrite write_at_out by lia. by apply Hb.
Qed.

(** Two consecutive parts of a buffer with a temporary buffer written in between. *)
Lemma two_parts m buf tmp a blk b :
  disjoint_blocks buf (Z.of_nat (length (a ++ b))) tmp (Z.of_nat (length blk)) →
  let m' := write_at (write_at (write_at m buf a) tmp blk) (buf + Z.of_nat (length a)) b in
  bytes_at m' buf (a ++ b) ∧
  ∀ q, ¬ buf ≤ q < buf + Z.of_nat (length (a ++ b)) →
       ¬ tmp ≤ q < tmp + Z.of_nat (length blk) → m' !! q = m !! q.
Proof.
  rewrite length_app. intros Hd. split.
  - apply bytes_at_app. split; [|apply write_at_in]. apply bytes_at_write; [left; lia|].
    apply bytes_at_write; [|apply write_at_in]. destruct Hd; [left|right]; lia.
  - intros q Hq Hq'. by rewrite !write_at_out by lia.
Qed.

Section disk_proofs.
Context {D : Type} `{HB : BlockDevice D}.

Local Notation block_size := (block_size_of D).

Lemma part_of_block d lba r n : 0 ≤ lba → 0 ≤ r → 0 ≤ n → r + n ≤ block_size →
  (lba + 1) * block_size ≤ Z.of_nat (length (contents d)) →
  slice (contents d) (lba * block_size) block_size =
    slice (contents d) (lba * block_size) r ++ slice (contents d) (lba * block_size + r) n ++
    slice (contents d) (lba * block_size + r + n) (block_size - r - n).
Proof. intros. pose proof block_size_pos. apply slice_drop; nia. Qed.

Lemma read_block lba tmp m d :
  0 ≤ lba → (lba + 1) * block_size ≤ Z.of_nat (length (contents d)) → mapped m tmp block_size →
  drv_read lba tmp 1 (m, d) =
  Ok (1, (write_at m tmp (slice (contents d) (lba * block_size) block_size), d)).
Proof.
  intros Hlba Hend Htmp. rewrite drv_read_blocks; rewrite ?Z.mul_1_l; done || lia.
Qed.

(** A part of a block that is in a temporary buffer, into the destination. *)
Lemma copy_part lba tmp r n dst m d :
  0 ≤ lba → (lba + 1) * block_size ≤ Z.of_nat (length (contents d)) →
  0 ≤ r → 0 ≤ n → r + n ≤ block_size → mapped m dst n →
  disjoint_blocks dst n tmp block_size →
  let m1 := write_at m tmp (slice (contents d) (lba * block_size) block_size) in
  on_mem (memcpy dst (tmp + r) n) (m1, d) =
  Ok (dst, (write_at m1 dst (slice (contents d) (lba * block_size + r) n), d)).
Proof.
  intros Hlba Hend Hr Hn Hrn Hdst Hdis m1. pose proof block_size_pos as Hpos.
  assert (Hl0 : 0 ≤ lba * block_size) by nia.
  assert (Hlen : Z.of_nat (length (slice (contents d) (lba * block_size + r) n)) = n)
    by (apply slice_length; lia).
  apply on_mem_ok. rewrite <- Hlen at 1. apply memcpy_run.
  - pose proof (write_at_in m tmp (slice (contents d) (lba * block_size) block_size)) as Hin.
    rewrite (part_of_block d lba r n) in Hin at 2 by done.
    apply bytes_at_app in Hin as [_ Hin]. rewrite slice_length in Hin by lia.
    by apply bytes_at_app in Hin as [Hin _].
  - rewrite Hlen. by apply mapped_write.
  - apply slice_bytes, contents_bytes.
  - rewrite Hlen. destruct Hdis; lia.
Qed.

(** One block into a temporary buffer, and a part of it into the destination. *)
Lemma read_part lba tmp r n dst m d :
  0 ≤ lba → (lba + 1) * block_size ≤ Z.of_nat (length (contents d)) →
  0 ≤ r → 0 ≤ n → r + n ≤ block_size → mapped m tmp block_size → mapped m dst n →
  disjoint_blocks dst n tmp block_size →
  ∀ A (k : M (bmem * D) A),
    (_ ← drv_read lba tmp 1; _ ← on_mem (memcpy dst (tmp + r) n); k) (m, d) =
    k (write_at (write_at m tmp (slice (contents d) (lba * block_size) block_size)) dst
         (slice (contents d) (lba * block_size + r) n), d).
Proof.
  intros Hlba Hend Hr Hn Hrn Htmp Hdst Hdis A k.
  erewrite bind_ok by by apply read_block. by erewrite bind_ok by by apply copy_part.
Qed.

Lemma read_blocks lba count buf m d :
  0 ≤ lba → 0 ≤ count < 4294967296 →
  (lba + count) * block_size ≤ Z.of_nat (length (contents d)) →
  mapped m buf (count * block_size) →
  (if negb (count =? 0) then r ← drv_read lba buf count; mret (u32 (0 + r)) else mret 0) (m, d) =
  Ok (count, (write_at m buf (slice (contents d) (lba * block_size) (count * block_size)), d)).
Proof.
  intros Hlba Hc Hend Hm. destruct (Z.eqb_spec count 0) as [->|Hne]; simpl; [done|].
  erewrite bind_ok by (apply drv_read_blocks; [lia..|done|done]).
  unfold mret, M_ret. by rewrite Z.add_0_l, u32_small.
Qed.

Lemma block_room d offset size k :
  0 ≤ offset → 0 ≤ size → offset + size ≤ Z.of_nat (length (contents d)) →
  k * block_size < offset + size → 0 ≤ k → (k + 1) * block_size ≤ Z.of_nat (length (contents d)).
Proof.
  intros _ _ Hend Hk _. pose proof block_size_pos as Hpos. pose proof (contents_blocks d) as Hb.
  apply Z.mod_divide in Hb as [q Hq]; [|lia]. rewrite Hq in Hend |- *.
  apply Z.mul_le_mono_pos_r; [done|]. enough (k < q) by lia. nia.
Qed.

(** Quotient and remainder of a request that starts at a block boundary. *)
Lemma aligned_split offset size :
  0 ≤ offset → 0 ≤ size → offset mod block_size = 0 →
  ∃ lba cnt rest, offset / block_size = lba ∧ size / block_size = cnt ∧ size mod block_size = rest ∧
    lba * block_size = offset ∧ size = cnt * block_size + rest ∧
    0 ≤ lba ∧ 0 ≤ cnt ∧ 0 ≤ rest < block_size.
Proof.
  intros Ho Hs Hal. pose proof block_size_pos as Hpos.
  eexists _, _, _. do 3 (split; [reflexivity|]).
  pose proof (Z.div_mod offset block_size). pose proof (Z.div_mod size block_size).
  pose proof (Z.mod_pos_bound size block_size Hpos).
  split_and!; try lia; apply Z.div_pos; lia.
Qed.

(** The last block of a read that starts at a block boundary. *)
Lemma read_parts offset size lba cnt rest buf tmp m d :
  lba * block_size = offset → size = cnt * block_size + rest → 0 ≤ lba → 0 ≤ cnt →
  0 < rest < block_size → offset + size ≤ Z.of_nat (length (contents d)) →
  mapped m buf size → mapped m tmp block_size → disjoint_blocks buf size tmp block_size →
  let m1 := write_at m buf (slice (contents d) offset (cnt * block_size)) in
  ∃ m2 m3, drv_read (lba + cnt) tmp 1 (m1, d) = Ok (1, (m2, d)) ∧
    on_mem (memcpy (buf + cnt * block_size) tmp rest) (m2, d) =
      Ok (buf + cnt * block_size, (m3, d)) ∧
    bytes_at m3 buf (slice (contents d) offset size) ∧
    (∀ q, ¬ buf ≤ q < buf + size → ¬ tmp ≤ q < tmp + block_size → m3 !! q = m !! q) ∧
    ∀ p n, mapped m p n → mapped m3 p n.
Proof.
  intros Hlba Hcr H0 H1 Hr Hend Hbuf Htmp Hdis m1. pose proof block_size_pos as Hpos.
  assert (Hroom : (lba + cnt + 1) * block_size ≤ Z.of_nat (length (contents d)))
    by (apply (block_room d offset size); nia).
  eexists _, _. split; [apply read_block; [lia|lia|by apply mapped_write]|].
  pose proof (copy_part (lba + cnt) tmp 0 rest (buf + cnt * block_size) m1 d) as Hcp.
  rewrite !Z.add_0_r in Hcp. split.
  { apply Hcp; [lia..| |].
    - apply mapped_write. intros q Hq. apply Hbuf. nia.
    - destruct Hdis; [left|right]; nia. }
  set (a := slice (contents d) offset (cnt * block_size)) in *.
  set (b := slice (contents d) ((lba + cnt) * block_size) rest) in *.
  set (blk := slice (contents d) ((lba + cnt) * block_size) block_size) in *.
  assert (Hl1 : Z.of_nat (length a) = cnt * block_size) by (apply slice_length; nia).
  assert (Hlb : Z.of_nat (length blk) = block_size) by (apply slice_length; nia).
  assert (Hl3 : Z.of_nat (length b) = rest) by (apply slice_length; nia).
  assert (Hab : slice (contents d) offset size = a ++ b).
  { rewrite Hcr, slice_split by nia. unfold a, b. do 2 f_equal. lia. }
  pose proof (two_parts m buf tmp a blk b) as H2.
  rewrite length_app, Nat2Z.inj_add, Hl1, Hl3, Hlb, <- Hcr in H2. rewrite Hab.
  destruct (H2 Hdis) as [Hin Hout]. split_and!; [done|done|]. intros p n Hp. by repeat apply mapped_write.
Qed.

Lemma disk_read_aligned offset buf size tmp1 tmp2 m d :
  0 ≤ offset → 0 ≤ size < 4294967296 → offset + size ≤ Z.of_nat (length (contents d)) →
  offset mod block_size = 0 →
  mapped m buf size → mapped m tmp2 block_size → disjoint_blocks buf size tmp2 block_size →
  ∃ m', disk_read offset buf size tmp1 tmp2 (m, d) =
          Ok (s32 (size / block_size + size mod block_size), (m', d)) ∧
    bytes_at m' buf (slice (contents d) offset size) ∧
    (∀ q, ¬ buf ≤ q < buf + size → ¬ tmp2 ≤ q < tmp2 + block_size → m' !! q = m !! q) ∧
    ∀ p n, mapped m p n → mapped m' p n.
Proof.
  intros Ho Hs Hend Hal Hbuf Ht2 Hdis. pose proof block_size_pos as Hpos.
  destruct (aligned_split offset size) as (lba & cnt & rest & El & Ec & Er & Hlba & Hcr & H0 & H1 & Hr);
    [lia..|done|].
  unfold disk_read. destruct (Z.eqb_spec block_size 0); [lia|].
  rewrite El, Ec, Er, Hal. simpl. rewrite andb_false_r. simpl.
  erewrite bind_ok by reflexivity. simpl.
  erewrite bind_ok. 2: { apply read_blocks; [lia|nia|nia|]. intros q Hq. apply Hbuf. lia. }
  rewrite Hlba. destruct (Z.eqb_spec rest 0) as [Hz|Hnz]; simpl.
  - eexists. rewrite Hz, Z.add_0_r. split; [reflexivity|].
    assert (Ea : size = cnt * block_size) by lia. rewrite Ea. split_and!; [apply write_at_in| |].
    + intros q Hq _. apply write_at_out. rewrite slice_length by lia. done.
    + intros p k. apply mapped_write.
  - destruct (read_parts offset size lba cnt rest buf tmp2 m d) as (m2 & m3 & E1 & E2 & Hb & Hf);
      try done; [lia|]. exists m3. split; [|done].
    erewrite bind_ok. 2: { erewrite bind_ok by exact E1. by erewrite bind_ok by exact E2. }
    by rewrite u32_small by nia.
Qed.

(** Inside one block. *)
Lemma disk_read_inside offset buf size tmp1 tmp2 m d :
  0 ≤ offset → 0 ≤ size < 2147483648 → offset + size ≤ Z.of_nat (length (contents d)) →
  offset mod block_size ≠ 0 → offset mod block_size + size ≤ block_size →
  mapped m buf size → mapped m tmp1 block_size → disjoint_blocks buf size tmp1 block_size →
  ∃ m', disk_read offset buf size tmp1 tmp2 (m, d) = Ok (size, (m', d)) ∧
    bytes_at m' buf (slice (contents d) offset size) ∧
    (∀ q, ¬ buf ≤ q < buf + size → ¬ tmp1 ≤ q < tmp1 + block_size → m' !! q = m !! q) ∧
    ∀ p n, mapped m p n → mapped m' p n.
Proof.
  intros Ho Hs Hend Hal Hin Hbuf Ht1 Hdis. pose proof block_size_pos as Hpos.
  pose proof (Z.mod_pos_bound offset block_size Hpos) as Hr.
  set (l_rest := offset mod block_size) in *. set (lba := offset / block_size).
  assert (Hlba : lba * block_size + l_rest = offset).
  { unfold lba, l_rest. rewrite Z.mul_comm. pose proof (Z.div_mod offset block_size). lia. }
  assert (Hlba0 : 0 ≤ lba) by (apply Z.div_pos; lia).
  assert (Hroom : (lba + 1) * block_size ≤ Z.of_nat (length (contents d))).
  { destruct (decide (l_rest + size = 0)); [lia|]. by apply (block_room d offset size); lia. }
  eexists. split_and!.
  - unfold disk_read. destruct (Z.eqb_spec block_size 0); [lia|]. fold l_rest lba.
    rewrite Z.div_small, Z.mod_small by lia. rewrite (proj2 (Z.eqb_neq l_rest 0)) by done. simpl.
    erewrite bind_ok by (rewrite read_part by (done || lia); reflexivity). simpl.
    do 2 erewrite bind_ok by reflexivity. rewrite Hlba.
    unfold mret, M_ret. rewrite s32_small by lia. reflexivity.
  - apply write_at_in.
  - intros q Hq Hq1. assert (Hl : Z.of_nat (length (slice (contents d) offset size)) = size)
      by (apply slice_length; lia).
    assert (Hl2 : Z.of_nat (length (slice (contents d) (lba * block_size) block_size)) = block_size)
      by (apply slice_length; nia).
    by rewrite !write_at_out by (rewrite ?Hl, ?Hl2; lia).
  - intros p k Hp. by do 2 apply mapped_write.
Qed.

(** ** Writing *)

Lemma write_blocks lba count buf m d bs :
  0 ≤ lba → 0 ≤ lba + count < 4294967296 → 0 ≤ count →
  count * block_size < 2147483648 →
  (lba + count) * block_size ≤ Z.of_nat (length (contents d)) →
  Z.of_nat (length bs) = count * block_size → bytes_at m buf bs → Forall is_byte bs →
  ∃ d', contents d' = splice (contents d) (lba * block_size) bs ∧
    (if negb (count =? 0) then
       blks ← drv_write lba buf count;
       mret (u32 (lba + blks), buf + u32 (blks * block_size),
             s32 (0 + u32 (blks * block_size)), negb (blks =? count))
     else mret (lba, buf, 0, false)) (m, d) =
    Ok (lba + count, buf + count * block_size, count * block_size, false, (m, d')).
Proof.
  intros Hlba Hl Hc Hsz Hend Hlen Hb Hby. pose proof block_size_pos as Hpos.
  destruct (Z.eqb_spec count 0) as [->|Hne]; simpl.
  - exists d. assert (bs = []) as -> by (apply nil_length_inv; lia). rewrite splice_nil.
    by rewrite !Z.add_0_r.
  - destruct (drv_write_blocks lba buf count m d bs) as (d' & E & Hd'); try done.
    exists d'. split; [done|]. erewrite bind_ok by exact E.
    unfold mret, M_ret. rewrite !u32_small, s32_small, Z.eqb_refl by nia. done.
Qed.

(** The last part of a write: a block is read, changed and written back. *)
Lemma write_tail lba tmp src db m d :
  0 ≤ lba → (lba + 1) * block_size ≤ Z.of_nat (length (contents d)) →
  Z.of_nat (length db) ≤ block_size → bytes_at m src db → Forall is_byte db →
  mapped m tmp block_size → disjoint_blocks src (Z.of_nat (length db)) tmp block_size →
  ∃ m' d', contents d' = splice (contents d) (lba * block_size)
      (db ++ slice (contents d) (lba * block_size + Z.of_nat (length db))
               (block_size - Z.of_nat (length db))) ∧
    (∀ q, ¬ tmp ≤ q < tmp + block_size → m' !! q = m !! q) ∧
    (∀ p k, mapped m p k → mapped m' p k) ∧
    ∀ A (k : M (bmem * D) A),
      (_ ← drv_read lba tmp 1; _ ← on_mem (memcpy tmp src (Z.of_nat (length db)));
       _ ← drv_write lba tmp 1; k) (m, d) = k (m', d').
Proof.
  intros Hlba Hend Hdb Hb Hby Htmp Hdis. pose proof block_size_pos as Hpos.
  set (n := Z.of_nat (length db)) in *. assert (Hl0 : 0 ≤ lba * block_size) by nia.
  set (c := contents d). set (tail := slice c (lba * block_size + n) (block_size - n)).
  set (blk := slice c (lba * block_size) block_size).
  assert (Hblk : blk = slice c (lba * block_size) n ++ tail).
  { unfold blk, tail. replace block_size with (n + (block_size - n)) at 2 by lia.
    apply slice_split; unfold c; lia. }
  assert (Hlblk : Z.of_nat (length blk) = block_size) by (apply slice_length; unfold c; lia).
  assert (Hln : Z.of_nat (length (slice c (lba * block_size) n)) = n)
    by (apply slice_length; unfold c; lia).
  assert (Hlt : Z.of_nat (length tail) = block_size - n) by (apply slice_length; unfold c; lia).
  set (m1 := write_at m tmp blk). set (m2 := write_at m1 tmp db).
  assert (Hm2 : bytes_at m2 tmp (db ++ tail)).
  { apply bytes_at_app. split; [apply write_at_in|]. fold n.
    apply bytes_at_write; [right; fold n; lia|]. pose proof (write_at_in m tmp blk) as H.
    rewrite Hblk in H at 2. apply bytes_at_app in H as [_ H]. by rewrite Hln in H. }
  destruct (drv_write_blocks lba tmp 1 m2 d (db ++ tail)) as (d' & E & Hd'); try done.
  { rewrite length_app. lia. }
  { apply Forall_app. split; [done|]. apply slice_bytes, contents_bytes. }
  exists m2, d'. split_and!; [done|..].
  - intros q Hq. unfold m2, m1. by rewrite !write_at_out by (fold n; lia).
  - intros p k Hp. by do 2 apply mapped_write.
  - intros A k. erewrite bind_ok.
    2: { apply drv_read_blocks; try lia. by rewrite Z.mul_1_l. }
    rewrite Z.mul_1_l. fold c blk m1. erewrite bind_ok.
    2: { apply on_mem_ok, memcpy_run; [|fold n|done|fold n; destruct Hdis; lia].
         - apply bytes_at_write; [|done]. fold n. rewrite Hlblk. destruct Hdis; [left|right]; lia.
         - apply mapped_write. intros q Hq. apply Htmp. lia. }
    fold m2. by erewrite bind_ok by exact E.
Qed.

(** A write that starts at a block boundary: the whole blocks, and then the rest. *)
Lemma write_parts offset lba cnt rest src data tmp m d :
  let size := Z.of_nat (length data) in
  lba * block_size = offset → size = cnt * block_size + rest → 0 ≤ lba → 0 ≤ cnt →
  0 ≤ rest < block_size → size < 2147483648 →
  offset + size ≤ Z.of_nat (length (contents d)) → offset + size < 4294967296 →
  bytes_at m src data → Forall is_byte data → mapped m tmp block_size →
  disjoint_blocks src size tmp block_size →
  ∃ d1 m2 d2,
    (if negb (cnt =? 0) then
       blks ← drv_write lba src cnt;
       mret (u32 (lba + blks), src + u32 (blks * block_size),
             s32 (0 + u32 (blks * block_size)), negb (blks =? cnt))
     else mret (lba, src, 0, false)) (m, d) =
    Ok (lba + cnt, src + cnt * block_size, cnt * block_size, false, (m, d1)) ∧
    (if negb (rest =? 0) then
       _ ← drv_read (lba + cnt) tmp 1;
       _ ← on_mem (memcpy tmp (src + cnt * block_size) rest);
       _ ← drv_write (lba + cnt) tmp 1;
       mret (s32 (cnt * block_size + rest))
     else mret (cnt * block_size)) (m, d1) = Ok (size, (m2, d2)) ∧
    contents d2 = splice (contents d) offset data ∧
    ∀ p k, mapped m p k → mapped m2 p k.
Proof.
  intros size Hlba Hcr H0 H1 Hr Hs Hend Hw Hb Hby Ht Hdis. pose proof block_size_pos as Hpos.
  destruct (cut_at data 0 (cnt * block_size)) as (e & da & db & Edata & He & Hda); [nia..|].
  assert (e = []) as -> by (apply nil_length_inv; lia). simpl in Edata.
  assert (Hdb : Z.of_nat (length db) = rest).
  { pose proof (f_equal length Edata) as HL. rewrite length_app in HL. subst size. lia. }
  rewrite Edata in Hb, Hby. apply bytes_at_app in Hb as [Hba Hbb]. apply Forall_app in Hby as [Hya Hyb].
  destruct (write_blocks lba cnt src m d da) as (d1 & Hd1 & E1); try done; try nia.
  rewrite Hlba in Hd1. exists d1.
  assert (Hl1 : length (contents d1) = length (contents d)) by (rewrite Hd1; apply splice_length; nia).
  destruct (Z.eqb_spec rest 0) as [Hz|Hnz].
  - exists m, d1. assert (db = []) as -> by (apply nil_length_inv; lia).
    rewrite Edata, app_nil_r. split_and!; try done. simpl. unfold mret, M_ret. do 3 f_equal. lia.
  - assert (Hroom : (lba + cnt + 1) * block_size ≤ Z.of_nat (length (contents d)))
      by (apply (block_room d offset size); nia).
    destruct (write_tail (lba + cnt) tmp (src + cnt * block_size) db m d1)
      as (m' & d' & Hd' & _ & Hm' & Ek); try done; try lia.
    { by rewrite <- Hda. }
    { destruct Hdis; [left|right]; nia. }
    exists m', d'. split_and!; [done| |rewrite Hd'|done]; simpl.
    + rewrite <- Hdb, Ek. unfold mret, M_ret. rewrite s32_small by nia. by rewrite Hdb, <- Hcr.
    + rewrite Edata, Hd1. replace ((lba + cnt) * block_size) with (offset + Z.of_nat (length da)) by lia.
      apply splice_tail; nia.
Qed.

Lemma disk_write_aligned offset src data tmp1 tmp2 m d :
  let size := Z.of_nat (length data) in
  0 ≤ offset → size < 2147483648 → offset + size ≤ Z.of_nat (length (contents d)) →
  offset + size < 4294967296 → offset mod block_size = 0 →
  bytes_at m src data → Forall is_byte data → mapped m tmp2 block_size →
  disjoint_blocks src size tmp2 block_size →
  ∃ m' d', disk_write offset src size tmp1 tmp2 (m, d) = Ok (size, (m', d')) ∧
    contents d' = splice (contents d) offset data ∧
    ∀ p k, mapped m p k → mapped m' p k.
Proof.
  intros size Ho Hs Hend Hw Hal Hb Hby Ht2 Hdis. pose proof block_size_pos as Hpos.
  destruct (aligned_split offset size) as (lba & cnt & rest & El & Ec & Er & Hlba & Hcr & H0 & H1 & Hr);
    [lia..|done|].
  destruct (write_parts offset lba cnt rest src data tmp2 m d) as (d1 & m2 & d2 & E1 & E2 & Hc & Hm);
    try done.
  exists m2, d2. split; [|done]. unfold disk_write. destruct (Z.eqb_spec block_size 0); [lia|].
  rewrite El, Hal. simpl. rewrite Z.add_0_r, (u32_small size) by lia. rewrite Er.
  rewrite u32_small by lia. replace (size - rest) with (cnt * block_size) by lia.
  rewrite Z.div_mul by lia. rewrite s32_small by nia.
  erewrite bind_ok by reflexivity. simpl. erewrite bind_ok by exact E1. exact E2.
Qed.
End disk_proofs.

(** ** Theorems *)

(** [disk_read] at a block boundary, or inside one block, fills the buffer with
    exactly the bytes of the disk from [offset] to [offset + size], for any driver
    that meets [BlockDevice]; apart from the buffer and its temporary block no byte
    of memory changes, and the disk does not change. *)
Theorem disk_read_correct {D : Type} `{HB : BlockDevice D} (offset buf size tmp1 tmp2 : Z)
    (m : bmem) (d : D)
    (Ho : 0 ≤ offset) (Hs : 0 ≤ size < 2147483648)
    (Hend : offset + size ≤ Z.of_nat (length (contents d)))
    (Hwhere : offset mod block_size_of D = 0 ∨
              offset mod block_size_of D + size ≤ block_size_of D)
    (Hbuf : mapped m buf size)
    (Ht1 : mapped m tmp1 (block_size_of D)) (Ht2 : mapped m tmp2 (block_size_of D))
    (Hd1 : disjoint_blocks buf size tmp1 (block_size_of D))
    (Hd2 : disjoint_blocks buf size tmp2 (block_size_of D)) :
  ∃ r m', disk_read offset buf size tmp1 tmp2 (m, d) = Ok (r, (m', d)) ∧
    bytes_at m' buf (slice (contents d) offset size) ∧
    ∀ q, ¬ buf ≤ q < buf + size → ¬ tmp1 ≤ q < tmp1 + block_size_of D →
         ¬ tmp2 ≤ q < tmp2 + block_size_of D → m' !! q = m !! q.
Proof.
  destruct (decide (offset mod block_size_of D = 0)) as [Hal|Hal].
  - destruct (disk_read_aligned offset buf size tmp1 tmp2 m d) as (m' & E & Hb & Hf & _);
      try done; [lia|]. eexists _, m'. split_and!; [exact E|done|]. intros q Hq _ Hq2. by apply Hf.
  - destruct (disk_read_inside offset buf size tmp1 tmp2 m d) as (m' & E & Hb & Hf & _);
      try done; [naive_solver|]. eexists _, m'. split_and!; [exact E|done|].
    intros q Hq Hq1 _. by apply Hf.
Qed.

(** What [disk_write] writes at a block boundary is what [disk_read] reads back,
    also when the length is not a whole number of blocks, and the rest of the disk
    keeps its contents.  [disk_write] returns the number of bytes written. *)
Theorem disk_write_read {D : Type} `{HB : BlockDevice D} (offset src dst tmp1 tmp2 : Z)
    (data : list Z) (m : bmem) (d : D)
    (Ho : 0 ≤ offset) (Hs : Z.of_nat (length data) < 2147483648)
    (Hend : offset + Z.of_nat (length data) ≤ Z.of_nat (length (contents d)))
    (Hw : offset + Z.of_nat (length data) < 4294967296)
    (Hal : offset mod block_size_of D = 0)
    (Hsrc : bytes_at m src data) (Hby : Forall is_byte data)
    (Hdst : mapped m dst (Z.of_nat (length data))) (Ht2 : mapped m tmp2 (block_size_of D))
    (Hd1 : disjoint_blocks src (Z.of_nat (length data)) tmp2 (block_size_of D))
    (Hd2 : disjoint_blocks dst (Z.of_nat (length data)) tmp2 (block_size_of D)) :
  ∃ m1 d1 r m2,
    disk_write offset src (Z.of_nat (length data)) tmp1 tmp2 (m, d) =
      Ok (Z.of_nat (length data), (m1, d1)) ∧
    contents d1 = splice (contents d) offset data ∧
    disk_read offset dst (Z.of_nat (length data)) tmp1 tmp2 (m1, d1) = Ok (r, (m2, d1)) ∧
    bytes_at m2 dst data.
Proof.
  destruct (disk_write_aligned offset src data tmp1 tmp2 m d) as (m1 & d1 & E1 & Hc & Hmap);
    try done.
  assert (Hl : length (contents d1) = length (contents d)) by (rewrite Hc; by apply splice_length).
  destruct (disk_read_aligned offset dst (Z.of_nat (length data)) tmp1 tmp2 m1 d1)
    as (m2 & E2 & Hb & _); try done; try lia; [by apply Hmap..|].
  eexists m1, d1, _, m2. split_and!; [done|done|exact E2|].
  rewrite Hc, splice_slice in Hb by done. done.
Qed.

(** ** A driver that meets the interface *)

(** A disk of [k]-byte blocks kept as a list. *)
Definition listdisk (k : positive) : Type := list Z.

Definition whole_blocks {k} (d : listdisk k) : list Z :=
  u8 <$> take (length d / Pos.to_nat k * Pos.to_nat k) d.

Definition read_mem (m : bmem) (p : Z) (n : nat) : list Z :=
  (λ i, default 0 (m !! (p + Z.of_nat i))) <$> seq 0 n.

#[export] Instance listdisk_driver k : DiskDriver (listdisk k) := {
  drv_block_size := Z.pos k;
  drv_read lba buf n := λ '(m, d),
    Ok (n, (write_at m buf (slice (whole_blocks d) (lba * Z.pos k) (n * Z.pos k)), d));
  drv_write lba buf n := λ '(m, d),
    Ok (n, (m, splice (whole_blocks d) (lba * Z.pos k) (read_mem m buf (Z.to_nat (n * Z.pos k)))))
}.

Lemma whole_blocks_bytes {k} (d : listdisk k) : Forall is_byte (whole_blocks d).
Proof.
  apply Forall_fmap, Forall_true. intros x. by apply Z.mod_pos_bound.
Qed.

Lemma whole_blocks_length {k} (d : listdisk k) :
  length (whole_blocks d) = (length d / Pos.to_nat k * Pos.to_nat k)%nat.
Proof.
  unfold whole_blocks. rewrite length_fmap, length_take.
  pose proof (Nat.Div0.mul_div_le (length d) (Pos.to_nat k)). lia.
Qed.

Lemma whole_blocks_mod {k} (d : listdisk k) : Z.of_nat (length (whole_blocks d)) mod Z.pos k = 0.
Proof. rewrite whole_blocks_length, Nat2Z.inj_mul, positive_nat_Z. apply Z.mod_mul. lia. Qed.

Lemma whole_blocks_id k (l : list Z) : Forall is_byte l → Z.of_nat (length l) mod Z.pos k = 0 →
  whole_blocks (k := k) l = l.
Proof.
  intros Hb Hl. unfold whole_blocks.
  replace (length l / Pos.to_nat k * Pos.to_nat k)%nat with (length l).
  2: { rewrite <- positive_nat_Z, <- Nat2Z.inj_mod in Hl.
       pose proof (Nat.div_mod (length l) (Pos.to_nat k)). lia. }
  rewrite firstn_all. rewrite <- (list_fmap_id l) at 2. apply list_fmap_ext. intros i x Hx.
  apply u8_small. by eapply Forall_lookup_1 in Hb.
Qed.

Lemma read_mem_bytes m p bs : bytes_at m p bs → read_mem m p (length bs) = bs.
Proof.
  intros H. apply list_eq. intros i. unfold read_mem. rewrite list_lookup_fmap.
  destruct (bs !! i) as [b|] eqn:E.
  - rewrite lookup_seq_lt by (by eapply lookup_lt_Some). simpl. by rewrite (H i b E).
  - apply lookup_ge_None in E. by rewrite lookup_seq_ge.
Qed.

#[export] Instance listdisk_device k : BlockDevice (listdisk k).
Proof.
  refine {| contents := whole_blocks |}.
  - done.
  - apply whole_blocks_bytes.
  - apply whole_blocks_mod.
  - done.
  - intros lba buf n m d bs Hlba Hend Hlen Hb Hby. eexists. split; [reflexivity|]. simpl in *.
    rewrite <- Hlen, Nat2Z.id, read_mem_bytes by done. apply whole_blocks_id.
    + unfold splice. repeat apply Forall_app_2; [by apply Forall_take, whole_blocks_bytes|done|].
      by apply Forall_drop, whole_blocks_bytes.
    + rewrite splice_length by lia. apply whole_blocks_mod.
Defined.

Notation blockdisk := (listdisk 4).

Definition demo_disk : blockdisk := [1; 2; 3; 4; 5; 6; 7; 8; 9; 10; 11; 12].

Definition demo_buffers : bmem := write_at ∅ 100 (replicate 40 0).

Lemma demo_buffers_mapped p n : 100 ≤ p → p + n ≤ 140 → mapped demo_buffers p n.
Proof.
  intros Hp Hn q Hq. apply (bytes_at_mapped demo_buffers 100 _ (write_at_in ∅ 100 _)). simpl. lia.
Qed.

Lemma disk_read_correct_witness :
  slice (contents demo_disk) 4 6 = [5; 6; 7; 8; 9; 10] ∧
  ∃ r m', disk_read 4 100 6 120 130 (demo_buffers, demo_disk) = Ok (r, (m', demo_disk)) ∧
    bytes_at m' 100 (slice (contents demo_disk) 4 6) ∧
    ∀ q, ¬ 100 ≤ q < 100 + 6 → ¬ 120 ≤ q < 120 + block_size_of blockdisk →
         ¬ 130 ≤ q < 130 + block_size_of blockdisk → m' !! q = demo_buffers !! q.
Proof.
  split; [reflexivity|].
  apply (disk_read_correct 4 100 6 120 130 demo_buffers demo_disk).
  - lia.
  - lia.
  - vm_compute. discriminate.
  - left. reflexivity.
  - apply demo_buffers_mapped; lia.
  - apply demo_buffers_mapped; simpl; lia.
  - apply demo_buffers_mapped; simpl; lia.
  - left. lia.
  - left. lia.
Defined.

Lemma disk_write_read_witness :
  splice (contents demo_disk) 4 (replicate 6 0) = [1; 2; 3; 4; 0; 0; 0; 0; 0; 0; 11; 12] ∧
  ∃ m1 d1 r m2,
    disk_write 4 100 (Z.of_nat (length (replicate 6 0))) 120 130 (demo_buffers, demo_disk) =
      Ok (Z.of_nat (length (replicate 6 0)), (m1, d1)) ∧
    contents d1 = splice (contents demo_disk) 4 (replicate 6 0) ∧
    disk_read 4 110 (Z.of_nat (length (replicate 6 0))) 120 130 (m1, d1) = Ok (r, (m2, d1)) ∧
    bytes_at m2 110 (replicate 6 0).
Proof.
  split; [reflexivity|].
  apply (disk_write_read 4 100 110 120 130 (replicate 6 0) demo_buffers demo_disk).
  - lia.
  - vm_compute. reflexivity.
  - vm_compute. discriminate.
  - vm_compute. reflexivity.
  - reflexivity.
  - pose proof (write_at_in ∅ 100 (replicate 40 0)) as H.
    change (replicate 40 0) with (replicate 6 0 ++ replicate 34 0) in H at 2.
    apply bytes_at_app in H. apply H.
  - repeat constructor; unfold is_byte; lia.
  - apply demo_buffers_mapped; simpl; lia.
  - apply demo_buffers_mapped; simpl; lia.
  - left. simpl. lia.
  - left. simpl. lia.
Defined.
