(* ===== verification/AtaSpec.v ===== *)
(** * What the ATA driver does to a drive

    The registers of a drive are a function of what was written to its ports; the class
    [AtaDevice] states what the ATA standard says a drive answers, and the theorems what
    the driver reads, from which sectors. *)
From S2P Require Import Prelude LibK Sync Disk Ports Ata.

(** ** The drive as its ports show it *)

Record regs := Regs { r_count : Z; r_lba0 : Z; r_lba1 : Z; r_lba2 : Z; r_dev : Z }.

(** The registers, the last command with the registers at that time, the number of words
    read since then, and all the words and all the commands the drive was sent. *)
Record view := View { v_regs : regs; v_cmd : option (Z * regs); v_in : Z; v_out : list Z * list Z }.

Definition set_reg (k x : Z) (r : regs) : regs :=
  if k =? 2 then Regs x (r_lba0 r) (r_lba1 r) (r_lba2 r) (r_dev r)
  else if k =? 3 then Regs (r_count r) x (r_lba1 r) (r_lba2 r) (r_dev r)
  else if k =? 4 then Regs (r_count r) (r_lba0 r) x (r_lba2 r) (r_dev r)
  else if k =? 5 then Regs (r_count r) (r_lba0 r) (r_lba1 r) x (r_dev r)
  else if k =? 6 then Regs (r_count r) (r_lba0 r) (r_lba1 r) (r_lba2 r) x
  else r.

Definition view_step (base : Z) (e : io) (v : view) : view :=
  match e with
  | OutB p x =>
    if p =? base + 7 then View (v_regs v) (Some (x, v_regs v)) 0 ((v_out v).1, (v_out v).2 ++ [x])
    else View (set_reg (p - base) x (v_regs v)) (v_cmd v) (v_in v) (v_out v)
  | InW p _ => if p =? base then View (v_regs v) (v_cmd v) (v_in v + 1) (v_out v) else v
  | OutW p x =>
    if p =? base then View (v_regs v) (v_cmd v) (v_in v) ((v_out v).1 ++ [x], (v_out v).2)
    else if p =? base + 7 then View (v_regs v) (Some (u8 x, v_regs v)) 0 ((v_out v).1, (v_out v).2 ++ [u8 x])
    else v
  | _ => v
  end.

Definition view_of (base : Z) (tr : list io) : view :=
  foldr (view_step base) (View (Regs 0 0 0 0 0) None 0 ([], [])) tr.

(** A 28-bit address; a count of 0 stands for 256. *)
Definition lba28 (r : regs) : Z := r_lba0 r + 256 * r_lba1 r + 65536 * r_lba2 r + 16777216 * (r_dev r mod 16).
Definition sectors (r : regs) : Z := if r_count r =? 0 then 256 else r_count r.

Section device.
Context `{!Devices}.

Definition status (base : Z) (tr : list io) : Z := u8 (answer8 tr (base + 7)).
Definition busy (base : Z) (tr : list io) : Prop := Z.land (status base tr) 128 ≠ 0.

(** After [k] more looks at the status. *)
Fixpoint looks (base : Z) (k : nat) (tr : list io) : list io :=
  match k with O => tr | S k => looks base k (InB (base + 7) (status base tr) :: tr) end.

(** A read of sectors is going on and [n] words have been taken. *)
Definition reading (base : Z) (r : regs) (n : Z) (tr : list io) : Prop :=
  v_cmd (view_of base tr) = Some (ATA_CMD_READ_SECTORS, r) ∧ v_in (view_of base tr) = n.

(** The drive at [base] holds the bytes [disk] and answers without errors: it is busy for
    less than [patience] looks, during a read it asks to be read, and the words it gives
    are those of the sectors addressed. *)
Class AtaDevice (base : Z) (disk : list Z) (patience : nat) : Prop := {
  bsy_clears : ∀ tr, ∃ k, (k < patience)%nat ∧ (∀ j, (j < k)%nat → busy base (looks base j tr)) ∧ ¬ busy base (looks base k tr);
  read_ready : ∀ r n tr, reading base r n tr → n < 256 * sectors r → ¬ busy base tr →
    Z.land (status base tr) 1 = 0 ∧ Z.land (status base tr) 32 = 0 ∧ Z.land (status base tr) 8 ≠ 0;
  read_data : ∀ r n tr, reading base r n tr → 0 ≤ n < 256 * sectors r →
    512 * lba28 r + 2 * n + 2 ≤ Z.of_nat (length disk) → answer16 tr base = u16_at disk (512 * lba28 r + 2 * n)
}.
End device.

(** ** Waiting *)

Section drive.
Context `{!Devices} (base : Z) (disk : list Z) (patience : nat).
Context `{!AtaDevice base disk patience}.
Hypothesis base_port : 0 ≤ base < 65500.
Hypothesis disk_bytes : Forall is_byte disk.

(** The drive's view does not change. *)
Definition quiet {A} (c : M (list io) A) (a : A → Prop) : Prop :=
  ∀ tr, ∃ x tr', c tr = Ok (x, tr') ∧ a x ∧ view_of base tr' = view_of base tr.

Lemma quiet_bind {A B} (c : M (list io) A) (f : A → M (list io) B) P Q :
  quiet c P → (∀ x, P x → quiet (f x) Q) → quiet (c ≫= f) Q.
Proof.
  intros Hc Hf tr. destruct (Hc tr) as (x & tr1 & E1 & Hx & V1). destruct (Hf x Hx tr1) as (y & tr2 & E2 & Hy & V2).
  exists y, tr2. rewrite (bind_ok _ _ _ _ _ E1). split_and!; [done..|congruence].
Qed.

Lemma in_quiet p : quiet (port_byte_in p) (λ _, True).
Proof. intros tr. do 2 eexists. split; [reflexivity|]. split; reflexivity. Qed.

Lemma wait_quiet : quiet (ata_wait base) (λ _, True).
Proof. unfold ata_wait. do 4 (eapply quiet_bind; [apply in_quiet|intros _ _]). intros tr. by exists tt, tr. Qed.

Lemma wait5_quiet : quiet (ata_wait5 base) (λ _, True).
Proof. unfold ata_wait5. do 4 (eapply (quiet_bind (ata_wait base)); [apply wait_quiet|intros _ _]). apply wait_quiet. Qed.

Lemma looks_view k tr : view_of base (looks base k tr) = view_of base tr.
Proof. revert tr. induction k as [|k IH]; intros tr; simpl; [done|]. by rewrite IH. Qed.

Lemma status_in tr : port_byte_in (base + ATA_REG_STATUS) tr = Ok (status base tr, InB (base + 7) (status base tr) :: tr).
Proof. unfold port_byte_in, ATA_REG_STATUS. by rewrite u16_small by lia. Qed.

Lemma clear_bsy_loop k : ∀ tr fuel, (k < fuel)%nat → (∀ j, (j < k)%nat → busy base (looks base j tr)) → ¬ busy base (looks base k tr) →
  loop fuel (λ _ : unit, ret ← port_byte_in (base + ATA_REG_STATUS);
    if negb (Z.land ret ATA_STATUS_BSY =? 0) then mret (inl tt) else mret (inr ret)) tt tr =
  Ok (status base (looks base k tr), looks base (S k) tr).
Proof.
  induction k as [|k IH]; intros tr [|fuel] Hf Hb Hn; try lia.
  - apply loop_done. rewrite (bind_ok _ _ _ _ _ (status_in tr)). unfold busy in Hn. simpl in *. unfold ATA_STATUS_BSY.
    destruct (Z.eqb_spec (Z.land (status base tr) 128) 0); [done|by destruct Hn].
  - erewrite loop_next. 2: { rewrite (bind_ok _ _ _ _ _ (status_in tr)). pose proof (Hb 0%nat ltac:(lia)) as H0. unfold busy in H0. simpl in H0.
      unfold ATA_STATUS_BSY. by destruct (Z.eqb_spec (Z.land (status base tr) 128) 0). }
    rewrite (IH _ fuel); [done|lia| |done]. intros j Hj. apply (Hb (S j)). lia.
Qed.

Lemma clear_bsy_run tr : ∃ tr0 tr', ata_wait_clear_bsy patience base tr = Ok (status base tr0, tr') ∧ ¬ busy base tr0 ∧
  view_of base tr0 = view_of base tr ∧ view_of base tr' = view_of base tr.
Proof.
  destruct (bsy_clears tr) as (k & Hk & Hb & Hn). exists (looks base k tr), (looks base (S k) tr).
  split; [by apply clear_bsy_loop|]. by rewrite !looks_view.
Qed.

Lemma polling_quiet : quiet (ata_polling patience base false) (λ r, r = 0).
Proof.
  intros tr. destruct (wait_quiet tr) as ([] & tr1 & Hw & _ & V1). destruct (clear_bsy_run tr1) as (tr0 & tr2 & Hb & _ & _ & V2).
  exists 0, tr2. unfold ata_polling. rewrite (bind_ok _ _ _ _ _ Hw), (bind_ok _ _ _ _ _ Hb). split_and!; [done..|congruence].
Qed.

(** During a read the drive is ready. *)
Lemma polling_ready r n tr : reading base r n tr → n < 256 * sectors r →
  ∃ tr', ata_polling patience base true tr = Ok (0, tr') ∧ view_of base tr' = view_of base tr.
Proof.
  intros [Hr1 Hr2] Hn. destruct (wait_quiet tr) as ([] & tr1 & Hw & _ & V1). destruct (clear_bsy_run tr1) as (tr0 & tr2 & Hb & Hnb & V0 & V2).
  exists tr2. split; [|congruence]. unfold ata_polling. rewrite (bind_ok _ _ _ _ _ Hw), (bind_ok _ _ _ _ _ Hb).
  destruct (read_ready r n tr0) as (He & Hd & Hq); [split; congruence|done|done|].
  unfold ATA_STATUS_ERR, ATA_STATUS_DF, ATA_STATUS_DRQ. rewrite He, Hd. simpl. by destruct (Z.eqb_spec (Z.land (status base tr0) 8) 0).
Qed.

(** ** Reading sectors *)

Definition with_io (m : bmem) (tr : list io) (s : ata) : ata :=
  Ata m (at_drives s) (at_selected_mode s) (at_selected_drive s) (at_lock s) (at_errno s) tr.

Lemma run_ports {A} (c : M (list io) A) s a tr : c (at_io s) = Ok (a, tr) → on_ports c s = Ok (a, with_io (at_mem s) tr s).
Proof. unfold on_ports. by intros ->. Qed.

Lemma ports_seq {A B C} (c : M (list io) A) (c' : M (list io) B) (k : B → M ata C) s x tr :
  (_ ← c; c') (at_io s) = Ok (x, tr) → (_ ← on_ports c; y ← on_ports c'; k y) s = k x (with_io (at_mem s) tr s).
Proof.
  unfold mbind, M_bind, on_ports. destruct (c (at_io s)) as [[a tr1]| |]; try done. simpl.
  by destruct (c' tr1) as [[b tr2]| |]; intros [= <- <-].
Qed.

Lemma run_ram {A} (c : M bmem A) s a m : c (at_mem s) = Ok (a, m) → on_ram c s = Ok (a, with_io m (at_io s) s).
Proof. unfold on_ram. by intros ->. Qed.

Lemma slice_word k n : 0 ≤ k → 0 ≤ n → k + n + 2 ≤ Z.of_nat (length disk) →
  slice disk k (n + 2) = slice disk k n ++ [u8 (u16_at disk (k + n)); u8 (u16_at disk (k + n) / 256)].
Proof.
  intros Hk Hn Hl. rewrite slice_split by lia. f_equal. unfold u16_at.
  pose proof (byte_at_range disk (k + n) disk_bytes). pose proof (byte_at_range disk (k + n + 1) disk_bytes). unfold is_byte in *.
  apply list_eq. intros i. rewrite slice_lookup by lia.
  assert (E : ∀ j, 0 ≤ j < Z.of_nat (length disk) → disk !! Z.to_nat j = Some (byte_at disk j)).
  { intros j Hj. unfold byte_at. destruct (lookup_lt_is_Some_2 disk (Z.to_nat j)) as [b ->]; [lia|done]. }
  assert (E1 : u8 (byte_at disk (k + n) + 256 * byte_at disk (k + n + 1)) = byte_at disk (k + n)) by (unfold u8; Z.to_euclidean_division_equations; lia).
  assert (E2 : u8 ((byte_at disk (k + n) + 256 * byte_at disk (k + n + 1)) / 256) = byte_at disk (k + n + 1)).
  { unfold u8. Z.to_euclidean_division_equations. lia. }
  rewrite E1, E2. destruct i as [|[|i]]; simpl.
  - rewrite Nat.add_0_r. apply E. lia.
  - replace (Z.to_nat (k + n) + 1)%nat with (Z.to_nat (k + n + 1)) by lia. apply E. lia.
  - rewrite decide_False by lia. done.
Qed.

(** The body of the loop over the words of a sector. *)
Lemma read_words_loop r off buf m s0 j : ∀ i tr,
  i + Z.of_nat j = 256 → 0 ≤ i → reading base r (off + i) tr → 0 ≤ off → off + 256 ≤ 256 * sectors r →
  512 * lba28 r + 2 * (off + 256) ≤ Z.of_nat (length disk) → 0 ≤ lba28 r → mapped m buf 512 →
  ∃ tr', loop (S j) (λ i,
      if i <? 256 then
        data ← on_ports (port_word_in (base + ATA_REG_DATA));
        _ ← on_ram (store16 (buf + 2 * i) data);
        mret (inl (i + 1))
      else mret (inr tt)) i (with_io (write_at m buf (slice disk (512 * lba28 r + 2 * off) (2 * i))) tr s0)
    = Ok (tt, with_io (write_at m buf (slice disk (512 * lba28 r + 2 * off) 512)) tr' s0) ∧
    view_of base tr' = View (v_regs (view_of base tr)) (v_cmd (view_of base tr)) (off + 256) (v_out (view_of base tr)).
Proof.
  induction j as [|j IH]; intros i tr Hij Hi [Hr1 Hr2] Ho Hs Hl Hlba Hm.
  - replace i with 256 in * by lia. exists tr. split; [by apply loop_done|]. destruct (view_of base tr). simpl in *. by subst.
  - assert (Hd : answer16 tr base = u16_at disk (512 * lba28 r + 2 * (off + i))) by (apply read_data; [by split|lia|lia]).
    set (w := u16_at disk (512 * lba28 r + 2 * off + 2 * i)). set (s := with_io _ tr s0).
    assert (Hin : port_word_in (base + ATA_REG_DATA) (at_io s) = Ok (w, InW base w :: tr)).
    { unfold port_word_in, ATA_REG_DATA. rewrite Z.add_0_r, (u16_small base) by lia. simpl. rewrite Hd.
      replace (512 * lba28 r + 2 * (off + i)) with (512 * lba28 r + 2 * off + 2 * i) by lia. fold w.
      rewrite u16_small by (by apply u16_at_range). done. }
    erewrite loop_next.
    2: { destruct (Z.ltb_spec i 256); [|lia]. rewrite (bind_ok _ _ _ _ _ (run_ports _ _ _ _ Hin)).
      rewrite (bind_ok _ _ _ tt (with_io (write_at m buf (slice disk (512 * lba28 r + 2 * off) (2 * (i + 1)))) (InW base w :: tr) s0)); [done|].
      erewrite run_ram; [reflexivity|]. cbn [at_mem with_io s]. rewrite store16_run.
      - do 2 f_equal. replace (2 * (i + 1)) with (2 * i + 2) by lia. rewrite slice_word by lia. fold w.
        rewrite <- write_at_app_l, slice_length by lia. done.
      - apply mapped_write. intros q Hq. apply Hm. lia. }
    destruct (IH (i + 1) (InW base w :: tr)) as (tr' & Hrun & Hv); try lia; try done.
    + split; simpl; rewrite Z.eqb_refl; simpl; [done|lia].
    + exists tr'. split; [exact Hrun|]. rewrite Hv. simpl. by rewrite Z.eqb_refl.
Qed.

Lemma read_words_run r off buf s :
  reading base r off (at_io s) → 0 ≤ off → off + 256 ≤ 256 * sectors r → 0 ≤ lba28 r →
  512 * lba28 r + 2 * (off + 256) ≤ Z.of_nat (length disk) → mapped (at_mem s) buf 512 →
  ∃ tr', read_words base buf s = Ok (tt, with_io (write_at (at_mem s) buf (slice disk (512 * lba28 r + 2 * off) 512)) tr' s) ∧
    view_of base tr' = View (v_regs (view_of base (at_io s))) (v_cmd (view_of base (at_io s))) (off + 256) (v_out (view_of base (at_io s))).
Proof.
  intros Hr Ho Hs Hlba Hl Hm. unfold read_words.
  edestruct (read_words_loop r off buf (at_mem s) s 256 0 (at_io s)) as (tr' & Hrun & Hv); try done; [by rewrite Z.add_0_r|].
  exists tr'. split; [|exact Hv]. rewrite <- Hrun. by destruct s.
Qed.

(** An operation on the ports that the drive does not see. *)
Lemma ports_quiet {A} (c : M (list io) A) P s : quiet c P →
  ∃ x tr, on_ports c s = Ok (x, with_io (at_mem s) tr s) ∧ P x ∧ view_of base tr = view_of base (at_io s).
Proof. intros Hc. destruct (Hc (at_io s)) as (x & tr & E & Hx & V). exists x, tr. by rewrite (run_ports _ _ _ _ E). Qed.

Lemma flush_quiet : quiet (port_byte_out (base + ATA_REG_DATA) ATA_CMD_CACHE_FLUSH) (λ _, True).
Proof.
  intros tr. do 2 eexists. split; [reflexivity|]. split; [done|]. unfold ATA_REG_DATA. rewrite Z.add_0_r, u16_small by lia. simpl.
  destruct (Z.eqb_spec base (base + 7)); [lia|]. rewrite Z.sub_diag. by destruct (view_of base tr).
Qed.

(** What happens after the words of a sector. *)
Lemma sector_end s :
  ∃ tr, (_ ← on_ports (ata_wait base); _ ← on_ports (ata_polling patience base false);
         _ ← on_ports (port_byte_out (base + ATA_REG_DATA) ATA_CMD_CACHE_FLUSH);
         on_ports (ata_polling patience base false)) s = Ok (0, with_io (at_mem s) tr s) ∧ view_of base tr = view_of base (at_io s).
Proof.
  destruct (ports_quiet _ _ s wait_quiet) as ([] & tr1 & E1 & _ & V1). rewrite (bind_ok _ _ _ _ _ E1).
  edestruct (ports_quiet _ _ (with_io (at_mem s) tr1 s) polling_quiet) as (x2 & tr2 & E2 & _ & V2). rewrite (bind_ok _ _ _ _ _ E2).
  edestruct (ports_quiet _ _ (with_io (at_mem s) tr2 s) flush_quiet) as (x3 & tr3 & E3 & _ & V3). simpl in E3. rewrite (bind_ok _ _ _ _ _ E3).
  edestruct (ports_quiet _ _ (with_io (at_mem s) tr3 s) polling_quiet) as (x4 & tr4 & E4 & -> & V4). exists tr4.
  split; [exact E4|]. simpl in *. congruence.
Qed.

Lemma read_sectors_loop r m buf N s0 j : ∀ k tr,
  k + Z.of_nat j = N → 0 ≤ k → reading base r (256 * k) tr → N ≤ sectors r → 0 ≤ lba28 r →
  512 * (lba28 r + N) ≤ Z.of_nat (length disk) → mapped m buf (512 * N) →
  ∃ tr', loop (S j) (λ '(cnt, buffer),
    if negb (cnt =? 0) then
      poll_ret ← on_ports (ata_polling patience base true);
      if negb (poll_ret =? 0) && (poll_ret =? - ATA_ERROR_ABRT) then
        _ ← on_ports (ata_wait5 base);
        mret (inr (buffer, true))
      else
        _ ← read_words base buffer;
        _ ← on_ports (ata_wait base);
        _ ← on_ports (ata_polling patience base false);
        _ ← on_ports (port_byte_out (base + ATA_REG_DATA) ATA_CMD_CACHE_FLUSH);
        _ ← on_ports (ata_polling patience base false);
        mret (inl (cnt - 1, buffer + 512))
    else mret (inr (buffer, false))) (Z.of_nat j, buf + 512 * k)
      (with_io (write_at m buf (slice disk (512 * lba28 r) (512 * k))) tr s0)
    = Ok (buf + 512 * N, false, with_io (write_at m buf (slice disk (512 * lba28 r) (512 * N))) tr' s0) ∧
    v_regs (view_of base tr') = v_regs (view_of base tr).
Proof.
  induction j as [|j IH]; intros k tr Hkj Hk [Hr1 Hr2] HN Hlba Hl Hm.
  { replace k with N in * by lia. exists tr. split; [by apply loop_done|done]. }
  destruct (polling_ready r (256 * k) tr) as (tr1 & E1 & V1); [by split|lia|].
  set (s1 := with_io (write_at m buf (slice disk (512 * lba28 r) (512 * k))) tr1 s0).
  destruct (read_words_run r (256 * k) (buf + 512 * k) s1) as (tr2 & E2 & V2); try lia.
  { split; simpl; congruence. }
  { apply mapped_write. intros q Hq. apply Hm. lia. }
  set (s2 := with_io _ tr2 s1) in E2. destruct (sector_end s2) as (tr3 & E3 & V3).
  assert (Hmem : at_mem s2 = write_at m buf (slice disk (512 * lba28 r) (512 * (k + 1)))).
  { simpl. replace (512 * (k + 1)) with (512 * k + 512) by lia. rewrite (slice_split _ _ (512 * k)) by lia.
    rewrite <- write_at_app_l, slice_length by lia. by replace (2 * (256 * k)) with (512 * k) by lia. }
  edestruct (IH (k + 1) tr3) as (tr' & E & V); try done; try lia.
  { split; rewrite V3; simpl; rewrite V2; simpl; [by rewrite V1|lia]. }
  exists tr'. split; [|by rewrite V, V3; simpl; rewrite V2; simpl; rewrite V1].
  rewrite <- E. apply loop_next. destruct (Z.eqb_spec (Z.of_nat (S j)) 0); [lia|]. cbn [negb].
  rewrite (bind_ok _ _ _ 0 s1) by (apply (run_ports _ (with_io _ tr s0)), E1). cbn [Z.eqb negb andb]. rewrite (bind_ok _ _ _ _ _ E2).
  revert E3. unfold mbind, M_bind. fold s2. destruct (on_ports (ata_wait base) s2) as [[? ?]| |]; try done.
  destruct (on_ports (ata_polling _ _ _) _) as [[? ?]| |]; try done. destruct (on_ports (port_byte_out _ _) _) as [[? ?]| |]; try done.
  intros ->. rewrite Hmem. unfold mret, M_ret. replace (Z.of_nat (S j) - 1) with (Z.of_nat j) by lia.
  by replace (buf + 512 * k + 512) with (buf + 512 * (k + 1)) by lia.
Qed.

Lemma read_sectors_run r buf count s :
  reading base r 0 (at_io s) → 0 ≤ count ≤ sectors r → 0 ≤ lba28 r →
  512 * (lba28 r + count) ≤ Z.of_nat (length disk) → mapped (at_mem s) buf (512 * count) →
  ∃ tr, read_sectors patience base (Z.to_nat count) buf s =
    Ok (buf + 512 * count, false, with_io (write_at (at_mem s) buf (slice disk (512 * lba28 r) (512 * count))) tr s).
Proof.
  intros Hr Hc Hl Hlen Hm. destruct (read_sectors_loop r (at_mem s) buf count s (Z.to_nat count) 0 (at_io s)) as (tr & E & _); [lia|lia|done|lia|done|done|done|].
  exists tr. rewrite <- E. replace (buf + 512 * 0) with buf by lia. by destruct s.
Qed.

(** ** The address *)

Lemma view_reg k x tr : 1 ≤ k ≤ 6 → view_of base (OutB (u16 (base + k)) x :: tr) =
  View (set_reg k x (v_regs (view_of base tr))) (v_cmd (view_of base tr)) (v_in (view_of base tr)) (v_out (view_of base tr)).
Proof.
  intros Hk. rewrite u16_small by lia. simpl. destruct (Z.eqb_spec (base + k) (base + 7)); [lia|]. by replace (base + k - base) with k by lia.
Qed.

(** The registers when the command is given. *)
Definition programmed (lba count dev : Z) : regs := Regs (u8 count) (u8 lba) (u8 (Z.shiftr lba 8)) (u8 (Z.shiftr lba 16)) dev.

Lemma u8_u8 x : u8 (u8 x) = u8 x.
Proof. apply Z.mod_mod. lia. Qed.

Lemma ata_send_run d lba count tr : ad_base d = base → ad_mode d = ATA_MODE_LBA28 →
  ∃ tr', (_ ← clear_error base; ata_send_sec_and_lba d lba count) tr = Ok (tt, tr') ∧
    view_of base tr' = View (programmed lba count (r_dev (v_regs (view_of base tr)))) (v_cmd (view_of base tr))
                         (v_in (view_of base tr)) (v_out (view_of base tr)).
Proof.
  intros Hb Hmd. eexists. split.
  { unfold ata_send_sec_and_lba, clear_error. rewrite Hb, Hmd. reflexivity. }
  unfold ATA_REG_LBA2, ATA_REG_LBA1, ATA_REG_LBA0, ATA_REG_SECCOUNT0, ATA_REG_ERROR. rewrite !view_reg by lia.
  destruct (view_of base tr) as [[rc r0 r1 r2 rd] vc vi vo]. cbn [set_reg v_regs v_cmd v_in v_out Z.eqb Pos.eqb r_count r_lba0 r_lba1 r_lba2 r_dev].
  unfold programmed. rewrite !u8_u8. do 2 f_equal. change 255 with (Z.ones 8). rewrite Z.land_ones by lia. apply (u8_u8 count).
Qed.

Lemma command_run d tr : ad_base d = base → ad_mode d = ATA_MODE_LBA28 →
  ∃ tr', read_command d tr = Ok (tt, tr') ∧ reading base (v_regs (view_of base tr)) 0 tr' ∧ v_regs (view_of base tr') = v_regs (view_of base tr).
Proof.
  intros Hb Hmd. unfold read_command. rewrite Hb, Hmd. destruct (wait_quiet tr) as ([] & tr1 & E1 & _ & V1).
  rewrite (bind_ok _ _ _ _ _ E1). set (tr2 := OutB (base + 7) ATA_CMD_READ_SECTORS :: tr1).
  rewrite (bind_ok _ _ _ tt tr2) by (unfold port_byte_out, ATA_REG_CMD; rewrite u16_small by lia; done).
  destruct (wait_quiet tr2) as ([] & tr3 & E3 & _ & V3). exists tr3. split; [done|]. unfold reading. rewrite V3. simpl. rewrite Z.eqb_refl. simpl. by rewrite V1.
Qed.

(** Where the drive looks for sector [lba]: bits 24 to 27 are sent only when neither the
    drive nor the mode is the one selected last. *)
Definition reselects (drive mode : Z) (s : ata) : bool :=
  negb (drive =? at_selected_drive s) && negb (mode =? at_selected_mode s).

Definition lba_mode (d : ata_drive) (lba : Z) : Z := Z.lor (ad_mode d) (Z.land (Z.shiftr lba 24) 15).

Definition high_bits (drive : Z) (d : ata_drive) (lba : Z) (s : ata) : Z :=
  if reselects drive (lba_mode d lba) s then (lba / 16777216) mod 16
  else r_dev (v_regs (view_of base (at_io s))) mod 16.

Definition address (drive : Z) (d : ata_drive) (lba : Z) (s : ata) : Z :=
  lba mod 16777216 + 16777216 * high_bits drive d lba s.

Lemma mod16_lor x y : Z.lor x y mod 16 = Z.lor (x mod 16) (y mod 16).
Proof. change 16 with (2 ^ 4). rewrite <- !Z.land_ones by lia. apply Z.land_lor_distr_l. Qed.

Lemma dev_bits hi slave mode x : hi mod 16 = 0 → mode mod 16 = 0 →
  u8 (Z.lor (Z.lor hi (Z.shiftl slave 4)) (Z.land (Z.lor mode (Z.land x 15)) 15)) mod 16 = x mod 16.
Proof.
  intros Hh Hm. unfold u8. rewrite <- (Znumtheory.Zmod_div_mod 16 256) by (lia || by exists 16).
  assert (L : ∀ y, Z.land y 15 = y mod 16) by (intros y; change 15 with (Z.ones 4); by rewrite Z.land_ones).
  rewrite !L, !mod16_lor, Hh, Hm, !Z.mod_mod by lia. rewrite Z.shiftl_mul_pow2 by lia. change (2 ^ 4) with 16. by rewrite Z.mod_mul, !Z.lor_0_l.
Qed.

Lemma select_run drive d lba s : at_drives s !! drive = Some d → ad_base d = base → ad_mode d = ATA_MODE_LBA28 →
  Z.land (ad_capabilities d) ATA_CAPABILITIES_LBA ≠ 0 →
  ∃ s1, ata_select_drive drive (lba_mode d lba) s = Ok (tt, s1) ∧ at_mem s1 = at_mem s ∧ at_drives s1 = at_drives s ∧
    at_lock s1 = at_lock s ∧ at_errno s1 = at_errno s ∧ r_dev (v_regs (view_of base (at_io s1))) mod 16 = high_bits drive d lba s ∧
    v_out (view_of base (at_io s1)) = v_out (view_of base (at_io s)).
Proof.
  intros Hd Hb Hmd Hcap. unfold ata_select_drive, high_bits, reselects.
  rewrite (bind_ok _ _ _ _ _ (eq_refl : get at_selected_drive s = Ok (_, s))), (bind_ok _ _ _ _ _ (eq_refl : get at_selected_mode s = Ok (_, s))).
  destruct (negb _ && negb _); [|by exists s].
  rewrite (bind_ok _ _ _ d s) by (unfold load_drive, get, of_option, mbind, M_bind; by rewrite Hd).
  destruct (Z.eqb_spec (Z.land (ad_capabilities d) ATA_CAPABILITIES_LBA) 0); [done|]. rewrite Hb.
  set (v := Z.lor _ _). set (tr1 := OutB (u16 (base + ATA_REG_HDDEVSEL)) (u8 v) :: at_io s).
  rewrite (bind_ok _ _ _ _ _ (run_ports _ _ _ _ (eq_refl : port_byte_out _ v (at_io s) = Ok (tt, tr1)))).
  destruct (ports_quiet _ _ (with_io (at_mem s) tr1 s) wait5_quiet) as ([] & tr2 & E2 & _ & V2). rewrite (bind_ok _ _ _ _ _ E2).
  eexists. split; [reflexivity|]. split_and!; try done; cbn [at_io with_io]; rewrite V2; cbn [at_io with_io]; unfold tr1, ATA_REG_HDDEVSEL; rewrite view_reg by lia; [|done]. simpl.
  unfold v, lba_mode. rewrite Hmd, dev_bits by done. by rewrite Z.shiftr_div_pow2.
Qed.

Lemma programmed_sector drive d lba count s dev : 0 ≤ lba → 1 ≤ count ≤ 256 → dev mod 16 = high_bits drive d lba s →
  lba28 (programmed lba count dev) = address drive d lba s ∧ sectors (programmed lba count dev) = count.
Proof.
  intros Hl Hc Hd. unfold lba28, sectors, programmed, address. simpl. rewrite Hd, !Z.shiftr_div_pow2 by lia. unfold u8.
  change (2 ^ 8) with 256. change (2 ^ 16) with 65536. split.
  - Z.to_euclidean_division_equations. lia.
  - destruct (decide (count = 256)) as [->|]; [done|]. rewrite Z.mod_small by lia. destruct (Z.eqb_spec count 0); lia.
Qed.

(** From the selection of the drive to the command. *)
Lemma program_run drive d lba count s :
  at_drives s !! drive = Some d → ad_base d = base → ad_mode d = ATA_MODE_LBA28 →
  Z.land (ad_capabilities d) ATA_CAPABILITIES_LBA ≠ 0 →
  ∃ s3 dev, (∀ X (k : ata_drive → M ata X) e,
    (d ← load_drive drive;
     if negb (Z.land (ad_capabilities d) ATA_CAPABILITIES_LBA =? 0) then
       _ ← ata_select_drive drive (Z.lor (ad_mode d) (Z.land (Z.shiftr lba 24) 15));
       _ ← on_ports (clear_error (ad_base d));
       _ ← on_ports (ata_send_sec_and_lba d lba count);
       _ ← on_ports (read_command d);
       k d
     else e) s = k d s3) ∧
    at_mem s3 = at_mem s ∧ at_drives s3 = at_drives s ∧ at_lock s3 = at_lock s ∧ at_errno s3 = at_errno s ∧
    dev mod 16 = high_bits drive d lba s ∧ reading base (programmed lba count dev) 0 (at_io s3).
Proof.
  intros Hd Hb Hmd Hcap. destruct (select_run drive d lba s Hd Hb Hmd Hcap) as (s1 & Es & M1 & D1 & L1 & R1 & V1 & _).
  set (dev := r_dev _) in V1. destruct (ata_send_run d lba count (at_io s1) Hb Hmd) as (tr2 & E2 & V2). fold dev in V2.
  destruct (command_run d tr2 Hb Hmd) as (tr3 & E3 & Hrd & V3). rewrite V2 in Hrd. simpl in Hrd.
  exists (with_io (at_mem s1) tr3 s1), dev. split; [|by split_and!]. intros X k e.
  rewrite (bind_ok _ _ _ d s) by (unfold load_drive, get, of_option, mbind, M_bind; by rewrite Hd).
  destruct (Z.eqb_spec (Z.land (ad_capabilities d) ATA_CAPABILITIES_LBA) 0); [done|]. cbn [negb]. fold (lba_mode d lba).
  rewrite (bind_ok _ _ _ _ _ Es), Hb, (ports_seq _ _ _ _ _ _ E2).
  by rewrite (bind_ok _ _ _ _ _ (run_ports _ (with_io (at_mem s1) tr2 s1) _ _ E3)).
Qed.

Lemma ata_read_run drive d lba buf count s :
  at_drives s !! drive = Some d → ad_base d = base → ad_mode d = ATA_MODE_LBA28 →
  Z.land (ad_capabilities d) ATA_CAPABILITIES_LBA ≠ 0 → 0 ≤ lba → 1 ≤ count ≤ 256 →
  512 * (address drive d lba s + count) ≤ Z.of_nat (length disk) → mapped (at_mem s) buf (512 * count) →
  ∃ s', _atapio_read patience drive lba buf count s = Ok (0, s') ∧
    at_mem s' = write_at (at_mem s) buf (slice disk (512 * address drive d lba s) (512 * count)) ∧
    at_drives s' = at_drives s ∧ at_lock s' = at_lock s ∧ at_errno s' = at_errno s.
Proof.
  intros Hd Hb Hmd Hcap Hlba Hcnt Hlen Hm.
  destruct (program_run drive d lba count s Hd Hb Hmd Hcap) as (s3 & dev & Hrun & M3 & D3 & L3 & R3 & V3 & Hrd).
  destruct (programmed_sector drive d lba count s dev Hlba Hcnt V3) as [HL HS].
  assert (Ha : 0 ≤ address drive d lba s).
  { unfold address. rewrite <- V3. pose proof (Z.mod_pos_bound lba 16777216). pose proof (Z.mod_pos_bound dev 16). lia. }
  destruct (read_sectors_run (programmed lba count dev) buf count s3) as (tr4 & E4); [done|lia|lia|by rewrite HL|by rewrite <- M3 in Hm|].
  rewrite HL in E4. set (s4 := with_io _ tr4 s3) in E4. destruct (ports_quiet _ _ s4 polling_quiet) as (r & tr5 & E5 & -> & _).
  exists (with_io (at_mem s4) tr5 s4). split; [|cbn [at_mem at_drives at_lock at_errno with_io s4]; rewrite M3; by split_and!].
  unfold _atapio_read. apply loop_done. unfold read_attempt. change (0 + 1 =? 5) with false. cbv beta iota zeta.
  rewrite Hrun, Hb.
  rewrite (bind_ok _ _ _ _ _ E4). cbv beta iota. by rewrite (bind_ok _ _ _ _ _ E5).
Qed.

Lemma ata_lock_run s : at_lock s = 0 →
  ata_lock s = Ok (tt, Ata (at_mem s) (at_drives s) (at_selected_mode s) (at_selected_drive s) 1 (at_errno s) (at_io s)).
Proof. intros Hl. unfold ata_lock. apply loop_done. unfold mbind, M_bind, get. rewrite Hl. cbn. unfold on_atalock. rewrite Hl. done. Qed.

Lemma atapio_read_run drive d lba buf count s :
  at_drives s !! drive = Some d → ad_base d = base → ad_mode d = ATA_MODE_LBA28 →
  Z.land (ad_capabilities d) ATA_CAPABILITIES_LBA ≠ 0 → at_lock s = 0 → 0 ≤ lba → 1 ≤ count ≤ 256 →
  512 * (address drive d lba s + count) ≤ Z.of_nat (length disk) → mapped (at_mem s) buf (512 * count) →
  ∃ s', atapio_read patience drive lba buf count s = Ok (count, s') ∧
    at_mem s' = write_at (at_mem s) buf (slice disk (512 * address drive d lba s) (512 * count)) ∧
    at_lock s' = 0 ∧ at_errno s' = at_errno s.
Proof.
  intros Hd Hb Hmd Hcap Hlk Hlba Hcnt Hlen Hm. unfold atapio_read. rewrite (bind_ok _ _ _ _ _ (ata_lock_run s Hlk)). set (s1 := Ata _ _ _ _ 1 _ _).
  destruct (ata_read_run drive d lba buf count s1) as (s2 & E & M2 & _ & _ & R2); try done.
  rewrite (bind_ok _ _ _ _ _ E). eexists. split; [cbn; rewrite s32_small by lia; reflexivity|]. done.
Qed.

(** C5: Reading sectors over ATA.  On a drive that answers as the ATA standard says, reading
    1 to 256 sectors returns their number and fills the buffer with exactly the bytes of
    the sectors the drive was addressed with, nothing else in memory changes, and the
    driver's lock is free again.  The sectors are those from [lba] when its bits 24 to 27
    are the ones the drive has, see [address]. *)
Theorem atapio_read_correct drive d lba buf count s :
  at_drives s !! drive = Some d → ad_base d = base → ad_mode d = ATA_MODE_LBA28 →
  Z.land (ad_capabilities d) ATA_CAPABILITIES_LBA ≠ 0 → at_lock s = 0 → 0 ≤ lba → 1 ≤ count ≤ 256 →
  512 * (address drive d lba s + count) ≤ Z.of_nat (length disk) → mapped (at_mem s) buf (512 * count) →
  ∃ s', atapio_read patience drive lba buf count s = Ok (count, s') ∧
    at_mem s' = write_at (at_mem s) buf (slice disk (512 * address drive d lba s) (512 * count)) ∧
    at_lock s' = 0 ∧ at_errno s' = at_errno s.
Proof. apply atapio_read_run. Qed.
End drive.

(** A drive that is never busy. *)
Definition demo_disk : list Z := replicate 512 0 ++ replicate 512 7.

Definition demo_drive : Devices := {|
  answer8 := λ _ _, 8;
  answer16 := λ tr _, match v_cmd (view_of 496 tr) with
                      | Some (_, r) => u16_at demo_disk (512 * lba28 r + 2 * v_in (view_of 496 tr))
                      | None => 0
                      end;
  answer32 := λ _ _, 0
|}.

Lemma demo_drive_ok : @AtaDevice demo_drive 496 demo_disk 1.
Proof.
  split.
  - intros tr. exists 0%nat. split; [lia|]. split; [lia|]. by intros [].
  - intros r n tr _ _ _. done.
  - intros r n tr [Hr1 Hr2] _ _. simpl. by rewrite Hr1, Hr2.
Qed.

Definition demo_ata : ata :=
  Ata (write_at ∅ 4096 (replicate 512 1)) {[2 := AtaDrive 496 1014 0 32 0 0 512 0 0 0]} 0 0 0 0 [].

Lemma atapio_read_correct_witness :
  ∃ s', @atapio_read demo_drive 1 2 1 4096 1 demo_ata = Ok (1, s') ∧
    at_mem s' = write_at (at_mem demo_ata) 4096 (replicate 512 7) ∧ at_lock s' = 0 ∧ at_errno s' = 0.
Proof.
  replace (replicate 512 7) with (slice demo_disk (512 * address 496 2 (AtaDrive 496 1014 0 32 0 0 512 0 0 0) 1 demo_ata) (512 * 1)) by reflexivity.
  apply (@atapio_read_correct demo_drive 496 demo_disk 1 demo_drive_ok); try reflexivity; try lia; try discriminate.
  - unfold demo_disk. apply Forall_app. split; apply Forall_replicate; by split.
  - intros q Hq. apply (bytes_at_mapped (at_mem demo_ata) 4096 (replicate 512 1)); [apply write_at_in|]. rewrite length_replicate. lia.
Defined.

(** ** The high bits of the address *)

(** The selected drive stays selected. *)
Definition keeps_drive {A} (c : M ata A) : Prop :=
  ∀ s, match c s with Ok (_, s') => at_selected_drive s' = at_selected_drive s | _ => True end.

Lemma keeps_bind {A B} (c : M ata A) (f : A → M ata B) : keeps_drive c → (∀ a, keeps_drive (f a)) → keeps_drive (c ≫= f).
Proof.
  intros Hc Hf s. unfold mbind, M_bind. specialize (Hc s). destruct (c s) as [[a s1]| |]; [|done..]. specialize (Hf a s1).
  destruct (f a s1) as [[b s2]| |]; [congruence|done..].
Qed.

Lemma keeps_ret {A} (a : A) : keeps_drive (mret a).
Proof. by intros s. Qed.

Lemma keeps_loop {A R} n (body : A → M ata (A + R)) a : (∀ a, keeps_drive (body a)) → keeps_drive (loop n body a).
Proof.
  intros Hb. revert a. induction n as [|n IH]; intros a; [by intros s|]. cbn [loop]. apply keeps_bind; [done|].
  intros [a'|x]; [apply IH|apply keeps_ret].
Qed.

Lemma keeps_ports {A} (c : M (list io) A) : keeps_drive (on_ports c).
Proof. intros s. unfold on_ports. by destruct (c (at_io s)) as [[]| |]. Qed.

Lemma keeps_ram {A} (c : M bmem A) : keeps_drive (on_ram c).
Proof. intros s. unfold on_ram. by destruct (c (at_mem s)) as [[]| |]. Qed.

Ltac keeps :=
  repeat lazymatch goal with
  | |- keeps_drive (mbind _ _) => apply keeps_bind; [|intros ?]
  | |- keeps_drive (loop _ _ _) => apply keeps_loop; intros ?
  | |- keeps_drive (on_ports _) => apply keeps_ports
  | |- keeps_drive (on_ram _) => apply keeps_ram
  | |- keeps_drive (mret _) => apply keeps_ret
  | |- keeps_drive (if ?b then _ else _) => destruct b
  | |- keeps_drive (let '(_, _) := ?x in _) => destruct x
  end.

Section alias.
Context `{!Devices} (patience : nat).

Lemma read_sectors_keeps base n buf : keeps_drive (read_sectors patience base n buf).
Proof. unfold read_sectors, read_words. keeps. Qed.

Lemma send_alias d lba k count : ata_send_sec_and_lba d (lba + 16777216 * k) count = ata_send_sec_and_lba d lba count.
Proof.
  unfold ata_send_sec_and_lba. assert (E : ∀ n, 0 ≤ n ≤ 16 → u8 (Z.shiftr (lba + 16777216 * k) n) = u8 (Z.shiftr lba n)).
  { intros n Hn. rewrite !Z.shiftr_div_pow2 by lia. replace (16777216 * k) with (2 ^ (24 - n) * k * 2 ^ n).
    2: { replace (2 ^ (24 - n) * k * 2 ^ n) with (2 ^ (24 - n) * 2 ^ n * k) by lia. rewrite <- Z.pow_add_r by lia. by replace (24 - n + n) with 24 by lia. }
    rewrite Z.div_add by lia. unfold u8. replace (2 ^ (24 - n) * k) with (2 ^ (16 - n) * k * 256).
    2: { replace (24 - n) with (16 - n + 8) by lia. rewrite Z.pow_add_r by lia. lia. }
    apply Z.mod_add. lia. }
  rewrite (E 8), (E 16) by lia. pose proof (E 0 ltac:(lia)) as E0. rewrite !Z.shiftr_0_r in E0. by rewrite E0.
Qed.

(** Loops whose bodies agree where an invariant holds. *)
Lemma loop_same {St A R} (I : St → Prop) (b1 b2 : A → M St (A + R)) :
  (∀ a s, I s → b1 a s = b2 a s) → (∀ a s, I s → match b2 a s with Ok (_, s') => I s' | _ => True end) →
  ∀ n a s, I s → loop n b1 a s = loop n b2 a s.
Proof.
  intros He Hi n. induction n as [|n IH]; intros a s Hs; [done|]. cbn [loop]. unfold mbind, M_bind. rewrite He by done.
  specialize (Hi a s Hs). destruct (b2 a s) as [[[a'|x] s']| |]; [by apply IH|done..].
Qed.

Lemma select_same drive mode s : at_selected_drive s = drive → ata_select_drive drive mode s = Ok (tt, s).
Proof. intros <-. unfold ata_select_drive, mbind, M_bind, get. by rewrite Z.eqb_refl. Qed.

Lemma read_alias drive lba k buf count s : at_selected_drive s = drive →
  _atapio_read patience drive (lba + 16777216 * k) buf count s = _atapio_read patience drive lba buf count s.
Proof.
  apply (loop_same (λ s, at_selected_drive s = drive)).
  - intros [rc b] s0 Hs. unfold read_attempt. destruct (rc + 1 =? 5); [done|]. destruct (at_drives s0 !! drive) as [d|] eqn:Ed.
    2: { unfold load_drive, get, of_option, mbind, M_bind. by rewrite Ed. }
    rewrite !(bind_ok _ _ _ d s0) by (unfold load_drive, get, of_option, mbind, M_bind; by rewrite Ed).
    destruct (negb _); [|done]. by rewrite !(bind_ok _ _ _ _ _ (select_same _ _ _ Hs)), send_alias.
  - intros [rc b] s0 Hs. assert (Hk : ∀ {A} (c : M ata A), keeps_drive c → match c s0 with Ok (_, s') => at_selected_drive s' = drive | _ => True end).
    { intros A c Hc. specialize (Hc s0). destruct (c s0) as [[? ?]| |]; congruence. }
    unfold read_attempt.
    destruct (rc + 1 =? 5); [by apply Hk; keeps; intros s1|]. destruct (at_drives s0 !! drive) as [d|] eqn:Ed.
    2: { unfold load_drive, get, of_option, mbind, M_bind. by rewrite Ed. }
    rewrite (bind_ok _ _ _ d s0) by (unfold load_drive, get, of_option, mbind, M_bind; by rewrite Ed).
    destruct (negb _); [|done]. rewrite (bind_ok _ _ _ _ _ (select_same _ _ _ Hs)).
    apply Hk. keeps; [apply read_sectors_keeps|by intros s1].
Qed.

(** The driver loses bits 24 to 27 of a sector number: once a drive is selected, reading
    [lba + k * 2^24] does exactly what reading [lba] does, whatever the drive answers. *)
Theorem high_lba_aliases drive lba k buf count s :
  at_selected_drive s = drive →
  atapio_read patience drive (lba + 16777216 * k) buf count s = atapio_read patience drive lba buf count s.
Proof.
  intros Hsel. unfold atapio_read, mbind, M_bind.
  assert (Hk : keeps_drive ata_lock).
  { unfold ata_lock. keeps; [by intros s0|]. intros s0. unfold on_atalock. by destruct (arch_atomic_test_and_set 1 _) as [[]| |]. }
  specialize (Hk s). destruct (ata_lock s) as [[[] s1]| |]; [|done..]. by rewrite read_alias by congruence.
Qed.
End alias.

Lemma high_lba_aliases_witness :
  let s := Ata (at_mem demo_ata) (at_drives demo_ata) 32 2 0 0 [] in
  at_selected_drive s = 2 ∧
  @atapio_read demo_drive 1 2 16777217 4096 1 s = @atapio_read demo_drive 1 2 1 4096 1 s.
Proof. intros s. split; [reflexivity|]. apply (@high_lba_aliases demo_drive 1 2 1 1 4096 1 s). reflexivity. Defined.

(** ** Drives that fail *)

Section failing.
Context `{!Devices} (base : Z) (error : Z).
Hypothesis base_port : 0 ≤ base < 65500.

(** The drive ends every command at once with the error code [error]. *)
Definition fails_with : Prop :=
  ∀ tr, Z.land (status base tr) 128 = 0 ∧ Z.land (status base tr) 1 ≠ 0 ∧ u8 (answer8 tr (base + 1)) = error.

Hypothesis Hfail : fails_with.

Lemma ports_total {A} (c : M (list io) A) s a tr : c (at_io s) = Ok (a, tr) → ∃ tr, on_ports c s = Ok (a, with_io (at_mem s) tr s).
Proof. intros E. exists tr. by apply run_ports. Qed.

Lemma fail_poll (chk : bool) tr : ∃ tr', ata_polling 1 base chk tr = Ok (if chk then - error else 0, tr').
Proof.
  unfold ata_polling. destruct (wait_quiet base tr) as ([] & tr1 & E1 & _). rewrite (bind_ok _ _ _ _ _ E1).
  destruct (Hfail tr1) as (Hb & He & Hc). set (tr2 := InB (base + 7) (status base tr1) :: tr1).
  assert (Hbsy : ata_wait_clear_bsy 1 base tr1 = Ok (status base tr1, tr2)).
  { unfold ata_wait_clear_bsy. apply loop_done. rewrite (bind_ok _ _ _ _ _ (status_in base base_port tr1)). unfold ATA_STATUS_BSY. by rewrite Hb. }
  rewrite (bind_ok _ _ _ _ _ Hbsy). destruct chk; [|by eexists]. unfold ATA_STATUS_ERR.
  destruct (Z.eqb_spec (Z.land (status base tr1) 1) 0); [done|]. cbn [negb orb].
  destruct (wait_quiet base tr2) as ([] & tr3 & E3 & _). rewrite (bind_ok _ _ _ _ _ E3). destruct (Hfail tr3) as (_ & _ & Hc3).
  eexists. unfold mbind, M_bind, port_byte_in, ATA_REG_ERROR. rewrite u16_small, Hc3 by lia. done.
Qed.

(** Whatever the data port gives is stored. *)
Lemma fail_words buf s : mapped (at_mem s) buf 512 →
  ∃ m tr, read_words base buf s = Ok (tt, with_io m tr s) ∧ (∀ q, is_Some (at_mem s !! q) → is_Some (m !! q)).
Proof.
  intros Hm. assert (Hloop : ∀ j i s, i + Z.of_nat j = 256 → 0 ≤ i → mapped (at_mem s) buf 512 →
    ∃ m tr, loop (S j) (λ i, if i <? 256 then data ← on_ports (port_word_in (base + ATA_REG_DATA));
        _ ← on_ram (store16 (buf + 2 * i) data); mret (inl (i + 1)) else mret (inr tt)) i s = Ok (tt, with_io m tr s) ∧
      (∀ q, is_Some (at_mem s !! q) → is_Some (m !! q))).
  { clear s Hm. induction j as [|j IH]; intros i s Hij Hi Hm.
    { exists (at_mem s), (at_io s). split; [|done]. replace i with 256 by lia. rewrite (loop_done 0 _ 256 s tt s) by done. by destruct s. }
    set (w := u16 (answer16 (at_io s) (u16 (base + ATA_REG_DATA)))). set (m1 := write_at (at_mem s) (buf + 2 * i) [u8 w; u8 (w / 256)]).
    edestruct (IH (i + 1) (with_io m1 (InW (u16 (base + ATA_REG_DATA)) w :: at_io s) s)) as (m & tr & E & Hk); [lia|lia|by apply mapped_write|].
    exists m, tr. split; [|intros q Hq; apply Hk; simpl; apply (mapped_write (at_mem s) q 1); [intros q' ?; by replace q' with q by lia|lia]].
    etransitivity; [|exact E]. apply loop_next. destruct (Z.ltb_spec i 256); [|lia].
    rewrite (bind_ok _ _ _ _ _ (run_ports _ _ _ _ (eq_refl : port_word_in (base + ATA_REG_DATA) (at_io s) = Ok (w, _)))).
    erewrite bind_ok; [reflexivity|]. apply (run_ram _ (with_io _ _ s)). simpl. apply store16_run. intros q Hq. apply Hm. lia. }
  apply (Hloop 256%nat); [lia|lia|done].
Qed.

(** The sectors of one attempt. *)
Lemma abort_sectors n buf s : error = ATA_ERROR_ABRT → n ≠ 0%nat →
  ∃ tr, read_sectors 1 base n buf s = Ok (buf, true, with_io (at_mem s) tr s).
Proof.
  intros He Hn. destruct (fail_poll true (at_io s)) as (tr1 & E1). destruct (wait5_quiet base tr1) as ([] & tr2 & E2 & _).
  exists tr2. unfold read_sectors. apply loop_done. destruct (Z.eqb_spec (Z.of_nat n) 0); [lia|]. cbn [negb].
  rewrite (bind_ok _ _ _ _ _ (run_ports _ _ _ _ E1)), He. change (negb (- ATA_ERROR_ABRT =? 0) && (- ATA_ERROR_ABRT =? - ATA_ERROR_ABRT)) with true. cbv iota.
  by rewrite (bind_ok _ _ _ _ _ (run_ports _ (with_io (at_mem s) tr1 s) _ _ E2)).
Qed.

Lemma ignore_sectors n : ∀ buf s, error ≠ ATA_ERROR_ABRT → mapped (at_mem s) buf (512 * Z.of_nat n) →
  ∃ m tr, read_sectors 1 base n buf s = Ok (buf + 512 * Z.of_nat n, false, with_io m tr s).
Proof.
  unfold read_sectors. induction n as [|n IH]; intros buf s He Hm.
  { exists (at_mem s), (at_io s). rewrite (loop_done 0 _ (Z.of_nat 0, buf) s (buf, false) s) by done. do 3 f_equal; [f_equal; lia|by destruct s]. }
  destruct (fail_poll true (at_io s)) as (tr1 & E1).
  destruct (fail_words buf (with_io (at_mem s) tr1 s)) as (m2 & tr2 & E2 & Hk); [intros q Hq; apply Hm; lia|].
  destruct (wait_quiet base tr2) as ([] & tr3 & E3 & _). destruct (fail_poll false tr3) as (tr4 & E4).
  set (tr5 := OutB (u16 (base + ATA_REG_DATA)) (u8 ATA_CMD_CACHE_FLUSH) :: tr4). destruct (fail_poll false tr5) as (tr6 & E6).
  edestruct (IH (buf + 512) (with_io m2 tr6 s)) as (m & tr & E); [done|intros q Hq; apply Hk, Hm; lia|].
  exists m, tr. replace (buf + 512 * Z.of_nat (S n)) with (buf + 512 + 512 * Z.of_nat n) by lia. etransitivity; [|exact E]. apply loop_next.
  destruct (Z.eqb_spec (Z.of_nat (S n)) 0); [lia|]. cbn [negb]. rewrite (bind_ok _ _ _ _ _ (run_ports _ _ _ _ E1)).
  destruct (Z.eqb_spec (- error) (- ATA_ERROR_ABRT)); [unfold ATA_ERROR_ABRT in *; lia|]. rewrite andb_false_r.
  rewrite (bind_ok _ _ _ _ _ E2), (bind_ok _ _ _ _ _ (run_ports _ (with_io m2 tr2 s) _ _ E3)).
  rewrite (bind_ok _ _ _ _ _ (run_ports _ (with_io m2 tr3 s) _ _ E4)).
  rewrite (bind_ok _ _ _ _ _ (run_ports _ (with_io m2 tr4 s) _ _ (eq_refl : _ = Ok (tt, tr5)))).
  rewrite (bind_ok _ _ _ _ _ (run_ports _ (with_io m2 tr5 s) _ _ E6)). by replace (Z.of_nat (S n) - 1) with (Z.of_nat n) by lia.
Qed.

Lemma abort_attempts drive d lba buf count j : ∀ rc s,
  error = ATA_ERROR_ABRT → at_drives s !! drive = Some d → ad_base d = base → ad_mode d = ATA_MODE_LBA28 →
  Z.land (ad_capabilities d) ATA_CAPABILITIES_LBA ≠ 0 → 1 ≤ count → rc + Z.of_nat j = 4 → 0 ≤ rc →
  ∃ s', loop (S j) (read_attempt 1 drive lba count) (rc, buf) s = Ok (-1, s') ∧ at_mem s' = at_mem s ∧ at_lock s' = at_lock s ∧ at_errno s' = EIO.
Proof.
  induction j as [|j IH]; intros rc s He Hd Hb Hmd Hcap Hc Hj Hrc.
  { replace rc with 4 by lia. by eexists. }
  destruct (program_run base base_port drive d lba count s Hd Hb Hmd Hcap) as (s3 & dev & Hrun & M3 & D3 & L3 & R3 & _).
  destruct (abort_sectors (Z.to_nat count) buf s3 He ltac:(lia)) as (tr4 & E4).
  destruct (IH (rc + 1) (with_io (at_mem s3) tr4 s3)) as (s' & E & M' & L' & R'); try done; try lia; [by simpl; rewrite D3|].
  exists s'. split; [|simpl in *; by rewrite M', L', M3, L3].
  rewrite <- E. apply loop_next. unfold read_attempt. destruct (Z.eqb_spec (rc + 1) 5); [lia|]. rewrite Hrun, Hb.
  by rewrite (bind_ok _ _ _ _ _ E4).
Qed.

End failing.

Definition bad_drive : Devices := {| answer8 := λ _ p, if p =? 497 then 64 else 1; answer16 := λ _ _, 0; answer32 := λ _ _, 0 |}.

