(* ===== verification/AtaWrite.v ===== *)
(** * What the ATA driver sends when it writes *)
From S2P Require Import Prelude LibK Sync Disk Ports Ata AtaSpec.

(** The first [n] words of a buffer. *)
Definition words (bs : list Z) (n : Z) : list Z := (λ k, u16_at bs (2 * k)) <$> seqZ 0 n.

Lemma words_snoc bs n : 0 ≤ n → words bs (n + 1) = words bs n ++ [u16_at bs (2 * n)].
Proof. intros Hn. unfold words. rewrite seqZ_app by lia. rewrite fmap_app. simpl. do 3 f_equal. Qed.

Section accepting.
Context `{!Devices} (base : Z).
Hypothesis base_port : 0 ≤ base < 65500.

(** The drive is never busy, reports no error and always asks for data. *)
Definition accepts : Prop :=
  ∀ tr, Z.land (status base tr) 128 = 0 ∧ Z.land (status base tr) 1 = 0 ∧ Z.land (status base tr) 32 = 0 ∧ Z.land (status base tr) 8 ≠ 0.

Hypothesis Hacc : accepts.

Lemma accept_poll chk tr : ∃ tr', ata_polling 1 base chk tr = Ok (0, tr') ∧ view_of base tr' = view_of base tr.
Proof.
  unfold ata_polling. destruct (wait_quiet base tr) as ([] & tr1 & E1 & _ & V1). rewrite (bind_ok _ _ _ _ _ E1).
  destruct (Hacc tr1) as (Hb & He & Hf & Hq). set (tr2 := InB (base + 7) (status base tr1) :: tr1).
  rewrite (bind_ok _ _ _ (status base tr1) tr2).
  2: { unfold ata_wait_clear_bsy. apply loop_done. rewrite (bind_ok _ _ _ _ _ (status_in base base_port tr1)). unfold ATA_STATUS_BSY. by rewrite Hb. }
  exists tr2. split; [|by rewrite <- V1]. destruct chk; [|done]. unfold ATA_STATUS_ERR, ATA_STATUS_DF, ATA_STATUS_DRQ. rewrite He, Hf. simpl.
  by destruct (Z.eqb_spec (Z.land (status base tr1) 8) 0).
Qed.

(** What has gone out when [n] words are written. *)
Definition sent_after (bs : list Z) (n : Z) (v : list Z * list Z) : list Z * list Z :=
  (v.1 ++ words bs n, v.2 ++ replicate (Z.to_nat n) ATA_CMD_CACHE_FLUSH).

Lemma sent_snoc bs n v : 0 ≤ n →
  sent_after bs (n + 1) v = ((sent_after bs n v).1 ++ [u16_at bs (2 * n)], (sent_after bs n v).2 ++ [ATA_CMD_CACHE_FLUSH]).
Proof.
  intros Hn. unfold sent_after. rewrite words_snoc by done. simpl. rewrite !app_assoc_reverse. do 2 f_equal.
  replace (Z.to_nat (n + 1)) with (Z.to_nat n + 1)%nat by lia. by rewrite replicate_add.
Qed.

Lemma write_words_run bs buf off v j : ∀ i s,
  bytes_at (at_mem s) buf bs → Forall is_byte bs → i + Z.of_nat j = 256 → 0 ≤ i → 0 ≤ off → 2 * (off + 256) ≤ Z.of_nat (length bs) →
  v_out (view_of base (at_io s)) = sent_after bs (off + i) v →
  ∃ tr, loop (S j) (λ i,
      if i <? 256 then
        w ← on_ram (load16 (buf + 2 * off + 2 * i));
        _ ← on_ports (port_word_out (base + ATA_REG_DATA) w);
        _ ← on_ports (port_word_out (base + ATA_REG_CMD) ATA_CMD_CACHE_FLUSH);
        mret (inl (i + 1))
      else mret (inr tt)) i s = Ok (tt, with_io (at_mem s) tr s) ∧ v_out (view_of base tr) = sent_after bs (off + 256) v.
Proof.
  induction j as [|j IH]; intros i s Hbs Hby Hij Hi Ho Hlen Hv.
  { exists (at_io s). replace i with 256 in * by lia. split; [|done]. rewrite (loop_done 0 _ 256 s tt s) by done. by destruct s. }
  set (w := u16_at bs (2 * (off + i))). assert (Hw : 0 ≤ w < 65536) by by apply u16_at_range.
  set (tr1 := OutW (base + 7) ATA_CMD_CACHE_FLUSH :: OutW base w :: at_io s).
  destruct (IH (i + 1) (with_io (at_mem s) tr1 s)) as (tr & E & Vt); try done; try lia.
  { simpl. destruct (Z.eqb_spec (base + 7) base); [lia|]. rewrite !Z.eqb_refl. simpl. rewrite Hv, Z.add_assoc, sent_snoc by lia. done. }
  exists tr. split; [|done]. etransitivity; [|exact E]. apply loop_next. destruct (Z.ltb_spec i 256); [|lia].
  rewrite (bind_ok _ _ _ w s).
  2: { rewrite (run_ram _ _ w (at_mem s)); [by destruct s|]. replace (buf + 2 * off + 2 * i) with (buf + 2 * (off + i)) by lia. apply load16_at; [done|lia..]. }
  rewrite (bind_ok _ _ _ tt (with_io (at_mem s) (OutW base w :: at_io s) s)).
  2: { apply run_ports. unfold port_word_out, ATA_REG_DATA. by rewrite Z.add_0_r, !u16_small by lia. }
  rewrite (bind_ok _ _ _ tt (with_io (at_mem s) tr1 s)); [done|].
  apply (run_ports _ (with_io _ _ s)). unfold port_word_out, ATA_REG_CMD. by rewrite (u16_small (base + 7)) by lia.
Qed.

Lemma write_sectors_run bs buf v N j : ∀ k s,
  bytes_at (at_mem s) buf bs → Forall is_byte bs → k + Z.of_nat j = Z.of_nat N → 0 ≤ k → Z.of_nat (length bs) = 512 * Z.of_nat N →
  0 ≤ buf → buf + 512 * Z.of_nat N < 4294967296 → v_out (view_of base (at_io s)) = sent_after bs (256 * k) v →
  ∃ tr, loop (S j) (λ '(seccnt, buf),
    if seccnt <? Z.of_nat N then
      r ← on_ports (ata_polling 1 base true);
      if negb (r =? 0) then _ ← set_ata_errno EINVAL; mret (inr (-1))
      else
        _ ← write_words base buf;
        mret (inl (seccnt + 1, u32 (buf + 512)))
    else mret (inr 0)) (k, buf + 512 * k) s = Ok (0, with_io (at_mem s) tr s) ∧
    v_out (view_of base tr) = sent_after bs (256 * Z.of_nat N) v.
Proof.
  induction j as [|j IH]; intros k s Hbs Hby Hkj Hk Hlen Hb0 Hb Hv.
  { exists (at_io s). replace k with (Z.of_nat N) in * by lia. split; [|done].
    rewrite (loop_done 0 _ _ s 0 s); [by destruct s|]. by rewrite Z.ltb_irrefl. }
  destruct (accept_poll true (at_io s)) as (tr1 & E1 & V1).
  destruct (write_words_run bs buf (256 * k) v 256 0 (with_io (at_mem s) tr1 s)) as (tr2 & E2 & V2); try done; try lia.
  { simpl. by rewrite V1, Z.add_0_r. }
  destruct (IH (k + 1) (with_io (at_mem s) tr2 s)) as (tr & E & V); try done; try lia.
  { simpl. rewrite V2. f_equal. lia. }
  exists tr. split; [|done]. etransitivity; [|exact E]. apply loop_next. destruct (Z.ltb_spec k (Z.of_nat N)); [|lia].
  rewrite (bind_ok _ _ _ _ _ (run_ports _ _ _ _ E1)). cbn [Z.eqb negb]. rewrite (bind_ok _ _ _ tt (with_io (at_mem s) tr2 s)).
  2: { unfold write_words. replace (buf + 512 * k) with (buf + 2 * (256 * k)) by lia. exact E2. }
  rewrite u32_small by lia. by replace (buf + 512 * k + 512) with (buf + 512 * (k + 1)) by lia.
Qed.

End accepting.

Definition demo_block : list Z := replicate 512 7.

