(* ===== verification/AtaInit.v ===== *)
(** * The detection of ATA drives (init_ata of kernel/drivers/ata/ata.c)

    [init_ata] resets the two channels, identifies the drives that answer and enters
    them into the list of disks.  [alloc] gives the address of each allocation; what a
    fresh block held before is [garbage]. *)
From S2P Require Import Prelude LibK Disk Ports Ata AtaSpec.

Record ati := Ati { ti_ata : ata; ti_disks : disks; ti_allocs : nat }.

Definition on_ata {A} (c : M ata A) : M ati A := λ s,
  match c (ti_ata s) with
  | Ok (a, t) => Ok (a, Ati t (ti_disks s) (ti_allocs s))
  | Fault => Fault
  | Hang => Hang
  end.

Definition on_disks {A} (c : M disks A) : M ati A := λ s,
  match c (ti_disks s) with
  | Ok (a, d) => Ok (a, Ati (ti_ata s) d (ti_allocs s))
  | Fault => Fault
  | Hang => Hang
  end.

Definition ATA_PIO_PORT_P_BASE : Z := 496.
Definition ATA_PIO_PORT_P_CTRL : Z := 1014.
Definition ATA_PIO_PORT_S_BASE : Z := 368.
Definition ATA_PIO_PORT_S_CTRL : Z := 886.
Definition ATA_IDENT_DEVICETYPE : Z := 0.
Definition ATA_IDENT_MODEL : Z := 54.
Definition ATA_IDENT_CAPABILITIES : Z := 98.
Definition ATA_IDENT_MAX_LBA : Z := 120.
Definition ATA_IDENT_COMMANDSETS : Z := 164.
Definition ATA_TYPE_PATA : Z := 0.
Definition ATA_COMMAND_SET_48 : Z := Z.shiftl 1 26.
Definition DISK_TYPE_HARDDISK : Z := 1.
(** The offset of [model] in [ata_drive_t]. *)
Definition MODEL_OFFSET : Z := 40.

Section init.
Context `{!Devices}.
Variable patience : nat.
Variable alloc : nat → Z.
(** What [max_lba] of the block at an address held before. *)
Variable garbage : Z → Z.
(** The addresses of [atapio_read] and [atapio_write]. *)
Variables read_fn write_fn : Z.

Definition new_block : M ati Z := λ s, Ok (alloc (ti_allocs s), Ati (ti_ata s) (ti_disks s) (S (ti_allocs s))).

(** A port that is not given is the default one. *)
Definition channel_base (channel bar : Z) : Z :=
  if (bar =? 0) || (bar =? 1) then if channel =? 0 then ATA_PIO_PORT_P_BASE else ATA_PIO_PORT_S_BASE else bar.

Definition channel_ctrl (channel bar : Z) : Z :=
  if (bar =? 0) || (bar =? 1) then if channel =? 0 then ATA_PIO_PORT_P_CTRL else ATA_PIO_PORT_S_CTRL else bar.

(** The 512 bytes the drive identifies itself with. *)
Definition identify_words (base ident_buffer : Z) : M ata unit :=
  loop 257 (λ i,
    if i <? 512 then
      data ← on_ports (port_word_in (base + ATA_REG_DATA));
      _ ← on_ram (store8 (ident_buffer + i) (Z.land data 255));
      _ ← on_ram (store8 (ident_buffer + (i + 1)) (Z.land (Z.shiftr data 8) 255));
      mret (inl (i + 2))
    else mret (inr tt)) 0.

(** The name: in every word the first character is the high byte. *)
Definition copy_model (model ident_buffer : Z) : M ata unit :=
  loop 21 (λ i,
    if i <? 40 then
      b ← on_ram (load8 (ident_buffer + (ATA_IDENT_MODEL + i + 1)));
      _ ← on_ram (store8 (model + i) b);
      b ← on_ram (load8 (ident_buffer + (ATA_IDENT_MODEL + i)));
      _ ← on_ram (store8 (model + (i + 1)) b);
      mret (inl (i + 2))
    else mret (inr tt)) 0.

Definition store_drive (p : Z) (d : ata_drive) : M ata unit :=
  modify (λ s, Ata (at_mem s) (<[p := d]> (at_drives s)) (at_selected_mode s) (at_selected_drive s) (at_lock s) (at_errno s) (at_io s)).

(** The drive structure from the identification. *)
Definition describe_drive (base ctrl type id ms ata_info ident_buffer : Z) : M ata unit :=
  signature ← on_ram (load16 (ident_buffer + ATA_IDENT_DEVICETYPE));
  capabilities ← on_ram (load16 (ident_buffer + ATA_IDENT_CAPABILITIES));
  command_set ← on_ram (load32 (ident_buffer + ATA_IDENT_COMMANDSETS));
  max_lba ← (if negb (Z.land command_set ATA_COMMAND_SET_48 =? 0) then mret (garbage ata_info)
             else on_ram (load32 (ident_buffer + ATA_IDENT_MAX_LBA)));
  _ ← store_drive ata_info (AtaDrive base ctrl id ATA_MODE_LBA28 type ms capabilities (s32 command_set) signature (s32 max_lba));
  copy_model (ata_info + MODEL_OFFSET) ident_buffer.

(** The disk structure, entered into the list. *)
Definition register_disk (ata_info : Z) : M ati unit :=
  ata_disk ← new_block;
  _ ← on_disks (modify (λ s, Disks
        (<[ata_disk := DiskT DISK_TYPE_HARDDISK (ata_info + MODEL_OFFSET) ata_info 512 read_fn write_fn 0]> (disk_store s))
        (rd_store s) (disk_list s)));
  on_disks (add_disk ata_disk).

(** One round of the loop over master and slave: [false] leaves the loop. *)
Definition probe_drive (channel base ctrl ms : Z) : M ati bool :=
  _ ← on_ata (on_ports (ata_software_reset base ctrl));
  _ ← on_ata (on_ports (port_byte_out (base + ATA_REG_HDDEVSEL) (Z.lor 160 (Z.shiftl ms 4))));
  _ ← on_ata (on_ports (ata_wait base));
  type_low ← on_ata (on_ports (port_byte_in (base + ATA_REG_LBA1)));
  type_hi ← on_ata (on_ports (port_byte_in (base + ATA_REG_LBA2)));
  let type := u16 (Z.lor (Z.shiftl type_hi 8) type_low) in
  if negb (type =? ATA_TYPE_PATA) then mret false
  else
    ident_buffer ← new_block;
    _ ← on_ata (on_ram (memset ident_buffer 0 512));
    _ ← on_ata (on_ports (port_byte_out (base + ATA_REG_CMD) ATA_CMD_IDENTIFY));
    status ← on_ata (on_ports (port_byte_in (base + ATA_REG_STATUS)));
    if status =? 0 then mret false
    else
      _ ← on_ata (on_ports (ata_polling patience base true));
      _ ← on_ata (identify_words base ident_buffer);
      ata_info ← new_block;
      _ ← on_ata (describe_drive base ctrl type (channel * 2 + ms) ms ata_info ident_buffer);
      _ ← register_disk ata_info;
      mret true.

Definition probe_channel (BAR : list Z) (channel : Z) : M ati unit :=
  bar ← of_option (BAR !! Z.to_nat channel);
  bar' ← of_option (BAR !! Z.to_nat (channel + 1));
  let base := channel_base channel bar in
  let ctrl := channel_ctrl channel bar' in
  _ ← on_ata (on_ports (port_byte_out (ctrl + ATA_REG_CONTROL) 2));
  loop 3 (λ ms,
    if ms <? 2 then
      go ← probe_drive channel base ctrl ms;
      mret (if (go : bool) then inl (ms + 1) else inr tt)
    else mret (inr tt)) 0.

(** [BAR] is that of the device's header. *)
Definition init_ata (BAR : list Z) : M ati Z :=
  _ ← loop 3 (λ channel,
        if channel <? 2 then _ ← probe_channel BAR channel; mret (inl (channel + 1)) else mret (inr tt)) 0;
  mret 0.
End init.

(** ** The list of disks *)

(** The disks [ds] are linked in this order from [l]. *)
Fixpoint disk_chain (st : gmap Z disk_t) (l : Z) (ds : list Z) : Prop :=
  match ds with
  | [] => l = 0
  | p :: ds => l = p ∧ p ≠ 0 ∧ ∃ d, st !! p = Some d ∧ disk_chain st (dk_next d) ds
  end.

Lemma disk_chain_insert st l ds p d : p ∉ ds → disk_chain st l ds → disk_chain (<[p := d]> st) l ds.
Proof.
  revert l. induction ds as [|q ds IH]; intros l Hp Hc; [done|]. apply not_elem_of_cons in Hp as [Hq Hp].
  destruct Hc as (-> & H0 & d' & Hd & Hc). split_and!; [done..|]. exists d'. rewrite lookup_insert_ne by done. by split; [|apply IH].
Qed.

Lemma disk_chain_dom st l ds p : disk_chain st l ds → p ∈ ds → is_Some (st !! p).
Proof.
  revert l. induction ds as [|q ds IH]; intros l Hc Hp; [by apply not_elem_of_nil in Hp|].
  destruct Hc as (-> & _ & d & Hd & Hc). apply elem_of_cons in Hp as [->|Hp]; [done|by eapply IH].
Qed.

Lemma disk_chain_size st l ds : disk_chain st l ds → NoDup ds → (length ds ≤ size st)%nat.
Proof.
  intros Hc Hn. rewrite <- (size_list_to_set (C := gset Z) ds) by done. rewrite <- (size_dom st). apply subseteq_size.
  intros p Hp. apply elem_of_list_to_set in Hp. apply elem_of_dom. by eapply disk_chain_dom.
Qed.

(** The walk stops at the last disk, which then has a successor. *)
Lemma disk_walk st rd l0 a dt f : ∀ ds l, disk_chain st l ds → ds ≠ [] → NoDup ds → a ∉ ds → a ≠ 0 → (length ds ≤ f)%nat →
  st !! a = Some dt → dk_next dt = 0 →
  ∃ p d, loop f (λ tmp, d ← load_disk tmp; if negb (dk_next d =? 0) then mret (inl (dk_next d)) else mret (inr tmp)) l
      (Disks st rd l0) = Ok (p, Disks st rd l0) ∧ p ∈ ds ∧ st !! p = Some d ∧ p ≠ 0 ∧
    disk_chain (<[p := with_disk_next d a]> st) l (ds ++ [a]).
Proof.
  induction f as [|f IH]; intros ds l Hc Hne Hnd Ha Ha0 Hf Hst Hnx; destruct ds as [|p ds]; try done; [simpl in Hf; lia|].
  destruct Hc as (-> & Hp0 & d & Hd & Hc). apply NoDup_cons in Hnd as [Hp Hnd]. apply not_elem_of_cons in Ha as [Hap Ha].
  assert (Hl : load_disk p (Disks st rd l0) = Ok (d, Disks st rd l0)).
  { unfold load_disk, get, mbind, M_bind. simpl. rewrite (proj2 (Z.eqb_neq _ _) Hp0), Hd. done. }
  destruct ds as [|q ds].
  - simpl in Hc. exists p, d. split_and!; try done; [|by left|].
    + apply loop_done. rewrite (bind_ok _ _ _ _ _ Hl), Hc. done.
    + simpl. split_and!; try done. eexists. rewrite lookup_insert_eq. split_and!; [done..|]. exists dt. by rewrite lookup_insert_ne.
  - pose proof Hc as (Hq & Hq0 & _). destruct (IH (q :: ds) (dk_next d) Hc ltac:(done) Hnd Ha Ha0 ltac:(simpl in *; lia) Hst Hnx) as (x & dx & Hrun & Hx & Hdx & Hx0 & Hch).
    exists x, dx. split_and!; try done; [|by right|].
    + erewrite loop_next; [exact Hrun|]. rewrite (bind_ok _ _ _ _ _ Hl), (proj2 (Z.eqb_neq _ _)) by (by rewrite Hq). done.
    + split_and!; [done..|]. exists d. rewrite lookup_insert_ne; [done|]. intros ->. done.
Qed.

Lemma add_disk_run ds a dt st rd l : disk_chain st l ds → NoDup ds → a ∉ ds → a ≠ 0 → st !! a = Some dt → dk_next dt = 0 →
  ∃ d', add_disk a (Disks st rd l) = Ok (tt, d') ∧ disk_chain (disk_store d') (disk_list d') (ds ++ [a]) ∧ disk_store d' !! a = Some dt ∧
    rd_store d' = rd.
Proof.
  intros Hc Hnd Ha Ha0 Hst Hnx. unfold add_disk. rewrite (bind_ok _ _ _ l (Disks st rd l)) by done. destruct ds as [|p ds].
  - simpl in Hc. subst l. eexists. split; [reflexivity|]. split; [|done]. simpl. split_and!; try done. by exists dt.
  - pose proof Hc as (-> & Hp0 & _). rewrite (proj2 (Z.eqb_neq _ _) Hp0). rewrite (bind_ok _ _ _ (S (size st)) (Disks st rd p)) by done.
    pose proof (disk_chain_size _ _ _ Hc Hnd).
    destruct (disk_walk st rd p a dt (S (size st)) (p :: ds) p) as (x & d & Hrun & Hx & Hd & Hx0 & Hch); try done; [lia|].
    rewrite (bind_ok _ _ _ _ _ Hrun). rewrite (bind_ok _ _ _ d (Disks st rd p)).
    2: { unfold load_disk, get, mbind, M_bind. simpl. rewrite (proj2 (Z.eqb_neq _ _) Hx0), Hd. done. }
    eexists. split; [reflexivity|]. split_and!; [exact Hch| |done]. simpl. rewrite lookup_insert_ne; [done|]. by intros ->.
Qed.

(** ** What a drive answers *)

(** A reset was the last thing the drive was told, apart from selecting it. *)
Fixpoint since_reset (base ctrl : Z) (tr : list io) : bool :=
  match tr with
  | [] => false
  | OutB p x :: tr =>
    if (p =? ctrl) && (x =? 0) then true
    else if (p =? base + 4) || (p =? base + 5) || (p =? base + 7) then false
    else since_reset base ctrl tr
  | _ :: tr => since_reset base ctrl tr
  end.

Section identify.
Context `{!Devices}.

(** [n] words of the answer to IDENTIFY have been taken. *)
Definition identifying (base : Z) (n : Z) (tr : list io) : Prop :=
  (∃ r, v_cmd (view_of base tr) = Some (ATA_CMD_IDENTIFY, r)) ∧ v_in (view_of base tr) = n.

(** A PATA drive: its signature after a reset is 0, and it answers IDENTIFY with [ident]. *)
Class Identifies (base ctrl : Z) (ident : list Z) : Prop := {
  id_signature : ∀ tr, since_reset base ctrl tr = true → answer8 tr (base + 4) = 0 ∧ answer8 tr (base + 5) = 0;
  id_present : ∀ tr, identifying base 0 tr → status base tr ≠ 0;
  id_data : ∀ n tr, identifying base n tr → 0 ≤ n < 256 → answer16 tr base = u16_at ident (2 * n)
}.
End identify.

(** The model in the order it is read. *)
Definition model_text (ident : list Z) (n : Z) : list Z :=
  (λ i, byte_at ident (ATA_IDENT_MODEL + (if Z.even i then i + 1 else i - 1))) <$> seqZ 0 n.

(** The drive as it is entered. *)
Definition found_drive (garbage : Z → Z) (base ctrl channel ms : Z) (ident : list Z) (p : Z) : ata_drive :=
  let sets := u32_at ident ATA_IDENT_COMMANDSETS in
  AtaDrive base ctrl (channel * 2 + ms) ATA_MODE_LBA28 ATA_TYPE_PATA ms (u16_at ident ATA_IDENT_CAPABILITIES) (s32 sets)
    (u16_at ident ATA_IDENT_DEVICETYPE)
    (s32 (if Z.land sets ATA_COMMAND_SET_48 =? 0 then u32_at ident ATA_IDENT_MAX_LBA else garbage p)).

Lemma halves_store p w m :
  (_ ← store8 p (Z.land w 255); store8 (p + 1) (Z.land (Z.shiftr w 8) 255)) m = store16 p w m.
Proof.
  assert (E : ∀ x, u8 (Z.land x 255) = u8 x).
  { intros x. change 255 with (Z.ones 8). rewrite Z.land_ones by lia. apply Z.mod_mod. lia. }
  unfold store16, store8. rewrite !E, Z.shiftr_div_pow2 by lia. done.
Qed.

Lemma ram_seq {A} (c c' : M bmem unit) (k : M ata A) s m :
  (_ ← c; c') (at_mem s) = Ok (tt, m) → (_ ← on_ram c; _ ← on_ram c'; k) s = k (with_io m (at_io s) s).
Proof.
  unfold mbind, M_bind, on_ram. destruct (c (at_mem s)) as [[[] m1]| |]; try done. simpl.
  by destruct (c' m1) as [[[] m2]| |]; intros [= <-].
Qed.

Lemma ram_read {A} (c : M bmem A) s a : c (at_mem s) = Ok (a, at_mem s) → on_ram c s = Ok (a, s).
Proof. intros E. rewrite (run_ram _ _ _ _ E). by destruct s. Qed.

Section drive.
Context `{!Devices} (base ctrl : Z) (disk : list Z) (patience : nat) (ident : list Z).
Context `{!AtaDevice base disk patience} `{!Identifies base ctrl ident}.
Variables (alloc : nat → Z) (garbage : Z → Z) (read_fn write_fn : Z).
Hypothesis base_port : 0 ≤ base < 65500.
Hypothesis ctrl_port : 0 ≤ ctrl < 65536.
Hypothesis ctrl_apart : ctrl < base ∨ base + 7 < ctrl.
Hypothesis ident_length : length ident = 512%nat.
Hypothesis ident_bytes : Forall is_byte ident.

Lemma identify_loop buf m s0 j : ∀ i tr,
  i + 2 * Z.of_nat j = 512 → 0 ≤ i → identifying base (i / 2) tr → i mod 2 = 0 → mapped m buf 512 →
  ∃ tr', loop (S j) (λ i,
      if i <? 512 then
        data ← on_ports (port_word_in (base + ATA_REG_DATA));
        _ ← on_ram (store8 (buf + i) (Z.land data 255));
        _ ← on_ram (store8 (buf + (i + 1)) (Z.land (Z.shiftr data 8) 255));
        mret (inl (i + 2))
      else mret (inr tt)) i (with_io (write_at m buf (slice ident 0 i)) tr s0)
    = Ok (tt, with_io (write_at m buf (slice ident 0 512)) tr' s0).
Proof.
  induction j as [|j IH]; intros i tr Hij Hi Hid Hev Hm.
  - replace i with 512 in * by lia. exists tr. by apply loop_done.
  - assert (Hi2 : 2 * (i / 2) = i) by (pose proof (Z.div_mod i 2); lia).
    assert (Hd : answer16 tr base = u16_at ident i) by (rewrite <- Hi2; apply id_data; [done|Z.to_euclidean_division_equations; lia]).
    set (w := u16_at ident i). set (s := with_io _ tr s0).
    assert (Hin : port_word_in (base + ATA_REG_DATA) (at_io s) = Ok (w, InW base w :: tr)).
    { unfold port_word_in, ATA_REG_DATA. rewrite Z.add_0_r, (u16_small base) by lia. simpl. rewrite Hd. fold w.
      rewrite u16_small by (by apply u16_at_range). done. }
    destruct (IH (i + 2) (InW base w :: tr)) as (tr' & Hrun); try lia; try done.
    + destruct Hid as [Hc Hn]. split; simpl; rewrite Z.eqb_refl; simpl; [done|]. rewrite Hn. Z.to_euclidean_division_equations; lia.
    + Z.to_euclidean_division_equations; lia.
    + exists tr'. erewrite loop_next; [exact Hrun|]. destruct (Z.ltb_spec i 512); [|lia].
      rewrite (bind_ok _ _ _ _ _ (run_ports _ _ _ _ Hin)). rewrite Z.add_assoc. erewrite ram_seq; [reflexivity|].
      rewrite halves_store. cbn [at_mem with_io s]. rewrite store16_run.
      * do 2 f_equal. rewrite (slice_word base ident base_port ident_bytes 0 i) by lia. rewrite Z.add_0_l. fold w.
        rewrite <- write_at_app_l, slice_length by lia. done.
      * apply mapped_write. intros q Hq. apply Hm. lia.
Qed.

Lemma identify_run buf s : identifying base 0 (at_io s) → mapped (at_mem s) buf 512 →
  ∃ tr, identify_words base buf s = Ok (tt, with_io (write_at (at_mem s) buf ident) tr s).
Proof.
  intros Hid Hm. destruct (identify_loop buf (at_mem s) s 256 0 (at_io s)) as (tr & Hrun); try done.
  exists tr. replace ident with (slice ident 0 512) at 1.
  - rewrite <- Hrun. by destruct s.
  - unfold slice. rewrite take_ge by (rewrite length_drop; lia). done.
Qed.

Lemma model_step i : 0 ≤ i → i mod 2 = 0 → model_text ident (i + 2) =
  model_text ident i ++ [byte_at ident (ATA_IDENT_MODEL + i + 1); byte_at ident (ATA_IDENT_MODEL + i)].
Proof.
  intros Hi Hev. unfold model_text. rewrite seqZ_app by lia. rewrite fmap_app. f_equal.
  assert (E : seqZ (0 + i) 2 = [i; i + 1]) by (unfold seqZ; simpl; f_equal; f_equal; lia).
  assert (He : Z.even i = true) by (rewrite Zeven_mod, Hev; done).
  rewrite E. cbn [fmap list_fmap]. rewrite Z.even_add, He. simpl. f_equal; [|f_equal]; f_equal; lia.
Qed.

Lemma model_length i : 0 ≤ i → Z.of_nat (length (model_text ident i)) = i.
Proof. intros Hi. unfold model_text. rewrite length_fmap, length_seqZ. lia. Qed.

Lemma copy_model_loop model buf s j : ∀ i, i + 2 * Z.of_nat j = 40 → 0 ≤ i → i mod 2 = 0 →
  bytes_at (at_mem s) buf ident → mapped (at_mem s) model 40 → disjoint_blocks buf 512 model 40 →
  loop (S j) (λ i,
    if i <? 40 then
      b ← on_ram (load8 (buf + (ATA_IDENT_MODEL + i + 1)));
      _ ← on_ram (store8 (model + i) b);
      b ← on_ram (load8 (buf + (ATA_IDENT_MODEL + i)));
      _ ← on_ram (store8 (model + (i + 1)) b);
      mret (inl (i + 2))
    else mret (inr tt)) i (with_io (write_at (at_mem s) model (model_text ident i)) (at_io s) s) =
  Ok (tt, with_io (write_at (at_mem s) model (model_text ident 40)) (at_io s) s).
Proof.
  induction j as [|j IH]; intros i Hij Hi Hev Hb Hm Hd.
  - replace i with 40 by lia. by apply loop_done.
  - assert (Hbs : ∀ cs, Z.of_nat (length cs) ≤ 40 → bytes_at (write_at (at_mem s) model cs) buf ident).
    { intros cs Hc. apply bytes_at_write; [|done]. rewrite ident_length. destruct Hd; [left|right]; lia. }
    assert (Hr : ∀ k, 0 ≤ k < 512 → u8 (byte_at ident k) = byte_at ident k).
    { intros k Hk. apply u8_small. by apply byte_at_range. }
    assert (Hln : ∀ cs k, Z.of_nat (length cs) ≤ 40 → 0 ≤ k < 512 →
      on_ram (load8 (buf + k)) (with_io (write_at (at_mem s) model cs) (at_io s) s) = Ok (byte_at ident k, with_io (write_at (at_mem s) model cs) (at_io s) s)).
    { intros cs k Hc Hk. apply ram_read. apply load8_at; [by apply Hbs|lia]. }
    assert (Hst : ∀ cs b k, k = Z.of_nat (length cs) → k < 40 → u8 b = b →
      on_ram (store8 (model + k) b) (with_io (write_at (at_mem s) model cs) (at_io s) s) =
      Ok (tt, with_io (write_at (at_mem s) model (cs ++ [b])) (at_io s) s)).
    { intros cs b k -> Hc E. erewrite run_ram; [reflexivity|]. cbn [at_mem with_io]. rewrite run_store8; [by rewrite E, write_at_snoc|].
      simpl. apply mapped_write with (p := model) (n := 40); [done|lia]. }
    pose proof (model_length i Hi) as Hml. unfold ATA_IDENT_MODEL in *. erewrite loop_next.
    2: { destruct (Z.ltb_spec i 40); [|lia]. rewrite (bind_ok _ _ _ _ _ (Hln (model_text ident i) (54 + i + 1) ltac:(lia) ltac:(lia))).
         erewrite bind_ok; [|apply Hst; [by rewrite Hml|lia|apply Hr; lia]].
         erewrite bind_ok; [|apply Hln; [rewrite length_app; simpl; lia|lia]].
         erewrite bind_ok; [reflexivity|]. apply Hst; [rewrite length_app; simpl; lia|lia|apply Hr; lia]. }
    rewrite <- app_assoc. cbn [app]. pose proof (model_step i Hi Hev) as Hms. unfold ATA_IDENT_MODEL in Hms. rewrite <- Hms. apply IH; try done; try lia. Z.to_euclidean_division_equations; lia.
Qed.
Definition with_drives (dr : gmap Z ata_drive) (s : ata) : ata :=
  Ata (at_mem s) dr (at_selected_mode s) (at_selected_drive s) (at_lock s) (at_errno s) (at_io s).

Lemma describe_run channel ms p buf s : bytes_at (at_mem s) buf ident → mapped (at_mem s) (p + MODEL_OFFSET) 40 →
  disjoint_blocks buf 512 (p + MODEL_OFFSET) 40 →
  describe_drive garbage base ctrl ATA_TYPE_PATA (channel * 2 + ms) ms p buf s =
    Ok (tt, with_drives (<[p := found_drive garbage base ctrl channel ms ident p]> (at_drives s))
              (with_io (write_at (at_mem s) (p + MODEL_OFFSET) (model_text ident 40)) (at_io s) s)).
Proof.
  intros Hb Hm Hd. unfold describe_drive.
  rewrite (bind_ok _ _ _ _ _ (ram_read _ s _ (load16_at _ _ _ ATA_IDENT_DEVICETYPE Hb ltac:(done) ltac:(rewrite ident_length; done)))).
  rewrite (bind_ok _ _ _ _ _ (ram_read _ s _ (load16_at _ _ _ ATA_IDENT_CAPABILITIES Hb ltac:(done) ltac:(rewrite ident_length; done)))).
  rewrite (bind_ok _ _ _ _ _ (ram_read _ s _ (load32_at _ _ _ ATA_IDENT_COMMANDSETS Hb ltac:(done) ltac:(rewrite ident_length; done)))).
  set (sets := u32_at ident ATA_IDENT_COMMANDSETS).
  rewrite (bind_ok _ _ _ (if Z.land sets ATA_COMMAND_SET_48 =? 0 then u32_at ident ATA_IDENT_MAX_LBA else garbage p) s).
  2: { destruct (Z.land sets ATA_COMMAND_SET_48 =? 0); [|done]. apply ram_read, load32_at; [done|done|by rewrite ident_length]. }
  rewrite (bind_ok _ _ _ tt (with_drives (<[p := found_drive garbage base ctrl channel ms ident p]> (at_drives s)) s)) by done.
  set (s1 := with_drives _ s). pose proof (copy_model_loop (p + MODEL_OFFSET) buf s1 20 0) as Hc. cbn [with_io] in Hc.
  apply Hc; done.
Qed.

Lemma poll_total : quiet base (ata_polling patience base true) (λ _, True).
Proof.
  intros tr. destruct (wait_quiet base tr) as ([] & tr1 & Hw & _ & V1).
  destruct (clear_bsy_run base disk patience base_port tr1) as (tr0 & tr2 & Hb & _ & _ & V2).
  unfold ata_polling. rewrite (bind_ok _ _ _ _ _ Hw), (bind_ok _ _ _ _ _ Hb).
  destruct (_ || _).
  - destruct (wait_quiet base tr2) as ([] & tr3 & Hw3 & _ & V3). rewrite (bind_ok _ _ _ _ _ Hw3).
    do 2 eexists. split; [reflexivity|]. split; [done|]. simpl. congruence.
  - destruct (_ =? 0); do 2 eexists; (split; [reflexivity|]; split; [done|congruence]).
Qed.

(** Steps of the detection. *)
Lemma ports_step {A B} (c : M (list io) A) (k : A → M ati B) s a tr : c (at_io (ti_ata s)) = Ok (a, tr) →
  (x ← on_ata (on_ports c); k x) s = k a (Ati (with_io (at_mem (ti_ata s)) tr (ti_ata s)) (ti_disks s) (ti_allocs s)).
Proof. unfold mbind, M_bind, on_ata, on_ports. by intros ->. Qed.

Lemma ata_step {A B} (c : M ata A) (k : A → M ati B) s a t : c (ti_ata s) = Ok (a, t) →
  (x ← on_ata c; k x) s = k a (Ati t (ti_disks s) (ti_allocs s)).
Proof. unfold mbind, M_bind, on_ata. by intros ->. Qed.

(** After the reset and the selection the drive shows its signature. *)
Lemma reset_run dev tr : ∃ tr', (_ ← ata_software_reset base ctrl; _ ← port_byte_out (base + ATA_REG_HDDEVSEL) dev; ata_wait base) tr =
  Ok (tt, tr') ∧ since_reset base ctrl tr' = true.
Proof.
  eexists. split; [reflexivity|]. unfold ATA_REG_HDDEVSEL. rewrite (u16_small (base + 6)), !(u16_small ctrl) by lia. cbn [since_reset].
  destruct (Z.eqb_spec (base + 6) ctrl); [lia|]. destruct (Z.eqb_spec (base + 6) (base + 4)); [lia|].
  destruct (Z.eqb_spec (base + 6) (base + 5)); [lia|]. destruct (Z.eqb_spec (base + 6) (base + 7)); [lia|]. simpl. by rewrite Z.eqb_refl.
Qed.
Lemma ports_step3 {A B C D} (c1 : M (list io) A) (c2 : M (list io) B) (c3 : M (list io) C) (k : M ati D) s x tr :
  (_ ← c1; _ ← c2; c3) (at_io (ti_ata s)) = Ok (x, tr) →
  (_ ← on_ata (on_ports c1); _ ← on_ata (on_ports c2); _ ← on_ata (on_ports c3); k) s =
    k (Ati (with_io (at_mem (ti_ata s)) tr (ti_ata s)) (ti_disks s) (ti_allocs s)).
Proof.
  unfold mbind, M_bind, on_ata, on_ports. destruct (c1 _) as [[a1 tr1]| |]; try done. cbn. destruct (c2 tr1) as [[a2 tr2]| |]; try done. cbn.
  destruct (c3 tr2) as [[a3 tr3]| |]; try done. by intros [= -> ->].
Qed.

Lemma in_zero k tr : 0 ≤ k < 8 → answer8 tr (base + k) = 0 → port_byte_in (base + k) tr = Ok (0, InB (base + k) 0 :: tr).
Proof. intros Hk E. unfold port_byte_in. by rewrite u16_small, E by lia. Qed.

(** The command, the drive's first status and waiting for its answer. *)
Lemma identify_command s : ∃ st r tr tr' tr'',
  port_byte_out (base + ATA_REG_CMD) ATA_CMD_IDENTIFY (at_io s) = Ok (tt, tr) ∧
  port_byte_in (base + ATA_REG_STATUS) tr = Ok (st, tr') ∧ st ≠ 0 ∧ ata_polling patience base true tr' = Ok (r, tr'') ∧
  identifying base 0 tr''.
Proof.
  set (tr := OutB (base + 7) 236 :: at_io s). assert (Hid : identifying base 0 tr).
  { unfold identifying, tr. simpl. rewrite Z.eqb_refl. by split; [eexists|]. }
  pose proof (id_present tr Hid) as Hp. destruct (poll_total (InB (base + 7) (status base tr) :: tr)) as (r & tr'' & E & _ & V).
  exists (status base tr), r, tr, (InB (base + 7) (status base tr) :: tr), tr''. split_and!; try done.
  - unfold port_byte_out, ATA_REG_CMD. rewrite u16_small by lia. done.
  - by apply status_in.
  - unfold identifying. rewrite V. exact Hid.
Qed.

Lemma register_disk_run s ds p : let a := alloc (ti_allocs s) in let d := ti_disks s in
  disk_chain (disk_store d) (disk_list d) ds → NoDup ds → a ∉ ds → a ≠ 0 →
  ∃ d', register_disk alloc read_fn write_fn p s = Ok (tt, Ati (ti_ata s) d' (S (ti_allocs s))) ∧
    disk_chain (disk_store d') (disk_list d') (ds ++ [a]) ∧
    disk_store d' !! a = Some (DiskT DISK_TYPE_HARDDISK (p + MODEL_OFFSET) p 512 read_fn write_fn 0).
Proof.
  intros a d Hc Hn Ha Ha0. set (dt := DiskT _ _ _ _ _ _ _).
  destruct (add_disk_run ds a dt (<[a := dt]> (disk_store d)) (rd_store d) (disk_list d)) as (d' & E & Hch & Hd & _); try done.
  - by apply disk_chain_insert.
  - apply lookup_insert_eq.
  - exists d'. split; [|done]. unfold register_disk. rewrite (bind_ok _ _ _ a (Ati (ti_ata s) d (S (ti_allocs s)))) by done.
    rewrite (bind_ok _ _ _ tt (Ati (ti_ata s) (Disks (<[a := dt]> (disk_store d)) (rd_store d) (disk_list d)) (S (ti_allocs s)))) by done.
    unfold on_disks. cbn [ti_disks]. by rewrite E.
Qed.

Lemma probe_run channel ms s ds :
  let a0 := alloc (ti_allocs s) in let a1 := alloc (S (ti_allocs s)) in let a2 := alloc (S (S (ti_allocs s))) in
  let t := ti_ata s in
  mapped (at_mem t) a0 512 → mapped (at_mem t) (a1 + MODEL_OFFSET) 40 → disjoint_blocks a0 512 (a1 + MODEL_OFFSET) 40 →
  disk_chain (disk_store (ti_disks s)) (disk_list (ti_disks s)) ds → NoDup ds → a2 ∉ ds → a2 ≠ 0 →
  ∃ s', probe_drive patience alloc garbage read_fn write_fn channel base ctrl ms s = Ok (true, s') ∧
    let t' := ti_ata s' in
    at_drives t' = <[a1 := found_drive garbage base ctrl channel ms ident a1]> (at_drives t) ∧
    bytes_at (at_mem t') (a1 + MODEL_OFFSET) (model_text ident 40) ∧
    (∀ q, ¬ a0 ≤ q < a0 + 512 → ¬ a1 + MODEL_OFFSET ≤ q < a1 + MODEL_OFFSET + 40 → at_mem t' !! q = at_mem t !! q) ∧
    at_selected_drive t' = at_selected_drive t ∧ at_selected_mode t' = at_selected_mode t ∧ at_lock t' = at_lock t ∧
    disk_chain (disk_store (ti_disks s')) (disk_list (ti_disks s')) (ds ++ [a2]) ∧
    disk_store (ti_disks s') !! a2 = Some (DiskT DISK_TYPE_HARDDISK (a1 + MODEL_OFFSET) a1 512 read_fn write_fn 0).
Proof.
  intros a0 a1 a2 t Hm0 Hm1 Hdj Hch Hnd Ha Hz. unfold probe_drive.
  destruct (reset_run (Z.lor 160 (Z.shiftl ms 4)) (at_io t)) as (tr1 & E1 & S1). rewrite (ports_step3 _ _ _ _ _ _ _ E1).
  destruct (id_signature tr1 S1) as [L1 _]. erewrite ports_step; [|exact (in_zero 4 tr1 ltac:(lia) L1)].
  destruct (id_signature (InB (base + 4) 0 :: tr1) S1) as [_ L2]. erewrite ports_step; [|exact (in_zero 5 _ ltac:(lia) L2)].
  change (u16 (Z.lor (Z.shiftl 0 8) 0)) with 0. change (0 =? ATA_TYPE_PATA) with true. cbv zeta. cbn [negb]. set (tr2 := InB (base + 5) 0 :: _).
  erewrite bind_ok; [|reflexivity]. cbn [ti_allocs ti_ata ti_disks]. fold a0 t.
  erewrite ata_step; [|apply run_ram; apply (memset_zero_run (at_mem t) a0 512); exact Hm0].
  cbn [ti_allocs ti_ata ti_disks]. change (replicate (4 * (512 / 4)) 0) with (replicate 512 0). set (m1 := write_at _ _ _). set (t1 := with_io m1 _ _).
  destruct (identify_command t1) as (st & r & tr3 & tr4 & tr5 & E3 & E4 & Hst & E5 & Hid).
  erewrite ports_step; [|exact E3]. erewrite ports_step; [|exact E4]. rewrite (proj2 (Z.eqb_neq _ _) Hst). erewrite ports_step; [|exact E5].
  assert (Hm1' : mapped m1 a0 512) by (by apply mapped_write).
  destruct (identify_run a0 (with_io m1 tr5 t1) Hid Hm1') as (tr6 & E6). erewrite ata_step; [|exact E6].
  cbn [ti_allocs ti_ata ti_disks]. erewrite bind_ok; [|reflexivity]. cbn [ti_allocs ti_ata ti_disks at_mem with_io]. fold a1.
  set (m2 := write_at m1 a0 ident). pose (t2 := with_io m2 tr6 t).
  assert (D1 : describe_drive garbage base ctrl 0 (channel * 2 + ms) ms a1 a0 t2 = Ok (tt, with_drives
    (<[a1 := found_drive garbage base ctrl channel ms ident a1]> (at_drives t)) (with_io (write_at m2 (a1 + MODEL_OFFSET) (model_text ident 40)) tr6 t2))).
  { apply (describe_run channel ms a1 a0 t2); [apply write_at_in|by do 2 apply mapped_write|done]. }
  erewrite ata_step; [|exact D1]. cbn [ti_allocs ti_ata ti_disks].
  destruct (register_disk_run (Ati (with_drives (<[a1 := found_drive garbage base ctrl channel ms ident a1]> (at_drives t))
    (with_io (write_at m2 (a1 + MODEL_OFFSET) (model_text ident 40)) tr6 t2)) (ti_disks s) (S (S (ti_allocs s)))) ds a1 Hch Hnd Ha Hz) as (d' & E7 & Hch' & Hd').
  eexists. rewrite (bind_ok _ _ _ _ _ E7). split; [reflexivity|]. cbv zeta. cbn [ti_ata ti_disks at_drives at_mem at_selected_drive at_selected_mode at_lock with_drives with_io].
  split_and!; try done; [apply write_at_in|]. intros q Hq0 Hq1. rewrite write_at_out by (rewrite (model_length 40) by lia; lia).
  unfold m2, m1. rewrite !write_at_out; [done|rewrite length_replicate; lia|rewrite ident_length; lia].
Qed.


(** A drive that was found can be read: with the capability of block addresses, reading
    through the structure that detection left delivers the sectors addressed. *)
Theorem found_drive_reads channel ms s ds lba buf count :
  let a0 := alloc (ti_allocs s) in let a1 := alloc (S (ti_allocs s)) in let a2 := alloc (S (S (ti_allocs s))) in
  let t := ti_ata s in let d := found_drive garbage base ctrl channel ms ident a1 in
  mapped (at_mem t) a0 512 → mapped (at_mem t) (a1 + MODEL_OFFSET) 40 → disjoint_blocks a0 512 (a1 + MODEL_OFFSET) 40 →
  disk_chain (disk_store (ti_disks s)) (disk_list (ti_disks s)) ds → NoDup ds → a2 ∉ ds → a2 ≠ 0 →
  Forall is_byte disk → Z.land (u16_at ident ATA_IDENT_CAPABILITIES) ATA_CAPABILITIES_LBA ≠ 0 → at_lock t = 0 →
  a1 ≠ at_selected_drive t → lba_mode d lba ≠ at_selected_mode t →
  0 ≤ lba < 268435456 → 1 ≤ count ≤ 256 → 512 * (lba + count) ≤ Z.of_nat (length disk) → mapped (at_mem t) buf (512 * count) →
  disjoint_blocks buf (512 * count) a0 512 → disjoint_blocks buf (512 * count) (a1 + MODEL_OFFSET) 40 →
  ∃ s' t', probe_drive patience alloc garbage read_fn write_fn channel base ctrl ms s = Ok (true, s') ∧
    atapio_read patience a1 lba buf count (ti_ata s') = Ok (count, t') ∧
    bytes_at (at_mem t') buf (slice disk (512 * lba) (512 * count)).
Proof.
  intros a0 a1 a2 t d Hm0 Hm1 Hdj Hch Hnd Ha Hz Hdb Hcap Hlk Hsd Hsm Hlba Hcnt Hlen Hmb Hb0 Hb1.
  destruct (probe_run channel ms s ds Hm0 Hm1 Hdj Hch Hnd Ha Hz) as (s' & E & Hdr & _ & Hk & Hsd' & Hsm' & Hl & _). exists s'.
  assert (Hd : at_drives (ti_ata s') !! a1 = Some d) by (rewrite Hdr; apply lookup_insert_eq).
  assert (Haddr : address base a1 d lba (ti_ata s') = lba).
  { assert (Hre : reselects a1 (lba_mode d lba) (ti_ata s') = true).
    { apply andb_true_intro. split; apply negb_true_iff, Z.eqb_neq; intros Hx; [apply Hsd; exact (eq_trans Hx Hsd')|apply Hsm; exact (eq_trans Hx Hsm')]. }
    unfold address, high_bits. rewrite Hre. Z.to_euclidean_division_equations; lia. }
  destruct (atapio_read_run base disk patience base_port Hdb a1 d lba buf count (ti_ata s')) as (t' & Hr & Hm & _); try done.
  - by rewrite Hl.
  - lia.
  - by rewrite Haddr.
  - intros q Hq. rewrite Hk; [by apply Hmb|destruct Hb0; lia|destruct Hb1; lia].
  - exists t'. split_and!; [done..|]. rewrite Hm, Haddr. apply write_at_in.
Qed.
End drive.

(** ** Witnesses *)

(** The disk of two sectors, with a name of twenty times AB. *)
Definition demo_ident : list Z :=
  replicate 54 0 ++ concat (replicate 20 [66; 65]) ++ replicate 4 0 ++ [0; 2] ++ replicate 412 0.

Definition demo_pata : Devices := {|
  answer8 := λ tr p, if since_reset 496 1014 tr && ((p =? 500) || (p =? 501)) then 0 else 8;
  answer16 := λ tr _, match v_cmd (view_of 496 tr) with
                      | Some (c, r) =>
                        if c =? ATA_CMD_IDENTIFY then u16_at demo_ident (2 * v_in (view_of 496 tr))
                        else u16_at demo_disk (512 * lba28 r + 2 * v_in (view_of 496 tr))
                      | None => 0
                      end;
  answer32 := λ _ _, 0
|}.

Lemma demo_pata_status tr : @status demo_pata 496 tr = 8.
Proof. unfold status. simpl. rewrite andb_false_r. done. Qed.

Lemma demo_pata_ok : @AtaDevice demo_pata 496 demo_disk 1.
Proof.
  split.
  - intros tr. exists 0%nat. split; [lia|]. split; [lia|]. unfold busy. cbn [looks]. rewrite demo_pata_status. by intros [].
  - intros r n tr _ _ _. by rewrite demo_pata_status.
  - intros r n tr [Hr1 Hr2] _ _. simpl. by rewrite Hr1, Hr2.
Qed.

Lemma demo_pata_identifies : @Identifies demo_pata 496 1014 demo_ident.
Proof.
  split.
  - intros tr Hs. simpl. by rewrite Hs.
  - intros tr _. by rewrite demo_pata_status.
  - intros n tr [[r Hr] Hn] _. simpl. by rewrite Hr, Hn.
Qed.

(** Blocks at 1000, 2000 and 3000; the memory is mapped from 1000 on. *)
Definition demo_alloc (n : nat) : Z := 1000 * (Z.of_nat n + 1).

Definition demo_ati : ati := Ati (Ata (write_at ∅ 1000 (replicate 2000 1)) ∅ 0 0 0 0 []) (Disks ∅ ∅ 0) 0.

Lemma demo_ati_mapped p n : 1000 ≤ p → p + n ≤ 3000 → mapped (at_mem (ti_ata demo_ati)) p n.
Proof.
  intros Hp Hn q Hq. apply (bytes_at_mapped (at_mem (ti_ata demo_ati)) 1000 (replicate 2000 1)); [apply write_at_in|].
  rewrite length_replicate. lia.
Qed.


Lemma found_drive_reads_witness :
  let s := Ati (Ata (write_at ∅ 1000 (replicate 3000 1)) ∅ 0 0 0 0 []) (Disks ∅ ∅ 0) 0 in
  ∃ s' t', @probe_drive demo_pata 1 demo_alloc (λ _, 0) 5 6 0 496 1014 0 s = Ok (true, s') ∧
    @atapio_read demo_pata 1 2000 1 3000 1 (ti_ata s') = Ok (1, t') ∧
    bytes_at (at_mem t') 3000 (slice demo_disk (512 * 1) (512 * 1)).
Proof.
  intros s. assert (Hm : ∀ p n, 1000 ≤ p → p + n ≤ 4000 → mapped (at_mem (ti_ata s)) p n).
  { intros p n Hp Hn q Hq. apply (bytes_at_mapped (at_mem (ti_ata s)) 1000 (replicate 3000 1)); [apply write_at_in|]. rewrite length_replicate. lia. }
  refine (@found_drive_reads demo_pata 496 1014 demo_disk 1 demo_ident demo_pata_ok demo_pata_identifies demo_alloc (λ _, 0) 5 6
    _ _ _ _ _ 0 0 s [] 1 3000 1 _ _ _ _ _ _ _ _ _ _ _ _ _ _ _ _ _ _).
  all: try change (demo_alloc (ti_allocs s)) with 1000; try change (demo_alloc (S (ti_allocs s))) with 2000; try change (demo_alloc (S (S (ti_allocs s)))) with 3000.
  all: unfold MODEL_OFFSET; try lia; try reflexivity; try discriminate; try (apply Hm; lia).
  - unfold demo_ident. rewrite !Forall_app. split_and!; try (apply Forall_replicate; by split); [|by repeat constructor].
    apply Forall_concat, Forall_replicate. by repeat constructor.
  - left. lia.
  - constructor.
  - apply not_elem_of_nil.
  - unfold demo_disk. apply Forall_app. split; apply Forall_replicate; by split.
  - right. lia.
  - right. lia.
Defined.

(** ** A drive behind another device *)

(** What was last written to the device register. *)
Fixpoint selected (base : Z) (tr : list io) : Z :=
  match tr with
  | [] => 0
  | OutB p x :: tr => if p =? base + 6 then x else selected base tr
  | _ :: tr => selected base tr
  end.

(** The slave is not looked for when the master is no PATA drive, such as a CD drive with
    the signature 0xEB14: whatever the slave is, the channel ends with no drive and no
    disk entered. *)
Theorem slave_hidden `{!Devices} patience alloc garbage read_fn write_fn BAR channel bar bar' s :
  BAR !! Z.to_nat channel = Some bar → BAR !! Z.to_nat (channel + 1) = Some bar' →
  let base := channel_base channel bar in let ctrl := channel_ctrl channel bar' in
  0 ≤ base < 65500 → 0 ≤ ctrl < 65536 → ctrl ≠ base + 6 →
  (∀ tr, selected base tr = 160 → answer8 tr (base + 4) = 20 ∧ answer8 tr (base + 5) = 235) →
  ∃ tr, probe_channel patience alloc garbage read_fn write_fn BAR channel s =
    Ok (tt, Ati (with_io (at_mem (ti_ata s)) tr (ti_ata s)) (ti_disks s) (ti_allocs s)).
Proof.
  intros Hb1 Hb2 base ctrl Hb Hc Hne Hcd. unfold probe_channel. rewrite Hb1, Hb2.
  do 2 (erewrite bind_ok; [|reflexivity]). fold base ctrl. erewrite ports_step; [|reflexivity].
  set (s1 := Ati _ _ _). set (c := _ ← ata_software_reset base ctrl; _ ← port_byte_out (base + ATA_REG_HDDEVSEL) (Z.lor 160 (Z.shiftl 0 4)); ata_wait base).
  assert (H1 : ∃ tr1, c (at_io (ti_ata s1)) = Ok (tt, tr1) ∧ selected base tr1 = 160).
  { eexists. split; [reflexivity|]. cbn [selected]. unfold ATA_REG_HDDEVSEL. rewrite u16_small by lia. by rewrite Z.eqb_refl. }
  destruct H1 as (tr1 & E1 & S1).
  assert (Hin : ∀ k v tr, 0 ≤ k < 8 → answer8 tr (base + k) = v → 0 ≤ v < 256 → port_byte_in (base + k) tr = Ok (v, InB (base + k) v :: tr)).
  { intros k v tr Hk E Hv. unfold port_byte_in. rewrite u16_small by lia. by rewrite E, u8_small. }
  exists (InB (base + 5) 235 :: InB (base + 4) 20 :: tr1). apply loop_done. cbn [Z.ltb Z.compare].
  set (s2 := Ati _ _ _). rewrite (bind_ok _ _ _ false s2); [reflexivity|]. unfold probe_drive.
  erewrite ports_step3; [|exact E1].
  erewrite ports_step; [|exact (Hin 4 20 tr1 ltac:(lia) (proj1 (Hcd tr1 S1)) ltac:(lia))].
  erewrite ports_step; [|exact (Hin 5 235 _ ltac:(lia) (proj2 (Hcd (InB (base + 4) 20 :: tr1) S1)) ltac:(lia))].
  reflexivity.
Qed.

Lemma slave_hidden_witness :
  let H : Devices := {| answer8 := λ tr p, if selected 496 tr =? 160 then if p =? 500 then 20 else 235 else 0; answer16 := λ _ _, 0; answer32 := λ _ _, 0 |} in
  ∃ tr, probe_channel 1 demo_alloc (λ _, 0) 5 6 [0; 0; 0; 0; 0; 0] 0 demo_ati =
    Ok (tt, Ati (with_io (at_mem (ti_ata demo_ati)) tr (ti_ata demo_ati)) (ti_disks demo_ati) (ti_allocs demo_ati)).
Proof.
  intros H.
  refine (slave_hidden 1 demo_alloc (λ _, 0) 5 6 [0; 0; 0; 0; 0; 0] 0 0 0 demo_ati eq_refl eq_refl _ _ _ _); try (by vm_compute).
  intros tr Hs. simpl. change (channel_base 0 0) with 496 in *. rewrite Hs. done.
Defined.
