(* ===== verification/Kmem.v ===== *)
(** * The kernel's memory as its clients see it (kernel/mm/heap.c)

    The byte memory of [LibK] together with an allocator: an address is mapped
    when it belongs to storage that is in use, so a read past a block or after
    [kfree] is [Fault].  [KernelHeap] and [HeapLaws] are what the file system
    code relies on; [mm_heap_laws] shows that [kmalloc] and [kfree] of the memory
    manager provide it. *)
From S2P Require Import Prelude LinkedList Frames Mm HeapApi LibK Disk.

Class KernelHeap (H : Type) := {
  hmalloc : Z → M (bmem * H) Z;
  hfree : Z → M (bmem * H) Z;
  hmalloc_user : Z → M (bmem * H) Z
}.

(** ** string.c: copies in memory of their own *)

Section strdup.
Context {H : Type} `{!KernelHeap H}.

(** Both take the copy from the user heap. *)
Definition strdup_user (str : Z) : M (bmem * H) Z :=
  l ← on_mem (strlen str);
  let len := s32 (l + 1) in
  newstr ← hmalloc_user (u32 len);
  _ ← on_mem (memcpy newstr str (u32 len));
  mret newstr.

Definition strdup (str : Z) : M (bmem * H) Z :=
  l ← on_mem (strlen str);
  let len := s32 (l + 1) in
  newstr ← hmalloc_user (u32 len);
  _ ← on_mem (memcpy newstr str (u32 len));
  mret newstr.

Definition strdup_s (mem len : Z) : M (bmem * H) Z :=
  new ← hmalloc (u32 (len + 1));
  _ ← on_mem (memcpy new mem (u32 len));
  _ ← on_mem (store8 (new + len) 0);
  mret new.
End strdup.

(** The memory without the [n] bytes at [p]. *)
Definition clear_at (m : bmem) (p n : Z) : bmem := filter (λ kv, ¬ p ≤ kv.1 < p + n) m.

Definition unmapped (m : bmem) (p n : Z) : Prop := ∀ q, p ≤ q < p + n → m !! q = None.

(** [heap_rep m h live room]: the heap [h] manages part of the memory [m], the
    blocks of [live] (address and size) are in use, and requests whose charges sum
    to at most [room] succeed.  The bytes of a new block are arbitrary. *)
Class HeapLaws (H : Type) `{!KernelHeap H} := {
  heap_rep : bmem → H → gmap Z Z → Z → Prop;
  charge : Z → Z;
  charge_pos : ∀ n, 0 ≤ n → 0 ≤ charge n;
  heap_rep_dom : ∀ m m' h L r, dom m' = dom m → heap_rep m h L r → heap_rep m' h L r;
  heap_rep_room : ∀ m h L r r', heap_rep m h L r → r' ≤ r → heap_rep m h L r';
  heap_rep_sub : ∀ m h L L' r, heap_rep m h L r → L' ⊆ L → heap_rep m h L' r;
  hmalloc_ok : ∀ n m h L r, heap_rep m h L r → 0 ≤ n < 2147483648 → charge n ≤ r →
    ∃ p bs h', hmalloc n (m, h) = Ok (p, (write_at m p bs, h')) ∧
      0 < p ∧ p + Z.of_nat (length bs) < 4294967296 ∧
      n ≤ Z.of_nat (length bs) ∧ Forall is_byte bs ∧ unmapped m p (Z.of_nat (length bs)) ∧
      L !! p = None ∧
      heap_rep (write_at m p bs) h' (<[p := Z.of_nat (length bs)]> L) (r - charge n);
  hfree_ok : ∀ p n m h L r, heap_rep m h L r → L !! p = Some n →
    ∃ h', hfree p (m, h) = Ok (0, (clear_at m p n, h')) ∧
      heap_rep (clear_at m p n) h' (delete p L) r
}.

(** The same for the user heap, whose blocks are kept. *)
Class UserLaws (H : Type) `{!KernelHeap H} := {
  user_rep : bmem → H → Z → Prop;
  ucharge : Z → Z;
  ucharge_pos : ∀ n, 0 ≤ n → 0 ≤ ucharge n;
  user_rep_dom : ∀ m m' h r, dom m' = dom m → user_rep m h r → user_rep m' h r;
  user_rep_room : ∀ m h r r', user_rep m h r → r' ≤ r → user_rep m h r';
  hmalloc_user_ok : ∀ n m h r, user_rep m h r → 0 ≤ n < 2147483648 → ucharge n ≤ r →
    ∃ p bs h', hmalloc_user n (m, h) = Ok (p, (write_at m p bs, h')) ∧
      0 < p ∧ p + Z.of_nat (length bs) < 4294967296 ∧
      n ≤ Z.of_nat (length bs) ∧ Forall is_byte bs ∧ unmapped m p (Z.of_nat (length bs)) ∧
      user_rep (write_at m p bs) h' (r - ucharge n)
}.

(** ** Memory with blocks taken out *)

Lemma clear_at_out m p n q : ¬ p ≤ q < p + n → clear_at m p n !! q = m !! q.
Proof.
  intros Hq. unfold clear_at. apply option_eq. intros b.
  rewrite map_lookup_filter_Some. simpl. tauto.
Qed.

Lemma clear_at_in m p n q : p ≤ q < p + n → clear_at m p n !! q = None.
Proof.
  intros Hq. unfold clear_at. apply map_lookup_filter_None. right. simpl. tauto.
Qed.

(** What was written to a fresh block is gone when the block is freed. *)
Lemma clear_at_fresh m m' p n :
  unmapped m p n → (∀ q, ¬ p ≤ q < p + n → m' !! q = m !! q) → clear_at m' p n = m.
Proof.
  intros Hu Hm. apply map_eq. intros q. destruct (decide (p ≤ q < p + n)) as [Hq|Hq].
  - rewrite clear_at_in by done. symmetry. by apply Hu.
  - rewrite clear_at_out by done. by apply Hm.
Qed.

Lemma write_at_comm m p bs q cs :
  p + Z.of_nat (length bs) ≤ q ∨ q + Z.of_nat (length cs) ≤ p →
  write_at (write_at m p bs) q cs = write_at (write_at m q cs) p bs.
Proof.
  intros Hd. apply map_eq. intros x. rewrite !write_at_lookup. repeat destruct (decide _); try done; lia.
Qed.

Lemma write_at_lookup_None m p bs q : write_at m p bs !! q = None → m !! q = None.
Proof.
  rewrite write_at_lookup. destruct (decide _); [|done]. intros Hq%lookup_ge_None. lia.
Qed.

Lemma dom_write_at m p bs : mapped m p (Z.of_nat (length bs)) → dom (write_at m p bs) = dom m.
Proof.
  intros Hm. apply set_eq. intros q. rewrite !elem_of_dom.
  destruct (decide (p ≤ q < p + Z.of_nat (length bs))) as [Hin|Hout].
  - split; intros _; [by apply Hm|]. destruct (write_at m p bs !! q) eqn:Hq; [done|].
    apply write_at_lookup_None in Hq. destruct (Hm q Hin). congruence.
  - by rewrite write_at_out.
Qed.

Lemma mapped_sub m p n q k : mapped m p n → p ≤ q → q + k ≤ p + n → mapped m q k.
Proof. intros Hm ?? x Hx. apply Hm. lia. Qed.

Lemma unmapped_apart m p n q k :
  unmapped m p n → mapped m q k → 0 < n → 0 < k → p + n ≤ q ∨ q + k ≤ p.
Proof.
  intros Hu Hm Hn Hk. destruct (decide (p + n ≤ q ∨ q + k ≤ p)) as [|Hx]; [done|].
  assert (is_Some (m !! Z.max p q)) as [b Hb] by (apply Hm; lia).
  rewrite Hu in Hb by lia. done.
Qed.

(** Reading sees no difference in a larger memory. *)
Lemma bytes_at_sub m m' p bs : m ⊆ m' → bytes_at m p bs → bytes_at m' p bs.
Proof. intros Hm Hb i b Hi. eapply lookup_weaken; [by apply Hb|done]. Qed.

Lemma cstr_sub m m' p s : m ⊆ m' → cstr m p s → cstr m' p s.
Proof. intros Hm [Hb Hs]. split; [by eapply bytes_at_sub|done]. Qed.

(** ** A block taken from the heap for a while

    [m] is [m0] with [n] more bytes at [p]. *)
Section scratch.
Context {H : Type} `{HeapLaws H}.

Record scratch (m0 : bmem) (L : gmap Z Z) (r p n : Z) (m : bmem) (h : H) : Prop := Scratch {
  sc_fresh : unmapped m0 p n;
  sc_mapped : mapped m p n;
  sc_rest : ∀ q, ¬ p ≤ q < p + n → m !! q = m0 !! q;
  sc_live : L !! p = None;
  sc_heap : heap_rep m h (<[p := n]> L) r;
  sc_pos : 0 < p ∧ p + n < 4294967296
}.

Lemma scratch_alloc m h L r n :
  heap_rep m h L r → 0 ≤ n < 2147483648 → charge n ≤ r →
  ∃ p k m' h', hmalloc n (m, h) = Ok (p, (m', h')) ∧ n ≤ k ∧
    scratch m L (r - charge n) p k m' h'.
Proof.
  intros Hh Hn Hr. destruct (hmalloc_ok n m h L r Hh Hn Hr)
    as (p & bs & h' & Hrun & ? & ? & ? & _ & ? & ? & ?).
  exists p, (Z.of_nat (length bs)), (write_at m p bs), h'. split; [done|]. split; [done|].
  split; try done; [apply write_at_mapped|]. intros q Hq. by apply write_at_out.
Qed.

Lemma scratch_sub m0 L r p n m h : scratch m0 L r p n m h → m0 ⊆ m.
Proof.
  intros Hs. apply map_subseteq_spec. intros q b Hq.
  destruct (decide (p ≤ q < p + n)) as [Hin|Hout].
  - by rewrite (sc_fresh _ _ _ _ _ _ _ Hs) in Hq.
  - by rewrite (sc_rest _ _ _ _ _ _ _ Hs).
Qed.

Lemma scratch_write m0 L r p n m h q bs :
  scratch m0 L r p n m h → p ≤ q → q + Z.of_nat (length bs) ≤ p + n →
  scratch m0 L r p n (write_at m q bs) h.
Proof.
  intros [Hf Hm Hr Hl Hh Hp] H1 H2. split; try done.
  - by apply mapped_write.
  - intros x Hx. rewrite write_at_out by lia. by apply Hr.
  - eapply heap_rep_dom; [|done]. apply dom_write_at. by eapply mapped_sub.
Qed.

(** The rest of the memory may be written meanwhile. *)
Lemma scratch_outside m0 L r p n m h q bs :
  scratch m0 L r p n m h → mapped m0 q (Z.of_nat (length bs)) →
  scratch (write_at m0 q bs) L r p n (write_at m q bs) h.
Proof.
  intros Hs Hq. pose proof (scratch_sub _ _ _ _ _ _ _ Hs) as Hsub. destruct Hs as [Hf Hm Hr Hl Hh Hp].
  assert (Hap : ∀ x, p ≤ x < p + n → ¬ q ≤ x < q + Z.of_nat (length bs)).
  { intros x Hx Hx'. destruct (Hq x Hx') as [b Hb]. by rewrite Hf in Hb. }
  split; try done.
  - intros x Hx. rewrite write_at_out by by apply Hap. by apply Hf.
  - by apply mapped_write.
  - intros x Hx. rewrite !write_at_lookup. destruct (decide _); [done|]. by apply Hr.
  - eapply heap_rep_dom; [|done]. apply dom_write_at. intros x Hx.
    destruct (Hq x Hx) as [b Hb]. exists b. by eapply lookup_weaken.
Qed.

(** The heap may be used for other blocks meanwhile. *)
Lemma scratch_heap m0 L r p n m h r' h' :
  scratch m0 L r p n m h → heap_rep m h' (<[p := n]> L) r' → scratch m0 L r' p n m h'.
Proof. by intros []. Qed.

Lemma scratch_free m0 L r p n m h :
  scratch m0 L r p n m h →
  ∃ h', hfree p (m, h) = Ok (0, (m0, h')) ∧ heap_rep m0 h' L r.
Proof.
  intros [Hf Hm Hr Hl Hh Hp].
  destruct (hfree_ok p n m h (<[p := n]> L) r Hh) as (h' & Hrun & Hh'); [apply lookup_insert_eq|].
  rewrite (clear_at_fresh m0 m p n Hf Hr) in Hrun, Hh'. exists h'. split; [done|].
  by rewrite delete_insert_id in Hh'.
Qed.
End scratch.

(** ** The kernel heap provides the interface *)

Section mm_heap.
(** What the frames behind a new block happen to hold. *)
Variable junk : Z → Z.

Definition junk_bytes (p n : Z) : list Z := (λ i, u8 (junk (p + Z.of_nat i))) <$> seq 0 (Z.to_nat n).

(** The size of the block at [p], from its header. *)
Definition block_size_at (s : mm) (p : Z) : Z :=
  match mm_nodes s !! (p - SIZEOF_LL_NODE) with Some n => nd_size n | None => 0 end.

Definition mm_malloc_by (malloc : Z → M mm Z) (n : Z) : M (bmem * mm) Z := λ '(m, s),
  match malloc n s with
  | Ok (p, s') =>
    if p =? 0 then Ok (0, (m, s'))
    else Ok (p, (write_at m p (junk_bytes p (block_size_at s' p)), s'))
  | Fault => Fault
  | Hang => Hang
  end.

Definition mm_malloc : Z → M (bmem * mm) Z := mm_malloc_by kmalloc.

Definition mm_free (p : Z) : M (bmem * mm) Z := λ '(m, s),
  match kfree p s with
  | Ok (r, s') => Ok (r, (if r =? 0 then clear_at m p (block_size_at s p) else m, s'))
  | Fault => Fault
  | Hang => Hang
  end.

#[local] Instance mm_kernel_heap : KernelHeap mm := 
  {| hmalloc := mm_malloc; hfree := mm_free; hmalloc_user := mm_malloc_by kmalloc_user |}.

(** Every mapped byte of the heap's region is in a block in use. *)
Definition heap_bytes (m : bmem) (a : aheap) : Prop :=
  ∀ q, a_start a ≤ q < a_start a + a_max a + 4096 → is_Some (m !! q) →
    ∃ b, b ∈ a_used a ∧ b.1 + SIZEOF_LL_NODE ≤ q < b.1 + SIZEOF_LL_NODE + b.2.

(** [which] is the kernel's or the user's heap. *)
Definition mm_rep_of (which : mm → Z) (m : bmem) (s : mm) (L : gmap Z Z) (room : Z) : Prop :=
  ∃ a, which s ≠ 0 ∧ heap_is s (which s) a ∧ heap_bytes m a ∧
    (∀ p n, L !! p = Some n → (p - SIZEOF_LL_NODE, n) ∈ a_used a) ∧
    room ≤ a_max a - a_cur a.

Definition mm_rep : bmem → mm → gmap Z Z → Z → Prop := mm_rep_of kernel_heap.

Definition mm_charge (n : Z) : Z := round_req n + SIZEOF_LL_NODE.

Lemma junk_bytes_length p n : 0 ≤ n → Z.of_nat (length (junk_bytes p n)) = n.
Proof. intros. unfold junk_bytes. rewrite length_fmap, length_seq. lia. Qed.

Lemma junk_bytes_bytes p n : Forall is_byte (junk_bytes p n).
Proof.
  unfold junk_bytes. apply Forall_fmap, Forall_forall. intros i _. unfold is_byte, u8. simpl.
  apply Z.mod_pos_bound. lia.
Qed.

(** The header of a block in use. *)
Lemma used_header s hp a b :
  heap_is s hp a → b ∈ a_used a → block_size_at s (b.1 + SIZEOF_LL_NODE) = b.2.
Proof.
  intros (h & l & _ & _ & Hr & _) Hb. unfold block_size_at.
  replace (b.1 + SIZEOF_LL_NODE - SIZEOF_LL_NODE) with b.1 by lia.
  destruct (rep_head_lookup _ _ b Hr) as (_ & x & y & Hn); [unfold blocks; set_solver|].
  simpl in Hn. by rewrite Hn.
Qed.

(** A request that fits in the room left succeeds. *)
Lemma aget_room n a :
  0 ≤ n → mm_charge n ≤ a_max a - a_cur a →
  ∃ r a', aget n false a = Some (r, a') ∧ a_cur a' ≤ a_cur a + mm_charge n.
Proof.
  intros Hn Hc. unfold mm_charge in *. destruct (round_req_ge n) as [Hmin _].
  unfold NODESIZE_MAX, SIZEOF_LL_NODE in *. unfold aget.
  destruct (find_fit _ _) as [[[pre b] post]|].
  - unfold carve. destruct (_ <? _); eexists _, _; (split; [done|]); simpl; lia.
  - unfold grow. simpl. unfold SIZEOF_LL_NODE. destruct (Z.leb_spec (a_cur a + round_req n + 12) (a_max a)); [|lia].
    eexists _, _. split; [done|]. simpl. lia.
Qed.

(** Both heaps allocate their blocks in the same way. *)
Definition mallocs (which : mm → Z) (malloc : Z → M mm Z) : Prop := ∀ n s a r a',
  which s ≠ 0 → heap_is s (which s) a → 0 ≤ n < 2147483648 → aget n false a = Some (r, a') →
  ∃ s', malloc n s = Ok (r + SIZEOF_LL_NODE, s') ∧ heap_is s' (which s) a' ∧ which s' = which s.

Lemma block_nonzero s hp n a r a' : heap_is s hp a' → aget n false a = Some (r, a') → r + SIZEOF_LL_NODE ≠ 0.
Proof.
  intros (_ & _ & _ & _ & _ & Hwf) Ha. destruct (aget_allocated _ _ _ _ _ Ha) as (b & Hu & <- & _).
  destruct (wf_node_range a' b Hwf) as [Hb1 _]; [unfold blocks; rewrite Hu; set_solver|].
  unfold SIZEOF_LL_NODE in *. lia.
Qed.

Lemma kernel_mallocs : mallocs kernel_heap kmalloc.
Proof.
  intros n s a r a' Hk Hs Hn Ha. destruct (alloc_run s (kernel_heap s) a n 0 r a' Hs Hn Ha) as (s' & Hrun & Hs' & Hsame).
  exists s'. split; [|by destruct Hsame as (_ & _ & _ & _ & _ & Hkh & _)]. unfold kmalloc, DEPTH. simpl.
  unfold mbind at 1 2, M_bind at 1 2. unfold get at 1.
  destruct (Z.eqb_spec (kernel_heap s) 0); [done|]. unfold mbind at 1, M_bind at 1. rewrite Hrun.
  by rewrite (proj2 (Z.eqb_neq _ _) (block_nonzero _ _ _ _ _ _ Hs' Ha)).
Qed.

Lemma user_mallocs : mallocs user_heap kmalloc_user.
Proof.
  intros n s a r a' Hk Hs Hn Ha. destruct (alloc_run s (user_heap s) a n 0 r a' Hs Hn Ha) as (s' & Hrun & Hs' & Hsame).
  exists s'. split; [|by destruct Hsame as (_ & _ & _ & _ & _ & _ & Huh)].
  unfold kmalloc_user, kmalloc_user_base, kmalloc_gen_base, mbind, M_bind, get. rewrite Hrun.
  by rewrite (proj2 (Z.eqb_neq _ _) (block_nonzero _ _ _ _ _ _ Hs' Ha)).
Qed.

(** The block taken last lies apart from the others. *)
Lemma last_used_apart a bs b c :
  wf a → NoDup (addrs (a_used a)) → a_used a = bs ++ [b] → c ∈ bs →
  b.1 + SIZEOF_LL_NODE + b.2 ≤ c.1 ∨ c.1 + SIZEOF_LL_NODE + c.2 ≤ b.1.
Proof.
  intros Hwf Hnd Hu Hc. rewrite Hu, addrs_app in Hnd. apply NoDup_app in Hnd as (_ & Hd & _).
  apply (used_disjoint a); [done|rewrite Hu; set_solver..|]. intros ->.
  apply (Hd c.1); [by apply (list_elem_of_fmap_2 fst)|unfold addrs; set_solver].
Qed.

Lemma heap_is_nodup s hp a : heap_is s hp a → NoDup (addrs (a_used a)).
Proof. intros (h & l & _ & _ & Hr & _). apply (blocks_nodup _ (rep_nodup _ _ Hr)). Qed.

Lemma mm_malloc_ok which malloc n m s L r :
  mallocs which malloc → mm_rep_of which m s L r → 0 ≤ n < 2147483648 → mm_charge n ≤ r →
  ∃ p bs s', mm_malloc_by malloc n (m, s) = Ok (p, (write_at m p bs, s')) ∧
    0 < p ∧ p + Z.of_nat (length bs) < 4294967296 ∧
    n ≤ Z.of_nat (length bs) ∧ Forall is_byte bs ∧ unmapped m p (Z.of_nat (length bs)) ∧
    L !! p = None ∧
    mm_rep_of which (write_at m p bs) s' (<[p := Z.of_nat (length bs)]> L) (r - mm_charge n).
Proof.
  intros Hmal (a & Hk & Hs & Hb & HL & Hr) Hn Hc.
  destruct (aget_room n a) as (x & a' & Ha & Hcur); [lia..|].
  destruct (Hmal n s a x a' Hk Hs Hn Ha) as (s' & Hrun & Hs' & Hkh).
  pose proof Hs' as (_ & _ & _ & _ & _ & Hwf).
  destruct (aget_allocated _ _ _ _ _ Ha) as (b & Hu & <- & Hsz).
  destruct (aget_bounds _ _ _ _ _ Ha) as [Hst Hmx].
  assert (Hin : b ∈ a_used a') by (rewrite Hu; set_solver).
  assert (Hbb : b ∈ blocks a') by (unfold blocks; set_solver).
  pose proof (wf_bounds _ _ Hwf Hbb) as (Hlo & Hmin & Hhi).
  pose proof (wf_start _ Hwf). pose proof (wf_top _ Hwf). pose proof (wf_cur _ Hwf).
  pose proof (heap_is_nodup _ _ _ Hs') as Hnd.
  rewrite <- Hkh in Hs'. pose proof (used_header s' _ a' b Hs' Hin) as Hhd.
  unfold NODESIZE_MAX, SIZEOF_LL_NODE in *.
  exists (b.1 + 12), (junk_bytes (b.1 + 12) b.2), s'. rewrite junk_bytes_length by lia.
  unfold mm_malloc_by. rewrite Hrun, Hhd. destruct (Z.eqb_spec (b.1 + 12) 0); [lia|].
  split_and!; try done; try lia; [apply junk_bytes_bytes| | |].
  - intros q Hq. destruct (m !! q) eqn:Hmq; [|done].
    destruct (Hb q) as (c & Hcu & Hcq); [lia|by rewrite Hmq|].
    destruct (last_used_apart a' (a_used a) b c Hwf Hnd Hu Hcu); unfold SIZEOF_LL_NODE in *; lia.
  - destruct (L !! (b.1 + 12)) as [k|] eqn:HLp; [|done]. apply HL in HLp.
    rewrite Hu, addrs_app in Hnd. apply NoDup_app in Hnd as (_ & Hd & _).
    destruct (Hd b.1); [|unfold addrs; set_solver].
    apply (list_elem_of_fmap_2' fst) with (b.1 + 12 - 12, k); [done|]. simpl. lia.
  - exists a'. rewrite Hkh in *. split_and!; try done; [| |lia].
    + intros q Hq Hmq. destruct (decide (b.1 + 12 ≤ q < b.1 + 12 + b.2)) as [Hqb|Hqb].
      * exists b. done.
      * rewrite write_at_out in Hmq by (rewrite junk_bytes_length; lia).
        destruct (Hb q) as (c & Hcu & Hcq); [lia|done|]. exists c. rewrite Hu. set_solver.
    + intros q k [[<- <-]|[Hne HLq]]%lookup_insert_Some.
      * replace (b.1 + 12 - SIZEOF_LL_NODE) with b.1 by (unfold SIZEOF_LL_NODE; lia). by destruct b.
      * rewrite Hu. apply HL in HLq. set_solver.
Qed.

Lemma mm_free_ok p n m s L r :
  mm_rep m s L r → L !! p = Some n →
  ∃ s', mm_free p (m, s) = Ok (0, (clear_at m p n, s')) ∧ mm_rep (clear_at m p n) s' (delete p L) r.
Proof.
  intros (a & Hk & Hs & Hb & HL & Hr) HLp. pose proof (HL _ _ HLp) as Hin.
  pose proof Hs as (_ & _ & _ & _ & _ & Hwf). pose proof (heap_is_nodup _ _ _ Hs) as Hnd.
  destruct (wf_node_range a (p - SIZEOF_LL_NODE, n) Hwf) as [Hb1 Hb2]; [unfold blocks; set_solver|].
  simpl in Hb1, Hb2. pose proof (free_run s (kernel_heap s) a (p - SIZEOF_LL_NODE) Hs ltac:(lia) Hb2) as Hf.
  pose proof (used_header s _ a _ Hs Hin) as Hhd. simpl in Hhd.
  replace (p - SIZEOF_LL_NODE + SIZEOF_LL_NODE) with p in * by lia.
  unfold afree in Hf. pose proof (find_addr (a_used a) (p - SIZEOF_LL_NODE)) as Hfa.
  destruct (find_fit _ _) as [[[pre b] post]|].
  2: { destruct Hfa. by apply (list_elem_of_fmap_2' fst) with (p - SIZEOF_LL_NODE, n). }
  destruct Hfa as [Hu Hbp]. destruct Hf as (s' & Hrun & Hs' & Hsame).
  assert (b = (p - SIZEOF_LL_NODE, n)) as ->.
  { rewrite Hu in Hin, Hnd. apply NoDup_mid in Hnd as (H1 & H2 & _).
    apply elem_of_app in Hin as [Hin|[->|Hin]%elem_of_cons]; [|done|].
    - destruct H1. rewrite Hbp. by apply (list_elem_of_fmap_2' fst) with (p - SIZEOF_LL_NODE, n).
    - destruct H2. rewrite Hbp. by apply (list_elem_of_fmap_2' fst) with (p - SIZEOF_LL_NODE, n). }
  exists s'. destruct Hsame as (_ & _ & _ & _ & _ & Hkh & _). split.
  { unfold mm_free, kfree. unfold mbind, M_bind, get. by rewrite Hrun, Hhd. }
  eexists. rewrite Hkh. split_and!; [done|exact Hs'| | |simpl; lia]; simpl.
  - intros q Hq Hmq. destruct (decide (p ≤ q < p + n)) as [Hqp|Hqp].
    { rewrite clear_at_in in Hmq by done. by destruct Hmq. }
    rewrite clear_at_out in Hmq by done. destruct (Hb q Hq Hmq) as (c & Hc & Hcq).
    exists c. split; [|done]. rewrite Hu in Hc. unfold SIZEOF_LL_NODE in *.
    apply elem_of_app in Hc as [Hc|[->|Hc]%elem_of_cons]; [set_solver| |set_solver]. simpl in *. lia.
  - intros q k [Hne HLq]%lookup_delete_Some. apply HL in HLq. rewrite Hu in HLq.
    apply elem_of_app in HLq as [?|[[= ??]|?]%elem_of_cons]; [set_solver| |set_solver]. lia.
Qed.

Lemma mm_charge_pos n : 0 ≤ n → 0 ≤ mm_charge n.
Proof. intros Hn. unfold mm_charge. destruct (round_req_ge n). unfold NODESIZE_MAX, SIZEOF_LL_NODE in *. lia. Qed.

Lemma mm_rep_dom which m m' h L r : dom m' = dom m → mm_rep_of which m h L r → mm_rep_of which m' h L r.
Proof.
  intros Hd (a & ? & ? & Hb & ?). exists a. split_and!; try done; [|naive_solver..].
  intros q Hq Hmq. apply Hb; [done|]. apply elem_of_dom. rewrite <- Hd. by apply elem_of_dom.
Qed.

Lemma mm_rep_room which m h L r r' : mm_rep_of which m h L r → r' ≤ r → mm_rep_of which m h L r'.
Proof. intros (a & ? & ? & ? & ? & ?) Hr. exists a. split_and!; try done. lia. Qed.

#[local] Instance mm_heap_laws : HeapLaws mm.
Proof.
  refine (Build_HeapLaws mm _ mm_rep mm_charge mm_charge_pos (mm_rep_dom _) (mm_rep_room _) _ _ mm_free_ok).
  - intros m h L L' r (a & ? & ? & ? & HL & ?) HL'. exists a. split_and!; try done.
    intros p n Hp. apply HL. by eapply lookup_weaken.
  - intros n m h L r. apply mm_malloc_ok, kernel_mallocs.
Defined.

#[local] Instance mm_user_laws : UserLaws mm.
Proof.
  refine (Build_UserLaws mm _ (λ m s r, mm_rep_of user_heap m s ∅ r) mm_charge mm_charge_pos _ _ _).
  - intros m m' h r. apply mm_rep_dom.
  - intros m h r r'. apply mm_rep_room.
  - intros n m h r Hh Hn Hr. destruct (mm_malloc_ok user_heap kmalloc_user n m h ∅ r user_mallocs Hh Hn Hr)
      as (p & bs & h' & ? & ? & ? & ? & ? & ? & _ & (a & ? & ? & ? & _ & ?)).
    exists p, bs, h'. split_and!; try done. by exists a.
Defined.
End mm_heap.
