(* ===== verification/FileIo.v ===== *)
(** * File contents (kernel/fs/fs.c)

    [fs_read] and [fs_write] turn a position in a file into block requests to the
    filesystem driver.  For one node the pointers [block_read] and [block_write]
    are a driver of [Disk], whose blocks are those of the file; [FsNode] adds the
    node's length and [update_node]. *)
From S2P Require Import Prelude LibK Disk.

Class FsNode (D : Type) := {
  set_filelength : Z → D → D;
  filelength : D → Z;
  update_node : M (bmem * D) Z
}.

(** What is relied on: the length is a field of its own, and writing the node back
    changes neither the memory nor the blocks of the file. *)
Class FsNodeLaws (D : Type) `{BlockDevice D, !FsNode D} := {
  contents_filelength : ∀ n d, contents (set_filelength n d) = contents d;
  filelength_set : ∀ n d, filelength (set_filelength n d) = n;
  update_node_ok : ∀ m d, ∃ r d', update_node (m, d) = Ok (r, (m, d')) ∧
    contents d' = contents d ∧ filelength d' = filelength d
}.

Section fs.
Context {D : Type} `{!DiskDriver D}.

Local Notation blocksize := (block_size_of D).

(** [tmp1] and [tmp2] are the buffers [kmalloc] returns; a block size of 0 is a
    division fault. *)
Definition fs_read (seek buffer amount tmp1 tmp2 : Z) : M (bmem * D) Z :=
  if blocksize =? 0 then fault else
  let blockiter := u32 seek / blocksize in
  let s_rest := u32 seek mod blocksize in
  let e_rest := u32 (amount + (blocksize - s_rest)) mod blocksize in
  let e_rest := if negb (s_rest =? 0) && (amount <? blocksize - s_rest) then 0 else e_rest in
  let blkcnt := s32 (amount / blocksize) in
  '(blockiter, buf, ret, stop) ←
    (if negb (s_rest =? 0) then
       r ← drv_read blockiter tmp1 1;
       if r =? 0 then mret (blockiter + 1, buffer, 0, true)
       else
         let size := blocksize - s_rest in
         let size := if amount <? size then amount else size in
         _ ← on_mem (memcpy buffer (tmp1 + s_rest) size);
         mret (blockiter + 1, buffer + size, s32 size, false)
     else mret (blockiter, buffer, 0, false));
  if (stop : bool) then mret 0
  else
    '(blockiter, buf, ret, stop) ←
      (if negb (blkcnt =? 0) then
         blks ← drv_read blockiter buf blkcnt;
         mret (u32 (blockiter + blkcnt), buf + u32 (blks * blocksize),
               s32 (ret + u32 (blks * blocksize)), negb (blks =? blkcnt))
       else mret (blockiter, buf, ret, false));
    if (stop : bool) then mret ret
    else if negb (e_rest =? 0) then
      r ← drv_read blockiter tmp2 1;
      if r =? 0 then mret ret
      else
        _ ← on_mem (memcpy buf tmp2 e_rest);
        mret (s32 (ret + e_rest))
    else mret ret.

Context `{!FsNode D}.

Definition fs_write (seek buffer amount tmp1 tmp2 : Z) : M (bmem * D) Z :=
  if blocksize =? 0 then fault else
  let blockiter := u32 seek / blocksize in
  let s_rest := u32 seek mod blocksize in
  let e_rest := u32 (amount + (blocksize - s_rest)) mod blocksize in
  let e_rest := if negb (s_rest =? 0) && (amount <? blocksize - s_rest) then 0 else e_rest in
  let blkcnt := s32 (u32 (amount - e_rest) / blocksize) in
  '(blockiter, buf, ret, e_rest) ←
    (if negb (s_rest =? 0) then
       _ ← drv_read blockiter tmp1 1;
       let size := blocksize - s_rest in
       let '(size, e_rest) := if amount <? size then (amount, 0) else (size, e_rest) in
       _ ← on_mem (memcpy (tmp1 + s_rest) buffer size);
       _ ← drv_write blockiter tmp1 1;
       mret (blockiter + 1, buffer + size, s32 size, e_rest)
     else mret (blockiter, buffer, 0, e_rest));
  '(blockiter, buf, ret, stop) ←
    (if negb (blkcnt =? 0) then
       blks ← drv_write blockiter buf blkcnt;
       mret (u32 (blockiter + blks), buf + u32 (blks * blocksize),
             s32 (ret + u32 (blks * blocksize)), negb (blks =? blkcnt))
     else mret (blockiter, buf, ret, false));
  if (stop : bool) then mret ret
  else
    ret ← (if negb (e_rest =? 0) then
             _ ← drv_read blockiter tmp2 1;
             _ ← on_mem (memcpy tmp2 buf e_rest);
             _ ← drv_write blockiter tmp2 1;
             mret (s32 (ret + e_rest))
           else mret ret);
    _ ← modify (λ '(m, d), (m, set_filelength (u32 (ret + seek)) d));
    _ ← update_node;
    mret ret.
End fs.

(** ** /dev/null *)

Definition read_null (buffer size : Z) : M bmem Z :=
  _ ← for_up (Z.to_nat size) 0 (λ i, store8 (buffer + i) 0);
  mret (s32 size).

Definition write_null (size : Z) : M bmem Z := mret (s32 size).

(** ** The registered filesystem *)

Record filesystem := Filesystem {
  fs_name : Z;
  fs_type : Z;
  fs_block_size : Z;
  fs_disk_info : Z;
  fs_superblock : Z;
  fs_blockgroup_list : Z;
  fs_start : Z;
  fs_partstart : Z;
  fs_block_read : Z;
  fs_block_write : Z;
  fs_create_node : Z;
  fs_update_node : Z;
  fs_dir_open : Z;
  fs_dir_close : Z;
  fs_dir_read : Z;
  fs_makenode : Z
}.

Definition register_filesystem (name type readfile writefile opendir readdir makenode creat update : Z) :
    M filesystem unit :=
  modify (λ s, Filesystem name type (fs_block_size s) (fs_disk_info s) (fs_superblock s)
    (fs_blockgroup_list s) (fs_start s) (fs_partstart s) readfile writefile creat update opendir
    (fs_dir_close s) readdir makenode).

(** ** Reading and writing at a block boundary *)

Section fs_proofs.
Context {D : Type} `{HB : BlockDevice D}.

Local Notation blocksize := (block_size_of D).

Lemma fs_read_blocks lba count buf m d :
  0 ≤ lba → 0 ≤ lba + count < 4294967296 → 0 ≤ count → count * blocksize < 2147483648 →
  (lba + count) * blocksize ≤ Z.of_nat (length (contents d)) →
  mapped m buf (count * blocksize) →
  (if negb (count =? 0) then
     blks ← drv_read lba buf count;
     mret (u32 (lba + count), buf + u32 (blks * blocksize),
           s32 (0 + u32 (blks * blocksize)), negb (blks =? count))
   else mret (lba, buf, 0, false)) (m, d) =
  Ok (lba + count, buf + count * blocksize, count * blocksize, false,
      (write_at m buf (slice (contents d) (lba * blocksize) (count * blocksize)), d)).
Proof.
  intros Hlba Hl Hc Hsz Hend Hm. pose proof block_size_pos as Hpos.
  destruct (Z.eqb_spec count 0) as [->|Hne]; simpl; [by rewrite !Z.add_0_r|].
  erewrite bind_ok by (apply drv_read_blocks; [lia..|done|done]).
  unfold mret, M_ret. rewrite !u32_small, s32_small, Z.eqb_refl by nia. done.
Qed.

Lemma fs_read_aligned seek buf amount tmp1 tmp2 m d :
  0 ≤ seek < 4294967296 → 0 ≤ amount → amount + blocksize < 2147483648 →
  seek + amount ≤ Z.of_nat (length (contents d)) → seek + amount < 4294967296 →
  seek mod blocksize = 0 →
  mapped m buf amount → mapped m tmp2 blocksize → disjoint_blocks buf amount tmp2 blocksize →
  ∃ m', fs_read seek buf amount tmp1 tmp2 (m, d) = Ok (amount, (m', d)) ∧
    bytes_at m' buf (slice (contents d) seek amount) ∧
    ∀ q, ¬ buf ≤ q < buf + amount → ¬ tmp2 ≤ q < tmp2 + blocksize → m' !! q = m !! q.
Proof.
  intros Hseek Ha Hsz Hend Hw Hal Hbuf Ht2 Hdis. pose proof block_size_pos as Hpos.
  destruct (aligned_split seek amount) as (lba & cnt & rest & El & Ec & Er & Hlba & Hcr & H0 & H1 & Hr);
    [lia..|done|].
  unfold fs_read. destruct (Z.eqb_spec blocksize 0); [lia|].
  rewrite (u32_small seek) by lia. rewrite Hal. simpl. rewrite El, Z.sub_0_r.
  rewrite (u32_small (amount + blocksize)) by lia.
  replace ((amount + blocksize) mod blocksize) with rest
    by (rewrite <- (Z.mul_1_l blocksize) at 1; by rewrite Z_mod_plus_full).
  rewrite Ec, (s32_small cnt) by nia.
  erewrite bind_ok by reflexivity. simpl.
  erewrite bind_ok. 2: { apply fs_read_blocks; [lia|nia|lia|lia|nia|].
    intros q Hq. apply Hbuf. lia. }
  simpl. rewrite Hlba. destruct (Z.eqb_spec rest 0) as [Hz|Hnz]; simpl.
  - eexists. assert (Ea : amount = cnt * blocksize) by lia. rewrite Ea. split; [reflexivity|].
    split; [apply write_at_in|]. intros q Hq _. apply write_at_out. rewrite slice_length by lia. done.
  - destruct (read_parts seek amount lba cnt rest buf tmp2 m d) as (m2 & m3 & E1 & E2 & Hb & Hf & _);
      try done; try lia. exists m3. split; [|done].
    erewrite bind_ok by exact E1. simpl. erewrite bind_ok by exact E2.
    unfold mret, M_ret. rewrite s32_small by lia. by rewrite <- Hcr.
Qed.

Context `{!FsNode D, !FsNodeLaws D}.

Lemma fs_write_aligned seek src data tmp1 tmp2 m d :
  let amount := Z.of_nat (length data) in
  0 ≤ seek < 4294967296 → amount + blocksize < 2147483648 →
  seek + amount ≤ Z.of_nat (length (contents d)) → seek + amount < 4294967296 →
  seek mod blocksize = 0 → bytes_at m src data → Forall is_byte data →
  mapped m tmp2 blocksize → disjoint_blocks src amount tmp2 blocksize →
  ∃ m' d', fs_write seek src amount tmp1 tmp2 (m, d) = Ok (amount, (m', d')) ∧
    contents d' = splice (contents d) seek data ∧ filelength d' = seek + amount ∧
    ∀ p k, mapped m p k → mapped m' p k.
Proof.
  intros amount Hseek Hsz Hend Hw Hal Hb Hby Ht2 Hdis. pose proof block_size_pos as Hpos.
  destruct (aligned_split seek amount) as (lba & cnt & rest & El & Ec & Er & Hlba & Hcr & H0 & H1 & Hr);
    [lia..|done|].
  destruct (write_parts seek lba cnt rest src data tmp2 m d)
    as (d1 & m2 & d2 & E1 & E2 & Hd2 & Hm2); try done; try lia.
  destruct (update_node_ok m2 (set_filelength (seek + amount) d2)) as (r & d3 & E3 & Hc3 & Hf3).
  exists m2, d3. split_and!.
  - unfold fs_write. destruct (Z.eqb_spec blocksize 0); [lia|].
    rewrite (u32_small seek) by lia. rewrite Hal. simpl. rewrite El, Z.sub_0_r.
    rewrite (u32_small (amount + blocksize)) by lia.
    replace ((amount + blocksize) mod blocksize) with rest
      by (rewrite <- (Z.mul_1_l blocksize) at 1; by rewrite Z_mod_plus_full).
    rewrite u32_small by lia. replace (amount - rest) with (cnt * blocksize) by lia.
    rewrite Z.div_mul, s32_small by nia.
    erewrite bind_ok by reflexivity. simpl. erewrite bind_ok by exact E1. simpl.
    erewrite bind_ok by exact E2. erewrite bind_ok by reflexivity.
    fold amount. rewrite u32_small, (Z.add_comm amount seek) by lia. by erewrite bind_ok by exact E3.
  - by rewrite Hc3, contents_filelength.
  - by rewrite Hf3, filelength_set.
  - done.
Qed.
End fs_proofs.

(** What [fs_write] writes to a file at a block boundary is what [fs_read] reads
    back, also when the length is not a whole number of blocks: both return the
    number of bytes, and the blocks of the file change only there.  The length of
    the file becomes the end of the write, also when the file was longer. *)
Theorem fs_write_read {D : Type} `{HB : BlockDevice D} `{!FsNode D, !FsNodeLaws D}
    (seek src dst tmp1 tmp2 : Z) (data : list Z) (m : bmem) (d : D)
    (Hseek : 0 ≤ seek < 4294967296)
    (Hsz : Z.of_nat (length data) + block_size_of D < 2147483648)
    (Hend : seek + Z.of_nat (length data) ≤ Z.of_nat (length (contents d)))
    (Hw : seek + Z.of_nat (length data) < 4294967296)
    (Hal : seek mod block_size_of D = 0)
    (Hsrc : bytes_at m src data) (Hby : Forall is_byte data)
    (Hdst : mapped m dst (Z.of_nat (length data))) (Ht2 : mapped m tmp2 (block_size_of D))
    (Hd1 : disjoint_blocks src (Z.of_nat (length data)) tmp2 (block_size_of D))
    (Hd2 : disjoint_blocks dst (Z.of_nat (length data)) tmp2 (block_size_of D)) :
  ∃ m1 d1 m2,
    fs_write seek src (Z.of_nat (length data)) tmp1 tmp2 (m, d) =
      Ok (Z.of_nat (length data), (m1, d1)) ∧
    contents d1 = splice (contents d) seek data ∧
    filelength d1 = seek + Z.of_nat (length data) ∧
    fs_read seek dst (Z.of_nat (length data)) tmp1 tmp2 (m1, d1) =
      Ok (Z.of_nat (length data), (m2, d1)) ∧
    bytes_at m2 dst data.
Proof.
  destruct (fs_write_aligned seek src data tmp1 tmp2 m d) as (m1 & d1 & E1 & Hc & Hf & Hmap);
    try done.
  assert (Hl : length (contents d1) = length (contents d))
    by (rewrite Hc; apply splice_length; lia).
  destruct (fs_read_aligned seek dst (Z.of_nat (length data)) tmp1 tmp2 m1 d1)
    as (m2 & E2 & Hb & _); try done; try lia; [by apply Hmap..|].
  exists m1, d1, m2. split_and!; try done.
  rewrite Hc, splice_slice in Hb by lia. done.
Qed.

(** A file on a disk of 4-byte blocks, with its length. *)
Definition demo_file : Type := blockdisk * Z.

Definition on_blocks {A} (c : M (bmem * blockdisk) A) : M (bmem * demo_file) A := λ '(m, (d, n)),
  match c (m, d) with
  | Ok (a, (m', d')) => Ok (a, (m', (d', n)))
  | Fault => Fault
  | Hang => Hang
  end.

#[export] Instance demo_file_driver : DiskDriver demo_file := {
  drv_block_size := 4;
  drv_read lba buf n := on_blocks (drv_read lba buf n);
  drv_write lba buf n := on_blocks (drv_write lba buf n)
}.

#[export] Instance demo_file_device : BlockDevice demo_file.
Proof.
  refine {| contents := λ d : demo_file, whole_blocks d.1 |}.
  - done.
  - intros [d n]. apply whole_blocks_bytes.
  - intros [d n]. exact (contents_blocks (D := blockdisk) d).
  - by intros lba buf k m [d n] H1 H2 H3 H4.
  - intros lba buf k m [d n] bs H1 H2 H3 H4 H5.
    destruct (drv_write_blocks (D := blockdisk) lba buf k m d bs) as (d' & E & Hd'); try done.
    exists (d', n). split; [|exact Hd'].
    change (on_blocks (drv_write lba buf k) (m, (d, n)) = Ok (k, (m, (d', n)))).
    unfold on_blocks. by rewrite E.
Defined.

#[export] Instance demo_file_node : FsNode demo_file := {
  set_filelength n d := (d.1, n);
  filelength d := d.2;
  update_node := mret 0
}.

#[export] Instance demo_file_laws : FsNodeLaws demo_file.
Proof.
  split; [done|done|]. intros m d. by exists 0, d.
Qed.

Lemma fs_write_read_witness :
  ∃ m1 d1 m2,
    fs_write 4 100 (Z.of_nat (length (replicate 6 0))) 120 130 (demo_buffers, (demo_disk, 12)) =
      Ok (Z.of_nat (length (replicate 6 0)), (m1, d1)) ∧
    contents d1 = splice (contents (D := demo_file) (demo_disk, 12)) 4 (replicate 6 0) ∧
    filelength d1 = 4 + Z.of_nat (length (replicate 6 0)) ∧
    fs_read 4 110 (Z.of_nat (length (replicate 6 0))) 120 130 (m1, d1) =
      Ok (Z.of_nat (length (replicate 6 0)), (m2, d1)) ∧
    bytes_at m2 110 (replicate 6 0).
Proof.
  apply (fs_write_read (D := demo_file) 4 100 110 120 130 (replicate 6 0) demo_buffers (demo_disk, 12)).
  - lia.
  - vm_compute. reflexivity.
  - vm_compute. discriminate.
  - vm_compute. reflexivity.
  - reflexivity.
  - pose proof (write_at_in ∅ 100 (replicate 40 0)) as H.
    change (replicate 40 0) with (replicate 6 0 ++ replicate 34 0) in H at 2.
    apply bytes_at_app in H. apply H.
  - repeat constructor; unfold is_byte; lia.
  - apply demo_buffers_mapped; simpl; lia.
  - apply demo_buffers_mapped; simpl; lia.
  - left. simpl. lia.
  - left. simpl. lia.
Defined.
