(* ===== verification/Vfs.v ===== *)
(** * The virtual file system (kernel/fs/vfs/vfs.c)

    Nodes are records at their addresses, linked by [n_nextnode] within a
    directory and by [n_dirlist] to its first entry; names and paths are strings
    in the byte memory, and scratch buffers come from the kernel heap ([Kmem]).
    What a node's or a filesystem's function pointer does is an operation of the
    class [VfsDrivers]. *)
From S2P Require Import Prelude LibK FdTable Disk Kmem FileIo.

(** ** Data *)

Record vfs_node := VfsNode {
  n_name : Z;
  n_type : Z;
  n_permissions : Z;
  n_uid : Z;
  n_gid : Z;
  n_id : Z;
  n_filelength : Z;
  n_fs_info : Z;
  n_offset : Z;
  n_nlink : Z;
  n_open : Z;
  n_close : Z;
  n_read : Z;
  n_write : Z;
  n_creat : Z;
  n_cmd : Z;
  n_opendir : Z;
  n_closedir : Z;
  n_readdir : Z;
  n_ptr : Z;
  n_nextnode : Z;
  n_dirlist : Z;
  n_parent : Z
}.

Definition VFS_FILE : Z := 1.
Definition VFS_DIRECTORY : Z := 2.
Definition VFS_CHARDEVICE : Z := 3.
Definition VFS_BLOCKDEVICE : Z := 4.
Definition VFS_PIPE : Z := 5.
Definition VFS_SYMLINK : Z := 6.
Definition VFS_MOUNTPOINT : Z := 8.
Definition VFS_SOCKET : Z := 9.

Record file := File { file_node : Z; file_fd : Z; file_filesize : Z }.

(** An open directory; the entry it holds is in the byte memory, at [d_dirent]. *)
Record DIR := Dir {
  d_fs_info : Z;
  d_next_direntry_offset : Z;
  d_inode : Z;
  d_blockpointerindex : Z;
  d_lastentrysize : Z;
  d_filebuffer : Z;
  d_dirent : Z
}.

Record stat := Stat {
  st_dev : Z;
  st_ino : Z;
  st_mode : Z;
  st_nlink : Z;
  st_uid : Z;
  st_gid : Z;
  st_rdev : Z;
  st_size : Z;
  st_blksize : Z;
  st_blocks : Z
}.

(** What the vfs uses of the current task. *)
Record task_ctx := TaskCtx { t_cwd : Z; t_euid : Z; t_egid : Z }.

Record vst (H F : Type) := Vst {
  vs_mem : bmem;
  vs_heap : H;
  vs_fs : F;
  vs_nodes : gmap Z vfs_node;
  vs_dirs : gmap Z DIR;
  vs_files : gmap Z file;
  vs_filesystems : gmap Z filesystem;
  vs_fd : fdst;
  vs_task : option task_ctx;
  g_vfs_root : Z;
  g_nodecount : Z;
  g_current_fs : Z
}.

Arguments Vst {H F}.
Arguments vs_mem {H F}.
Arguments vs_heap {H F}.
Arguments vs_fs {H F}.
Arguments vs_nodes {H F}.
Arguments vs_dirs {H F}.
Arguments vs_files {H F}.
Arguments vs_filesystems {H F}.
Arguments vs_fd {H F}.
Arguments vs_task {H F}.
Arguments g_vfs_root {H F}.
Arguments g_nodecount {H F}.
Arguments g_current_fs {H F}.

Definition SIZEOF_VFS_NODE : Z := 88.
Definition SIZEOF_POINTER : Z := 4.
Definition DIRENT_NAME : Z := 11.

Definition ENOENT : Z := 2.
Definition EUNATCH : Z := 49.
Definition O_WRONLY : Z := 1.
Definition O_CREAT : Z := 512.
Definition O_TRUNC : Z := 4096.
Definition O_DIRECTORY : Z := 2097152.
Definition SEEK_SET : Z := 0.
Definition SEEK_CUR : Z := 1.
Definition SEEK_END : Z := 2.
Definition S_IFMT : Z := 61440.
Definition S_IFIFO : Z := 4096.
Definition S_IFCHR : Z := 8192.
Definition S_IFDIR : Z := 16384.
Definition S_IFBLK : Z := 24576.
Definition S_IFREG : Z := 32768.
Definition S_IFLNK : Z := 40960.
Definition S_IFSOCK : Z := 49152.

(** [short] *)
Definition s16 (z : Z) : Z := let y := u16 z in if y <? 32768 then y else y - 65536.

Definition SLASH : Z := 47.
Definition DOT : Z := 46.

(** ** The drivers behind the function pointers

    The first argument is the pointer that is called. *)

Class VfsDrivers (H F : Type) := {
  call_open : Z → Z → Z → Z → Z → M (vst H F) Z;
  call_close : Z → Z → M (vst H F) Z;
  call_read : Z → Z → Z → Z → Z → Z → M (vst H F) Z;
  call_write : Z → Z → Z → Z → Z → Z → M (vst H F) Z;
  call_creat : Z → Z → Z → Z → M (vst H F) Z;
  call_opendir : Z → Z → M (vst H F) Z;
  call_block_read : Z → Z → Z → Z → Z → Z → M (vst H F) Z;
  call_block_write : Z → Z → Z → Z → Z → Z → M (vst H F) Z;
  call_update_node : Z → Z → M (vst H F) Z;
  call_create_node : Z → Z → Z → Z → M (vst H F) Z;
  call_dir_open : Z → Z → Z → M (vst H F) Z;
  call_dir_close : Z → Z → M (vst H F) Z;
  call_dir_read : Z → Z → M (vst H F) Z;
  call_makenode : Z → Z → Z → Z → Z → M (vst H F) Z;
  init_fs : Z → Z → M (vst H F) Z
}.

Section vfs.
Context {H F : Type} `{!KernelHeap H, !VfsDrivers H F}.

(** The address of a string literal. *)
Variable lit : list Z → Z.

(** ** Lifting *)

Definition set_kmem (m : bmem) (h : H) (s : vst H F) : vst H F :=
  Vst m h (vs_fs s) (vs_nodes s) (vs_dirs s) (vs_files s) (vs_filesystems s) (vs_fd s)
    (vs_task s) (g_vfs_root s) (g_nodecount s) (g_current_fs s).

Definition set_nodes (ns : gmap Z vfs_node) (s : vst H F) : vst H F :=
  Vst (vs_mem s) (vs_heap s) (vs_fs s) ns (vs_dirs s) (vs_files s) (vs_filesystems s) (vs_fd s)
    (vs_task s) (g_vfs_root s) (g_nodecount s) (g_current_fs s).

Definition with_mem (m : bmem) (s : vst H F) : vst H F := set_kmem m (vs_heap s) s.

Definition set_files (fs : gmap Z file) (s : vst H F) : vst H F :=
  Vst (vs_mem s) (vs_heap s) (vs_fs s) (vs_nodes s) (vs_dirs s) fs (vs_filesystems s) (vs_fd s)
    (vs_task s) (g_vfs_root s) (g_nodecount s) (g_current_fs s).

Definition set_fd (f : fdst) (s : vst H F) : vst H F :=
  Vst (vs_mem s) (vs_heap s) (vs_fs s) (vs_nodes s) (vs_dirs s) (vs_files s) (vs_filesystems s) f
    (vs_task s) (g_vfs_root s) (g_nodecount s) (g_current_fs s).

Definition set_globals (root count cur : Z) (s : vst H F) : vst H F :=
  Vst (vs_mem s) (vs_heap s) (vs_fs s) (vs_nodes s) (vs_dirs s) (vs_files s) (vs_filesystems s)
    (vs_fd s) (vs_task s) root count cur.

Definition on_kmem {A} (c : M (bmem * H) A) : M (vst H F) A := λ s,
  match c (vs_mem s, vs_heap s) with
  | Ok (a, (m, h)) => Ok (a, set_kmem m h s)
  | Fault => Fault
  | Hang => Hang
  end.

Definition on_bytes {A} (c : M bmem A) : M (vst H F) A := on_kmem (on_mem c).

(** fs.c ([FileIo]) works on a byte memory and the state behind it: here the rest
    of [vst], whose own memory is not used meanwhile. *)
Definition on_fs {A} (c : M (bmem * vst H F) A) : M (vst H F) A := λ s,
  match c (vs_mem s, s) with
  | Ok (a, (m, s')) => Ok (a, with_mem m s')
  | Fault => Fault
  | Hang => Hang
  end.

Definition behind_fs {A} (c : M (vst H F) A) : M (bmem * vst H F) A := λ '(m, s),
  match c (with_mem m s) with
  | Ok (a, s') => Ok (a, (vs_mem s', with_mem (vs_mem s) s'))
  | Fault => Fault
  | Hang => Hang
  end.

Definition on_fd {A} (c : M fdst A) : M (vst H F) A := λ s,
  match c (vs_fd s) with
  | Ok (a, f) => Ok (a, set_fd f s)
  | Fault => Fault
  | Hang => Hang
  end.

Definition vfs_errno (e : Z) : M (vst H F) unit := on_fd (fd_set_errno e).

Definition load_node (p : Z) : M (vst H F) vfs_node := ns ← get vs_nodes; of_option (ns !! p).

Definition store_node (p : Z) (n : vfs_node) : M (vst H F) unit :=
  _ ← load_node p; modify (λ s, set_nodes (<[p := n]> (vs_nodes s)) s).

Definition with_nextnode (v : Z) (n : vfs_node) : vfs_node :=
  VfsNode (n_name n) (n_type n) (n_permissions n) (n_uid n) (n_gid n) (n_id n) (n_filelength n)
    (n_fs_info n) (n_offset n) (n_nlink n) (n_open n) (n_close n) (n_read n) (n_write n) (n_creat n)
    (n_cmd n) (n_opendir n) (n_closedir n) (n_readdir n) (n_ptr n) v (n_dirlist n) (n_parent n).

Definition with_dirlist (v : Z) (n : vfs_node) : vfs_node :=
  VfsNode (n_name n) (n_type n) (n_permissions n) (n_uid n) (n_gid n) (n_id n) (n_filelength n)
    (n_fs_info n) (n_offset n) (n_nlink n) (n_open n) (n_close n) (n_read n) (n_write n) (n_creat n)
    (n_cmd n) (n_opendir n) (n_closedir n) (n_readdir n) (n_ptr n) (n_nextnode n) v (n_parent n).

Definition with_parent (v : Z) (n : vfs_node) : vfs_node :=
  VfsNode (n_name n) (n_type n) (n_permissions n) (n_uid n) (n_gid n) (n_id n) (n_filelength n)
    (n_fs_info n) (n_offset n) (n_nlink n) (n_open n) (n_close n) (n_read n) (n_write n) (n_creat n)
    (n_cmd n) (n_opendir n) (n_closedir n) (n_readdir n) (n_ptr n) (n_nextnode n) (n_dirlist n) v.

Definition with_offset (v : Z) (n : vfs_node) : vfs_node :=
  VfsNode (n_name n) (n_type n) (n_permissions n) (n_uid n) (n_gid n) (n_id n) (n_filelength n)
    (n_fs_info n) v (n_nlink n) (n_open n) (n_close n) (n_read n) (n_write n) (n_creat n)
    (n_cmd n) (n_opendir n) (n_closedir n) (n_readdir n) (n_ptr n) (n_nextnode n) (n_dirlist n)
    (n_parent n).

Definition with_filelength (v : Z) (n : vfs_node) : vfs_node :=
  VfsNode (n_name n) (n_type n) (n_permissions n) (n_uid n) (n_gid n) (n_id n) v
    (n_fs_info n) (n_offset n) (n_nlink n) (n_open n) (n_close n) (n_read n) (n_write n) (n_creat n)
    (n_cmd n) (n_opendir n) (n_closedir n) (n_readdir n) (n_ptr n) (n_nextnode n) (n_dirlist n)
    (n_parent n).

Definition load_filesystem (p : Z) : M (vst H F) filesystem :=
  fs ← get vs_filesystems; of_option (fs !! p).

Definition load_dirstream (p : Z) : M (vst H F) DIR := ds ← get vs_dirs; of_option (ds !! p).

Definition load_file (p : Z) : M (vst H F) file := fs ← get vs_files; of_option (fs !! p).

Definition load_fd (i : Z) : M (vst H F) file_descriptor := on_fd (on_vec (load_slot i)).

Definition set_seek (i v : Z) : M (vst H F) unit :=
  d ← load_fd i;
  on_fd (on_vec (store_slot i
    (FileDescriptor (fd_node d) (fd_mode d) (fd_flags d) v (fd_lock_index d)))).

Definition current_task : M (vst H F) task_ctx := t ← get vs_task; of_option t.

(** As many steps as there are nodes, for the loops along a directory. *)
Definition node_fuel (s : vst H F) : nat := S (size (vs_nodes s)).

(** ** Reading and writing

    The file's blocks, through the pointers of its filesystem. *)
Definition node_driver (n : vfs_node) (fs : filesystem) : DiskDriver (vst H F) := {|
  drv_block_size := fs_block_size fs;
  drv_read blk buf cnt :=
    behind_fs (call_block_read (fs_block_read fs) (n_offset n) blk buf cnt (n_fs_info n));
  drv_write blk buf cnt :=
    behind_fs (call_block_write (fs_block_write fs) (n_offset n) blk buf cnt (n_fs_info n))
|}.

Definition node_fsnode (p : Z) (fs : filesystem) : FsNode (vst H F) := {|
  set_filelength v s := set_nodes (alter (with_filelength v) p (vs_nodes s)) s;
  filelength s := match vs_nodes s !! p with Some n => n_filelength n | None => 0 end;
  update_node := behind_fs (call_update_node (fs_update_node fs) p)
|}.

(** [tmp1] and [tmp2] are the buffers [kmalloc] returns in [fs_read] and [fs_write]. *)
Definition _vfs_read (fd_struct buf amount tmp1 tmp2 : Z) : M (vst H F) Z :=
  d ← load_fd fd_struct;
  let node := fd_node d in
  n ← load_node node;
  if negb (n_read n =? 0) then
    ret ← call_read (n_read n) node (u32 (fd_seek d)) buf amount (fd_flags d);
    d' ← load_fd fd_struct;
    _ ← set_seek fd_struct (s32 (fd_seek d' + ret));
    mret ret
  else
    fs ← load_filesystem (n_fs_info n);
    if negb (fs_block_read fs =? 0) then
      ret ← on_fs (@fs_read _ (node_driver n fs) (fd_seek d) buf amount tmp1 tmp2);
      d' ← load_fd fd_struct;
      _ ← set_seek fd_struct (s32 (fd_seek d' + ret));
      mret ret
    else
      _ ← vfs_errno EUNATCH;
      mret (-1).

Definition vfs_check_if_initialised : M (vst H F) Z :=
  r ← get g_vfs_root; mret (if r =? 0 then 0 else 1).

Definition vfs_read_fd (fd buf amount tmp1 tmp2 : Z) : M (vst H F) Z :=
  fd_struct ← on_fd (get_filedescriptor fd);
  match fd_struct with
  | None => mret (-1)
  | Some i => _vfs_read i buf amount tmp1 tmp2
  end.

Definition vfs_read (fp buf amount tmp1 tmp2 : Z) : M (vst H F) Z :=
  f ← load_file fp;
  fd_struct ← on_fd (get_filedescriptor (file_fd f));
  i ← of_option fd_struct;
  _vfs_read i buf amount tmp1 tmp2.

Definition _vfs_write (fd_struct buf amount tmp1 tmp2 : Z) : M (vst H F) Z :=
  d ← load_fd fd_struct;
  let node := fd_node d in
  n ← load_node node;
  if negb (n_write n =? 0) then
    ret ← call_write (n_write n) node (u32 (fd_seek d)) buf amount (fd_flags d);
    d' ← load_fd fd_struct;
    _ ← set_seek fd_struct (s32 (fd_seek d' + ret));
    mret ret
  else
    fs ← load_filesystem (n_fs_info n);
    if negb (fs_block_write fs =? 0) then
      ret ← on_fs (@fs_write _ (node_driver n fs) (node_fsnode node fs)
                     (fd_seek d) buf amount tmp1 tmp2);
      d' ← load_fd fd_struct;
      _ ← set_seek fd_struct (s32 (fd_seek d' + ret));
      mret ret
    else
      _ ← vfs_errno EUNATCH;
      mret (-1).

Definition vfs_write_fd (fd buf amount tmp1 tmp2 : Z) : M (vst H F) Z :=
  fd_struct ← on_fd (get_filedescriptor fd);
  match fd_struct with
  | None => mret (-1)
  | Some i => _vfs_write i buf amount tmp1 tmp2
  end.

Definition vfs_write (fp buf amount tmp1 tmp2 : Z) : M (vst H F) Z :=
  f ← load_file fp;
  fd_struct ← on_fd (get_filedescriptor (file_fd f));
  i ← of_option fd_struct;
  _vfs_write i buf amount tmp1 tmp2.

(** ** Paths *)

Definition peek (p : Z) : M (vst H F) Z := on_bytes (load8 p).

Definition poke (p b : Z) : M (vst H F) unit := on_bytes (store8 p b).

Definition kmalloc_v (n : Z) : M (vst H F) Z := on_kmem (hmalloc n).

Definition kfree_v (p : Z) : M (vst H F) Z := on_kmem (hfree p).

Definition _vfs_path_find (node name : Z) : M (vst H F) Z :=
  n ← load_node node;
  fuel ← get node_fuel;
  r ← loop fuel (λ tmp,
    if tmp =? 0 then mret (inr 0)
    else
      t ← load_node tmp;
      c ← on_bytes (strcmp name (n_name t));
      if c =? 0 then mret (inr tmp)
      else t' ← load_node tmp; mret (inl (n_nextnode t'))) (n_dirlist n);
  if r =? 0 then _ ← vfs_errno ENOENT; mret 0 else mret r.

(** The loop of [vfs_find_path] over the characters of the path; [i] is the
    position, [bufferiter] the length of the component so far. *)
Definition find_step (path pathlength buffer : Z) :
    Z * Z * Z → M (vst H F) (Z * Z * Z + Z) := λ '(i, bufferiter, node),
  if i <? pathlength then
    c ← peek (path + i);
    if (c =? SLASH) || (c =? 0) then
      _ ← poke (buffer + bufferiter) 0;
      let bufferiter := bufferiter + 1 in
      node ← _vfs_path_find node buffer;
      if node =? 0 then _ ← kfree_v buffer; mret (inr 0)
      else
        c ← peek (path + i);
        if c =? 0 then _ ← kfree_v buffer; mret (inr node)
        else
          _ ← on_bytes (memset buffer 0 (bufferiter + 1));
          mret (inl (i + 1, 0, node))
    else
      _ ← poke (buffer + bufferiter) c;
      mret (inl (i + 1, bufferiter + 1, node))
  else
    _ ← kfree_v buffer;
    _ ← vfs_errno ENOENT;
    mret (inr 0).

(** From [size_t pathlength] on: the path is taken from the root, its first
    character is skipped. *)
Definition find_from_root (path : Z) : M (vst H F) Z :=
  l ← on_bytes (strlen path);
  let pathlength := u32 (l + 1) in
  buffer ← kmalloc_v pathlength;
  node ← get g_vfs_root;
  if node =? 0 then mret 0
  else
    _ ← on_bytes (memset buffer 0 pathlength);
    loop (S (Z.to_nat pathlength)) (find_step path pathlength buffer) (1, 0, node).

(** The working directory, a slash and the path, in [buf]. *)
Definition join_path (buf cwd path : Z) : M (vst H F) unit :=
  _ ← poke buf 0;
  _ ← on_bytes (strcpy buf cwd);
  _ ← on_bytes (strcat buf (lit [SLASH]));
  _ ← on_bytes (strcat buf path);
  mret tt.

(** A relative path is looked up below the working directory first, by a
    recursive call; [depth] bounds the recursion. *)
Fixpoint vfs_find_path_rec (depth : nat) (path : Z) : M (vst H F) Z :=
  match depth with
  | O => hang
  | S depth =>
    c0 ← peek path;
    if negb (c0 =? SLASH) then
      t ← current_task;
      l1 ← on_bytes (strlen (t_cwd t));
      l2 ← on_bytes (strlen path);
      buf ← kmalloc_v (u32 (l1 + l2 + 2));
      _ ← join_path buf (t_cwd t) path;
      node ← vfs_find_path_rec depth buf;
      _ ← kfree_v buf;
      if negb (node =? 0) then mret node else find_from_root path
    else
      c1 ← peek (path + 1);
      if c1 =? 0 then get g_vfs_root else find_from_root path
  end.

(** A working directory starts with a slash: one recursive call. *)
Definition FIND_DEPTH : nat := 2.

Definition vfs_find_path (path : Z) : M (vst H F) Z := vfs_find_path_rec FIND_DEPTH path.

(** The string's length is taken anew in every iteration. *)
Definition shiftpath (path amount : Z) : M bmem unit :=
  scan (λ i,
    l ← strlen path;
    if i <? s32 l then
      c ← load8 (path + (i + amount));
      _ ← store8 (path + i) c;
      mret (inl (i + 1))
    else mret (inr tt)) 0.

Definition snippath (path len amount : Z) : M bmem unit :=
  for_up (Z.to_nat len) 0 (λ i, c ← load8 (path + (i + len)); store8 (path + i) c).

(** [!memcmp(p, "..", 2)] *)
Definition is_dotdot (p : Z) : M bmem bool := r ← memcmp p (lit [DOT; DOT]) 2; mret (r =? 0).

(** [buf[i] == a && b] with [b] evaluated only then. *)
Definition and_then (p a : Z) (b : M bmem bool) : M bmem bool :=
  c ← load8 p; if c =? a then b else mret false.

Definition ends_entry (p : Z) : M bmem bool :=
  c ← load8 p; if c =? 0 then mret true else c ← load8 p; mret (c =? SLASH).

Definition interpret_step (buf : Z) : Z * Z → M bmem (Z * Z + unit) := λ '(i, entryloc),
  l ← strlen buf;
  if i <? l then
    let p := buf + i in
    t ← and_then p SLASH (and_then (p + 1) 0 (mret true));
    _ ← (if (t : bool) then store8 p 0 else mret tt);
    t ← and_then p SLASH (and_then (p + 1) SLASH (mret true));
    _ ← (if (t : bool) then shiftpath p 1 else mret tt);
    t ← and_then p SLASH (and_then (p + 1) DOT (ends_entry (p + 2)));
    _ ← (if (t : bool) then shiftpath p 2 else mret tt);
    t ← and_then p SLASH (d ← is_dotdot (p + 1); if (d : bool) then ends_entry (p + 3) else mret false);
    _ ← (if (t : bool) then
           l ← strlen buf;
           snippath (buf + entryloc) (s32 (i - entryloc + 3)) (s32 (l - entryloc))
         else mret tt);
    c ← load8 p;
    mret (inl (i + 1, if c =? SLASH then i else entryloc))
  else mret (inr tt).

Definition vfs_interpret_path (buf : Z) : M bmem unit := scan (interpret_step buf) (0, 0).

Definition vfs_fullpath (path : Z) : M (vst H F) Z :=
  c ← peek path;
  buf ← (if negb (c =? SLASH) then
           t ← current_task;
           l1 ← on_bytes (strlen (t_cwd t));
           l2 ← on_bytes (strlen path);
           buf ← kmalloc_v (u32 (l1 + l2 + 2));
           l1' ← on_bytes (strlen (t_cwd t));
           _ ← on_bytes (strcpy_s buf (t_cwd t) (s32 (l1' + 1)));
           _ ← on_bytes (strcat buf (lit [SLASH]));
           _ ← on_bytes (strcat buf path);
           mret buf
         else on_kmem (strdup path));
  _ ← on_bytes (vfs_interpret_path buf);
  mret buf.

(** ** Types *)

Definition _get_type (mode : Z) : Z :=
  let t := Z.land mode S_IFMT in
  if t =? S_IFDIR then VFS_DIRECTORY
  else if t =? S_IFCHR then VFS_CHARDEVICE
  else if t =? S_IFLNK then VFS_SYMLINK
  else if t =? S_IFIFO then VFS_PIPE
  else if t =? S_IFBLK then VFS_BLOCKDEVICE
  else if t =? S_IFSOCK then VFS_SOCKET
  else VFS_FILE.

Definition vfs_to_stat (mode : Z) : Z :=
  if mode =? VFS_FILE then S_IFREG
  else if mode =? VFS_DIRECTORY then S_IFDIR
  else if mode =? VFS_CHARDEVICE then S_IFCHR
  else if mode =? VFS_BLOCKDEVICE then S_IFBLK
  else if mode =? VFS_PIPE then S_IFIFO
  else if mode =? VFS_SYMLINK then S_IFLNK
  else u16 mode.

(** ** Creating nodes *)

Definition zero_node : vfs_node :=
  VfsNode 0 0 0 0 0 0 0 0 0 0 0 0 0 0 0 0 0 0 0 0 0 0 0.

(** [kmalloc] and [memset] of a node: a record of zeros at a new address. *)
Definition new_node : M (vst H F) Z :=
  p ← kmalloc_v SIZEOF_VFS_NODE;
  if p =? 0 then fault
  else _ ← modify (λ s, set_nodes (<[p := zero_node]> (vs_nodes s)) s); mret p.

(** [g_nodecount++] *)
Definition next_nodecount : M (vst H F) Z :=
  c ← get g_nodecount;
  _ ← modify (λ s, set_globals (g_vfs_root s) (u32 (c + 1)) (g_current_fs s) s);
  mret c.

(** [while (tmp->nextnode) tmp = tmp->nextnode;] *)
Definition last_sibling (tmp : Z) : M (vst H F) Z :=
  fuel ← get node_fuel;
  loop fuel (λ tmp,
    t ← load_node tmp;
    if n_nextnode t =? 0 then mret (inr tmp) else mret (inl (n_nextnode t))) tmp.

Definition upd_node (p : Z) (f : vfs_node → vfs_node) : M (vst H F) unit :=
  n ← load_node p; store_node p (f n).

Definition _find_dir_path (nodepath : Z) : M (vst H F) Z :=
  l ← on_bytes (strlen nodepath);
  path ← kmalloc_v (u32 (l + 1));
  l' ← on_bytes (strlen nodepath);
  _ ← on_bytes (memcpy path nodepath (u32 (l' + 1)));
  pl ← on_bytes (strlen path);
  c ← peek (path + u32 (pl - 1));
  _ ← (if c =? SLASH then pl ← on_bytes (strlen path); poke (path + u32 (pl - 1)) 0 else mret tt);
  cutoff ← on_bytes (strchr_r path SLASH);
  _ ← poke cutoff 0;
  dir ← vfs_find_path path;
  _ ← kfree_v path;
  mret dir.

Definition _create_node (nodepath flags mode : Z) : M (vst H F) Z :=
  dir ← _find_dir_path nodepath;
  if dir =? 0 then mret 0
  else
    node ← new_node;
    _ ← upd_node node (λ n, VfsNode (n_name n) (u8 (_get_type mode)) (n_permissions n) (n_uid n)
          (n_gid n) (n_id n) (n_filelength n) (n_fs_info n) (n_offset n) (n_nlink n) (n_open n)
          (n_close n) (n_read n) (n_write n) (n_creat n) (n_cmd n) (n_opendir n) (n_closedir n)
          (n_readdir n) (n_ptr n) (n_nextnode n) (n_dirlist n) (n_parent n));
    id ← next_nodecount;
    d ← load_node dir;
    _ ← upd_node node (λ n, VfsNode (n_name n) (n_type n) (n_permissions n) (n_uid n)
          (n_gid n) id (n_filelength n) (n_fs_info d) (n_offset n) (n_nlink n) (n_open n)
          (n_close n) (n_read n) (n_write n) (n_creat n) (n_cmd n) (n_opendir n) (n_closedir n)
          (n_readdir n) (n_ptr n) (n_nextnode n) (n_dirlist n) dir);
    d ← load_node dir;
    tmp ← last_sibling (n_dirlist d);
    _ ← upd_node tmp (with_nextnode node);
    mret node.

(** [for (i = strlen(path); i >= 0; --i)]: the last slash, or -1. *)
Definition last_slash (path l : Z) : M bmem Z :=
  loop (S (S (Z.to_nat l))) (λ i,
    if 0 <=? i then
      c ← load8 (path + i);
      if (c =? SLASH) && negb (u32 i =? l) then mret (inr i) else mret (inl (i - 1))
    else mret (inr i)) (s32 l).

Definition _vfs_open (path flags mode : Z) : M (vst H F) Z :=
  node ← vfs_find_path path;
  r ← (if (node =? 0) && negb (Z.land flags O_CREAT =? 0) then
         node ← _create_node path flags mode;
         if node =? 0 then mret (inr 0)
         else
           n ← load_node node;
           c ← (if negb (n_creat n =? 0) then mret true
                else if n_fs_info n =? 0 then mret false
                else fs ← load_filesystem (n_fs_info n); mret (negb (fs_create_node fs =? 0)));
           if (c : bool) then
             l ← on_bytes (strlen path);
             i ← on_bytes (last_slash path l);
             newpath ← kmalloc_v (u32 (l - i));
             _ ← on_bytes (memcpy newpath (path + i + 1) (u32 (l - i)));
             nl ← on_bytes (strlen newpath);
             e ← peek (newpath + nl);
             _ ← (if e =? SLASH then poke (newpath + nl) 0 else mret tt);
             ret ← (if negb (n_creat n =? 0) then
                      r ← call_creat (n_creat n) node newpath flags;
                      _ ← upd_node node (with_offset (u32 r));
                      mret r
                    else
                      fs ← load_filesystem (n_fs_info n);
                      call_create_node (fs_create_node fs) node newpath flags);
             node ← (if ret =? -1 then
                       _ ← kfree_v node;
                       _ ← modify (λ s, set_nodes (delete node (vs_nodes s)) s);
                       _ ← kfree_v newpath;
                       mret 0
                     else mret node);
             _ ← kfree_v newpath;
             mret (inl (node, 1))
           else mret (inl (node, 1))
       else if node =? 0 then mret (inr 0)
       else mret (inl (node, 0)));
  match r with
  | inr x => mret x
  | inl (node, node_created) =>
    n ← load_node node;
    if negb (n_open n =? 0) then
      r ← call_open (n_open n) node (if node_created =? 0 then 1 else 0) flags mode;
      mret (if r =? -1 then 0 else node)
    else mret node
  end.

(** ** Status and position *)

Definition _vfs_stat (node mode : Z) : M (vst H F) (Z * option stat) :=
  if node =? 0 then mret (-1, None)
  else
    n ← load_node node;
    fs ← load_filesystem (n_fs_info n);
    blocks ← of_option (roundup (s32 (n_filelength n)) 512);
    mret (0, Some (Stat 0 (s16 (n_id n)) (Z.lor (vfs_to_stat (n_type n)) mode) (n_nlink n)
                     (s32 (n_uid n)) (s32 (n_gid n)) 0 (s32 (n_filelength n))
                     (s32 (fs_block_size fs)) blocks)).

Definition vfs_fstat (fd : Z) : M (vst H F) (Z * option stat) :=
  fd_struct ← on_fd (get_filedescriptor fd);
  match fd_struct with
  | Some i => d ← load_fd i; _vfs_stat (fd_node d) (fd_mode d)
  | None => mret (-1, None)
  end.

Definition vfs_stat (pathname : Z) : M (vst H F) (Z * option stat) :=
  node ← vfs_find_path pathname;
  fd_struct ← on_fd (get_filedescriptor_from_node node);
  match fd_struct with
  | Some i => d ← load_fd i; _vfs_stat node (fd_mode d)
  | None => _vfs_stat node 0
  end.

Definition vfs_lseek (fd offset whence : Z) : M (vst H F) Z :=
  fd_struct ← on_fd (get_filedescriptor fd);
  match fd_struct with
  | None => mret (-1)
  | Some i =>
    offset ← (if whence =? SEEK_CUR then d ← load_fd i; mret (Some (s32 (offset + fd_seek d)))
              else if whence =? SEEK_END then
                '(r, st) ← vfs_fstat fd;
                match st with
                | Some st => mret (if r =? -1 then None else Some (s32 (offset + st_size st)))
                | None => mret None
                end
              else mret (Some offset));
    match offset with
    | None => mret (-1)
    | Some offset => _ ← set_seek i offset; mret offset
    end
  end.

(** ** Opening and closing

    [kmalloc_ok] is as in [FdTable]; [lock_junk] is the [lock_index] that
    [register_filedescriptor] leaves unset. *)
Variable kmalloc_ok : Z → bool.
Variable lock_junk : Z.

Definition _vfs_opendir (node : Z) : M (vst H F) Z :=
  if node =? 0 then mret 0
  else
    n ← load_node node;
    if negb (n_opendir n =? 0) then call_opendir (n_opendir n) node
    else if n_fs_info n =? 0 then mret 0
    else
      fs ← load_filesystem (n_fs_info n);
      if negb (fs_dir_open fs =? 0) then call_dir_open (fs_dir_open fs) (n_offset n) (n_fs_info n)
      else mret 0.

Definition register_fd (node flags mode : Z) : M (vst H F) Z :=
  on_fd (register_filedescriptor kmalloc_ok node flags (u16 mode) lock_junk).

Definition vfs_open_fd (path flags mode : Z) : M (vst H F) Z :=
  node ← vfs_find_path path;
  if node =? 0 then mret (-1)
  else
    fd ← register_fd node flags mode;
    _ ← (if negb (Z.land flags O_DIRECTORY =? 0) then
           d ← _vfs_opendir node;
           vfs_lseek fd (s32 d) SEEK_SET
         else mret 0);
    mret fd.

(** [kmalloc(sizeof(file))]: the size of the pointer. *)
Definition vfs_open (path flags mode : Z) : M (vst H F) Z :=
  node ← _vfs_open path flags mode;
  if node =? 0 then mret 0
  else
    fd ← register_fd node flags mode;
    if fd =? -1 then mret 0
    else
      fp ← kmalloc_v SIZEOF_POINTER;
      if fp =? 0 then mret 0
      else
        n ← load_node node;
        _ ← modify (λ s, set_files (<[fp := File node fd (n_filelength n)]> (vs_files s)) s);
        mret fp.

Definition vfs_get_name (path : Z) : M (vst H F) Z :=
  l ← on_bytes (strlen path);
  let pathlen := s32 (l + 1) in
  tmp ← kmalloc_v (u32 pathlen);
  _ ← on_bytes (memcpy tmp path (u32 pathlen));
  c ← peek (path + (pathlen - 1));
  pathlen ← (if c =? SLASH then _ ← poke (tmp + (pathlen - 1)) 0; mret (pathlen - 1) else mret pathlen);
  loop (S (Z.to_nat pathlen)) (λ i,
    if i =? 0 then mret (inr tmp)
    else
      c ← peek (tmp + i);
      if c =? SLASH then mret (inr (tmp + (i + 1))) else mret (inl (i - 1))) pathlen.

(** The search for the directory part; 0 when there is no slash after the first
    character. *)
Definition link_dir (tmp pathlen : Z) : M (vst H F) Z :=
  loop (S (Z.to_nat pathlen)) (λ i,
    if i =? 0 then mret (inr 0)
    else
      c ← peek (tmp + i);
      if c =? SLASH then
        _ ← poke (tmp + i) 0;
        dir ← vfs_find_path tmp;
        mret (inr dir)
      else mret (inl (i - 1))) pathlen.

Definition vfs_link_node_vfs (path node : Z) : M (vst H F) Z :=
  l ← on_bytes (strlen path);
  let pathlen := s32 l in
  tmp ← kmalloc_v (u32 pathlen);
  _ ← on_bytes (memcpy tmp path (u32 pathlen));
  c ← peek (path + (pathlen - 1));
  pathlen ← (if c =? SLASH then _ ← poke (tmp + (pathlen - 1)) 0; mret (pathlen - 1) else mret pathlen);
  dir ← link_dir tmp pathlen;
  if dir =? 0 then mret (-1)
  else
    _ ← upd_node node (with_parent dir);
    d ← load_node dir;
    ntmp ← last_sibling (n_dirlist d);
    _ ← (if ntmp =? 0 then upd_node dir (with_dirlist node)
         else upd_node ntmp (with_nextnode node));
    _ ← kfree_v tmp;
    mret 0.

Definition vfs_creat (path mode : Z) : M (vst H F) Z :=
  vfs_open_fd path (Z.lor (Z.lor O_WRONLY O_CREAT) O_TRUNC) mode.

Definition vfs_close (fp : Z) : M (vst H F) Z :=
  f ← load_file fp;
  _ ← on_fd (close_filedescriptor (file_fd f));
  n ← load_node (file_node f);
  ret ← (if negb (n_close n =? 0) then call_close (n_close n) (file_node f) else mret 0);
  r ← kfree_v fp;
  _ ← modify (λ s, set_files (delete fp (vs_files s)) s);
  mret (if r =? -1 then -1 else ret).

Definition vfs_close_fd (fd : Z) : M (vst H F) Z :=
  node ← on_fd (get_filedescriptor_node fd);
  if node =? 0 then mret (-1)
  else
    n ← load_node node;
    _ ← (if negb (n_close n =? 0) then call_close (n_close n) node else mret 0);
    on_fd (close_filedescriptor fd).

(** ** Directories *)

Definition vfs_readdir (dirstream : Z) : M (vst H F) Z :=
  if dirstream =? 0 then mret 0
  else
    d ← load_dirstream dirstream;
    if d_fs_info d =? 0 then mret 0
    else
      fs ← load_filesystem (d_fs_info d);
      if negb (fs_dir_read fs =? 0) then call_dir_read (fs_dir_read fs) dirstream else mret 0.

Definition vfs_opendir (filepath : Z) : M (vst H F) Z :=
  node ← vfs_find_path filepath; _vfs_opendir node.

Definition vfs_setupnode (name type permissions uid gid size offset open close creat read write
    opendir readdir fs_info : Z) : M (vst H F) Z :=
  node ← new_node;
  id ← next_nodecount;
  _ ← upd_node node (λ n, VfsNode name type permissions uid gid id size fs_info offset (n_nlink n)
        open close read write creat (n_cmd n) opendir (n_closedir n) readdir (n_ptr n) (n_nextnode n)
        (n_dirlist n) (n_parent n));
  mret node.

(** One entry of a directory: its name is copied, its node made and linked, and
    a directory other than . and .. is entered. *)
Definition scan_entry (rec : Z → Z → M (vst H F) unit) (fs_info dirp : Z) (fs : filesystem) :
    Z * bool → M (vst H F) (Z * bool + unit) := λ '(prevnode, first),
  dir ← call_dir_read (fs_dir_read fs) dirp;
  if dir =? 0 then mret (inr tt)
  else
    let d_name := dir + DIRENT_NAME in
    l ← on_bytes (strlen d_name);
    name ← kmalloc_v (u32 (l + 1));
    _ ← on_bytes (memcpy name d_name l);
    l' ← on_bytes (strlen d_name);
    _ ← poke (name + l') 0;
    d_ino ← on_bytes (load32 dir);
    id ← next_nodecount;
    node ← call_makenode (fs_makenode fs) d_ino name id fs_info;
    if node =? 0 then mret (inl (prevnode, first))
    else
      _ ← upd_node node (with_parent prevnode);
      _ ← (if (first : bool) then upd_node prevnode (with_dirlist node)
           else upd_node prevnode (with_nextnode node));
      n ← load_node node;
      _ ← (if n_type n =? VFS_DIRECTORY then
             c1 ← on_bytes (strcmp d_name (lit [DOT]));
             if c1 =? 0 then mret tt
             else
               c2 ← on_bytes (strcmp (lit [DOT; DOT]) d_name);
               if c2 =? 0 then mret tt else rec (n_offset n) node
           else mret tt);
      mret (inl (node, false)).

(** [fuel] bounds the depth of the tree and the length of each directory. *)
Fixpoint loop_over_filesystem (fuel : nat) (start : Z) (rootnode : bool) (startnode fs_info : Z) :
    M (vst H F) unit :=
  match fuel with
  | O => hang
  | S fuel =>
    fs ← load_filesystem fs_info;
    startnode ← (if rootnode then
      id ← next_nodecount;
      root ← call_makenode (fs_makenode fs) start (lit []) id fs_info;
      _ ← modify (λ s, set_globals root (g_nodecount s) (g_current_fs s) s);
      _ ← upd_node root (with_parent root);
      mret root else mret startnode);
    dirp ← call_dir_open (fs_dir_open fs) start fs_info;
    if dirp =? 0 then mret tt
    else
      _ ← loop fuel (scan_entry (λ offset node, loop_over_filesystem fuel offset false node fs_info)
                       fs_info dirp fs) (startnode, true);
      _ ← call_dir_close (fs_dir_close fs) dirp;
      mret tt
  end.

Definition check_vfs_initialised : M (vst H F) Z :=
  r ← get g_vfs_root; mret (if r =? 0 then 0 else 1).

(** [disk_list] is the first registered disk. *)
Definition init_vfs (fuel : nat) (disk_list : Z) : M (vst H F) Z :=
  _ ← modify (λ s, set_globals (g_vfs_root s) 0 (g_current_fs s) s);
  fs ← init_fs 1048576 disk_list;
  _ ← modify (λ s, set_globals (g_vfs_root s) (g_nodecount s) fs s);
  if fs =? 0 then mret (-1)
  else
    _ ← modify (λ s, set_globals 0 (g_nodecount s) (g_current_fs s) s);
    _ ← loop_over_filesystem fuel 2 true 0 fs;
    mret 0.

(** ** Sockets in the tree *)

Variable sock_close : Z.

Definition SOCKET_CONN : list Z := [115; 111; 99; 107; 101; 116; 95; 99; 111; 110; 110].

Definition vfs_sock_create_conn (conn : Z) : M (vst H F) Z :=
  vfs_setupnode (lit SOCKET_CONN) VFS_SOCKET 0 0 0 0 conn 0 0 0 0 0 0 0 0.

Definition default_permissions : Z := 0.

Definition vfs_sock_create (path socket : Z) : M (vst H F) Z :=
  t ← current_task;
  name ← vfs_get_name path;
  node ← vfs_setupnode name VFS_SOCKET default_permissions (t_euid t) (t_egid t) 0 socket
           0 sock_close 0 0 0 0 0 0;
  vfs_link_node_vfs path node.
End vfs.
