(* ===== verification/VfsPath.v ===== *)
(** * Looking up paths (kernel/fs/vfs/vfs.c)

    The node store read as a tree: [entries] lists the names and nodes of a
    directory, [walk] follows the components of a path.  [vfs_find_path] computes
    [walk] on the components between slashes, and leaves the memory as it was. *)
From S2P Require Import Prelude LinkedList Frames Mm HeapApi LibK FdTable Disk Kmem FileIo Vfs.

(** ** Lifted computations *)

Section lifting.
Context {H F : Type}.
Implicit Types s : vst H F.

Lemma set_kmem_id s : set_kmem (vs_mem s) (vs_heap s) s = s.
Proof. by destruct s. Qed.

Lemma set_kmem_twice m h m' h' s : set_kmem m h (set_kmem m' h' s) = set_kmem m h s.
Proof. done. Qed.

Lemma run_on_kmem {A} (c : M (bmem * H) A) s a m h :
  c (vs_mem s, vs_heap s) = Ok (a, (m, h)) → on_kmem c s = Ok (a, set_kmem m h s).
Proof. unfold on_kmem. by intros ->. Qed.

Lemma run_on_bytes {A} (c : M bmem A) s a m :
  c (vs_mem s) = Ok (a, m) → on_bytes c s = Ok (a, set_kmem m (vs_heap s) s).
Proof. intros Hc. apply run_on_kmem. simpl. by rewrite Hc. Qed.

(** A computation that only reads the bytes. *)
Lemma run_read {A} (c : M bmem A) s a :
  c (vs_mem s) = Ok (a, vs_mem s) → on_bytes c s = Ok (a, s).
Proof. intros Hc. rewrite (run_on_bytes c s a _ Hc). by rewrite set_kmem_id. Qed.

Lemma run_peek s p b : vs_mem s !! p = Some b → peek p s = Ok (b, s).
Proof. intros Hb. apply run_read. by apply run_load8. Qed.

Lemma run_poke s p b : is_Some (vs_mem s !! p) →
  poke p b s = Ok (tt, set_kmem (<[p := u8 b]> (vs_mem s)) (vs_heap s) s).
Proof. intros Hb. apply run_on_bytes. by apply run_store8. Qed.

Lemma run_load_node s p n : vs_nodes s !! p = Some n → load_node p s = Ok (n, s).
Proof. intros Hn. unfold load_node, get, of_option, mbind, M_bind. by rewrite Hn. Qed.
End lifting.

(** ** Directories as lists *)

Fixpoint entries (m : bmem) (ns : gmap Z vfs_node) (p : Z) (es : list (list Z * Z)) : Prop :=
  match es with
  | [] => p = 0
  | (name, q) :: es' =>
    p = q ∧ q ≠ 0 ∧ ∃ n, ns !! q = Some n ∧ cstr m (n_name n) name ∧ entries m ns (n_nextnode n) es'
  end.

(** The first entry of that name. *)
Fixpoint find_entry (name : list Z) (es : list (list Z * Z)) : option Z :=
  match es with
  | [] => None
  | (s, q) :: es' => if decide (name = s) then Some q else find_entry name es'
  end.

(** Every node's list is that of [dirs]; files have none. *)
Definition vfs_tree (m : bmem) (ns : gmap Z vfs_node) (dirs : Z → list (list Z * Z)) : Prop :=
  ∀ p n, ns !! p = Some n → entries m ns (n_dirlist n) (dirs p).

Fixpoint walk (dirs : Z → list (list Z * Z)) (node : Z) (comps : list (list Z)) : option Z :=
  match comps with
  | [] => Some node
  | c :: cs =>
    match find_entry c (dirs node) with
    | Some q => walk dirs q cs
    | None => None
    end
  end.

(** The components between slashes, after [acc]. *)
Fixpoint split_path (acc s : list Z) : list (list Z) :=
  match s with
  | [] => [acc]
  | c :: s' => if c =? SLASH then acc :: split_path [] s' else split_path (acc ++ [c]) s'
  end.

Lemma entries_sub m m' ns p es : m ⊆ m' → entries m ns p es → entries m' ns p es.
Proof.
  intros Hm. revert p. induction es as [|[name q] es IH]; intros p; simpl; [done|].
  intros (-> & Hq & n & Hn & Hs & He). split; [done|]. split; [done|]. exists n.
  split; [done|]. split; [by eapply cstr_sub|]. by apply IH.
Qed.

Lemma vfs_tree_sub m m' ns dirs : m ⊆ m' → vfs_tree m ns dirs → vfs_tree m' ns dirs.
Proof. intros Hm Ht p n Hn. eapply entries_sub; [done|]. by apply Ht. Qed.

(** The list of nodes is determined by its head. *)
Lemma entries_det m ns p es es' : entries m ns p es → entries m ns p es' → es.*2 = es'.*2.
Proof.
  revert p es'. induction es as [|[s q] es IH]; intros p [|[s' q'] es']; simpl; try done.
  - by intros -> (? & ? & _).
  - by intros (? & ? & _) ->.
  - intros (-> & _ & n & Hn & _ & He) (-> & _ & n' & Hn' & _ & He').
    rewrite Hn in Hn'. injection Hn' as <-. f_equal. by eapply IH.
Qed.

Lemma entries_app m ns p es1 q s es2 :
  entries m ns p (es1 ++ (s, q) :: es2) → entries m ns q ((s, q) :: es2).
Proof.
  revert p. induction es1 as [|[s' q'] es1 IH]; intros p; simpl.
  - intros (-> & ?). done.
  - intros (_ & _ & n & _ & _ & He). by eapply IH.
Qed.

Lemma entries_nodup m ns p es : entries m ns p es → NoDup (es.*2).
Proof.
  revert p. induction es as [|[s q] es IH]; intros p He; [constructor|].
  assert (He' := He). simpl in He. destruct He as (-> & Hq & n & Hn & Hs & He).
  simpl. constructor; [|by eapply IH].
  intros ([s' q'] & Heq & Hin)%list_elem_of_fmap. simpl in Heq. subst q'.
  apply list_elem_of_split in Hin as (es1 & es2 & ->).
  pose proof (entries_app _ _ _ _ _ _ _ He) as He2.
  pose proof (entries_det _ _ _ _ _ He' He2) as Hd. apply (f_equal length) in Hd.
  rewrite !length_fmap in Hd. simpl in Hd. rewrite length_app in Hd. simpl in Hd. lia.
Qed.

Lemma entries_in m ns p es : entries m ns p es → Forall (λ q, is_Some (ns !! q)) (es.*2).
Proof.
  revert p. induction es as [|[s q] es IH]; intros p; simpl; [constructor|].
  intros (-> & _ & n & Hn & _ & He). constructor; [by rewrite Hn|]. by eapply IH.
Qed.

(** Distinct keys of a map are at most as many as its entries. *)
Lemma keys_length {A} (ns : gmap Z A) (ks : list Z) :
  NoDup ks → Forall (λ q, is_Some (ns !! q)) ks → (length ks ≤ size ns)%nat.
Proof.
  intros Hnd Hin. rewrite <- size_dom, <- (size_list_to_set (C := gset Z) ks) by done.
  apply subseteq_size. intros q. rewrite elem_of_list_to_set, elem_of_dom.
  rewrite Forall_forall in Hin. apply Hin.
Qed.

Lemma entries_fuel {H F} (s : vst H F) m p es :
  entries m (vs_nodes s) p es → (length es < node_fuel s)%nat.
Proof.
  intros He. unfold node_fuel. pose proof (keys_length (vs_nodes s) (es.*2)) as Hk.
  rewrite length_fmap in Hk. rewrite Nat.lt_succ_r. apply Hk.
  - by eapply entries_nodup.
  - by eapply entries_in.
Qed.

(** ** Looking up a name *)

Section find.
Context {H F : Type} `{HL : HeapLaws H} `{!VfsDrivers H F}.
Implicit Types s : vst H F.

Definition with_errno (e : Z) s : vst H F :=
  set_fd (FdSt (task_fds (vs_fd s)) (global_file_table (vs_fd s)) e) s.

Definition enoent : vst H F → vst H F := with_errno ENOENT.

(** What a lookup returns: the node, or NULL and ENOENT. *)
Definition found (o : option Z) s : result (Z * vst H F) :=
  match o with
  | Some q => Ok (q, s)
  | None => Ok (0, enoent s)
  end.

Lemma find_entry_nonzero m ns p es name : entries m ns p es → find_entry name es ≠ Some 0.
Proof.
  revert p. induction es as [|[t q] es IH]; intros p; simpl; [done|].
  intros (-> & Hq & n & _ & _ & He). case_decide; [congruence|]. by eapply IH.
Qed.

Lemma sibling_loop s name namep p es fuel :
  entries (vs_mem s) (vs_nodes s) p es → cstr (vs_mem s) namep name → (length es < fuel)%nat →
  loop fuel (λ tmp,
    if tmp =? 0 then mret (inr 0)
    else
      t ← load_node tmp;
      c ← on_bytes (strcmp namep (n_name t));
      if c =? 0 then mret (inr tmp)
      else t' ← load_node tmp; mret (inl (n_nextnode t'))) p s =
  Ok (default 0 (find_entry name es), s).
Proof.
  revert p fuel. induction es as [|[t q] es IH]; intros p fuel He Hn Hf;
    (destruct fuel as [|fuel]; [simpl in Hf; lia|]); simpl in He.
  - subst p. done.
  - destruct He as (-> & Hq & n & Hnq & Ht & He). simpl.
    destruct (Z.eqb_spec q 0); [done|].
    destruct (strcmp_run (vs_mem s) namep (n_name n) name t Hn Ht) as (r & Hr & Hz & _).
    rewrite (bind_ok _ _ s (if r =? 0 then inr q else inl (n_nextnode n)) s).
    2: { rewrite (bind_ok _ _ s n s) by by apply run_load_node.
         rewrite (bind_ok _ _ s r s) by by apply run_read.
         destruct (r =? 0); [done|]. by rewrite (bind_ok _ _ s n s) by by apply run_load_node. }
    destruct (Z.eqb_spec r 0) as [Hr0|Hr0].
    + rewrite decide_True by by apply Hz. done.
    + rewrite decide_False by (intros He'; by apply Hr0, Hz). apply IH; [done|done|simpl in Hf; lia].
Qed.

Lemma path_find_run s dir name namep dirs :
  vfs_tree (vs_mem s) (vs_nodes s) dirs → is_Some (vs_nodes s !! dir) →
  cstr (vs_mem s) namep name →
  _vfs_path_find dir namep s = found (find_entry name (dirs dir)) s.
Proof.
  intros Ht [n Hn] Hs. pose proof (Ht _ _ Hn) as He. unfold _vfs_path_find.
  rewrite (bind_ok _ _ s n s) by by apply run_load_node. unfold get at 1.
  rewrite (bind_ok _ _ s (node_fuel s) s) by done.
  rewrite (bind_ok _ _ s (default 0 (find_entry name (dirs dir))) s).
  2: { apply sibling_loop; [done|done|]. by eapply entries_fuel. }
  destruct (find_entry name (dirs dir)) as [q|] eqn:Hf; simpl.
  - destruct (Z.eqb_spec q 0) as [->|]; [|done]. by destruct (find_entry_nonzero _ _ _ _ _ He Hf).
  - done.
Qed.

Lemma find_entry_in m ns p es name q : entries m ns p es → find_entry name es = Some q →
  is_Some (ns !! q).
Proof.
  intros He%entries_in Hf. rewrite Forall_forall in He. apply He.
  clear He. induction es as [|[t q'] es IH]; simpl in *; [done|].
  case_decide; [injection Hf as ->; left|]. right. by apply IH.
Qed.

(** ** The loop over the path *)

Lemma run_kfree m0 L r p n s :
  scratch m0 L r p n (vs_mem s) (vs_heap s) →
  ∃ h', kfree_v p s = Ok (0, set_kmem m0 h' s) ∧ heap_rep m0 h' L r.
Proof.
  intros Hs. destruct (scratch_free _ _ _ _ _ _ _ Hs) as (h' & Hrun & Hh). exists h'.
  split; [|done]. by apply run_on_kmem.
Qed.

Lemma insert_write (m : bmem) p b : <[p := b]> m = write_at m p [b].
Proof. done. Qed.

(** A component ends: its name is terminated and looked up. *)
Lemma component_end m0 L r buffer k s dirs node cur :
  scratch m0 L r buffer k (vs_mem s) (vs_heap s) →
  vfs_tree m0 (vs_nodes s) dirs → is_Some (vs_nodes s !! node) →
  bytes_at (vs_mem s) buffer cur → Forall is_char cur → Z.of_nat (length cur) < k →
  ∃ m1, poke (buffer + Z.of_nat (length cur)) 0 s = Ok (tt, set_kmem m1 (vs_heap s) s) ∧
    scratch m0 L r buffer k m1 (vs_heap s) ∧
    _vfs_path_find node buffer (set_kmem m1 (vs_heap s) s) =
      found (find_entry cur (dirs node)) (set_kmem m1 (vs_heap s) s).
Proof.
  intros Hsc Ht Hn Hb Hc Hk. exists (write_at (vs_mem s) (buffer + Z.of_nat (length cur)) [0]).
  assert (Hsc' : scratch m0 L r buffer k (write_at (vs_mem s) (buffer + Z.of_nat (length cur)) [0])
                   (vs_heap s)) by (apply scratch_write; [done|lia|simpl; lia]).
  split; [|split; [done|]].
  - rewrite run_poke; [done|]. apply (sc_mapped _ _ _ _ _ _ _ Hsc). lia.
  - apply path_find_run.
    + eapply vfs_tree_sub; [|done]. by eapply scratch_sub.
    + done.
    + split; [|done]. apply bytes_at_app. split; [|apply write_at_in].
      intros i b Hi. pose proof (lookup_lt_Some _ _ _ Hi). simpl. rewrite lookup_insert_ne by lia. by apply Hb.
Qed.

(** The step at the end of a component [cur], followed by [c]. *)
Lemma find_step_end path pathlength m0 L r buffer k s dirs c i cur node m h :
  vfs_tree m0 (vs_nodes s) dirs → scratch m0 L r buffer k m h → is_Some (vs_nodes s !! node) →
  m0 !! (path + i) = Some c → c = 0 ∨ c = SLASH → Forall is_char cur → bytes_at m buffer cur →
  i < pathlength → Z.of_nat (length cur) + 1 ≤ i → pathlength ≤ k → (c = SLASH → i + 1 < pathlength) →
  let run := find_step path pathlength buffer (i, Z.of_nat (length cur), node) (set_kmem m h s) in
  match find_entry cur (dirs node) with
  | None => ∃ h', run = Ok (inr 0, enoent (set_kmem m0 h' s)) ∧ heap_rep m0 h' L r
  | Some q =>
    if c =? 0 then ∃ h', run = Ok (inr q, set_kmem m0 h' s) ∧ heap_rep m0 h' L r
    else ∃ m', run = Ok (inl (i + 1, 0, q), set_kmem m' h s) ∧ scratch m0 L r buffer k m' h
  end.
Proof.
  intros Ht Hsc Hn Hpi Hc Hcur Hb Hi Hlen Hk Hsl.
  destruct (component_end m0 L r buffer k (set_kmem m h s) dirs node cur) as (m1 & Hpk & Hsc1 & Hfd);
    [done..|lia|]. simpl in Hsc1, Hpk, Hfd. rewrite set_kmem_twice in Hpk, Hfd.
  assert (Hpeek : ∀ m', m0 ⊆ m' → peek (path + i) (set_kmem m' h s) = Ok (c, set_kmem m' h s)).
  { intros m' Hm'. apply run_peek. by eapply lookup_weaken. }
  simpl. unfold find_step. destruct (Z.ltb_spec i pathlength); [|lia].
  rewrite (bind_ok _ _ _ c (set_kmem m h s)) by (apply Hpeek; by eapply scratch_sub).
  replace ((c =? SLASH) || (c =? 0)) with true by (destruct Hc as [-> | ->]; done).
  rewrite (bind_ok _ _ _ _ _ Hpk). destruct (find_entry cur (dirs node)) as [q|] eqn:Hq; simpl in Hfd.
  - rewrite (bind_ok _ _ _ _ _ Hfd). destruct Hn as [nn Hnn].
    destruct (Z.eqb_spec q 0) as [->|]; [by destruct (find_entry_nonzero _ _ _ _ _ (Ht _ _ Hnn) Hq)|].
    rewrite (bind_ok _ _ _ c (set_kmem m1 h s)) by (apply Hpeek; by eapply scratch_sub).
    destruct (Z.eqb_spec c 0) as [->|Hc0].
    + destruct (run_kfree m0 L r buffer k (set_kmem m1 h s)) as (h' & Hrun & Hh); [done|].
      exists h'. by rewrite (bind_ok _ _ _ _ _ Hrun).
    + destruct Hc as [?|Hc]; [done|]. specialize (Hsl Hc).
      exists (write_at m1 buffer (replicate (4 * ((length cur + 2) / 4)) 0)).
      assert (Hq4 : (4 * ((length cur + 2) / 4) ≤ length cur + 2)%nat) by apply Nat.Div0.mul_div_le.
      split; [|apply scratch_write; [done|lia|rewrite length_replicate; lia]].
      replace (Z.of_nat (length cur) + 1 + 1) with (Z.of_nat (length cur + 2)) by lia.
      erewrite bind_ok; [done|]. apply (run_on_bytes _ (set_kmem m1 h s)). apply memset_zero_run.
      eapply mapped_sub; [apply (sc_mapped _ _ _ _ _ _ _ Hsc1)|lia|lia].
  - rewrite (bind_ok _ _ _ _ _ Hfd). simpl.
    destruct (run_kfree m0 L r buffer k (enoent (set_kmem m1 h s))) as (h' & Hrun & Hh); [done|].
    exists h'. by rewrite (bind_ok _ _ _ _ _ Hrun).
Qed.

Lemma found_inr (o : option Z) s : found o s = Ok (default 0 o, match o with Some _ => s | None => enoent s end).
Proof. by destruct o. Qed.

Lemma find_loop path pathlength m0 L r buffer k s dirs rest :
  vfs_tree m0 (vs_nodes s) dirs → pathlength ≤ k →
  ∀ fuel i cur node m h,
  scratch m0 L r buffer k m h → is_Some (vs_nodes s !! node) →
  bytes_at m0 (path + i) (rest ++ [0]) → Forall is_char rest → Forall is_char cur →
  bytes_at m buffer cur → Z.of_nat (length cur) + 1 ≤ i →
  pathlength = i + Z.of_nat (length rest) + 1 → (length rest < fuel)%nat →
  ∃ h', loop fuel (find_step path pathlength buffer) (i, Z.of_nat (length cur), node) (set_kmem m h s) =
      found (walk dirs node (split_path cur rest)) (set_kmem m0 h' s) ∧ heap_rep m0 h' L r.
Proof.
  intros Ht Hk. induction rest as [|c rest IH];
    intros fuel i cur node m h Hsc Hn Hp Hr Hc Hb Hi Hl Hf;
    (destruct fuel as [|fuel]; [simpl in Hf; lia|]); simpl length in Hl.
  - pose proof (find_step_end path pathlength m0 L r buffer k s dirs 0 i cur node m h Ht Hsc Hn) as Hstep.
    cbv zeta in Hstep. simpl loop. simpl split_path. simpl walk.
    destruct (find_entry cur (dirs node)) as [q|];
      (destruct Hstep as (h' & Hrun & Hh);
        [rewrite <- (Z.add_0_r (path + i)); by apply (Hp 0%nat)|by left|done|done|lia|lia|lia|done|]);
      exists h'; by rewrite (bind_ok _ _ _ _ _ Hrun).
  - apply Forall_cons in Hr as [Hch Hr]. unfold is_char in Hch.
    assert (Hpc : m0 !! (path + i) = Some c) by (rewrite <- (Z.add_0_r (path + i)); by apply (Hp 0%nat)).
    assert (Hp' : bytes_at m0 (path + (i + 1)) (rest ++ [0])).
    { intros j b Hj. replace (path + (i + 1) + Z.of_nat j) with (path + i + Z.of_nat (S j)) by lia.
      by apply (Hp (S j)). }
    simpl split_path. destruct (Z.eqb_spec c SLASH) as [->|Hns].
    + pose proof (find_step_end path pathlength m0 L r buffer k s dirs SLASH i cur node m h Ht Hsc Hn) as Hstep.
      cbv zeta in Hstep. simpl walk. simpl loop. destruct (find_entry cur (dirs node)) as [q|] eqn:Hq.
      * destruct Hstep as (m' & Hrun & Hsc'); [done|by right|done|done|lia|lia|lia|lia|].
        rewrite (bind_ok _ _ _ _ _ Hrun). destruct Hn as [nn Hnn].
        apply (IH fuel (i + 1) [] q m' h); try done; simpl in *; try lia.
        by eapply find_entry_in; [apply (Ht _ _ Hnn)|].
      * destruct Hstep as (h' & Hrun & Hh); [done|by right|done|done|lia|lia|lia|lia|].
        exists h'. by rewrite (bind_ok _ _ _ _ _ Hrun).
    + assert (Hsc' : scratch m0 L r buffer k (write_at m (buffer + Z.of_nat (length cur)) [c]) h)
        by (apply scratch_write; [done|lia|simpl; lia]).
      simpl loop. rewrite (bind_ok _ _ _ (inl (i + 1, Z.of_nat (length (cur ++ [c])), node))
        (set_kmem (write_at m (buffer + Z.of_nat (length cur)) [c]) h s)).
      * apply IH; try done; try (rewrite length_app; simpl; lia); [|..|simpl in *; lia].
        -- apply Forall_app_2; [done|]. by apply Forall_singleton.
        -- apply bytes_at_app. split; [|apply write_at_in].
           intros j b Hj. pose proof (lookup_lt_Some _ _ _ Hj). simpl. rewrite lookup_insert_ne by lia. by apply Hb.
        -- lia.
      * unfold find_step. destruct (Z.ltb_spec i pathlength); [|lia].
        rewrite (bind_ok _ _ _ c (set_kmem m h s)).
        2: { apply run_peek. eapply lookup_weaken; [done|]. by eapply scratch_sub. }
        destruct (Z.eqb_spec c SLASH); [done|]. destruct (Z.eqb_spec c 0); [lia|]. simpl.
        rewrite (bind_ok _ _ _ tt (set_kmem (write_at m (buffer + Z.of_nat (length cur)) [c]) h s)).
        { rewrite length_app. simpl. by replace (Z.of_nat (length cur + 1)) with (Z.of_nat (length cur) + 1) by lia. }
        rewrite run_poke by (apply (sc_mapped _ _ _ _ _ _ _ Hsc); simpl in *; lia).
        by rewrite u8_small by lia.
Qed.

(** ** The whole lookup *)

(** The search from the root ignores the first character. *)
Definition from_root (dirs : Z → list (list Z * Z)) (root : Z) (p : list Z) : option Z :=
  match p with
  | [] => None
  | _ :: rest => walk dirs root (split_path [] rest)
  end.

(** A path that starts with a slash; the slash alone is the root. *)
Definition absolute (dirs : Z → list (list Z * Z)) (root : Z) (rest : list Z) : option Z :=
  match rest with
  | [] => Some root
  | _ => walk dirs root (split_path [] rest)
  end.

Lemma run_strlen s p str : cstr (vs_mem s) p str → p ≠ 0 →
  on_bytes (strlen p) s = Ok (Z.of_nat (length str), s).
Proof. intros. apply run_read. by apply strlen_run. Qed.

Lemma run_kmalloc s n L r :
  heap_rep (vs_mem s) (vs_heap s) L r → 0 ≤ n < 2147483648 → charge n ≤ r →
  ∃ p k m' h', kmalloc_v n s = Ok (p, set_kmem m' h' s) ∧ n ≤ k ∧
    scratch (vs_mem s) L (r - charge n) p k m' h'.
Proof.
  intros Hh Hn Hr. destruct (scratch_alloc _ _ _ _ _ Hh Hn Hr) as (p & k & m' & h' & Hrun & ? & ?).
  exists p, k, m', h'. split; [|done]. by apply run_on_kmem.
Qed.

Lemma find_from_root_run s path p dirs L r :
  vfs_tree (vs_mem s) (vs_nodes s) dirs → is_Some (vs_nodes s !! g_vfs_root s) → g_vfs_root s ≠ 0 →
  cstr (vs_mem s) path p → path ≠ 0 → Z.of_nat (length p) + 1 < 2147483648 →
  heap_rep (vs_mem s) (vs_heap s) L r → charge (Z.of_nat (length p) + 1) ≤ r →
  ∃ h', find_from_root path s = found (from_root dirs (g_vfs_root s) p) (set_kmem (vs_mem s) h' s) ∧
    heap_rep (vs_mem s) h' L (r - charge (Z.of_nat (length p) + 1)).
Proof.
  intros Ht Hroot Hr0 Hp Hp0 Hl Hh Hr. set (n := Z.of_nat (length p) + 1) in *.
  destruct (run_kmalloc s n L r Hh) as (buffer & k & m1 & h1 & Hrun & Hk & Hsc); [lia|done|].
  unfold find_from_root. rewrite (bind_ok _ _ _ _ _ (run_strlen s path p Hp Hp0)).
  rewrite (u32_small (_ + 1)) by lia. fold n. rewrite (bind_ok _ _ _ _ _ Hrun).
  rewrite (bind_ok _ _ _ (g_vfs_root s) (set_kmem m1 h1 s)) by done.
  destruct (Z.eqb_spec (g_vfs_root s) 0); [done|].
  set (m2 := write_at m1 buffer (replicate (4 * ((length p + 1) / 4)) 0)).
  assert (Hq4 : (4 * ((length p + 1) / 4) ≤ length p + 1)%nat) by apply Nat.Div0.mul_div_le.
  assert (Hsc2 : scratch (vs_mem s) L (r - charge n) buffer k m2 h1).
  { apply scratch_write; [done|lia|rewrite length_replicate; lia]. }
  rewrite (bind_ok _ _ _ buffer (set_kmem m2 h1 s)).
  2: { unfold n. replace (Z.of_nat (length p) + 1) with (Z.of_nat (length p + 1)) by lia.
       apply (run_on_bytes _ (set_kmem m1 h1 s)). apply memset_zero_run.
       eapply mapped_sub; [apply (sc_mapped _ _ _ _ _ _ _ Hsc)|lia|lia]. }
  destruct p as [|c rest]; simpl from_root.
  - simpl loop. unfold find_step. simpl.
    destruct (run_kfree (vs_mem s) L (r - charge n) buffer k (set_kmem m2 h1 s)) as (h' & Hfr & Hh'); [done|].
    exists h'. split; [|done]. change (1 <? n) with false. cbv iota.
    rewrite (bind_ok _ _ _ (inr 0) (enoent (set_kmem (vs_mem s) h' s))); [done|].
    by rewrite (bind_ok _ _ _ _ _ Hfr).
  - destruct Hp as [Hpb Hpc]. apply Forall_cons in Hpc as [_ Hpc].
    apply (find_loop path n (vs_mem s) L (r - charge n) buffer k s dirs rest Ht Hk
      (S (Z.to_nat n)) 1 [] (g_vfs_root s) m2 h1); try done.
    + intros j b Hj. replace (path + 1 + Z.of_nat j) with (path + Z.of_nat (S j)) by lia.
      by apply (Hpb (S j)).
    + unfold n. simpl length. lia.
    + unfold n. simpl length. lia.
Qed.

(** An absolute path needs no recursive call. *)
Lemma find_absolute lit depth s path rest dirs L r :
  vfs_tree (vs_mem s) (vs_nodes s) dirs → is_Some (vs_nodes s !! g_vfs_root s) → g_vfs_root s ≠ 0 →
  cstr (vs_mem s) path (SLASH :: rest) → path ≠ 0 → Z.of_nat (length rest) + 2 < 2147483648 →
  heap_rep (vs_mem s) (vs_heap s) L r → charge (Z.of_nat (length rest) + 2) ≤ r →
  ∃ h', vfs_find_path_rec lit (S depth) path s =
      found (absolute dirs (g_vfs_root s) rest) (set_kmem (vs_mem s) h' s) ∧
    heap_rep (vs_mem s) h' L (r - charge (Z.of_nat (length rest) + 2)).
Proof.
  intros Ht Hroot Hr0 Hp Hp0 Hl Hh Hr. simpl.
  assert (H0 : vs_mem s !! path = Some SLASH).
  { rewrite <- (Z.add_0_r path). by apply (proj1 Hp 0%nat). }
  rewrite (bind_ok _ _ _ SLASH s) by by apply run_peek. simpl.
  assert (H1 : vs_mem s !! (path + 1) = Some (default 0 (head rest))).
  { apply (proj1 Hp 1%nat). by destruct rest. }
  rewrite (bind_ok _ _ _ (default 0 (head rest)) s) by by apply run_peek.
  destruct rest as [|c rest]; simpl absolute; simpl default.
  - exists (vs_heap s). split.
    + rewrite set_kmem_id. done.
    + eapply heap_rep_room; [done|]. pose proof (charge_pos (Z.of_nat (@length Z []) + 2)). lia.
  - destruct Hp as [Hpb Hpc]. assert (Hc := Hpc). inversion_clear Hc as [|? ? _ Hc'].
    inversion_clear Hc' as [|? ? Hc _]. unfold is_char in Hc.
    destruct (Z.eqb_spec (default 0 (head (c :: rest))) 0) as [Hz|_]; [simpl in Hz; lia|].
    destruct (find_from_root_run s path (SLASH :: c :: rest) dirs L r) as (h' & Hrun & Hh'); try done.
    + simpl in *. lia.
    + by replace (Z.of_nat (length (SLASH :: c :: rest)) + 1) with
        (Z.of_nat (length (c :: rest)) + 2) by (simpl; lia).
    + exists h'. split; [done|].
      by replace (Z.of_nat (length (SLASH :: c :: rest)) + 1) with
        (Z.of_nat (length (c :: rest)) + 2) in Hh' by (simpl; lia).
Qed.

(** ** Relative paths *)

(** Copying a string that existed before into the block. *)
Lemma scratch_copy m0 L r buf k m h q src t :
  scratch m0 L r buf k m h → cstr m0 src t → buf ≤ q → q + Z.of_nat (length t) + 1 ≤ buf + k →
  copy_string q src m = Ok (q + Z.of_nat (length t), write_at m q (t ++ [0])) ∧
  scratch m0 L r buf k (write_at m q (t ++ [0])) h.
Proof.
  intros Hsc Ht Hq Hk. split.
  - apply copy_string_run.
    + eapply cstr_sub; [by eapply scratch_sub|done].
    + eapply mapped_sub; [apply (sc_mapped _ _ _ _ _ _ _ Hsc)|lia|lia].
    + destruct (unmapped_apart m0 buf k src (Z.of_nat (length t) + 1)); try lia.
      * apply (sc_fresh _ _ _ _ _ _ _ Hsc).
      * pose proof (bytes_at_mapped _ _ _ (proj1 Ht)) as Hm. rewrite length_app in Hm. simpl in Hm.
        intros x Hx. apply Hm. lia.
  - apply scratch_write; [done|lia|]. rewrite length_app. simpl. lia.
Qed.

(** [strcat] to a string [a] that starts the block. *)
Lemma scratch_cat m0 L r buf k m h src a t :
  scratch m0 L r buf k m h → cstr m buf a → cstr m0 src t →
  Z.of_nat (length a + length t) + 1 ≤ k →
  ∃ m' e, strcat buf src m = Ok (e, m') ∧ scratch m0 L r buf k m' h ∧ cstr m' buf (a ++ t).
Proof.
  intros Hsc Ha Ht Hk. pose proof (sc_pos _ _ _ _ _ _ _ Hsc) as [Hb0 _].
  destruct (scratch_copy m0 L r buf k m h (buf + Z.of_nat (length a)) src t) as [Hrun Hsc'];
    [done|done|lia|lia|].
  eexists _, _. split; [|split; [exact Hsc'|]].
  - unfold strcat. rewrite (bind_ok _ _ m (Z.of_nat (length a)) m); [exact Hrun|].
    apply strlen_run; [done|lia].
  - destruct Ha as [Ha Hca]. apply bytes_at_app in Ha as [Ha _]. split.
    + rewrite <- app_assoc. apply bytes_at_app. split; [|apply write_at_in].
      eapply bytes_at_frame; [|exact Ha]. intros q Hq. apply write_at_out. lia.
    + apply Forall_app_2; [done|apply Ht].
Qed.

Lemma join_path_run lit m0 L r buf k m h s cwdp cwd path p :
  scratch m0 L r buf k m h → cstr m0 cwdp cwd → cstr m0 (lit [SLASH]) [SLASH] → cstr m0 path p →
  Z.of_nat (length cwd + length p) + 2 ≤ k →
  ∃ m', join_path lit buf cwdp path (set_kmem m h s) = Ok (tt, set_kmem m' h s) ∧
    scratch m0 L r buf k m' h ∧ cstr m' buf (cwd ++ SLASH :: p).
Proof.
  intros Hsc Hcwd Hsl Hp Hk. unfold join_path.
  assert (Hsc1 : scratch m0 L r buf k (write_at m buf [0]) h) by (apply scratch_write; [done|lia|simpl; lia]).
  rewrite (bind_ok _ _ _ tt (set_kmem (write_at m buf [0]) h s)).
  2: { rewrite run_poke; [done|]. apply (sc_mapped _ _ _ _ _ _ _ Hsc). lia. }
  destruct (scratch_copy m0 L r buf k _ h buf cwdp cwd Hsc1 Hcwd) as [Hr2 Hsc2]; [lia|lia|].
  set (m2 := write_at (write_at m buf [0]) buf (cwd ++ [0])) in *.
  erewrite bind_ok.
  2: { apply (run_on_bytes _ (set_kmem (write_at m buf [0]) h s)). exact Hr2. }
  destruct (scratch_cat m0 L r buf k m2 h (lit [SLASH]) cwd [SLASH] Hsc2) as (m3 & e3 & Hr3 & Hsc3 & Hc3).
  { split; [apply write_at_in|apply Hcwd]. }
  { done. }
  { simpl. lia. }
  erewrite bind_ok.
  2: { apply (run_on_bytes _ (set_kmem m2 h s)). exact Hr3. }
  destruct (scratch_cat m0 L r buf k m3 h path (cwd ++ [SLASH]) p Hsc3 Hc3 Hp) as (m4 & e4 & Hr4 & Hsc4 & Hc4).
  { rewrite length_app. simpl. lia. }
  erewrite bind_ok.
  2: { apply (run_on_bytes _ (set_kmem m3 h s)). exact Hr4. }
  exists m4. split; [done|]. split; [done|]. by rewrite <- app_assoc in Hc4.
Qed.

Lemma walk_in m ns dirs node comps q :
  vfs_tree m ns dirs → is_Some (ns !! node) → node ≠ 0 → walk dirs node comps = Some q →
  q ≠ 0 ∧ is_Some (ns !! q).
Proof.
  intros Ht. revert node. induction comps as [|c cs IH]; intros node Hn H0; simpl.
  - by intros [= ->].
  - destruct (find_entry c (dirs node)) as [x|] eqn:Hx; [|done]. destruct Hn as [n Hn].
    apply IH; [by eapply find_entry_in; [apply (Ht _ _ Hn)|]|].
    intros ->. by eapply find_entry_nonzero; [apply (Ht _ _ Hn)|].
Qed.

Lemma absolute_in m ns dirs root rest q :
  vfs_tree m ns dirs → is_Some (ns !! root) → root ≠ 0 → absolute dirs root rest = Some q →
  q ≠ 0 ∧ is_Some (ns !! q).
Proof.
  intros Ht Hr H0. unfold absolute. destruct rest; [by intros [= ->]|]. by eapply walk_in.
Qed.

(** What [vfs_find_path] looks up: an absolute path from the root; any other one
    below the working directory and, when that fails, from the root without its
    first character. *)
Definition resolve (dirs : Z → list (list Z * Z)) (root : Z) (cwd p : list Z) : option Z :=
  let first := match p with
               | c :: rest => if c =? SLASH then Some (absolute dirs root rest) else None
               | [] => None
               end in
  match first with
  | Some o => o
  | None =>
    match absolute dirs root (tail (cwd ++ SLASH :: p)) with
    | Some q => Some q
    | None => from_root dirs root p
    end
  end.

Lemma resolve_some_nonzero m ns dirs root cwd p q :
  vfs_tree m ns dirs → is_Some (ns !! root) → root ≠ 0 → resolve dirs root cwd p = Some q → q ≠ 0.
Proof.
  intros Ht Hroot Hr0. unfold resolve.
  assert (Habs : ∀ rest, absolute dirs root rest = Some q → q ≠ 0).
  { intros rest Ha. by destruct (absolute_in _ _ _ _ _ _ Ht Hroot Hr0 Ha). }
  destruct p as [|c rest].
  - destruct (absolute dirs root (tail _)) eqn:Ha; [|done]. intros [= ->]. by eapply Habs.
  - destruct (c =? SLASH); [apply Habs|].
    destruct (absolute dirs root (tail _)) eqn:Ha; [intros [= ->]; by eapply Habs|].
    intros Hf. by destruct (walk_in _ _ _ _ _ _ Ht Hroot Hr0 Hf).
Qed.

(** The working directory is empty or starts with a slash. *)
Definition rooted (cwd : list Z) : Prop := head (cwd ++ [SLASH]) = Some SLASH.

(** What lookups charge the heap for. *)
Definition path_charge (n1 n2 : nat) : Z :=
  charge (Z.of_nat (n1 + n2) + 2) * 2 + charge (Z.of_nat n2 + 1).

(** The state a lookup starts from. *)
Record vfs_ok (lit : list Z → Z) s (dirs : Z → list (list Z * Z)) (cwd : list Z) : Prop := VfsOk {
  vk_tree : vfs_tree (vs_mem s) (vs_nodes s) dirs;
  vk_root : is_Some (vs_nodes s !! g_vfs_root s);
  vk_root0 : g_vfs_root s ≠ 0;
  vk_slash : cstr (vs_mem s) (lit [SLASH]) [SLASH];
  vk_cwd : ∃ t, vs_task s = Some t ∧ t_cwd t ≠ 0 ∧ cstr (vs_mem s) (t_cwd t) cwd;
  vk_rooted : rooted cwd
}.

Lemma resolve_nonzero lit s dirs cwd p q :
  vfs_ok lit s dirs cwd → resolve dirs (g_vfs_root s) cwd p = Some q → q ≠ 0.
Proof. intros [? ? ? _ _ _]. by eapply resolve_some_nonzero. Qed.

Lemma join_rooted cwd p : rooted cwd → cwd ++ SLASH :: p = SLASH :: tail (cwd ++ SLASH :: p).
Proof. unfold rooted. destruct cwd as [|c cwd]; simpl; [done|]. by intros [= ->]. Qed.

(** The lookup below the working directory, up to its failure. *)
Lemma relative_first lit depth s path p dirs cwd L r :
  vfs_ok lit s dirs cwd → cstr (vs_mem s) path p → path ≠ 0 → head p ≠ Some SLASH →
  let n := Z.of_nat (length cwd + length p) + 2 in
  n < 2147483648 → heap_rep (vs_mem s) (vs_heap s) L r → charge n * 2 ≤ r →
  let o := absolute dirs (g_vfs_root s) (tail (cwd ++ SLASH :: p)) in
  ∃ h, vfs_find_path_rec lit (S (S depth)) path s =
      (if negb (default 0 o =? 0) then mret (default 0 o) else find_from_root path)
        (set_kmem (vs_mem s) h (match o with Some _ => s | None => enoent s end)) ∧
    heap_rep (vs_mem s) h L (r - charge n * 2).
Proof.
  intros [Ht Hroot Hr0 Hsl (t & Htask & Hcwd0 & Hcwd) Hrt] Hp Hp0 Hhd n Hl Hh Hr o.
  pose proof (charge_pos n ltac:(lia)).
  destruct (run_kmalloc s n L r Hh) as (buf & k & m1 & h1 & Hm & Hk & Hsc); [lia|lia|].
  destruct (join_path_run lit (vs_mem s) L (r - charge n) buf k m1 h1 s (t_cwd t) cwd path p)
    as (m2 & Hj & Hsc2 & Hbuf); [done..|]. rewrite join_rooted in Hbuf by done.
  assert (Hlen : Z.of_nat (length (tail (cwd ++ SLASH :: p))) + 2 = n).
  { pose proof (f_equal length (join_rooted cwd p Hrt)) as Hjl.
    rewrite length_app in Hjl. simpl in Hjl. unfold n. lia. }
  destruct (find_absolute lit depth (set_kmem m2 h1 s) buf (tail (cwd ++ SLASH :: p)) dirs
    (<[buf := k]> L) (r - charge n)) as (h2 & Hfind & Hh2); rewrite ?Hlen; try done.
  { eapply vfs_tree_sub; [by eapply scratch_sub|done]. }
  { pose proof (sc_pos _ _ _ _ _ _ _ Hsc). lia. }
  { apply (sc_heap _ _ _ _ _ _ _ Hsc2). }
  { lia. }
  rewrite Hlen in Hh2. simpl in Hfind, Hh2. fold o in Hfind.
  pose proof (scratch_heap _ _ _ _ _ _ _ _ _ Hsc2 Hh2) as Hsc3.
  set (s1 := match o with Some _ => s | None => enoent s end).
  assert (Hrec : vfs_find_path_rec lit (S depth) buf (set_kmem m2 h1 s) =
                 Ok (default 0 o, set_kmem m2 h2 s1)).
  { etransitivity; [exact Hfind|]. unfold s1. by destruct o. }
  destruct (run_kfree (vs_mem s) L (r - charge n - charge n) buf k (set_kmem m2 h2 s1))
    as (h3 & Hfree & Hh3); [by unfold s1; destruct o|].
  exists h3. split; [|by replace (r - charge n * 2) with (r - charge n - charge n) by lia].
  assert (Hc0 : vs_mem s !! path = Some (default 0 (head p))).
  { rewrite <- (Z.add_0_r path). apply (proj1 Hp 0%nat). by destruct p. }
  remember (S depth) as d. simpl. rewrite (bind_ok _ _ _ _ _ (run_peek s path _ Hc0)).
  destruct (Z.eqb_spec (default 0 (head p)) SLASH) as [Hx|_].
  { destruct p as [|c p]; simpl in *; [done|]. by subst. }
  simpl. rewrite (bind_ok _ _ _ t s).
  2: { unfold current_task, get, mbind, M_bind. by rewrite Htask. }
  rewrite (bind_ok _ _ _ _ _ (run_strlen s _ _ Hcwd Hcwd0)).
  rewrite (bind_ok _ _ _ _ _ (run_strlen s _ _ Hp Hp0)).
  rewrite u32_small by lia. replace (Z.of_nat (length cwd) + Z.of_nat (length p) + 2) with n by lia.
  rewrite (bind_ok _ _ _ _ _ Hm), (bind_ok _ _ _ _ _ Hj), (bind_ok _ _ _ _ _ Hrec).
  rewrite (bind_ok _ _ _ _ _ Hfree). by destruct (default 0 o =? 0).
Qed.

(** What a lookup of [p] from [s] does: it returns what [resolve] finds, or NULL with
    ENOENT, and leaves the memory as it was. *)
Definition looked_up (s : vst H F) dirs (cwd p : list Z) L r (run : result (Z * vst H F)) : Prop :=
  ∃ h' e, run = Ok (default 0 (resolve dirs (g_vfs_root s) cwd p),
                    set_kmem (vs_mem s) h' (with_errno e s)) ∧
    (e = ENOENT ∨ e = fds_errno (vs_fd s) ∧ resolve dirs (g_vfs_root s) cwd p ≠ None) ∧
    heap_rep (vs_mem s) h' L (r - path_charge (length cwd) (length p)).

Lemma with_errno_id s : with_errno (fds_errno (vs_fd s)) s = s.
Proof. by destruct s as [? ? ? ? ? ? ? [] ? ? ? ?]. Qed.

Lemma find_relative lit depth s path p dirs cwd L r :
  vfs_ok lit s dirs cwd → cstr (vs_mem s) path p → path ≠ 0 → head p ≠ Some SLASH →
  Z.of_nat (length cwd + length p) + 2 < 2147483648 →
  heap_rep (vs_mem s) (vs_heap s) L r → path_charge (length cwd) (length p) ≤ r →
  looked_up s dirs cwd p L r (vfs_find_path_rec lit (S (S depth)) path s).
Proof.
  intros Hok Hp Hp0 Hhd Hl Hh Hr. unfold looked_up. unfold path_charge in *.
  pose proof (charge_pos (Z.of_nat (length p) + 1) ltac:(lia)).
  destruct (relative_first lit depth s path p dirs cwd L r) as (h3 & -> & Hh3); try done; [lia|].
  destruct Hok as [Ht Hroot Hr0 _ _ _]. unfold resolve.
  replace (match p with [] => None | c :: rest => if c =? SLASH then Some (absolute dirs (g_vfs_root s) rest) else None end)
    with (@None (option Z)).
  2: { destruct p as [|c p]; [done|]. destruct (Z.eqb_spec c SLASH) as [->|]; [by destruct Hhd|done]. }
  destruct (absolute dirs (g_vfs_root s) (tail (cwd ++ SLASH :: p))) as [q|] eqn:Ho; simpl.
  - destruct (absolute_in _ _ _ _ _ _ Ht Hroot Hr0 Ho) as [Hq _].
    destruct (Z.eqb_spec q 0); [done|]. exists h3, (fds_errno (vs_fd s)). split; [|split].
    + by rewrite with_errno_id.
    + by right.
    + eapply heap_rep_room; [done|]. lia.
  - destruct (find_from_root_run (set_kmem (vs_mem s) h3 (enoent s)) path p dirs L
      (r - charge (Z.of_nat (length cwd + length p) + 2) * 2)) as (h4 & Hff & Hh4); try done; [lia|lia|].
    simpl in Hff, Hh4. exists h4, ENOENT. split; [|split; [by left|]].
    + rewrite Hff. by destruct (from_root dirs (g_vfs_root s) p).
    + eapply heap_rep_room; [done|]. lia.
Qed.

Lemma find_path_run lit depth s path p dirs cwd L r :
  vfs_ok lit s dirs cwd → cstr (vs_mem s) path p → path ≠ 0 →
  Z.of_nat (length cwd + length p) + 2 < 2147483648 →
  heap_rep (vs_mem s) (vs_heap s) L r → path_charge (length cwd) (length p) ≤ r →
  looked_up s dirs cwd p L r (vfs_find_path_rec lit (S (S depth)) path s).
Proof.
  intros Hok Hp Hp0 Hl Hh Hr. destruct (decide (head p = Some SLASH)) as [Hhd|Hhd];
    [|by apply find_relative].
  destruct p as [|c rest]; [done|]. injection Hhd as ->. destruct Hok as [Ht Hroot Hr0 _ _ _].
  unfold looked_up, path_charge in *. unfold resolve. rewrite Z.eqb_refl.
  pose proof (charge_pos (Z.of_nat (length cwd + length (SLASH :: rest)) + 2) ltac:(lia)).
  assert (Hlen : Z.of_nat (length (SLASH :: rest)) + 1 = Z.of_nat (length rest) + 2) by (simpl; lia).
  destruct (find_absolute lit (S depth) s path rest dirs L r) as (h' & Hrun & Hh'); try done.
  { simpl in Hl. lia. }
  { rewrite <- Hlen. lia. }
  rewrite <- Hlen in Hh'. exists h'.
  destruct (absolute dirs (g_vfs_root s) rest) as [q|] eqn:Ho.
  - exists (fds_errno (vs_fd s)). rewrite Hrun. split; [by rewrite with_errno_id|].
    split; [by right|]. eapply heap_rep_room; [done|]. lia.
  - exists ENOENT. rewrite Hrun. split; [done|]. split; [by left|]. eapply heap_rep_room; [done|]. lia.
Qed.
End find.

(** ** A small tree on the kernel heap *)

#[export] Instance demo_kernel_heap : KernelHeap mm := mm_kernel_heap (λ _, 0).
#[export] Instance demo_heap_laws : HeapLaws mm := mm_heap_laws (λ _, 0).

(** The strings of [strs], each at its address. *)
Definition strings_mem (strs : list (Z * list Z)) : bmem :=
  foldr (λ '(p, str) m, write_at m p (str ++ [0])) ∅ strs.

Definition BIN : list Z := [98; 105; 110].
Definition SH : list Z := [115; 104].

Definition demo_lit (str : list Z) : Z := if decide (str = [SLASH]) then 1020 else 0.

Definition demo_strings : bmem :=
  strings_mem [(1000, BIN); (1010, SH); (1020, [SLASH]); (1030, SLASH :: BIN); (1040, SH);
               (1050, SLASH :: BIN ++ SLASH :: SH)].

Definition demo_node (name next list : Z) : vfs_node :=
  VfsNode name VFS_DIRECTORY 0 0 0 0 0 0 0 0 0 0 0 0 0 0 0 0 0 0 next list 0.

(** / holds bin, which holds sh. *)
Definition demo_nodes : gmap Z vfs_node :=
  {[ 2000 := demo_node 0 0 2100; 2100 := demo_node 1000 0 2200; 2200 := demo_node 1010 0 0 ]}.

Definition demo_dirs (p : Z) : list (list Z * Z) :=
  if p =? 2000 then [(BIN, 2100)] else if p =? 2100 then [(SH, 2200)] else [].

Definition demo_vfs : vst mm unit :=
  Vst demo_strings kheap_mm tt demo_nodes ∅ ∅ ∅ (FdSt None [] 0) (Some (TaskCtx 1030 0 0)) 2000 3 0.

Lemma cstr_check m p str :
  forallb (λ '(i, b), bool_decide (m !! (p + Z.of_nat i) = Some b)) (imap pair (str ++ [0])) = true →
  forallb (λ c, (0 <? c) && (c <? 256)) str = true → cstr m p str.
Proof.
  intros Hb Hc. split.
  - intros i b Hi. rewrite forallb_forall in Hb. specialize (Hb (i, b)). simpl in Hb.
    apply bool_decide_eq_true in Hb; [done|]. apply list_elem_of_In, list_elem_of_lookup. exists i.
    by rewrite list_lookup_imap, Hi.
  - apply Forall_forall. intros c Hin%list_elem_of_In. rewrite forallb_forall in Hc.
    specialize (Hc _ Hin). unfold is_char. lia.
Qed.

Lemma demo_tree : vfs_tree demo_strings demo_nodes demo_dirs.
Proof.
  intros p n Hn. unfold demo_nodes in Hn. rewrite !lookup_insert_Some, lookup_singleton_Some in Hn.
  destruct Hn as [[<- <-]|[_ [[<- <-]|[_ [<- <-]]]]]; simpl.
  - split; [done|]. split; [done|]. exists (demo_node 1000 0 2200). split; [done|].
    split; [by apply cstr_check|done].
  - split; [done|]. split; [done|]. exists (demo_node 1010 0 0). split; [done|].
    split; [by apply cstr_check|done].
  - done.
Qed.

Lemma demo_vfs_ok : vfs_ok demo_lit demo_vfs demo_dirs (SLASH :: BIN).
Proof.
  split; simpl.
  - apply demo_tree.
  - by eexists.
  - done.
  - by apply cstr_check.
  - eexists. split; [done|]. split; [done|]. by apply cstr_check.
  - done.
Qed.

(** The fresh kernel heap beside strings in low memory. *)
Lemma low_rep_heap m : set_Forall (λ q, q < 2000) (dom m) → heap_rep m kheap_mm ∅ 16777216.
Proof.
  intros Hall. exists kheap_aheap. split; [done|]. split; [exact kheap_mm_is|]. split; [|split].
  - intros q Hq [b Hb]. exfalso. assert (Hd : q ∈ dom m) by by apply elem_of_dom_2 in Hb.
    specialize (Hall q Hd). change (a_start kheap_aheap) with 3221225472 in Hq. cbv beta in Hall. lia.
  - done.
  - simpl. unfold KHEAP_MAXSIZE. lia.
Qed.

Lemma demo_rep_heap : heap_rep demo_strings kheap_mm ∅ 16777216.
Proof. apply low_rep_heap, (bool_decide_unpack _). by vm_compute. Qed.

(** ** Theorems *)



(** Path lookup returns.  A relative path costs one recursive call when the
    working directory is empty or starts with a slash: every bound of two or more
    on the depth of the recursion gives the node that [resolve] finds, so the
    recursion ends by itself, and no access faults. *)
Theorem find_path_terminates {H F : Type} `{HeapLaws H} lit (s : vst H F) path p dirs cwd L r depth :
  vfs_ok lit s dirs cwd → cstr (vs_mem s) path p → path ≠ 0 →
  Z.of_nat (length cwd + length p) + 2 < 2147483648 →
  heap_rep (vs_mem s) (vs_heap s) L r → path_charge (length cwd) (length p) ≤ r →
  (2 ≤ depth)%nat →
  ∃ s', vfs_find_path_rec lit depth path s = Ok (default 0 (resolve dirs (g_vfs_root s) cwd p), s').
Proof.
  intros Hok Hp Hp0 Hl Hh Hr Hd. destruct depth as [|[|depth]]; [lia|lia|].
  destruct (find_path_run lit depth s path p dirs cwd L r) as (h' & e & -> & _); by eauto.
Qed.

Lemma find_path_terminates_witness :
  ∃ s', vfs_find_path_rec demo_lit 5 1040 demo_vfs = Ok (2200, s').
Proof.
  apply (find_path_terminates demo_lit demo_vfs 1040 SH demo_dirs (SLASH :: BIN) ∅ 16777216 5).
  - exact demo_vfs_ok.
  - by apply cstr_check.
  - done.
  - simpl. lia.
  - exact demo_rep_heap.
  - vm_compute. discriminate.
  - lia.
Defined.
