(* ===== verification/Net.v ===== *)
(** * Networking (kernel/net: ethernet.c, networking.c; kernel/drivers/networking/rtl8139.c)

    Network devices in a linked list, Ethernet frames built on the kernel heap, and the
    RTL8139 driver over the ports.  Messages are left out.  The buffer a packet is sent from
    is given by its virtual and physical address. *)
From S2P Require Import Prelude LinkedList Frames Mm HeapApi LibK FdTable Disk Kmem FileIo Vfs VfsPath Ports.

Record networking_device := NetworkingDevice { nd_send : Z; nd_mac : list Z; nd_next : Z }.

Record rtl8139_dev := Rtl8139Dev { rtl_io_base : Z; rx_buffer : Z; tx_current : Z; current_packet_offset : Z }.

Record nst (H : Type) := Nst {
  ns_mem : bmem;
  ns_heap : H;
  ns_devs : gmap Z networking_device;
  g_networking_devices : Z;
  g_rtl_dev : rtl8139_dev;
  ns_io : list io
}.

Arguments Nst {H}.
Arguments ns_mem {H}. Arguments ns_heap {H}. Arguments ns_devs {H}. Arguments g_networking_devices {H}. Arguments g_rtl_dev {H}. Arguments ns_io {H}.

(** [sizeof(ethernet_frame_t)]: fifteen bytes of fields, padded to an even size. *)
Definition SIZEOF_FRAME : Z := 16.
Definition ETHERNET_LAYER_SIZE : Z := SIZEOF_FRAME + 4.
Definition TSAD_array : list Z := [32; 36; 40; 44].
Definition TSD_array : list Z := [16; 20; 24; 28].
Definition RECEIVER_BUF_SIZE : Z := 8192.
Definition CARP : Z := 56.
Definition REG_ISR : Z := 62.
Definition ROK_BIT : Z := 1.

Section net.
Context {H : Type} `{!KernelHeap H} `{!Devices}.
Implicit Types s : nst H.

Definition set_nkmem (m : bmem) (h : H) s : nst H := Nst m h (ns_devs s) (g_networking_devices s) (g_rtl_dev s) (ns_io s).
Definition set_rtl (d : rtl8139_dev) s : nst H := Nst (ns_mem s) (ns_heap s) (ns_devs s) (g_networking_devices s) d (ns_io s).

Definition on_nkmem {A} (c : M (bmem * H) A) : M (nst H) A := λ s,
  match c (ns_mem s, ns_heap s) with
  | Ok (a, (m, h)) => Ok (a, set_nkmem m h s)
  | Fault => Fault
  | Hang => Hang
  end.

Definition on_nio {A} (c : M (list io) A) : M (nst H) A := λ s,
  match c (ns_io s) with
  | Ok (a, tr) => Ok (a, Nst (ns_mem s) (ns_heap s) (ns_devs s) (g_networking_devices s) (g_rtl_dev s) tr)
  | Fault => Fault
  | Hang => Hang
  end.

Definition load_netdev (p : Z) : M (nst H) networking_device := d ← get ns_devs; of_option (d !! p).

(** ** networking.c *)

(** The loop has passed the last device when it ends. *)
Definition add_networking_device (netdev : Z) : M (nst H) unit :=
  s ← get (λ s, s);
  if g_networking_devices s =? 0 then
    modify (λ s, Nst (ns_mem s) (ns_heap s) (ns_devs s) netdev (g_rtl_dev s) (ns_io s))
  else
    tmp ← loop (S (size (ns_devs s))) (λ tmp,
      d ← load_netdev tmp; if nd_next d =? 0 then mret (inr (nd_next d)) else mret (inl (nd_next d))) (g_networking_devices s);
    d ← load_netdev tmp;
    modify (λ s, Nst (ns_mem s) (ns_heap s) (<[tmp := NetworkingDevice (nd_send d) (nd_mac d) netdev]> (ns_devs s))
                   (g_networking_devices s) (g_rtl_dev s) (ns_io s)).

(** What the send function of a device does. *)
Variable call_send : Z → Z → Z → M (nst H) Z.

Definition send_raw_packet (netdev packet size : Z) : M (nst H) Z :=
  d ← load_netdev netdev; call_send (nd_send d) packet size.

(** ** ethernet.c *)

Definition ethernet_calculate_crc (payload size : Z) : Z := 4294967295.

Definition create_ethernet_packet (netdev dest_mac type payload size : Z) : M (nst H) Z :=
  packet ← on_nkmem (hmalloc (u32 (ETHERNET_LAYER_SIZE + size)));
  _ ← on_nkmem (on_mem (memcpy packet dest_mac 6));
  d ← load_netdev netdev;
  _ ← on_nkmem (on_mem (store_bytes (packet + 6) (nd_mac d)));
  _ ← on_nkmem (on_mem (store16 (packet + 12) type));
  _ ← on_nkmem (on_mem (memcpy (packet + SIZEOF_FRAME - 1) payload size));
  _ ← on_nkmem (on_mem (store32 (packet + SIZEOF_FRAME - 1 + size) (ethernet_calculate_crc payload size)));
  mret packet.

Definition send_ethernet_packet (dest_mac ether_type payload size : Z) : M (nst H) Z :=
  netdev ← get g_networking_devices;
  packet ← create_ethernet_packet netdev dest_mac ether_type payload size;
  _ ← send_raw_packet netdev packet (u32 (size + ETHERNET_LAYER_SIZE));
  mret (s32 (size + ETHERNET_LAYER_SIZE)).

(** ** rtl8139.c *)

(** The function returns before it does anything. *)
Definition init_rtl8139 (pci_dev : Z) : M (nst H) Z := mret 0.

Definition read_mac_address (networkdev : Z) : M (nst H) unit :=
  base ← get (λ s, rtl_io_base (g_rtl_dev s));
  b0 ← on_nio (port_byte_in base);
  b1 ← on_nio (port_byte_in (base + 1));
  b2 ← on_nio (port_byte_in (base + 2));
  b3 ← on_nio (port_byte_in (base + 3));
  b4 ← on_nio (port_byte_in (base + 4));
  b5 ← on_nio (port_byte_in (base + 5));
  d ← load_netdev networkdev;
  modify (λ s, Nst (ns_mem s) (ns_heap s) (<[networkdev := NetworkingDevice (nd_send d) [b0; b1; b2; b3; b4; b5] (nd_next d)]> (ns_devs s))
                 (g_networking_devices s) (g_rtl_dev s) (ns_io s)).

(** [transfer] and [phys] are the addresses of the block [kmalloc_base] gives. *)
Definition send_packet (transfer phys data size : Z) : M (nst H) Z :=
  _ ← on_nkmem (on_mem (memcpy transfer data size));
  d ← get g_rtl_dev;
  a ← of_option (TSAD_array !! Z.to_nat (tx_current d));
  _ ← on_nio (port_line_out (rtl_io_base d + a) phys);
  b ← of_option (TSD_array !! Z.to_nat (tx_current d));
  let next := tx_current d + 1 in
  _ ← modify (set_rtl (Rtl8139Dev (rtl_io_base d) (rx_buffer d) (if 3 <? next then 0 else next) (current_packet_offset d)));
  _ ← on_nio (port_line_out (rtl_io_base d + b) size);
  mret size.

(** The block for the packet has the size of the variable that holds its size. *)
Definition receive_packet : M (nst H) unit :=
  d ← get g_rtl_dev;
  let transmission := rx_buffer d + current_packet_offset d in
  packet_size ← on_nkmem (on_mem (load16 (transmission + 2)));
  packet ← on_nkmem (hmalloc 2);
  _ ← on_nkmem (on_mem (memcpy packet (transmission + 4) packet_size));
  let off := Z.land (current_packet_offset d + packet_size + 4 + 3) (Z.lnot 3) in
  let off := if RECEIVER_BUF_SIZE <? off then off - RECEIVER_BUF_SIZE else off in
  _ ← modify (set_rtl (Rtl8139Dev (rtl_io_base d) (rx_buffer d) (tx_current d) off));
  on_nio (port_word_out (rtl_io_base d + CARP) (off - 16)).

Definition rtl8139_handler : M (nst H) unit :=
  d ← get g_rtl_dev;
  status ← on_nio (port_word_in (rtl_io_base d + 62));
  _ ← (if negb (Z.land status ROK_BIT =? 0) then receive_packet else mret tt);
  on_nio (port_word_out (rtl_io_base d + REG_ISR) 5).
End net.

(** ** Theorems *)

Section run.
Context {H : Type} `{!KernelHeap H} `{!Devices}.
Implicit Types s : nst H.

Lemma run_on_nkmem {A} (c : M (bmem * H) A) s a m h : c (ns_mem s, ns_heap s) = Ok (a, (m, h)) → on_nkmem c s = Ok (a, set_nkmem m h s).
Proof. unfold on_nkmem. by intros ->. Qed.

Lemma run_nbytes {A} (c : M bmem A) s a m : c (ns_mem s) = Ok (a, m) → on_nkmem (on_mem c) s = Ok (a, set_nkmem m (ns_heap s) s).
Proof. intros Hc. apply run_on_nkmem. simpl. by rewrite Hc. Qed.

Lemma run_load_netdev s p d : ns_devs s !! p = Some d → load_netdev p s = Ok (d, s).
Proof. intros Hd. unfold load_netdev, get, of_option, mbind, M_bind. by rewrite Hd. Qed.
End run.

(** The frame in memory, with whatever byte was at offset 14. *)
Definition frame (dest src : list Z) (type junk : Z) (payload : list Z) : list Z :=
  dest ++ src ++ [u8 type; u8 (type / 256)] ++ [junk] ++ payload ++ [255; 255; 255; 255].

(** Writing the parts of a frame into a block. *)
Lemma frame_written m p k dest src type payload : length dest = 6%nat → length src = 6%nat →
  mapped m p k → 19 + Z.of_nat (length payload) ≤ k →
  let m' := write_at (write_at (write_at (write_at (write_at m p dest) (p + 6) src) (p + 12) [u8 type; u8 (type / 256)])
              (p + 15) payload) (p + 15 + Z.of_nat (length payload)) [255; 255; 255; 255] in
  ∃ junk, bytes_at m' p (frame dest src type junk payload).
Proof.
  intros Hd Hs Hm Hk m'. destruct (Hm (p + 14)) as [junk Hj]; [lia|]. exists junk. unfold frame, m'.
  repeat rewrite bytes_at_app. rewrite Hd, Hs. simpl length. replace (p + Z.of_nat 6) with (p + 6) by lia.
  replace (p + 6 + Z.of_nat 6) with (p + 12) by lia. replace (p + 12 + Z.of_nat 2) with (p + 14) by lia. replace (p + 14 + Z.of_nat 1) with (p + 15) by lia.
  split_and!.
  - repeat (apply bytes_at_write; [left; rewrite ?Hd; simpl; lia|]). apply write_at_in.
  - repeat (apply bytes_at_write; [left; rewrite ?Hs; simpl; lia|]). apply write_at_in.
  - repeat (apply bytes_at_write; [left; simpl; lia|]). apply write_at_in.
  - intros i b Hi. destruct i as [|i]; [|done]. injection Hi as <-. rewrite Z.add_0_r. rewrite !write_at_out by (rewrite ?Hd, ?Hs; simpl; lia). done.
  - apply bytes_at_write; [left; simpl; lia|]. apply write_at_in.
  - apply write_at_in.
Qed.

(** Building an Ethernet frame.  [create_ethernet_packet] returns a new block with the two addresses and the type in the
    order of the machine, then one byte that is never set, then the payload and a check sequence of ones; all other memory is
    unchanged.  The extra byte comes from the padding of the structure, whose size is taken for the
    place of the payload, which is therefore one byte off. *)
Theorem ethernet_frame_built {H : Type} `{HeapLaws H} `{!Devices} (s : nst H) netdev d dest_mac dest type payload data L r :
  ns_devs s !! netdev = Some d → length (nd_mac d) = 6%nat → Forall is_byte (nd_mac d) →
  bytes_at (ns_mem s) dest_mac dest → length dest = 6%nat → Forall is_byte dest →
  bytes_at (ns_mem s) payload data → Forall is_byte data → Z.of_nat (length data) < 2147483600 →
  heap_rep (ns_mem s) (ns_heap s) L r → charge (20 + Z.of_nat (length data)) ≤ r →
  ∃ p s' junk, create_ethernet_packet netdev dest_mac type payload (Z.of_nat (length data)) s = Ok (p, s') ∧ L !! p = None ∧
    bytes_at (ns_mem s') p (frame dest (nd_mac d) type junk data) ∧ ns_mem s ⊆ ns_mem s'.
Proof.
  intros Hdev Hml Hmb Hdm Hdl Hdb Hpl Hpb Hsz Hh Hr. set (n := Z.of_nat (length data)) in *.
  destruct (scratch_alloc (ns_mem s) (ns_heap s) L r (20 + n) Hh ltac:(lia) Hr) as (p & k & m1 & h1 & Hal & Hk & Hsc).
  pose proof (scratch_sub _ _ _ _ _ _ _ Hsc) as Hsub. pose proof (sc_mapped _ _ _ _ _ _ _ Hsc) as Hm1.
  assert (Hap : ∀ q bs, bytes_at (ns_mem s) q bs → (0 < length bs)%nat → p + k ≤ q ∨ q + Z.of_nat (length bs) ≤ p).
  { intros q bs Hb Hl. eapply unmapped_apart; [exact (sc_fresh _ _ _ _ _ _ _ Hsc)|by apply bytes_at_mapped|lia|lia]. }
  unfold create_ethernet_packet, ETHERNET_LAYER_SIZE, SIZEOF_FRAME. change (16 + 4 + n) with (20 + n). rewrite u32_small by lia.
  rewrite (bind_ok _ _ _ _ _ (run_on_nkmem _ s _ _ _ Hal)). set (s1 := set_nkmem m1 h1 s).
  set (m2 := write_at m1 p dest).
  rewrite (bind_ok _ _ s1 p (set_nkmem m2 h1 s)).
  2: { apply (run_nbytes _ s1). change 6 with (Z.of_nat 6). rewrite <- Hdl. apply memcpy_run; [by eapply bytes_at_sub|intros q Hq; apply Hm1; lia|done|].
       destruct (Hap _ _ Hdm ltac:(lia)); lia. }
  rewrite (bind_ok _ _ _ d (set_nkmem m2 h1 s)) by (by apply run_load_netdev).
  set (m3 := write_at m2 (p + 6) (nd_mac d)). rewrite (bind_ok _ _ _ tt (set_nkmem m3 h1 s)).
  2: { apply (run_nbytes _ (set_nkmem m2 h1 s)). apply store_bytes_run; [|done]. apply mapped_write. intros q Hq. apply Hm1. lia. }
  set (m4 := write_at m3 (p + 12) [u8 type; u8 (type / 256)]). rewrite (bind_ok _ _ _ tt (set_nkmem m4 h1 s)).
  2: { apply (run_nbytes _ (set_nkmem m3 h1 s)). apply store16_run. do 2 apply mapped_write. intros q Hq. apply Hm1. lia. }
  replace (p + 16 - 1) with (p + 15) by lia. set (m5 := write_at m4 (p + 15) data). rewrite (bind_ok _ _ _ (p + 15) (set_nkmem m5 h1 s)).
  2: { apply (run_nbytes _ (set_nkmem m4 h1 s)). unfold n.
       assert (Hdp : data = [] ∨ p + k ≤ payload ∨ payload + Z.of_nat (length data) ≤ p)
         by (destruct data eqn:Ed; [by left|right; rewrite <- Ed in *; apply Hap; [done|rewrite Ed; simpl; lia]]).
       apply memcpy_run; [|do 3 apply mapped_write; intros q Hq; apply Hm1; lia|done|destruct Hdp as [->|Hdp]; [simpl; lia|destruct Hdp; lia]].
       destruct Hdp as [->|Hdp]; [intros i b Hi; done|].
       do 3 (apply bytes_at_write; [destruct Hdp; [right|left]; rewrite ?Hdl, ?Hml; simpl; lia|]). by eapply bytes_at_sub. }
  set (m6 := write_at m5 (p + 15 + n) [255; 255; 255; 255]). rewrite (bind_ok _ _ _ tt (set_nkmem m6 h1 s)).
  2: { apply (run_nbytes _ (set_nkmem m5 h1 s)). apply (store32_run m5 (p + 15 + n) 4294967295). do 4 apply mapped_write. intros q Hq. apply Hm1. lia. }
  destruct (frame_written m1 p k dest (nd_mac d) type data Hdl Hml Hm1 ltac:(lia)) as [junk Hj].
  exists p, (set_nkmem m6 h1 s), junk. split_and!; [done|exact (sc_live _ _ _ _ _ _ _ Hsc)|exact Hj|].
  apply (scratch_sub _ L (r - charge (20 + n)) p k _ h1). unfold m6, m5, m4, m3, m2.
  repeat (apply scratch_write; [|lia|rewrite ?Hdl, ?Hml; simpl; lia]). done.
Qed.

(** The devices [ptrs] in a list that starts at [head]. *)
Fixpoint net_list (devs : gmap Z networking_device) (head : Z) (ptrs : list Z) : Prop :=
  match ptrs with
  | [] => head = 0
  | p :: ps => head = p ∧ p ≠ 0 ∧ ∃ d, devs !! p = Some d ∧ net_list devs (nd_next d) ps
  end.

Section list.
Context {H : Type} `{!KernelHeap H} `{!Devices}.

Lemma walk_past (s : nst H) q ps : ∀ head fuel, net_list (ns_devs s) head (ps ++ [q]) → (length ps < fuel)%nat →
  loop fuel (λ tmp, d ← load_netdev tmp; if nd_next d =? 0 then mret (inr (nd_next d)) else mret (inl (nd_next d))) head s = Ok (0, s).
Proof.
  induction ps as [|p ps IH]; intros head [|fuel] Hl Hf; try (simpl in Hf; lia); simpl app in Hl.
  - destruct Hl as (-> & Hp0 & d & Hd & Hn). simpl in Hn. rewrite (loop_done _ _ _ _ 0 s); [done|].
    rewrite (bind_ok _ _ _ _ _ (run_load_netdev _ _ _ Hd)), Hn. done.
  - destruct Hl as (-> & Hp0 & d & Hd & Hn). rewrite (loop_next _ _ _ _ (nd_next d) s).
    + apply IH; [done|simpl in Hf; lia].
    + rewrite (bind_ok _ _ _ _ _ (run_load_netdev _ _ _ Hd)). destruct (Z.eqb_spec (nd_next d) 0) as [E|]; [|done].
      destruct ps; destruct Hn as (E' & Hz & _); lia.
Qed.
End list.

(** Registering network devices.  The first device becomes the list.  For every further one
    [add_networking_device] walks past the last device and writes through the null pointer.  Since the
    only driver returns before it registers its device, sending a frame reads the address of a device at null. *)
Theorem one_network_device {H : Type} `{!KernelHeap H} `{!Devices} (s : nst H) p ptrs call_send dest type payload size :
  net_list (ns_devs s) (g_networking_devices s) ptrs → (length ptrs ≤ Datatypes.S (base.size (ns_devs s)))%nat → ns_devs s !! 0 = None →
  init_rtl8139 p s = Ok (0, s) ∧
  match ptrs with
  | [] => add_networking_device p s = Ok (tt, Nst (ns_mem s) (ns_heap s) (ns_devs s) p (g_rtl_dev s) (ns_io s)) ∧
          ∀ r s', send_ethernet_packet call_send dest type payload size s ≠ Ok (r, s')
  | _ => add_networking_device p s = Fault
  end.
Proof.
  intros Hl Hlen Hnull. split; [done|]. destruct ptrs as [|q0 ptrs0].
  - simpl in Hl. split.
    + unfold add_networking_device. rewrite (bind_ok _ _ s s s) by done. by rewrite Hl.
    + intros r s'. unfold send_ethernet_packet. rewrite (bind_ok _ _ s 0 s) by (unfold get; by rewrite Hl).
      unfold create_ethernet_packet. unfold mbind at 1, M_bind at 1. unfold mbind at 1, M_bind at 1.
      unfold on_nkmem at 1. destruct (hmalloc _ _) as [[x [m h]]| |]; [|done..].
      unfold mbind at 1, M_bind at 1. unfold on_nkmem at 1. destruct (on_mem _ _) as [[x' [m' h']]| |]; [|done..].
      unfold load_netdev, get, of_option, mbind, M_bind. simpl. by rewrite Hnull.
  - destruct (exists_last (l := q0 :: ptrs0)) as (ps & q & E); [done|]. rewrite E in Hl, Hlen. rewrite length_app in Hlen. simpl in Hlen.
    assert (Hh : g_networking_devices s ≠ 0) by (destruct ps; destruct Hl as (-> & ? & _); done).
    unfold add_networking_device. rewrite (bind_ok _ _ s s s) by done. destruct (Z.eqb_spec (g_networking_devices s) 0); [done|].
    rewrite (bind_ok _ _ s 0 s) by (apply (walk_past s q ps); [done|lia]).
    apply bind_fault. unfold load_netdev, get, of_option, mbind, M_bind. by rewrite Hnull.
Qed.

(** Sending uses the four descriptors of the card in turn. *)
Theorem transmit_descriptors {H : Type} `{!KernelHeap H} `{!Devices} (s : nst H) transfer phys data bs :
  bytes_at (ns_mem s) data bs → mapped (ns_mem s) transfer (Z.of_nat (length bs)) → Forall is_byte bs →
  disjoint_blocks transfer (Z.of_nat (length bs)) data (Z.of_nat (length bs)) →
  0 ≤ tx_current (g_rtl_dev s) < 4 → 0 ≤ rtl_io_base (g_rtl_dev s) < 65000 → 0 ≤ phys < 4294967296 → Z.of_nat (length bs) < 4294967296 →
  ∃ s', send_packet transfer phys data (Z.of_nat (length bs)) s = Ok (Z.of_nat (length bs), s') ∧
    bytes_at (ns_mem s') transfer bs ∧ tx_current (g_rtl_dev s') = (tx_current (g_rtl_dev s) + 1) mod 4 ∧
    ns_io s' = OutL (rtl_io_base (g_rtl_dev s) + 16 + 4 * tx_current (g_rtl_dev s)) (Z.of_nat (length bs)) ::
               OutL (rtl_io_base (g_rtl_dev s) + 32 + 4 * tx_current (g_rtl_dev s)) phys :: ns_io s.
Proof.
  intros Hb Hm Hby Hdis Htx Hio Hph Hlen. unfold send_packet.
  rewrite (bind_ok _ _ s transfer (set_nkmem (write_at (ns_mem s) transfer bs) (ns_heap s) s)).
  2: { apply run_nbytes, memcpy_run; try done. }
  set (s1 := set_nkmem _ _ s). destruct (g_rtl_dev s) as [base rx tx off] eqn:Ed. cbn [tx_current rtl_io_base] in *.
  rewrite (bind_ok _ _ s1 (Rtl8139Dev base rx tx off) s1) by (unfold get; simpl; by rewrite Ed).
  assert (Hcase : tx = 0 ∨ tx = 1 ∨ tx = 2 ∨ tx = 3) by lia.
  destruct Hcase as [->|[->|[->| ->]]]; (eexists; split; [reflexivity|]); (split; [apply write_at_in|]); (split; [reflexivity|]);
    cbn [ns_io on_nio s1 set_nkmem set_rtl rtl_io_base g_rtl_dev]; rewrite !u16_small, !u32_small by lia; rewrite <- !Z.add_assoc; reflexivity.
Qed.

(** ** A small network *)

Definition demo_mac : list Z := [82; 84; 0; 18; 52; 86].
Definition net_mem : bmem := write_at (write_at ∅ 1000 [255; 255; 255; 255; 255; 255]) 1010 [1; 2; 3].
Definition demo_net : nst mm :=
  Nst net_mem kheap_mm {[ 5000 := NetworkingDevice 1 demo_mac 0 ]} 5000 (Rtl8139Dev 49152 0 0 0) [].

#[local] Instance no_devices : Devices := {| answer8 _ _ := 0; answer16 _ _ := 0; answer32 _ _ := 0 |}.

Lemma one_network_device_witness :
  init_rtl8139 6000 demo_net = Ok (0, demo_net) ∧ add_networking_device 6000 demo_net = Fault.
Proof.
  apply (one_network_device demo_net 6000 [5000] (λ _ _ _, mret 0) 1000 8 1010 3).
  - simpl. split; [done|]. split; [lia|]. eexists. split; [apply lookup_singleton_eq|done].
  - simpl. lia.
  - done.
Defined.

Lemma ethernet_frame_built_witness :
  ∃ p s' junk, create_ethernet_packet 5000 1000 2054 1010 3 demo_net = Ok (p, s') ∧ (∅ : gmap Z Z) !! p = None ∧
    bytes_at (ns_mem s') p (frame [255; 255; 255; 255; 255; 255] demo_mac 2054 junk [1; 2; 3]) ∧ net_mem ⊆ ns_mem s'.
Proof.
  apply (ethernet_frame_built demo_net 5000 (NetworkingDevice 1 demo_mac 0) 1000 [255; 255; 255; 255; 255; 255] 2054 1010 [1; 2; 3] ∅ 16777216); try done.
  - repeat (apply Forall_cons; split; [unfold is_byte; lia|]). apply Forall_nil_2.
  - apply bytes_at_write; [left; simpl; lia|]. apply write_at_in.
  - repeat (apply Forall_cons; split; [unfold is_byte; lia|]). apply Forall_nil_2.
  - apply write_at_in.
  - repeat (apply Forall_cons; split; [unfold is_byte; lia|]). apply Forall_nil_2.
  - apply low_rep_heap, (bool_decide_unpack _). by vm_compute.
Defined.
