(* ===== verification/VfsLink.v ===== *)
(** * Linking a node into the tree (kernel/fs/vfs/vfs.c)

    [vfs_link_node_vfs] cuts the path at its last slash, looks the directory up and
    appends the node to its list.  The theorem is a round trip: the linked path
    finds the node, and the rest of the tree is unchanged. *)
From S2P Require Import Prelude LinkedList Frames Mm HeapApi LibK FdTable Disk Kmem FileIo Vfs VfsPath.

(** ** Lists under updates of nodes *)

(** [ns'] keeps the name and the successor of [q]. *)
Definition same_links (ns ns' : gmap Z vfs_node) (q : Z) : Prop :=
  ∀ n, ns !! q = Some n →
    ∃ n', ns' !! q = Some n' ∧ n_name n' = n_name n ∧ n_nextnode n' = n_nextnode n.

Lemma entries_same m ns ns' p es :
  Forall (same_links ns ns') (es.*2) → entries m ns p es → entries m ns' p es.
Proof.
  revert p. induction es as [|[t q] es IH]; intros p; simpl; [done|].
  intros [Hq Hes]%Forall_cons (-> & H0 & n & Hn & Ht & He).
  destruct (Hq n Hn) as (n' & Hn' & Hname & Hnext). split; [done|]. split; [done|].
  exists n'. split; [done|]. rewrite Hname, Hnext. auto.
Qed.

(** The successor of the last node of a list set to a node that ends the list. *)
Lemma entries_append m ns ns' p es t q name node x :
  entries m ns p (es ++ [(t, q)]) → Forall (same_links ns ns') (es.*2) →
  (∀ n, ns !! q = Some n → ns' !! q = Some (with_nextnode node n)) →
  node ≠ 0 → ns' !! node = Some x → cstr m (n_name x) name → n_nextnode x = 0 →
  entries m ns' p (es ++ [(t, q); (name, node)]).
Proof.
  intros He Hs Hq H0 Hx Hname Hnext. revert p He Hs.
  induction es as [|[t' q'] es IH]; intros p; simpl.
  - intros (-> & Hq0 & n & Hn & Ht & _) _. split; [done|]. split; [done|].
    exists (with_nextnode node n). split; [by apply Hq|]. split; [done|]. simpl.
    split; [done|]. split; [done|]. by exists x.
  - intros (-> & Hq0 & n & Hn & Ht & He) [Hs1 Hs]%Forall_cons.
    destruct (Hs1 n Hn) as (n' & Hn' & Hnm & Hnx). split; [done|]. split; [done|].
    exists n'. split; [done|]. rewrite Hnm, Hnx. auto.
Qed.

Section link.
Context {H F : Type} `{HL : HeapLaws H}.
Implicit Types s : vst H F.

(** The end of a directory's list. *)
Lemma last_sibling_run s m p es t q :
  entries m (vs_nodes s) p (es ++ [(t, q)]) → last_sibling p s = Ok (q, s).
Proof.
  intros He. unfold last_sibling. rewrite (bind_ok _ _ s (node_fuel s) s) by done.
  pose proof (entries_fuel s m p _ He) as Hf. revert p He Hf. generalize (node_fuel s).
  induction es as [|[t' q'] es IH]; intros fuel p He Hf; (destruct fuel as [|fuel]; [simpl in Hf; lia|]);
    simpl in He; destruct He as (-> & Hq & n & Hn & Ht & He); simpl.
  - erewrite bind_ok.
    2: { rewrite (bind_ok _ _ s n s) by by apply run_load_node. simpl. by rewrite He. }
    done.
  - assert (Hnx : n_nextnode n ≠ 0).
    { destruct es as [|[t'' q''] es]; simpl in He; destruct He as (-> & ? & _); done. }
    erewrite bind_ok.
    2: { rewrite (bind_ok _ _ s n s) by by apply run_load_node.
         by rewrite (proj2 (Z.eqb_neq _ _) Hnx). }
    apply IH; [done|]. rewrite length_app in *. simpl in *. lia.
Qed.

Lemma run_store_node s p n x : vs_nodes s !! p = Some n →
  store_node p x s = Ok (tt, set_nodes (<[p := x]> (vs_nodes s)) s).
Proof. intros Hn. unfold store_node. by rewrite (bind_ok _ _ s n s) by by apply run_load_node. Qed.

Lemma run_upd_node s p f n : vs_nodes s !! p = Some n →
  upd_node p f s = Ok (tt, set_nodes (<[p := f n]> (vs_nodes s)) s).
Proof.
  intros Hn. unfold upd_node. rewrite (bind_ok _ _ s n s) by by apply run_load_node.
  by eapply run_store_node.
Qed.

(** The descent to the last slash. *)
Lemma link_dir_run lit s tmp q t :
  bytes_at (vs_mem s) tmp (q ++ SLASH :: t) → SLASH ∉ t → q ≠ [] →
  link_dir lit tmp (Z.of_nat (length q + length t)) s =
    (_ ← poke (tmp + Z.of_nat (length q)) 0; vfs_find_path lit tmp) s.
Proof.
  intros Hb Ht Hq. unfold link_dir. rewrite Nat2Z.id.
  assert (Hql : (0 < length q)%nat) by (destruct q; simpl; [done|lia]).
  assert (Hf : (length t < S (length q + length t))%nat) by lia.
  revert Hf. generalize (S (length q + length t)). revert Hb Ht.
  induction t as [|c t IH] using rev_ind; intros Hb Ht fuel Hf;
    (destruct fuel as [|fuel]; [simpl in Hf; lia|]); simpl loop.
  - rewrite Nat.add_0_r. destruct (Z.eqb_spec (Z.of_nat (length q)) 0); [lia|].
    assert (Hc : vs_mem s !! (tmp + Z.of_nat (length q)) = Some SLASH).
    { apply Hb. by rewrite lookup_app_r, Nat.sub_diag by lia. }
    unfold mbind, M_bind. rewrite (run_peek s _ _ Hc). simpl. rewrite (run_poke s) by by rewrite Hc.
    by destruct (vfs_find_path lit tmp _) as [[a s']| |].
  - rewrite length_app in *. simpl length in *.
    destruct (Z.eqb_spec (Z.of_nat (length q + (length t + 1))) 0); [lia|].
    assert (Hc : vs_mem s !! (tmp + Z.of_nat (length q + (length t + 1))) = Some c).
    { apply Hb. rewrite lookup_app_r by lia. replace (length q + (length t + 1) - length q)%nat with (S (length t)) by lia.
      simpl. by rewrite lookup_app_r, Nat.sub_diag by lia. }
    erewrite bind_ok.
    2: { rewrite (bind_ok _ _ s c s) by by apply run_peek.
         rewrite (proj2 (Z.eqb_neq c SLASH)); [done|]. intros ->. destruct Ht. set_solver. }
    replace (Z.of_nat (length q + (length t + 1)) - 1) with (Z.of_nat (length q + length t)) by lia.
    apply IH; [|set_solver|lia]. intros i b Hi. apply Hb.
    replace (q ++ SLASH :: t ++ [c]) with ((q ++ SLASH :: t) ++ [c]) by by rewrite <- app_assoc.
    by apply lookup_app_l_Some.
Qed.

(** ** The tree after a link *)

(** No node is in two directories. *)
Definition forest (ns : gmap Z vfs_node) (dirs : Z → list (list Z * Z)) : Prop :=
  ∀ p1 p2 q, is_Some (ns !! p1) → is_Some (ns !! p2) →
    q ∈ (dirs p1).*2 → q ∈ (dirs p2).*2 → p1 = p2.

(** [node] has a name, is in no directory and holds nothing. *)
Record unlinked (m : bmem) (ns : gmap Z vfs_node) (dirs : Z → list (list Z * Z)) (node : Z)
    (name : list Z) (x : vfs_node) : Prop := Unlinked {
  un_node : ns !! node = Some x;
  un_nonzero : node ≠ 0;
  un_name : cstr m (n_name x) name;
  un_next : n_nextnode x = 0;
  un_out : ∀ p, is_Some (ns !! p) → node ∉ (dirs p).*2
}.

Definition link_dirs (dirs : Z → list (list Z * Z)) (dir : Z) (name : list Z) (node : Z) (p : Z) :
    list (list Z * Z) :=
  if decide (p = dir) then dirs p ++ [(name, node)] else dirs p.

(** The store after [node] was appended behind [q]. *)
Definition link_nodes (ns : gmap Z vfs_node) (dir node q : Z) (x nq : vfs_node) : gmap Z vfs_node :=
  <[q := with_nextnode node nq]> (<[node := with_parent dir x]> ns).

Lemma link_nodes_other ns dir node q x nq z :
  z ≠ node → z ≠ q → link_nodes ns dir node q x nq !! z = ns !! z.
Proof. intros. unfold link_nodes. by rewrite !lookup_insert_ne. Qed.

Lemma link_nodes_dirlist ns dir node q x nq p n :
  ns !! node = Some x → ns !! q = Some nq → link_nodes ns dir node q x nq !! p = Some n →
  ∃ n0, ns !! p = Some n0 ∧ n_dirlist n = n_dirlist n0.
Proof.
  intros Hx Hq. unfold link_nodes. rewrite !lookup_insert_Some.
  intros [[<- <-]|[_ [[<- <-]|[_ Hn]]]]; eauto.
Qed.

Lemma link_tree m ns dirs dir name node x es t q nq :
  vfs_tree m ns dirs → forest ns dirs → unlinked m ns dirs node name x →
  is_Some (ns !! dir) → dirs dir = es ++ [(t, q)] → ns !! q = Some nq →
  vfs_tree m (link_nodes ns dir node q x nq) (link_dirs dirs dir name node).
Proof.
  intros Ht Hfo [Hx H0 Hnm Hnx Hout] Hdir Hes Hnq p n Hn.
  destruct (link_nodes_dirlist _ _ _ _ _ _ _ _ Hx Hnq Hn) as (n0 & Hn0 & ->).
  pose proof (Ht p n0 Hn0) as He. pose proof (entries_nodup _ _ _ _ He) as Hnd.
  assert (Hqn : q ≠ node).
  { intros ->. apply (Hout dir Hdir). rewrite Hes, fmap_app. set_solver. }
  assert (Hsame : ∀ zs, node ∉ zs → q ∉ zs → Forall (same_links ns (link_nodes ns dir node q x nq)) zs).
  { intros zs H1 H2. apply Forall_forall. intros z Hz nz Hnz. exists nz.
    rewrite link_nodes_other; [done|set_solver..]. }
  unfold link_dirs. case_decide as Hp.
  - subst p. rewrite Hes in He, Hnd |- *. rewrite <- app_assoc. simpl.
    rewrite fmap_app in Hnd. apply NoDup_app in Hnd as (_ & Hd & _).
    apply (entries_append m ns _ _ _ _ _ _ _ (with_parent dir x)); try done.
    + apply Hsame; [|intros Hq; apply (Hd q Hq); set_solver].
      intros Hin. apply (Hout dir Hdir). rewrite Hes, fmap_app. set_solver.
    + intros n' Hn'. unfold link_nodes. rewrite lookup_insert_eq. congruence.
    + unfold link_nodes. rewrite lookup_insert_ne by done. apply lookup_insert_eq.
  - eapply entries_same; [|done]. apply Hsame; [by apply Hout; rewrite Hn0|].
    intros Hq. apply Hp. apply (Hfo p dir q); [by rewrite Hn0|done|done|].
    rewrite Hes, fmap_app. set_solver.
Qed.

(** Lookups that succeeded still do. *)
Lemma find_entry_app name es es' q :
  find_entry name es = Some q → find_entry name (es ++ es') = Some q.
Proof. induction es as [|[t z] es IH]; simpl; [done|]. by case_decide. Qed.

Lemma find_entry_last name es node :
  find_entry name es = None → find_entry name (es ++ [(name, node)]) = Some node.
Proof.
  induction es as [|[t z] es IH]; simpl; [|by case_decide]. by rewrite decide_True.
Qed.

Lemma walk_link dirs dir name node root comps q :
  walk dirs root comps = Some q → walk (link_dirs dirs dir name node) root comps = Some q.
Proof.
  revert root. induction comps as [|c cs IH]; intros root; simpl; [done|].
  destruct (find_entry c (dirs root)) as [z|] eqn:Hz; [|done]. intros Hw.
  assert (find_entry c (link_dirs dirs dir name node root) = Some z) as ->; [|by apply IH].
  unfold link_dirs. case_decide; [by apply find_entry_app|done].
Qed.

Lemma split_path_app acc d name :
  SLASH ∉ name → split_path acc (d ++ SLASH :: name) = split_path acc d ++ [name].
Proof.
  intros Hn. assert (Hs : ∀ acc, split_path acc name = [acc ++ name]).
  { revert Hn. induction name as [|c name IH]; intros Hn a; simpl; [by rewrite app_nil_r|].
    destruct (Z.eqb_spec c SLASH) as [->|]; [set_solver|]. rewrite IH by set_solver.
    by rewrite <- app_assoc. }
  revert acc. induction d as [|c d IH]; intros acc; simpl.
  - by rewrite Hs.
  - destruct (Z.eqb_spec c SLASH); [|apply IH]. simpl. f_equal. apply IH.
Qed.

Lemma walk_app dirs root cs cs' :
  walk dirs root (cs ++ cs') = match walk dirs root cs with Some q => walk dirs q cs' | None => None end.
Proof.
  revert root. induction cs as [|c cs IH]; intros root; simpl; [done|].
  destruct (find_entry c (dirs root)); [apply IH|done].
Qed.

Lemma absolute_link dirs dir name node root d :
  d ≠ [] → SLASH ∉ name → absolute dirs root d = Some dir → find_entry name (dirs dir) = None →
  absolute (link_dirs dirs dir name node) root (d ++ SLASH :: name) = Some node.
Proof.
  intros Hd Hn Ha Hf. unfold absolute in *.
  destruct d as [|c d]; [done|]. change ((c :: d) ++ SLASH :: name) with (c :: (d ++ SLASH :: name)).
  cbv iota. change (c :: d ++ SLASH :: name) with ((c :: d) ++ SLASH :: name).
  rewrite split_path_app by done. rewrite walk_app, (walk_link _ _ _ _ _ _ _ Ha). simpl.
  unfold link_dirs. rewrite decide_True by done. by rewrite find_entry_last.
Qed.

(** ** Running the code *)

(** The code reads the byte behind its copy of the path: it must be readable and
    not a slash. *)
Definition byte_behind (n : Z) s : Prop :=
  ∀ p m' h', hmalloc n (vs_mem s, vs_heap s) = Ok (p, (m', h')) →
    ∃ b, m' !! (p + n) = Some b ∧ b ≠ SLASH.

(** The copy of the path, cut before its last component. *)
Lemma cut_path m0 L r tmp k m h path q t b :
  scratch m0 L r tmp k m h → cstr m0 path (q ++ SLASH :: t) → q ≠ [] →
  Z.of_nat (length (q ++ SLASH :: t)) ≤ k → m !! (tmp + Z.of_nat (length (q ++ SLASH :: t))) = Some b →
  let p := q ++ SLASH :: t in
  memcpy tmp path (Z.of_nat (length p)) m = Ok (tmp, write_at m tmp p) ∧
  scratch m0 L r tmp k (write_at m tmp p) h ∧
  bytes_at (write_at m tmp p) tmp (q ++ SLASH :: (t ++ [b])) ∧
  (let m3 := write_at (write_at m tmp p) (tmp + Z.of_nat (length q)) [0] in
   scratch m0 L r tmp k m3 h ∧ cstr m3 tmp q).
Proof.
  intros Hsc Hp Hq Hk Hb p. fold p in Hk.
  assert (Hpl : length p = (length q + S (length t))%nat) by (unfold p; rewrite length_app; done).
  assert (Hsc1 : scratch m0 L r tmp k (write_at m tmp p) h) by (apply scratch_write; [done|lia|lia]).
  destruct Hp as [Hpb Hpc]. apply bytes_at_app in Hpb as [Hpb _].
  split; [|split; [done|split; [|split]]].
  - apply memcpy_run.
    + eapply bytes_at_sub; [by eapply scratch_sub|done].
    + eapply mapped_sub; [apply (sc_mapped _ _ _ _ _ _ _ Hsc)|lia|lia].
    + eapply Forall_impl; [done|]. unfold is_char, is_byte. lia.
    + pose proof (bytes_at_mapped _ _ _ Hpb) as Hm.
      destruct (unmapped_apart m0 tmp k path (Z.of_nat (length p))); try lia; [|done].
      apply (sc_fresh _ _ _ _ _ _ _ Hsc).
  - change (q ++ SLASH :: t ++ [b]) with (q ++ (SLASH :: t) ++ [b]). rewrite app_assoc.
    apply bytes_at_app. split; [apply write_at_in|].
    intros i c Hi. apply list_lookup_singleton_Some in Hi as [-> ->]. rewrite Z.add_0_r.
    rewrite write_at_out by (fold p; lia). done.
  - apply scratch_write; [done|lia|simpl; lia].
  - split; [|by apply Forall_app in Hpc as [? _]]. apply bytes_at_app. split; [|apply write_at_in].
    eapply bytes_at_frame; [|apply (proj1 (proj1 (bytes_at_app _ _ q (SLASH :: t)) (write_at_in m tmp p)))].
    intros x Hx. apply write_at_out. lia.
Qed.

Lemma vfs_ok_sub lit s m h dirs cwd :
  vfs_ok lit s dirs cwd → vs_mem s ⊆ m → vfs_ok lit (set_kmem m h s) dirs cwd.
Proof.
  intros [Ht ? ? ? (t & ? & ? & ?) ?] Hm. split; simpl; try done.
  - by eapply vfs_tree_sub.
  - by eapply cstr_sub.
  - exists t. split_and!; try done. by eapply cstr_sub.
Qed.

Lemma path_last m path q t : cstr m path (q ++ SLASH :: t) → t ≠ [] → SLASH ∉ t →
  ∃ c, m !! (path + (Z.of_nat (length (q ++ SLASH :: t)) - 1)) = Some c ∧ c ≠ SLASH.
Proof.
  intros [Hp _] Ht Hs. destruct (exists_last Ht) as (t' & c & ->). exists c.
  split; [|intros ->; set_solver].
  replace (path + (Z.of_nat (length (q ++ SLASH :: t' ++ [c])) - 1)) with
    (path + Z.of_nat (length (q ++ SLASH :: t'))).
  2: { rewrite !length_app. simpl. rewrite length_app. simpl. lia. }
  apply Hp. replace ((q ++ SLASH :: t' ++ [c]) ++ [0]) with ((q ++ SLASH :: t') ++ [c; 0]).
  - by rewrite lookup_app_r, Nat.sub_diag by lia.
  - rewrite <- !app_assoc. simpl. by rewrite <- app_assoc.
Qed.

(** What [vfs_link_node_vfs] does once it has the directory. *)
Definition link_tail (tmp dir node : Z) : M (vst H F) Z :=
  _ ← upd_node node (with_parent dir);
  d ← load_node dir;
  ntmp ← last_sibling (n_dirlist d);
  _ ← (if ntmp =? 0 then upd_node dir (with_dirlist node) else upd_node ntmp (with_nextnode node));
  _ ← kfree_v tmp;
  mret 0.

(** The directory it finds, given the lookup of the cut path. *)
Lemma link_to_tail lit s path q t tmp m1 h1 m3 h3 b node dir :
  let p := q ++ SLASH :: t in
  let n := Z.of_nat (length p) in
  cstr (vs_mem s) path p → path ≠ 0 → q ≠ [] → t ≠ [] → SLASH ∉ t → b ≠ SLASH → n < 2147483647 →
  hmalloc n (vs_mem s, vs_heap s) = Ok (tmp, (m1, h1)) → vs_mem s ⊆ write_at m1 tmp p →
  memcpy tmp path n m1 = Ok (tmp, write_at m1 tmp p) →
  bytes_at (write_at m1 tmp p) tmp (q ++ SLASH :: (t ++ [b])) →
  vfs_find_path lit tmp (set_kmem (write_at (write_at m1 tmp p) (tmp + Z.of_nat (length q)) [0]) h1 s) =
    Ok (dir, set_kmem m3 h3 s) → dir ≠ 0 →
  vfs_link_node_vfs lit path node s = link_tail tmp dir node (set_kmem m3 h3 s).
Proof.
  intros p n Hp Hp0 Hq Htne Ht Hb Hn Hm Hsub Hcp Hby Hfind Hd0. unfold vfs_link_node_vfs.
  assert (Hlen : n = Z.of_nat (length q + length (t ++ [b]))).
  { unfold n, p. rewrite !length_app. simpl. lia. }
  rewrite (bind_ok _ _ _ _ _ (run_strlen s path _ Hp Hp0)). fold n. rewrite s32_small, u32_small by lia.
  rewrite (bind_ok _ _ _ tmp (set_kmem m1 h1 s)) by by apply run_on_kmem.
  rewrite (bind_ok _ _ _ tmp (set_kmem (write_at m1 tmp p) h1 s))
    by by apply (run_on_bytes _ (set_kmem m1 h1 s)).
  destruct (path_last _ _ _ _ Hp Htne Ht) as (c & Hc & Hcs). fold p n in Hc.
  rewrite (bind_ok _ _ _ c (set_kmem (write_at m1 tmp p) h1 s)).
  2: { apply run_peek. by eapply lookup_weaken. }
  rewrite (bind_ok _ _ _ n (set_kmem (write_at m1 tmp p) h1 s)).
  2: { destruct (Z.eqb_spec c SLASH); done. }
  rewrite Hlen. rewrite (bind_ok _ _ _ dir (set_kmem m3 h3 s)).
  2: { rewrite link_dir_run; [|done|set_solver|done].
       erewrite bind_ok; [exact Hfind|]. rewrite run_poke; [done|]. simpl.
       assert (Hsl : write_at m1 tmp p !! (tmp + Z.of_nat (length q)) = Some SLASH); [|by rewrite Hsl].
       apply Hby. by rewrite lookup_app_r, Nat.sub_diag by lia. }
  destruct (Z.eqb_spec dir 0); done.
Qed.

Lemma link_found lit s path d t dirs cwd dir L r node :
  vfs_ok lit s dirs cwd → cstr (vs_mem s) path (SLASH :: d ++ SLASH :: t) → path ≠ 0 →
  t ≠ [] → SLASH ∉ t → absolute dirs (g_vfs_root s) d = Some dir →
  let n := Z.of_nat (length (SLASH :: d ++ SLASH :: t)) in
  n < 2147483647 → heap_rep (vs_mem s) (vs_heap s) L r → charge n + charge (Z.of_nat (length d) + 2) ≤ r →
  byte_behind n s →
  ∃ tmp k m3 h3, vfs_link_node_vfs lit path node s = link_tail tmp dir node (set_kmem m3 h3 s) ∧
    scratch (vs_mem s) L (r - charge n - charge (Z.of_nat (length d) + 2)) tmp k m3 h3.
Proof.
  intros Hok Hp Hp0 Htne Ht Habs n Hn Hh Hr Hbb.
  assert (Hlen : n = Z.of_nat (length d + length t) + 2) by (unfold n; simpl; rewrite length_app; simpl; lia).
  pose proof (charge_pos (Z.of_nat (length d) + 2) ltac:(lia)).
  destruct (scratch_alloc (vs_mem s) (vs_heap s) L r n Hh) as (tmp & k & m1 & h1 & Hm & Hk & Hsc); [lia|lia|].
  destruct (Hbb _ _ _ Hm) as (b & Hb & Hbs).
  destruct (cut_path (vs_mem s) L (r - charge n) tmp k m1 h1 path (SLASH :: d) t b)
    as (Hcp & Hsc1 & Hby & Hsc3 & Hc3); try done.
  match type of Hsc3 with scratch _ _ _ _ _ ?x _ => set (m3 := x) in * end.
  destruct (find_absolute lit 1 (set_kmem m3 h1 s) tmp d dirs (<[tmp := k]> L) (r - charge n))
    as (h3 & Hfind & Hh3); try done.
  { eapply vfs_tree_sub; [by eapply scratch_sub|apply Hok]. }
  { apply Hok. } { apply Hok. }
  { pose proof (sc_pos _ _ _ _ _ _ _ Hsc). lia. }
  { lia. } { apply (sc_heap _ _ _ _ _ _ _ Hsc3). } { lia. }
  change (g_vfs_root (set_kmem m3 h1 s)) with (g_vfs_root s) in Hfind. rewrite Habs in Hfind.
  destruct (absolute_in _ _ _ _ _ _ (vk_tree _ _ _ _ Hok) (vk_root _ _ _ _ Hok) (vk_root0 _ _ _ _ Hok) Habs) as [Hd0 _].
  exists tmp, k, m3, h3. split; [|by eapply scratch_heap].
  apply (link_to_tail lit s path (SLASH :: d) t tmp m1 h1 m3 h3 b); try done. by eapply scratch_sub.
Qed.

(** The rest of the code: the node ends up behind the directory's last entry. *)
Lemma link_tail_run s m0 L r tmp k dirs dir node x nd es t q nq :
  scratch m0 L r tmp k (vs_mem s) (vs_heap s) → vs_nodes s !! node = Some x →
  vs_nodes s !! dir = Some nd → vs_nodes s !! q = Some nq → node ≠ dir → node ∉ (es ++ [(t, q)]).*2 →
  dirs dir = es ++ [(t, q)] → vfs_tree m0 (vs_nodes s) dirs →
  ∃ h', link_tail tmp dir node s =
      Ok (0, set_kmem m0 h' (set_nodes (link_nodes (vs_nodes s) dir node q x nq) s)) ∧
    heap_rep m0 h' L r.
Proof.
  intros Hsc Hx Hnd Hnq Hne Hout Hes Ht.
  set (s1 := set_nodes (<[node := with_parent dir x]> (vs_nodes s)) s).
  assert (He : entries m0 (vs_nodes s1) (n_dirlist nd) (es ++ [(t, q)])).
  { rewrite <- Hes. apply (entries_same m0 (vs_nodes s)); [|by apply Ht]. rewrite Hes.
    apply Forall_forall. intros z Hz n Hn. exists n. simpl. rewrite lookup_insert_ne; [done|]. by intros ->. }
  assert (Hqn : q ≠ node) by (intros ->; apply Hout; rewrite fmap_app; set_solver).
  assert (Hq0 : q ≠ 0) by (by apply entries_app in He as (_ & ? & _)).
  destruct (run_kfree m0 L r tmp k (set_nodes (link_nodes (vs_nodes s) dir node q x nq) s))
    as (h' & Hfree & Hh'); [done|]. exists h'. split; [|done]. unfold link_tail.
  rewrite (bind_ok _ _ _ _ _ (run_upd_node s node (with_parent dir) x Hx)). fold s1.
  rewrite (bind_ok _ _ _ nd s1) by (apply run_load_node; simpl; by rewrite lookup_insert_ne).
  rewrite (bind_ok _ _ _ q s1) by by eapply last_sibling_run.
  destruct (Z.eqb_spec q 0); [done|].
  rewrite (bind_ok _ _ _ tt (set_nodes (link_nodes (vs_nodes s) dir node q x nq) s)).
  2: { rewrite (run_upd_node s1 q (with_nextnode node) nq); [done|]. simpl. by rewrite lookup_insert_ne. }
  by rewrite (bind_ok _ _ _ _ _ Hfree).
Qed.

Lemma find_entry_elem name es q : find_entry name es = Some q → q ∈ es.*2.
Proof.
  induction es as [|[t z] es IH]; simpl; [done|]. case_decide; [intros [= ->]; left|].
  intros Hf. right. by apply IH.
Qed.

(** What is reached by at least one component is in some directory. *)
Lemma walk_elem m ns dirs root comps q :
  vfs_tree m ns dirs → is_Some (ns !! root) → comps ≠ [] → walk dirs root comps = Some q →
  ∃ z, is_Some (ns !! z) ∧ q ∈ (dirs z).*2.
Proof.
  intros Ht. revert root. induction comps as [|c cs IH]; intros root Hr Hne; [done|]. simpl.
  destruct (find_entry c (dirs root)) as [z|] eqn:Hz; [|done]. intros Hw. destruct cs as [|c' cs].
  - injection Hw as ->. exists root. split; [done|]. by eapply find_entry_elem.
  - destruct Hr as [n Hn]. apply (IH z); [|done|done]. by eapply find_entry_in; [apply (Ht _ _ Hn)|].
Qed.

Lemma split_path_nonempty acc str : split_path acc str ≠ [].
Proof.
  revert acc. induction str as [|c str IH]; intros acc; simpl; [done|].
  destruct (c =? SLASH); [done|apply IH].
Qed.

Lemma entries_lookup m ns p es t q : entries m ns p (es ++ [(t, q)]) → is_Some (ns !! q).
Proof. intros (_ & _ & n & Hn & _)%entries_app. by eexists. Qed.

Lemma link_run lit s path d name dirs cwd dir node x L r :
  vfs_ok lit s dirs cwd → forest (vs_nodes s) dirs → unlinked (vs_mem s) (vs_nodes s) dirs node name x →
  cstr (vs_mem s) path (SLASH :: d ++ SLASH :: name) → path ≠ 0 →
  d ≠ [] → name ≠ [] → SLASH ∉ name → absolute dirs (g_vfs_root s) d = Some dir → dirs dir ≠ [] →
  let n := Z.of_nat (length (SLASH :: d ++ SLASH :: name)) in
  n < 2147483647 → heap_rep (vs_mem s) (vs_heap s) L r → charge n + charge (Z.of_nat (length d) + 2) ≤ r →
  byte_behind n s →
  ∃ h' ns', vfs_link_node_vfs lit path node s = Ok (0, set_kmem (vs_mem s) h' (set_nodes ns' s)) ∧
    vfs_ok lit (set_kmem (vs_mem s) h' (set_nodes ns' s)) (link_dirs dirs dir name node) cwd ∧
    heap_rep (vs_mem s) h' L (r - charge n - charge (Z.of_nat (length d) + 2)).
Proof.
  intros Hok Hfo Hun Hp Hp0 Hd Hne Hs Habs Hes n Hn Hh Hr Hbb.
  destruct (link_found lit s path d name dirs cwd dir L r node) as (tmp & k & m3 & h3 & Hrun & Hsc); try done.
  destruct Hok as [Ht Hroot Hr0 Hsl Hcwd Hrt]. destruct (exists_last Hes) as (es & [t q] & Hdir).
  destruct (absolute_in _ _ _ _ _ _ Ht Hroot Hr0 Habs) as [_ Hdn]. pose proof Hdn as [nd Hnd].
  pose proof (Ht _ _ Hnd) as He. rewrite Hdir in He. destruct (entries_lookup _ _ _ _ _ _ He) as [nq Hnq].
  assert (Hnode : node ≠ dir).
  { intros ->. unfold absolute in Habs. destruct d as [|c d]; [done|].
    destruct (walk_elem _ _ _ _ _ _ Ht Hroot (split_path_nonempty _ _) Habs) as (z & Hz & Hin).
    by apply (un_out _ _ _ _ _ _ Hun z). }
  destruct (link_tail_run (set_kmem m3 h3 s) (vs_mem s) L
    (r - charge n - charge (Z.of_nat (length d) + 2)) tmp k dirs dir node x nd es t q nq)
    as (h' & Htail & Hh'); try done.
  { apply Hun. } { rewrite <- Hdir. by apply (un_out _ _ _ _ _ _ Hun). }
  exists h', (link_nodes (vs_nodes s) dir node q x nq). rewrite Hrun. split; [exact Htail|].
  split; [|done]. split; simpl; try done.
  - by eapply link_tree.
  - unfold link_nodes. rewrite !lookup_insert. repeat case_decide; done.
Qed.
End link.

(** ** ls, to be linked as /bin/ls *)

Definition LS : list Z := [108; 115].

Definition link_strings : bmem :=
  write_at (write_at demo_strings 1070 (SLASH :: BIN ++ SLASH :: LS ++ [0])) 1080 (LS ++ [0]).

Definition demo_unlinked : gmap Z vfs_node := <[2300 := demo_node 1080 0 0]> demo_nodes.

Definition link_vfs : vst mm unit :=
  Vst link_strings kheap_mm tt demo_unlinked ∅ ∅ ∅ (FdSt None [] 0) (Some (TaskCtx 1030 0 0)) 2000 4 0.

Lemma link_sub : demo_strings ⊆ link_strings.
Proof. apply (bool_decide_unpack _). by vm_compute. Qed.

Lemma link_vfs_ok : vfs_ok demo_lit link_vfs demo_dirs (SLASH :: BIN).
Proof.
  split; simpl; try done.
  - intros p n Hn. unfold demo_unlinked in Hn. apply lookup_insert_Some in Hn as [[<- <-]|[Hp Hn]]; [done|].
    eapply entries_sub; [apply link_sub|]. apply (entries_same _ demo_nodes); [|by apply demo_tree].
    apply Forall_forall. intros z _ nz Hnz. exists nz. split; [|done].
    unfold demo_unlinked. apply lookup_insert_Some. right. split; [|done]. intros <-. by vm_compute in Hnz.
  - by apply cstr_check.
  - eexists. split; [done|]. split; [done|]. by apply cstr_check.
Qed.

Lemma link_forest : forest demo_unlinked demo_dirs.
Proof.
  intros p1 p2 q _ _. unfold demo_dirs.
  destruct (Z.eqb_spec p1 2000), (Z.eqb_spec p2 2000), (Z.eqb_spec p1 2100), (Z.eqb_spec p2 2100);
    subst; simpl; set_solver.
Qed.

Lemma link_unlinked : unlinked link_strings demo_unlinked demo_dirs 2300 LS (demo_node 1080 0 0).
Proof.
  split; try done.
  - by apply cstr_check.
  - intros p _. unfold demo_dirs. destruct (p =? 2000), (p =? 2100); simpl; set_solver.
Qed.

Lemma link_rep_heap : heap_rep link_strings kheap_mm ∅ 16777216.
Proof.
  apply low_rep_heap, (bool_decide_unpack _). by vm_compute.
Qed.

Lemma link_byte_behind : byte_behind 7 link_vfs.
Proof.
  intros p m' h' Hm. exists 0. split; [|done].
  assert (Hc : match hmalloc 7 (vs_mem link_vfs, vs_heap link_vfs) with
               | Ok (p, (m', _)) => m' !! (p + 7) | _ => None end = Some 0) by (vm_compute; reflexivity).
  by rewrite Hm in Hc.
Qed.

(** ** Theorem *)

(** C28: Linking a node.  [vfs_link_node_vfs] of an absolute path whose directory
    exists and is not empty appends the node to that directory: the tree stays well
    formed, every path that was found still leads to the same node, and the linked
    path now finds the new node unless an entry of that name was there before.  The
    memory is as before.  The code reads one byte behind its copy of the path, so
    that byte must not be a slash. *)
Theorem link_find_roundtrip {H F : Type} `{HeapLaws H} lit (s : vst H F) path d name dirs cwd dir node x L r :
  vfs_ok lit s dirs cwd → forest (vs_nodes s) dirs → unlinked (vs_mem s) (vs_nodes s) dirs node name x →
  let p := SLASH :: d ++ SLASH :: name in
  cstr (vs_mem s) path p → path ≠ 0 → d ≠ [] → name ≠ [] → SLASH ∉ name →
  absolute dirs (g_vfs_root s) d = Some dir → dirs dir ≠ [] →
  Z.of_nat (length cwd + length p) + 2 < 2147483648 →
  heap_rep (vs_mem s) (vs_heap s) L r →
  charge (Z.of_nat (length p)) + charge (Z.of_nat (length d) + 2) + path_charge (length cwd) (length p) ≤ r →
  byte_behind (Z.of_nat (length p)) s →
  ∃ s', vfs_link_node_vfs lit path node s = Ok (0, s') ∧ vs_mem s' = vs_mem s ∧
    vfs_ok lit s' (link_dirs dirs dir name node) cwd ∧
    (∀ rest q, absolute dirs (g_vfs_root s) rest = Some q →
       absolute (link_dirs dirs dir name node) (g_vfs_root s') rest = Some q) ∧
    (find_entry name (dirs dir) = None → ∃ s'', vfs_find_path lit path s' = Ok (node, s'')).
Proof.
  intros Hok Hfo Hun p Hp Hp0 Hd Hne Hs Habs Hes Hl Hh Hr Hbb.
  assert (Hpc : 0 ≤ path_charge (length cwd) (length p)).
  { unfold path_charge. pose proof (charge_pos (Z.of_nat (length cwd + length p) + 2)).
    pose proof (charge_pos (Z.of_nat (length p) + 1)). lia. }
  destruct (link_run lit s path d name dirs cwd dir node x L r) as (h' & ns' & Hrun & Hok' & Hh'); try done;
    [fold p; lia..|].
  eexists. split; [exact Hrun|]. split; [done|]. split; [done|]. split.
  - intros rest q. simpl. unfold absolute. destruct rest as [|c rest]; [done|]. apply walk_link.
  - intros Hnone. destruct (find_path_run lit 0 (set_kmem (vs_mem s) h' (set_nodes ns' s)) path p
      (link_dirs dirs dir name node) cwd L (r - charge (Z.of_nat (length p)) - charge (Z.of_nat (length d) + 2)))
      as (h2 & e & Hf & _); try done; [lia|].
    eexists. etransitivity; [exact Hf|]. unfold resolve, p. rewrite Z.eqb_refl. simpl g_vfs_root.
    rewrite absolute_link; done.
Qed.

Lemma link_find_roundtrip_witness :
  ∃ s', vfs_link_node_vfs demo_lit 1070 2300 link_vfs = Ok (0, s') ∧ vs_mem s' = link_strings ∧
    vfs_ok demo_lit s' (link_dirs demo_dirs 2100 LS 2300) (SLASH :: BIN) ∧
    (∀ rest q, absolute demo_dirs 2000 rest = Some q →
       absolute (link_dirs demo_dirs 2100 LS 2300) (g_vfs_root s') rest = Some q) ∧
    (find_entry LS (demo_dirs 2100) = None → ∃ s'', vfs_find_path demo_lit 1070 s' = Ok (2300, s'')).
Proof.
  apply (link_find_roundtrip demo_lit link_vfs 1070 BIN LS demo_dirs (SLASH :: BIN) 2100 2300
    (demo_node 1080 0 0) ∅ 16777216).
  - exact link_vfs_ok.
  - exact link_forest.
  - exact link_unlinked.
  - by apply cstr_check.
  - done.
  - done.
  - done.
  - apply (bool_decide_unpack _). by vm_compute.
  - done.
  - done.
  - simpl. lia.
  - exact link_rep_heap.
  - vm_compute. discriminate.
  - exact link_byte_behind.
Defined.
