(* ===== verification/VfsOps.v ===== *)
(** * Open files (kernel/fs/vfs/vfs.c)

    The operations on descriptors: opening by path, reading from the position of
    the descriptor, seeking, and what they do on descriptors that are closed and
    paths that do not exist. *)
From S2P Require Import Prelude LinkedList Frames Mm HeapApi LibK FdTable Disk Kmem FileIo Vfs VfsPath.

(** ** Descriptors *)

Section fd.
Context {H F : Type}.
Implicit Types s : vst H F.

(** The vector of the current task replaced. *)
Definition set_vec (v : vector) s : vst H F :=
  set_fd (FdSt (Some v) (global_file_table (vs_fd s)) (fds_errno (vs_fd s))) s.

Lemma run_on_fd {A} (c : M fdst A) s a f : c (vs_fd s) = Ok (a, f) → on_fd c s = Ok (a, set_fd f s).
Proof. unfold on_fd. by intros ->. Qed.

Lemma run_on_fs {A} (c : M (bmem * vst H F) A) s a m s' :
  c (vs_mem s, s) = Ok (a, (m, s')) → on_fs c s = Ok (a, with_mem m s').
Proof. unfold on_fs. by intros ->. Qed.

Lemma set_fd_id s : set_fd (vs_fd s) s = s.
Proof. by destruct s. Qed.

Lemma run_get_fd s v fd : task_fds (vs_fd s) = Some v → 0 ≤ fd →
  on_fd (get_filedescriptor fd) s = Ok (if fd <? vector_size v then Some fd else None, s).
Proof.
  intros Hv Hfd. erewrite run_on_fd by by apply run_get_filedescriptor. by rewrite set_fd_id.
Qed.

Lemma run_load_fd s v i d : task_fds (vs_fd s) = Some v → 0 ≤ i → slot v i = Some d →
  load_fd i s = Ok (d, s).
Proof.
  intros Hv Hi Hd. unfold load_fd. erewrite run_on_fd by by eapply run_dup2_load. by rewrite set_fd_id.
Qed.

(** [d] with its position at [k]. *)
Definition at_pos (k : Z) (d : file_descriptor) : file_descriptor :=
  FileDescriptor (fd_node d) (fd_mode d) (fd_flags d) k (fd_lock_index d).

Definition move_to (v : vector) (i k : Z) (d : file_descriptor) : vector :=
  Vector (<[Z.to_nat i := at_pos k d]> (vector_buffer v)) (vector_size v) (vector_maxsize v).

Lemma run_set_seek s v i d k :
  task_fds (vs_fd s) = Some v → 0 ≤ i < Z.of_nat (length (vector_buffer v)) → slot v i = Some d →
  set_seek i k s = Ok (tt, set_vec (move_to v i k d) s).
Proof.
  intros Hv Hi Hd. unfold set_seek. rewrite (bind_ok _ _ s d s) by (eapply run_load_fd; [done|lia|done]).
  apply run_on_fd. eapply run_on_vec; [done|]. by apply run_store_slot.
Qed.

Lemma slot_move_to v i k d : 0 ≤ i < Z.of_nat (length (vector_buffer v)) →
  slot (move_to v i k d) i = Some (at_pos k d).
Proof. intros Hi. unfold slot, move_to. simpl. rewrite list_lookup_insert_eq; [done|lia]. Qed.

Lemma slot_move_other v i j k d : 0 ≤ i → 0 ≤ j → i ≠ j → slot (move_to v i k d) j = slot v j.
Proof. intros. unfold slot, move_to. simpl. apply list_lookup_insert_ne. lia. Qed.
End fd.

(** ** Reading *)

Section read.
Context {H F : Type} `{!VfsDrivers H F}.
Implicit Types s : vst H F.

(** The descriptor [fd] of [s] is [d], on node [n] whose data comes from filesystem
    [fs]. *)
Record fd_file s (fd : Z) (v : vector) (d : file_descriptor) (n : vfs_node) (fs : filesystem) : Prop := FdFile {
  ff_vec : task_fds (vs_fd s) = Some v;
  ff_fd : 0 ≤ fd < vector_size v;
  ff_len : fd < Z.of_nat (length (vector_buffer v));
  ff_slot : slot v fd = Some d;
  ff_node : vs_nodes s !! fd_node d = Some n;
  ff_read : n_read n = 0;
  ff_fs : vs_filesystems s !! n_fs_info n = Some fs;
  ff_block : fs_block_read fs ≠ 0
}.

(** A read whose data comes from the filesystem: the position moves behind it. *)
Lemma read_fd_from s s1 fd v d n fs buf amount tmp1 tmp2 :
  fd_file s fd v d n fs → vs_fd s1 = vs_fd s → -2147483648 ≤ fd_seek d + amount < 2147483648 →
  on_fs (@fs_read _ (node_driver n fs) (fd_seek d) buf amount tmp1 tmp2) s = Ok (amount, s1) →
  vfs_read_fd fd buf amount tmp1 tmp2 s = Ok (amount, set_vec (move_to v fd (fd_seek d + amount) d) s1).
Proof.
  intros [Hv Hfd Hl Hd Hn Hr Hfs Hb] Hs1 Hk Hrun.
  unfold vfs_read_fd. rewrite (bind_ok _ _ _ _ _ (run_get_fd s v fd Hv ltac:(lia))).
  destruct (Z.ltb_spec fd (vector_size v)); [|lia]. unfold _vfs_read.
  rewrite (bind_ok _ _ s d s) by (eapply run_load_fd; [done|lia|done]).
  rewrite (bind_ok _ _ s n s) by by apply run_load_node. rewrite Hr. simpl.
  rewrite (bind_ok _ _ s fs s).
  2: { unfold load_filesystem, get, of_option, mbind, M_bind. by rewrite Hfs. }
  destruct (Z.eqb_spec (fs_block_read fs) 0); [done|]. simpl. rewrite (bind_ok _ _ _ _ _ Hrun).
  rewrite (bind_ok _ _ _ d s1) by (eapply run_load_fd; [by rewrite Hs1|lia|done]).
  rewrite s32_small by lia.
  erewrite bind_ok; [|eapply run_set_seek; [by rewrite Hs1|lia|done]]. done.
Qed.

Lemma read_fd_run s fd v d n fs buf amount tmp1 tmp2
    (HB : @BlockDevice (vst H F) (node_driver n fs)) :
  fd_file s fd v d n fs → 0 ≤ fd_seek d → fd_seek d mod fs_block_size fs = 0 → 0 ≤ amount →
  fd_seek d + amount + fs_block_size fs < 2147483648 →
  fd_seek d + amount ≤ Z.of_nat (length (@contents _ _ HB s)) →
  mapped (vs_mem s) buf amount → mapped (vs_mem s) tmp2 (fs_block_size fs) →
  disjoint_blocks buf amount tmp2 (fs_block_size fs) →
  ∃ m', vfs_read_fd fd buf amount tmp1 tmp2 s =
      Ok (amount, set_vec (move_to v fd (fd_seek d + amount) d) (with_mem m' s)) ∧
    bytes_at m' buf (slice (@contents _ _ HB s) (fd_seek d) amount) ∧
    ∀ q, ¬ buf ≤ q < buf + amount → ¬ tmp2 ≤ q < tmp2 + fs_block_size fs → m' !! q = vs_mem s !! q.
Proof.
  intros Hff Hk Hal Ha Hsz Hend Hbuf Ht2 Hdis.
  pose proof (@block_size_pos _ _ HB) as Hbs. simpl in Hbs.
  destruct (@fs_read_aligned _ _ HB (fd_seek d) buf amount tmp1 tmp2 (vs_mem s) s)
    as (m' & Hrun & Hby & Hrest); simpl; try done; try lia.
  exists m'. split; [|done]. eapply read_fd_from; [done|done|lia|]. by apply run_on_fs.
Qed.
End read.

(** ** Opening *)

Section open.
Context {H F : Type} `{HL : HeapLaws H} `{!VfsDrivers H F}.
Implicit Types s : vst H F.

Lemma register_fd_run kmalloc_ok lock s v node flags mode :
  (∀ n, kmalloc_ok n = true) → task_fds (vs_fd s) = Some v → vec_ok v →
  ∃ fd v', register_fd kmalloc_ok lock node flags mode s = Ok (fd, set_vec v' s) ∧
    lowest_closed v fd ∧ put_at v fd (FileDescriptor node (u16 mode) flags 0 lock) v'.
Proof.
  intros Hk Hv Hok.
  destruct (wp_run _ _ _ (vector_add_spec kmalloc_ok Hk v (FileDescriptor node (u16 mode) flags 0 lock) Hok))
    as (i & v' & Hrun & Hlow & Hput).
  exists i, v'. split; [|done]. apply run_on_fd. unfold register_filedescriptor. by eapply run_on_vec.
Qed.

Lemma open_fd_run lit kmalloc_ok lock s path p dirs cwd L r v node flags mode :
  vfs_ok lit s dirs cwd → cstr (vs_mem s) path p → path ≠ 0 →
  Z.of_nat (length cwd + length p) + 2 < 2147483648 →
  heap_rep (vs_mem s) (vs_heap s) L r → path_charge (length cwd) (length p) ≤ r →
  (∀ n, kmalloc_ok n = true) → task_fds (vs_fd s) = Some v → vec_ok v →
  resolve dirs (g_vfs_root s) cwd p = Some node → Z.land flags O_DIRECTORY = 0 →
  ∃ fd v' h' e, vfs_open_fd lit kmalloc_ok lock path flags mode s =
      Ok (fd, set_vec v' (set_kmem (vs_mem s) h' (with_errno e s))) ∧
    lowest_closed v fd ∧ put_at v fd (FileDescriptor node (u16 mode) flags 0 lock) v' ∧
    heap_rep (vs_mem s) h' L (r - path_charge (length cwd) (length p)).
Proof.
  intros Hok Hp Hp0 Hl Hh Hr Hk Hv Hvok Hres Hfl.
  destruct (find_path_run lit 0 s path p dirs cwd L r) as (h' & e & Hrun & _ & Hh'); try done.
  rewrite Hres in Hrun. simpl default in Hrun.
  pose proof (resolve_nonzero _ _ _ _ _ _ Hok Hres) as Hn0.
  destruct (register_fd_run kmalloc_ok lock (set_kmem (vs_mem s) h' (with_errno e s)) v node flags mode)
    as (fd & v' & Hreg & Hlow & Hput); [done|done|done|].
  exists fd, v', h', e. split; [|done]. unfold vfs_open_fd.
  rewrite (bind_ok _ _ _ _ _ Hrun). destruct (Z.eqb_spec node 0); [done|].
  rewrite (bind_ok _ _ _ _ _ Hreg). by rewrite Hfl.
Qed.
End open.

(** ** Seeking *)

Section seek.
Context {H F : Type} `{!VfsDrivers H F}.
Implicit Types s : vst H F.

(** The position [vfs_lseek] computes for an open descriptor. *)
Definition new_pos (d : file_descriptor) (n : vfs_node) (offset whence : Z) : Z :=
  if whence =? SEEK_CUR then s32 (offset + fd_seek d)
  else if whence =? SEEK_END then s32 (offset + s32 (n_filelength n))
  else offset.

Lemma stat_run s node mode n fs :
  node ≠ 0 → vs_nodes s !! node = Some n → vs_filesystems s !! n_fs_info n = Some fs →
  ∃ blocks, _vfs_stat node mode s =
    Ok ((0, Some (Stat 0 (s16 (n_id n)) (Z.lor (vfs_to_stat (n_type n)) mode) (n_nlink n)
                    (s32 (n_uid n)) (s32 (n_gid n)) 0 (s32 (n_filelength n))
                    (s32 (fs_block_size fs)) blocks)), s).
Proof.
  intros H0 Hn Hfs. unfold _vfs_stat. destruct (Z.eqb_spec node 0); [done|].
  rewrite (bind_ok _ _ s n s) by by apply run_load_node.
  rewrite (bind_ok _ _ s fs s).
  2: { unfold load_filesystem, get, of_option, mbind, M_bind. by rewrite Hfs. }
  unfold roundup. simpl. destruct (Z.rem _ 512 =? 0); by eexists.
Qed.

Lemma lseek_run s fd v d n fs offset whence :
  task_fds (vs_fd s) = Some v → 0 ≤ fd < vector_size v → fd < Z.of_nat (length (vector_buffer v)) →
  slot v fd = Some d → fd_node d ≠ 0 → vs_nodes s !! fd_node d = Some n →
  vs_filesystems s !! n_fs_info n = Some fs →
  vfs_lseek fd offset whence s =
    Ok (new_pos d n offset whence, set_vec (move_to v fd (new_pos d n offset whence) d) s).
Proof.
  intros Hv Hfd Hl Hd H0 Hn Hfs. unfold vfs_lseek.
  assert (Hget : on_fd (get_filedescriptor fd) s = Ok (Some fd, s)).
  { rewrite (run_get_fd s v fd Hv) by lia. by destruct (Z.ltb_spec fd (vector_size v)); [|lia]. }
  rewrite (bind_ok _ _ _ _ _ Hget).
  rewrite (bind_ok _ _ s (Some (new_pos d n offset whence)) s).
  { by rewrite (bind_ok _ _ _ _ _ (run_set_seek s v fd d _ Hv ltac:(lia) Hd)). }
  unfold new_pos. destruct (whence =? SEEK_CUR).
  - by rewrite (bind_ok _ _ s d s) by (eapply run_load_fd; [done|lia|done]).
  - destruct (whence =? SEEK_END); [|done].
    destruct (stat_run s (fd_node d) (fd_mode d) n fs H0 Hn Hfs) as [blocks Hst].
    erewrite bind_ok.
    2: { unfold vfs_fstat. rewrite (bind_ok _ _ _ _ _ Hget).
         rewrite (bind_ok _ _ s d s) by (eapply run_load_fd; [done|lia|done]). exact Hst. }
    done.
Qed.
End seek.

(** ** A file of three blocks behind /bin/sh *)

Definition on_disk {A} (c : M (bmem * blockdisk) A) : M (vst mm blockdisk) A := λ s,
  match c (vs_mem s, vs_fs s) with
  | Ok (a, (m, d)) =>
    Ok (a, Vst m (vs_heap s) d (vs_nodes s) (vs_dirs s) (vs_files s) (vs_filesystems s) (vs_fd s)
             (vs_task s) (g_vfs_root s) (g_nodecount s) (g_current_fs s))
  | Fault => Fault
  | Hang => Hang
  end.

(** One filesystem whose only file is the disk. *)
#[local] Instance disk_drivers : VfsDrivers mm blockdisk := {|
  call_open _ _ _ _ _ := mret 0;
  call_close _ _ := mret 0;
  call_read _ _ _ _ _ _ := mret 0;
  call_write _ _ _ _ _ _ := mret 0;
  call_creat _ _ _ _ := mret 0;
  call_opendir _ _ := mret 0;
  call_block_read _ _ blk buf cnt _ := on_disk (drv_read blk buf cnt);
  call_block_write _ _ blk buf cnt _ := on_disk (drv_write blk buf cnt);
  call_update_node _ _ := mret 0;
  call_create_node _ _ _ _ := mret (-1);
  call_dir_open _ _ _ := mret 0;
  call_dir_close _ _ := mret 0;
  call_dir_read _ _ := mret 0;
  call_makenode _ _ _ _ _ := mret 0;
  init_fs _ _ := mret 0
|}.

Definition demo_fs : filesystem := Filesystem 0 0 4 0 0 0 0 0 1 1 1 1 0 0 0 0.

Definition sh_node : vfs_node := VfsNode 1010 VFS_FILE 0 0 0 2 12 3000 0 0 0 0 0 0 0 0 0 0 0 0 0 0 0.

Definition demo_device n : @BlockDevice (vst mm blockdisk) (node_driver n demo_fs).
Proof.
  refine (@Build_BlockDevice (vst mm blockdisk) (node_driver n demo_fs)
    (λ s : vst mm blockdisk, whole_blocks (vs_fs s)) _ _ _ _ _).
  - done.
  - intros s. apply whole_blocks_bytes.
  - intros s. exact (contents_blocks (D := blockdisk) (vs_fs s)).
  - intros lba buf k m s H1 H2 H3 H4. by destruct s.
  - intros lba buf k m s bs H1 H2 H3 H4 H5.
    destruct (drv_write_blocks (D := blockdisk) lba buf k m (vs_fs s) bs) as (d' & E & Hd'); try done.
    eexists (Vst (vs_mem s) (vs_heap s) d' (vs_nodes s) (vs_dirs s) (vs_files s) (vs_filesystems s)
      (vs_fd s) (vs_task s) (g_vfs_root s) (g_nodecount s) (g_current_fs s)). split; [|exact Hd'].
    change (behind_fs (on_disk (drv_write lba buf k)) (m, s) =
      Ok (k, (m, Vst (vs_mem s) (vs_heap s) d' (vs_nodes s) (vs_dirs s) (vs_files s) (vs_filesystems s)
      (vs_fd s) (vs_task s) (g_vfs_root s) (g_nodecount s) (g_current_fs s)))).
    unfold behind_fs, on_disk. simpl vs_mem. simpl vs_fs. by rewrite E.
Defined.

Definition open_mem : bmem := write_at demo_strings 1100 (replicate 40 0).

Definition open_nodes : gmap Z vfs_node :=
  {[ 2000 := demo_node 0 0 2100; 2100 := demo_node 1000 0 2200; 2200 := sh_node ]}.

Definition open_vfs : vst mm blockdisk :=
  Vst open_mem kheap_mm demo_disk open_nodes ∅ ∅ {[ 3000 := demo_fs ]} demo_fds
    (Some (TaskCtx 1030 0 0)) 2000 3 0.

Lemma open_vfs_ok : vfs_ok demo_lit open_vfs demo_dirs (SLASH :: BIN).
Proof.
  split; simpl; try done.
  - intros p n Hn. unfold open_nodes in Hn. rewrite !lookup_insert_Some, lookup_singleton_Some in Hn.
    destruct Hn as [[<- <-]|[_ [[<- <-]|[_ [<- <-]]]]]; simpl; [| |done].
    + split; [done|]. split; [done|]. exists (demo_node 1000 0 2200). split; [done|].
      split; [by apply cstr_check|done].
    + split; [done|]. split; [done|]. exists sh_node. split; [done|].
      split; [by apply cstr_check|done].
  - by apply cstr_check.
  - eexists. split; [done|]. split; [done|]. by apply cstr_check.
Qed.

Lemma open_rep_heap : heap_rep open_mem kheap_mm ∅ 16777216.
Proof. apply low_rep_heap, (bool_decide_unpack _). by vm_compute. Qed.

Lemma open_mapped p n : 1100 ≤ p → p + n ≤ 1140 → mapped open_mem p n.
Proof.
  intros Hp Hn. eapply mapped_sub; [apply (write_at_mapped demo_strings 1100 (replicate 40 0))|lia|].
  simpl. lia.
Qed.

(** ** Theorems *)

(** Opening and reading a file.  [vfs_open_fd] of a path that leads to a file
    returns the lowest descriptor that is not open, and [vfs_read_fd] on it returns
    the number of bytes asked for and puts the file's first bytes into the buffer,
    whatever the filesystem driver behind it, as long as that driver delivers the
    blocks of the file and these do not depend on the descriptors.  The position is then behind what was read. *)
Theorem open_read_file {H F : Type} `{HeapLaws H} `{!VfsDrivers H F} lit kmalloc_ok lock
    (s : vst H F) path p dirs cwd L r v node n fs flags mode buf amount tmp1 tmp2
    (HB : @BlockDevice (vst H F) (node_driver n fs)) :
  vfs_ok lit s dirs cwd → cstr (vs_mem s) path p → path ≠ 0 →
  Z.of_nat (length cwd + length p) + 2 < 2147483648 →
  heap_rep (vs_mem s) (vs_heap s) L r → path_charge (length cwd) (length p) ≤ r →
  (∀ n, kmalloc_ok n = true) → task_fds (vs_fd s) = Some v → vec_ok v →
  resolve dirs (g_vfs_root s) cwd p = Some node → Z.land flags O_DIRECTORY = 0 →
  vs_nodes s !! node = Some n → n_read n = 0 → vs_filesystems s !! n_fs_info n = Some fs →
  fs_block_read fs ≠ 0 → 0 ≤ amount → amount + fs_block_size fs < 2147483648 →
  amount ≤ Z.of_nat (length (@contents _ _ HB s)) →
  (∀ s', vs_fs s' = vs_fs s → vs_nodes s' = vs_nodes s → @contents _ _ HB s' = @contents _ _ HB s) →
  mapped (vs_mem s) buf amount → mapped (vs_mem s) tmp2 (fs_block_size fs) →
  disjoint_blocks buf amount tmp2 (fs_block_size fs) →
  ∃ fd s1 s2 v2, vfs_open_fd lit kmalloc_ok lock path flags mode s = Ok (fd, s1) ∧ lowest_closed v fd ∧
    vfs_read_fd fd buf amount tmp1 tmp2 s1 = Ok (amount, s2) ∧
    bytes_at (vs_mem s2) buf (take (Z.to_nat amount) (@contents _ _ HB s)) ∧
    task_fds (vs_fd s2) = Some v2 ∧
    slot v2 fd = Some (FileDescriptor node (u16 mode) flags amount lock).
Proof.
  intros Hok Hp Hp0 Hl Hh Hr Hk Hv Hvok Hres Hfl Hn Hrd Hfs Hb Ha Hsz Hend Hst Hbuf Ht2 Hdis.
  destruct (open_fd_run lit kmalloc_ok lock s path p dirs cwd L r v node flags mode)
    as (fd & v' & h' & e & Hop & Hlow & [Hsl _ Hvs Hmx Hlen Hin] & _); try done.
  destruct (read_fd_run (set_vec v' (set_kmem (vs_mem s) h' (with_errno e s))) fd v'
    (FileDescriptor node (u16 mode) flags 0 lock) n fs buf amount tmp1 tmp2 HB) as (m' & Hrun & Hby & _); try done.
  { split; try done; lia. }
  { by rewrite Hst. }
  rewrite Hst in Hby by done.
  eexists fd, _, _, _. split; [exact Hop|]. split; [done|]. split; [exact Hrun|].
  split; [exact Hby|]. split; [done|]. apply slot_move_to. lia.
Qed.

Lemma open_read_file_witness :
  take (Z.to_nat 6) (@contents _ _ (demo_device sh_node) open_vfs) =
    [1; 2; 3; 4; 5; 6] ∧
  ∃ fd s1 s2 v2,
    vfs_open_fd demo_lit (λ _, true) 0 1040 0 0 open_vfs = Ok (fd, s1) ∧ lowest_closed demo_vec fd ∧
    vfs_read_fd fd 1100 6 1120 1130 s1 = Ok (6, s2) ∧
    bytes_at (vs_mem s2) 1100 (take (Z.to_nat 6)
      (@contents _ _ (demo_device sh_node) open_vfs)) ∧
    task_fds (vs_fd s2) = Some v2 ∧ slot v2 fd = Some (FileDescriptor 2200 (u16 0) 0 6 0).
Proof.
  split; [reflexivity|].
  apply (open_read_file demo_lit (λ _, true) 0 open_vfs 1040 SH demo_dirs (SLASH :: BIN) ∅ 16777216
    demo_vec 2200 sh_node demo_fs 0 0 1100 6 1120 1130 (demo_device sh_node));
    try (simpl; lia); try done.
  - exact open_vfs_ok.
  - by apply cstr_check.
  - exact open_rep_heap.
  - intros s' Hs _. exact (f_equal whole_blocks Hs).
  - apply open_mapped; lia.
  - apply open_mapped; simpl; lia.
  - left. simpl. lia.
Defined.

(** Seeking.  On an open descriptor [vfs_lseek] returns the offset itself, the
    offset from the position or the offset from the end of the file, as [whence]
    asks, sets the position of that descriptor to it and changes nothing else. *)
Theorem lseek_correct {H F : Type} `{!VfsDrivers H F} (s : vst H F) fd v d n fs offset whence :
  task_fds (vs_fd s) = Some v → vec_ok v → 0 ≤ fd < vector_size v →
  slot v fd = Some d → fd_node d ≠ 0 → vs_nodes s !! fd_node d = Some n →
  vs_filesystems s !! n_fs_info n = Some fs →
  -2147483648 ≤ offset + Z.max (fd_seek d) (n_filelength n) < 2147483648 →
  -2147483648 ≤ offset + Z.min (fd_seek d) (n_filelength n) → 0 ≤ n_filelength n < 2147483648 →
  ∃ v', vfs_lseek fd offset whence s =
      Ok (if whence =? SEEK_CUR then offset + fd_seek d
          else if whence =? SEEK_END then offset + n_filelength n else offset, set_vec v' s) ∧
    slot v' fd = Some (at_pos (if whence =? SEEK_CUR then offset + fd_seek d
          else if whence =? SEEK_END then offset + n_filelength n else offset) d) ∧
    vector_size v' = vector_size v ∧ ∀ k, 0 ≤ k → k ≠ fd → slot v' k = slot v k.
Proof.
  intros Hv [Hl Hs Hm] Hfd Hd H0 Hn Hfs Hb1 Hb2 Hf.
  pose proof (lseek_run s fd v d n fs offset whence Hv Hfd ltac:(lia) Hd H0 Hn Hfs) as Hrun.
  assert (Hp : new_pos d n offset whence =
    if whence =? SEEK_CUR then offset + fd_seek d
    else if whence =? SEEK_END then offset + n_filelength n else offset).
  { unfold new_pos. rewrite (s32_small (n_filelength n)) by lia.
    destruct (whence =? SEEK_CUR); [apply s32_small; lia|].
    destruct (whence =? SEEK_END); [apply s32_small; lia|done]. }
  rewrite Hp in Hrun. eexists. split; [exact Hrun|]. split; [apply slot_move_to; lia|].
  split; [done|]. intros k Hk Hne. apply slot_move_other; lia.
Qed.

Lemma lseek_correct_witness :
  let s := set_vec (move_to demo_vec 0 4 (FileDescriptor 2200 0 0 4 0)) open_vfs in
  ∃ v', vfs_lseek 0 (-3) SEEK_END s = Ok (-3 + 12, set_vec v' s) ∧
    slot v' 0 = Some (at_pos (-3 + 12) (FileDescriptor 2200 0 0 4 0)) ∧
    vector_size v' = 3 ∧
    ∀ k, 0 ≤ k → k ≠ 0 → slot v' k = slot (move_to demo_vec 0 4 (FileDescriptor 2200 0 0 4 0)) k.
Proof.
  apply (lseek_correct (set_vec (move_to demo_vec 0 4 (FileDescriptor 2200 0 0 4 0)) open_vfs) 0
    (move_to demo_vec 0 4 (FileDescriptor 2200 0 0 4 0)) (FileDescriptor 2200 0 0 4 0) sh_node demo_fs
    (-3) SEEK_END); try done; simpl; try lia.
Defined.

(** [vfs_creat] creates nothing.  For a path that does not exist it returns -1
    with ENOENT and the node tree is the same as before: [vfs_open_fd] ignores
    O_CREAT. *)
Theorem creat_never_creates {H F : Type} `{HeapLaws H} `{!VfsDrivers H F} lit kmalloc_ok lock
    (s : vst H F) path p dirs cwd L r mode :
  vfs_ok lit s dirs cwd → cstr (vs_mem s) path p → path ≠ 0 →
  Z.of_nat (length cwd + length p) + 2 < 2147483648 →
  heap_rep (vs_mem s) (vs_heap s) L r → path_charge (length cwd) (length p) ≤ r →
  resolve dirs (g_vfs_root s) cwd p = None →
  ∃ s', vfs_creat lit kmalloc_ok lock path mode s = Ok (-1, s') ∧ vs_nodes s' = vs_nodes s ∧
    vs_mem s' = vs_mem s ∧ fds_errno (vs_fd s') = ENOENT.
Proof.
  intros Hok Hp Hp0 Hl Hh Hr Hres.
  destruct (find_path_run lit 0 s path p dirs cwd L r) as (h' & e & Hrun & He & _); try done.
  rewrite Hres in Hrun, He. destruct He as [->|[_ He]]; [|done].
  eexists. split; [|split; [|split]].
  - unfold vfs_creat, vfs_open_fd. rewrite (bind_ok _ _ _ _ _ Hrun). reflexivity.
  - done.
  - done.
  - done.
Qed.

Lemma creat_never_creates_witness :
  ∃ s', vfs_creat demo_lit (λ _, true) 0 1000 0 open_vfs = Ok (-1, s') ∧
    vs_nodes s' = open_nodes ∧ vs_mem s' = open_mem ∧ fds_errno (vs_fd s') = ENOENT.
Proof.
  apply (creat_never_creates demo_lit (λ _, true) 0 open_vfs 1000 BIN demo_dirs (SLASH :: BIN) ∅ 16777216 0);
    try (simpl; lia); try done.
  - exact open_vfs_ok.
  - by apply cstr_check.
  - exact open_rep_heap.
Defined.

(** Reading a closed descriptor.  A descriptor that was closed, but lies below
    the highest one ever used, is still found: [vfs_read_fd] and [vfs_write_fd]
    follow its NULL node instead of returning -1. *)
Theorem closed_fd_faults {H F : Type} `{!VfsDrivers H F} (s : vst H F) fd v d buf amount tmp1 tmp2 :
  task_fds (vs_fd s) = Some v → 0 ≤ fd < vector_size v → slot v fd = Some d → fd_node d = 0 →
  vs_nodes s !! 0 = None →
  vfs_read_fd fd buf amount tmp1 tmp2 s = Fault ∧ vfs_write_fd fd buf amount tmp1 tmp2 s = Fault.
Proof.
  intros Hv Hfd Hd H0 Hn. unfold vfs_read_fd, vfs_write_fd, _vfs_read, _vfs_write.
  rewrite !(bind_ok _ _ _ _ _ (run_get_fd s v fd Hv ltac:(lia))).
  destruct (Z.ltb_spec fd (vector_size v)); [|lia].
  rewrite !(bind_ok _ _ s d s) by (eapply run_load_fd; [done|lia|done]). rewrite H0.
  unfold load_node, get, of_option, mbind, M_bind. by rewrite Hn.
Qed.

Lemma closed_fd_faults_witness :
  vfs_read_fd 1 1100 6 1120 1130 open_vfs = Fault ∧ vfs_write_fd 1 1100 6 1120 1130 open_vfs = Fault.
Proof. apply (closed_fd_faults open_vfs 1 demo_vec zero_fd); done. Defined.

(** Types survive [stat].  For every type that has a mode, the type computed
    from the mode that [vfs_to_stat] reports is the node's type again; a socket is
    reported as a plain number and comes back as a file. *)
Theorem stat_type_roundtrip (t : Z) :
  VFS_FILE ≤ t ≤ VFS_SYMLINK → _get_type (vfs_to_stat t) = t ∧
  _get_type (vfs_to_stat VFS_SOCKET) = VFS_FILE.
Proof.
  unfold VFS_FILE, VFS_SYMLINK. intros Ht.
  assert (t = 1 ∨ t = 2 ∨ t = 3 ∨ t = 4 ∨ t = 5 ∨ t = 6) as [->|[->|[->|[->|[->| ->]]]]] by lia;
    split; reflexivity.
Qed.

Lemma stat_type_roundtrip_witness :
  _get_type (vfs_to_stat VFS_PIPE) = VFS_PIPE ∧ _get_type (vfs_to_stat VFS_SOCKET) = VFS_FILE.
Proof. apply (stat_type_roundtrip VFS_PIPE). unfold VFS_FILE, VFS_SYMLINK, VFS_PIPE. lia. Defined.
