(* ===== verification/Syscalls.v ===== *)
(** * System calls (kernel/proc/syscalls, getdents of kernel/fs/fs.c)

    The table and the handler of interrupt 0x80, over any kernel state, and the calls on
    files over the state of the vfs.  Debug output is left out. *)
From S2P Require Import Prelude LibK FdTable Disk Kmem FileIo Vfs VfsPath VfsOps.

(** ** lists.c *)

Inductive syscall :=
| SysExit | SysFork | SysRead | SysWrite | SysOpen | SysClose | SysWait | SysCreat | SysLink | SysUnlink
| SysExecve | SysKill | SysLstat | SysLseek | SysSbrk | SysTimes | SysIsatty | SysStat | SysSignal | SysReaddir
| SysGetdents | SysChdir | SysGetcwd | SysPipe | SysMkdir | SysFcntl | SysGetwd | SysFstat | SysMmap | SysMunmap
| SysChown | SysSysinfo | SysGetuid | SysGeteuid | SysDup2 | SysDup | SysSigaction | SysUmask | SysGetpid | SysGetppid
| SysPipe2 | SysGetgid | SysIoctl | SysSetuid | SysSeteuid | SysGetgroups | SysSetgroups | SysSigprocmask | SysGetegid
| SysSigsuspend | SysWait3 | SysGethostname | SysSethostname | SysAlarm | SysNanosleep | SysFchmod | SysSetgid
| SysSetregid | SysSetreuid | SysAccess | SysTime | SysRequesterrno | SysMknod | SysGetgrent | SysSetgrent
| SysEndgrent | SysSelect | SysUname | SysGettimeofday | SysSocket | SysBind | SysListen | SysAccept | SysSend
| SysRecv | SysConnect.

Definition syscalls_yanix : list (option syscall) := None :: (Some <$>
  [SysExit; SysFork; SysRead; SysWrite; SysOpen; SysClose; SysWait; SysCreat; SysLink; SysUnlink;
   SysExecve; SysKill; SysLstat; SysLseek; SysSbrk; SysTimes; SysIsatty; SysStat; SysSignal; SysReaddir;
   SysGetdents; SysChdir; SysGetcwd; SysPipe; SysMkdir; SysFcntl; SysGetwd; SysFstat; SysMmap; SysMunmap;
   SysChown; SysSysinfo; SysGetuid; SysGeteuid; SysDup2; SysDup; SysSigaction; SysUmask; SysGetpid; SysGetppid;
   SysPipe2; SysGetgid; SysIoctl; SysSetuid; SysSeteuid; SysGetgroups; SysSetgroups; SysSigprocmask; SysGetegid;
   SysSigsuspend; SysWait3; SysGethostname; SysSethostname; SysAlarm; SysNanosleep; SysFchmod; SysSetgid;
   SysSetregid; SysSetreuid; SysAccess; SysTime; SysRequesterrno; SysMknod; SysGetgrent; SysSetgrent;
   SysEndgrent; SysSelect; SysUname; SysGettimeofday; SysSocket; SysBind; SysListen; SysAccept; SysSend;
   SysRecv; SysConnect]).

Definition syscalls_linux : list (option syscall) := [].

(** ** handler.c *)

Record registers := Registers { r_eax : Z; r_ebx : Z; r_ecx : Z; r_edx : Z; r_esi : Z; r_edi : Z }.

Section handler.
Context {K : Type}.
(** What a call does with its arguments. *)
Variable call : syscall → Z → Z → Z → Z → Z → M K Z.

(** [current_syscall_list] is the table. *)
Definition syscall_handler (current_syscall_list : list (option syscall)) (regs : registers) : M K registers :=
  if Z.of_nat (length current_syscall_list) <=? r_eax regs then mret regs
  else
    entry ← of_option (current_syscall_list !! Z.to_nat (r_eax regs));
    match entry with
    | None => mret regs
    | Some f =>
      ret ← call f (r_ebx regs) (r_ecx regs) (r_edx regs) (r_esi regs) (r_edi regs);
      mret (Registers (u32 ret) (r_ebx regs) (r_ecx regs) (r_edx regs) (r_esi regs) (r_edi regs))
    end.
End handler.

Definition COMPAT_YANIX : Z := 1.
Definition COMPAT_LINUX : Z := 2.

Definition switch_syscalls (newmode : Z) : M (list (option syscall)) Z :=
  if newmode =? COMPAT_LINUX then _ ← modify (λ _, syscalls_linux); mret 0
  else if newmode =? COMPAT_YANIX then _ ← modify (λ _, syscalls_yanix); mret 0
  else mret (-1).

Definition init_syscalls : M (list (option syscall)) Z := _ ← modify (λ _, syscalls_yanix); mret 0.

(** ** Calls on files *)

Definition EMLINK : Z := 31.
Definition ERANGE : Z := 34.
Definition F_DUPFD : Z := 0.
Definition F_SETFD : Z := 2.

(** Where [d_off] and [d_reclen] are in a dirent. *)
Definition DIRENT_OFF : Z := 4.
Definition DIRENT_RECLEN : Z := 8.

Section files.
Context {H F : Type} `{!KernelHeap H, !VfsDrivers H F}.
Variable lit : list Z → Z.
Variable kmalloc_ok : Z → bool.
Variable lock_junk : Z.
(** The buffers of a read or write inside a block. *)
Variable tmp1 tmp2 : Z.

(** [if (ret == -1) return -errno; return ret;] *)
Definition or_errno (ret : Z) : M (vst H F) Z :=
  if ret =? -1 then e ← get (λ s, fds_errno (vs_fd s)); mret (- e) else mret ret.

(** The structure that is filled in is the second result. *)
Definition sys_fstat (fd : Z) : M (vst H F) (Z * option stat) :=
  '(ret, st) ← vfs_fstat fd; r ← or_errno ret; mret (r, st).

Definition sys_stat (file : Z) : M (vst H F) (Z * option stat) :=
  '(ret, st) ← vfs_stat lit file; r ← or_errno ret; mret (r, st).

Definition sys_lstat (path : Z) : M (vst H F) (Z * option stat) := sys_stat path.

Definition sys_link : M (vst H F) Z := _ ← vfs_errno EMLINK; mret (-1).
Definition sys_unlink : M (vst H F) Z := _ ← vfs_errno ENOENT; mret (-1).
Definition sys_requesterrno : M (vst H F) Z := get (λ s, fds_errno (vs_fd s)).

Definition sys_lseek (fd offset mode : Z) : M (vst H F) Z := ret ← vfs_lseek fd offset mode; or_errno ret.

(** A round of the loop of [getdents]: the entry is copied behind the others when there is
    room for it; the result is the number of bytes. *)
Definition getdents_step (dirstream count : Z) : Z * Z → M (vst H F) (Z * Z + Z) := λ '(i, buf),
  if i <? count then
    dirent ← vfs_readdir dirstream;
    if dirent =? 0 then mret (inr i)
    else
      reclen ← on_bytes (load16 (dirent + DIRENT_RECLEN));
      let i := s32 (i + reclen) in
      if i <=? count then
        _ ← on_bytes (memcpy buf dirent reclen);
        _ ← on_bytes (store32 (buf + DIRENT_OFF) i);
        mret (inl (i, buf + reclen))
      else mret (inr (s32 (i - reclen)))
  else mret (inr i).

Definition getdents (fd dir count : Z) : M (vst H F) Z :=
  fd_struct ← on_fd (get_filedescriptor fd);
  match fd_struct with
  | None => mret (-1)
  | Some i =>
    d ← load_fd i;
    if fd_seek d =? 0 then _ ← vfs_errno EBADFD; mret (-1)
    else loop (S (Z.to_nat count)) (getdents_step (fd_seek d) count) (0, dir)
  end.

Definition sys_getdents (fd dirp count : Z) : M (vst H F) Z := ret ← getdents fd dirp count; or_errno ret.

Definition set_cwd (p : Z) (s : vst H F) : vst H F :=
  Vst (vs_mem s) (vs_heap s) (vs_fs s) (vs_nodes s) (vs_dirs s) (vs_files s) (vs_filesystems s) (vs_fd s)
    ((λ t, TaskCtx p (t_euid t) (t_egid t)) <$> vs_task s) (g_vfs_root s) (g_nodecount s) (g_current_fs s).

Definition sys_chdir (path : Z) : M (vst H F) Z :=
  buf ← vfs_fullpath lit path;
  node ← vfs_find_path lit buf;
  if negb (node =? 0) then
    t ← current_task;
    _ ← kfree_v (t_cwd t);
    _ ← modify (set_cwd buf);
    mret 0
  else mret (- ENOENT).

Definition sys_getcwd (s max : Z) : M (vst H F) Z :=
  t ← current_task;
  l ← on_bytes (strlen (t_cwd t));
  let len := s32 (l + 1) in
  if (s =? 0) && (negb (max =? 0) && (max <? len)) then _ ← vfs_errno ERANGE; mret 0
  else
    '(s, len) ← (if s =? 0 then
                   let len := if negb (max =? 0) then max else len in
                   p ← on_kmem (hmalloc_user (u32 len)); mret (p, len)
                 else mret (s, len));
    _ ← on_bytes (strcpy_s s (t_cwd t) len);
    mret s.

Definition sys_fcntl (fd cmd arg : Z) : M (vst H F) Z :=
  if cmd =? F_DUPFD then on_fd (dup_filedescriptor kmalloc_ok fd arg)
  else if cmd =? F_SETFD then on_fd (setflags_filedescriptor fd arg)
  else mret 0.

Definition sys_write (fd buf amount : Z) : M (vst H F) Z :=
  if (fd =? 2) && (3072 <? amount) then mret (s32 amount)
  else ret ← vfs_write_fd fd buf amount tmp1 tmp2; or_errno ret.

Definition sys_close (fd : Z) : M (vst H F) Z :=
  if fd <? 3 then mret (-1) else ret ← vfs_close_fd fd; or_errno ret.

Definition sys_creat (path mode : Z) : M (vst H F) Z := ret ← vfs_creat lit kmalloc_ok lock_junk path mode; or_errno ret.

Definition sys_open (path flags mode : Z) : M (vst H F) Z :=
  if s32 path =? -1 then mret (- ENOENT)
  else ret ← vfs_open_fd lit kmalloc_ok lock_junk path flags mode; or_errno ret.

Definition sys_read (fd buf amount : Z) : M (vst H F) Z := ret ← vfs_read_fd fd buf amount tmp1 tmp2; or_errno ret.

Definition sys_dup2 (oldfd newfd : Z) : M (vst H F) Z := ret ← on_fd (dup2_filedescriptor kmalloc_ok oldfd newfd); or_errno ret.

Definition sys_dup (oldfd : Z) : M (vst H F) Z := on_fd (dup_filedescriptor kmalloc_ok oldfd (-1)).

(** The calls that only return a number. *)
Definition stub (c : syscall) : option Z :=
  match c with
  | SysTimes | SysReaddir | SysMkdir | SysSigaction | SysPipe2 | SysGetgroups | SysSetgroups | SysSigprocmask
  | SysSigsuspend | SysAlarm | SysFchmod | SysAccess | SysTime | SysSelect => Some (-1)
  | SysIsatty => Some 1
  | SysGetwd | SysChown | SysGetgrent => Some 0
  | SysMmap => Some (-12)
  | SysMunmap => Some (-22)
  | _ => None
  end.

(** The calls of this file; [other] are those on tasks, memory and sockets. *)
Variable other : syscall → Z → Z → Z → Z → Z → M (vst H F) Z.

Definition file_call (c : syscall) (a1 a2 a3 a4 a5 : Z) : M (vst H F) Z :=
  match c with
  | SysRead => sys_read (s32 a1) a2 a3
  | SysWrite => sys_write (s32 a1) a2 a3
  | SysOpen => sys_open a1 (s32 a2) (s32 a3)
  | SysClose => sys_close (s32 a1)
  | SysCreat => sys_creat a1 (s32 a2)
  | SysLink => sys_link
  | SysUnlink => sys_unlink
  | SysLseek => sys_lseek (s32 a1) (s32 a2) (s32 a3)
  | SysGetdents => sys_getdents (s32 a1) a2 (s32 a3)
  | SysChdir => sys_chdir a1
  | SysGetcwd => sys_getcwd a1 (s32 a2)
  | SysFcntl => sys_fcntl (s32 a1) (s32 a2) a3
  | SysDup2 => sys_dup2 (s32 a1) (s32 a2)
  | SysDup => sys_dup (s32 a1)
  | SysRequesterrno => sys_requesterrno
  | _ => match stub c with Some r => mret r | None => other c a1 a2 a3 a4 a5 end
  end.
End files.

(** ** Theorems *)

(** A call with its number in eax and three arguments. *)
Definition trap (n a1 a2 a3 : Z) : registers := Registers n a1 a2 a3 0 0.

Lemma handler_run {K} call n a1 a2 a3 f (s s' : K) r :
  syscalls_yanix !! Z.to_nat n = Some (Some f) → 0 ≤ n → call f a1 a2 a3 0 0 s = Ok (r, s') →
  syscall_handler call syscalls_yanix (trap n a1 a2 a3) s = Ok (trap (u32 r) a1 a2 a3, s').
Proof.
  intros Hf Hn Hc. unfold syscall_handler, trap. cbn [r_eax r_ebx r_ecx r_edx r_esi r_edi]. pose proof (lookup_lt_Some _ _ _ Hf).
  destruct (Z.leb_spec (Z.of_nat (length syscalls_yanix)) n); [lia|].
  rewrite (bind_ok _ _ _ (Some f) s) by by rewrite Hf. by rewrite (bind_ok _ _ _ _ _ Hc).
Qed.

Lemma handler_ok {K} call n a1 a2 a3 f (s s' : K) r :
  syscalls_yanix !! Z.to_nat n = Some (Some f) → 0 ≤ n → 0 ≤ r < 4294967296 → call f a1 a2 a3 0 0 s = Ok (r, s') →
  syscall_handler call syscalls_yanix (trap n a1 a2 a3) s = Ok (trap r a1 a2 a3, s').
Proof. intros Hf Hn Hr Hc. rewrite (handler_run call n a1 a2 a3 f s s' r) by done. by rewrite u32_small. Qed.

Lemma s32_not_minus1 z : 0 ≤ z < 4294967295 → s32 z ≠ -1.
Proof. intros Hz. unfold s32. rewrite u32_small by lia. destruct (Z.ltb_spec z 2147483648); lia. Qed.

Section calls.
Context {H F : Type} `{HL : HeapLaws H} `{!VfsDrivers H F}.
Variables (lit : list Z → Z) (kmalloc_ok : Z → bool) (lock tmp1 tmp2 : Z).
Variable other : syscall → Z → Z → Z → Z → Z → M (vst H F) Z.

Notation int80 regs := (syscall_handler (file_call lit kmalloc_ok lock tmp1 tmp2 other) syscalls_yanix regs).

Lemma ok_or_errno (r : Z) (s : vst H F) : 0 ≤ r → or_errno r s = Ok (r, s).
Proof. intros Hr. unfold or_errno. destruct (Z.eqb_spec r (-1)); [lia|done]. Qed.


(** A system call that fails.  Opening a path that leads nowhere puts -ENOENT into eax and
    changes neither the node tree nor memory; a number outside the table or without a
    function leaves the registers as they are. *)
Theorem syscall_errors (s : vst H F) path p dirs cwd L r flags mode n :
  vfs_ok lit s dirs cwd → cstr (vs_mem s) path p → 0 < path < 4294967295 →
  Z.of_nat (length cwd + length p) + 2 < 2147483648 →
  heap_rep (vs_mem s) (vs_heap s) L r → path_charge (length cwd) (length p) ≤ r →
  resolve dirs (g_vfs_root s) cwd p = None → n = 0 ∨ 77 ≤ n →
  (∃ s', int80 (trap 5 path flags mode) s = Ok (trap (u32 (- ENOENT)) path flags mode, s') ∧
     vs_nodes s' = vs_nodes s ∧ vs_mem s' = vs_mem s ∧ fds_errno (vs_fd s') = ENOENT) ∧
  int80 (trap n path flags mode) s = Ok (trap n path flags mode, s).
Proof.
  intros Hok Hp Hp0 Hl Hh Hr Hres Hn. split.
  2: { unfold syscall_handler, trap. cbn [r_eax r_ebx r_ecx r_edx r_esi r_edi]. destruct Hn as [->|Hn]; [done|]. destruct (Z.leb_spec (Z.of_nat (length syscalls_yanix)) n) as [|Hlt]; [done|].
    change (Z.of_nat (length syscalls_yanix)) with 77 in Hlt. lia. }
  destruct (find_path_run lit 0 s path p dirs cwd L r) as (h' & e & Hrun & He & _); try done; [lia|].
  rewrite Hres in Hrun, He. destruct He as [->|[_ He]]; [|done].
  exists (set_kmem (vs_mem s) h' (with_errno ENOENT s)). split; [|split_and!].
  { apply handler_run with (f := SysOpen); [done|lia|]. simpl. unfold sys_open.
    destruct (Z.eqb_spec (s32 path) (-1)) as [E|]; [exfalso; apply (s32_not_minus1 path); [lia|done]|].
    rewrite (bind_ok _ _ _ (-1) (set_kmem (vs_mem s) h' (with_errno ENOENT s))); [reflexivity|].
    unfold vfs_open_fd. rewrite (bind_ok _ _ _ _ _ Hrun). reflexivity. }
  all: done.
Qed.
End calls.

Section demo.
#[local] Existing Instance disk_drivers.


Lemma syscall_errors_witness :
  (∃ s', syscall_handler (file_call demo_lit (λ _, true) 0 1120 1130 (λ _ _ _ _ _ _, mret 0)) syscalls_yanix
      (trap 5 1000 0 0) open_vfs = Ok (trap (u32 (- ENOENT)) 1000 0 0, s') ∧
     vs_nodes s' = open_nodes ∧ vs_mem s' = open_mem ∧ fds_errno (vs_fd s') = ENOENT) ∧
  syscall_handler (file_call demo_lit (λ _, true) 0 1120 1130 (λ _ _ _ _ _ _, mret 0)) syscalls_yanix
    (trap 77 1000 0 0) open_vfs = Ok (trap 77 1000 0 0, open_vfs).
Proof.
  apply (syscall_errors demo_lit (λ _, true) 0 1120 1130 (λ _ _ _ _ _ _, mret 0) open_vfs 1000 BIN demo_dirs
    (SLASH :: BIN) ∅ 16777216 0 0 77); try (simpl; lia); try done.
  - exact open_vfs_ok.
  - by apply cstr_check.
  - exact open_rep_heap.
Defined.
End demo.
