(* ===== verification/Devices.v ===== *)
(** * Pipes, fifos and character devices (kernel/fs/vfs/pipe.c, kernel/fs/vfs/chardev.c)

    [pipe], [mkfifo] and [chardev_create] over the state of the vfs.  The ring buffers of
    the pipes ([Ringbuffer]) are a part of the state behind the vfs, the class [Pipes], by
    the address of their struct pipe; its other fields are in the byte memory.  The
    functions a node points to are known by their addresses. *)
From S2P Require Import Prelude LinkedList Frames Mm HeapApi LibK FdTable Sync Ringbuffer Disk Kmem FileIo Vfs VfsPath VfsLink VfsOps.

(** A part of [F] that holds the ring buffers. *)
Class Pipes (F : Type) := {
  pipes : F → gmap Z ringbuffer;
  set_pipes : gmap Z ringbuffer → F → F;
  pipes_set : ∀ ps f, pipes (set_pipes ps f) = ps
}.

#[export] Instance pipes_only : Pipes (gmap Z ringbuffer) := {| pipes := λ f, f; set_pipes := λ ps _, ps; pipes_set := λ _ _, eq_refl |}.

(** struct pipe: circbuf, pipefd[2], flags. *)
Definition SIZEOF_PIPE : Z := 16.
Definition PIPE_PIPEFD : Z := 4.
Definition O_RDONLY : Z := 0.

Definition PIPE_NAME : list Z := [112; 105; 112; 101].

(** The paths of the devices. *)
Definition DEV_STDIN : list Z := [47; 100; 101; 118; 47; 115; 116; 100; 105; 110].
Definition DEV_STDOUT : list Z := [47; 100; 101; 118; 47; 115; 116; 100; 111; 117; 116].
Definition DEV_STDERR : list Z := [47; 100; 101; 118; 47; 115; 116; 100; 101; 114; 114].
Definition DEV_TTY : list Z := [47; 100; 101; 118; 47; 116; 116; 121].
Definition DEV_PTS : list Z := [47; 100; 101; 118; 47; 112; 116; 115; 47; 48].
Definition DEV_NULL : list Z := [47; 100; 101; 118; 47; 110; 117; 108; 108].
Definition DEV_FB : list Z := [47; 100; 101; 118; 47; 102; 98; 48].

Section devices.
Context {H F : Type} `{!KernelHeap H, !VfsDrivers H F, !Pipes F}.
Variable lit : list Z → Z.
Variable kmalloc_ok : Z → bool.
Variable lock_junk : Z.
(** The addresses of the functions. *)
Variables pipe_close_fn pipe_read_fn pipe_write_fn chardev_close_fn : Z.
(** What the block for a ring buffer holds, [None] when there is no memory for it. *)
Variable ring_block : option (list Z).

Definition set_vfs (f : F) (s : vst H F) : vst H F :=
  Vst (vs_mem s) (vs_heap s) f (vs_nodes s) (vs_dirs s) (vs_files s) (vs_filesystems s) (vs_fd s)
    (vs_task s) (g_vfs_root s) (g_nodecount s) (g_current_fs s).

Definition set_ring (p : Z) (r : ringbuffer) (s : vst H F) : vst H F :=
  set_vfs (set_pipes (<[p := r]> (pipes (vs_fs s))) (vs_fs s)) s.

(** [node->offset] is the struct pipe. *)
Definition node_pipe (node : Z) : M (vst H F) (Z * option ringbuffer) :=
  n ← load_node node;
  if n_offset n =? 0 then mret (0, None)
  else
    ps ← get (λ s, pipes (vs_fs s));
    r ← of_option (ps !! n_offset n);
    mret (n_offset n, Some r).

(** What a function of [Ringbuffer] returned: the new ring buffer and errno. *)
Definition put_pipe {A} (p : Z) (res : result (A * option ringbuffer) * Z) : M (vst H F) A :=
  match res with
  | (Ok (a, r), e) =>
    _ ← (if e =? 0 then mret tt else vfs_errno e);
    _ ← match r with Some r => modify (set_ring p r) | None => mret tt end;
    mret a
  | (Fault, _) => fault
  | (Hang, _) => hang
  end.

Definition pipe_read (node offset buffer size flags : Z) : M (vst H F) Z :=
  '(p, r) ← node_pipe node;
  '(n, bs) ← put_pipe p (pipe_read_raw size flags r);
  _ ← on_bytes (store_bytes buffer bs);
  mret n.

Definition pipe_write (node offset buffer size flags : Z) : M (vst H F) Z :=
  '(p, r) ← node_pipe node;
  match r with
  | None => put_pipe p (pipe_write_raw [] flags r)
  | Some _ =>
    bs ← on_bytes (load_bytes (Z.to_nat size) buffer);
    put_pipe p (pipe_write_raw bs flags r)
  end.

Definition chardev_close (node : Z) : Z := 0.

(** [pipe_create], with the struct in memory. *)
Definition make_pipe : M (vst H F) Z :=
  pipe ← kmalloc_v SIZEOF_PIPE;
  if pipe =? 0 then mret 0
  else
    _ ← on_bytes (memset pipe 0 SIZEOF_PIPE);
    match ring_block with
    | None => mret 0
    | Some junk => _ ← modify (set_ring pipe (pipe_create junk)); mret pipe
    end.

(** [pipe->circbuf->size] *)
Definition pipe_size (pipe : Z) : M (vst H F) Z :=
  ps ← get (λ s, pipes (vs_fs s)); r ← of_option (ps !! pipe); mret (rb_size r).

Definition pipe (pipefd : Z) : M (vst H F) Z :=
  pipe ← make_pipe;
  if pipe =? 0 then mret (-1)
  else
    size ← pipe_size pipe;
    pipe_node ← vfs_setupnode (lit PIPE_NAME) VFS_PIPE 0 0 0 size pipe 0 pipe_close_fn 0 pipe_read_fn pipe_write_fn 0 0 0;
    if pipe_node =? 0 then mret (-1)
    else
      fd0 ← register_fd kmalloc_ok lock_junk pipe_node 0 O_RDONLY;
      _ ← on_bytes (store32 pipefd fd0);
      fd1 ← register_fd kmalloc_ok lock_junk pipe_node 0 O_WRONLY;
      _ ← on_bytes (store32 (pipefd + 4) fd1);
      w0 ← on_bytes (load32 pipefd);
      _ ← on_bytes (store32 (pipe + PIPE_PIPEFD) w0);
      w1 ← on_bytes (load32 (pipefd + 4));
      _ ← on_bytes (store32 (pipe + PIPE_PIPEFD + 4) w1);
      mret 0.

Definition mkfifo (path : Z) : M (vst H F) Z :=
  pipe ← make_pipe;
  if pipe =? 0 then mret (-1)
  else
    name ← vfs_get_name path;
    size ← pipe_size pipe;
    pipe_node ← vfs_setupnode name VFS_PIPE 0 0 0 size pipe 0 0 0 pipe_read_fn pipe_write_fn 0 0 0;
    _ ← vfs_link_node_vfs lit path pipe_node;
    mret 0.

Definition with_cmd (cmd : Z) (n : vfs_node) : vfs_node :=
  VfsNode (n_name n) (n_type n) (n_permissions n) (n_uid n) (n_gid n) (n_id n) (n_filelength n)
    (n_fs_info n) (n_offset n) (n_nlink n) (n_open n) (n_close n) (n_read n) (n_write n) (n_creat n)
    cmd (n_opendir n) (n_closedir n) (n_readdir n) (n_ptr n) (n_nextnode n) (n_dirlist n) (n_parent n).

Definition chardev_create (path read write cmd : Z) : M (vst H F) Z :=
  pipe ← make_pipe;
  if pipe =? 0 then mret 0
  else
    let read := if read =? 1 then pipe_read_fn else read in
    let write := if write =? 1 then pipe_write_fn else write in
    name ← vfs_get_name path;
    size ← pipe_size pipe;
    node ← vfs_setupnode name VFS_CHARDEVICE 0 0 0 size pipe 0 chardev_close_fn 0 read write 0 0 0;
    _ ← upd_node node (with_cmd cmd);
    _ ← vfs_link_node_vfs lit path node;
    mret node.

(** The devices of the terminal, the null device and the framebuffer, by the addresses of
    their functions, and the first three descriptors. *)
Definition init_char_specials (stdinwrite stdoutwrite stderrwrite readtest read_null write_null fb_write termios_cmd fb_cmd : Z) : M (vst H F) Z :=
  _ ← chardev_create (lit DEV_STDIN) 1 stdinwrite 0;
  _ ← chardev_create (lit DEV_STDOUT) 0 stdoutwrite 0;
  _ ← chardev_create (lit DEV_STDERR) 0 stderrwrite 0;
  _ ← chardev_create (lit DEV_TTY) readtest stdoutwrite termios_cmd;
  _ ← chardev_create (lit DEV_PTS) readtest stdoutwrite 0;
  _ ← chardev_create (lit DEV_NULL) read_null write_null 0;
  _ ← chardev_create (lit DEV_FB) 1 fb_write fb_cmd;
  _ ← vfs_open_fd lit kmalloc_ok lock_junk (lit DEV_STDIN) 0 0;
  _ ← vfs_open_fd lit kmalloc_ok lock_junk (lit DEV_STDOUT) 0 0;
  _ ← vfs_open_fd lit kmalloc_ok lock_junk (lit DEV_STDERR) 0 0;
  mret 0.

(** The control function of the node behind a descriptor. *)
Definition _ioctl (call_cmd : Z → Z → Z → M (vst H F) Z) (fd request args : Z) : M (vst H F) Z :=
  fp ← on_fd (get_filedescriptor fd);
  match fp with
  | None => mret (-1)
  | Some i =>
    d ← load_fd i;
    if fd_node d =? 0 then mret (-1)
    else
      n ← load_node (fd_node d);
      if n_cmd n =? 0 then mret (-1) else call_cmd (n_cmd n) request args
  end.

(** The system calls on them. *)
Definition sys_ioctl (call_cmd : Z → Z → Z → M (vst H F) Z) (fd request argp : Z) : M (vst H F) Z := _ioctl call_cmd fd (s32 request) argp.

Definition sys_pipe (pipefd : Z) : M (vst H F) Z := pipe pipefd.

Definition sys_mknod (pathname mode : Z) : M (vst H F) Z :=
  if negb (Z.land mode S_IFIFO =? 0) then mkfifo pathname else mret (-1).
End devices.

(** ** Bytes through a pipe *)

(** A vector grows to twice its size at most. *)
Lemma vector_add_room kmalloc_ok v fd i v' : (∀ n, kmalloc_ok n = true) → vec_ok v →
  vector_add kmalloc_ok fd v = Ok (i, v') → vector_maxsize v' ≤ 2 * vector_maxsize v.
Proof.
  intros Hk Hok E. pose proof Hok as [Hl Hs Hm].
  assert (Hw : wp (vector_add kmalloc_ok fd) (λ _ w, vector_maxsize w ≤ 2 * vector_maxsize v) v).
  { unfold vector_add. do 3 wp_step. eapply wp_mono; [apply first_closed_spec; [done|lia|lia]|].
    intros [j|] w (-> & Hr).
    - wp_step. eapply run_wp; [apply run_store_slot; lia|]. wp_step. simpl. lia.
    - unfold vector_push, id. do 2 wp_step. wp_step. destruct (Z.eqb_spec (vector_size v) (vector_maxsize v)) as [He|He].
      + eapply run_wp; [apply (vector_expand_spec kmalloc_ok Hk); [done|lia|lia]|]. simpl. do 3 wp_step. apply wp_modify. simpl. wp_step.
        rewrite s32_small by lia. eapply run_wp; [apply run_store_slot; simpl; rewrite length_app, length_replicate; lia|]. do 3 wp_step. simpl. lia.
      + wp_step. simpl. do 3 wp_step. apply wp_modify. wp_step. eapply run_wp; [apply run_store_slot; simpl; lia|]. do 3 wp_step. simpl. lia. }
  unfold wp in Hw. by rewrite E in Hw.
Qed.

Lemma put_at_ok v i fd v' : vec_ok v → put_at v i fd v' → vector_maxsize v' ≤ 1048576 → vec_ok v'.
Proof. intros [Hl Hs Hm] [_ _ Hsz Hmx Hlen Hin] H. split; [done|lia|lia]. Qed.

Section ends.
Context {H F : Type} `{HL : HeapLaws H} `{!VfsDrivers H F, !Pipes F}.
Variable lit : list Z → Z.
Variable kmalloc_ok : Z → bool.
Variables lock pipe_close_fn pipe_read_fn pipe_write_fn : Z.
Implicit Types s : vst H F.

(** The functions behind the pointers of a pipe's node. *)
Class PipeDrivers := {
  pd_read : pipe_read_fn ≠ 0 ∧ ∀ node off buf size flags, call_read pipe_read_fn node off buf size flags = pipe_read node off buf size flags;
  pd_write : pipe_write_fn ≠ 0 ∧ ∀ node off buf size flags, call_write pipe_write_fn node off buf size flags = pipe_write node off buf size flags
}.

(** The descriptors [fd0] and [fd1] are the ends of the pipe with ring buffer [r]. *)
Record pipe_ends s (v : vector) (fd0 fd1 k0 k1 : Z) (r : ringbuffer) : Prop := PipeEnds {
  pe_vec : task_fds (vs_fd s) = Some v;
  pe_fd0 : 0 ≤ fd0 < vector_size v;
  pe_fd1 : 0 ≤ fd1 < vector_size v;
  pe_len : vector_size v ≤ Z.of_nat (length (vector_buffer v));
  pe_ne : fd0 ≠ fd1;
  pe_pipe : ∃ node n, slot v fd0 = Some (FileDescriptor node O_RDONLY 0 k0 lock) ∧ slot v fd1 = Some (FileDescriptor node O_WRONLY 0 k1 lock) ∧
    vs_nodes s !! node = Some n ∧ n_read n = pipe_read_fn ∧ n_write n = pipe_write_fn ∧ n_offset n ≠ 0 ∧
    pipes (vs_fs s) !! n_offset n = Some r
}.

Context `{!PipeDrivers}.

Lemma node_pipe_run s node n r : vs_nodes s !! node = Some n → n_offset n ≠ 0 → pipes (vs_fs s) !! n_offset n = Some r →
  node_pipe node s = Ok ((n_offset n, Some r), s).
Proof.
  intros Hn Ho Hr. unfold node_pipe. rewrite (bind_ok _ _ _ n s) by by apply run_load_node.
  rewrite (proj2 (Z.eqb_neq _ _) Ho). rewrite (bind_ok _ _ _ (pipes (vs_fs s)) s) by done.
  by rewrite (bind_ok _ _ _ r s) by by rewrite Hr.
Qed.

Lemma write_end s v fd0 fd1 k0 k1 r q buf bs tmp1 tmp2 : pipe_ends s v fd0 fd1 k0 k1 r → rb_is r q → rb_cursize r = 0 → nonblock r = false →
  bytes_at (vs_mem s) buf bs → virtual_end r + Z.of_nat (length bs) ≤ USHRT_MAX → 0 ≤ k1 → k1 + Z.of_nat (length bs) < 2147483648 →
  ∃ s' v' r', vfs_write_fd fd1 buf (Z.of_nat (length bs)) tmp1 tmp2 s = Ok (Z.of_nat (length bs), s') ∧
    pipe_ends s' v' fd0 fd1 k0 (k1 + Z.of_nat (length bs)) r' ∧ rb_is r' (q ++ bs) ∧
    rb_cursize r' = released false bs 0 0 (Z.of_nat (length q)) ∧ vs_mem s' = vs_mem s.
Proof.
  intros [Hv Hf0 Hf1 Hl Hne (node & n & Hs0 & Hs1 & Hn & Hrd & Hwr & Ho & Hr)] Hq Hc Hnb Hb Hfit Hk Hkb.
  destruct (pipe_write_run r q bs 0 Hq Hc Hnb eq_refl Hfit) as (r' & E & Hq' & Hc').
  set (s1 := set_ring (n_offset n) r' s). set (d := FileDescriptor node O_WRONLY 0 k1 lock) in *.
  assert (Ew : call_write pipe_write_fn node (u32 k1) buf (Z.of_nat (length bs)) 0 s = Ok (Z.of_nat (length bs), s1)).
  { rewrite (proj2 pd_write). unfold pipe_write. rewrite (bind_ok _ _ _ _ _ (node_pipe_run _ _ _ _ Hn Ho Hr)).
    rewrite Nat2Z.id, (bind_ok _ _ _ bs s); [by rewrite E|]. unfold on_bytes, on_kmem, on_mem. rewrite (load_bytes_run _ _ _ Hb). by destruct s. }
  exists (set_vec (move_to v fd1 (k1 + Z.of_nat (length bs)) d) s1), (move_to v fd1 (k1 + Z.of_nat (length bs)) d), r'.
  split; [|split; [|done]].
  - unfold vfs_write_fd. rewrite (bind_ok _ _ _ _ _ (run_get_fd s v fd1 Hv ltac:(lia))). destruct (Z.ltb_spec fd1 (vector_size v)); [|lia].
    unfold _vfs_write. rewrite (bind_ok _ _ _ d s) by (eapply run_load_fd; [done|lia|done]). cbv zeta. cbn [fd_node fd_seek fd_flags d].
    rewrite (bind_ok _ _ _ n s) by by apply run_load_node. rewrite Hwr, (proj2 (Z.eqb_neq _ _) (proj1 pd_write)). cbn [negb].
    rewrite (bind_ok _ _ _ _ _ Ew). rewrite (bind_ok _ _ _ d s1) by (eapply run_load_fd; [done|lia|done]). cbn [fd_seek d].
    rewrite s32_small by lia. by erewrite bind_ok by (eapply run_set_seek; [done|lia|done]).
  - split; cbn; try done; [by rewrite length_insert|]. exists node, n. rewrite pipes_set, lookup_insert_eq.
    split_and!; try done; [by rewrite slot_move_other by (done || lia)|by rewrite slot_move_to by lia].
Qed.

Lemma read_end s v fd0 fd1 k0 k1 r q buf size tmp1 tmp2 : pipe_ends s v fd0 fd1 k0 k1 r → rb_is r q → 0 < rb_cursize r →
  Forall is_byte q → 0 ≤ size < 2147483648 → 0 ≤ k0 → k0 + size < 2147483648 → mapped (vs_mem s) buf (Z.min (rb_cursize r) size) →
  let k := Z.min (rb_cursize r) size in
  ∃ s' v' r', vfs_read_fd fd0 buf size tmp1 tmp2 s = Ok (k, s') ∧ pipe_ends s' v' fd0 fd1 (k0 + k) k1 r' ∧
    rb_is r' (drop (Z.to_nat k) q) ∧ vs_mem s' = write_at (vs_mem s) buf (take (Z.to_nat k) q).
Proof.
  intros [Hv Hf0 Hf1 Hl Hne (node & n & Hs0 & Hs1 & Hn & Hrd & Hwr & Ho & Hr)] Hq Hc Hby Hsz Hk Hks Hm k.
  pose proof (pipe_read_run r q size 0 Hq ltac:(lia) eq_refl) as E. destruct (Z.eqb_spec (rb_cursize r) 0); [lia|].
  destruct E as (r' & E & Hq'). fold k in E, Hq'. pose proof (ri_cursize _ _ Hq) as Hcs.
  set (d := FileDescriptor node O_RDONLY 0 k0 lock) in *.
  set (s1 := with_mem (write_at (vs_mem s) buf (take (Z.to_nat k) q)) (set_ring (n_offset n) r' s)).
  assert (Hlen : Z.of_nat (length (take (Z.to_nat k) q)) = k) by (rewrite length_take; lia).
  assert (Er : call_read pipe_read_fn node (u32 k0) buf size 0 s = Ok (k, s1)).
  { rewrite (proj2 pd_read). unfold pipe_read. rewrite (bind_ok _ _ _ _ _ (node_pipe_run _ _ _ _ Hn Ho Hr)), E.
    rewrite (bind_ok _ _ _ (k, take (Z.to_nat k) q) (set_ring (n_offset n) r' s)) by done.
    rewrite (bind_ok _ _ _ tt s1); [done|]. unfold on_bytes, on_kmem, on_mem. cbn [vs_mem set_ring set_vfs].
    rewrite store_bytes_run; [done|by rewrite Hlen|by apply Forall_take]. }
  exists (set_vec (move_to v fd0 (k0 + k) d) s1), (move_to v fd0 (k0 + k) d), r'.
  split; [|split; [|done]].
  - unfold vfs_read_fd. rewrite (bind_ok _ _ _ _ _ (run_get_fd s v fd0 Hv ltac:(lia))). destruct (Z.ltb_spec fd0 (vector_size v)); [|lia].
    unfold _vfs_read. rewrite (bind_ok _ _ _ d s) by (eapply run_load_fd; [done|lia|done]). cbv zeta. cbn [fd_node fd_seek fd_flags d].
    rewrite (bind_ok _ _ _ n s) by by apply run_load_node. rewrite Hrd, (proj2 (Z.eqb_neq _ _) (proj1 pd_read)). cbn [negb].
    rewrite (bind_ok _ _ _ _ _ Er). rewrite (bind_ok _ _ _ d s1) by (eapply run_load_fd; [done|lia|done]). cbn [fd_seek d].
    rewrite s32_small by lia. by erewrite bind_ok by (eapply run_set_seek; [done|lia|done]).
  - split; cbn; try done; [by rewrite length_insert|]. exists node, n. rewrite pipes_set, lookup_insert_eq.
    split_and!; try done; [by rewrite slot_move_to by lia|by rewrite slot_move_other by (done || lia)].
Qed.

Lemma make_pipe_run s L r junk : heap_rep (vs_mem s) (vs_heap s) L r → charge SIZEOF_PIPE ≤ r →
  ∃ p m h, make_pipe (Some junk) s = Ok (p, set_ring p (pipe_create junk) (set_kmem m h s)) ∧ p ≠ 0 ∧
    vs_mem s ⊆ m ∧ mapped m p SIZEOF_PIPE ∧ unmapped (vs_mem s) p SIZEOF_PIPE ∧ heap_rep m h L (r - charge SIZEOF_PIPE).
Proof.
  intros Hh Hr. destruct (run_kmalloc s SIZEOF_PIPE L r Hh) as (p & k & m1 & h1 & Hrun & Hk & Hsc); [unfold SIZEOF_PIPE; lia|done|].
  set (m2 := write_at m1 p (replicate 16 0)).
  assert (Hsc2 : scratch (vs_mem s) L (r - charge SIZEOF_PIPE) p k m2 h1) by (apply scratch_write; [done|lia|unfold SIZEOF_PIPE in Hk; simpl; lia]).
  pose proof (sc_mapped _ _ _ _ _ _ _ Hsc) as Hm1.
  exists p, m2, h1. split; [|split_and!].
  - unfold make_pipe. rewrite (bind_ok _ _ _ _ _ Hrun). destruct (Z.eqb_spec p 0); [pose proof (sc_pos _ _ _ _ _ _ _ Hsc); lia|].
    rewrite (bind_ok _ _ _ p (set_kmem m2 h1 s)); [done|]. apply (run_on_bytes _ (set_kmem m1 h1 s)).
    apply (memset_zero_run m1 p 16). intros q Hq. apply Hm1. unfold SIZEOF_PIPE in Hk. lia.
  - pose proof (sc_pos _ _ _ _ _ _ _ Hsc). lia.
  - exact (scratch_sub _ _ _ _ _ _ _ Hsc2).
  - intros q Hq. apply (sc_mapped _ _ _ _ _ _ _ Hsc2). lia.
  - intros q Hq. apply (sc_fresh _ _ _ _ _ _ _ Hsc2). lia.
  - eapply heap_rep_sub; [exact (sc_heap _ _ _ _ _ _ _ Hsc2)|]. apply insert_subseteq. exact (sc_live _ _ _ _ _ _ _ Hsc2).
Qed.

Lemma setupnode_run s L r name type perm uid gid size offset open close creat read write opendir readdir fs_info :
  heap_rep (vs_mem s) (vs_heap s) L r → charge SIZEOF_VFS_NODE ≤ r →
  ∃ node m h, vfs_setupnode name type perm uid gid size offset open close creat read write opendir readdir fs_info s =
      Ok (node, set_nodes (<[node := VfsNode name type perm uid gid (g_nodecount s) size fs_info offset 0 open close read write creat 0
        opendir 0 readdir 0 0 0 0]> (vs_nodes s)) (set_globals (g_vfs_root s) (u32 (g_nodecount s + 1)) (g_current_fs s) (set_kmem m h s))) ∧
    node ≠ 0 ∧ vs_mem s ⊆ m ∧ heap_rep m h L (r - charge SIZEOF_VFS_NODE).
Proof.
  intros Hh Hr. destruct (run_kmalloc s SIZEOF_VFS_NODE L r Hh) as (node & k & m & h & Hrun & Hk & Hsc); [unfold SIZEOF_VFS_NODE; lia|done|].
  pose proof (sc_pos _ _ _ _ _ _ _ Hsc) as Hpos. exists node, m, h. split; [|split_and!].
  - unfold vfs_setupnode. set (s1 := set_nodes (<[node := zero_node]> (vs_nodes s)) (set_kmem m h s)).
    rewrite (bind_ok _ _ _ node s1).
    2: { unfold new_node. rewrite (bind_ok _ _ _ _ _ Hrun). destruct (Z.eqb_spec node 0); [lia|done]. }
    set (s2 := set_globals (g_vfs_root s) (u32 (g_nodecount s + 1)) (g_current_fs s) s1).
    rewrite (bind_ok _ _ _ (g_nodecount s) s2) by done.
    rewrite (bind_ok _ _ _ _ _ (run_upd_node s2 node _ zero_node (lookup_insert_eq _ _ _))).
    unfold s2, s1. cbn. by rewrite insert_insert_eq.
  - lia.
  - exact (scratch_sub _ _ _ _ _ _ _ Hsc).
  - eapply heap_rep_sub; [exact (sc_heap _ _ _ _ _ _ _ Hsc)|]. apply insert_subseteq. exact (sc_live _ _ _ _ _ _ _ Hsc).
Qed.

(** What [pipe] leaves: the ends, and memory that differs from before only in the two numbers
    and in new blocks. *)
Lemma pipe_run s v L r junk pipefd : heap_rep (vs_mem s) (vs_heap s) L r → charge SIZEOF_PIPE + charge SIZEOF_VFS_NODE ≤ r →
  (∀ n, kmalloc_ok n = true) → task_fds (vs_fd s) = Some v → vec_ok v → vector_maxsize v ≤ 524288 → mapped (vs_mem s) pipefd 8 →
  ∃ s' v' fd0 fd1, pipe lit kmalloc_ok lock pipe_close_fn pipe_read_fn pipe_write_fn (Some junk) pipefd s = Ok (0, s') ∧
    pipe_ends s' v' fd0 fd1 0 0 (pipe_create junk) ∧ lowest_closed v fd0 ∧
    bytes_at (vs_mem s') pipefd (bytes32 fd0 ++ bytes32 fd1) ∧
    ∀ q b, vs_mem s !! q = Some b → ¬ pipefd ≤ q < pipefd + 8 → vs_mem s' !! q = Some b.
Proof.
  intros Hh Hr Hk Hv Hvok Hmax Hpf. pose proof (charge_pos SIZEOF_VFS_NODE ltac:(done)). pose proof (charge_pos SIZEOF_PIPE ltac:(done)).
  destruct (make_pipe_run s L r junk Hh ltac:(lia)) as (p & m1 & h1 & E1 & Hp0 & Hsub1 & Hmp & Hup & Hh1).
  set (s1 := set_ring p (pipe_create junk) (set_kmem m1 h1 s)) in *.
  destruct (setupnode_run s1 L (r - charge SIZEOF_PIPE) (lit PIPE_NAME) VFS_PIPE 0 0 0 USHRT_MAX p 0 pipe_close_fn 0 pipe_read_fn pipe_write_fn 0 0 0)
    as (node & m2 & h2 & E2 & Hn0 & Hsub2 & _); [done|lia|].
  set (n := VfsNode _ _ _ _ _ _ _ _ _ _ _ _ _ _ _ _ _ _ _ _ _ _ _) in E2. set (s2 := set_nodes _ _) in E2.
  assert (Hv2 : task_fds (vs_fd s2) = Some v) by exact Hv.
  destruct (register_fd_run kmalloc_ok lock s2 v node 0 O_RDONLY Hk Hv2 Hvok) as (fd0 & v1 & E3 & Hlow0 & Hput0).
  assert (Hvok1 : vec_ok v1).
  { apply (put_at_ok _ _ _ _ Hvok Hput0). assert (Hm : vector_maxsize v1 ≤ 2 * vector_maxsize v); [|lia].
    unfold register_fd, register_filedescriptor, on_fd, on_vec in E3. rewrite Hv2 in E3.
    destruct (vector_add _ _ v) as [[i w]| |] eqn:Ea; [|done..]. injection E3 as _ ->.
    by apply (vector_add_room _ _ _ _ _ Hk Hvok Ea). }
  pose proof (pa_in _ _ _ _ Hput0) as Hin0. pose proof (vo_max _ Hvok1) as Hmax1. pose proof (vo_size _ Hvok) as Hvs.
  assert (Hpf2 : mapped m2 pipefd 8) by (intros q Hq; destruct (Hpf q Hq) as [b Hb]; exists b; eapply lookup_weaken; [|exact Hsub2]; by eapply lookup_weaken).
  assert (Hmp2 : mapped m2 p 16) by (intros q Hq; destruct (Hmp q Hq) as [b Hb]; exists b; by eapply lookup_weaken).
  pose proof (unmapped_apart _ _ _ _ _ Hup Hpf ltac:(done) ltac:(done)) as Hap. unfold SIZEOF_PIPE in Hap.
  set (m3 := write_at m2 pipefd (bytes32 fd0)). set (s3 := set_kmem m3 h2 (set_vec v1 s2)).
  assert (Hv3 : task_fds (vs_fd s3) = Some v1) by done.
  destruct (register_fd_run kmalloc_ok lock s3 v1 node 0 O_WRONLY Hk Hv3 Hvok1) as (fd1 & v2 & E4 & (Hr1 & Ho1 & Hno1) & Hput1).
  pose proof (pa_in _ _ _ _ Hput1) as Hin1.
  pose proof (pa_size _ _ _ _ Hput0) as Hsz0. pose proof (pa_size _ _ _ _ Hput1) as Hsz1.
  assert (Hne : fd0 ≠ fd1).
  { intros <-. apply Hno1. exists (FileDescriptor node (u16 O_RDONLY) 0 0 lock). split; [apply Hput0|]. split; [done|lia]. }
  set (m4 := write_at m3 (pipefd + 4) (bytes32 fd1)). set (m5 := write_at m4 (p + 4) (bytes32 fd0)). set (m6 := write_at m5 (p + 4 + 4) (bytes32 fd1)).
  assert (B0 : bytes_at m4 pipefd (bytes32 fd0)) by (apply bytes_at_write; [left; simpl; lia|apply write_at_in]).
  assert (B1 : bytes_at m5 (pipefd + 4) (bytes32 fd1)) by (apply bytes_at_write; [unfold disjoint_blocks; simpl; lia|apply write_at_in]).
  exists (set_kmem m6 h2 (set_vec v2 s3)), v2, fd0, fd1. split; [|split; [|split; [done|split]]].
  - unfold pipe. rewrite (bind_ok _ _ _ _ _ E1), (proj2 (Z.eqb_neq _ _) Hp0).
    rewrite (bind_ok _ _ _ USHRT_MAX s1).
    2: { unfold pipe_size. rewrite (bind_ok _ _ _ (pipes (vs_fs s1)) s1) by done. unfold s1 at 1. cbn. by rewrite pipes_set, lookup_insert_eq. }
    rewrite (bind_ok _ _ _ _ _ E2), (proj2 (Z.eqb_neq _ _) Hn0), (bind_ok _ _ _ _ _ E3).
    rewrite (bind_ok _ _ _ tt s3) by (apply run_on_bytes, store32_run; intros q Hq; apply Hpf2; lia).
    rewrite (bind_ok _ _ _ _ _ E4).
    rewrite (bind_ok _ _ _ tt (set_kmem m4 h2 (set_vec v2 s3))).
    2: { apply (run_on_bytes _ (set_vec v2 s3)), store32_run. apply mapped_write. intros q Hq. apply Hpf2. lia. }
    rewrite (bind_ok _ _ _ fd0 (set_kmem m4 h2 (set_vec v2 s3))) by (apply run_read, load32_word; [done|lia]).
    rewrite (bind_ok _ _ _ tt (set_kmem m5 h2 (set_vec v2 s3))).
    2: { apply (run_on_bytes _ (set_kmem m4 h2 (set_vec v2 s3))), store32_run. do 2 apply mapped_write. intros q Hq. apply Hmp2. unfold PIPE_PIPEFD in Hq. lia. }
    rewrite (bind_ok _ _ _ fd1 (set_kmem m5 h2 (set_vec v2 s3))) by (apply run_read, load32_word; [done|lia]).
    rewrite (bind_ok _ _ _ tt (set_kmem m6 h2 (set_vec v2 s3))); [done|].
    apply (run_on_bytes _ (set_kmem m5 h2 (set_vec v2 s3))), store32_run. do 3 apply mapped_write. intros q Hq. apply Hmp2. unfold PIPE_PIPEFD in Hq. lia.
  - split; cbn; try done; try lia.
    + rewrite (pa_len _ _ _ _ Hput1). pose proof (pa_max _ _ _ _ Hput1). pose proof (vo_size _ Hvok1). lia.
    + exists node, n. split; [|split; [|split; [|split_and!; try done]]].
      * rewrite (pa_rest _ _ _ _ Hput1) by (done || lia). apply Hput0.
      * apply Hput1.
      * unfold s2. cbn. apply lookup_insert_eq.
      * rewrite pipes_set. apply lookup_insert_eq.
  - apply bytes_at_app. split; (apply bytes_at_write; [unfold disjoint_blocks; simpl; lia|]); [apply bytes_at_write; [unfold disjoint_blocks; simpl; lia|done]|done].
  - intros q b Hq Hout. change (m6 !! q = Some b). assert (Hqp : ¬ p ≤ q < p + 16) by (intros Hin; by rewrite Hup in Hq).
    unfold m6, m5, m4, m3. rewrite !write_at_out by (simpl; lia). eapply lookup_weaken; [|exact Hsub2]. by eapply lookup_weaken.
Qed.

End ends.

(** ** An example *)

(** Every pointer leads to a pipe. *)
#[local] Instance pipe_drivers {H : Type} `{!KernelHeap H} : VfsDrivers H (gmap Z ringbuffer) := {|
  call_open _ _ _ _ _ := mret 0;
  call_close _ _ := mret 0;
  call_read _ := pipe_read;
  call_write _ := pipe_write;
  call_creat _ _ _ _ := mret 0;
  call_opendir _ _ := mret 0;
  call_block_read _ _ _ _ _ _ := mret 0;
  call_block_write _ _ _ _ _ _ := mret 0;
  call_update_node _ _ := mret 0;
  call_create_node _ _ _ _ := mret (-1);
  call_dir_open _ _ _ := mret 0;
  call_dir_close _ _ := mret 0;
  call_dir_read _ _ := mret 0;
  call_makenode _ _ _ _ _ := mret 0;
  init_fs _ _ := mret 0
|}.

#[local] Instance demo_pipe_drivers : PipeDrivers (H := mm) (F := gmap Z ringbuffer) 11 12.
Proof. by split. Qed.

(** Room for the descriptors at 1100, "hi" and a newline at 1110, a buffer at 1120. *)
Definition pipe_mem : bmem := write_at (write_at ∅ 1100 (replicate 40 0)) 1110 [104; 105; 10].

Definition pipe_vfs : vst mm (gmap Z ringbuffer) := Vst pipe_mem kheap_mm ∅ ∅ ∅ ∅ ∅ demo_fds (Some (TaskCtx 0 0 0)) 0 3 0.

Lemma pipe_mapped p n : 1100 ≤ p → p + n ≤ 1140 → mapped pipe_mem p n.
Proof.
  intros Hp Hn. apply mapped_write. intros q Hq. apply (write_at_mapped ∅ 1100 (replicate 40 0)). simpl. lia.
Qed.

