(* ===== verification/ProcCalls.v ===== *)
(** * System calls on processes (kernel/proc/syscalls/syscalls.c, kernel/include/kernel/system.h)

    The calls that end, wait for and signal tasks, read and set their owners, move the
    program break, and report on the system and the time; those on files are in
    [Syscalls].  The state joins the memory, the memory manager with its heaps, the
    scheduler, the timer and [g_system].  Messages are left out.  A call that gives the
    processor to another task ends when that task runs. *)
From S2P Require Import Prelude LinkedList Frames Mm Paging LibK Ports Timer Sched Disk Kmem Syscalls.

(** ** State *)

Record kern_sysinfo := KernSysinfo {
  hostname : Z;
  sysname : Z;
  release : Z;
  version : Z;
  machine : Z;
  totalram : Z;
  totalswap : Z
}.

Record proc := Proc {
  pr_mem : bmem;
  pr_mm : mm;
  pr_sched : sched;
  pr_time : tst;
  g_system : kern_sysinfo
}.

Definition on_sched {A} (c : M sched A) : M proc A := λ s,
  match c (pr_sched s) with
  | Ok (a, t) => Ok (a, Proc (pr_mem s) (pr_mm s) t (pr_time s) (g_system s))
  | Fault => Fault
  | Hang => Hang
  end.

Definition on_mm {A} (c : M mm A) : M proc A := λ s,
  match c (pr_mm s) with
  | Ok (a, t) => Ok (a, Proc (pr_mem s) t (pr_sched s) (pr_time s) (g_system s))
  | Fault => Fault
  | Hang => Hang
  end.

Definition on_time {A} (c : M tst A) : M proc A := λ s,
  match c (pr_time s) with
  | Ok (a, t) => Ok (a, Proc (pr_mem s) (pr_mm s) (pr_sched s) t (g_system s))
  | Fault => Fault
  | Hang => Hang
  end.

(** Memory and heap together. *)
Definition on_heap {A} (c : M (bmem * mm) A) : M proc A := λ s,
  match c (pr_mem s, pr_mm s) with
  | Ok (a, (m, h)) => Ok (a, Proc m h (pr_sched s) (pr_time s) (g_system s))
  | Fault => Fault
  | Hang => Hang
  end.

Definition on_pram {A} (c : M bmem A) : M proc A := on_heap (on_mem c).

(** The running task. *)
Definition current : M sched task := c ← get_current_task; load_task c.
Definition set_current (t : task) : M sched unit := c ← get_current_task; store_task c t.

Definition with_break (t : task) (v : Z) : task :=
  Task (t_directory t) (t_program_start t) v (t_name t) (t_cwd t) (t_pid t)
    (t_parent t) (t_childamount t) (t_uid t) (t_euid t) (t_umask t) (t_gid t) (t_egid t) (t_ring t) (t_fds t) (t_lastsignal t)
    (t_tty t) (t_sighandlers t) (t_state t) (t_timeslice t) (t_timeused t) (t_sliceused t) (t_priority t) (t_next t).

Definition with_owner (t : task) (uid euid umask gid egid : Z) : task :=
  Task (t_directory t) (t_program_start t) (t_program_break t) (t_name t) (t_cwd t) (t_pid t)
    (t_parent t) (t_childamount t) uid euid umask gid egid (t_ring t) (t_fds t) (t_lastsignal t)
    (t_tty t) (t_sighandlers t) (t_state t) (t_timeslice t) (t_timeused t) (t_sliceused t) (t_priority t) (t_next t).

Definition SIGKILL : Z := 9.

(** ** Tasks *)

(** When no other task can run the call spins for ever. *)
Definition sys_exit : M proc unit :=
  _ ← on_sched (send_sig SIGKILL);
  task ← on_sched get_current_task;
  _ ← on_sched (kill_proc task);
  now ← on_sched get_current_task;
  if now =? task then hang else mret tt.

(** The result and what the signal did. *)
Definition sys_kill (pid sig : Z) : M proc (Z * sig_effect) :=
  e ← on_sched (send_pid_sig pid sig); mret (0, e).

(** [task_wait] clears the status before it blocks. *)
Definition sys_wait (status : Z) : M proc Z :=
  t ← on_sched current;
  _ ← (if negb (t_childamount t =? 0) then on_pram (store32 status 0) else mret tt);
  r ← on_sched task_wait;
  if r =? 0 then mret 0 else e ← on_sched (get sc_errno); mret (- e).

Definition sys_wait3 (status : Z) : M proc Z := sys_wait status.

Definition sys_signal (signum handler : Z) : M proc Z := _ ← on_sched (signal signum handler); mret 0.

(** The arguments are what [fork] allocates. *)
Definition sys_fork (addr fds cwd newdir : Z) : M proc Z := on_sched (fork addr fds cwd newdir).

Definition sys_getpid : M proc Z := on_sched getpid.
Definition sys_getppid : M proc Z := t ← on_sched current; mret (t_parent t).

(** ** Owners *)

Definition sys_getuid : M proc Z := t ← on_sched current; mret (t_uid t).
Definition sys_geteuid : M proc Z := t ← on_sched current; mret (t_euid t).
Definition sys_getgid : M proc Z := t ← on_sched current; mret (t_gid t).
Definition sys_getegid : M proc Z := t ← on_sched current; mret (t_egid t).

Definition sys_setuid (uid : Z) : M proc Z :=
  t ← on_sched current;
  _ ← on_sched (set_current (with_owner t uid (t_euid t) (t_umask t) (t_gid t) (t_egid t)));
  mret 0.

Definition sys_seteuid (euid : Z) : M proc Z :=
  t ← on_sched current;
  _ ← on_sched (set_current (with_owner t (t_uid t) euid (t_umask t) (t_gid t) (t_egid t)));
  mret 0.

Definition sys_setgid (gid : Z) : M proc Z :=
  t ← on_sched current;
  _ ← on_sched (set_current (with_owner t (t_uid t) (t_euid t) (t_umask t) gid (t_egid t)));
  mret 0.

Definition sys_setregid (real effective : Z) : M proc Z :=
  t ← on_sched current;
  _ ← on_sched (set_current (with_owner t (t_uid t) (t_euid t) (t_umask t) real effective));
  mret 0.

Definition sys_setreuid (real effective : Z) : M proc Z :=
  t ← on_sched current;
  _ ← on_sched (set_current (with_owner t real effective (t_umask t) (t_gid t) (t_egid t)));
  mret 0.

(** The argument is not used. *)
Definition sys_umask (mask : Z) : M proc Z :=
  t ← on_sched current;
  _ ← on_sched (set_current (with_owner t (t_uid t) (t_euid t) (Z.land (t_umask t) 511) (t_gid t) (t_egid t)));
  mret (t_umask t).

(** ** Memory *)

(** A page of the growing break: [None] goes on. *)
Definition sbrk_page (dir kernel i : Z) : M mm (option Z) :=
  page ← get_page_at i dir;
  r ← on_page page (λ p, flagforce_alloc_frame p kernel 1);
  mret (if r =? 0 then None else Some (-1)).

Definition sys_sbrk (incr : Z) : M proc Z :=
  t ← on_sched current;
  let kernel := if t_ring t =? 3 then 0 else 1 in
  r ← on_mm (page_loop (λ i, i <? u32 (t_program_break t + incr)) (sbrk_page (t_directory t) kernel) 0 PAGE_FUEL (t_program_break t));
  if r =? -1 then mret (-1)
  else
    let break := u32 (t_program_break t + incr) in
    _ ← on_sched (set_current (with_break t break));
    mret (u32 (break - incr)).

(** ** The system and the time *)

(** Offsets in struct us_sysinfo. *)
Definition SI_SIZE : Z := 64.
Definition SI_UPTIME : Z := 0.
Definition SI_TOTALRAM : Z := 16.
Definition SI_FREERAM : Z := 20.
Definition SI_SHAREDRAM : Z := 24.
Definition SI_BUFFERRAM : Z := 28.
Definition SI_TOTALSWAP : Z := 32.
Definition SI_FREESWAP : Z := 36.
Definition SI_PROCS : Z := 40.

Definition phys_freeswap_amount : Z := 0.
Definition sharedram_amount : Z := 0.
Definition bufferram_amount : Z := 0.

Definition sys_sysinfo (si : Z) : M proc Z :=
  _ ← on_pram (memset si 0 SI_SIZE);
  up ← on_time timer_secs_since_boot;
  _ ← on_pram (store32 (si + SI_UPTIME) up);
  sys ← get g_system;
  _ ← on_pram (store32 (si + SI_TOTALRAM) (totalram sys));
  free ← on_mm (on_frames phys_freeram_amount);
  _ ← on_pram (store32 (si + SI_FREERAM) free);
  _ ← on_pram (store32 (si + SI_SHAREDRAM) sharedram_amount);
  _ ← on_pram (store32 (si + SI_BUFFERRAM) bufferram_amount);
  _ ← on_pram (store32 (si + SI_TOTALSWAP) (totalswap sys));
  _ ← on_pram (store32 (si + SI_FREESWAP) phys_freeswap_amount);
  n ← on_sched get_proccount;
  _ ← on_pram (store16 (si + SI_PROCS) n);
  mret 0.

Definition _UTSNAME_ENTRY_LEN : Z := 65.

Definition sys_uname (buf : Z) : M proc Z :=
  sys ← get g_system;
  sysname_len ← on_pram (strlen (sysname sys));
  nodename_len ← on_pram (strlen (sysname sys));
  release_len ← on_pram (strlen (release sys));
  version_len ← on_pram (strlen (version sys));
  machine_len ← on_pram (strlen (machine sys));
  _ ← on_pram (memcpy buf (sysname sys) (sysname_len + 1));
  _ ← on_pram (memcpy (buf + _UTSNAME_ENTRY_LEN) (sysname sys) (nodename_len + 1));
  _ ← on_pram (memcpy (buf + 2 * _UTSNAME_ENTRY_LEN) (release sys) (release_len + 1));
  _ ← on_pram (memcpy (buf + 3 * _UTSNAME_ENTRY_LEN) (version sys) (version_len + 1));
  _ ← on_pram (memcpy (buf + 4 * _UTSNAME_ENTRY_LEN) (machine sys) (machine_len + 1));
  mret 0.

Definition sys_gethostname (name len : Z) : M proc Z :=
  sys ← get g_system; _ ← on_pram (strcpy_s name (hostname sys) len); mret 0.

Section heap.
Context `{!KernelHeap mm}.

Definition sys_sethostname (name len : Z) : M proc Z :=
  sys ← get g_system;
  _ ← on_heap (hfree (hostname sys));
  new ← on_heap (strdup name);
  _ ← modify (λ s, Proc (pr_mem s) (pr_mm s) (pr_sched s) (pr_time s)
        (KernSysinfo new (sysname (g_system s)) (release (g_system s)) (version (g_system s)) (machine (g_system s))
           (totalram (g_system s)) (totalswap (g_system s))));
  mret 0.
End heap.

(** [time_t] has eight bytes. *)
Definition store_time (p t : Z) : M bmem unit := _ ← store32 p t; store32 (p + 4) (t / 4294967296).
Definition load_time (p : Z) : M bmem Z := l ← load32 p; h ← load32 (p + 4); mret (l + 4294967296 * h).

Definition TV_USEC : Z := 8.
Definition TV_NSEC : Z := 8.

(** The microseconds are written as a [time_t] too. *)
Definition sys_gettimeofday (tv : Z) : M proc Z :=
  if tv =? 0 then mret (-1)
  else
    '(sec, usec) ← on_time time_since_boot;
    _ ← on_pram (store_time tv sec);
    _ ← match usec with Some u => on_pram (store_time (tv + TV_USEC) u) | None => mret tt end;
    mret 0.

Section sleeping.
(** The timer interrupts that arrive while a task waits. *)
Variables (arrivals : nat → nat) (fuel : nat).

Definition sys_nanosleep (req : Z) : M proc Z :=
  sec ← on_pram (load_time req);
  nsec ← on_pram (load_time (req + TV_NSEC));
  let time := s32 (sec * 1000) in
  let time := s32 (time + u32 nsec / 1000) in
  _ ← on_time (sleep arrivals fuel (u32 time));
  mret 0.
End sleeping.

(** ** What scheduling keeps

    The fields of a task that belong to processes, and operations that change them for no
    task. *)
Definition pinfo (t : task) : Z * Z * Z * Z := (t_pid t, t_parent t, t_childamount t, t_state t).

Definition same_info (s s' : sched) : Prop := ∀ x, pinfo <$> sc_tasks s' !! x = pinfo <$> sc_tasks s !! x.

Definition keeps {A} (c : M sched A) : Prop := ∀ s a s', c s = Ok (a, s') → same_info s s'.

Create HintDb keeps.

Lemma keep_ret {A} (a : A) : keeps (mret a).
Proof. by intros s b s' [= <- <-]. Qed.

Lemma keeps_get {A} (f : sched → A) : keeps (get f).
Proof. by intros s b s' [= <- <-]. Qed.

Lemma keeps_modify (f : sched → sched) : (∀ s, sc_tasks (f s) = sc_tasks s) → keeps (modify f).
Proof. intros Hf s b s' [= <- <-] x. by rewrite Hf. Qed.

Lemma keep_bind {A B} (c : M sched A) (f : A → M sched B) : keeps c → (∀ a, keeps (f a)) → keeps (c ≫= f).
Proof.
  intros Hc Hf s b s' H. unfold mbind, M_bind in H. destruct (c s) as [[a s1]| |] eqn:E; [|done..].
  intros x. by rewrite (Hf _ _ _ _ H x), (Hc _ _ _ E x).
Qed.

Lemma keep_loop {A R} (body : A → M sched (A + R)) fuel : (∀ a, keeps (body a)) → ∀ a, keeps (loop fuel body a).
Proof.
  intros Hb. induction fuel as [|fuel IH]; intros a; [by intros s b s'|]. cbn [loop].
  apply keep_bind; [done|]. intros [a'|x]; [apply IH|apply keep_ret].
Qed.

Lemma keeps_load p : keeps (load_task p).
Proof.
  unfold load_task. apply keep_bind; [apply keeps_get|]. intros m. destruct (p =? 0); [by intros s b s'|].
  destruct (m !! p); simpl; [apply keep_ret|by intros s b s'].
Qed.

Lemma keeps_store p t t' s u s' : sc_tasks s !! p = Some t → pinfo t' = pinfo t → store_task p t' s = Ok (u, s') → same_info s s'.
Proof.
  intros Ht Hp H x. unfold store_task, load_task, mbind, M_bind, get in H.
  destruct (p =? 0); [done|]. rewrite Ht in H. cbn in H. injection H as <- <-. cbn.
  destruct (decide (p = x)) as [<-|Hne]; [by rewrite lookup_insert_eq, Ht; simpl; rewrite Hp|by rewrite lookup_insert_ne].
Qed.

Lemma load_inv p s t s' : load_task p s = Ok (t, s') → s' = s ∧ sc_tasks s !! p = Some t.
Proof.
  unfold load_task, mbind, M_bind, get. destruct (p =? 0); [done|].
  destruct (sc_tasks s !! p) eqn:E; [|done]. by intros [= <- <-].
Qed.

(** Replacing a task by one with the same fields. *)
Lemma keeps_edit p (f : task → task) : (∀ t, pinfo (f t) = pinfo t) → keeps (t ← load_task p; store_task p (f t)).
Proof.
  intros Hf s u s' H. unfold mbind, M_bind in H. destruct (load_task p s) as [[t s1]| |] eqn:E; [|done..].
  apply load_inv in E as [-> Ht]. exact (keeps_store _ _ _ _ _ _ Ht (Hf t) H).
Qed.

Lemma keeps_next p v : keeps (set_task_next p v).
Proof. by apply (keeps_edit p (λ t, with_next t v)). Qed.

Lemma keeps_set_list w task : keeps (set_list w task).
Proof. apply keeps_modify. intros s. by destruct w. Qed.

#[export] Hint Resolve keep_ret keeps_get keeps_load keeps_next keeps_set_list : keeps.

Ltac keeps :=
  repeat lazymatch goal with
  | |- keeps (mbind _ _) => apply keep_bind; [|intros ?]
  | |- keeps (loop _ _ _) => apply keep_loop; intros ?
  | |- keeps (modify _) => by apply keeps_modify; intros []
  | |- keeps (match _ with _ => _ end) => case_match
  | |- keeps _ => by auto with keeps
  end.

Lemma keeps_add w task : keeps (add_to_list w task).
Proof. unfold add_to_list. keeps. Qed.

Lemma keeps_remove w task : keeps (remove_from_list w task).
Proof. unfold remove_from_list. keeps. Qed.

Lemma keeps_find w pid : keeps (find_task_in_list_by_pid w pid).
Proof. unfold find_task_in_list_by_pid. keeps. Qed.

#[export] Hint Resolve keeps_add keeps_remove keeps_find : keeps.

Lemma keeps_get_next : keeps get_next_task.
Proof. unfold get_next_task, get_next_from_list. keeps; by apply keeps_modify. Qed.

Lemma keeps_switch next : keeps (switch_task next).
Proof.
  unfold switch_task. apply keep_bind; [keeps|]. intros previous. do 2 (case_match; [keeps|]).
  intros s u s' Hs. unfold mbind, M_bind in Hs. destruct (load_task next s) as [[t s1]| |] eqn:E; [|done..].
  apply load_inv in E as [-> Ht]. destruct (store_task next (with_sliceused t 0) s) as [[v s2]| |] eqn:E2; [|done..].
  injection Hs as <- <-. exact (keeps_store _ _ (with_sliceused t 0) _ _ _ Ht eq_refl E2).
Qed.

#[export] Hint Resolve keeps_get_next keeps_switch : keeps.

Lemma keeps_schedule : keeps schedule.
Proof. unfold schedule, lock_scheduler, unlock_scheduler. keeps. Qed.

#[export] Hint Resolve keeps_schedule : keeps.

Lemma keeps_block pid : keeps (task_block pid).
Proof. unfold task_block, lock_scheduler, unlock_scheduler. keeps. Qed.

Lemma keeps_resume pid : keeps (task_resume pid).
Proof. unfold task_resume, lock_scheduler, unlock_scheduler. keeps. Qed.

(** ** Running tasks *)

(** The running task is ready, and the round robin has moved past it. *)
Definition runs (s : sched) (R : list Z) : Prop := g_runningtask s ∈ R ∧ l_next (ready_list s) ≠ g_runningtask s.

(** The tasks that are next are the end of the ready list. *)
Lemma cursor_suffix l s : list_at Ready s l → l_next (ready_list s) ∈ 0 :: l →
  ∃ b pre, cursor s b ∧ l = pre ++ pending l b.
Proof.
  intros [Hl _] [E|Hin]%elem_of_cons; [by exists [], []|].
  apply list_elem_of_split in Hin as (u & v & E). rewrite E in Hl. apply tchain_app in Hl as (q & Hq & _).
  exists (l_next (ready_list s) :: v), u. split; [|done]. unfold cursor. destruct Hq as (-> & Hq). by split.
Qed.

Lemma suffix_next (l pre c : list Z) x : l = pre ++ x :: c → NoDup l → x ≠ 0 → x ∈ l ∧ hd 0 c ∈ 0 :: l ∧ hd 0 c ≠ x.
Proof.
  intros -> Hd Hx. apply NoDup_app in Hd as (_ & _ & Hd). apply NoDup_cons in Hd as [Hxc _].
  split; [set_solver|]. destruct c as [|y c]; [set_solver|]. simpl. set_solver.
Qed.

Lemma next_ready s R S B : sched_ok s R S B → R ≠ [] →
  ∃ x n, get_next_task s = Ok (x, with_list Ready (TaskList (l_head (ready_list s)) n) s) ∧ x ∈ R ∧ x ≠ 0 ∧ n ∈ 0 :: R ∧ n ≠ x.
Proof.
  intros Hok Hne. pose proof (ok_list_ready _ _ _ _ Hok) as Hl.
  destruct (cursor_suffix _ _ Hl (ok_cursor _ _ _ _ Hok)) as (b & pre & Hc & E).
  destruct (pending R b) as [|x c] eqn:Ep; [by destruct b|].
  destruct (pending_chain _ _ _ _ _ Hl Hc Ep) as (Hx & _ & _). destruct (suffix_next _ _ _ _ E (proj2 Hl) Hx) as (? & ? & ?).
  exists x, (hd 0 c). split_and!; try done. by apply (get_next_task_ok R b).
Qed.

(** Moving the cursor inside the list keeps the invariant. *)
Lemma sched_ok_cursor s R S B n : sched_ok s R S B → n ∈ 0 :: R → sched_ok (with_list Ready (TaskList (l_head (ready_list s)) n) s) R S B.
Proof. intros [] Hn. by constructor. Qed.

Lemma switch_sched_ok s R S B x : sched_ok s R S B → x ∈ R →
  ∃ s', switch_task x s = Ok (tt, s') ∧ sched_ok s' R S B ∧ g_runningtask s' = x ∧ ready_list s' = ready_list s ∧
    scheduler_locks s' = scheduler_locks s.
Proof.
  intros Hok Hx. destruct (tchain_in _ _ _ x (ok_ready _ _ _ _ Hok) Hx) as (Hx0 & t & Ht).
  destruct (wp_run _ _ _ (switch_task_ok x t s Hx0 Ht)) as ([] & s' & E & Hch & Hr & Hls & Hlk & _).
  exists s'. pose proof (Hls Ready) as H1. pose proof (Hls Sleep) as H2. pose proof (Hls Blocked) as H3. simpl in *.
  split_and!; try done. destruct Hok. constructor; rewrite ?H1, ?H2, ?H3, ?Hlk; try done; try by apply Hch.
  by apply (same_chains_pids _ _ Hch).
Qed.

Lemma schedule_runs s R S B : sched_ok s R S B → R ≠ [] →
  ∃ s', schedule s = Ok (tt, s') ∧ sched_ok s' R S B ∧ runs s' R ∧ scheduler_locks s' = scheduler_locks s.
Proof.
  intros Hok Hne. set (s1 := with_locks (u32 (scheduler_locks s + 1)) false s).
  assert (Hok1 : sched_ok s1 R S B) by (apply with_locks_ok; [done|apply u32_range]).
  destruct (next_ready _ _ _ _ Hok1 Hne) as (x & n & E & Hx & Hx0 & Hn & Hnx).
  destruct (switch_sched_ok _ _ _ _ x (sched_ok_cursor _ _ _ _ n Hok1 Hn) Hx) as (s2 & E2 & Hok2 & Hr & Hl & Hlk).
  assert (Hlk2 : u32 (scheduler_locks s2 - 1) = scheduler_locks s) by (rewrite Hlk; apply u32_lock, Hok).
  eexists. split; [|split; [|split]].
  - unfold schedule. rewrite (bind_ok _ _ _ tt s1) by done. rewrite (bind_ok _ _ _ _ _ E).
    rewrite (proj2 (Z.eqb_neq _ _) Hx0), (bind_ok _ _ _ _ _ E2). reflexivity.
  - apply with_locks_ok; [done|apply u32_range].
  - split; [by simpl; rewrite Hr|]. simpl. by rewrite Hr, Hl.
  - exact Hlk2.
Qed.

Lemma remove_ready_ok s S B a x b : sched_ok s (a ++ x :: b) S B → a = [] ∨ l_next (ready_list s) ≠ x →
  ∃ s', remove_from_list Ready x s = Ok (0, s') ∧ sched_ok s' (a ++ b) S B ∧ g_runningtask s' = g_runningtask s ∧
    scheduler_locks s' = scheduler_locks s.
Proof.
  intros Hok Hcur. pose proof (ok_nodup _ _ _ _ Hok) as Hnd.
  destruct (wp_run _ _ _ (remove_from_list_present Ready x a b s (ok_list_ready _ _ _ _ Hok))) as (r & s' & E & -> & m' & Hr & -> & Hl').
  assert (Hk : ∀ p k, (∀ y, y ∈ k → y ∈ S ++ B) → tchain (sc_tasks s) p k → tchain m' p k).
  { intros p k Hk. apply (relinked_chain _ _ _ _ _ Hr). intros y Hy Hya. apply (nodup_disjoint _ _ y Hnd); [set_solver|by apply Hk]. }
  eexists. split; [exact E|]. split; [|done]. destruct Hok. constructor; simpl in *; try done.
  - apply Hl'.
  - apply Hk; [set_solver|done].
  - apply Hk; [set_solver|done].
  - rewrite <- !app_assoc in *. apply NoDup_app in Hnd as (H1 & H2 & H3). apply NoDup_cons in H3 as [_ H3].
    apply NoDup_app. split_and!; [done|intros y Hy; specialize (H2 y Hy); set_solver|done].
  - destruct a as [|y a]; simpl; [destruct b; set_solver|]. destruct Hcur as [?|Hcur]; [done|]. set_solver.
  - by apply (relinked_pids a (sc_tasks s)).
Qed.

(** ** Waiting and exiting *)

Definition pid_of (s : sched) (x : Z) : option Z := t_pid <$> sc_tasks s !! x.

(** [y] is the only task on the lists with its pid. *)
Definition only (s : sched) (l : list Z) (y p : Z) : Prop := pid_of s y = Some p ∧ ∀ z, z ∈ l → pid_of s z = Some p → z = y.

Lemma same_info_pid s s' x : same_info s s' → pid_of s' x = pid_of s x.
Proof.
  intros H. specialize (H x). unfold pid_of.
  destruct (sc_tasks s' !! x), (sc_tasks s !! x); simpl in *; try done. unfold pinfo in H. congruence.
Qed.

Lemma only_same s s' l y p : same_info s s' → only s l y p → only s' l y p.
Proof. intros H [Hy Ho]. split; [by rewrite (same_info_pid _ _ _ H)|]. intros z Hz. rewrite (same_info_pid _ _ _ H). by apply Ho. Qed.

Lemma first_pid_only s a y b p : only s (a ++ y :: b) y p → y ∉ a → first_pid (sc_tasks s) (a ++ y :: b) p = y.
Proof. intros [Hy Ho] Hya. apply first_pid_unique; [done|]. intros z Hz E. apply Hya. by rewrite <- (Ho z ltac:(set_solver) E). Qed.

Lemma block_runs s S B a x b p : sched_ok s (a ++ x :: b) S B → only s (a ++ x :: b) x p →
  a = [] ∨ l_next (ready_list s) ≠ x → a ++ b ≠ [] →
  ∃ s', task_block p s = Ok (0, s') ∧ sched_ok s' (a ++ b) S (B ++ [x]) ∧ runs s' (a ++ b) ∧ scheduler_locks s' = scheduler_locks s.
Proof.
  intros Hok Ho Hcur Hne. set (s1 := with_locks (u32 (scheduler_locks s + 1)) false s).
  assert (Hok1 : sched_ok s1 (a ++ x :: b) S B) by (apply with_locks_ok; [done|apply u32_range]).
  pose proof (ok_list_ready _ _ _ _ Hok) as [Hc Hnd]. destruct (tchain_in _ _ _ x Hc) as (Hx & _); [set_solver|].
  assert (Hxa : x ∉ a) by (apply NoDup_app in Hnd as (_ & Hd & _); intros Hin; apply (Hd x Hin); set_solver).
  destruct (wp_run _ _ _ (block_move_ok _ S B a b x s1 eq_refl Hok1 Hcur)) as (r & s2 & E2 & -> & Hadd).
  destruct (wp_run _ _ _ Hadd) as ([] & s3 & E3 & Hok3 & Hlk3 & _).
  set (s4 := with_locks (u32 (scheduler_locks s3 - 1)) (if u32 (scheduler_locks s3 - 1) =? 0 then true else interrupts s3) s3).
  assert (Hlk4 : scheduler_locks s4 = scheduler_locks s) by (unfold s4; simpl; rewrite Hlk3; apply u32_lock, Hok).
  destruct (schedule_runs s4 (a ++ b) S (B ++ [x])) as (s5 & E5 & Hok5 & Hr5 & Hlk5); [apply with_locks_ok; [done|apply u32_range]|done|].
  exists s5. split_and!; try done; [|by rewrite Hlk5]. unfold task_block. rewrite (bind_ok _ _ _ tt s1) by done.
  rewrite (bind_ok _ _ _ x s1).
  2: { rewrite (find_task_in_list_by_pid_ok _ _ _ _ (ok_list_ready _ _ _ _ Hok1)). by rewrite (first_pid_only s). }
  rewrite (proj2 (Z.eqb_neq _ _) Hx), (bind_ok _ _ _ _ _ E2). cbn. rewrite (bind_ok _ _ _ _ _ E3).
  rewrite (bind_ok _ _ _ tt s4) by done. by rewrite (bind_ok _ _ _ _ _ E5).
Qed.

Lemma find_blocked s R S B y p : sched_ok s R S B → only s (R ++ S ++ B) y p → y ∈ B → find_task_by_pid p s = Ok (y, s).
Proof.
  intros Hok [Hy Ho] HyB. pose proof (ok_nodup _ _ _ _ Hok) as Hnd.
  assert (HyRS : y ∉ R ∧ y ∉ S).
  { apply NoDup_app in Hnd as (_ & H1 & H2). apply NoDup_app in H2 as (_ & H2 & _). split; intros Hin; [apply (H1 y Hin)|apply (H2 y Hin)]; set_solver. }
  assert (Hsleep : list_at Sleep s S).
  { split; [apply Hok|]. apply NoDup_app in Hnd as (_ & _ & Hnd). by apply NoDup_app in Hnd as [? _]. }
  assert (Hnone : ∀ l, l ⊆ R ++ S ++ B → y ∉ l → first_pid (sc_tasks s) l p = 0).
  { intros l Hl Hyl. apply first_pid_none. intros z Hz E. apply Hyl. by rewrite <- (Ho z (Hl z Hz) E). }
  pose proof (ok_list_blocked _ _ _ _ Hok) as Hb. apply list_elem_of_split in HyB as (c & d & ->).
  destruct (tchain_in _ _ _ y (ok_blocked _ _ _ _ Hok)) as (Hy0 & _); [set_solver|].
  unfold find_task_by_pid. rewrite (bind_ok _ _ _ _ _ (find_task_in_list_by_pid_ok _ p _ _ (ok_list_ready _ _ _ _ Hok))).
  rewrite (Hnone R) by set_solver. cbn. rewrite (bind_ok _ _ _ _ _ (find_task_in_list_by_pid_ok _ p _ _ Hsleep)).
  rewrite (Hnone S) by set_solver. cbn. rewrite (find_task_in_list_by_pid_ok _ p _ _ Hb), first_pid_only; [done| |].
  - split; [done|]. intros z Hz. apply Ho. set_solver.
  - destruct Hb as [_ Hb]. apply NoDup_app in Hb as (_ & Hb & _). intros Hin. apply (Hb y Hin). set_solver.
Qed.

(** Changing one task so that its place and its pid stay. *)
Lemma only_store s l y p x t t' : sc_tasks s !! x = Some t → t_pid t' = t_pid t → only s l y p →
  only (with_tasks (<[x := t']> (sc_tasks s)) s) l y p.
Proof.
  intros Ht Hp Ho. assert (H : ∀ z, pid_of (with_tasks (<[x := t']> (sc_tasks s)) s) z = pid_of s z).
  { intros z. unfold pid_of. simpl. destruct (decide (x = z)) as [<-|]; [by rewrite lookup_insert_eq, Ht; simpl; rewrite Hp|by rewrite lookup_insert_ne]. }
  destruct Ho as [Hy Ho]. split; [by rewrite H|]. intros z Hz. rewrite H. by apply Ho.
Qed.

(** The records after the exit of [x] whose parent is [y]: [x] is a zombie and [y] has a
    child less. *)
Definition exited (x y : Z) (s s' : sched) : Prop := ∀ z,
  pinfo <$> sc_tasks s' !! z =
  (λ '(pid, parent, children, state),
     if z =? x then (pid, parent, children, TASK_ZOMBIE)
     else if z =? y then (pid, parent, s32 (children - 1), state) else (pid, parent, children, state)) <$> (pinfo <$> sc_tasks s !! z).

Lemma exited_same x y s0 s s1 s' : same_info s0 s → exited x y s s1 → same_info s1 s' → exited x y s0 s'.
Proof. intros H0 H H1 z. by rewrite (H1 z), (H z), (H0 z). Qed.

Lemma kill_run s S a b c d x y tx ty : sched_ok s (a ++ x :: b) S (c ++ y :: d) → g_runningtask s = x →
  a = [] ∨ l_next (ready_list s) ≠ x → sc_tasks s !! x = Some tx → sc_tasks s !! y = Some ty → t_parent tx ≠ 0 →
  only s ((a ++ x :: b) ++ S ++ c ++ y :: d) y (t_parent tx) →
  ∃ s', kill_proc x s = Ok (tt, s') ∧ sched_ok s' (a ++ b ++ [y]) S (c ++ d) ∧ runs s' (a ++ b ++ [y]) ∧ exited x y s s' ∧
    scheduler_locks s' = scheduler_locks s.
Proof.
  intros Hok Hrun Hcur Hx Hy Hp Ho. set (p := t_parent tx) in *. pose proof (ok_nodup _ _ _ _ Hok) as Hnd.
  assert (Hxy : x ≠ y) by (intros ->; apply (nodup_disjoint _ _ y Hnd); set_solver).
  assert (Hyc : y ∉ c).
  { destruct (ok_list_blocked _ _ _ _ Hok) as [_ H]. apply NoDup_app in H as (_ & H & _). intros Hin. apply (H y Hin). set_solver. }
  destruct (tchain_in _ _ _ x (ok_ready _ _ _ _ Hok)) as (Hx0 & _); [set_solver|].
  destruct (tchain_in _ _ _ y (ok_blocked _ _ _ _ Hok)) as (Hy0 & _); [set_solver|].
  set (s1 := with_tasks (<[x := with_state tx TASK_ZOMBIE]> (sc_tasks s)) s).
  assert (Hok1 : sched_ok s1 (a ++ x :: b) S (c ++ y :: d)) by by eapply sched_ok_store.
  assert (Ho1 : only s1 ((a ++ x :: b) ++ S ++ c ++ y :: d) y p) by by eapply only_store.
  assert (Hy1 : sc_tasks s1 !! y = Some ty) by (unfold s1; simpl; by rewrite lookup_insert_ne).
  set (s2 := with_tasks (<[y := with_childamount ty (s32 (t_childamount ty - 1))]> (sc_tasks s1)) s1).
  assert (Hok2 : sched_ok s2 (a ++ x :: b) S (c ++ y :: d)) by by eapply sched_ok_store.
  assert (Ho2 : only s2 ((a ++ x :: b) ++ S ++ c ++ y :: d) y p) by by eapply only_store.
  destruct (task_resume_correct _ S c d y p s2 Hok2) as (s3 & E3 & Hok3 & Hlk3 & Hrun3 & Hnx3).
  { apply first_pid_only; [|done]. destruct Ho2 as [? Ho2]. split; [done|]. intros z Hz. apply Ho2. set_solver. }
  rewrite <- app_assoc in Hok3. simpl in Hok3.
  destruct (remove_ready_ok s3 S (c ++ d) a x (b ++ [y]) Hok3) as (s4 & E4 & Hok4 & Hrun4 & Hlk4).
  { destruct Hcur as [->|Hcur]; [by left|right]. rewrite Hnx3; [done|]. by destruct a. }
  destruct (next_ready s4 _ S (c ++ d) Hok4) as (n & k & E5 & Hn & Hn0 & Hk & Hkn); [by destruct a, b|].
  destruct (switch_sched_ok _ _ _ _ n (sched_ok_cursor _ _ _ _ k Hok4 Hk) Hn) as (s6 & E6 & Hok6 & Hr6 & Hl6 & Hlk6).
  exists s6. split; [|split; [done|split; [|split]]].
  - unfold kill_proc. rewrite (bind_ok _ _ _ _ _ (load_task_ok _ _ _ Hx Hx0)).
    rewrite (bind_ok _ _ _ _ _ (store_task_ok _ _ _ _ Hx Hx0)). fold s1 p. rewrite (proj2 (Z.eqb_neq _ _) Hp).
    rewrite (bind_ok _ _ _ tt s3).
    2: { rewrite (bind_ok _ _ _ _ _ (find_blocked _ _ _ _ _ _ Hok1 Ho1 ltac:(set_solver))).
         rewrite (bind_ok _ _ _ _ _ (load_task_ok _ _ _ Hy1 Hy0)), (bind_ok _ _ _ _ _ (store_task_ok _ _ _ _ Hy1 Hy0)).
         fold s2. by rewrite (bind_ok _ _ _ _ _ E3). }
    unfold remove_from_ready_list. rewrite (bind_ok _ _ _ _ _ E4), (bind_ok _ _ _ x s4).
    2: { unfold get_current_task, get. by rewrite Hrun4, Hrun3, <- Hrun. }
    rewrite Z.eqb_refl. by rewrite (bind_ok _ _ _ _ _ E5).
  - split; [by rewrite Hr6|]. rewrite Hr6, Hl6. done.
  - apply (exited_same _ _ _ s s2).
    + done.
    + intros z. unfold s2, s1. simpl. destruct (Z.eqb_spec z x) as [->|Hzx]; [|destruct (Z.eqb_spec z y) as [->|Hzy]].
      * by rewrite lookup_insert_ne, lookup_insert_eq, Hx by done.
      * by rewrite lookup_insert_eq, Hy.
      * rewrite !lookup_insert_ne by done. by destruct (sc_tasks s !! z).
    + intros z. rewrite (keeps_switch n _ _ _ E6 z), (keeps_get_next _ _ _ E5 z), (keeps_remove _ _ _ _ _ E4 z). apply (keeps_resume _ _ _ _ E3 z).
  - rewrite Hlk6. cbn. by rewrite Hlk4, Hlk3.
Qed.

(** A timer tick that runs another task. *)
Definition tick (s s' : sched) : Prop := schedule s = Ok (tt, s').

Lemma ticks_ok s s' R S B : rtc tick s s' → sched_ok s R S B → runs s R →
  sched_ok s' R S B ∧ runs s' R ∧ same_info s s'.
Proof.
  induction 1 as [s|s s1 s' Ht _ IH]; intros Hok Hr; [done|]. assert (Hne : R ≠ []) by (destruct Hr as [Hr _]; intros ->; by apply not_elem_of_nil in Hr).
  destruct (schedule_runs _ _ _ _ Hok Hne) as (s2 & E & Hok2 & Hr2 & _). unfold tick in Ht. rewrite E in Ht. injection Ht as ->.
  destruct (IH Hok2 Hr2) as (? & ? & Hi). split_and!; try done. intros x. by rewrite (Hi x), (keeps_schedule _ _ _ E x).
Qed.

Lemma on_sched_ok {A} (c : M sched A) s a t : c (pr_sched s) = Ok (a, t) →
  on_sched c s = Ok (a, Proc (pr_mem s) (pr_mm s) t (pr_time s) (g_system s)).
Proof. unfold on_sched. by intros ->. Qed.

Lemma on_sched_read {A} (c : M sched A) s a : c (pr_sched s) = Ok (a, pr_sched s) → on_sched c s = Ok (a, s).
Proof. intros E. rewrite (on_sched_ok _ _ _ _ E). by destruct s. Qed.

Lemma on_pram_ok {A} (c : M bmem A) s a m : c (pr_mem s) = Ok (a, m) →
  on_pram c s = Ok (a, Proc m (pr_mm s) (pr_sched s) (pr_time s) (g_system s)).
Proof. intros E. unfold on_pram, on_heap, on_mem. by rewrite E. Qed.

Lemma current_ok s t : sc_tasks s !! g_runningtask s = Some t → g_runningtask s ≠ 0 → current s = Ok (t, s).
Proof. intros Ht H0. unfold current. rewrite (bind_ok _ _ _ (g_runningtask s) s) by done. by apply load_task_ok. Qed.

(** C8: Waiting for a child.  [sys_wait] of a running task with children clears the status,
    blocks the task and lets another ready task run.  Whatever the timer schedules then,
    when a child of the task runs and calls [sys_exit], the call gives the processor away:
    the child is a zombie on no list, the parent is at the end of the ready list with one
    child less, and the other tasks are as they were. *)
Theorem wait_exit (s : proc) status a y b S B ty :
  sched_ok (pr_sched s) (a ++ y :: b) S B → g_runningtask (pr_sched s) = y →
  a = [] ∨ l_next (ready_list (pr_sched s)) ≠ y → a ++ b ≠ [] →
  sc_tasks (pr_sched s) !! y = Some ty → t_childamount ty ≠ 0 → t_pid ty ≠ 0 →
  only (pr_sched s) ((a ++ y :: b) ++ S ++ B) y (t_pid ty) → mapped (pr_mem s) status 4 →
  ∃ s1, sys_wait status s = Ok (0, s1) ∧ pr_mem s1 = write_at (pr_mem s) status [0; 0; 0; 0] ∧
    sched_ok (pr_sched s1) (a ++ b) S (B ++ [y]) ∧ g_runningtask (pr_sched s1) ∈ a ++ b ∧
    ∀ s2 x tx, rtc tick (pr_sched s1) (pr_sched s2) → g_runningtask (pr_sched s2) = x →
      sc_tasks (pr_sched s) !! x = Some tx → t_parent tx = t_pid ty →
      ∃ s3 R, sys_exit s2 = Ok (tt, s3) ∧ a ++ b ≡ₚ x :: R ∧ sched_ok (pr_sched s3) (R ++ [y]) S B ∧
        g_runningtask (pr_sched s3) ∈ R ++ [y] ∧ exited x y (pr_sched s) (pr_sched s3).
Proof.
  intros Hok Hrun Hcur Hne Hy Hch Hp Ho Hst. set (sc := pr_sched s) in *.
  destruct (tchain_in _ _ _ y (ok_ready _ _ _ _ Hok)) as (Hy0 & _); [set_solver|].
  destruct (block_runs sc S B a y b (t_pid ty) Hok) as (sc1 & E & Hok1 & Hr1 & _); try done.
  { destruct Ho as [? Ho]. split; [done|]. intros z Hz. apply Ho. set_solver. }
  pose proof (current_ok sc ty ltac:(by rewrite Hrun) ltac:(by rewrite Hrun)) as Hc.
  assert (Hw : task_wait sc = Ok (0, sc1)).
  { unfold task_wait. rewrite (bind_ok _ _ _ (g_runningtask sc) sc) by done. rewrite Hrun.
    rewrite (bind_ok _ _ _ _ _ (load_task_ok _ _ _ Hy Hy0)), (proj2 (Z.eqb_neq _ _) Hch). cbn [negb].
    rewrite (bind_ok _ _ _ (t_pid ty) sc); [by rewrite (bind_ok _ _ _ _ _ E)|].
    unfold getpid. rewrite (bind_ok _ _ _ y sc) by (unfold get; by rewrite Hrun). by rewrite (bind_ok _ _ _ _ _ (load_task_ok _ _ _ Hy Hy0)). }
  set (s1 := Proc (write_at (pr_mem s) status [0; 0; 0; 0]) (pr_mm s) sc1 (pr_time s) (g_system s)). exists s1.
  split; [|split; [done|split; [done|split; [apply Hr1|]]]].
  { unfold sys_wait. rewrite (bind_ok _ _ _ _ _ (on_sched_read _ _ _ Hc)), (proj2 (Z.eqb_neq _ _) Hch). cbn [negb].
    rewrite (bind_ok _ _ _ _ _ (on_pram_ok _ _ _ _ (store32_run _ _ _ Hst))).
    by rewrite (bind_ok _ _ _ _ _ (on_sched_ok _ (Proc _ _ _ _ _) _ _ Hw)). }
  intros s2 x tx Ht Hx Htx Hpar. destruct (ticks_ok _ _ _ _ _ Ht Hok1 Hr1) as (Hok2 & [Hin Hnx] & Hi2).
  assert (Hi : same_info sc (pr_sched s2)) by (intros z; rewrite (Hi2 z); apply (keeps_block _ _ _ _ E z)).
  rewrite Hx in Hin, Hnx. apply list_elem_of_split in Hin as (a' & b' & Eab). rewrite Eab in Hok2.
  destruct (tchain_in _ _ _ x (ok_ready _ _ _ _ Hok2)) as (Hx0 & tx2 & Htx2); [set_solver|].
  destruct (tchain_in _ _ _ y (ok_blocked _ _ _ _ Hok2)) as (_ & ty2 & Hty2); [set_solver|].
  assert (Hpi : pinfo tx2 = pinfo tx) by (pose proof (Hi x) as H; rewrite Htx, Htx2 in H; by apply (inj Some)). unfold pinfo in Hpi.
  assert (Epar : t_parent tx2 = t_pid ty) by congruence.
  destruct (kill_run (pr_sched s2) S a' b' B [] x y tx2 ty2 Hok2 Hx (or_intror Hnx) Htx2 Hty2) as (sc3 & Ek & Hok3 & Hr3 & He & _).
  { by rewrite Epar. }
  { rewrite Epar. apply (only_same sc); [done|]. destruct Ho as [? Ho]. split; [done|]. intros z Hz. apply Ho.
    rewrite <- Eab in Hz. set_solver. }
  rewrite app_nil_r in Hok3. rewrite app_assoc in Hok3, Hr3.
  exists (Proc (pr_mem s2) (pr_mm s2) sc3 (pr_time s2) (g_system s2)), (a' ++ b'). split_and!.
  - unfold sys_exit. rewrite (bind_ok _ _ _ SigIgnored s2).
    2: { unfold on_sched, send_sig, send_task_signal. rewrite (bind_ok _ _ _ x (pr_sched s2)) by (unfold get_current_task, get; by rewrite Hx).
         rewrite (proj2 (Z.eqb_neq _ _) Hx0). cbn. by destruct s2. }
    rewrite (bind_ok _ _ _ x s2) by (unfold on_sched, get_current_task, get; rewrite Hx; by destruct s2).
    rewrite (bind_ok _ _ _ _ _ (on_sched_ok _ _ _ _ Ek)). destruct Hr3 as [Hr3 _].
    rewrite (bind_ok _ _ _ (g_runningtask sc3) (Proc (pr_mem s2) (pr_mm s2) sc3 (pr_time s2) (g_system s2))) by done.
    destruct (Z.eqb_spec (g_runningtask sc3) x) as [Ex|]; [|done]. exfalso. rewrite Ex in Hr3.
    pose proof (ok_nodup _ _ _ _ Hok2) as Hnd. rewrite <- Permutation_middle in Hnd. apply NoDup_cons in Hnd as [Hnd _].
    apply Hnd. rewrite !elem_of_app in *. tauto.
  - rewrite Eab. symmetry. apply Permutation_middle.
  - done.
  - apply Hr3.
  - by apply (exited_same _ _ _ (pr_sched s2) sc3).
Qed.

(** ** The program break *)

(** The page keeps its frame with new rights, or gets one that was free. *)
Definition given (s : mm) (kernel : Z) (p p' : page) (s' : mm) : Prop :=
  (pg_frame p ≠ 0 ∧ p' = set_frame_flags p kernel 1) ∨
  (pg_frame p = 0 ∧ ∃ f, 0 ≤ f < frame_limit (mm_frames s) ∧ used (g_frames (mm_frames s)) f = false ∧
     used (g_frames (mm_frames s')) f = true ∧ p' = Page 1 1 (not_flag kernel) (pg_accessed p) (pg_dirty p) (pg_unused p) f).

Section sbrk.
Context (I : Z → mm → Prop) `{TA : !TableAllocator I}.
Variables (s0 : mm) (dir kernel v : Z).
Hypothesis few_frames : g_nframes (mm_frames s0) ≤ 1048576.

(** After the pages [v], ..., [v + n - 1]. *)
Record grown (n : Z) (s : mm) : Prop := Grown {
  gr_inv : I dir s;
  gr_frames : frames_ok (mm_frames s);
  gr_nframes : g_nframes (mm_frames s) = g_nframes (mm_frames s0);
  gr_used : ∀ j, 0 ≤ j → used (g_frames (mm_frames s0)) j = true → used (g_frames (mm_frames s)) j = true;
  gr_given : ∀ u, v ≤ u < v + n → given s0 kernel (pte0 s0 dir u) (pte0 s dir u) s;
  gr_others : ∀ u, 0 ≤ u → ¬ kheap_page u → ¬ v ≤ u < v + n → pte0 s dir u = pte0 s0 dir u;
  gr_apart : ∀ u w, v ≤ u < w → w < v + n → pg_frame (pte0 s0 dir u) = 0 → pg_frame (pte0 s0 dir w) = 0 →
    pg_frame (pte0 s dir u) ≠ pg_frame (pte0 s dir w)
}.

(** Every frame is in use. *)
Definition no_frames (s : mm) : Prop := ∀ j, 0 ≤ j < frame_limit (mm_frames s) → used (g_frames (mm_frames s)) j = true.

Lemma flagforce_spec f p : frames_ok f → g_nframes f ≤ 1048576 →
  wp (flagforce_alloc_frame p kernel 1) (λ '(r, p') f',
    (r = 0 ∧ f' = f ∧ pg_frame p ≠ 0 ∧ p' = set_frame_flags p kernel 1) ∨
    (r = 0 ∧ pg_frame p = 0 ∧ frame_taken f p kernel 1 p' f') ∨
    (r = -1 ∧ lowest_free f (-1) ∧ g_frames f' = g_frames f ∧ g_nframes f' = g_nframes f)) f.
Proof.
  intros Hf Hn. unfold flagforce_alloc_frame. destruct (decide (pg_frame p = 0)) as [Hp|Hp].
  - wp_step. eapply wp_mono; [by apply alloc_frame_spec|]. intros [r p'] f' [(-> & -> & Hl & ->)|(-> & Ht)]; apply wp_ret; eauto 6.
  - wp_step. eapply run_wp; [by apply alloc_frame_mapped|]. apply wp_ret. by left.
Qed.

Lemma given_mono p p' s s' : (∀ j, 0 ≤ j → used (g_frames (mm_frames s)) j = true → used (g_frames (mm_frames s')) j = true) →
  given s0 kernel p p' s → given s0 kernel p p' s'.
Proof. intros Hm [H|(Hp & f & Hf & H1 & H2 & H3)]; [by left|right]. split; [done|]. exists f. split_and!; try done; try lia. apply Hm; [lia|done]. Qed.

Lemma bound_frame g p f : g_nframes f ≤ 1048576 → 0 ≤ g < frame_limit f → pg_frame (bind_page p kernel 1 g) = g.
Proof.
  intros Hn Hg. simpl. change 1048575 with (Z.ones 20). rewrite Z.land_ones by lia. apply Z.mod_small.
  unfold frame_limit in Hg. pose proof (Z.mul_div_le (g_nframes f) 32). lia.
Qed.

(** One more page. *)
Lemma grown_next n s s' : grown n s → 0 ≤ v → 0 ≤ n → (∀ u, v ≤ u ≤ v + n → ¬ kheap_page u) →
  I dir s' → frames_ok (mm_frames s') → g_nframes (mm_frames s') = g_nframes (mm_frames s) →
  (∀ j, 0 ≤ j → used (g_frames (mm_frames s)) j = true → used (g_frames (mm_frames s')) j = true) →
  (∀ u, 0 ≤ u → ¬ kheap_page u → u ≠ v + n → pte0 s' dir u = pte0 s dir u) →
  given s0 kernel (pte0 s0 dir (v + n)) (pte0 s' dir (v + n)) s' →
  (pg_frame (pte0 s0 dir (v + n)) = 0 → used (g_frames (mm_frames s)) (pg_frame (pte0 s' dir (v + n))) = false) →
  grown (n + 1) s'.
Proof.
  intros [HI Hf Hn Hu Hg Ho Ha] Hv Hn0 Hk HI' Hf' Hn' Hm Hp Hgn Hfree. split; try done.
  - by rewrite Hn'.
  - intros j Hj Hj'. apply Hm; [done|]. by apply Hu.
  - intros u Hu'. destruct (decide (u = v + n)) as [->|]; [done|]. rewrite Hp by (try apply Hk; lia).
    apply (given_mono _ _ s); [done|]. apply Hg. lia.
  - intros u Hu0 Hku Hout. rewrite Hp by (done || lia). apply Ho; [done|done|lia].
  - intros u w Huw Hw Hu0 Hw0. rewrite (Hp u) by (try apply Hk; lia). destruct (decide (w = v + n)) as [->|].
    + intros E. destruct (Hg u ltac:(lia)) as [[Hz _]|(_ & f & Hfl & _ & Hus & Ef)]; [by rewrite Hu0 in Hz|].
      rewrite <- E, Ef in Hfree by done. simpl in Hfree. rewrite Hus in Hfree by done. by specialize (Hfree Hw0).
    + rewrite (Hp w) by (try apply Hk; lia). apply Ha; [lia|lia|done|done].
Qed.

Lemma sbrk_page_step n s i : grown n s → 0 ≤ i < 4294967296 → i / 4096 = v + n → 0 ≤ n → 0 ≤ v →
  (∀ u, v ≤ u ≤ v + n → ¬ kheap_page u) →
  wp (sbrk_page dir kernel i) (λ r s', (r = None ∧ grown (n + 1) s') ∨ (r = Some (-1) ∧ no_frames s')) s.
Proof.
  intros Hgrown Hi Eq Hn0 Hv Hk. pose proof Hgrown as [HI [Hws Hnf Hlen] Hn Hu Hg Ho Ha]. unfold sbrk_page. wp_step.
  eapply wp_mono; [by eapply get_page_spec|]. intros r s1 (HI1 & [Hx1 Hx2 Hx3 Hxn Hx4 Hx5] & Hr). rewrite Eq in Hr.
  destruct (ta_dir _ _ HI1) as [Hok1 _].
  assert (Hfo1 : frames_ok (mm_frames s1)) by (split; [by apply Hx5|by rewrite Hxn|by rewrite Hxn, Hx3]).
  assert (Hold : ∀ u, v ≤ u ≤ v + n → pte0 s1 dir u = pte0 s dir u) by (intros u Hu'; apply Hx1; [lia|by apply Hk]).
  assert (Hnew : pte0 s dir (v + n) = pte0 s0 dir (v + n)) by (apply Ho; [lia|apply Hk; lia|lia]).
  wp_step. eapply wp_mono.
  { eapply (on_page_spec s1 dir (v + n) r _ _ Hok1 Hr ltac:(lia)). apply flagforce_spec; [done|by rewrite Hxn, Hn]. }
  intros ret s2 (ps & p & f & HQ & Hps & -> & Hpte). rewrite (Hold (v + n) ltac:(lia)), Hnew in HQ. set (s2 := set_tabs _ _) in *.
  assert (Hp2 : ∀ u, 0 ≤ u → u ≠ v + n → pte0 s2 dir u = pte0 s1 dir u).
  { intros u Hu0 Hne. unfold pte0 at 1. rewrite Hpte by done. by destruct (Z.eqb_spec u (v + n)). }
  assert (Hpn : pte0 s2 dir (v + n) = p) by (unfold pte0; by rewrite Hpte, Z.eqb_refl by lia).
  wp_step. destruct HQ as [(-> & -> & Hp & ->)|[(-> & Hp & Ht)|(-> & Hl & Hgf & Hgn)]]; cbn.
  3: { right. split; [done|]. intros j Hj. cbn in *. rewrite Hgf. destruct Hl as [[_ Hl]|[? _]]; [|lia]. apply Hl. unfold frame_limit in *. by rewrite <- Hgn. }
  - left. split; [done|]. apply (grown_next n s s2 Hgrown); try done.
    + by apply ta_page.
    + intros u Hu0 Hku Hne. rewrite Hp2 by done. by apply Hx1.
    + left. by rewrite Hpn.
  - left. split; [done|]. pose proof Ht as (g & Hg' & Hl & Hup & Ep).
    destruct (frame_taken_field _ _ _ _ _ _ ltac:(rewrite Hxn, Hn; exact few_frames) ltac:(rewrite Hxn; lia) Ht) as (Hr1 & Hr2 & Hr3).
    assert (Hpg : pg_frame p = g) by (rewrite Ep; apply (bound_frame g _ (mm_frames s1)); [rewrite Hxn, Hn; exact few_frames|exact Hg']).
    assert (Hmono : ∀ j, 0 ≤ j → used (g_frames (mm_frames s1)) j = true → used (g_frames f) j = true).
    { intros j Hj Huj. destruct Hup as (_ & _ & _ & _ & Hup). rewrite Hup by done. by destruct (j =? g). }
    assert (Hfree : used (g_frames (mm_frames s)) g = false).
    { rewrite Hpg in Hr2. destruct (used (g_frames (mm_frames s)) g) eqn:Eu; [|done]. rewrite Hx4 in Hr2 by (done || lia). done. }
    apply (grown_next n s s2 Hgrown); try done.
    + apply ta_page; [done|done|]. by destruct Hup as (_ & _ & -> & _).
    + by apply (bit_updated_ok (mm_frames s1) g true).
    + cbn. destruct Hup as (-> & _). by rewrite Hxn.
    + intros j Hj Huj. apply Hmono; [done|]. by apply Hx4.
    + intros u Hu0 Hku Hne. rewrite Hp2 by done. by apply Hx1.
    + right. split; [done|]. exists g. rewrite Hpn. split_and!; [lia| | | |].
      * unfold frame_limit in *. rewrite Hxn, Hn in Hg'. lia.
      * destruct (used (g_frames (mm_frames s0)) g) eqn:Eu; [|done]. rewrite Hu in Hfree by (done || lia). done.
      * by rewrite <- Hpg.
      * rewrite Ep in Hpg |- *. simpl in Hpg. unfold bind_page. by rewrite Hpg.
    + intros _. by rewrite Hpn, Hpg.
Qed.

Lemma sbrk_loop break incr : I dir s0 → frames_ok (mm_frames s0) → v = break / 4096 → 0 ≤ break → 0 ≤ incr → break + incr ≤ 4294963200 →
  (∀ u, v ≤ u < v + page_count incr → ¬ kheap_page u) →
  wp (page_loop (λ i, i <? break + incr) (sbrk_page dir kernel) 0 PAGE_FUEL break)
     (λ r s', (r = 0 ∧ grown (page_count incr) s') ∨ (r = -1 ∧ no_frames s')) s0.
Proof.
  intros HI Hf Ev Hb Hi Hbi Hk. unfold page_loop. assert (Hv : 0 ≤ v) by (rewrite Ev; apply Z.div_pos; lia).
  assert (Hpc : 0 ≤ page_count incr ≤ 1048576).
  { unfold page_count. split; [apply Z.div_pos; lia|]. apply Z.lt_succ_r, Z.div_lt_upper_bound; lia. }
  eapply (wp_loop _ (λ m x s', ∃ n, x = break + 4096 * n ∧ 0 ≤ n ≤ page_count incr ∧ m = Z.to_nat (page_count incr - n) ∧ grown n s')).
  2: { exists 0. split; [lia|]. split; [lia|]. split; [reflexivity|]. split; try done; by intros; lia. }
  2: { apply page_fuel_enough. lia. }
  intros m x s1 (n & -> & Hn & -> & Hg). destruct (Z.ltb_spec (break + 4096 * n) (break + incr)) as [Hlt|Hge].
  2: { wp_step. left. split; [done|]. replace (page_count incr) with n; [done|]. pose proof (page_count_lt incr n Hi). lia. }
  assert (Hlt' : n < page_count incr) by (apply page_count_lt; lia). wp_step.
  eapply wp_mono; [apply (sbrk_page_step n s1 (break + 4096 * n) Hg); [lia|rewrite Ev; apply page_step|lia|lia|]|].
  { intros u Hu. apply Hk. lia. }
  intros y s2 [[-> Hg2]|[-> Hnf]]; wp_step; [|by right].
  exists (Z.to_nat (page_count incr - (n + 1))). split; [lia|]. exists (n + 1). rewrite u32_small by lia. split_and!; try done; lia.
Qed.
End sbrk.


(** ** Examples *)

(** Task 1 at 16 runs and has the child 2 at 32; task 4 at 64 is blocked. *)
Definition family : sched :=
  Sched {[ 16 := with_childamount (demo_task 1 32) 1;
           32 := Task 0 0 0 0 0 2 1 0 0 0 0 0 0 3 0 0 0 [] TASK_RUNNING 100 0 0 0 0; 64 := demo_task 4 0 ]}
    (TaskList 16 32) (TaskList 0 0) (TaskList 64 64) 0 true 16 0 5 0.

Definition demo_proc : proc :=
  Proc (write_at ∅ 1000 [1; 2; 3; 4]) boot_mm family (Tst 250 (TimeInfo 1000 4 250) 0 0 0) (KernSysinfo 0 0 0 0 0 0 0).

Lemma family_ok : sched_ok family [16; 32] [] [64].
Proof.
  constructor; simpl.
  - split_and!; try done. eexists. split; [by vm_compute|]. simpl. split_and!; try done. eexists. split; [by vm_compute|]. done.
  - done.
  - split_and!; try done. eexists. split; [by vm_compute|]. done.
  - by apply (bool_decide_unpack _); vm_compute.
  - set_solver.
  - lia.
  - intros x t Hx. repeat (apply lookup_insert_Some in Hx as [[<- <-]|[_ Hx]]; [done|]). by apply lookup_singleton_Some in Hx as [<- <-].
Qed.

Lemma family_only : only family ([16; 32] ++ [] ++ [64]) 16 1.
Proof.
  split; [done|]. intros z Hz. repeat (apply elem_of_cons in Hz as [->|Hz]; [by vm_compute|]). by apply not_elem_of_nil in Hz.
Qed.

Lemma demo_status : mapped (pr_mem demo_proc) 1000 4.
Proof. apply (write_at_mapped ∅ 1000 [1; 2; 3; 4]). Qed.

Lemma wait_exit_witness :
  ∃ s1, sys_wait 1000 demo_proc = Ok (0, s1) ∧ pr_mem s1 = write_at (pr_mem demo_proc) 1000 [0; 0; 0; 0] ∧
    sched_ok (pr_sched s1) [32] [] [64; 16] ∧ g_runningtask (pr_sched s1) ∈ [32] ∧
    ∀ s2 x tx, rtc tick (pr_sched s1) (pr_sched s2) → g_runningtask (pr_sched s2) = x →
      sc_tasks family !! x = Some tx → t_parent tx = 1 →
      ∃ s3 R, sys_exit s2 = Ok (tt, s3) ∧ [32] ≡ₚ x :: R ∧ sched_ok (pr_sched s3) (R ++ [16]) [] [64] ∧
        g_runningtask (pr_sched s3) ∈ R ++ [16] ∧ exited x 16 family (pr_sched s3).
Proof.
  apply (wait_exit demo_proc 1000 [] 16 [32] [] [64] (with_childamount (demo_task 1 32) 1)); try done.
  - exact family_ok.
  - by left.
  - exact family_only.
  - exact demo_status.
Defined.

(** The program of task 2 ends at 0x10800 and lives in the boot directory. *)
Definition grower : task := Task 3145728 65536 67584 0 0 2 1 0 0 0 0 0 0 3 0 0 0 [] TASK_RUNNING 100 0 0 0 0.

Definition grow_proc : proc :=
  Proc ∅ boot_mm (Sched {[ 32 := grower ]} (TaskList 32 32) (TaskList 0 0) (TaskList 0 0) 0 true 32 0 5 0)
    (Tst 250 (TimeInfo 1000 4 250) 0 0 0) (KernSysinfo 0 0 0 0 0 0 0).

