(* ===== verification/Dirents.v ===== *)
(** * Reading directories by system calls

    What [sys_getdents] ([Syscalls]) puts into the caller's buffer, against what any
    filesystem driver promises of an open directory: [DirStream] says that reading delivers
    the entries one after another, wherever the driver keeps them, and never touches the
    caller's buffer.  [pack] is the text of the buffer and [left_after] what the stream
    still has to deliver afterwards. *)
From S2P Require Import Prelude Mm HeapApi LibK FdTable Disk Kmem FileIo Vfs VfsPath VfsOps Syscalls.

(** An entry as [struct dirent] lays it out: its third field is its length. *)
Record dirent_ok (e : list Z) : Prop := {
  dk_bytes : Forall is_byte e;
  dk_size : 11 < Z.of_nat (length e) < 65536;
  dk_reclen : u16_at e DIRENT_RECLEN = Z.of_nat (length e)
}.

(** The entry as the caller sees it: [d_off] is the offset behind it. *)
Definition placed (off : Z) (e : list Z) : list Z :=
  splice e DIRENT_OFF (bytes32 (off + Z.of_nat (length e))).

Fixpoint pack (off count : Z) (es : list (list Z)) : list Z :=
  match es with
  | [] => []
  | e :: es' =>
    let off' := off + Z.of_nat (length e) in
    if off' <=? count then placed off e ++ pack off' count es' else []
  end.

(** The entry that does not fit has been read and is gone. *)
Fixpoint left_after (off count : Z) (es : list (list Z)) : list (list Z) :=
  match es with
  | [] => []
  | e :: es' =>
    let off' := off + Z.of_nat (length e) in
    if count <=? off then es
    else if off' <=? count then left_after off' count es' else es'
  end.

(** What a filesystem driver promises of the stream at [ds], for a buffer of [size] bytes at
    [lo] that is not its own. *)
Class DirStream {H F : Type} `{!VfsDrivers H F} (ds lo size : Z) := {
  to_come : vst H F → list (list Z) → Prop;
  stream_ok s es : to_come s es → Forall dirent_ok es;
  stream_end s : to_come s [] → ∃ s', vfs_readdir ds s = Ok (0, s') ∧ to_come s' [] ∧
    ∀ a, lo ≤ a < lo + size → vs_mem s' !! a = vs_mem s !! a;
  stream_next s e es : to_come s (e :: es) → ∃ d s', vfs_readdir ds s = Ok (d, s') ∧ d ≠ 0 ∧
    bytes_at (vs_mem s') d e ∧ disjoint_blocks d (Z.of_nat (length e)) lo size ∧ to_come s' es ∧
    ∀ a, lo ≤ a < lo + size → vs_mem s' !! a = vs_mem s !! a;
  stream_frame s es m : to_come s es → (∀ a, ¬ lo ≤ a < lo + size → m !! a = vs_mem s !! a) →
    to_come (set_kmem m (vs_heap s) s) es
}.

Section pack.
Implicit Types es : list (list Z).

Lemma length_placed off e : dirent_ok e → length (placed off e) = length e.
Proof. intros [_ Hs _]. apply splice_length; [done|]. unfold DIRENT_OFF. simpl. lia. Qed.

(** The buffer is never overrun. *)
Lemma pack_fits es : Forall dirent_ok es → ∀ off count, off ≤ count → off + Z.of_nat (length (pack off count es)) ≤ count.
Proof.
  induction 1 as [|e es He _ IH]; intros off count Ho; simpl; [lia|].
  destruct (Z.leb_spec (off + Z.of_nat (length e)) count) as [Hle|]; [|simpl; lia].
  rewrite length_app, length_placed by done. pose proof (IH _ _ Hle). lia.
Qed.
End pack.

Section getdents.
Context {H F : Type} `{!KernelHeap H, !VfsDrivers H F}.
Context (ds lo size : Z) `{DS : !DirStream (H := H) (F := F) ds lo size}.
Hypothesis size_ok : 0 ≤ size < 2147418112.

(** One round that copies an entry. *)
Lemma step_copies s off e es : to_come s (e :: es) → mapped (vs_mem s) lo size → 0 ≤ off →
  off + Z.of_nat (length e) ≤ size →
  ∃ s', getdents_step ds size (off, lo + off) s = Ok (inl (off + Z.of_nat (length e), lo + (off + Z.of_nat (length e))), s') ∧
    to_come s' es ∧ mapped (vs_mem s') lo size ∧ bytes_at (vs_mem s') (lo + off) (placed off e) ∧
    ∀ a, lo ≤ a < lo + off → vs_mem s' !! a = vs_mem s !! a.
Proof.
  intros Hc Hm Ho Hf. pose proof (stream_ok _ _ Hc) as Hok. apply Forall_cons in Hok as [[Hb Hs Hl] _].
  destruct (stream_next _ _ _ Hc) as (d & s1 & Hr & Hd & Hby & Hdis & Hc1 & Hk).
  set (n := Z.of_nat (length e)) in *.
  assert (Hm1 : mapped (vs_mem s1) lo size) by (intros q Hq; rewrite Hk by done; by apply Hm).
  set (m2 := write_at (vs_mem s1) (lo + off) e). set (m3 := write_at m2 (lo + off + DIRENT_OFF) (bytes32 (off + n))).
  exists (set_kmem m3 (vs_heap s1) s1). unfold getdents_step. destruct (Z.ltb_spec off size); [|lia].
  rewrite (bind_ok _ _ _ _ _ Hr). destruct (Z.eqb_spec d 0); [done|].
  rewrite (bind_ok _ _ _ n s1) by (apply run_read; rewrite <- Hl; apply load16_at; [done|unfold DIRENT_RECLEN in *; lia..]).
  rewrite s32_small by lia. destruct (Z.leb_spec (off + n) size); [|lia].
  rewrite (bind_ok _ _ _ (lo + off) (set_kmem m2 (vs_heap s1) s1)).
  2: { apply run_on_bytes, memcpy_run; [done| |done|destruct Hdis; lia]. intros q Hq. apply Hm1. lia. }
  rewrite (bind_ok _ _ _ tt (set_kmem m3 (vs_heap s1) s1)).
  2: { rewrite (run_on_bytes _ _ tt m3); [done|]. apply store32_run. apply mapped_write. intros q Hq. apply Hm1. unfold DIRENT_OFF in *. lia. }
  split; [by rewrite Z.add_assoc|].
  assert (Hout : ∀ a, ¬ lo + off ≤ a < lo + off + n → m3 !! a = vs_mem s1 !! a).
  { intros a Ha. unfold m3, m2, DIRENT_OFF. rewrite !write_at_out; [done| |]; simpl; lia. }
  split_and!.
  - apply stream_frame; [done|]. intros a Ha. apply Hout. lia.
  - by do 2 apply mapped_write.
  - apply bytes_at_splice; [done|unfold DIRENT_OFF; simpl; lia|apply write_at_in].
  - intros a Ha. simpl. rewrite Hout by lia. apply Hk. lia.
Qed.
(** The last round. *)
Lemma step_ends s off es : to_come s es → mapped (vs_mem s) lo size → 0 ≤ off ≤ size → pack off size es = [] →
  ∃ s', getdents_step ds size (off, lo + off) s = Ok (inr off, s') ∧ to_come s' (left_after off size es) ∧
    ∀ a, lo ≤ a < lo + off → vs_mem s' !! a = vs_mem s !! a.
Proof.
  intros Hc Hm Ho Hp. unfold getdents_step. destruct (Z.ltb_spec off size) as [Hlt|Hge].
  2: { exists s. split; [done|]. split; [|done]. destruct es as [|e es]; [done|]. simpl. by destruct (Z.leb_spec size off); [|lia]. }
  destruct es as [|e es].
  { destruct (stream_end _ Hc) as (s1 & Hr & Hc1 & Hk). exists s1. rewrite (bind_ok _ _ _ _ _ Hr). split_and!; [done..|].
    intros a Ha. apply Hk. lia. }
  pose proof (stream_ok _ _ Hc) as Hok. apply Forall_cons in Hok as [He _]. pose proof (length_placed off e He) as Hpl. destruct He as [Hb Hs Hl].
  destruct (stream_next _ _ _ Hc) as (d & s1 & Hr & Hd & Hby & Hdis & Hc1 & Hk).
  simpl in Hp |- *. destruct (Z.leb_spec (off + Z.of_nat (length e)) size) as [|Hgt].
  { apply app_nil in Hp as [Hp _]. rewrite Hp in Hpl. simpl in Hpl. lia. }
  destruct (Z.leb_spec size off); [lia|].
  exists s1. rewrite (bind_ok _ _ _ _ _ Hr). destruct (Z.eqb_spec d 0); [done|].
  rewrite (bind_ok _ _ _ (Z.of_nat (length e)) s1) by (apply run_read; rewrite <- Hl; apply load16_at; [done|unfold DIRENT_RECLEN in *; lia..]).
  rewrite s32_small by lia. destruct (Z.leb_spec (off + Z.of_nat (length e)) size); [lia|].
  rewrite s32_small by lia. replace (off + Z.of_nat (length e) - Z.of_nat (length e)) with off by lia.
  split_and!; [done..|]. intros a Ha. apply Hk. lia.
Qed.

Lemma getdents_loop es : ∀ fuel s off done, to_come s es → mapped (vs_mem s) lo size → 0 ≤ off ≤ size → size - off < Z.of_nat fuel →
  Z.of_nat (length done) = off → bytes_at (vs_mem s) lo done →
  ∃ s', loop fuel (getdents_step ds size) (off, lo + off) s = Ok (off + Z.of_nat (length (pack off size es)), s') ∧
    to_come s' (left_after off size es) ∧ bytes_at (vs_mem s') lo (done ++ pack off size es).
Proof.
  induction es as [|e es IH]; intros fuel s off dn Hc Hm Ho Hf Hl Hb; (destruct fuel as [|fuel]; [lia|]).
  { destruct (step_ends s off [] Hc Hm Ho eq_refl) as (s' & Hr & Hc' & Hk). exists s'. rewrite (loop_done _ _ _ _ _ _ Hr). simpl.
    rewrite Z.add_0_r, app_nil_r. split_and!; [done..|]. eapply bytes_at_frame; [|done]. intros q Hq. apply Hk. lia. }
  destruct (Z.leb_spec (off + Z.of_nat (length e)) size) as [Hle|Hgt].
  - destruct (step_copies s off e es Hc Hm ltac:(lia) Hle) as (s1 & Hr & Hc1 & Hm1 & Hb1 & Hk).
    pose proof (stream_ok _ _ Hc) as Hok. apply Forall_cons in Hok as [He _]. pose proof (length_placed off e He) as Hpl. pose proof (dk_size _ He).
    destruct (IH fuel s1 (off + Z.of_nat (length e)) (dn ++ placed off e)) as (s2 & Hr2 & Hc2 & Hb2); try done; try lia.
    { rewrite length_app. lia. }
    { apply bytes_at_app. rewrite Hl. split; [|done]. eapply bytes_at_frame; [|done]. intros q Hq. apply Hk. lia. }
    exists s2. rewrite (loop_next _ _ _ _ _ _ Hr), Hr2. simpl. destruct (Z.leb_spec (off + Z.of_nat (length e)) size); [|lia].
    destruct (Z.leb_spec size off); [lia|]. rewrite app_assoc. split_and!; [|done..]. rewrite length_app, Hpl. do 2 f_equal. lia.
  - assert (Hp : pack off size (e :: es) = []) by (simpl; destruct (Z.leb_spec (off + Z.of_nat (length e)) size); [lia|done]).
    destruct (step_ends s off (e :: es) Hc Hm Ho Hp) as (s' & Hr & Hc' & Hk). exists s'. rewrite (loop_done _ _ _ _ _ _ Hr), Hp. simpl length.
    rewrite Z.add_0_r, app_nil_r. split_and!; [done..|]. eapply bytes_at_frame; [|done]. intros q Hq. apply Hk. lia.
Qed.

(** C21: Listing a directory.  [sys_getdents] packs the entries the directory still has to deliver
    into the buffer one behind the other, each with the offset behind it in [d_off], as long
    as they fit, returns the number of bytes and never writes past the buffer.  The first
    entry that does not fit has been taken from the stream all the same: the next call does
    not deliver it. *)
Theorem getdents_packs (s : vst H F) fd v d es :
  task_fds (vs_fd s) = Some v → vec_ok v → 0 ≤ fd < vector_size v → slot v fd = Some d → fd_seek d = ds → ds ≠ 0 →
  to_come s es → mapped (vs_mem s) lo size →
  ∃ s', sys_getdents fd lo size s = Ok (Z.of_nat (length (pack 0 size es)), s') ∧
    to_come s' (left_after 0 size es) ∧ bytes_at (vs_mem s') lo (pack 0 size es) ∧
    Z.of_nat (length (pack 0 size es)) ≤ size.
Proof.
  intros Hv Hvok Hfd Hsl Hsk Hds Hc Hm.
  destruct (getdents_loop es (S (Z.to_nat size)) s 0 [] Hc Hm) as (s' & Hr & Hc' & Hb); try (simpl; lia).
  { intros i b Hi. done. }
  rewrite Z.add_0_r, Z.add_0_l in Hr. exists s'. split_and!; [|done..|].
  2: { pose proof (pack_fits es (stream_ok _ _ Hc) 0 size). lia. }
  unfold sys_getdents. rewrite (bind_ok _ _ _ (Z.of_nat (length (pack 0 size es))) s').
  { unfold or_errno. destruct (Z.eqb_spec (Z.of_nat (length (pack 0 size es))) (-1)); [lia|done]. }
  unfold getdents. rewrite (bind_ok _ _ _ _ _ (run_get_fd s v fd Hv ltac:(lia))). destruct (Z.ltb_spec fd (vector_size v)); [|lia].
  rewrite (bind_ok _ _ s d s) by (eapply run_load_fd; [done|destruct Hvok; lia|done]). rewrite Hsk.
  destruct (Z.eqb_spec ds 0); [done|]. exact Hr.
Qed.
End getdents.

(** ** A driver that hands out entries it keeps in memory *)

#[local] Instance list_drivers : VfsDrivers mm (list Z) := {|
  call_open _ _ _ _ _ := mret 0;
  call_close _ _ := mret 0;
  call_read _ _ _ _ _ _ := mret 0;
  call_write _ _ _ _ _ _ := mret 0;
  call_creat _ _ _ _ := mret 0;
  call_opendir _ _ := mret 0;
  call_block_read _ _ _ _ _ _ := mret 0;
  call_block_write _ _ _ _ _ _ := mret 0;
  call_update_node _ _ := mret 0;
  call_create_node _ _ _ _ := mret (-1);
  call_dir_open _ _ _ := mret 0;
  call_dir_close _ _ := mret 0;
  call_dir_read _ _ := λ s,
    match vs_fs s with
    | [] => Ok (0, s)
    | a :: r => Ok (a, Vst (vs_mem s) (vs_heap s) r (vs_nodes s) (vs_dirs s) (vs_files s) (vs_filesystems s) (vs_fd s)
                         (vs_task s) (g_vfs_root s) (g_nodecount s) (g_current_fs s))
    end;
  call_makenode _ _ _ _ _ := mret 0;
  init_fs _ _ := mret 0
|}.

Definition list_fs : filesystem := Filesystem 0 0 4 0 0 0 0 0 1 1 1 1 0 0 1 0.

(** The entries lie at the addresses the driver has left, away from the buffer. *)
Definition kept_at (m : bmem) (a : Z) (e : list Z) : Prop :=
  a ≠ 0 ∧ bytes_at m a e ∧ dirent_ok e ∧ disjoint_blocks a (Z.of_nat (length e)) 1100 20.

#[local] Instance list_stream : DirStream (H := mm) (F := list Z) 9 1100 20.
Proof.
  refine {| to_come s es := vs_dirs s = {[ 9 := Dir 3000 0 0 0 0 0 0 ]} ∧ vs_filesystems s = {[ 3000 := list_fs ]} ∧
                            Forall2 (kept_at (vs_mem s)) (vs_fs s) es |}.
  - intros s es (_ & _ & Hf). apply Forall_fold_right. induction Hf as [|a e as_ es' (_ & _ & He & _) _ IH]; [done|]. by split.
  - intros [] (Hd & Hi & Hf). simpl in *. subst. apply Forall2_nil_inv_r in Hf as ->. eexists. split_and!; try reflexivity. constructor.
  - intros [] e es (Hd & Hi & Hf). simpl in *. subst.
    apply Forall2_cons_inv_r in Hf as (a & as_ & (Ha & Hb & He & Hdis) & Hf & ->). do 2 eexists.
    split_and!; try reflexivity; done.
  - intros [] es m (Hd & Hi & Hf) Hm. simpl in *. split_and!; [done..|]. eapply Forall2_impl; [exact Hf|].
    intros a e (Ha & Hb & He & Hdis). split_and!; [done| |done..]. eapply bytes_at_frame; [|done]. intros q Hq. apply Hm. destruct Hdis; lia.
Defined.

Definition entry_a : list Z := [7; 0; 0; 0; 0; 0; 0; 0; 13; 0; 1; 97; 0].
Definition entry_b : list Z := [8; 0; 0; 0; 0; 0; 0; 0; 13; 0; 1; 98; 0].
Definition list_vfs : vst mm (list Z) :=
  Vst (write_at (write_at (write_at ∅ 1000 entry_a) 1050 entry_b) 1100 (replicate 20 0)) kheap_mm [1000; 1050] ∅
    {[ 9 := Dir 3000 0 0 0 0 0 0 ]} ∅ {[ 3000 := list_fs ]} demo_fds None 0 0 0.

Lemma list_vfs_ok : to_come list_vfs [entry_a; entry_b] ∧ mapped (vs_mem list_vfs) 1100 20.
Proof.
  assert (Hok : dirent_ok entry_a ∧ dirent_ok entry_b).
  { split; (split; [repeat (apply Forall_cons; split; [unfold is_byte; lia|]); apply Forall_nil_2|simpl; lia|reflexivity]). }
  split; [|intros q Hq; apply (bytes_at_mapped _ _ (replicate 20 0) (write_at_in _ _ _)); simpl; lia].
  split; [reflexivity|]. split; [reflexivity|]. cbn [vs_fs vs_mem list_vfs].
  apply List.Forall2_cons; [|apply List.Forall2_cons; [|apply List.Forall2_nil]]; (split; [lia|]); (split; [|split; [apply Hok|left; simpl; lia]]).
  - do 2 (apply bytes_at_write; [left; simpl; lia|]). apply write_at_in.
  - apply bytes_at_write; [left; simpl; lia|]. apply write_at_in.
Qed.

Lemma getdents_packs_witness :
  pack 0 20 [entry_a; entry_b] = [7; 0; 0; 0; 13; 0; 0; 0; 13; 0; 1; 97; 0] ∧ left_after 0 20 [entry_a; entry_b] = [] ∧
  ∃ s', sys_getdents 2 1100 20 list_vfs = Ok (Z.of_nat (length (pack 0 20 [entry_a; entry_b])), s') ∧
    to_come s' (left_after 0 20 [entry_a; entry_b]) ∧ bytes_at (vs_mem s') 1100 (pack 0 20 [entry_a; entry_b]) ∧
    Z.of_nat (length (pack 0 20 [entry_a; entry_b])) ≤ 20.
Proof.
  split; [reflexivity|]. split; [reflexivity|]. destruct list_vfs_ok as [Hc Hm].
  apply (getdents_packs 9 1100 20 ltac:(lia) list_vfs 2 demo_vec (FileDescriptor 600 0 1 9 0)); try done.
Defined.
