(* ===== verification/Env.v ===== *)
(** * Arguments and environments (kernel/yanix/env.c)

    Argument lists are arrays of string pointers that end with NULL, on the user heap.
    [combine_args_env] is proved to copy both lists of an [execve] into one. *)
From S2P Require Import Prelude LinkedList Frames Mm HeapApi LibK FdTable Disk Kmem FileIo Vfs VfsPath.

Definition ENVIRONMENT_AMOUNT : Z := 256.
Definition EXECVE_MAX_ARGS : Z := 512.
Definition EXECVE_MAX_ENV : Z := 512.
Definition E2BIG : Z := 7.

(** The fields of struct user that are used. *)
Record user := User {
  us_name : Z;
  us_gcos : Z;
  us_uid : Z;
  us_gid : Z;
  us_home : Z;
  us_shell : Z
}.

Definition env_size (vars : Z) : M bmem Z :=
  fuel ← get (λ m, S (size m));
  loop fuel (λ amount,
    p ← load32 (vars + 4 * amount);
    if p =? 0 then mret (inr amount) else mret (inl (u32 (amount + 1)))) 0.

Section env.
Context {H : Type} `{!KernelHeap H}.
Variable lit : list Z → Z.

Definition make_userstring (string : Z) : M (bmem * H) Z :=
  l ← on_mem (strlen string);
  us ← hmalloc_user (u32 (l + 1));
  l ← on_mem (strlen string);
  _ ← on_mem (memcpy us string (u32 (l + 1)));
  mret us.

Definition make_uservar (string1 string2 : Z) : M (bmem * H) Z :=
  l1 ← on_mem (strlen string1);
  l2 ← on_mem (strlen string2);
  us ← hmalloc_user (u32 (l1 + l2 + 1));
  l1 ← on_mem (strlen string1);
  _ ← on_mem (memcpy us string1 l1);
  l1 ← on_mem (strlen string1);
  l2 ← on_mem (strlen string2);
  _ ← on_mem (memcpy (us + l1) string2 (u32 (l2 + 1)));
  mret us.

Definition USER_VAR : list Z := [85; 83; 69; 82; 61].
Definition HOME_VAR : list Z := [72; 79; 77; 69; 61].
Definition PATH_VAR : list Z := [80; 65; 84; 72; 61; 47; 98; 105; 110].
Definition PWD_VAR : list Z := [80; 87; 68; 61].
Definition TERM_VAR : list Z := [84; 69; 82; 77; 61].
Definition YANIX : list Z := [121; 97; 110; 105; 120].
Definition PS1_VAR : list Z := [80; 83; 49; 61].
Definition PROMPT : list Z := [115; 117; 112; 58; 32].

Definition make_envvars (curuser : user) : M (bmem * H) Z :=
  env ← hmalloc_user (4 * ENVIRONMENT_AMOUNT);
  _ ← on_mem (memset env 0 (4 * ENVIRONMENT_AMOUNT));
  v ← make_uservar (lit USER_VAR) (us_name curuser); _ ← on_mem (store32 env v);
  v ← make_uservar (lit HOME_VAR) (us_home curuser); _ ← on_mem (store32 (env + 4) v);
  v ← make_userstring (lit PATH_VAR); _ ← on_mem (store32 (env + 8) v);
  v ← make_uservar (lit PWD_VAR) (us_home curuser); _ ← on_mem (store32 (env + 12) v);
  v ← make_uservar (lit TERM_VAR) (lit YANIX); _ ← on_mem (store32 (env + 16) v);
  v ← make_uservar (lit PS1_VAR) (lit PROMPT); _ ← on_mem (store32 (env + 20) v);
  mret env.

(** The variable arguments are a list. *)
Definition make_args (strings : list Z) : M (bmem * H) Z :=
  let amount := Z.of_nat (length strings) in
  args ← hmalloc_user (u32 (4 * (amount + 1)));
  _ ← on_mem (memset args 0 (u32 (4 * (amount + 1))));
  _ ← foldl (λ c '(i, s), _ ← c; v ← make_userstring s; on_mem (store32 (args + 4 * Z.of_nat i) v)) (mret tt)
        (imap (λ i s, (i, s)) strings);
  mret args.

(** Copies of the [n] strings of the array [src], in [new] from entry [at_] on. *)
Definition dup_strings (src new at_ n : Z) : M (bmem * H) unit :=
  loop (S (Z.to_nat n)) (λ j,
    if j <? n then
      s ← on_mem (load32 (src + 4 * j));
      v ← strdup_user s;
      _ ← on_mem (store32 (new + 4 * (at_ + j)) v);
      mret (inl (j + 1))
    else mret (inr tt)) 0.
End env.

Section combine.
Context {H F : Type} `{!KernelHeap H}.

Definition combine_args_env (argv env : Z) : M (vst H F) Z :=
  argvsize ← on_bytes (env_size argv);
  if EXECVE_MAX_ARGS <? s32 argvsize then _ ← vfs_errno E2BIG; mret 0
  else
    envsize ← on_bytes (env_size env);
    if EXECVE_MAX_ENV <? s32 envsize then _ ← vfs_errno E2BIG; mret 0
    else
      let paramsize := s32 argvsize + s32 envsize + 1 in
      new ← on_kmem (hmalloc_user (u32 (paramsize * 4)));
      _ ← on_bytes (memset new 0 (u32 (paramsize * 4)));
      _ ← on_kmem (dup_strings argv new 0 (s32 argvsize));
      _ ← on_kmem (dup_strings env new (s32 argvsize) (s32 envsize));
      mret new.
End combine.

(** ** Arrays of strings *)

(** The words [ws] at [p]. *)
Definition words_at (m : bmem) (p : Z) (ws : list Z) : Prop :=
  ∀ k w, ws !! k = Some w → bytes_at m (p + 4 * Z.of_nat k) (bytes32 w) ∧ 0 ≤ w < 4294967296.

(** The strings [ss] at the addresses [ps]. *)
Definition strings_at (m : bmem) (ps : list Z) (ss : list (list Z)) : Prop :=
  Forall2 (λ p s, cstr m p s ∧ p ≠ 0) ps ss.

(** An array of pointers to the strings [ss] with NULL at its end. *)
Definition argument_list (m : bmem) (p : Z) (ss : list (list Z)) : Prop :=
  ∃ ps, words_at m p (ps ++ [0]) ∧ strings_at m ps ss.

Lemma words_at_sub m m' p ws : m ⊆ m' → words_at m p ws → words_at m' p ws.
Proof. intros Hm Hw k w Hk. destruct (Hw k w Hk). split; [by eapply bytes_at_sub|done]. Qed.

Lemma strings_at_sub m m' ps ss : m ⊆ m' → strings_at m ps ss → strings_at m' ps ss.
Proof. intros Hm Hs. eapply Forall2_impl; [done|]. intros p s [Hc Hp]. split; [by eapply cstr_sub|done]. Qed.

Lemma load_word m p ws k w : words_at m p ws → ws !! k = Some w → load32 (p + 4 * Z.of_nat k) m = Ok (w, m).
Proof. intros Hw Hk. destruct (Hw k w Hk). by apply load32_word. Qed.

Lemma words_size m p ws : words_at m p ws → (length ws ≤ size m)%nat.
Proof.
  intros Hw. assert (Hd : Forall is_Some ((λ k, m !! (p + 4 * Z.of_nat k)) <$> seq 0 (length ws))).
  { apply Forall_fmap, Forall_forall. intros k Hk%elem_of_seq. destruct (lookup_lt_is_Some_2 ws k) as [w Hx]; [lia|].
    destruct (Hw k w Hx) as [Hb _]. exists (u8 w). rewrite <- (Z.add_0_r (p + _)). exact (Hb 0%nat _ eq_refl). }
  set (qs := (λ k, p + 4 * Z.of_nat k) <$> seq 0 (length ws)).
  assert (Hnd : NoDup qs) by (apply NoDup_fmap_2; [intros ?? ?; lia|apply NoDup_seq]).
  assert (Hsub : (list_to_set qs : gset Z) ⊆ dom m).
  { intros q. rewrite elem_of_list_to_set. intros (k & -> & Hk%elem_of_seq)%list_elem_of_fmap. apply elem_of_dom.
    rewrite Forall_fmap, Forall_forall in Hd. apply (Hd k). apply elem_of_seq. lia. }
  apply subseteq_size in Hsub. rewrite size_list_to_set, size_dom in Hsub by done.
  unfold qs in Hsub. by rewrite length_fmap, length_seq in Hsub.
Qed.

(** The entries up to NULL are counted. *)
Lemma env_size_run m p ps ss : words_at m p (ps ++ [0]) → strings_at m ps ss → Z.of_nat (length ps) < 2147483648 →
  env_size p m = Ok (Z.of_nat (length ps), m).
Proof.
  intros Hw Hs Hlt. unfold env_size. rewrite (bind_ok _ _ _ (S (size m)) m) by done.
  assert (Hgen : ∀ f k, (k ≤ length ps < k + f)%nat →
    loop f (λ amount, q ← load32 (p + 4 * amount); if q =? 0 then mret (inr amount) else mret (inl (u32 (amount + 1)))) (Z.of_nat k) m =
    Ok (Z.of_nat (length ps), m)).
  { induction f as [|f IH]; intros k Hk; [lia|]. destruct (decide (k = length ps)) as [->|Hne].
    - apply loop_done. assert (Hx : (ps ++ [0]) !! length ps = Some 0) by by rewrite lookup_app_r, Nat.sub_diag by lia.
      by rewrite (bind_ok _ _ _ _ _ (load_word m p _ _ _ Hw Hx)).
    - destruct (lookup_lt_is_Some_2 ps k) as [q Hq]; [lia|].
      destruct (Forall2_lookup_l _ _ _ _ _ Hs Hq) as (t & _ & _ & Hq0).
      rewrite (loop_next _ _ _ _ (Z.of_nat (k + 1)) m); [apply IH; lia|].
      rewrite (bind_ok _ _ _ _ _ (load_word m p _ k q Hw (lookup_app_l_Some _ _ _ _ Hq))).
      rewrite (proj2 (Z.eqb_neq _ _) Hq0), u32_small by lia. unfold mret, M_ret. repeat f_equal. lia. }
  apply (Hgen _ 0%nat). pose proof (words_size _ _ _ Hw) as Hsz. rewrite length_app in Hsz. simpl in Hsz. lia.
Qed.

Lemma fresh_write_sub m p bs : unmapped m p (Z.of_nat (length bs)) → m ⊆ write_at m p bs.
Proof.
  intros Hu. apply map_subseteq_spec. intros q b Hq. rewrite write_at_out; [done|]. intros Hin. by rewrite Hu in Hq.
Qed.

Section strdup.
Context {H : Type} `{!KernelHeap H, !UserLaws H}.

(** A copy in new memory. *)
Lemma strdup_user_run a s m h r :
  user_rep m h r → cstr m a s → a ≠ 0 → Z.of_nat (length s) < 2147483647 → ucharge (Z.of_nat (length s) + 1) ≤ r →
  ∃ p m' h', strdup_user a (m, h) = Ok (p, (m', h')) ∧ m ⊆ m' ∧ cstr m' p s ∧ 0 < p < 4294967296 ∧
    unmapped m p (Z.of_nat (length s) + 1) ∧ user_rep m' h' (r - ucharge (Z.of_nat (length s) + 1)).
Proof.
  intros Hr Hs Ha Hlen Hc. destruct (hmalloc_user_ok (Z.of_nat (length s) + 1) m h r Hr ltac:(lia) Hc)
    as (p & bs & h' & Hrun & Hp & Htop & Hsz & _ & Hu & Hr').
  set (t := s ++ [0]). assert (Ht : Z.of_nat (length t) = Z.of_nat (length s) + 1) by (unfold t; rewrite length_app; simpl; lia).
  pose proof Hs as [Hst Hch]. fold t in Hst. set (m1 := write_at m p bs) in *.
  assert (Hsub : m ⊆ m1) by by apply fresh_write_sub.
  assert (Hmap : mapped m1 p (Z.of_nat (length t))) by (eapply mapped_sub; [apply write_at_mapped|lia|lia]).
  assert (Hap : p + Z.of_nat (length t) ≤ a ∨ a + Z.of_nat (length t) ≤ p).
  { apply (unmapped_apart m); [intros q Hq; apply Hu; lia|by eapply bytes_at_mapped|lia|lia]. }
  exists p, (write_at m1 p t), h'. split_and!; try lia.
  - unfold strdup_user. rewrite (bind_ok _ _ _ _ _ (on_mem_ok _ m h _ _ (strlen_run m a s Hs Ha))).
    rewrite s32_small, u32_small by lia. rewrite (bind_ok _ _ _ _ _ Hrun).
    rewrite (bind_ok _ _ _ p (write_at m1 p t, h')); [done|]. apply on_mem_ok. rewrite <- Ht.
    apply memcpy_run; [by eapply bytes_at_sub|done| |done].
    apply Forall_app_2; [eapply Forall_impl; [exact Hch|unfold is_char, is_byte; lia]|by repeat constructor].
  - apply map_subseteq_spec. intros q b Hq. rewrite write_at_out; [by eapply lookup_weaken|].
    intros Hin. rewrite Hu in Hq by lia. done.
  - split; [apply write_at_in|done].
  - intros q Hq. apply Hu. lia.
  - eapply user_rep_dom; [|exact Hr']. by apply dom_write_at.
Qed.
End strdup.

Lemma words_at_set m p ws i w : words_at m p ws → 0 ≤ w < 4294967296 →
  words_at (write_at m (p + 4 * Z.of_nat i) (bytes32 w)) p (<[i := w]> ws).
Proof.
  intros Hw Hr k v [(<- & <- & Hi)|[Hne Hk]]%list_lookup_insert_Some.
  - split; [apply write_at_in|done].
  - destruct (Hw k v Hk) as [Hb Hv]. split; [|done]. apply bytes_at_write; [|done].
    unfold disjoint_blocks. simpl. lia.
Qed.

(** [ss] copied to the new array of [n] words at [new] so far; [m0] is the memory before. *)
Record copied (m0 : bmem) (new : Z) (n : nat) (ss : list (list Z)) (m : bmem) : Prop := Copied {
  cp_ptrs : list Z;
  cp_sub : m0 ⊆ m;
  cp_fresh : unmapped m0 new (4 * Z.of_nat n);
  cp_room : (length ss < n)%nat;
  cp_words : words_at m new (cp_ptrs ++ replicate (n - length ss) 0);
  cp_strings : Forall2 (λ p s, cstr m p s ∧ p ≠ 0 ∧ disjoint_blocks p (Z.of_nat (length s) + 1) new (4 * Z.of_nat n)) cp_ptrs ss
}.

Lemma words_mapped m p ws : words_at m p ws → mapped m p (4 * Z.of_nat (length ws)).
Proof.
  intros Hw q Hq. set (k := Z.to_nat ((q - p) / 4)).
  assert (Hk : Z.of_nat k = (q - p) / 4) by (unfold k; rewrite Z2Nat.id; [done|apply Z.div_pos; lia]).
  pose proof (Z.div_mod (q - p) 4 ltac:(lia)). pose proof (Z.mod_pos_bound (q - p) 4 ltac:(lia)).
  destruct (lookup_lt_is_Some_2 ws k) as [w Hx]; [lia|]. destruct (Hw k w Hx) as [Hb _].
  apply (bytes_at_mapped _ _ _ Hb). simpl. lia.
Qed.

(** One more string [s], copied to [p], is entered. *)
Lemma copied_step m0 new n ss m m1 p s :
  copied m0 new n ss m → m ⊆ m1 → cstr m1 p s → 0 < p < 4294967296 → unmapped m p (Z.of_nat (length s) + 1) →
  (length ss + 1 < n)%nat →
  let q := new + 4 * Z.of_nat (length ss) in
  mapped m1 q 4 ∧ copied m0 new n (ss ++ [s]) (write_at m1 q (bytes32 p)).
Proof.
  intros [ps Hsub Hf _ Hw Hs] Hm1 Hc Hp Hu Hn q. pose proof (Forall2_length _ _ _ Hs) as Hl.
  assert (Hlen : length (ps ++ replicate (n - length ss) 0) = n) by (rewrite length_app, length_replicate; lia).
  pose proof (words_mapped _ _ _ Hw) as Hmap. rewrite Hlen in Hmap.
  assert (Hap : disjoint_blocks p (Z.of_nat (length s) + 1) new (4 * Z.of_nat n)).
  { destruct (unmapped_apart m p (Z.of_nat (length s) + 1) new (4 * Z.of_nat n)); [done|done|lia|lia|left|right]; lia. }
  split.
  { intros x Hx. destruct (Hmap x) as [b Hb]; [lia|]. exists b. by eapply lookup_weaken. }
  assert (Hkeep : ∀ a t, disjoint_blocks a (Z.of_nat (length t) + 1) new (4 * Z.of_nat n) → cstr m1 a t →
    cstr (write_at m1 q (bytes32 p)) a t).
  { intros a t Ha [Hb Ht]. split; [|done]. apply bytes_at_write; [|done]. unfold disjoint_blocks in *.
    rewrite length_app. simpl. lia. }
  exists (ps ++ [p]); try done.
  - apply map_subseteq_spec. intros x b Hx. rewrite write_at_out.
    + eapply lookup_weaken; [exact Hx|by transitivity m].
    + intros Hin. simpl in Hin. rewrite Hf in Hx; [done|lia].
  - rewrite length_app. simpl. lia.
  - assert (E : (ps ++ [p]) ++ replicate (n - length (ss ++ [s])) 0 = <[length ss := p]> (ps ++ replicate (n - length ss) 0)).
    { rewrite length_app. simpl length. replace (n - length ss)%nat with (S (n - (length ss + 1))) by lia.
      rewrite <- Hl, <- app_assoc. symmetry. rewrite <- (Nat.add_0_r (length ps)) at 1. by rewrite insert_app_r. }
    rewrite E. apply words_at_set; [by eapply words_at_sub|lia].
  - apply Forall2_app; [|constructor; [|constructor]].
    + eapply Forall2_impl; [exact Hs|]. intros a t (Ha & Ha0 & Had). split_and!; try done. apply Hkeep; [done|by eapply cstr_sub].
    + split_and!; [by apply Hkeep|lia|done].
Qed.

Section combine_run.
Context {H : Type} `{!KernelHeap H, !UserLaws H}.

(** What copies of the strings take from the heap. *)
Definition copies_charge (ss : list (list Z)) : Z := foldr (λ s c, ucharge (Z.of_nat (length s) + 1) + c) 0 ss.

Lemma copies_charge_pos ss : 0 ≤ copies_charge ss.
Proof.
  induction ss as [|s ss IH]; [done|]. pose proof (ucharge_pos (Z.of_nat (length s) + 1) ltac:(lia)).
  change (0 ≤ ucharge (Z.of_nat (length s) + 1) + copies_charge ss). lia.
Qed.

Lemma dup_strings_loop m0 new n src at_ cnt ptrs f : ∀ pre rest m h r j,
  copied m0 new n pre m → user_rep m h r → copies_charge rest ≤ r →
  words_at m0 src ptrs → strings_at m0 (drop j (take cnt ptrs)) rest → Forall (λ s, Z.of_nat (length s) < 2147483647) rest →
  (length pre + length rest < n)%nat → (length rest ≤ f)%nat → (j + length rest = cnt)%nat →
  Z.of_nat (length pre) = at_ + Z.of_nat j →
  ∃ m' h', loop (S f) (λ j,
    if j <? Z.of_nat cnt then
      s ← on_mem (load32 (src + 4 * j));
      v ← strdup_user s;
      _ ← on_mem (store32 (new + 4 * (at_ + j)) v);
      mret (inl (j + 1))
    else mret (inr tt)) (Z.of_nat j) (m, h) = Ok (tt, (m', h')) ∧
    copied m0 new n (pre ++ rest) m' ∧ user_rep m' h' (r - copies_charge rest).
Proof.
  induction f as [|f IH]; intros pre rest m h r j Hcp Hr Hch Hw Hs Hsh Hn Hf Hj Hat;
    destruct rest as [|s rest]; simpl in Hf; try lia.
  1, 2: exists m, h; rewrite app_nil_r; cbn [copies_charge foldr]; rewrite Z.sub_0_r; split_and!; try done;
    apply loop_done; simpl in Hj; destruct (Z.ltb_spec (Z.of_nat j) (Z.of_nat cnt)); [lia|done].
  cbn [length copies_charge foldr] in *. fold (copies_charge rest) in *. apply Forall_cons in Hsh as [Hsl Hsh].
  apply Forall2_cons_inv_r in Hs as (a & ps' & [Ha Ha0] & Hs & Edrop).
  assert (Hptr : ptrs !! j = Some a).
  { assert (E0 : take cnt ptrs !! (j + 0)%nat = Some a) by (rewrite <- lookup_drop, Edrop; done).
    rewrite Nat.add_0_r in E0. by apply lookup_take_Some in E0 as [E0 _]. }
  assert (Hrest0 : 0 ≤ copies_charge rest) by apply copies_charge_pos.
  pose proof (cp_sub _ _ _ _ _ Hcp) as Hsub.
  destruct (strdup_user_run a s m h r Hr (cstr_sub _ _ _ _ Hsub Ha) Ha0 Hsl ltac:(lia)) as (p & m1 & h1 & Hdup & Hm1 & Hc & Hp & Hu & Hr1).
  destruct (copied_step m0 new n pre m m1 p s Hcp Hm1 Hc Hp Hu ltac:(lia)) as [Hmap Hcp1].
  set (q := new + 4 * Z.of_nat (length pre)) in *. set (m2 := write_at m1 q (bytes32 p)) in *.
  assert (Hr2 : user_rep m2 h1 (r - ucharge (Z.of_nat (length s) + 1))) by (eapply user_rep_dom; [by apply dom_write_at|done]).
  destruct (IH (pre ++ [s]) rest m2 h1 (r - ucharge (Z.of_nat (length s) + 1)) (j + 1)%nat) as (m' & h' & Hrun & Hcp' & Hr'); try done; try lia.
  { by rewrite <- drop_drop, Edrop. } { rewrite length_app. simpl. lia. } { rewrite length_app. simpl. lia. }
  exists m', h'. rewrite <- app_assoc in Hcp'. split_and!; [|done|].
  - rewrite (loop_next _ _ _ _ (Z.of_nat (j + 1)) (m2, h1)); [done|].
    destruct (Z.ltb_spec (Z.of_nat j) (Z.of_nat cnt)); [|lia].
    rewrite (bind_ok _ _ _ _ _ (on_mem_ok _ m h _ _ (load_word m src ptrs j a (words_at_sub _ _ _ _ Hsub Hw) Hptr))).
    rewrite (bind_ok _ _ _ _ _ Hdup), <- Hat. fold q.
    rewrite (bind_ok _ _ _ _ _ (on_mem_ok _ m1 h1 _ _ (store32_run m1 q p Hmap))). unfold mret, M_ret. repeat f_equal. lia.
  - by replace (r - (ucharge (Z.of_nat (length s) + 1) + copies_charge rest))
      with (r - ucharge (Z.of_nat (length s) + 1) - copies_charge rest) by lia.
Qed.
End combine_run.

Section combine_correct.
Context {H F : Type} `{!KernelHeap H, !UserLaws H}.
Implicit Types s : vst H F.

(** The new array before any string is copied. *)
Lemma new_array m h n r :
  user_rep m h r → (0 < n)%nat → Z.of_nat (4 * n) < 2147483648 → ucharge (Z.of_nat (4 * n)) ≤ r →
  ∃ new m1 m2 h', hmalloc_user (Z.of_nat (4 * n)) (m, h) = Ok (new, (m1, h')) ∧ new ≠ 0 ∧
    memset new 0 (Z.of_nat (4 * n)) m1 = Ok (new, m2) ∧
    copied m new n [] m2 ∧ user_rep m2 h' (r - ucharge (Z.of_nat (4 * n))).
Proof.
  intros Hr Hn Hlt Hc. destruct (hmalloc_user_ok (Z.of_nat (4 * n)) m h r Hr ltac:(lia) Hc) as (p & bs & h' & Hrun & Hp & Htop & Hsz & _ & Hu & Hr').
  set (m1 := write_at m p bs) in *. assert (Hmap : mapped m1 p (Z.of_nat (4 * n))) by (eapply mapped_sub; [apply write_at_mapped|lia|lia]).
  pose proof (memset_zero_run m1 p (4 * n) Hmap) as Hset.
  assert (E4 : (4 * (4 * n / 4))%nat = (4 * n)%nat) by (rewrite (Nat.mul_comm 4 n), Nat.div_mul by lia; lia). rewrite E4 in Hset.
  exists p, m1, (write_at m1 p (replicate (4 * n) 0)), h'. split_and!; [done|lia|done| |].
  - exists []; try done.
    + apply map_subseteq_spec. intros q b Hq. unfold m1. rewrite !write_at_out; [done|..]; intros Hin; (rewrite Hu in Hq; [done|]);
        rewrite ?length_replicate in Hin; lia.
    + intros q Hq. apply Hu. lia.
    + rewrite app_nil_l, Nat.sub_0_r. intros k w Hk. apply lookup_replicate in Hk as [-> Hk]. split; [|lia].
      intros i b Hi. pose proof (lookup_lt_Some _ _ _ Hi) as Hi4. simpl in Hi4.
      assert (b = 0) as -> by (destruct i as [|[|[|[|]]]]; simpl in Hi; try done; by injection Hi as <-).
      rewrite write_at_lookup, length_replicate. destruct (decide _); [|lia]. apply lookup_replicate. split; [done|lia].
  - eapply user_rep_dom; [|exact Hr']. apply dom_write_at. by rewrite length_replicate.
Qed.

Lemma combine_run s argv env pa pe sa se r :
  let la := length sa in let le := length se in
  words_at (vs_mem s) argv (pa ++ [0]) → strings_at (vs_mem s) pa sa →
  words_at (vs_mem s) env (pe ++ [0]) → strings_at (vs_mem s) pe se →
  (la ≤ 512)%nat → (le ≤ 512)%nat → Forall (λ t, Z.of_nat (length t) < 2147483647) (sa ++ se) →
  user_rep (vs_mem s) (vs_heap s) r →
  ucharge (4 * Z.of_nat (la + le + 1)) + copies_charge sa + copies_charge se ≤ r →
  ∃ new m' h', combine_args_env argv env s = Ok (new, set_kmem m' h' s) ∧ new ≠ 0 ∧ copied (vs_mem s) new (la + le + 1) (sa ++ se) m'.
Proof.
  intros la le Hwa Hsa Hwe Hse Hla Hle Hlen Hr Hc. apply Forall_app in Hlen as [Hlena Hlene].
  pose proof (Forall2_length _ _ _ Hsa) as Ela. pose proof (Forall2_length _ _ _ Hse) as Ele. fold la in Ela. fold le in Ele.
  pose proof (copies_charge_pos sa). pose proof (copies_charge_pos se).
  set (n := (la + le + 1)%nat) in *. replace (4 * Z.of_nat n) with (Z.of_nat (4 * n)) in Hc by lia.
  destruct (new_array (vs_mem s) (vs_heap s) n r Hr) as (new & m1 & m2 & h1 & Hmal & Hnew & Hset & Hcp0 & Hr1); [lia..|].
  destruct (dup_strings_loop (vs_mem s) new n argv 0 la (pa ++ [0]) la [] sa m2 h1 (r - ucharge (Z.of_nat (4 * n))) 0)
    as (m3 & h3 & Hd1 & Hcp1 & Hr3); try done; try lia.
  { rewrite take_app_length' by done. done. } { simpl. lia. }
  destruct (dup_strings_loop (vs_mem s) new n env (Z.of_nat la) le (pe ++ [0]) le sa se m3 h3
    (r - ucharge (Z.of_nat (4 * n)) - copies_charge sa) 0) as (m4 & h4 & Hd2 & Hcp2 & Hr4); try done; try lia.
  { rewrite take_app_length' by done. done. }
  exists new, m4, h4. split_and!; [|done|exact Hcp2]. unfold combine_args_env, EXECVE_MAX_ARGS, EXECVE_MAX_ENV.
  rewrite (bind_ok _ _ _ _ _ (run_read _ s _ (env_size_run _ argv pa sa Hwa Hsa ltac:(lia)))), Ela.
  rewrite (s32_small (Z.of_nat la)) by lia. destruct (Z.ltb_spec 512 (Z.of_nat la)); [lia|].
  rewrite (bind_ok _ _ _ _ _ (run_read _ s _ (env_size_run _ env pe se Hwe Hse ltac:(lia)))), Ele.
  rewrite (s32_small (Z.of_nat le)) by lia. destruct (Z.ltb_spec 512 (Z.of_nat le)); [lia|].
  replace ((Z.of_nat la + Z.of_nat le + 1) * 4) with (Z.of_nat (4 * n)) by lia. rewrite u32_small by lia.
  rewrite (bind_ok _ _ _ _ _ (run_on_kmem _ s _ _ _ Hmal)).
  rewrite (bind_ok _ _ _ _ _ (run_on_bytes _ (set_kmem m1 h1 s) _ _ Hset)).
  rewrite (bind_ok _ _ _ tt (set_kmem m3 h3 s)).
  2: { apply (run_on_kmem _ (set_kmem m2 h1 s)). unfold dup_strings. by rewrite Nat2Z.id. }
  rewrite (bind_ok _ _ _ tt (set_kmem m4 h4 s)); [done|].
  apply (run_on_kmem _ (set_kmem m3 h3 s)). unfold dup_strings. by rewrite Nat2Z.id.
Qed.

(** A finished copy. *)
Lemma copied_list m0 new n ss m : copied m0 new n ss m → n = S (length ss) → argument_list m new ss.
Proof.
  intros [ps _ _ _ Hw Hs] ->. exists ps. rewrite Nat.sub_succ_l, Nat.sub_diag in Hw by lia. split; [done|].
  eapply Forall2_impl; [exact Hs|]. by intros p t (? & ? & _).
Qed.
End combine_correct.

(** ** Theorems *)

(** The arguments of a program.  For argument and environment lists of at most 512
    strings each, [combine_args_env] returns a new array on the user heap with pointers to
    copies of all the strings, the arguments first, and NULL at its end; every byte that
    was there before is unchanged.  A longer list gives NULL and E2BIG, with nothing
    allocated. *)
Theorem combine_args_env_correct {H F : Type} `{!KernelHeap H, !UserLaws H} (s : vst H F) argv env sa se r :
  argument_list (vs_mem s) argv sa → argument_list (vs_mem s) env se →
  Z.of_nat (length sa) < 2147483648 → Z.of_nat (length se) < 2147483648 →
  Forall (λ t, Z.of_nat (length t) < 2147483647) (sa ++ se) →
  user_rep (vs_mem s) (vs_heap s) r →
  ucharge (4 * Z.of_nat (length sa + length se + 1)) + copies_charge sa + copies_charge se ≤ r →
  if decide (length sa ≤ 512 ∧ length se ≤ 512)%nat then
    ∃ new m' h', combine_args_env argv env s = Ok (new, set_kmem m' h' s) ∧ new ≠ 0 ∧
      vs_mem s ⊆ m' ∧ argument_list m' new (sa ++ se)
  else combine_args_env argv env s = Ok (0, with_errno E2BIG s).
Proof.
  intros (pa & Hwa & Hsa) (pe & Hwe & Hse) Hla Hle Hlen Hr Hc.
  destruct (decide _) as [[Ha He]|Hbig].
  - destruct (combine_run s argv env pa pe sa se r) as (new & m' & h' & Hrun & Hnew & Hcp); try done.
    exists new, m', h'. split_and!; [done|done|by destruct Hcp|].
    eapply copied_list; [exact Hcp|]. rewrite length_app. lia.
  - unfold combine_args_env, EXECVE_MAX_ARGS, EXECVE_MAX_ENV.
    pose proof (Forall2_length _ _ _ Hsa) as Ela. pose proof (Forall2_length _ _ _ Hse) as Ele.
    rewrite (bind_ok _ _ _ _ _ (run_read _ s _ (env_size_run _ argv pa sa Hwa Hsa ltac:(lia)))), s32_small by lia.
    destruct (Z.ltb_spec 512 (Z.of_nat (length pa))); [done|].
    rewrite (bind_ok _ _ _ _ _ (run_read _ s _ (env_size_run _ env pe se Hwe Hse ltac:(lia)))), s32_small by lia.
    destruct (Z.ltb_spec 512 (Z.of_nat (length pe))); [done|]. exfalso. apply Hbig. lia.
Qed.

(** ls at 1000 and A=1 at 1010, with a list of each at 1100 and 1200, and an empty user heap. *)
Definition demo_arg : list Z := [108; 115].
Definition demo_var : list Z := [65; 61; 49].

Definition demo_args_mem : bmem :=
  write_at (write_at (write_at (write_at ∅ 1000 (demo_arg ++ [0])) 1010 (demo_var ++ [0])) 1100 (bytes32 1000 ++ bytes32 0))
    1200 (bytes32 1010 ++ bytes32 0).

Definition uheap_mm : mm :=
  Mm 1048576 (mm_heaps kheap_mm) (mm_lists kheap_mm) ∅ 100 100 100 (FrSt [] 0 0) ∅ ∅ ∅ 0 0 0.

Definition demo_args : vst mm unit := Vst demo_args_mem uheap_mm tt ∅ ∅ ∅ ∅ (FdSt None [] 0) None 0 0 0.

Lemma demo_list p q t : words_at demo_args_mem p [q; 0] → cstr demo_args_mem q t → q ≠ 0 → argument_list demo_args_mem p [t].
Proof. intros Hw Hc Hq. exists [q]. split; [done|]. by constructor. Qed.

Lemma two_words m p a b : bytes_at m p (bytes32 a ++ bytes32 b) → 0 ≤ a < 4294967296 → 0 ≤ b < 4294967296 → words_at m p [a; b].
Proof.
  intros Hb Ha Hc. apply bytes_at_app in Hb as [H1 H2]. intros [|[|k]] w Hk; simpl in Hk; try done; injection Hk as <-.
  - by rewrite Z.add_0_r.
  - done.
Qed.

(** The empty user heap beside a memory of low addresses. *)
Lemma low_user_heap m : set_Forall (λ q, q < 2000) (dom m) → @user_rep mm demo_kernel_heap (mm_user_laws (λ _, 0)) m uheap_mm 16777216.
Proof.
  intros Hall. exists kheap_aheap. split; [done|]. split; [exact kheap_mm_is|]. split; [|split; [done|done]].
  intros q Hq Hmq. exfalso. apply elem_of_dom in Hmq. specialize (Hall q Hmq).
  change (a_start kheap_aheap) with 3221225472 in Hq. cbv beta in Hall. lia.
Qed.

Lemma demo_user_heap :
  @user_rep mm demo_kernel_heap (mm_user_laws (λ _, 0)) demo_args_mem uheap_mm 16777216.
Proof. apply low_user_heap, (bool_decide_unpack _). by vm_compute. Qed.

Lemma combine_args_env_correct_witness :
  ∃ new m' h', combine_args_env 1100 1200 demo_args = Ok (new, set_kmem m' h' demo_args) ∧ new ≠ 0 ∧
    demo_args_mem ⊆ m' ∧ argument_list m' new [demo_arg; demo_var].
Proof.
  refine (@combine_args_env_correct mm unit demo_kernel_heap (mm_user_laws (λ _, 0)) demo_args 1100 1200 [demo_arg] [demo_var] 16777216
    _ _ _ _ _ demo_user_heap _).
  - apply demo_list with 1000; [|by apply cstr_check|done]. apply two_words; [|lia|lia].
    apply bytes_at_write; [by left|apply write_at_in].
  - apply demo_list with 1010; [|by apply cstr_check|done]. apply two_words; [|lia|lia]. apply write_at_in.
  - done.
  - done.
  - by repeat constructor.
  - vm_compute. discriminate.
Defined.
