(* ===== verification/User.v ===== *)
(** * Users (kernel/yanix/users/user.c, login.c)

    The password check and the login against /etc/passwd, over the vfs.  The structure
    [g_current_user] is a result of the login that fills it in. *)
From S2P Require Import Prelude LinkedList Frames Mm HeapApi LibK FdTable Disk Kmem FileIo Vfs Env.

Definition EACCES : Z := 13.
Definition LOGIN_LEN : Z := 128.
Definition BUFSIZ : Z := 1024.
Definition COLON : Z := 58.

(** /etc/passwd, root and password. *)
Definition USERFILE_LOCATION : list Z := [47; 101; 116; 99; 47; 112; 97; 115; 115; 119; 100].
Definition ROOT_NAME : list Z := [114; 111; 111; 116].
Definition ROOT_PASSWORD : list Z := [112; 97; 115; 115; 119; 111; 114; 100].

Definition evalpasswd (given correct : Z) : M bmem Z :=
  l ← strlen given;
  c ← load8 (correct + l);
  if negb (c =? COLON) then mret 1
  else
    l ← strlen given;
    memcmp given correct (u32 (l - 1)).

Section login.
Context {H F : Type} `{!KernelHeap H, !VfsDrivers H F}.
Variable lit : list Z → Z.
(** What [register_filedescriptor] needs, and the blocks [fs_read] allocates. *)
Variables (kmalloc_ok : Z → bool) (lock tmp1 tmp2 : Z).

(** The fields of a line of the file, from the user id on. *)
Definition parse_user (buf name : Z) : M (vst H F) user :=
  uid ← on_bytes (atoi buf);
  p ← on_bytes (strchr buf COLON);
  let buf := p + 1 in
  gid ← on_bytes (atoi buf);
  p ← on_bytes (strchr buf COLON);
  let buf := p + 1 in
  nm ← on_kmem (strdup name);
  p ← on_bytes (strchr buf COLON);
  gcos ← on_kmem (strdup_s buf (u32 (p - buf)));
  p ← on_bytes (strchr buf COLON);
  let buf := p + 1 in
  p ← on_bytes (strchr buf COLON);
  home ← on_kmem (strdup_s buf (u32 (p - buf)));
  p ← on_bytes (strchr buf COLON);
  let buf := p + 1 in
  shell ← on_kmem (strdup buf);
  mret (User nm gcos uid gid home shell).

(** The loop over the lines; [line] holds the current one. *)
Definition login_step (name passwd namelen filebuf line fp : Z) : Z → M (vst H F) (Z + (Z * option user)) := λ seek,
  ret ← on_bytes (readline (filebuf + seek) (BUFSIZ - seek) line LOGIN_LEN);
  if ret =? -1 then
    _ ← kfree_v filebuf; _ ← kfree_v line; _ ← vfs_close fp;
    mret (inr (-1, None))
  else
    c ← on_bytes (memcmp line name namelen);
    b ← (if c =? 0 then peek (line + namelen) else mret 0);
    if (c =? 0) && (b =? COLON) then
      wrong ← on_bytes (evalpasswd passwd (line + namelen + 1));
      if negb (wrong =? 0) then
        _ ← vfs_errno EACCES;
        _ ← kfree_v filebuf; _ ← kfree_v line; _ ← vfs_close fp;
        mret (inr (-1, None))
      else
        l ← on_bytes (strlen line);
        _ ← poke (line + (l - 1)) 0;
        ln ← on_bytes (strlen name);
        lp ← on_bytes (strlen passwd);
        u ← parse_user (line + s32 (ln + lp + 2)) name;
        _ ← kfree_v filebuf; _ ← kfree_v line; _ ← vfs_close fp;
        mret (inr (0, Some u))
    else mret (inl (s32 (seek + ret))).

(** Every line that is read has a character at least. *)
Definition user_login (name passwd : Z) : M (vst H F) (Z * option user) :=
  filebuf ← kmalloc_v BUFSIZ;
  line ← kmalloc_v LOGIN_LEN;
  namelen ← on_bytes (strlen name);
  fp ← vfs_open lit kmalloc_ok lock (lit USERFILE_LOCATION) 0 0;
  if fp =? 0 then
    _ ← kfree_v filebuf; _ ← kfree_v line;
    mret (-1, None)
  else
    f ← load_file fp;
    _ ← vfs_read_fd (file_fd f) filebuf BUFSIZ tmp1 tmp2;
    loop (S (S (Z.to_nat BUFSIZ))) (login_step name passwd (s32 namelen) filebuf line fp) 0.

(** What follows the return statement is never reached. *)
Definition login : M (vst H F) (Z * option user) :=
  '(_, u) ← user_login (lit ROOT_NAME) (lit ROOT_PASSWORD);
  mret (1, u).
End login.

(** ** Passwords *)

Lemma memcmp_run m a b xs ys : bytes_at m a xs → bytes_at m b ys → length xs = length ys →
  ∃ r, memcmp a b (Z.of_nat (length xs)) m = Ok (r, m) ∧ (r = 0 ↔ xs = ys).
Proof.
  intros Ha Hb Hl. unfold memcmp. set (n := length xs) in *.
  assert (Hgen : ∀ f k, (k ≤ n < k + S f)%nat → ∃ r, loop (S f) (λ i,
    if i <? Z.of_nat n then
      x ← load8 (a + i); y ← load8 (b + i);
      if x <? y then mret (inr (-1)) else if y <? x then mret (inr 1) else mret (inl (i + 1))
    else mret (inr 0)) (Z.of_nat k) m = Ok (r, m) ∧ (r = 0 ↔ drop k xs = drop k ys)).
  { induction f as [|f IH]; intros k Hk; destruct (decide (k = n)) as [->|Hne]; [|lia| |].
    1, 2: exists 0; split; [apply loop_done; by rewrite Z.ltb_irrefl|by rewrite !drop_ge by lia].
    destruct (lookup_lt_is_Some_2 xs k) as [x Hx]; [lia|]. destruct (lookup_lt_is_Some_2 ys k) as [y Hy]; [lia|].
    assert (Hbody : ∀ r, ((if x <? y then mret (inr (-1)) else if y <? x then mret (inr 1) else mret (inl (Z.of_nat k + 1))) : M bmem (Z + Z)) m = r →
      (if Z.of_nat k <? Z.of_nat n then
        x ← load8 (a + Z.of_nat k); y ← load8 (b + Z.of_nat k);
        if x <? y then mret (inr (-1)) else if y <? x then mret (inr 1) else mret (inl (Z.of_nat k + 1))
       else mret (inr 0)) m = r).
    { intros r <-. destruct (Z.ltb_spec (Z.of_nat k) (Z.of_nat n)); [|lia].
      by rewrite (bind_ok _ _ _ _ _ (run_load8 m _ _ (Ha k x Hx))), (bind_ok _ _ _ _ _ (run_load8 m _ _ (Hb k y Hy))). }
    rewrite (drop_S xs x k Hx), (drop_S ys y k Hy).
    destruct (Z.ltb_spec x y), (Z.ltb_spec y x); try lia.
    - exists (-1). split; [by apply loop_done, Hbody|]. split; [done|]. intros [= ->]. lia.
    - exists 1. split; [by apply loop_done, Hbody|]. split; [done|]. intros [= ->]. lia.
    - assert (x = y) as -> by lia. destruct (IH (k + 1)%nat) as (r & Hrun & Heq); [lia|]. exists r. split.
      + rewrite (loop_next _ _ _ _ (Z.of_nat (k + 1)) m); [done|]. apply Hbody. unfold mret, M_ret. repeat f_equal. lia.
      + rewrite Heq, Nat.add_1_r. split; [congruence|by intros [= ->]]. }
  destruct (Hgen n 0%nat ltac:(lia)) as (r & Hrun & Heq). exists r. rewrite Nat2Z.id. done.
Qed.

(** ** Theorems *)

(** The password check.  Against the rest of a line of the password file,
    [evalpasswd] accepts a password of at least one character exactly when the line has a
    colon behind as many characters and starts with the password without its last
    character: the last character is never compared, so each user has 255 passwords. *)
Theorem evalpasswd_ignores_last m given correct g x l :
  cstr m given (g ++ [x]) → given ≠ 0 → bytes_at m correct l → (length g + 1 < length l)%nat →
  Z.of_nat (length g) < 2147483647 →
  ∃ r, evalpasswd given correct m = Ok (r, m) ∧
    (r = 0 ↔ l !! (length g + 1)%nat = Some COLON ∧ take (length g) l = g).
Proof.
  intros Hg Hne Hl Hlen Hsz. unfold evalpasswd.
  pose proof (strlen_run m given (g ++ [x]) Hg Hne) as Hs. rewrite length_app in Hs. simpl in Hs.
  destruct (lookup_lt_is_Some_2 l (length g + 1)) as [c Hc]; [lia|].
  rewrite (bind_ok _ _ _ _ _ Hs), (bind_ok _ _ _ _ _ (run_load8 m _ _ (Hl _ _ Hc))), Hc.
  destruct (Z.eqb_spec c COLON) as [->|Hcol]; cbn [negb].
  - rewrite (bind_ok _ _ _ _ _ Hs). replace (Z.of_nat (length g + 1) - 1) with (Z.of_nat (length g)) by lia.
    rewrite u32_small by lia.
    destruct (memcmp_run m given correct g (take (length g) l)) as (r & Hrun & Heq).
    + destruct Hg as [Hg _]. apply bytes_at_app in Hg as [Hg _]. by apply bytes_at_app in Hg as [Hg _].
    + intros i b [Hi _]%lookup_take_Some. by apply Hl.
    + rewrite length_take. lia.
    + exists r. split; [done|]. rewrite Heq. split; [intros E; split; congruence|by intros [_ E]].
  - exists 1. split; [done|]. split; [done|]. intros [[= ?] _]. done.
Qed.

(** secreX is accepted for secret. *)
Lemma evalpasswd_ignores_last_witness :
  let secret := [115; 101; 99; 114; 101; 116] in
  let line := secret ++ [COLON; 48; COLON] in
  let m := write_at (write_at ∅ 100 [115; 101; 99; 114; 101; 88; 0]) 200 line in
  ∃ r, evalpasswd 100 200 m = Ok (r, m) ∧
    (r = 0 ↔ line !! 6%nat = Some COLON ∧ take 5 line = [115; 101; 99; 114; 101]).
Proof.
  refine (evalpasswd_ignores_last _ 100 200 [115; 101; 99; 114; 101] 88 _ _ _ _ _ _).
  - split; [apply bytes_at_write; [by left|apply write_at_in]|]. repeat constructor.
  - done.
  - apply write_at_in.
  - simpl. lia.
  - done.
Defined.
