(* ===== verification/Ext2.v ===== *)
(** * The ext2 driver (kernel/fs/ext2/ext2.c)

    The superblock, the block group descriptors and inodes are read into buffers
    from the kernel heap and accessed there field by field, at the offsets of the
    packed C structures.  The disk is that of [Disk]; [tmp1] and [tmp2] are the
    buffers [kmalloc] returns in disk_read and disk_write.  [ext2_drivers] makes
    the operations the function pointers of the vfs. *)
From S2P Require Import Prelude Frames LibK FdTable Disk Kmem FileIo Vfs.

Definition EXT2_SUPERBLOCK_START_LOC : Z := 1024.
Definition EXT2_DEFAULT_INODE_SIZE : Z := 128.
Definition EXT2_SIGNATURE : Z := 61267.
Definition EXT2_ROOT_INODE : Z := 2.
Definition EXT2_DIRECT_BLOCK_POINTER_AMOUNT : Z := 12.
Definition EXT2_INODE_TYPE_SOCK : Z := 49152.
Definition EXT2_INODE_TYPE_LINK : Z := 40960.
Definition EXT2_INODE_TYPE_REG : Z := 32768.
Definition EXT2_INODE_TYPE_BLK : Z := 24576.
Definition EXT2_INODE_TYPE_DIR : Z := 16384.
Definition EXT2_INODE_TYPE_CHR : Z := 8192.
Definition EXT2_INODE_TYPE_FIFO : Z := 4096.
Definition FS_EXT2 : Z := 0.
Definition NAME_MAX : Z := 255.
Definition EFBIG : Z := 27.

(** ext2_superblock_t: size and the offsets of the fields that are used. *)
Definition SIZEOF_SUPERBLOCK : Z := 236.
Definition SB_TOTAL_BLOCKS : Z := 4.
Definition SB_BLOCK_SIZE_FRAG : Z := 24.
Definition SB_BLOCKS_IN_BLOCKGROUP : Z := 32.
Definition SB_INODES_IN_BLOCKGROUP : Z := 40.
Definition SB_SIGNATURE : Z := 56.
Definition SB_MAJOR_VERSION : Z := 76.
Definition SB_INODE_SIZE : Z := 88.

(** ext2_block_group_descriptor_t *)
Definition SIZEOF_BGD : Z := 32.
Definition BGD_BLOCK_BITMAP : Z := 0.
Definition BGD_INODE_BITMAP : Z := 4.
Definition BGD_START_INODE_TABLE : Z := 8.

(** ext2_inode_t *)
Definition SIZEOF_INODE : Z := 128.
Definition IN_TYPE_PERMISSIONS : Z := 0.
Definition IN_UID : Z := 2.
Definition IN_SIZE : Z := 4.
Definition IN_GID : Z := 24.
Definition IN_DISK_SECTORS : Z := 28.
Definition IN_FLAGS : Z := 32.
Definition IN_DIRECT : Z := 40.
Definition IN_SINGLE : Z := 88.
Definition IN_DOUBLE : Z := 92.

(** ext2_directory_entry_t *)
Definition DE_INODE : Z := 0.
Definition DE_TOTAL_SIZE : Z := 4.
Definition DE_NAME_LENGTH : Z := 6.
Definition DE_TYPE : Z := 7.
Definition DE_NAME : Z := 8.

(** struct dirent and DIR *)
Definition SIZEOF_DIRENT : Z := 12.
Definition DI_INO : Z := 0.
Definition DI_OFF : Z := 4.
Definition DI_RECLEN : Z := 8.
Definition DI_TYPE : Z := 10.
Definition SIZEOF_DIR : Z := 36.
Definition DIR_DIRENT : Z := 24.
Definition SIZEOF_FILESYSTEM : Z := 64.

Section ext2.
Context {H D : Type} `{!KernelHeap H, !DiskDriver D}.
Variables tmp1 tmp2 : Z.

(** ** Access *)

Definition set_disk (m : bmem) (d : D) (s : vst H D) : vst H D :=
  Vst m (vs_heap s) d (vs_nodes s) (vs_dirs s) (vs_files s) (vs_filesystems s) (vs_fd s)
    (vs_task s) (g_vfs_root s) (g_nodecount s) (g_current_fs s).

Definition set_dirs (ds : gmap Z DIR) (s : vst H D) : vst H D :=
  Vst (vs_mem s) (vs_heap s) (vs_fs s) (vs_nodes s) ds (vs_files s) (vs_filesystems s) (vs_fd s)
    (vs_task s) (g_vfs_root s) (g_nodecount s) (g_current_fs s).

Definition set_filesystems (fs : gmap Z filesystem) (s : vst H D) : vst H D :=
  Vst (vs_mem s) (vs_heap s) (vs_fs s) (vs_nodes s) (vs_dirs s) (vs_files s) fs (vs_fd s)
    (vs_task s) (g_vfs_root s) (g_nodecount s) (g_current_fs s).

Definition on_storage {A} (c : M (bmem * D) A) : M (vst H D) A := λ s,
  match c (vs_mem s, vs_fs s) with
  | Ok (a, (m, d)) => Ok (a, set_disk m d s)
  | Fault => Fault
  | Hang => Hang
  end.

Definition field32 (p off : Z) : M (vst H D) Z := on_bytes (load32 (p + off)).
Definition field16 (p off : Z) : M (vst H D) Z := on_bytes (load16 (p + off)).
Definition field8 (p off : Z) : M (vst H D) Z := on_bytes (load8 (p + off)).

(** [a[i]] of 32-bit words; the address wraps like the index. *)
Definition word_at (a i : Z) : M (vst H D) Z := on_bytes (load32 (u32 (a + 4 * u32 i))).

Definition ext2_block_size (superblock : Z) : M (vst H D) Z :=
  frag ← field32 superblock SB_BLOCK_SIZE_FRAG; mret (u32 (Z.shiftl 1024 frag)).

Definition ext2_disk_read (offset buf size fs_info : Z) : M (vst H D) Z :=
  fs ← load_filesystem fs_info;
  on_storage (disk_read (u32 (offset + fs_partstart fs)) buf size tmp1 tmp2).

Definition ext2_disk_write (offset buf size fs_info : Z) : M (vst H D) Z :=
  fs ← load_filesystem fs_info;
  on_storage (disk_write (u32 (offset + fs_partstart fs)) buf size tmp1 tmp2).

Definition _ext2_copy_superblock_into_memory (start : Z) : M (vst H D) Z :=
  ret ← kmalloc_v SIZEOF_SUPERBLOCK;
  _ ← on_storage (disk_read (u32 (EXT2_SUPERBLOCK_START_LOC + start)) ret SIZEOF_SUPERBLOCK tmp1 tmp2);
  mret ret.

(** [roundup(total_blocks, blocks_in_blockgroup)] *)
Definition blockgroup_count (superblock : Z) : M (vst H D) Z :=
  total ← field32 superblock SB_TOTAL_BLOCKS;
  per ← field32 superblock SB_BLOCKS_IN_BLOCKGROUP;
  n ← of_option (roundup (s32 total) (s32 per));
  mret (u32 n).

Definition _ext2_get_all_block_group_descriptors (superblock fs_start : Z) : M (vst H D) Z :=
  number_of_blockgroups ← blockgroup_count superblock;
  bgd_array ← kmalloc_v (u32 (SIZEOF_BGD * number_of_blockgroups));
  bs ← ext2_block_size superblock;
  let bgd_offset := u32 (EXT2_SUPERBLOCK_START_LOC + bs) in
  _ ← on_storage (disk_read (u32 (bgd_offset + fs_start)) bgd_array
                    (u32 (SIZEOF_BGD * number_of_blockgroups)) tmp1 tmp2);
  mret bgd_array.

(** ** Inodes *)

Definition _ext2_get_inode_size (fs_info : Z) : M (vst H D) Z :=
  fs ← load_filesystem fs_info;
  v ← field32 (fs_superblock fs) SB_MAJOR_VERSION;
  if 1 <=? v then field16 (fs_superblock fs) SB_INODE_SIZE else mret EXT2_DEFAULT_INODE_SIZE.

Definition _ext2_get_inode_offset (inode fs_info : Z) : M (vst H D) Z :=
  fs ← load_filesystem fs_info;
  let superblock := fs_superblock fs in
  per ← field32 superblock SB_INODES_IN_BLOCKGROUP;
  blockgroup ← udiv (u32 (inode - 1)) per;
  index ← umod (u32 (inode - 1)) per;
  isz ← _ext2_get_inode_size fs_info;
  containing_block ← udiv (u32 (index * isz)) (fs_block_size fs);
  start ← field32 (fs_blockgroup_list fs + SIZEOF_BGD * blockgroup) BGD_START_INODE_TABLE;
  let inode_offset := u32 (u32 (start + containing_block) * fs_block_size fs) in
  per_block ← udiv (fs_block_size fs) isz;
  rest ← umod index per_block;
  mret (u32 (inode_offset + u32 (rest * isz))).

Definition _ext2_get_inode_ref (inode fs_info : Z) : M (vst H D) Z :=
  inode_size ← _ext2_get_inode_size fs_info;
  inode_ref ← kmalloc_v inode_size;
  offset ← _ext2_get_inode_offset inode fs_info;
  _ ← ext2_disk_read offset inode_ref inode_size fs_info;
  mret inode_ref.

(** ** Block pointers *)

(** The workaround for a pointer that is 0: a value that its neighbours suggest. *)
Definition guess_block (indirect_bp blk_to_rd : Z) : M (vst H D) (option Z) :=
  n1 ← word_at indirect_bp (blk_to_rd + 1);
  some ← (if negb (n1 =? 0) then mret true
          else n2 ← word_at indirect_bp (blk_to_rd + 2); mret (negb (n2 =? 0)));
  if (some : bool) then
    p1 ← word_at indirect_bp (blk_to_rd - 1);
    one ← (if n1 =? u32 (p1 + 2) then mret true
           else n2 ← word_at indirect_bp (blk_to_rd + 2); mret (n2 =? u32 (p1 + 3)));
    if (one : bool) then mret (Some (u32 (p1 + 1)))
    else
      p2 ← word_at indirect_bp (blk_to_rd - 2);
      mret (if n1 =? u32 (p2 + 3) then Some (u32 (p2 + 2)) else None)
  else mret None.

Definition handle_indirect_bp (indirect_bp_index blk_to_rd fs_info : Z) : M (vst H D) Z :=
  fs ← load_filesystem fs_info;
  indirect_bp ← kmalloc_v (fs_block_size fs);
  if indirect_bp =? 0 then mret 0
  else
    _ ← ext2_disk_read (u32 (indirect_bp_index * fs_block_size fs)) indirect_bp (fs_block_size fs) fs_info;
    p ← word_at indirect_bp blk_to_rd;
    let ret := u32 (p * fs_block_size fs) in
    ret ← (if ret =? 0 then
             fill ← guess_block indirect_bp blk_to_rd;
             mret (match fill with Some f => u32 (f * fs_block_size fs) | None => ret end)
           else mret ret);
    _ ← kfree_v indirect_bp;
    mret ret.

Definition _ext2_get_inode_data_offset (inode block_to_read fs_info : Z) : M (vst H D) Z :=
  fs ← load_filesystem fs_info;
  let bs := fs_block_size fs in
  let per := bs / 4 in
  if block_to_read <? EXT2_DIRECT_BLOCK_POINTER_AMOUNT then
    p ← field32 inode (IN_DIRECT + 4 * block_to_read);
    mret (u32 (p * bs))
  else if block_to_read <? u32 (per + EXT2_DIRECT_BLOCK_POINTER_AMOUNT) then
    p ← field32 inode IN_SINGLE;
    handle_indirect_bp p (block_to_read - EXT2_DIRECT_BLOCK_POINTER_AMOUNT) fs_info
  else if block_to_read <? u32 (u32 (pow (s32 per) 2) + EXT2_DIRECT_BLOCK_POINTER_AMOUNT) then
    d_indirect_bp ← kmalloc_v bs;
    if d_indirect_bp =? 0 then mret 0
    else
      p ← field32 inode IN_DOUBLE;
      if p =? 0 then mret 0
      else
        _ ← ext2_disk_read (u32 (p * bs)) d_indirect_bp bs fs_info;
        let k := u32 (block_to_read - per - EXT2_DIRECT_BLOCK_POINTER_AMOUNT) in
        indirect_bp_index ← udiv k per;
        block_index ← umod k per;
        indirect_to_read ← word_at d_indirect_bp indirect_bp_index;
        if indirect_to_read =? 0 then _ ← kfree_v d_indirect_bp; mret 0
        else
          ret ← handle_indirect_bp indirect_to_read block_index fs_info;
          _ ← kfree_v d_indirect_bp;
          mret ret
  else mret 0.

Definition _ext2_read_inode_block (inode block_to_read buf fs_info : Z) : M (vst H D) Z :=
  data_offset ← _ext2_get_inode_data_offset inode block_to_read fs_info;
  if data_offset =? 0 then _ ← vfs_errno EFBIG; mret 0
  else
    fs ← load_filesystem fs_info;
    r ← ext2_disk_read data_offset buf (fs_block_size fs) fs_info;
    mret (u32 r).

Definition _ext2_write_inode_block (inode block_to_read buf fs_info : Z) : M (vst H D) Z :=
  data_offset ← _ext2_get_inode_data_offset inode block_to_read fs_info;
  if data_offset =? 0 then _ ← vfs_errno EFBIG; mret 0
  else
    fs ← load_filesystem fs_info;
    r ← ext2_disk_write data_offset buf (fs_block_size fs) fs_info;
    mret (u32 r).

Definition _ext2_write_block (block buf fs_info : Z) : M (vst H D) Z :=
  fs ← load_filesystem fs_info;
  ext2_disk_write (u32 (block * fs_block_size fs)) buf (fs_block_size fs) fs_info.

Definition _ext2_write_inode (inode_ref inode fs_info : Z) : M (vst H D) Z :=
  offset ← _ext2_get_inode_offset inode fs_info;
  isz ← _ext2_get_inode_size fs_info;
  ext2_disk_write offset inode_ref isz fs_info.

(** ** Files *)

(** The loop over the blocks: [ret] counts the blocks that were transferred. *)
Definition block_loop (body : Z → Z → M (vst H D) Z) (inode_ref startblock block_count buf bs : Z) :
    M (vst H D) Z :=
  loop (S (Z.to_nat block_count)) (λ '(i, buffer, ret),
    if i <? u32 (block_count + startblock) then
      r ← body i buffer;
      if r =? 0 then _ ← kfree_v inode_ref; mret (inr ret)
      else mret (inl (u32 (i + 1), buffer + bs, u32 (ret + 1)))
    else _ ← kfree_v inode_ref; mret (inr ret)) (startblock, buf, 0).

Definition ext2_read_file (inode offset buf block_count fs_info : Z) : M (vst H D) Z :=
  inode_ref ← _ext2_get_inode_ref inode fs_info;
  if inode_ref =? 0 then mret (-1)
  else
    fs ← load_filesystem fs_info;
    r ← block_loop (λ i buffer, _ext2_read_inode_block inode_ref i buffer fs_info)
          inode_ref offset block_count buf (fs_block_size fs);
    mret (s32 r).

Definition ext2_write_file (inode offset buf block_count fs_info : Z) : M (vst H D) Z :=
  inode_ref ← _ext2_get_inode_ref inode fs_info;
  if inode_ref =? 0 then mret (-1)
  else
    fs ← load_filesystem fs_info;
    r ← block_loop (λ i buffer, _ext2_write_inode_block inode_ref i buffer fs_info)
          inode_ref offset block_count buf (fs_block_size fs);
    mret (s32 r).

Definition ext2_update_blkcnt (inode_ref inode newcount fs_info : Z) : M (vst H D) Z :=
  _ ← on_bytes (store32 (inode_ref + IN_DISK_SECTORS) (u32 newcount));
  _ext2_write_inode inode_ref inode fs_info.

Definition ext2_update_node (new : Z) : M (vst H D) Z :=
  n ← load_node new;
  inode_ref ← _ext2_get_inode_ref (n_offset n) (n_fs_info n);
  if inode_ref =? 0 then mret (-1)
  else
    _ ← on_bytes (store32 (inode_ref + IN_SIZE) (n_filelength n));
    _ext2_write_inode inode_ref (n_offset n) (n_fs_info n).

(** ** Types *)

Definition _ext2_inode_type_to_vfs_type (type : Z) : Z :=
  if type =? EXT2_INODE_TYPE_DIR then VFS_DIRECTORY
  else if type =? EXT2_INODE_TYPE_REG then VFS_FILE
  else if type =? EXT2_INODE_TYPE_CHR then VFS_CHARDEVICE
  else if type =? EXT2_INODE_TYPE_BLK then VFS_BLOCKDEVICE
  else if type =? EXT2_INODE_TYPE_FIFO then VFS_PIPE
  else if type =? EXT2_INODE_TYPE_LINK then VFS_SYMLINK
  else if type =? EXT2_INODE_TYPE_SOCK then VFS_SOCKET
  else 0.

Definition _ext2_vfs_type_to_inode_type (type : Z) : Z :=
  if type =? VFS_DIRECTORY then EXT2_INODE_TYPE_DIR
  else if type =? VFS_CHARDEVICE then EXT2_INODE_TYPE_CHR
  else if type =? VFS_BLOCKDEVICE then EXT2_INODE_TYPE_BLK
  else if type =? VFS_PIPE then EXT2_INODE_TYPE_FIFO
  else if type =? VFS_SOCKET then EXT2_INODE_TYPE_SOCK
  else if type =? VFS_SYMLINK then EXT2_INODE_TYPE_LINK
  else EXT2_INODE_TYPE_REG.

(** ** Directories *)

Definition store_dirstream (p : Z) (d : DIR) : M (vst H D) unit :=
  modify (λ s, set_dirs (<[p := d]> (vs_dirs s)) s).

(** The block that holds the next entry; [false] when there is none. *)
Definition advance_dir (dirp : Z) : M (vst H D) bool :=
  d ← load_dirstream dirp;
  fs ← load_filesystem (d_fs_info d);
  if fs_block_size fs <=? d_next_direntry_offset d then
    let index := s32 (d_blockpointerindex d + 1) in
    _ ← store_dirstream dirp (Dir (d_fs_info d) (d_next_direntry_offset d) (d_inode d) index
          (d_lastentrysize d) (d_filebuffer d) (d_dirent d));
    inode_ref ← _ext2_get_inode_ref (d_inode d) (d_fs_info d);
    r ← _ext2_read_inode_block inode_ref (u32 index) (d_filebuffer d) (d_fs_info d);
    if r =? 0 then _ ← vfs_errno 0; mret false
    else
      _ ← store_dirstream dirp (Dir (d_fs_info d) 0 (d_inode d) index
            (d_lastentrysize d) (d_filebuffer d) (d_dirent d));
      mret true
  else mret true.

(** The name of the entry [tmp] into the dirent. *)
Definition copy_name (tmp dirent : Z) : M (vst H D) unit :=
  name_length ← field8 tmp DE_NAME_LENGTH;
  _ ← on_bytes (memcpy (dirent + DIRENT_NAME) (tmp + DE_NAME) name_length);
  name_length ← field8 tmp DE_NAME_LENGTH;
  poke (dirent + DIRENT_NAME + name_length) 0.

(** The other fields of the dirent. *)
Definition fill_dirent (tmp dirent next : Z) : M (vst H D) unit :=
  ino ← field32 tmp DE_INODE;
  _ ← on_bytes (store32 (dirent + DI_INO) ino);
  _ ← on_bytes (store32 (dirent + DI_OFF) next);
  name_length ← field8 tmp DE_NAME_LENGTH;
  _ ← on_bytes (store16 (dirent + DI_RECLEN) (name_length + SIZEOF_DIRENT + 1));
  type ← field8 tmp DE_TYPE;
  poke (dirent + DI_TYPE) (_ext2_inode_type_to_vfs_type type).

Definition ext2_read_dir (dirp : Z) : M (vst H D) Z :=
  more ← advance_dir dirp;
  if negb (more : bool) then mret 0
  else
    d ← load_dirstream dirp;
    let tmp := u32 (d_filebuffer d + d_next_direntry_offset d) in
    ino ← field32 tmp DE_INODE;
    if ino =? 0 then mret 0
    else
      _ ← copy_name tmp (d_dirent d);
      size ← field16 tmp DE_TOTAL_SIZE;
      let next := u32 (d_next_direntry_offset d + size) in
      _ ← store_dirstream dirp (Dir (d_fs_info d) next (d_inode d) (d_blockpointerindex d) size
            (d_filebuffer d) (d_dirent d));
      _ ← fill_dirent tmp (d_dirent d) next;
      mret (d_dirent d).

(** The dirent is inside the DIR structure. *)
Definition ext2_open_dir_stream (inode fs_info : Z) : M (vst H D) Z :=
  inode_ref ← _ext2_get_inode_ref inode fs_info;
  tp ← field16 inode_ref IN_TYPE_PERMISSIONS;
  if Z.land tp EXT2_INODE_TYPE_DIR =? 0 then mret 0
  else
    ret ← kmalloc_v (SIZEOF_DIR + NAME_MAX);
    _ ← on_bytes (memset ret 0 SIZEOF_DIR);
    fs ← load_filesystem fs_info;
    filebuffer ← kmalloc_v (fs_block_size fs);
    _ ← store_dirstream ret (Dir fs_info 0 inode 0 0 filebuffer (ret + DIR_DIRENT));
    _ ← _ext2_read_inode_block inode_ref 0 filebuffer fs_info;
    _ ← kfree_v inode_ref;
    mret ret.

Definition ext2_vfs_open_dir_stream (vfs_node : Z) : M (vst H D) Z :=
  n ← load_node vfs_node; ext2_open_dir_stream (n_offset n) (n_fs_info n).

Definition ext2_close_dir_stream (dirp : Z) : M (vst H D) Z :=
  r ← kfree_v dirp;
  _ ← modify (λ s, set_dirs (delete dirp (vs_dirs s)) s);
  mret r.

(** ** Allocation *)

Definition find_bit (word : Z) : M (vst H D) (option Z) :=
  loop 33 (λ j,
    if j <? 32 then (if getbit word j =? 0 then mret (inr (Some j)) else mret (inl (j + 1)))
    else mret (inr None)) 0.

(** The first zero bit of the bitmap in memory, which is then set: word and bit. *)
Definition take_bit (bitmap words : Z) : M (vst H D) (option (Z * Z)) :=
  loop (S (Z.to_nat words)) (λ i,
    if i <? words then
      w ← word_at bitmap i;
      if w =? 4294967295 then mret (inl (i + 1))
      else
        j ← find_bit w;
        match j with
        | Some j =>
          _ ← on_bytes (store32 (u32 (bitmap + 4 * i)) (Z.lor w (u32 (Z.shiftl 1 j))));
          mret (inr (Some (i, j)))
        | None => mret (inl (i + 1))
        end
    else mret (inr None)) 0.

(** The loop over the block groups; [field] is the descriptor's bitmap, [rd] how it
    is read. *)
Definition alloc_loop (field : Z) (rd : Z → Z → Z → M (vst H D) Z) (fs_info bitmap : Z) : M (vst H D) Z :=
  fs ← load_filesystem fs_info;
  bgd_amount ← blockgroup_count (fs_superblock fs);
  loop (S (Z.to_nat bgd_amount)) (λ bgd_i,
    if bgd_i <? bgd_amount then
      blk ← field32 (fs_blockgroup_list fs + SIZEOF_BGD * bgd_i) field;
      let location := u32 (blk * fs_block_size fs) in
      _ ← rd location bitmap (fs_block_size fs);
      r ← take_bit bitmap (fs_block_size fs / 4);
      match r with
      | Some (i, j) =>
        _ ← on_storage (disk_write location bitmap (fs_block_size fs) tmp1 tmp2);
        mret (inr (u32 (i * 32 + j)))
      | None => mret (inl (bgd_i + 1))
      end
    else mret (inr 0)) 0.

Definition _ext2_alloc_block (fs_info : Z) : M (vst H D) Z :=
  fs ← load_filesystem fs_info;
  block_bitmap ← kmalloc_v (fs_block_size fs);
  free_block ← alloc_loop BGD_BLOCK_BITMAP
    (λ location buf size, on_storage (disk_read location buf size tmp1 tmp2)) fs_info block_bitmap;
  _ ← kfree_v block_bitmap;
  mret free_block.

Definition _ext2_alloc_inode (fs_info : Z) : M (vst H D) Z :=
  fs ← load_filesystem fs_info;
  inode_bitmap ← kmalloc_v (fs_block_size fs);
  free_inode ← alloc_loop BGD_INODE_BITMAP
    (λ location buf size, ext2_disk_read location buf size fs_info) fs_info inode_bitmap;
  _ ← kfree_v inode_bitmap;
  mret free_inode.

Definition _ext2_dealloc_inode (inode fs_info : Z) : M (vst H D) unit := mret tt.

Definition ext2_add_dir (parent_inode inode name type_indicator fs_info : Z) : M (vst H D) Z := mret 0.

Definition _ext2_create_inode (parent_inode name type permissions uid gid size flags buf fs_info : Z) :
    M (vst H D) Z :=
  new_inode ← _ext2_alloc_inode fs_info;
  r ← ext2_add_dir parent_inode new_inode name type fs_info;
  if r =? -1 then _ ← _ext2_dealloc_inode new_inode fs_info; mret 0
  else
    ref ← kmalloc_v SIZEOF_INODE;
    _ ← on_bytes (memset ref 0 SIZEOF_INODE);
    _ ← on_bytes (store16 (ref + IN_TYPE_PERMISSIONS) (Z.lor type permissions));
    _ ← on_bytes (store16 (ref + IN_UID) uid);
    _ ← on_bytes (store16 (ref + IN_GID) gid);
    _ ← on_bytes (store32 (ref + IN_SIZE) size);
    _ ← on_bytes (store32 (ref + IN_FLAGS) flags);
    fs ← load_filesystem fs_info;
    let bs := fs_block_size fs in
    sectors ← (if size =? 0 then mret 0
               else
                 rest ← umod size bs;
                 q ← udiv size bs;
                 mret (if rest =? 0 then q else q + 1));
    _ ← on_bytes (store32 (ref + IN_DISK_SECTORS) sectors);
    _ ← loop (S (Z.to_nat sectors)) (λ i,
          if i <? sectors then
            block ← _ext2_alloc_block fs_info;
            if block =? 0 then mret (inr tt)
            else _ ← _ext2_write_block block (buf + i * bs) fs_info; mret (inl (i + 1))
          else mret (inr tt)) 0;
    _ ← _ext2_write_inode ref new_inode fs_info;
    mret new_inode.

Definition ext2_create_node (node name flags : Z) : M (vst H D) Z :=
  n ← load_node node;
  parent ← load_node (n_parent n);
  r ← _ext2_create_inode (n_offset parent) name (_ext2_vfs_type_to_inode_type (n_type n))
        (n_permissions n) (u16 (n_uid n)) (u16 (n_gid n)) 0 (u16 flags) 0 (n_fs_info n);
  mret (s32 r).

(** ** Nodes and set-up *)

Definition ext2_vfs_entry (inode name id fs_info : Z) : M (vst H D) Z :=
  if inode =? 0 then mret 0
  else
    inode_ref ← _ext2_get_inode_ref inode fs_info;
    if inode_ref =? 0 then mret 0
    else
      node ← new_node;
      tp ← field16 inode_ref IN_TYPE_PERMISSIONS;
      uid ← field16 inode_ref IN_UID;
      gid ← field16 inode_ref IN_GID;
      size ← field32 inode_ref IN_SIZE;
      _ ← store_node node (VfsNode name (_ext2_inode_type_to_vfs_type (Z.land tp 61440))
            (Z.land tp 4095) uid gid id size fs_info inode 0 0 0 0 0 0 0 0 0 0 0 0 0 0);
      _ ← kfree_v inode_ref;
      mret node.

(** The addresses of the functions that are stored as pointers. *)
Definition FN_READ_FILE : Z := 1.
Definition FN_WRITE_FILE : Z := 2.
Definition FN_CREATE_NODE : Z := 3.
Definition FN_UPDATE_NODE : Z := 4.
Definition FN_OPEN_DIR_STREAM : Z := 5.
Definition FN_CLOSE_DIR_STREAM : Z := 6.
Definition FN_READ_DIR : Z := 7.
Definition FN_VFS_ENTRY : Z := 8.

Definition init_ext2_filesystem (name ext2_start disk_info : Z) : M (vst H D) Z :=
  ret ← kmalloc_v SIZEOF_FILESYSTEM;
  superblock ← _ext2_copy_superblock_into_memory ext2_start;
  sig ← field16 superblock SB_SIGNATURE;
  if negb (sig =? EXT2_SIGNATURE) then mret 0
  else
    blockgroup_list ← _ext2_get_all_block_group_descriptors superblock ext2_start;
    block_size ← ext2_block_size superblock;
    _ ← modify (λ s, set_filesystems (<[ret :=
          Filesystem name FS_EXT2 block_size disk_info superblock blockgroup_list EXT2_ROOT_INODE
            ext2_start FN_READ_FILE FN_WRITE_FILE FN_CREATE_NODE FN_UPDATE_NODE FN_OPEN_DIR_STREAM
            FN_CLOSE_DIR_STREAM FN_READ_DIR FN_VFS_ENTRY]> (vs_filesystems s)) s);
    mret ret.

(** A call through a pointer that should be [f]. *)
Definition call_if {A} (f ptr : Z) (c : M (vst H D) A) : M (vst H D) A := if ptr =? f then c else fault.

(** ext2's functions behind the pointers of the vfs; its nodes have no functions of
    their own. *)
Definition ext2_drivers (fs_name : Z) : VfsDrivers H D := {|
  call_open _ _ _ _ _ := fault;
  call_close _ _ := fault;
  call_read _ _ _ _ _ _ := fault;
  call_write _ _ _ _ _ _ := fault;
  call_creat _ _ _ _ := fault;
  call_opendir _ _ := fault;
  call_block_read f inode blk buf cnt fs := call_if FN_READ_FILE f (ext2_read_file inode blk buf cnt fs);
  call_block_write f inode blk buf cnt fs := call_if FN_WRITE_FILE f (ext2_write_file inode blk buf cnt fs);
  call_update_node f node := call_if FN_UPDATE_NODE f (ext2_update_node node);
  call_create_node f node name flags := call_if FN_CREATE_NODE f (ext2_create_node node name flags);
  call_dir_open f inode fs := call_if FN_OPEN_DIR_STREAM f (ext2_open_dir_stream inode fs);
  call_dir_close f dirp := call_if FN_CLOSE_DIR_STREAM f (ext2_close_dir_stream dirp);
  call_dir_read f dirp := call_if FN_READ_DIR f (ext2_read_dir dirp);
  call_makenode f inode name id fs := call_if FN_VFS_ENTRY f (ext2_vfs_entry inode name id fs);
  init_fs start disk := init_ext2_filesystem fs_name start disk
|}.
End ext2.
