(* ===== verification/Ext2Blocks.v ===== *)
(** * Where ext2 keeps things (kernel/fs/ext2/ext2.c)

    The location of inodes, the map from the blocks of a file to the blocks of the
    disk, and the reading of file blocks, against the layout of the partition. *)
From S2P Require Import Prelude LinkedList Frames Mm HeapApi LibK FdTable Disk Kmem FileIo Vfs VfsPath VfsOps Ext2.

(** ** Whole blocks of the disk *)

Section whole.
Context {D : Type} `{HB : BlockDevice D}.
Local Notation dbs := (block_size_of D).

Lemma disk_read_whole offset buf size tmp1 tmp2 m d :
  0 ≤ offset → 0 < size < 4294967296 → offset mod dbs = 0 → size mod dbs = 0 →
  offset + size ≤ Z.of_nat (length (contents d)) → mapped m buf size →
  ∃ r, disk_read offset buf size tmp1 tmp2 (m, d) =
         Ok (s32 r, (write_at m buf (slice (contents d) offset size), d)) ∧ 0 < r ≤ size ∧ r = size / dbs.
Proof.
  intros Ho Hs Hom Hsm Hend Hm. pose proof block_size_pos as Hpos.
  assert (Hc : size = size / dbs * dbs) by (pose proof (Z.div_mod size dbs); lia).
  assert (Hl : offset = offset / dbs * dbs) by (pose proof (Z.div_mod offset dbs); lia).
  assert (Hc0 : 0 < size / dbs) by nia. assert (Hcs : size / dbs ≤ size) by nia.
  exists (size / dbs). split; [|lia]. unfold disk_read. destruct (Z.eqb_spec dbs 0); [lia|].
  rewrite Hom, Hsm. destruct (Z.eqb_spec (size / dbs) 0); [lia|]. simpl.
  rewrite (bind_ok _ _ _ (buf, offset / dbs, size / dbs, 0) (m, d)) by done.
  destruct (Z.eqb_spec (size / dbs) 0); [lia|]. simpl.
  erewrite bind_ok.
  2: { erewrite bind_ok; [reflexivity|]. apply drv_read_blocks; [apply Z.div_pos; lia|lia|nia|].
       by rewrite <- Hc. }
  rewrite <- Hc, <- Hl. erewrite bind_ok by reflexivity. by rewrite u32_small by lia.
Qed.

Lemma disk_write_whole offset buf size tmp1 tmp2 m d bs :
  0 ≤ offset → 0 < size < 2147483648 → offset mod dbs = 0 → size mod dbs = 0 →
  offset + size ≤ Z.of_nat (length (contents d)) → Z.of_nat (length bs) = size →
  bytes_at m buf bs → Forall is_byte bs →
  ∃ d', disk_write offset buf size tmp1 tmp2 (m, d) = Ok (size, (m, d')) ∧
    contents d' = splice (contents d) offset bs.
Proof.
  intros Ho Hs Hom Hsm Hend Hlen Hb Hby. pose proof block_size_pos as Hpos.
  assert (Hc : size = size / dbs * dbs) by (pose proof (Z.div_mod size dbs); lia).
  assert (Hl : offset = offset / dbs * dbs) by (pose proof (Z.div_mod offset dbs); lia).
  assert (Hc0 : 0 < size / dbs) by nia. assert (Hcs : size / dbs ≤ size) by nia.
  destruct (drv_write_blocks (offset / dbs) buf (size / dbs) m d bs) as (d' & Hrun & Hd');
    [apply Z.div_pos; lia|nia|lia|done|done|].
  exists d'. rewrite <- Hl in Hd'. split; [|done].
  unfold disk_write. destruct (Z.eqb_spec dbs 0); [lia|]. rewrite Hom. simpl.
  rewrite Z.add_0_r, (u32_small size) by lia. rewrite Hsm, Z.sub_0_r, (u32_small size) by lia.
  rewrite (s32_small (size / dbs)) by lia.
  rewrite (bind_ok _ _ _ (offset / dbs, buf, 0) (m, d)) by done.
  destruct (Z.eqb_spec (size / dbs) 0); [lia|]. simpl.
  erewrite bind_ok.
  2: { by erewrite bind_ok by exact Hrun. }
  rewrite Z.eqb_refl. simpl. rewrite <- Hc, u32_small, s32_small by lia. done.
Qed.
End whole.

(** ** The mounted partition *)

Section part.
Context {H D : Type} `{HL : HeapLaws H} `{HB : BlockDevice D}.
Variables tmp1 tmp2 : Z.
Implicit Types s : vst H D.

(** Filesystem [fs] at [fs_info]: its blocks are whole blocks of the disk, and its
    size in bytes fits in 32 bits. *)
Record mounted s (fs_info : Z) (fs : filesystem) : Prop := Mounted {
  mt_fs : vs_filesystems s !! fs_info = Some fs;
  mt_bs : 16 ≤ fs_block_size fs ≤ 65536;
  mt_bs4 : fs_block_size fs mod 4 = 0;
  mt_bsd : fs_block_size fs mod block_size_of D = 0;
  mt_part : 0 ≤ fs_partstart fs;
  mt_partd : fs_partstart fs mod block_size_of D = 0;
  mt_size : Z.of_nat (length (contents (vs_fs s))) < 4294967296
}.

(** The bytes of block [b] of the partition. *)
Definition block_of (d : D) (fs : filesystem) (b : Z) : list Z :=
  slice (contents d) (fs_partstart fs + b * fs_block_size fs) (fs_block_size fs).

Definition on_part (d : D) (fs : filesystem) (b : Z) : Prop :=
  0 ≤ b ∧ fs_partstart fs + (b + 1) * fs_block_size fs ≤ Z.of_nat (length (contents d)).

Lemma mounted_same s s' fs_info fs :
  mounted s fs_info fs → vs_filesystems s' = vs_filesystems s → vs_fs s' = vs_fs s →
  mounted s' fs_info fs.
Proof. intros [] H1 H2. split; rewrite ?H1, ?H2; done. Qed.

Lemma run_load_fs s p fs : vs_filesystems s !! p = Some fs → load_filesystem p s = Ok (fs, s).
Proof. intros Hf. unfold load_filesystem, get, of_option, mbind, M_bind. by rewrite Hf. Qed.

Lemma block_of_length d fs b : 0 ≤ fs_partstart fs → 0 < fs_block_size fs → on_part d fs b →
  Z.of_nat (length (block_of d fs b)) = fs_block_size fs.
Proof. intros H1 H2 [H3 H4]. unfold block_of. rewrite slice_length; nia. Qed.

Lemma block_of_bytes d fs b : Forall is_byte (block_of d fs b).
Proof. unfold block_of, slice. apply Forall_take, Forall_drop, contents_bytes. Qed.

Lemma mod_mul_add a b c n : a mod n = 0 → c mod n = 0 → 0 < n → (a + b * c) mod n = 0.
Proof.
  intros Ha Hc Hn. apply Z.mod_divide in Ha as [x ->]; [|lia]. apply Z.mod_divide in Hc as [y ->]; [|lia].
  replace (x * n + b * (y * n)) with ((x + b * y) * n) by ring. by rewrite Z.mod_mul by lia.
Qed.

(** Reading a block of the partition into a mapped buffer. *)
Lemma read_block_run s fs_info fs b buf :
  mounted s fs_info fs → on_part (vs_fs s) fs b → mapped (vs_mem s) buf (fs_block_size fs) →
  ∃ r, ext2_disk_read tmp1 tmp2 (u32 (b * fs_block_size fs)) buf (fs_block_size fs) fs_info s =
    Ok (r, set_kmem (write_at (vs_mem s) buf (block_of (vs_fs s) fs b)) (vs_heap s) s) ∧ u32 r ≠ 0.
Proof.
  intros [Hf Hbs Hbs4 Hbsd Hp Hpd Hsz] [Hb0 Hb] Hm. pose proof block_size_pos as Hpos.
  destruct (disk_read_whole (fs_partstart fs + b * fs_block_size fs) buf (fs_block_size fs) tmp1 tmp2
    (vs_mem s) (vs_fs s)) as (r & Hrun & Hr & _); [nia|lia|by apply mod_mul_add|done|nia|done|].
  exists (s32 r). split.
  - unfold ext2_disk_read. rewrite (bind_ok _ _ _ _ _ (run_load_fs s fs_info fs Hf)).
    rewrite (u32_small (b * _)), u32_small by nia. unfold on_storage.
    replace (b * fs_block_size fs + fs_partstart fs) with (fs_partstart fs + b * fs_block_size fs) by lia.
    rewrite Hrun. by destruct s.
  - rewrite s32_small, u32_small by lia. lia.
Qed.

(** A 32-bit word of a block in a scratch buffer. *)
Lemma word_at_run s m0 L r p n h bs i :
  scratch m0 L r p n (vs_mem s) h → bytes_at (vs_mem s) p bs → 0 ≤ i →
  4 * i + 4 ≤ Z.of_nat (length bs) ≤ n →
  word_at p i s = Ok (u32_at bs (4 * i), s).
Proof.
  intros Hsc Hb Hi Hl. pose proof (sc_pos _ _ _ _ _ _ _ Hsc) as [Hp Hpn].
  unfold word_at. rewrite (u32_small i), u32_small by lia. apply run_read. by apply load32_at; [|lia|lia].
Qed.

(** A block of the partition read into a buffer of its own. *)
Lemma load_block_run s fs_info fs b L r :
  mounted s fs_info fs → on_part (vs_fs s) fs b →
  heap_rep (vs_mem s) (vs_heap s) L r → charge (fs_block_size fs) ≤ r →
  ∃ p c m1 m2 h1 r1, kmalloc_v (fs_block_size fs) s = Ok (p, set_kmem m1 h1 s) ∧ p ≠ 0 ∧
    ext2_disk_read tmp1 tmp2 (u32 (b * fs_block_size fs)) p (fs_block_size fs) fs_info (set_kmem m1 h1 s) =
      Ok (r1, set_kmem m2 h1 s) ∧
    scratch (vs_mem s) L (r - charge (fs_block_size fs)) p c m1 h1 ∧
    scratch (vs_mem s) L (r - charge (fs_block_size fs)) p c m2 h1 ∧
    ∀ i, 0 ≤ i < fs_block_size fs / 4 →
      word_at p i (set_kmem m2 h1 s) = Ok (u32_at (block_of (vs_fs s) fs b) (4 * i), set_kmem m2 h1 s).
Proof.
  intros Hmt Hib Hh Hr. pose proof Hmt as [Hf Hbs Hbs4 Hbsd Hp Hpd Hsz].
  destruct (run_kmalloc s (fs_block_size fs) L r Hh) as (p & n & m1 & h1 & Hm & Hn & Hsc); [lia|done|].
  pose proof (block_of_length _ _ _ Hp ltac:(lia) Hib) as Hlen.
  destruct (read_block_run (set_kmem m1 h1 s) fs_info fs b p) as (r1 & Hrd & _).
  { by eapply mounted_same. } { done. }
  { eapply mapped_sub; [apply (sc_mapped _ _ _ _ _ _ _ Hsc)|lia|lia]. }
  simpl in Hrd. set (m2 := write_at m1 p (block_of (vs_fs s) fs b)) in *.
  assert (Hsc2 : scratch (vs_mem s) L (r - charge (fs_block_size fs)) p n m2 h1)
    by (apply scratch_write; [done|lia|lia]).
  pose proof (sc_pos _ _ _ _ _ _ _ Hsc). exists p, n, m1, m2, h1, r1.
  split_and!; try done; [lia|]. intros i Hi.
  eapply word_at_run; [exact Hsc2|apply write_at_in|lia|]. rewrite Hlen.
  pose proof (Z.div_mod (fs_block_size fs) 4). lia.
Qed.

(** A block pointer that is stored in block [ib]. *)
Lemma indirect_run s fs_info fs ib k L r :
  mounted s fs_info fs → on_part (vs_fs s) fs ib → 0 ≤ k < fs_block_size fs / 4 →
  let w := u32_at (block_of (vs_fs s) fs ib) (4 * k) in
  0 < w * fs_block_size fs < 4294967296 →
  heap_rep (vs_mem s) (vs_heap s) L r → charge (fs_block_size fs) ≤ r →
  ∃ h', handle_indirect_bp tmp1 tmp2 ib k fs_info s =
      Ok (w * fs_block_size fs, set_kmem (vs_mem s) h' s) ∧
    heap_rep (vs_mem s) h' L (r - charge (fs_block_size fs)).
Proof.
  intros Hmt Hib Hk w Hw Hh Hr.
  destruct (load_block_run s fs_info fs ib L r) as (p & c & m1 & m2 & h1 & r1 & Hm & Hp0 & Hrd & _ & Hsc & Hword);
    try done.
  destruct (run_kfree _ L _ p c (set_kmem m2 h1 s) Hsc) as (h' & Hfree & Hh').
  exists h'. split; [|done]. unfold handle_indirect_bp.
  rewrite (bind_ok _ _ _ _ _ (run_load_fs s fs_info fs (mt_fs _ _ _ Hmt))), (bind_ok _ _ _ _ _ Hm).
  destruct (Z.eqb_spec p 0); [done|]. rewrite (bind_ok _ _ _ _ _ Hrd), (bind_ok _ _ _ _ _ (Hword k Hk)).
  fold w. rewrite (u32_small (w * _)) by lia. destruct (Z.eqb_spec (w * fs_block_size fs) 0); [lia|].
  rewrite (bind_ok _ _ _ (w * fs_block_size fs) (set_kmem m2 h1 s)) by done.
  by rewrite (bind_ok _ _ _ _ _ Hfree).
Qed.

(** ** The map from the blocks of a file to the blocks of the disk *)

(** The pointer for block [n] of a file, from its inode [ino]: direct, from the
    indirect block or through the doubly indirect one. *)
Definition bmap (d : D) (fs : filesystem) (ino : list Z) (n : Z) : Z :=
  let per := fs_block_size fs / 4 in
  if n <? 12 then u32_at ino (IN_DIRECT + 4 * n)
  else if n <? per + 12 then u32_at (block_of d fs (u32_at ino IN_SINGLE)) (4 * (n - 12))
  else
    let k := n - per - 12 in
    let ib := u32_at (block_of d fs (u32_at ino IN_DOUBLE)) (4 * (k / per)) in
    u32_at (block_of d fs ib) (4 * (k mod per)).

(** Block [n] is below the code's limit and every pointer on the way to it, its own
    included, is a block of the partition other than 0. *)
Definition has_block (d : D) (fs : filesystem) (ino : list Z) (n : Z) : Prop :=
  let per := fs_block_size fs / 4 in
  0 ≤ n < per * per + 12 ∧ 0 < bmap d fs ino n ∧ on_part d fs (bmap d fs ino n) ∧
  (12 ≤ n < per + 12 → on_part d fs (u32_at ino IN_SINGLE)) ∧
  (per + 12 ≤ n →
     0 < u32_at ino IN_DOUBLE ∧ on_part d fs (u32_at ino IN_DOUBLE) ∧
     let ib := u32_at (block_of d fs (u32_at ino IN_DOUBLE)) (4 * ((n - per - 12) / per)) in
     0 < ib ∧ on_part d fs ib).

Lemma u32_s32 z : u32 (s32 z) = u32 z.
Proof.
  unfold s32. pose proof (u32_range z). destruct (u32 z <? 2147483648).
  - apply u32_small; lia.
  - unfold u32 at 1. rewrite <- (Z_mod_plus_full _ 1). replace (u32 z - 4294967296 + 1 * 4294967296) with (u32 z) by lia.
    by apply u32_small.
Qed.

Lemma pow_square per : 0 ≤ per ≤ 16384 → u32 (pow (s32 per) 2) = per * per.
Proof.
  intros Hp. unfold pow. simpl. rewrite (s32_small per), u32_s32, u32_small by nia. done.
Qed.

Lemma field32_run s p bs k : bytes_at (vs_mem s) p bs → 0 ≤ k → k + 4 ≤ Z.of_nat (length bs) →
  field32 p k s = Ok (u32_at bs k, s).
Proof. intros Hb Hk Hl. apply run_read. by apply load32_at. Qed.

Lemma on_part_small d fs b : 0 ≤ fs_partstart fs → Z.of_nat (length (contents d)) < 4294967296 →
  16 ≤ fs_block_size fs → on_part d fs b → b * fs_block_size fs < 4294967296.
Proof. intros H1 H2 H3 [H4 H5]. nia. Qed.

(** The doubly indirect case. *)
Lemma double_run s fs_info fs inode ino n L r :
  mounted s fs_info fs → bytes_at (vs_mem s) inode ino → 128 ≤ Z.of_nat (length ino) →
  has_block (vs_fs s) fs ino n → fs_block_size fs / 4 + 12 ≤ n →
  heap_rep (vs_mem s) (vs_heap s) L r → charge (fs_block_size fs) * 2 ≤ r →
  ∃ h', _ext2_get_inode_data_offset tmp1 tmp2 inode n fs_info s =
      Ok (bmap (vs_fs s) fs ino n * fs_block_size fs, set_kmem (vs_mem s) h' s) ∧
    heap_rep (vs_mem s) h' L (r - charge (fs_block_size fs) * 2).
Proof.
  intros Hmt Hino Hil (Hn & Hw0 & Hw & _ & Hdb) Hge Hh Hr. destruct (Hdb Hge) as (Hd0 & Hd & Hib0 & Hib).
  pose proof Hmt as [Hf Hbs Hbs4 Hbsd Hp Hpd Hsz]. set (bs := fs_block_size fs) in *. set (per := bs / 4) in *.
  assert (Hper : 4 ≤ per ≤ 16384) by (split; [apply Z.div_le_lower_bound|apply Z.div_le_upper_bound]; lia).
  pose proof (charge_pos bs ltac:(lia)).
  set (k := n - per - 12) in *. set (dblk := u32_at ino IN_DOUBLE) in *.
  set (ib := u32_at (block_of (vs_fs s) fs dblk) (4 * (k / per))) in *.
  assert (Hkd : 0 ≤ k / per < per) by (split; [apply Z.div_pos|apply Z.div_lt_upper_bound]; nia).
  pose proof (Z.mod_pos_bound k per ltac:(lia)) as Hkm.
  destruct (load_block_run s fs_info fs dblk L r) as (p & c & m1 & m2 & h1 & r1 & Hm & Hp0 & Hrd & Hsc & Hsc2 & Hword);
    [done|done|done|fold bs; lia|]. fold bs per in Hm, Hrd, Hsc, Hsc2, Hword.
  assert (Hb : bmap (vs_fs s) fs ino n = u32_at (block_of (vs_fs s) fs ib) (4 * (k mod per))).
  { unfold bmap. fold bs per. destruct (Z.ltb_spec n 12); [lia|]. destruct (Z.ltb_spec n (per + 12)); [lia|]. done. }
  pose proof (on_part_small _ _ _ Hp Hsz ltac:(fold bs; lia) Hw) as Hws. fold bs in Hws.
  destruct (indirect_run (set_kmem m2 h1 s) fs_info fs ib (k mod per) (<[p := c]> L) (r - charge bs))
    as (h2 & Hind & Hh2); try done.
  { simpl. rewrite <- Hb. fold bs. nia. }
  { apply (sc_heap _ _ _ _ _ _ _ Hsc2). } { fold bs. lia. }
  simpl in Hind, Hh2. fold bs in Hind, Hh2. rewrite <- Hb in Hind.
  destruct (run_kfree _ L _ p c (set_kmem m2 h2 s) (scratch_heap _ _ _ _ _ _ _ _ _ Hsc2 Hh2)) as (h' & Hfree & Hh').
  exists h'. split; [|by replace (r - charge bs * 2) with (r - charge bs - charge bs) by lia].
  unfold _ext2_get_inode_data_offset. rewrite (bind_ok _ _ _ _ _ (run_load_fs s fs_info fs Hf)). fold bs per.
  unfold EXT2_DIRECT_BLOCK_POINTER_AMOUNT. destruct (Z.ltb_spec n 12); [lia|].
  rewrite (u32_small (per + 12)) by lia. destruct (Z.ltb_spec n (per + 12)); [lia|].
  rewrite pow_square by lia. rewrite (u32_small (per * per + 12)) by nia.
  destruct (Z.ltb_spec n (per * per + 12)); [|lia]. rewrite (bind_ok _ _ _ _ _ Hm).
  destruct (Z.eqb_spec p 0); [done|].
  rewrite (bind_ok _ _ _ dblk (set_kmem m1 h1 s)).
  2: { apply field32_run; [|unfold IN_DOUBLE; lia|unfold IN_DOUBLE; lia].
       eapply bytes_at_sub; [by eapply scratch_sub|done]. }
  destruct (Z.eqb_spec dblk 0); [lia|]. rewrite (bind_ok _ _ _ _ _ Hrd).
  fold k. rewrite (u32_small k) by nia. unfold udiv, umod. destruct (Z.eqb_spec per 0); [lia|].
  rewrite (bind_ok _ _ _ (k / per) (set_kmem m2 h1 s)) by done.
  rewrite (bind_ok _ _ _ (k mod per) (set_kmem m2 h1 s)) by done.
  rewrite (bind_ok _ _ _ _ _ (Hword _ Hkd)). fold ib.
  destruct (Z.eqb_spec ib 0); [lia|]. rewrite (bind_ok _ _ _ _ _ Hind). by rewrite (bind_ok _ _ _ _ _ Hfree).
Qed.

Lemma data_offset_run s fs_info fs inode ino n L r :
  mounted s fs_info fs → bytes_at (vs_mem s) inode ino → 128 ≤ Z.of_nat (length ino) →
  has_block (vs_fs s) fs ino n →
  heap_rep (vs_mem s) (vs_heap s) L r → charge (fs_block_size fs) * 2 ≤ r →
  ∃ h', _ext2_get_inode_data_offset tmp1 tmp2 inode n fs_info s =
      Ok (bmap (vs_fs s) fs ino n * fs_block_size fs, set_kmem (vs_mem s) h' s) ∧
    heap_rep (vs_mem s) h' L (r - charge (fs_block_size fs) * 2).
Proof.
  intros Hmt Hino Hil Hhas Hh Hr. destruct (decide (fs_block_size fs / 4 + 12 ≤ n)) as [Hge|Hlt];
    [by eapply double_run|].
  destruct Hhas as (Hn & Hw0 & Hw & Hsg & _). pose proof Hmt as [Hf Hbs Hbs4 Hbsd Hp Hpd Hsz].
  pose proof (charge_pos (fs_block_size fs) ltac:(lia)).
  pose proof (on_part_small _ _ _ Hp Hsz ltac:(lia) Hw) as Hws.
  assert (Hper : 4 ≤ fs_block_size fs / 4 ≤ 16384)
    by (split; [apply Z.div_le_lower_bound|apply Z.div_le_upper_bound]; lia).
  unfold _ext2_get_inode_data_offset. rewrite (bind_ok _ _ _ _ _ (run_load_fs s fs_info fs Hf)).
  unfold EXT2_DIRECT_BLOCK_POINTER_AMOUNT. unfold bmap in *. destruct (Z.ltb_spec n 12).
  - exists (vs_heap s). split.
    + rewrite (bind_ok _ _ _ (u32_at ino (IN_DIRECT + 4 * n)) s).
      2: { apply field32_run; [done|unfold IN_DIRECT; lia|unfold IN_DIRECT; lia]. }
      by rewrite u32_small, set_kmem_id by nia.
    + eapply heap_rep_room; [done|lia].
  - rewrite (u32_small (_ + 12)) by lia. destruct (Z.ltb_spec n (fs_block_size fs / 4 + 12)); [|lia].
    destruct (indirect_run s fs_info fs (u32_at ino IN_SINGLE) (n - 12) L r) as (h' & Hrun & Hh');
      try done; [apply Hsg; lia|lia|nia|lia|].
    exists h'. split; [|eapply heap_rep_room; [done|lia]].
    rewrite (bind_ok _ _ _ (u32_at ino IN_SINGLE) s); [done|].
    apply field32_run; [done|unfold IN_SINGLE; lia|unfold IN_SINGLE; lia].
Qed.
End part.

(** ** A small volume

    128-byte blocks from the second sector: an inode in block 1, data in blocks 2, 3
    and 5, an indirect block 4 and a doubly indirect block 6 that leads to block 7. *)

Definition le32 (w : Z) : list Z := [w; 0; 0; 0].
Definition words (ws : list Z) (n : nat) : list Z := concat (le32 <$> ws) ++ replicate (n - 4 * length ws) 0.

Definition small_inode : list Z := replicate 40 0 ++ words [3; 2; 0; 0; 0; 0; 0; 0; 0; 0; 0; 0; 4; 6] 88.

Definition small_image : listdisk 128 :=
  replicate 256 0 ++ small_inode ++ replicate 128 7 ++ replicate 128 9 ++ words [2; 5] 128 ++
  replicate 128 8 ++ words [7] 128 ++ words [5] 128.

(** The superblock and the descriptors are at 400 and 500 in memory. *)
Definition small_fs : filesystem := Filesystem 0 FS_EXT2 128 0 400 500 2 128 FN_READ_FILE FN_WRITE_FILE
  FN_CREATE_NODE FN_UPDATE_NODE FN_OPEN_DIR_STREAM FN_CLOSE_DIR_STREAM FN_READ_DIR FN_VFS_ENTRY.

Definition small_sb : list Z := replicate 40 0 ++ words [1] 60.
Definition small_bgds : list Z := words [0; 0; 1] 32.

(** The buffers of disk_read are at 600 and 730, an inode at 870, space at 1100. *)
Definition small_mem : bmem :=
  write_at (write_at (write_at (write_at (write_at demo_strings 400 small_sb) 500 small_bgds)
    600 (replicate 258 0)) 870 small_inode) 1100 (replicate 400 0).

Definition small_node : vfs_node := VfsNode 1010 VFS_FILE 0 0 0 2 256 3000 1 0 0 0 0 0 0 0 0 0 0 0 0 0 0.

Definition small_nodes : gmap Z vfs_node :=
  {[ 2000 := demo_node 0 0 2100; 2100 := demo_node 1000 0 2200; 2200 := small_node ]}.

Definition small_vfs : vst mm (listdisk 128) :=
  Vst small_mem kheap_mm small_image small_nodes ∅ ∅ {[ 3000 := small_fs ]} demo_fds
    (Some (TaskCtx 1030 0 0)) 2000 3 0.

Lemma small_mounted : mounted small_vfs 3000 small_fs.
Proof. split; done || (simpl; lia). Qed.

Lemma small_heap : heap_rep small_mem kheap_mm ∅ 16777216.
Proof. apply low_rep_heap, (bool_decide_unpack _). by vm_compute. Qed.

Lemma bytes_at_check m p bs :
  forallb (λ '(i, b), bool_decide (m !! (p + Z.of_nat i) = Some b)) (imap pair bs) = true → bytes_at m p bs.
Proof.
  intros Hb i b Hi. rewrite forallb_forall in Hb. specialize (Hb (i, b)). simpl in Hb.
  apply bool_decide_eq_true in Hb; [done|]. apply list_elem_of_In, list_elem_of_lookup. exists i.
  by rewrite list_lookup_imap, Hi.
Qed.

Lemma small_on_part b : 0 ≤ b ≤ 7 → on_part small_image small_fs b.
Proof.
  intros Hb. split; [lia|]. change (Z.of_nat (length (contents small_image))) with 1152. simpl. lia.
Qed.

Lemma small_has_block n b : n ∈ [0; 1; 12; 13; 44] → bmap small_image small_fs small_inode n = b → 0 < b ≤ 7 →
  has_block small_image small_fs small_inode n.
Proof.
  intros Hn Hb Hr. unfold has_block. rewrite Hb. change (fs_block_size small_fs / 4) with 32.
  change (u32_at small_inode IN_SINGLE) with 4. change (u32_at small_inode IN_DOUBLE) with 6.
  assert (0 ≤ n ≤ 44) by (repeat (apply elem_of_cons in Hn as [->|Hn]; [lia|]); by apply elem_of_nil in Hn).
  split_and!; [lia|lia|lia|apply small_on_part; lia|intros _; apply small_on_part; lia|].
  intros Hge. replace ((n - 32 - 12) / 32) with 0 by (replace n with 44 by lia; reflexivity).
  split; [lia|]. split; [apply small_on_part; lia|].
  match goal with |- 0 < ?x ∧ _ => change x with 7 end. split; [lia|]. apply small_on_part; lia.
Qed.

(** ** Theorems *)



(** The limit of the doubly indirect blocks is too low.  With [per] pointers in
    a block, the doubly indirect block reaches the blocks up to [per * per + per + 12]
    of a file, but from [per * per + 12] on [_ext2_get_inode_data_offset] returns 0,
    which its callers take for the end of the file. *)
Theorem double_indirect_limit {H D : Type} `{!KernelHeap H, !DiskDriver D} tmp1 tmp2
    (s : vst H D) fs_info fs inode n :
  vs_filesystems s !! fs_info = Some fs → 16 ≤ fs_block_size fs ≤ 65536 →
  let per := fs_block_size fs / 4 in
  per * per + 12 ≤ n < per * per + per + 12 →
  (n - per - 12) / per < per ∧
  _ext2_get_inode_data_offset tmp1 tmp2 inode n fs_info s = Ok (0, s).
Proof.
  intros Hf Hbs per Hn.
  assert (Hper : 4 ≤ per ≤ 16384) by (split; [apply Z.div_le_lower_bound|apply Z.div_le_upper_bound]; lia).
  split; [apply Z.div_lt_upper_bound; nia|].
  unfold _ext2_get_inode_data_offset. rewrite (bind_ok _ _ _ _ _ (run_load_fs s fs_info fs Hf)). fold per.
  unfold EXT2_DIRECT_BLOCK_POINTER_AMOUNT. rewrite pow_square, !u32_small by nia.
  destruct (Z.ltb_spec n 12); [nia|]. destruct (Z.ltb_spec n (per + 12)); [nia|].
  by destruct (Z.ltb_spec n (per * per + 12)); [lia|].
Qed.

Lemma double_indirect_limit_witness :
  _ext2_get_inode_data_offset 600 730 870 1040 3000 small_vfs = Ok (0, small_vfs).
Proof.
  apply (double_indirect_limit 600 730 small_vfs 3000 small_fs 870 1040); [done|simpl; lia|].
  change (fs_block_size small_fs / 4) with 32. lia.
Defined.
