(* ===== verification/Ext2Files.v ===== *)
(** * Inodes and files of ext2 (kernel/fs/ext2/ext2.c)

    Where the driver finds an inode, against the layout of the inode tables, and the
    reading of the blocks of a file: the inode from the disk, the map of
    [Ext2Blocks] and the blocks into the caller's buffer. *)
From S2P Require Import Prelude LinkedList Frames Mm HeapApi LibK FdTable Disk Kmem FileIo Vfs VfsPath VfsOps Ext2 Ext2Blocks.

Section files.
Context {H D : Type} `{HL : HeapLaws H} `{HB : BlockDevice D}.
Variables tmp1 tmp2 : Z.
Implicit Types s : vst H D.
Local Notation dbs := (block_size_of D).

(** ** Where inodes are *)

Definition inode_size (sb : list Z) : Z :=
  if 1 <=? u32_at sb SB_MAJOR_VERSION then u16_at sb SB_INODE_SIZE else EXT2_DEFAULT_INODE_SIZE.

Definition inode_group (sb : list Z) (inode : Z) : Z := (inode - 1) / u32_at sb SB_INODES_IN_BLOCKGROUP.
Definition inode_index (sb : list Z) (inode : Z) : Z := (inode - 1) mod u32_at sb SB_INODES_IN_BLOCKGROUP.

(** Slot [inode_index] of the table of its block group. *)
Definition inode_loc (fs : filesystem) (sb bgds : list Z) (inode : Z) : Z :=
  u32_at bgds (SIZEOF_BGD * inode_group sb inode + BGD_START_INODE_TABLE) * fs_block_size fs
  + inode_index sb inode * inode_size sb.

Definition inode_bytes (d : D) (fs : filesystem) (sb bgds : list Z) (inode : Z) : list Z :=
  slice (contents d) (fs_partstart fs + inode_loc fs sb bgds inode) (inode_size sb).

(** The superblock and the descriptors in memory; whole inodes fill a block. *)
Record volume (m : bmem) (fs : filesystem) (sb bgds : list Z) : Prop := Volume {
  vol_sb : bytes_at m (fs_superblock fs) sb;
  vol_sb_len : 90 ≤ Z.of_nat (length sb);
  vol_bgds : bytes_at m (fs_blockgroup_list fs) bgds;
  vol_per : 0 < u32_at sb SB_INODES_IN_BLOCKGROUP;
  vol_isz : 128 ≤ inode_size sb < 65536;
  vol_fit : fs_block_size fs mod inode_size sb = 0
}.

(** Inode [inode] has a descriptor and its slot is on the disk. *)
Definition has_inode (d : D) (fs : filesystem) (sb bgds : list Z) (inode : Z) : Prop :=
  0 < inode < 4294967296 ∧ Forall is_byte bgds ∧
  SIZEOF_BGD * (inode_group sb inode + 1) ≤ Z.of_nat (length bgds) ∧
  fs_partstart fs + inode_loc fs sb bgds inode + inode_size sb ≤ Z.of_nat (length (contents d)).

Lemma volume_sub m m' fs sb bgds : m ⊆ m' → volume m fs sb bgds → volume m' fs sb bgds.
Proof. intros Hm []. by split; try eapply bytes_at_sub. Qed.

Lemma slot_in_block idx isz q :
  0 ≤ idx → 0 < isz → 0 < q →
  idx * isz / (q * isz) * (q * isz) + idx mod q * isz = idx * isz.
Proof.
  intros Hi Hz Hq. rewrite Z.div_mul_cancel_r by lia. pose proof (Z.div_mod idx q ltac:(lia)). nia.
Qed.

Lemma inode_size_run s fs_info fs sb bgds :
  vs_filesystems s !! fs_info = Some fs → volume (vs_mem s) fs sb bgds →
  _ext2_get_inode_size fs_info s = Ok (inode_size sb, s).
Proof.
  intros Hf [Hsb Hl _ _ _ _]. unfold _ext2_get_inode_size, inode_size.
  rewrite (bind_ok _ _ _ _ _ (run_load_fs s fs_info fs Hf)).
  rewrite (bind_ok _ _ _ (u32_at sb SB_MAJOR_VERSION) s)
    by (apply field32_run; [done|unfold SB_MAJOR_VERSION; lia..]).
  destruct (1 <=? _); [|done]. apply run_read. apply load16_at; [done|unfold SB_INODE_SIZE; lia..].
Qed.

Lemma inode_loc_pos fs sb bgds inode :
  0 < inode → Forall is_byte bgds → 0 < fs_block_size fs → 0 < u32_at sb SB_INODES_IN_BLOCKGROUP →
  0 ≤ inode_size sb →
  0 ≤ inode_index sb inode * inode_size sb ≤ inode_loc fs sb bgds inode ∧
  u32_at bgds (SIZEOF_BGD * inode_group sb inode + BGD_START_INODE_TABLE) * fs_block_size fs ≤ inode_loc fs sb bgds inode.
Proof.
  intros Hi Hb Hbs Hper Hz. unfold inode_loc, inode_index.
  pose proof (Z.mod_pos_bound (inode - 1) _ Hper).
  pose proof (u32_at_range bgds (SIZEOF_BGD * inode_group sb inode + BGD_START_INODE_TABLE) Hb). nia.
Qed.

Lemma inode_offset_run s fs_info fs sb bgds inode :
  mounted s fs_info fs → volume (vs_mem s) fs sb bgds → has_inode (vs_fs s) fs sb bgds inode →
  _ext2_get_inode_offset inode fs_info s = Ok (inode_loc fs sb bgds inode, s).
Proof.
  intros [Hf Hbs _ _ Hp _ Hsz] Hv (Hi & Hby & Hg & Hend).
  pose proof Hv as [Hsb Hl Hbg Hper Hisz Hfit].
  pose proof (inode_loc_pos fs sb bgds inode ltac:(lia) Hby ltac:(lia) Hper ltac:(lia)) as [Hix Htab].
  assert (Hg0 : 0 ≤ inode_group sb inode) by (apply Z.div_pos; lia).
  unfold _ext2_get_inode_offset. rewrite (bind_ok _ _ _ _ _ (run_load_fs s fs_info fs Hf)).
  rewrite (bind_ok _ _ _ (u32_at sb SB_INODES_IN_BLOCKGROUP) s)
    by (apply field32_run; [done|unfold SB_INODES_IN_BLOCKGROUP; lia..]).
  rewrite (u32_small (inode - 1)) by lia. unfold udiv, umod.
  destruct (Z.eqb_spec (u32_at sb SB_INODES_IN_BLOCKGROUP) 0); [lia|].
  rewrite (bind_ok _ _ _ (inode_group sb inode) s), (bind_ok _ _ _ (inode_index sb inode) s) by done.
  rewrite (bind_ok _ _ _ _ _ (inode_size_run s fs_info fs sb bgds Hf Hv)).
  rewrite (u32_small (_ * _)) by lia. destruct (Z.eqb_spec (fs_block_size fs) 0); [lia|].
  erewrite bind_ok by reflexivity.
  erewrite bind_ok.
  2: { unfold field32. rewrite <- Z.add_assoc. apply run_read, load32_at; [done|..];
       unfold SIZEOF_BGD, BGD_START_INODE_TABLE in *; lia. }
  destruct (Z.eqb_spec (inode_size sb) 0); [lia|]. erewrite bind_ok by reflexivity.
  apply Z.mod_divide in Hfit as [q Hq]; [|lia]. assert (Hq0 : 0 < q) by nia.
  assert (Hpb : fs_block_size fs / inode_size sb = q) by (rewrite Hq; apply Z.div_mul; lia).
  rewrite Hpb. destruct (Z.eqb_spec q 0); [lia|].
  erewrite bind_ok by reflexivity. unfold mret, M_ret. do 2 f_equal.
  assert (Hix0 : 0 ≤ inode_index sb inode) by (apply Z.mod_pos_bound; lia).
  pose proof (slot_in_block _ (inode_size sb) q Hix0 ltac:(lia) Hq0) as Hslot. rewrite <- Hq in Hslot.
  set (t := u32_at bgds _) in *. set (x := inode_index sb inode * inode_size sb) in *.
  assert (0 ≤ t) by (apply u32_at_range; done).
  assert (Hc : 0 ≤ x / fs_block_size fs) by (apply Z.div_pos; lia).
  pose proof (Z.mod_pos_bound (inode_index sb inode) q Hq0).
  unfold inode_loc in *. fold t x in Hend, Htab, Hix |- *.
  rewrite (u32_small (t + _)), (u32_small ((t + _) * _)), (u32_small (_ mod q * _)), u32_small by nia. nia.
Qed.

(** ** An inode in memory *)

(** disk_read's buffers, and memory that is the same apart from them. *)
Definition temps (m : bmem) : Prop := mapped m tmp1 dbs ∧ mapped m tmp2 dbs.

Definition same_but_temps (m m' : bmem) : Prop :=
  (∀ q, ¬ tmp1 ≤ q < tmp1 + dbs → ¬ tmp2 ≤ q < tmp2 + dbs → m' !! q = m !! q) ∧
  ∀ p n, mapped m p n → mapped m' p n.

Lemma slot_mod offset size : 0 < size → dbs mod size = 0 → offset mod size = 0 →
  offset mod dbs + size ≤ dbs.
Proof.
  intros Hs Hd Ho. pose proof block_size_pos as Hpos. revert Hpos Hd. generalize (block_size_of D) as B.
  intros B Hpos Hd. apply Z.mod_divide in Hd as [a ->]; [|lia]. apply Z.mod_divide in Ho as [b ->]; [|lia].
  assert (0 < a) by nia. rewrite Z.mul_mod_distr_r by lia. pose proof (Z.mod_pos_bound b a). nia.
Qed.

(** A slot that no block boundary crosses, into a buffer away from the temporaries. *)
Lemma disk_read_slot offset buf size m (d : D) :
  0 ≤ offset → 0 < size < 2147483648 → dbs mod size = 0 → offset mod size = 0 →
  offset + size ≤ Z.of_nat (length (contents d)) → mapped m buf size → temps m →
  disjoint_blocks buf size tmp1 dbs → disjoint_blocks buf size tmp2 dbs →
  ∃ r m', disk_read offset buf size tmp1 tmp2 (m, d) = Ok (r, (m', d)) ∧
    bytes_at m' buf (slice (contents d) offset size) ∧
    (∀ q, ¬ buf ≤ q < buf + size → ¬ tmp1 ≤ q < tmp1 + dbs → ¬ tmp2 ≤ q < tmp2 + dbs →
       m' !! q = m !! q) ∧
    ∀ p n, mapped m p n → mapped m' p n.
Proof.
  intros Ho Hs Hd Hsl Hend Hm [Ht1 Ht2] Hd1 Hd2. pose proof (slot_mod offset size ltac:(lia) Hd Hsl).
  destruct (decide (offset mod dbs = 0)) as [Hal|Hal].
  - destruct (disk_read_aligned offset buf size tmp1 tmp2 m d) as (m' & E & Hb & Hf & Hmap); try done; [lia|].
    eexists _, m'. split_and!; [exact E|done| |done]. intros q Hq _. by apply Hf.
  - destruct (disk_read_inside offset buf size tmp1 tmp2 m d) as (m' & E & Hb & Hf & Hmap); try done; [lia|].
    eexists _, m'. split_and!; [exact E|done| |done]. intros q Hq Hq' _. by apply Hf.
Qed.

Lemma dom_same_mapped (m m' : bmem) (P : Z → Prop) :
  (∀ q, P q ∨ ¬ P q) → (∀ q, P q → is_Some (m !! q)) → (∀ q, ¬ P q → m' !! q = m !! q) →
  (∀ p n, mapped m p n → mapped m' p n) → dom m' = dom m.
Proof.
  intros Hdec Hin Hout Hmap. apply set_eq. intros q. rewrite !elem_of_dom.
  destruct (Hdec q) as [Hq|Hq]; [|by rewrite Hout].
  split; [intros _; by apply Hin|]. intros Hs. apply (Hmap q 1); [|lia].
  intros x Hx. by replace x with q by lia.
Qed.

Lemma inode_loc_slot fs_info fs sb bgds inode s :
  mounted s fs_info fs → volume (vs_mem s) fs sb bgds → dbs mod inode_size sb = 0 →
  (fs_partstart fs + inode_loc fs sb bgds inode) mod inode_size sb = 0.
Proof.
  intros Hmt [_ _ _ _ Hisz Hfit] Hslot. pose proof (mt_partd _ _ _ Hmt) as Hp.
  pose proof block_size_pos as Hpos. unfold inode_loc.
  apply Z.mod_divide in Hfit as [a ->]; [|lia]. apply Z.mod_divide in Hslot as [b Hb]; [|lia].
  apply Z.mod_divide in Hp as [c ->]; [|lia]. rewrite Hb.
  match goal with |- (_ + (?t * _ + ?i * _)) mod ?z = _ =>
    replace (c * (b * z) + (t * (a * z) + i * z)) with ((c * b + t * a + i) * z) by ring end.
  apply Z.mod_mul. lia.
Qed.

Lemma inode_ref_run s fs_info fs sb bgds inode L r :
  mounted s fs_info fs → volume (vs_mem s) fs sb bgds → has_inode (vs_fs s) fs sb bgds inode →
  dbs mod inode_size sb = 0 → temps (vs_mem s) →
  heap_rep (vs_mem s) (vs_heap s) L r → charge (inode_size sb) ≤ r →
  ∃ p n m0 m' h', _ext2_get_inode_ref tmp1 tmp2 inode fs_info s = Ok (p, set_kmem m' h' s) ∧
    scratch m0 L (r - charge (inode_size sb)) p n m' h' ∧
    bytes_at m' p (inode_bytes (vs_fs s) fs sb bgds inode) ∧ inode_size sb ≤ n ∧
    same_but_temps (vs_mem s) m0.
Proof.
  intros Hmt Hv Hi Hslot Ht Hh Hr. pose proof Hv as [_ _ _ Hper Hisz _].
  pose proof (inode_loc_slot fs_info fs sb bgds inode s Hmt Hv Hslot) as Hmod.
  destruct (run_kmalloc s (inode_size sb) L r Hh) as (p & n & m1 & h1 & Hm & Hn & Hsc); [lia|done|].
  pose proof (scratch_sub _ _ _ _ _ _ _ Hsc) as Hsub. pose proof block_size_pos as Hpos.
  pose proof Hmt as [Hf Hbs _ _ Hp _ Hsz]. pose proof Hi as (Hi0 & Hby & _ & Hend).
  pose proof (inode_loc_pos fs sb bgds inode ltac:(lia) Hby ltac:(lia) Hper ltac:(lia)) as [Hix _].
  destruct Ht as [Ht1 Ht2].
  assert (Hap : ∀ t, mapped (vs_mem s) t dbs → disjoint_blocks p n t dbs)
    by (intros t Htm; eapply unmapped_apart; [apply (sc_fresh _ _ _ _ _ _ _ Hsc)|done|lia|lia]).
  assert (Hup : ∀ t k, mapped (vs_mem s) t k → mapped m1 t k).
  { intros t k Htm q Hq. destruct (Htm q Hq) as [b Hb]. exists b. by eapply lookup_weaken. }
  pose proof (Hap _ Ht1) as Ha1. pose proof (Hap _ Ht2) as Ha2.
  destruct (disk_read_slot (fs_partstart fs + inode_loc fs sb bgds inode) p (inode_size sb) m1 (vs_fs s))
    as (r1 & m2 & Hrd & Hb & Hfr & Hmap); [lia|lia|done|done|done| | | | |].
  { eapply mapped_sub; [apply (sc_mapped _ _ _ _ _ _ _ Hsc)|lia|lia]. }
  { by split; apply Hup. } { destruct Ha1; [left|right]; lia. } { destruct Ha2; [left|right]; lia. }
  exists p, n, (clear_at m2 p n), m2, h1. split_and!.
  - unfold _ext2_get_inode_ref. rewrite (bind_ok _ _ _ _ _ (inode_size_run s fs_info fs sb bgds Hf Hv)).
    rewrite (bind_ok _ _ _ _ _ Hm).
    erewrite bind_ok by (apply inode_offset_run; [by eapply mounted_same|by eapply volume_sub|done]).
    erewrite bind_ok; [reflexivity|]. unfold ext2_disk_read.
    erewrite bind_ok by (by apply run_load_fs). rewrite u32_small by lia. unfold on_storage.
    rewrite (Z.add_comm _ (fs_partstart fs)). simpl. by rewrite Hrd.
  - destruct Hsc as [Hu Hma Hre Hli Hhe Hpo]. split; try done.
    + intros q. apply clear_at_in.
    + by apply Hmap.
    + intros q Hq. by rewrite clear_at_out.
    + eapply heap_rep_dom; [|done].
      apply (dom_same_mapped m1 m2 (λ q, p ≤ q < p + inode_size sb ∨ tmp1 ≤ q < tmp1 + dbs ∨ tmp2 ≤ q < tmp2 + dbs)).
      * intros q. lia.
      * intros q [Hq|[Hq|Hq]]; [apply Hma; lia|by apply (Hup _ _ Ht1)|by apply (Hup _ _ Ht2)].
      * intros q Hq. apply Hfr; tauto.
      * done.
  - done.
  - done.
  - destruct Hsc as [Hu Hma Hre _ _ _]. split.
    + intros q Hq1 Hq2. destruct (decide (p ≤ q < p + n)) as [Hq|Hq].
      * rewrite clear_at_in by done. symmetry. by apply Hu.
      * rewrite clear_at_out by done. rewrite Hfr by lia. by apply Hre.
    + intros t k Htm q Hq. destruct (decide (p ≤ q < p + n)) as [Hx|Hx].
      * destruct (Htm q Hq) as [b Hb']. by rewrite Hu in Hb'.
      * rewrite clear_at_out by done. by apply (Hmap t k); [apply Hup|].
Qed.

(** ** The blocks of a file *)

(** Blocks [i] to [i + n - 1] of the file with inode [ino]. *)
Fixpoint file_blocks (d : D) (fs : filesystem) (ino : list Z) (i : Z) (n : nat) : list Z :=
  match n with
  | O => []
  | S n => block_of d fs (bmap d fs ino i) ++ file_blocks d fs ino (i + 1) n
  end.

Definition has_blocks (d : D) (fs : filesystem) (ino : list Z) (i : Z) (n : nat) : Prop :=
  ∀ j, i ≤ j < i + Z.of_nat n → has_block d fs ino j.

Lemma file_blocks_length d fs ino i n : 0 ≤ fs_partstart fs → 0 < fs_block_size fs →
  has_blocks d fs ino i n → Z.of_nat (length (file_blocks d fs ino i n)) = Z.of_nat n * fs_block_size fs.
Proof.
  intros Hp Hbs. revert i. induction n as [|n IH]; intros i Hb; simpl; [done|].
  destruct (Hb i ltac:(lia)) as (_ & _ & Hw & _).
  rewrite length_app, Nat2Z.inj_add, block_of_length, IH by (done || intros j Hj; apply Hb; lia). lia.
Qed.

Lemma inode_block_run s fs_info fs inode ino i buf m0 L r n :
  mounted s fs_info fs → scratch m0 L r inode n (vs_mem s) (vs_heap s) →
  bytes_at (vs_mem s) inode ino → 128 ≤ Z.of_nat (length ino) → has_block (vs_fs s) fs ino i →
  mapped m0 buf (fs_block_size fs) → charge (fs_block_size fs) * 2 ≤ r →
  let blk := block_of (vs_fs s) fs (bmap (vs_fs s) fs ino i) in
  ∃ k h', _ext2_read_inode_block tmp1 tmp2 inode i buf fs_info s =
      Ok (k, set_kmem (write_at (vs_mem s) buf blk) h' s) ∧ k ≠ 0 ∧
    scratch (write_at m0 buf blk) L (r - charge (fs_block_size fs) * 2) inode n (write_at (vs_mem s) buf blk) h'.
Proof.
  intros Hmt Hsc Hino Hil Hb Hbuf Hr blk.
  destruct (data_offset_run tmp1 tmp2 s fs_info fs inode ino i (<[inode := n]> L) r Hmt Hino Hil Hb)
    as (h' & Hoff & Hh'); [apply (sc_heap _ _ _ _ _ _ _ Hsc)|done|].
  pose proof Hb as (_ & Hw0 & Hw & _). pose proof Hmt as [Hf Hbs _ _ Hp _ Hsz].
  pose proof (on_part_small _ _ _ Hp Hsz ltac:(lia) Hw) as Hws.
  pose proof (scratch_sub _ _ _ _ _ _ _ Hsc) as Hsub.
  destruct (read_block_run tmp1 tmp2 (set_kmem (vs_mem s) h' s) fs_info fs (bmap (vs_fs s) fs ino i) buf)
    as (k & Hrd & Hk).
  { by eapply mounted_same. } { done. }
  { intros q Hq. destruct (Hbuf q Hq) as [b Hx]. exists b. by eapply lookup_weaken. }
  rewrite u32_small in Hrd by nia.
  exists (u32 k), h'. split_and!; [|done|].
  - unfold _ext2_read_inode_block. rewrite (bind_ok _ _ _ _ _ Hoff).
    destruct (Z.eqb_spec (bmap (vs_fs s) fs ino i * fs_block_size fs) 0); [nia|].
    rewrite (bind_ok _ _ _ _ _ (run_load_fs (set_kmem (vs_mem s) h' s) fs_info fs Hf)).
    by rewrite (bind_ok _ _ _ _ _ Hrd).
  - apply scratch_outside; [by eapply scratch_heap|]. unfold blk. by rewrite block_of_length by (done || lia).
Qed.

Lemma block_loop_run k : ∀ s fs_info fs inode ino count start i buf ret m0 L r n,
  mounted s fs_info fs → scratch m0 L r inode n (vs_mem s) (vs_heap s) →
  bytes_at (vs_mem s) inode ino → 128 ≤ Z.of_nat (length ino) ≤ n →
  0 ≤ i → u32 (count + start) = i + Z.of_nat k → 0 ≤ ret → ret + Z.of_nat k < 4294967296 →
  has_blocks (vs_fs s) fs ino i k → mapped m0 buf (Z.of_nat k * fs_block_size fs) →
  Z.of_nat k * (charge (fs_block_size fs) * 2) ≤ r →
  let m' := write_at m0 buf (file_blocks (vs_fs s) fs ino i k) in
  ∃ h', loop (S k) (λ '(i, buffer, ret),
    if i <? u32 (count + start) then
      r ← _ext2_read_inode_block tmp1 tmp2 inode i buffer fs_info;
      if r =? 0 then _ ← kfree_v inode; mret (inr ret)
      else mret (inl (u32 (i + 1), buffer + fs_block_size fs, u32 (ret + 1)))
    else _ ← kfree_v inode; mret (inr ret)) (i, buf, ret) s =
    Ok (ret + Z.of_nat k, set_kmem m' h' s) ∧
    heap_rep m' h' L (r - Z.of_nat k * (charge (fs_block_size fs) * 2)).
Proof.
  induction k as [|k IH]; intros s fs_info fs inode ino count start i buf ret m0 L r n
    Hmt Hsc Hino Hil Hi Hend Hret Hretk Hb Hbuf Hr m'.
  - destruct (run_kfree m0 L r inode n s Hsc) as (h' & Hfree & Hh'). exists h'.
    rewrite Z.mul_0_l, Z.sub_0_r, Z.add_0_r. split; [|done]. apply loop_done.
    rewrite Hend. destruct (Z.ltb_spec i (i + Z.of_nat 0)); [lia|]. by rewrite (bind_ok _ _ _ _ _ Hfree).
  - pose proof Hmt as [Hf Hbs _ _ Hp _ Hsz]. pose proof (charge_pos (fs_block_size fs) ltac:(lia)).
    assert (Hbi : has_block (vs_fs s) fs ino i) by (apply Hb; lia).
    destruct (inode_block_run s fs_info fs inode ino i buf m0 L r n) as (c & h1 & Hrd & Hc & Hsc1); try done.
    { lia. } { eapply mapped_sub; [done|lia|nia]. } { nia. }
    set (blk := block_of (vs_fs s) fs (bmap (vs_fs s) fs ino i)) in *.
    assert (Hlen : Z.of_nat (length blk) = fs_block_size fs)
      by (apply block_of_length; [done|lia|apply Hbi]).
    destruct (IH (set_kmem (write_at (vs_mem s) buf blk) h1 s) fs_info fs inode ino count start (i + 1)
      (buf + fs_block_size fs) (ret + 1) (write_at m0 buf blk) L (r - charge (fs_block_size fs) * 2) n)
      as (h' & Hrun & Hh'); try done; try lia.
    { by eapply mounted_same. }
    { simpl. apply bytes_at_write; [|done]. rewrite Hlen.
      assert (inode + n ≤ buf ∨ buf + fs_block_size fs ≤ inode) as Hap.
      { eapply unmapped_apart; [apply (sc_fresh _ _ _ _ _ _ _ Hsc)| |lia|lia].
        eapply mapped_sub; [exact Hbuf|lia|nia]. }
      destruct Hap; [left|right]; lia. }
    { intros j Hj. apply Hb. lia. }
    { apply mapped_write. eapply mapped_sub; [done|lia|nia]. }
    simpl in Hrun, Hh'.
    assert (Hm' : write_at (write_at m0 buf blk) (buf + fs_block_size fs) (file_blocks (vs_fs s) fs ino (i + 1) k) = m')
      by (rewrite <- Hlen; apply write_at_app_l).
    rewrite Hm' in Hrun, Hh'. exists h'. split.
    + erewrite loop_next.
      2: { rewrite Hend. destruct (Z.ltb_spec i (i + Z.of_nat (S k))); [|lia].
           rewrite (bind_ok _ _ _ _ _ Hrd). by rewrite (proj2 (Z.eqb_neq c 0)) by done. }
      rewrite (u32_small (i + 1)), (u32_small (ret + 1)) by (pose proof (u32_range (count + start)); lia).
      replace (ret + Z.of_nat (S k)) with (ret + 1 + Z.of_nat k) by lia. done.
    + by replace (r - Z.of_nat (S k) * (charge (fs_block_size fs) * 2))
        with (r - charge (fs_block_size fs) * 2 - Z.of_nat k * (charge (fs_block_size fs) * 2)) by lia.
Qed.

Lemma read_file_run s fs_info fs sb bgds inode off buf n L r :
  mounted s fs_info fs → volume (vs_mem s) fs sb bgds → has_inode (vs_fs s) fs sb bgds inode →
  dbs mod inode_size sb = 0 → temps (vs_mem s) →
  let ino := inode_bytes (vs_fs s) fs sb bgds inode in
  has_blocks (vs_fs s) fs ino off n → 0 ≤ off → off + Z.of_nat n < 4294967296 →
  Z.of_nat n < 2147483648 → mapped (vs_mem s) buf (Z.of_nat n * fs_block_size fs) →
  heap_rep (vs_mem s) (vs_heap s) L r →
  charge (inode_size sb) + Z.of_nat n * (charge (fs_block_size fs) * 2) ≤ r →
  ∃ m0 h', let m' := write_at m0 buf (file_blocks (vs_fs s) fs ino off n) in
    ext2_read_file tmp1 tmp2 inode off buf (Z.of_nat n) fs_info s = Ok (Z.of_nat n, set_kmem m' h' s) ∧
    same_but_temps (vs_mem s) m0 ∧
    heap_rep m' h' L (r - charge (inode_size sb) - Z.of_nat n * (charge (fs_block_size fs) * 2)).
Proof.
  intros Hmt Hv Hi Hslot Ht ino Hb Hoff Hon Hn Hbuf Hh Hr. pose proof Hmt as [Hf Hbs _ _ Hp _ Hsz].
  pose proof (charge_pos (fs_block_size fs) ltac:(lia)). pose proof Hv as [_ _ _ Hper Hisz _].
  pose proof Hi as (Hi0 & Hby & _ & Hend).
  pose proof (inode_loc_pos fs sb bgds inode ltac:(lia) Hby ltac:(lia) Hper ltac:(lia)) as [Hix _].
  destruct (inode_ref_run s fs_info fs sb bgds inode L r) as (p & c & m0 & m1 & h1 & Href & Hsc & Hino & Hc & Hsame);
    try done; [nia|].
  assert (Hil : Z.of_nat (length ino) = inode_size sb) by (apply slice_length; lia).
  destruct (block_loop_run n (set_kmem m1 h1 s) fs_info fs p ino (Z.of_nat n) off off buf 0 m0 L
    (r - charge (inode_size sb)) c) as (h' & Hrun & Hh'); try done; try lia.
  { by eapply mounted_same. } { rewrite u32_small; lia. } { by apply (proj2 Hsame). }
  exists m0, h'. split_and!; [|done|done]. unfold ext2_read_file. rewrite (bind_ok _ _ _ _ _ Href).
  pose proof (sc_pos _ _ _ _ _ _ _ Hsc). destruct (Z.eqb_spec p 0); [lia|].
  rewrite (bind_ok _ _ _ _ _ (run_load_fs (set_kmem m1 h1 s) fs_info fs Hf)).
  unfold block_loop. rewrite Nat2Z.id. rewrite (bind_ok _ _ _ _ _ Hrun).
  unfold mret, M_ret. by rewrite Z.add_0_l, s32_small by lia.
Qed.
End files.

(** ** Theorems *)

(** Inodes have slots of their own.  [_ext2_get_inode_offset] computes the
    position of slot [inode_index] in the inode table of the block group, although
    it goes by the containing block and the rest within it; the slots of two inodes
    of a group do not overlap. *)
Theorem inode_offset_correct {H D : Type} `{HB : BlockDevice D} `{!KernelHeap H}
    (s : vst H D) fs_info fs sb bgds i j :
  mounted s fs_info fs → volume (vs_mem s) fs sb bgds →
  has_inode (vs_fs s) fs sb bgds i → has_inode (vs_fs s) fs sb bgds j →
  _ext2_get_inode_offset i fs_info s = Ok (inode_loc fs sb bgds i, s) ∧
  (i ≠ j → inode_group sb i = inode_group sb j →
   disjoint_blocks (inode_loc fs sb bgds i) (inode_size sb) (inode_loc fs sb bgds j) (inode_size sb)).
Proof.
  intros Hmt Hv Hi Hj. split; [by apply inode_offset_run|]. intros Hne Hg.
  destruct Hv as [_ _ _ Hper Hisz _]. unfold disjoint_blocks, inode_loc. rewrite Hg.
  assert (inode_index sb i ≠ inode_index sb j) as Hix.
  { intros Hx. apply Hne. unfold inode_group, inode_index in *.
    pose proof (Z.div_mod (i - 1) _ ltac:(apply Z.neq_sym, Z.lt_neq, Hper)) as Ei.
    pose proof (Z.div_mod (j - 1) _ ltac:(apply Z.neq_sym, Z.lt_neq, Hper)) as Ej.
    rewrite Hx, Hg in Ei. lia. }
  destruct (Z.lt_total (inode_index sb i) (inode_index sb j)) as [Hlt|[Hlt|Hlt]]; [left|done|right]; nia.
Qed.

Lemma small_volume : volume small_mem small_fs small_sb small_bgds.
Proof.
  split; try done; try (apply bytes_at_check; by vm_compute); by split || (vm_compute; split; congruence).
Qed.

Lemma small_has_inode : has_inode small_image small_fs small_sb small_bgds 1.
Proof.
  split; [lia|]. split; [|split; vm_compute; discriminate].
  apply (bool_decide_unpack _). by vm_compute.
Qed.

Lemma inode_offset_correct_witness :
  _ext2_get_inode_offset 1 3000 small_vfs = Ok (inode_loc small_fs small_sb small_bgds 1, small_vfs) ∧
  inode_loc small_fs small_sb small_bgds 1 = 128.
Proof.
  split; [|by vm_compute].
  apply (inode_offset_correct small_vfs 3000 small_fs small_sb small_bgds 1 1);
    [exact small_mounted|exact small_volume|exact small_has_inode|exact small_has_inode].
Defined.

(** Reading the blocks of a file.  When inode [inode] is on the disk and blocks
    [off] to [off + n - 1] of its file exist, [ext2_read_file] returns [n] and fills
    the buffer with exactly those blocks in order, through direct and indirect
    pointers alike; only the buffer and disk_read's temporary blocks have changed,
    and the heap holds the blocks it held before. *)
Theorem read_file_correct {H D : Type} `{HL : HeapLaws H} `{HB : BlockDevice D} tmp1 tmp2
    (s : vst H D) fs_info fs sb bgds inode off buf n L r :
  mounted s fs_info fs → volume (vs_mem s) fs sb bgds → has_inode (vs_fs s) fs sb bgds inode →
  block_size_of D mod inode_size sb = 0 → temps tmp1 tmp2 (D := D) (vs_mem s) →
  let ino := inode_bytes (vs_fs s) fs sb bgds inode in
  has_blocks (vs_fs s) fs ino off n → 0 ≤ off → off + Z.of_nat n < 4294967296 →
  Z.of_nat n < 2147483648 → mapped (vs_mem s) buf (Z.of_nat n * fs_block_size fs) →
  heap_rep (vs_mem s) (vs_heap s) L r →
  let cost := charge (inode_size sb) + Z.of_nat n * (charge (fs_block_size fs) * 2) in
  cost ≤ r →
  ∃ m' h', ext2_read_file tmp1 tmp2 inode off buf (Z.of_nat n) fs_info s =
      Ok (Z.of_nat n, set_kmem m' h' s) ∧
    bytes_at m' buf (file_blocks (vs_fs s) fs ino off n) ∧
    (∀ q, ¬ buf ≤ q < buf + Z.of_nat n * fs_block_size fs → ¬ tmp1 ≤ q < tmp1 + block_size_of D →
       ¬ tmp2 ≤ q < tmp2 + block_size_of D → m' !! q = vs_mem s !! q) ∧
    heap_rep m' h' L (r - cost).
Proof.
  intros Hmt Hv Hi Hslot Ht ino Hb Hoff Hon Hn Hbuf Hh cost Hr.
  destruct (read_file_run tmp1 tmp2 s fs_info fs sb bgds inode off buf n L r)
    as (m0 & h' & Hrun & [Hsame _] & Hh'); try done.
  eexists _, h'. split_and!; [exact Hrun|apply write_at_in| |].
  - intros q Hq H1 H2. rewrite write_at_out; [by apply Hsame|].
    destruct Hmt as [_ Hbs _ _ Hp _ _]. rewrite file_blocks_length by (done || lia). done.
  - unfold cost. by rewrite Z.sub_add_distr.
Qed.

Lemma small_mapped p n : 600 ≤ p → p + n ≤ 858 ∨ 1100 ≤ p ∧ p + n ≤ 1500 → mapped small_mem p n.
Proof.
  intros Hp Hn. destruct Hn as [Hn|Hn].
  - do 2 apply mapped_write. eapply mapped_sub; [apply (write_at_mapped _ 600 (replicate 258 0))|lia|].
    change (Z.of_nat (length (replicate 258 0))) with 258. lia.
  - eapply mapped_sub; [apply (write_at_mapped _ 1100 (replicate 400 0))|lia|].
    change (Z.of_nat (length (replicate 400 0))) with 400. lia.
Qed.

Lemma small_temps : temps 600 730 (D := listdisk 128) small_mem.
Proof. split; apply small_mapped; simpl; lia. Qed.

Lemma small_inode_bytes : inode_bytes small_image small_fs small_sb small_bgds 1 = small_inode.
Proof. by vm_compute. Qed.

Lemma read_file_correct_witness :
  file_blocks small_image small_fs small_inode 12 2 = replicate 128 7 ++ replicate 128 8 ∧
  ∃ m' h', ext2_read_file 600 730 1 12 1100 (Z.of_nat 2) 3000 small_vfs = Ok (Z.of_nat 2, set_kmem m' h' small_vfs) ∧
    bytes_at m' 1100 (file_blocks (vs_fs small_vfs) small_fs
      (inode_bytes (vs_fs small_vfs) small_fs small_sb small_bgds 1) 12 2) ∧
    (∀ q, ¬ 1100 ≤ q < 1100 + Z.of_nat 2 * fs_block_size small_fs → ¬ 600 ≤ q < 600 + block_size_of (listdisk 128) →
       ¬ 730 ≤ q < 730 + block_size_of (listdisk 128) →
       m' !! q = vs_mem small_vfs !! q) ∧
    heap_rep m' h' ∅ (16777216 - (charge (inode_size small_sb) + Z.of_nat 2 * (charge (fs_block_size small_fs) * 2))).
Proof.
  split; [by vm_compute|].
  refine (read_file_correct 600 730 small_vfs 3000 small_fs small_sb small_bgds 1 12 1100 2 ∅ 16777216
    small_mounted small_volume small_has_inode _ small_temps _ _ _ _ _ small_heap _).
  - by vm_compute.
  - change (vs_fs small_vfs) with small_image. rewrite small_inode_bytes. intros j Hj.
    destruct (decide (j = 12)) as [->|]; [|replace j with 13 by lia].
    + apply (small_has_block 12 2); [by repeat constructor|by vm_compute|lia].
    + apply (small_has_block 13 5); [by repeat constructor|by vm_compute|lia].
  - lia.
  - lia.
  - lia.
  - apply small_mapped; simpl; lia.
  - vm_compute. discriminate.
Defined.
