(* ===== verification/Ext2Write.v ===== *)
(** * Writing the blocks of an ext2 file (kernel/fs/ext2/ext2.c)

    [ext2_write_file] overwrites the blocks the block map finds; what was written is
    what [ext2_read_file] returns, as long as the blocks of the file are blocks of
    their own. *)
From S2P Require Import Prelude LinkedList Frames Mm HeapApi LibK FdTable Disk Kmem FileIo Vfs VfsPath VfsOps Ext2 Ext2Blocks Ext2Files.

Section write.
Context {H D : Type} `{HL : HeapLaws H} `{HB : BlockDevice D}.
Variables tmp1 tmp2 : Z.
Implicit Types s : vst H D.
Local Notation dbs := (block_size_of D).

(** ** Blocks that are not in each other's way *)

(** No block on the way to block [j] is [b]. *)
Definition not_on_way (d : D) (fs : filesystem) (ino : list Z) (j b : Z) : Prop :=
  let per := fs_block_size fs / 4 in
  (12 ≤ j < per + 12 → u32_at ino IN_SINGLE ≠ b) ∧
  (per + 12 ≤ j → u32_at ino IN_DOUBLE ≠ b ∧
     u32_at (block_of d fs (u32_at ino IN_DOUBLE)) (4 * ((j - per - 12) / per)) ≠ b).

(** Blocks [i] to [i + n - 1] of the file exist, are different from each other and
    hold no block pointers of the file. *)
Definition own_blocks (d : D) (fs : filesystem) (ino : list Z) (i : Z) (n : nat) : Prop :=
  has_blocks d fs ino i n ∧
  ∀ j k, i ≤ j < i + Z.of_nat n → i ≤ k < i + Z.of_nat n →
    (j ≠ k → bmap d fs ino j ≠ bmap d fs ino k) ∧ not_on_way d fs ino k (bmap d fs ino j).

(** Disk [d'] is [d] with the bytes [new] in block [w]. *)
Definition block_put (d d' : D) (fs : filesystem) (w : Z) (new : list Z) : Prop :=
  on_part d fs w ∧ Z.of_nat (length new) = fs_block_size fs ∧
  contents d' = splice (contents d) (fs_partstart fs + w * fs_block_size fs) new.

Section put.
Context (d d' : D) (fs : filesystem) (w : Z) (new : list Z).
Hypothesis Hps : 0 ≤ fs_partstart fs.
Hypothesis Hbs : 0 < fs_block_size fs.
Hypothesis Hput : block_put d d' fs w new.

Lemma put_length : length (contents d') = length (contents d).
Proof. destruct Hput as ((H1 & H2) & H3 & ->). apply splice_length; nia. Qed.

Lemma put_out a n : 0 ≤ a → 0 ≤ n →
  disjoint_blocks (fs_partstart fs + w * fs_block_size fs) (fs_block_size fs) a n →
  slice (contents d') a n = slice (contents d) a n.
Proof.
  intros Ha Hn Hd. destruct Hput as ((H1 & H2) & H3 & ->). apply slice_splice_out; try done; try nia.
  by rewrite H3.
Qed.

Lemma put_at : block_of d' fs w = new.
Proof.
  destruct Hput as ((H1 & H2) & H3 & E). unfold block_of. rewrite E, <- H3. apply splice_slice; nia.
Qed.

Lemma put_other b : on_part d fs b → b ≠ w → block_of d' fs b = block_of d fs b.
Proof.
  intros [Hb _] Hne. unfold block_of. apply put_out; [nia|lia|].
  destruct (Z.lt_total b w) as [?|[?|?]]; [right|lia|left]; nia.
Qed.

Lemma put_on_part b : on_part d' fs b ↔ on_part d fs b.
Proof. unfold on_part. by rewrite put_length. Qed.

(** Overwriting a block that is not on the way keeps the map. *)
Lemma put_block ino j : 0 ≤ j → has_block d fs ino j → not_on_way d fs ino j w →
  bmap d' fs ino j = bmap d fs ino j ∧ has_block d' fs ino j ∧ ∀ b, not_on_way d fs ino j b → not_on_way d' fs ino j b.
Proof.
  intros Hj (Hn & Hw0 & Hw & Hs & Hdb) [Hns Hnd]. unfold has_block, not_on_way, bmap in *.
  set (per := fs_block_size fs / 4) in *. assert (0 ≤ per) by (apply Z.div_pos; lia).
  destruct (Z.ltb_spec j 12); [|destruct (Z.ltb_spec j (per + 12))].
  - split; [done|]. split; [|intros b Hb; split; lia]. rewrite !put_on_part. split_and!; try done; lia.
  - rewrite put_other by (apply Hs || apply Hns; lia). split; [done|]. split; [|intros b Hb; split; [apply Hb|lia]].
    rewrite !put_on_part. split_and!; try done; lia.
  - destruct (Hdb ltac:(lia)) as (Hd0 & Hd & Hi0 & Hi). destruct (Hnd ltac:(lia)) as [Hxd Hxi].
    rewrite (put_other (u32_at ino IN_DOUBLE)) by done. rewrite put_other by done.
    split; [done|]. split; [|intros b Hb; split; [lia|apply Hb]].
    rewrite !put_on_part. split_and!; try done; try lia.
Qed.
End put.

Lemma own_blocks_tail d d' fs ino i n new :
  0 ≤ i → 0 ≤ fs_partstart fs → 0 < fs_block_size fs → own_blocks d fs ino i (S n) →
  block_put d d' fs (bmap d fs ino i) new →
  own_blocks d' fs ino (i + 1) n ∧ ∀ j, i ≤ j < i + Z.of_nat (S n) → bmap d' fs ino j = bmap d fs ino j.
Proof.
  intros Hi Hp Hbs [Hh Ho] Hput.
  assert (Hk : ∀ j, i ≤ j < i + Z.of_nat (S n) → bmap d' fs ino j = bmap d fs ino j ∧ has_block d' fs ino j ∧
                    ∀ b, not_on_way d fs ino j b → not_on_way d' fs ino j b).
  { intros j Hj. eapply put_block; try done; [lia|by apply Hh|]. apply Ho; lia. }
  split; [|intros j Hj; by apply Hk]. split.
  - intros j Hj. apply Hk. lia.
  - intros j k Hj Hk'. destruct (Hk j ltac:(lia)) as (-> & _). destruct (Hk k ltac:(lia)) as (-> & _ & Hn).
    split; [intros Hne; apply Ho; lia|]. apply Hn, Ho; lia.
Qed.

(** ** Writing *)

Definition on_disk_of (d : D) (m : bmem) (h : H) s : vst H D := set_disk m d (set_kmem m h s).

Lemma mounted_put s fs_info fs d' m h :
  mounted s fs_info fs → length (contents d') = length (contents (vs_fs s)) →
  mounted (on_disk_of d' m h s) fs_info fs.
Proof. intros [] Hl. split; try done. simpl. by rewrite Hl. Qed.

Lemma inode_block_write s fs_info fs inode ino i buf new m0 L r n :
  mounted s fs_info fs → scratch m0 L r inode n (vs_mem s) (vs_heap s) →
  bytes_at (vs_mem s) inode ino → 128 ≤ Z.of_nat (length ino) → has_block (vs_fs s) fs ino i →
  bytes_at (vs_mem s) buf new → Z.of_nat (length new) = fs_block_size fs → Forall is_byte new →
  charge (fs_block_size fs) * 2 ≤ r →
  ∃ k h' d', _ext2_write_inode_block tmp1 tmp2 inode i buf fs_info s = Ok (k, on_disk_of d' (vs_mem s) h' s) ∧
    k ≠ 0 ∧ block_put (vs_fs s) d' fs (bmap (vs_fs s) fs ino i) new ∧
    scratch m0 L (r - charge (fs_block_size fs) * 2) inode n (vs_mem s) h'.
Proof.
  intros Hmt Hsc Hino Hil Hb Hbuf Hlen Hby Hr.
  destruct (data_offset_run tmp1 tmp2 s fs_info fs inode ino i (<[inode := n]> L) r Hmt Hino Hil Hb)
    as (h' & Hoff & Hh'); [apply (sc_heap _ _ _ _ _ _ _ Hsc)|done|].
  pose proof Hb as (_ & Hw0 & Hw & _). pose proof Hmt as [Hf Hbs Hbs4 Hbsd Hp Hpd Hsz].
  pose proof (on_part_small _ _ _ Hp Hsz ltac:(lia) Hw) as Hws. pose proof block_size_pos as Hpos.
  set (w := bmap (vs_fs s) fs ino i) in *. destruct Hw as [_ Hend].
  destruct (disk_write_whole (fs_partstart fs + w * fs_block_size fs) buf (fs_block_size fs) tmp1 tmp2
    (vs_mem s) (vs_fs s) new) as (d' & Hrun & Hd'); try done; [nia|lia|by apply mod_mul_add|nia|].
  exists (fs_block_size fs), h', d'. split_and!; [|lia| |by eapply scratch_heap].
  2: { split; [split; [lia|done]|done]. }
  unfold _ext2_write_inode_block. rewrite (bind_ok _ _ _ _ _ Hoff).
  destruct (Z.eqb_spec (w * fs_block_size fs) 0); [nia|].
  rewrite (bind_ok _ _ _ _ _ (run_load_fs (set_kmem (vs_mem s) h' s) fs_info fs Hf)).
  rewrite (bind_ok _ _ _ (fs_block_size fs) (on_disk_of d' (vs_mem s) h' s)).
  { unfold mret, M_ret. by rewrite u32_small by lia. }
  unfold ext2_disk_write. rewrite (bind_ok _ _ _ _ _ (run_load_fs (set_kmem (vs_mem s) h' s) fs_info fs Hf)).
  unfold on_storage. rewrite u32_small, Z.add_comm by nia. simpl. by rewrite Hrun.
Qed.

(** What the loop leaves on the disk: the data, the way to every block that the data
    is not on, and the bytes elsewhere. *)
Record blocks_put (d d' : D) (fs : filesystem) (ino : list Z) (i : Z) (n : nat) (data : list Z) : Prop := BlocksPut {
  bp_length : length (contents d') = length (contents d);
  bp_map : ∀ j, 0 ≤ j → has_block d fs ino j →
    (∀ k, i ≤ k < i + Z.of_nat n → not_on_way d fs ino j (bmap d fs ino k)) →
    bmap d' fs ino j = bmap d fs ino j ∧ has_block d' fs ino j;
  bp_data : file_blocks d' fs ino i n = data;
  bp_out : ∀ a k, 0 ≤ a → 0 ≤ k →
    (∀ j, i ≤ j < i + Z.of_nat n →
       disjoint_blocks (fs_partstart fs + bmap d fs ino j * fs_block_size fs) (fs_block_size fs) a k) →
    slice (contents d') a k = slice (contents d) a k
}.

Lemma blocks_put_cons d d1 d2 fs ino i n new data :
  0 ≤ i → 0 ≤ fs_partstart fs → 0 < fs_block_size fs → own_blocks d fs ino i (S n) →
  block_put d d1 fs (bmap d fs ino i) new → blocks_put d1 d2 fs ino (i + 1) n data →
  blocks_put d d2 fs ino i (S n) (new ++ data).
Proof.
  intros Hi Hp Hbs Hown Hput [Hl Hm Hd Hout]. pose proof Hown as [Hhas Hsep].
  destruct (own_blocks_tail d d1 fs ino i n new Hi Hp Hbs Hown Hput) as [_ Hmap].
  assert (Hbm : ∀ j, 0 ≤ j → has_block d fs ino j →
    (∀ k, i ≤ k < i + Z.of_nat (S n) → not_on_way d fs ino j (bmap d fs ino k)) →
    bmap d2 fs ino j = bmap d fs ino j ∧ has_block d2 fs ino j).
  { intros j Hj Hb Hw. destruct (put_block d d1 fs _ new Hp Hbs Hput ino j Hj Hb) as (<- & Hb1 & Hw1);
      [apply Hw; lia|].
    apply Hm; [done|done|]. intros k Hk. rewrite Hmap by lia. apply Hw1, Hw. lia. }
  split; [by rewrite Hl, (put_length d d1 fs _ new Hp Hbs Hput)|done| |].
  - simpl. destruct (Hbm i Hi) as [-> _]; [apply Hhas; lia|intros k Hk; apply Hsep; lia|].
    rewrite Hd. f_equal. rewrite <- (put_at d d1 fs _ new Hp Hput). destruct (Hhas i ltac:(lia)) as (_ & Hw & _).
    unfold block_of. apply Hout; [nia|lia|]. intros j Hj. rewrite Hmap by lia.
    destruct (Hsep j i ltac:(lia) ltac:(lia)) as [Hne _]. specialize (Hne ltac:(lia)).
    destruct (Z.lt_total (bmap d fs ino i) (bmap d fs ino j)) as [?|[?|?]]; [right|lia|left]; nia.
  - intros a k Ha Hk Hj. rewrite Hout; [|done|done|].
    + eapply put_out; [done|done|done|done|done|]. apply Hj. lia.
    + intros j Hj'. rewrite Hmap by lia. apply Hj. lia.
Qed.

Lemma blocks_write_run k : ∀ s fs_info fs inode ino count start i buf data ret m0 L r n,
  mounted s fs_info fs → scratch m0 L r inode n (vs_mem s) (vs_heap s) →
  bytes_at (vs_mem s) inode ino → 128 ≤ Z.of_nat (length ino) →
  0 ≤ i → u32 (count + start) = i + Z.of_nat k → 0 ≤ ret → ret + Z.of_nat k < 4294967296 →
  own_blocks (vs_fs s) fs ino i k → bytes_at (vs_mem s) buf data → Forall is_byte data →
  Z.of_nat (length data) = Z.of_nat k * fs_block_size fs →
  Z.of_nat k * (charge (fs_block_size fs) * 2) ≤ r →
  ∃ d' h', loop (S k) (λ '(i, buffer, ret),
    if i <? u32 (count + start) then
      r ← _ext2_write_inode_block tmp1 tmp2 inode i buffer fs_info;
      if r =? 0 then _ ← kfree_v inode; mret (inr ret)
      else mret (inl (u32 (i + 1), buffer + fs_block_size fs, u32 (ret + 1)))
    else _ ← kfree_v inode; mret (inr ret)) (i, buf, ret) s =
    Ok (ret + Z.of_nat k, on_disk_of d' m0 h' s) ∧
    blocks_put (vs_fs s) d' fs ino i k data ∧
    heap_rep m0 h' L (r - Z.of_nat k * (charge (fs_block_size fs) * 2)).
Proof.
  induction k as [|k IH]; intros s fs_info fs inode ino count start i buf data ret m0 L r n
    Hmt Hsc Hino Hil Hi Hend Hret Hretk Hown Hbuf Hby Hlen Hr.
  - destruct (run_kfree m0 L r inode n s Hsc) as (h' & Hfree & Hh'). exists (vs_fs s), h'.
    rewrite Z.mul_0_l, Z.sub_0_r, Z.add_0_r. split; [|split; [|done]].
    + apply loop_done. rewrite Hend. destruct (Z.ltb_spec i (i + Z.of_nat 0)); [lia|].
      by rewrite (bind_ok _ _ _ _ _ Hfree).
    + split; try done. by destruct data; [|simpl in Hlen; lia].
  - pose proof Hmt as [Hf Hbs _ _ Hp _ Hsz]. pose proof (charge_pos (fs_block_size fs) ltac:(lia)).
    set (new := take (Z.to_nat (fs_block_size fs)) data). set (rest := drop (Z.to_nat (fs_block_size fs)) data).
    assert (Hdata : data = new ++ rest) by (symmetry; apply take_drop).
    assert (Hnl : Z.of_nat (length new) = fs_block_size fs) by (unfold new; rewrite length_take; nia).
    assert (Hrl : Z.of_nat (length rest) = Z.of_nat k * fs_block_size fs) by (unfold rest; rewrite length_drop; nia).
    clearbody new rest. subst data. apply bytes_at_app in Hbuf as [Hnew Hrest]. rewrite Hnl in Hrest.
    apply Forall_app in Hby as [Hby1 Hby2].
    destruct (inode_block_write s fs_info fs inode ino i buf new m0 L r n) as (c & h1 & d1 & Hwr & Hc & Hput & Hsc1);
      try done; [apply Hown; lia|nia|].
    destruct (own_blocks_tail _ d1 fs ino i k new Hi Hp ltac:(lia) Hown Hput) as [Hown1 _].
    destruct (IH (on_disk_of d1 (vs_mem s) h1 s) fs_info fs inode ino count start (i + 1)
      (buf + fs_block_size fs) rest (ret + 1) m0 L (r - charge (fs_block_size fs) * 2) n)
      as (d' & h' & Hrun & Hbp & Hh'); try done; try lia.
    { apply mounted_put; [done|]. by apply (put_length _ _ fs _ new Hp ltac:(lia) Hput). }
    exists d', h'. split_and!.
    + erewrite loop_next.
      2: { rewrite Hend. destruct (Z.ltb_spec i (i + Z.of_nat (S k))); [|lia].
           rewrite (bind_ok _ _ _ _ _ Hwr). by rewrite (proj2 (Z.eqb_neq c 0)) by done. }
      rewrite (u32_small (i + 1)), (u32_small (ret + 1)) by (pose proof (u32_range (count + start)); lia).
      replace (ret + Z.of_nat (S k)) with (ret + 1 + Z.of_nat k) by lia. done.
    + eapply blocks_put_cons; try done. lia.
    + by replace (r - Z.of_nat (S k) * (charge (fs_block_size fs) * 2))
        with (r - charge (fs_block_size fs) * 2 - Z.of_nat k * (charge (fs_block_size fs) * 2)) by lia.
Qed.

(** Bytes that disk_read's buffers are not among. *)
Definition away (p n : Z) : Prop := disjoint_blocks p n tmp1 dbs ∧ disjoint_blocks p n tmp2 dbs.

Lemma same_bytes m m' p bs : same_but_temps tmp1 tmp2 (D := D) m m' → away p (Z.of_nat (length bs)) →
  bytes_at m p bs → bytes_at m' p bs.
Proof. intros [Hs _] [H1 H2]. apply bytes_at_frame. intros q Hq. apply Hs; destruct H1, H2; lia. Qed.

Lemma write_file_run s fs_info fs sb bgds inode off src data n L r :
  mounted s fs_info fs → volume (vs_mem s) fs sb bgds → has_inode (vs_fs s) fs sb bgds inode →
  dbs mod inode_size sb = 0 → temps tmp1 tmp2 (D := D) (vs_mem s) → away src (Z.of_nat (length data)) →
  let ino := inode_bytes (vs_fs s) fs sb bgds inode in
  own_blocks (vs_fs s) fs ino off n → 0 ≤ off → off + Z.of_nat n < 4294967296 → Z.of_nat n < 2147483648 →
  bytes_at (vs_mem s) src data → Forall is_byte data →
  Z.of_nat (length data) = Z.of_nat n * fs_block_size fs →
  heap_rep (vs_mem s) (vs_heap s) L r →
  charge (inode_size sb) + Z.of_nat n * (charge (fs_block_size fs) * 2) ≤ r →
  ∃ m' d' h', ext2_write_file tmp1 tmp2 inode off src (Z.of_nat n) fs_info s =
      Ok (Z.of_nat n, on_disk_of d' m' h' s) ∧
    same_but_temps tmp1 tmp2 (D := D) (vs_mem s) m' ∧
    blocks_put (vs_fs s) d' fs ino off n data ∧
    heap_rep m' h' L (r - charge (inode_size sb) - Z.of_nat n * (charge (fs_block_size fs) * 2)).
Proof.
  intros Hmt Hv Hi Hslot Ht Haw ino Hown Hoff Hon Hn Hsrc Hby Hlen Hh Hr. pose proof Hmt as [Hf Hbs _ _ Hp _ Hsz].
  pose proof (charge_pos (fs_block_size fs) ltac:(lia)). pose proof Hv as [_ _ _ Hper Hisz _].
  pose proof Hi as (Hi0 & Hbg & _ & Hend).
  pose proof (inode_loc_pos fs sb bgds inode ltac:(lia) Hbg ltac:(lia) Hper ltac:(lia)) as [Hix _].
  destruct (inode_ref_run tmp1 tmp2 s fs_info fs sb bgds inode L r)
    as (p & c & m0 & m1 & h1 & Href & Hsc & Hino & Hc & Hsame); try done; [nia|].
  assert (Hil : Z.of_nat (length ino) = inode_size sb) by (apply slice_length; lia).
  destruct (blocks_write_run n (set_kmem m1 h1 s) fs_info fs p ino (Z.of_nat n) off off src data 0 m0 L
    (r - charge (inode_size sb)) c) as (d' & h' & Hrun & Hbp & Hh'); try done; try lia.
  { by eapply mounted_same. } { rewrite u32_small; lia. }
  { eapply bytes_at_sub; [by eapply scratch_sub|]. by eapply same_bytes. }
  exists m0, d', h'. split_and!; [|done|done|done]. unfold ext2_write_file. rewrite (bind_ok _ _ _ _ _ Href).
  pose proof (sc_pos _ _ _ _ _ _ _ Hsc). destruct (Z.eqb_spec p 0); [lia|].
  rewrite (bind_ok _ _ _ _ _ (run_load_fs (set_kmem m1 h1 s) fs_info fs Hf)).
  unfold block_loop. rewrite Nat2Z.id. rewrite (bind_ok _ _ _ _ _ Hrun).
  unfold mret, M_ret. by rewrite Z.add_0_l, s32_small by lia.
Qed.

(** ** Theorems *)

(** C14: What is written to a file is read back.  When the blocks [off] to
    [off + n - 1] of the file exist and are blocks of their own, apart from each
    other, from the file's indirect blocks and from its inode, [ext2_write_file] of
    [n] blocks returns [n], a following [ext2_read_file] of the same blocks returns
    [n] with exactly the data that was written, and every byte of the disk outside
    those blocks is the one that was there before. *)
Theorem write_read_file s fs_info fs sb bgds inode off src dst data n L r :
  mounted s fs_info fs → volume (vs_mem s) fs sb bgds → has_inode (vs_fs s) fs sb bgds inode →
  dbs mod inode_size sb = 0 → temps tmp1 tmp2 (D := D) (vs_mem s) →
  away (fs_superblock fs) (Z.of_nat (length sb)) → away (fs_blockgroup_list fs) (Z.of_nat (length bgds)) →
  away src (Z.of_nat (length data)) →
  let ino := inode_bytes (vs_fs s) fs sb bgds inode in
  own_blocks (vs_fs s) fs ino off n →
  (∀ j, off ≤ j < off + Z.of_nat n →
     disjoint_blocks (bmap (vs_fs s) fs ino j * fs_block_size fs) (fs_block_size fs)
       (inode_loc fs sb bgds inode) (inode_size sb)) →
  0 ≤ off → off + Z.of_nat n < 4294967296 → Z.of_nat n < 2147483648 →
  bytes_at (vs_mem s) src data → Forall is_byte data →
  Z.of_nat (length data) = Z.of_nat n * fs_block_size fs →
  mapped (vs_mem s) dst (Z.of_nat (length data)) →
  heap_rep (vs_mem s) (vs_heap s) L r →
  (charge (inode_size sb) + Z.of_nat n * (charge (fs_block_size fs) * 2)) * 2 ≤ r →
  ∃ s1 s2, ext2_write_file tmp1 tmp2 inode off src (Z.of_nat n) fs_info s = Ok (Z.of_nat n, s1) ∧
    ext2_read_file tmp1 tmp2 inode off dst (Z.of_nat n) fs_info s1 = Ok (Z.of_nat n, s2) ∧
    bytes_at (vs_mem s2) dst data ∧ vs_fs s2 = vs_fs s1 ∧
    ∀ a k, 0 ≤ a → 0 ≤ k →
      (∀ j, off ≤ j < off + Z.of_nat n →
         disjoint_blocks (fs_partstart fs + bmap (vs_fs s) fs ino j * fs_block_size fs) (fs_block_size fs) a k) →
      slice (contents (vs_fs s1)) a k = slice (contents (vs_fs s)) a k.
Proof.
  intros Hmt Hv Hi Hslot Ht Hasb Habg Haw ino Hown Hsep Hoff Hon Hn Hsrc Hby Hlen Hdst Hh Hr.
  pose proof Hmt as [Hf Hbs _ _ Hp _ Hsz]. pose proof Hv as [Hsb Hsbl Hbg Hper Hisz Hfit].
  pose proof (charge_pos (fs_block_size fs) ltac:(lia)). pose proof (charge_pos (inode_size sb) ltac:(lia)).
  destruct (write_file_run s fs_info fs sb bgds inode off src data n L r)
    as (m' & d' & h' & Hwr & Hsame & Hbp & Hh'); try done; [nia|].
  pose proof Hbp as [Hl Hm Hd Hout]. pose proof Hown as [Hhas Hdis]. pose proof Hi as (Hi0 & Hbgb & Hg & Hend).
  pose proof (inode_loc_pos fs sb bgds inode ltac:(lia) Hbgb ltac:(lia) Hper ltac:(lia)) as [Hix _].
  assert (Hino : inode_bytes d' fs sb bgds inode = ino).
  { apply Hout; [lia|lia|]. intros j Hj. specialize (Hsep j Hj). unfold ino in Hsep. destruct Hsep; [left|right]; lia. }
  destruct (read_file_run tmp1 tmp2 (on_disk_of d' m' h' s) fs_info fs sb bgds inode off dst n L
    (r - charge (inode_size sb) - Z.of_nat n * (charge (fs_block_size fs) * 2))) as (m2 & h2 & Hrd & _ & _); try done.
  { by apply mounted_put. }
  { split; try done; [by eapply (same_bytes (vs_mem s))|by eapply (same_bytes (vs_mem s))]. }
  { unfold has_inode. simpl. by rewrite Hl. }
  { destruct Ht. by split; apply Hsame. }
  { simpl. rewrite Hino. intros j Hj. apply Hm; [lia|by apply Hhas|]. intros k Hk. apply Hdis; lia. }
  { apply Hsame. by rewrite <- Hlen. }
  { nia. }
  simpl in Hrd. rewrite Hino in Hrd. fold ino in Hd. rewrite Hd in Hrd.
  eexists _, _. split_and!; [exact Hwr|exact Hrd|apply write_at_in|done|exact Hout].
Qed.
End write.

(** Blocks 12 and 13 of the small volume's file, which the indirect block leads to. *)
Lemma small_own_blocks : own_blocks small_image small_fs small_inode 12 2.
Proof.
  assert (E1 : bmap small_image small_fs small_inode 12 = 2) by by vm_compute.
  assert (E2 : bmap small_image small_fs small_inode 13 = 5) by by vm_compute.
  assert (Hr : ∀ j, 12 ≤ j < 12 + Z.of_nat 2 → j = 12 ∨ j = 13) by (intros; lia).
  split.
  - intros j Hj%Hr. destruct Hj as [->| ->].
    + apply (small_has_block 12 2); [by repeat constructor|done|lia].
    + apply (small_has_block 13 5); [by repeat constructor|done|lia].
  - intros j k Hj%Hr Hk%Hr. unfold not_on_way. change (fs_block_size small_fs / 4) with 32.
    change (u32_at small_inode IN_SINGLE) with 4.
    destruct Hj as [->| ->], Hk as [->| ->]; rewrite ?E1, ?E2; (split; [lia|]); (split; [lia|]); lia.
Qed.

Lemma write_read_file_witness :
  ∃ s1 s2, ext2_write_file 600 730 1 12 1100 (Z.of_nat 2) 3000 small_vfs = Ok (Z.of_nat 2, s1) ∧
    ext2_read_file 600 730 1 12 1200 (Z.of_nat 2) 3000 s1 = Ok (Z.of_nat 2, s2) ∧
    bytes_at (vs_mem s2) 1200 (replicate 256 0) ∧ vs_fs s2 = vs_fs s1 ∧
    ∀ a k, 0 ≤ a → 0 ≤ k →
      (∀ j, 12 ≤ j < 12 + Z.of_nat 2 →
         disjoint_blocks (fs_partstart small_fs + bmap (vs_fs small_vfs) small_fs
           (inode_bytes (vs_fs small_vfs) small_fs small_sb small_bgds 1) j * fs_block_size small_fs)
           (fs_block_size small_fs) a k) →
      slice (contents (vs_fs s1)) a k = slice (contents (vs_fs small_vfs)) a k.
Proof.
  refine (write_read_file 600 730 small_vfs 3000 small_fs small_sb small_bgds 1 12 1100 1200 (replicate 256 0) 2 ∅
    16777216 small_mounted small_volume small_has_inode _ small_temps _ _ _ _ _ _ _ _ _ _ _ _ small_heap _).
  - by vm_compute.
  - split; left; by vm_compute.
  - split; left; by vm_compute.
  - split; right; by vm_compute.
  - change (vs_fs small_vfs) with small_image. rewrite small_inode_bytes. exact small_own_blocks.
  - change (vs_fs small_vfs) with small_image. rewrite small_inode_bytes. intros j Hj.
    destruct (decide (j = 12)) as [->|]; [|replace j with 13 by lia]; right; by vm_compute.
  - lia.
  - lia.
  - lia.
  - apply bytes_at_check. by vm_compute.
  - apply (bool_decide_unpack _). by vm_compute.
  - by vm_compute.
  - apply small_mapped; [lia|]. right. by vm_compute.
  - vm_compute. discriminate.
Defined.
