(* ===== verification/Ext2Alloc.v ===== *)
(** * Allocation in ext2 (kernel/fs/ext2/ext2.c)

    The scan of a bitmap for a free block or inode, and the inode allocator. *)
From S2P Require Import Prelude LinkedList Frames Mm HeapApi LibK FdTable Disk Kmem FileIo Vfs VfsPath VfsOps Ext2 Ext2Blocks Ext2Files Ext2Write.

(** ** Words and bits of a bitmap *)

Definition bit_of (bs : list Z) (k : Z) : bool := Z.testbit (u32_at bs (4 * (k / 32))) (k mod 32).

Lemma byte_at_splice bs a new k : 0 ≤ a → a + Z.of_nat (length new) ≤ Z.of_nat (length bs) → 0 ≤ k →
  byte_at (splice bs a new) k =
    if decide (a ≤ k < a + Z.of_nat (length new)) then byte_at new (k - a) else byte_at bs k.
Proof.
  intros Ha Hl Hk. unfold byte_at. destruct (decide _).
  - unfold splice. assert (Ht : length (take (Z.to_nat a) bs) = Z.to_nat a) by (rewrite length_take; lia).
    rewrite lookup_app_r, lookup_app_l by lia. do 2 f_equal. lia.
  - rewrite splice_lookup; [done|done|done|lia].
Qed.

Lemma u32_at_splice bs i w k : 0 ≤ i → 4 * i + 4 ≤ Z.of_nat (length bs) → 0 ≤ k → 0 ≤ w < 4294967296 →
  u32_at (splice bs (4 * i) (bytes32 w)) (4 * k) = if k =? i then w else u32_at bs (4 * k).
Proof.
  intros Hi Hl Hk Hw. unfold u32_at. rewrite !byte_at_splice by (simpl; lia).
  change (Z.of_nat (length (bytes32 w))) with 4. destruct (Z.eqb_spec k i) as [->|Hne].
  - repeat (destruct (decide _); [|lia]).
    replace (4 * i - 4 * i) with 0 by lia. replace (4 * i + 1 - 4 * i) with 1 by lia.
    replace (4 * i + 2 - 4 * i) with 2 by lia. replace (4 * i + 3 - 4 * i) with 3 by lia.
    by apply u32_bytes.
  - repeat (destruct (decide _); [lia|]). done.
Qed.

(** Setting bit [j] of word [i]. *)
Lemma bit_of_set bs i j k : Forall is_byte bs → 0 ≤ i → 0 ≤ j < 32 → 4 * i + 4 ≤ Z.of_nat (length bs) → 0 ≤ k →
  bit_of (splice bs (4 * i) (bytes32 (Z.lor (u32_at bs (4 * i)) (Z.shiftl 1 j)))) k =
    (k =? 32 * i + j) || bit_of bs k.
Proof.
  intros Hb Hi Hj Hl Hk. pose proof (u32_at_range bs (4 * i) Hb) as Hr.
  assert (Hw : is_word (Z.lor (u32_at bs (4 * i)) (Z.shiftl 1 j))).
  { apply is_word_bits. intros n Hn. rewrite Z.lor_spec. destruct (decide (n < 0)); [by rewrite !Z.testbit_neg_r by lia|].
    rewrite (word_bits_high _ n), shiftl1_testbit by (done || lia). apply Z.eqb_neq. lia. }
  unfold bit_of. rewrite u32_at_splice by (done || apply Z.div_pos; lia).
  pose proof (Z.div_mod k 32 ltac:(lia)). pose proof (Z.mod_pos_bound k 32 ltac:(lia)).
  destruct (Z.eqb_spec (k / 32) i) as [E|E].
  - rewrite Z.lor_spec, shiftl1_testbit, E by lia.
    destruct (Z.eqb_spec (k mod 32) j), (Z.eqb_spec k (32 * i + j)); try lia; by rewrite ?orb_true_r, ?orb_false_r.
  - destruct (Z.eqb_spec k (32 * i + j)); [|done]. exfalso. apply E. subst k.
    rewrite Z.mul_comm, Z.div_add_l, Z.div_small; lia.
Qed.

(** ** The scan *)

Lemma land_bit w k : 0 ≤ k → Z.land w (Z.shiftl 1 k) = if Z.testbit w k then Z.shiftl 1 k else 0.
Proof.
  intros Hk. apply Z.bits_inj'. intros n Hn. rewrite Z.land_spec, shiftl1_testbit by lia.
  destruct (Z.eqb_spec n k) as [->|Hne].
  - destruct (Z.testbit w k); [by rewrite shiftl1_testbit, Z.eqb_refl by lia|by rewrite Z.testbit_0_l].
  - rewrite andb_false_r. destruct (Z.testbit w k); [|by rewrite Z.testbit_0_l].
    rewrite shiftl1_testbit by lia. symmetry. by apply Z.eqb_neq.
Qed.

Lemma getbit_testbit w k : 0 ≤ k < 32 → (getbit w k =? 0) = negb (Z.testbit w k).
Proof.
  intros Hk. unfold getbit. rewrite land_bit by lia. destruct (Z.testbit w k); simpl.
  - assert (Hall : Forall (λ k, (Z.shiftr (s32 (Z.shiftl 1 k)) k =? 0) = false) (seqZ 0 32))
      by (apply (bool_decide_unpack _); by vm_compute).
    rewrite Forall_forall in Hall. apply Hall. apply elem_of_seqZ. lia.
  - unfold s32. rewrite u32_small by lia. simpl. by rewrite Z.shiftr_0_l.
Qed.

Section alloc.
Context {H D : Type} `{HL : HeapLaws H} `{HB : BlockDevice D}.
Variables tmp1 tmp2 : Z.
Implicit Types s : vst H D.
Local Notation dbs := (block_size_of D).

Lemma find_bit_run w s : find_bit w s = Ok (first_zero_bit w 0 32, s).
Proof.
  unfold find_bit.
  assert (Hgen : ∀ f j, 0 ≤ j → j + Z.of_nat f = 32 →
    loop (S f) (λ j, if j <? 32 then (if getbit w j =? 0 then mret (inr (Some j)) else mret (inl (j + 1)))
                     else mret (inr None)) j s = Ok (first_zero_bit w j f, s)).
  { induction f as [|f IH]; intros j Hj Hf.
    - apply loop_done. by destruct (Z.ltb_spec j 32); [lia|].
    - cbn [first_zero_bit]. rewrite land_bit_zero by lia. destruct (Z.testbit w j) eqn:Hb.
      + erewrite loop_next; [apply IH; lia|].
        destruct (Z.ltb_spec j 32); [|lia]. by rewrite getbit_testbit, Hb by lia.
      + apply loop_done. destruct (Z.ltb_spec j 32); [|lia]. by rewrite getbit_testbit, Hb by lia. }
  apply (Hgen 32%nat 0); lia.
Qed.

(** Bit [k] is clear and those below it are set. *)
Definition first_clear (bs : list Z) (k : Z) : Prop :=
  bit_of bs k = false ∧ ∀ i, 0 ≤ i < k → bit_of bs i = true.

Lemma bit_of_word bs i j : 0 ≤ j < 32 → bit_of bs (32 * i + j) = Z.testbit (u32_at bs (4 * i)) j.
Proof.
  intros Hj. unfold bit_of. rewrite (Z.mul_comm 32 i), Z.div_add_l, Z.div_small, Z.add_0_r by lia.
  by rewrite Z.add_comm, Z.mod_add, Z.mod_small by lia.
Qed.

Lemma full_words bs i : (∀ j, 0 ≤ j < 32 → Z.testbit (u32_at bs (4 * i)) j = true) →
  (∀ k, 0 ≤ k < 32 * i → bit_of bs k = true) → ∀ k, 0 ≤ k < 32 * (i + 1) → bit_of bs k = true.
Proof.
  intros Hw Hk k Hr. destruct (decide (k < 32 * i)); [apply Hk; lia|].
  replace k with (32 * i + (k - 32 * i)) by lia. rewrite bit_of_word by lia. apply Hw. lia.
Qed.

(** The bitmap [bs] at [p] after the scan that found [r]. *)
Definition scanned s (p : Z) (bs : list Z) (n : Z) (r : option (Z * Z)) (s' : vst H D) : Prop :=
  match r with
  | Some (i, j) =>
    0 ≤ i < n ∧ 0 ≤ j < 32 ∧ first_clear bs (32 * i + j) ∧
    s' = set_kmem (write_at (vs_mem s) (p + 4 * i) (bytes32 (Z.lor (u32_at bs (4 * i)) (Z.shiftl 1 j))))
           (vs_heap s) s
  | None => s' = s ∧ ∀ k, 0 ≤ k < 32 * n → bit_of bs k = true
  end.

Lemma shiftl_word j : 0 ≤ j < 32 → u32 (Z.shiftl 1 j) = Z.shiftl 1 j.
Proof.
  intros Hj. apply u32_small. rewrite Z.shiftl_1_l. split; [apply Z.pow_nonneg; lia|].
  change 4294967296 with (2 ^ 32). apply Z.pow_lt_mono_r; lia.
Qed.

Lemma take_bit_run s p bs n :
  bytes_at (vs_mem s) p bs → Forall is_byte bs → Z.of_nat (length bs) = 4 * n → 0 < p → p + 4 * n < 4294967296 →
  ∃ r s', take_bit p n s = Ok (r, s') ∧ scanned s p bs n r s'.
Proof.
  intros Hb Hby Hl Hp Hpn. unfold take_bit.
  assert (Hgen : ∀ f i, 0 ≤ i → i + Z.of_nat f = n → (∀ k, 0 ≤ k < 32 * i → bit_of bs k = true) →
    ∃ r s', loop (S f) (λ i,
      if i <? n then
        w ← word_at p i;
        if w =? 4294967295 then mret (inl (i + 1))
        else
          j ← find_bit w;
          match j with
          | Some j =>
            _ ← on_bytes (store32 (u32 (p + 4 * i)) (Z.lor w (u32 (Z.shiftl 1 j))));
            mret (inr (Some (i, j)))
          | None => mret (inl (i + 1))
          end
      else mret (inr None)) i s = Ok (r, s') ∧ scanned s p bs n r s').
  2: { apply (Hgen (Z.to_nat n) 0); [lia|lia|]. intros k Hk. lia. }
  induction f as [|f IH]; intros i Hi Hf Hones.
  - exists None, s. split; [|split; [done|]].
    + apply loop_done. by destruct (Z.ltb_spec i n); [lia|].
    + intros k Hk. apply Hones. lia.
  - set (w := u32_at bs (4 * i)).
    assert (Hlt : (i <? n) = true) by (apply Z.ltb_lt; lia).
    assert (Hword : word_at p i s = Ok (w, s)).
    { unfold word_at. rewrite (u32_small i), u32_small by lia. apply run_read. apply load32_at; [done|lia|lia]. }
    assert (Hnext : (∀ j, 0 ≤ j < 32 → Z.testbit w j = true) → ∀ k, 0 ≤ k < 32 * (i + 1) → bit_of bs k = true)
      by (intros Hw; by apply full_words).
    destruct (Z.eqb_spec w 4294967295) as [E|E].
    + destruct (IH (i + 1)) as (r & s' & Hrun & Hsc); [lia|lia|apply Hnext; rewrite E; apply ones_testbit|].
      exists r, s'. split; [|done]. erewrite loop_next; [exact Hrun|].
      rewrite Hlt, (bind_ok _ _ _ _ _ Hword). by rewrite E.
    + pose proof (first_zero_bit_spec w 0 32 ltac:(lia)) as Hfz.
      destruct (first_zero_bit w 0 32) as [j|] eqn:Efz.
      * destruct Hfz as (Hj & Hclr & Hset). eexists (Some (i, j)), _. split.
        { apply loop_done. rewrite Hlt, (bind_ok _ _ _ _ _ Hword). rewrite (proj2 (Z.eqb_neq w _) E).
          rewrite (bind_ok _ _ _ _ _ (find_bit_run w s)). rewrite Efz.
          erewrite bind_ok; [done|]. rewrite shiftl_word, u32_small by lia. apply run_on_bytes, store32_run.
          eapply mapped_sub; [by eapply bytes_at_mapped|lia|lia]. }
        split; [lia|]. split; [lia|]. split; [|done]. split; [by rewrite bit_of_word by lia|].
        intros k Hk. destruct (decide (k < 32 * i)); [apply Hones; lia|].
        replace k with (32 * i + (k - 32 * i)) by lia. rewrite bit_of_word by lia. apply Hset. lia.
      * destruct (IH (i + 1)) as (r & s' & Hrun & Hsc); [lia|lia|apply Hnext; intros; apply Hfz; lia|].
        exists r, s'. split; [|done]. erewrite loop_next; [exact Hrun|].
        rewrite Hlt, (bind_ok _ _ _ _ _ Hword). rewrite (proj2 (Z.eqb_neq w _) E).
        rewrite (bind_ok _ _ _ _ _ (find_bit_run w s)). by rewrite Efz.
Qed.

(** ** The inode allocator *)

(** Descriptor 0 leads to the inode bitmap in block [b] of the partition, which is
    also a block of the disk, and one of the bitmap's bits is clear. *)
Record alloc_ready s (fs_info : Z) (fs : filesystem) (sb bgds : list Z) (b : Z) : Prop := AllocReady {
  ar_mounted : mounted s fs_info fs;
  ar_sb : bytes_at (vs_mem s) (fs_superblock fs) sb;
  ar_sb_len : 36 ≤ Z.of_nat (length sb);
  ar_total : 0 < u32_at sb SB_TOTAL_BLOCKS < 2147483647;
  ar_per : 0 < u32_at sb SB_BLOCKS_IN_BLOCKGROUP < 2147483648;
  ar_bgds : bytes_at (vs_mem s) (fs_blockgroup_list fs) bgds;
  ar_bgds_len : SIZEOF_BGD ≤ Z.of_nat (length bgds);
  ar_b : u32_at bgds BGD_INODE_BITMAP = b;
  ar_part : on_part (vs_fs s) fs b;
  ar_clear : ∃ k, 0 ≤ k < 8 * fs_block_size fs ∧ bit_of (block_of (vs_fs s) fs b) k = false
}.

Lemma blockgroup_count_run s p sb :
  bytes_at (vs_mem s) p sb → 36 ≤ Z.of_nat (length sb) → 0 < u32_at sb SB_TOTAL_BLOCKS < 2147483647 →
  0 < u32_at sb SB_BLOCKS_IN_BLOCKGROUP < 2147483648 →
  ∃ n, blockgroup_count p s = Ok (n, s) ∧ 0 < n.
Proof.
  intros Hsb Hl Ht Hp. unfold blockgroup_count.
  set (total := u32_at sb SB_TOTAL_BLOCKS) in *. set (per := u32_at sb SB_BLOCKS_IN_BLOCKGROUP) in *.
  rewrite (bind_ok _ _ _ total s) by (apply field32_run; [done|unfold SB_TOTAL_BLOCKS; lia..]).
  rewrite (bind_ok _ _ _ per s) by (apply field32_run; [done|unfold SB_BLOCKS_IN_BLOCKGROUP; lia..]).
  rewrite !s32_small, roundup_pos by lia. eexists. split; [reflexivity|].
  assert (0 ≤ total / per ≤ total) by (split; [apply Z.div_pos|apply Z.div_le_upper_bound]; nia).
  pose proof (Z.div_mod total per ltac:(lia)).
  destruct (Z.eqb_spec (total mod per) 0); rewrite u32_small by lia; nia.
Qed.

Lemma splice_bytes c k new : Forall is_byte c → Forall is_byte new → Forall is_byte (splice c k new).
Proof. intros. unfold splice. repeat apply Forall_app_2; [by apply Forall_take|done|by apply Forall_drop]. Qed.

Lemma alloc_inode_run s fs_info fs sb bgds b L r :
  alloc_ready s fs_info fs sb bgds b → heap_rep (vs_mem s) (vs_heap s) L r → charge (fs_block_size fs) ≤ r →
  ∃ k d' h' new, _ext2_alloc_inode tmp1 tmp2 fs_info s = Ok (k, on_disk_of d' (vs_mem s) h' s) ∧
    0 ≤ k < 8 * fs_block_size fs ∧ first_clear (block_of (vs_fs s) fs b) k ∧
    Z.of_nat (length new) = fs_block_size fs ∧
    contents d' = splice (contents (vs_fs s)) (b * fs_block_size fs) new ∧
    heap_rep (vs_mem s) h' L (r - charge (fs_block_size fs)).
Proof.
  intros [Hmt Hsb Hsbl Htot Hper Hbg Hbgl Hb Hpart (k0 & Hk0 & Hclr)] Hh Hr.
  pose proof Hmt as [Hf Hbs Hbs4 Hbsd Hp Hpd Hsz].
  set (bs := fs_block_size fs) in *. set (bm := block_of (vs_fs s) fs b) in *.
  pose proof (block_of_length _ _ _ Hp ltac:(fold bs; lia) Hpart) as Hbl. fold bs bm in Hbl.
  assert (Hn4 : bs = 4 * (bs / 4)) by (pose proof (Z.div_mod bs 4); lia).
  destruct (run_kmalloc s bs L r Hh) as (p & c & m1 & h1 & Hm & Hc & Hsc); [lia|done|].
  pose proof (scratch_sub _ _ _ _ _ _ _ Hsc) as Hsub. pose proof (sc_pos _ _ _ _ _ _ _ Hsc) as [Hp0 Hpc].
  destruct (read_block_run tmp1 tmp2 (set_kmem m1 h1 s) fs_info fs b p) as (r1 & Hrd & _).
  { by eapply mounted_same. } { done. }
  { eapply mapped_sub; [apply (sc_mapped _ _ _ _ _ _ _ Hsc)|lia|fold bs; lia]. }
  simpl in Hrd. fold bs bm in Hrd. set (m2 := write_at m1 p bm) in *.
  assert (Hsc2 : scratch (vs_mem s) L (r - charge bs) p c m2 h1) by (apply scratch_write; [done|lia|lia]).
  destruct (blockgroup_count_run (set_kmem m1 h1 s) (fs_superblock fs) sb) as (n & Hcnt & Hn0);
    [by eapply bytes_at_sub|done|done|done|].
  destruct (take_bit_run (set_kmem m2 h1 s) p bm (bs / 4)) as (res & s3 & Htake & Hscan);
    [apply write_at_in|apply block_of_bytes|lia|lia|lia|].
  destruct res as [[i j]|]; [|exfalso; destruct Hscan as [_ Hall]; rewrite Hall in Hclr; [done|lia]].
  destruct Hscan as (Hi & Hj & Hfc & ->). cbn [vs_mem vs_heap set_kmem] in Htake.
  set (w := Z.lor (u32_at bm (4 * i)) (Z.shiftl 1 j)) in *. set (m3 := write_at m2 (p + 4 * i) (bytes32 w)) in *.
  assert (Hsc3 : scratch (vs_mem s) L (r - charge bs) p c m3 h1) by (apply scratch_write; [done|simpl; lia|simpl; lia]).
  set (new := splice bm (4 * i) (bytes32 w)).
  assert (Hnl : Z.of_nat (length new) = bs) by (unfold new; rewrite splice_length; simpl; lia).
  destruct Hpart as [Hb0 Hend]. fold bs in Hend.
  destruct (disk_write_whole (b * bs) p bs tmp1 tmp2 m3 (vs_fs s) new) as (d' & Hwr & Hd'); try done.
  { nia. } { lia. } { apply (mod_mul_add 0 b bs); [done|done|apply block_size_pos]. } { nia. }
  { apply bytes_at_splice; [lia|simpl; lia|apply write_at_in]. }
  { apply splice_bytes; [apply block_of_bytes|apply bytes32_bytes]. }
  destruct (run_kfree _ L _ p c (set_disk m3 d' (set_kmem m3 h1 s)) Hsc3) as (h' & Hfree & Hh').
  exists (32 * i + j), d', h', new. split_and!; try done; try lia.
  unfold _ext2_alloc_inode. rewrite (bind_ok _ _ _ _ _ (run_load_fs s fs_info fs Hf)). fold bs.
  rewrite (bind_ok _ _ _ _ _ Hm). erewrite bind_ok; [by rewrite (bind_ok _ _ _ _ _ Hfree)|].
  unfold alloc_loop. rewrite (bind_ok _ _ _ _ _ (run_load_fs (set_kmem m1 h1 s) fs_info fs Hf)).
  rewrite (bind_ok _ _ _ _ _ Hcnt). apply loop_done. destruct (Z.ltb_spec 0 n); [|lia].
  rewrite (bind_ok _ _ _ b (set_kmem m1 h1 s)).
  2: { rewrite Z.mul_0_r, Z.add_0_r, <- Hb.
       apply field32_run; [by eapply bytes_at_sub|unfold BGD_INODE_BITMAP, SIZEOF_BGD in *; lia..]. }
  fold bs. rewrite (bind_ok _ _ _ _ _ Hrd), (bind_ok _ _ _ _ _ Htake).
  rewrite (bind_ok _ _ _ bs (set_disk m3 d' (set_kmem m3 h1 s))).
  - unfold mret, M_ret. rewrite u32_small by nia. by rewrite (Z.mul_comm i 32).
  - unfold on_storage. rewrite u32_small by nia. cbn [vs_mem vs_fs set_kmem]. by rewrite Hwr.
Qed.
End alloc.

(** ** Theorems *)

(** The scan takes the first free bit.  [take_bit], the search in
    [_ext2_alloc_block] and [_ext2_alloc_inode], finds the lowest bit of the bitmap
    that is clear, sets that bit and no other, and leaves every byte outside the
    bitmap alone; it finds none only when all bits are set. *)
Theorem take_bit_correct {H D : Type} `{!KernelHeap H, !DiskDriver D} (s : vst H D) p bs n :
  bytes_at (vs_mem s) p bs → Forall is_byte bs → Z.of_nat (length bs) = 4 * n → 0 < p → p + 4 * n < 4294967296 →
  ∃ r s' bs', take_bit p n s = Ok (r, s') ∧ bytes_at (vs_mem s') p bs' ∧
    (∀ q, ¬ p ≤ q < p + 4 * n → vs_mem s' !! q = vs_mem s !! q) ∧
    match r with
    | Some (i, j) => 0 ≤ i < n ∧ 0 ≤ j < 32 ∧ first_clear bs (32 * i + j) ∧
        ∀ k, 0 ≤ k < 32 * n → bit_of bs' k = (k =? 32 * i + j) || bit_of bs k
    | None => bs' = bs ∧ ∀ k, 0 ≤ k < 32 * n → bit_of bs k = true
    end.
Proof.
  intros Hb Hby Hl Hp Hpn. destruct (take_bit_run s p bs n Hb Hby Hl Hp Hpn) as ([[i j]|] & s' & Hrun & Hsc).
  - destruct Hsc as (Hi & Hj & Hfc & ->). eexists (Some (i, j)), _, (splice bs (4 * i) (bytes32 (Z.lor (u32_at bs (4 * i)) (Z.shiftl 1 j)))).
    split; [exact Hrun|]. cbn [vs_mem set_kmem].
    split; [apply bytes_at_splice; [lia|simpl; lia|done]|].
    split; [intros q Hq; apply write_at_out; simpl; lia|].
    split_and!; try done; try lia. intros k Hk. apply bit_of_set; done || lia.
  - destruct Hsc as [-> Hall]. exists None, s, bs. done.
Qed.

Lemma take_bit_correct_witness :
  let bs := replicate 4 255 ++ [255; 7; 0; 0] in
  let s := set_kmem (write_at ∅ 1100 bs) kheap_mm small_vfs in
  ∃ r s' bs', take_bit 1100 2 s = Ok (r, s') ∧ bytes_at (vs_mem s') 1100 bs' ∧
    (∀ q, ¬ 1100 ≤ q < 1100 + 4 * 2 → vs_mem s' !! q = vs_mem s !! q) ∧
    match r with
    | Some (i, j) => 0 ≤ i < 2 ∧ 0 ≤ j < 32 ∧ first_clear bs (32 * i + j) ∧
        ∀ k, 0 ≤ k < 32 * 2 → bit_of bs' k = (k =? 32 * i + j) || bit_of bs k
    | None => bs' = bs ∧ ∀ k, 0 ≤ k < 32 * 2 → bit_of bs k = true
    end.
Proof.
  intros bs s. apply (take_bit_correct s 1100 bs 2).
  - apply write_at_in.
  - apply (bool_decide_unpack _). by vm_compute.
  - by vm_compute.
  - lia.
  - lia.
Defined.

Lemma first_clear_unique bs k k' : 0 ≤ k → 0 ≤ k' → first_clear bs k → first_clear bs k' → k = k'.
Proof.
  intros Hk Hk' [H1 H2] [H3 H4]. destruct (Z.lt_total k k') as [?|[?|?]]; [|done|].
  - rewrite H4 in H1 by lia. done.
  - rewrite H2 in H3 by lia. done.
Qed.

(** An inode is handed out twice.  [_ext2_alloc_inode] reads the inode bitmap
    from the partition but writes it back to the same position of the whole disk, so
    on a partition that does not begin within the disk's first block two calls in a
    row return the same inode number, which still counts as free afterwards. *)
Theorem alloc_inode_repeats {H D : Type} `{HL : HeapLaws H} `{HB : BlockDevice D} tmp1 tmp2
    (s : vst H D) fs_info fs sb bgds b L r :
  alloc_ready s fs_info fs sb bgds b → heap_rep (vs_mem s) (vs_heap s) L r → charge (fs_block_size fs) * 2 ≤ r →
  fs_block_size fs ≤ fs_partstart fs →
  ∃ k s1 s2, _ext2_alloc_inode tmp1 tmp2 fs_info s = Ok (k, s1) ∧ _ext2_alloc_inode tmp1 tmp2 fs_info s1 = Ok (k, s2) ∧
    first_clear (block_of (vs_fs s) fs b) k ∧ bit_of (block_of (vs_fs s2) fs b) k = false.
Proof.
  intros Har Hh Hr Hps. pose proof Har as [Hmt Hsb Hsbl Htot Hper Hbg Hbgl Hb Hpart Hclr].
  pose proof Hmt as [Hf Hbs _ _ Hp _ _]. pose proof (charge_pos (fs_block_size fs) ltac:(lia)).
  assert (Hkeep : ∀ (d d' : D) new, on_part d fs b → Z.of_nat (length new) = fs_block_size fs →
    contents d' = splice (contents d) (b * fs_block_size fs) new →
    length (contents d') = length (contents d) ∧ block_of d' fs b = block_of d fs b).
  { intros d d' new [Hb0 Hend] Hl Hd. split; [rewrite Hd; apply splice_length; nia|].
    unfold block_of. rewrite Hd. apply slice_splice_out; try nia. rewrite Hl. left. nia. }
  destruct (alloc_inode_run tmp1 tmp2 s fs_info fs sb bgds b L r Har Hh) as (k & d1 & h1 & n1 & Hr1 & Hk & Hfc & Hn1 & Hd1 & Hh1);
    [lia|].
  destruct (Hkeep _ _ _ Hpart Hn1 Hd1) as [Hl1 Hb1].
  destruct (alloc_inode_run tmp1 tmp2 (on_disk_of d1 (vs_mem s) h1 s) fs_info fs sb bgds b L (r - charge (fs_block_size fs)))
    as (k' & d2 & h2 & n2 & Hr2 & Hk' & Hfc' & Hn2 & Hd2 & _); [|done|lia|].
  { split; try done; [by apply mounted_put| |simpl; by rewrite Hb1].
    unfold on_part. simpl. by rewrite Hl1. }
  simpl in Hfc', Hd2. rewrite Hb1 in Hfc'. assert (k' = k) as -> by (eapply first_clear_unique; [lia|lia|done|done]).
  exists k. eexists _, _. split_and!; [exact Hr1|exact Hr2|done|]. simpl.
  destruct (Hkeep d1 d2 n2) as [_ ->]; [|done|done|rewrite Hb1; apply Hfc].
  unfold on_part. by rewrite Hl1.
Qed.

(** The small volume with block 3 as inode bitmap: its bytes are 9, so bit 1 is clear. *)
Definition alloc_sb : list Z := words [0; 100; 0; 0; 0; 0; 0; 0; 32] 96.
Definition alloc_bgds : list Z := words [0; 3; 1] 32.
Definition alloc_mem : bmem := write_at (write_at small_mem 400 alloc_sb) 500 alloc_bgds.
Definition alloc_vfs : vst mm (listdisk 128) := set_kmem alloc_mem kheap_mm small_vfs.

Lemma alloc_vfs_ready : alloc_ready alloc_vfs 3000 small_fs alloc_sb alloc_bgds 3.
Proof.
  split.
  - by eapply mounted_same; [apply small_mounted|..].
  - apply bytes_at_check. by vm_compute.
  - by vm_compute.
  - by vm_compute.
  - by vm_compute.
  - apply bytes_at_check. by vm_compute.
  - by vm_compute.
  - by vm_compute.
  - apply small_on_part. lia.
  - exists 1. split; [by vm_compute|by vm_compute].
Qed.

Lemma alloc_inode_repeats_witness :
  ∃ k s1 s2, _ext2_alloc_inode 600 730 3000 alloc_vfs = Ok (k, s1) ∧ _ext2_alloc_inode 600 730 3000 s1 = Ok (k, s2) ∧
    first_clear (block_of (vs_fs alloc_vfs) small_fs 3) k ∧ bit_of (block_of (vs_fs s2) small_fs 3) k = false.
Proof.
  refine (alloc_inode_repeats 600 730 alloc_vfs 3000 small_fs alloc_sb alloc_bgds 3 ∅ 16777216 alloc_vfs_ready _ _ _).
  - apply low_rep_heap, (bool_decide_unpack _). by vm_compute.
  - vm_compute. discriminate.
  - simpl. lia.
Defined.
