(* ===== verification/Ext2Dir.v ===== *)
(** * Directories of ext2 (kernel/fs/ext2/ext2.c)

    [ext2_read_dir] walks the entries of a directory block in the stream's buffer
    and copies one after the other into the stream's dirent; the conversions between
    the types of inodes and of vfs nodes. *)
From S2P Require Import Prelude LinkedList Frames Mm HeapApi LibK FdTable Disk Kmem FileIo Vfs VfsPath VfsOps Ext2 Ext2Blocks Ext2Files Ext2Write Ext2Alloc.

(** ** Entries *)

(** The fields of a packed entry. *)
Definition de_inode (eb : list Z) : Z := u32_at eb DE_INODE.
Definition de_size (eb : list Z) : Z := u16_at eb DE_TOTAL_SIZE.
Definition de_name_length (eb : list Z) : Z := byte_at eb DE_NAME_LENGTH.
Definition de_name (eb : list Z) : list Z := slice eb DE_NAME (de_name_length eb).

(** The bytes of one entry in use. *)
Record entry_ok (eb : list Z) : Prop := EntryOk {
  eo_bytes : Forall is_byte eb;
  eo_size : de_size eb = Z.of_nat (length eb);
  eo_name : DE_NAME + de_name_length eb ≤ Z.of_nat (length eb);
  eo_chars : Forall is_char (de_name eb);
  eo_inode : de_inode eb ≠ 0
}.

Lemma u16_bytes w : 0 ≤ w < 65536 → u8 w + 256 * u8 (w / 256) = w.
Proof. intros Hw. unfold u8. Z.to_euclidean_division_equations. lia. Qed.

Section dir.
Context {H D : Type} `{HL : HeapLaws H} `{HB : BlockDevice D}.
Variables tmp1 tmp2 : Z.
Implicit Types s : vst H D.

(** A stream at offset [o] of its buffer, which is apart from the dirent. *)
Record stream s (dirp : Z) (d : DIR) (bs : Z) : Prop := Stream {
  sm_dir : vs_dirs s !! dirp = Some d;
  sm_fs : ∃ fs, vs_filesystems s !! d_fs_info d = Some fs ∧ fs_block_size fs = bs;
  sm_buf : 0 < d_filebuffer d ∧ d_filebuffer d + bs < 4294967296;
  sm_off : 0 ≤ d_next_direntry_offset d;
  sm_dirent : mapped (vs_mem s) (d_dirent d) (DIRENT_NAME + 256);
  sm_apart : disjoint_blocks (d_dirent d) (DIRENT_NAME + 256) (d_filebuffer d) bs
}.

Definition moved (d : DIR) (size : Z) : DIR :=
  Dir (d_fs_info d) (d_next_direntry_offset d + size) (d_inode d) (d_blockpointerindex d) size
    (d_filebuffer d) (d_dirent d).

(** The dirent at [p] that the entry [eb] leaves, when the next offset is [next]. *)
Definition dirent_bytes (eb : list Z) (next : Z) : list Z :=
  bytes32 (de_inode eb) ++ bytes32 next ++
  [u8 (de_name_length eb + SIZEOF_DIRENT + 1); u8 ((de_name_length eb + SIZEOF_DIRENT + 1) / 256)] ++
  [u8 (_ext2_inode_type_to_vfs_type (byte_at eb DE_TYPE))] ++ de_name eb ++ [0].

Lemma write_dirent m p eb next : 
  write_at (write_at (write_at (write_at (write_at m (p + DIRENT_NAME) (de_name eb ++ [0])) p (bytes32 (de_inode eb)))
    (p + 4) (bytes32 next)) (p + 8)
    [u8 (de_name_length eb + SIZEOF_DIRENT + 1); u8 ((de_name_length eb + SIZEOF_DIRENT + 1) / 256)]) (p + 10)
    [u8 (_ext2_inode_type_to_vfs_type (byte_at eb DE_TYPE))] = write_at m p (dirent_bytes eb next).
Proof.
  unfold dirent_bytes, DIRENT_NAME. set (name := de_name eb ++ [0]).
  rewrite (write_at_comm m), (write_at_comm (write_at m p _)), (write_at_comm (write_at (write_at m p _) _ _)),
    (write_at_comm (write_at (write_at (write_at m p _) _ _) _ _)) by (simpl; lia).
  rewrite <- !write_at_app_l. simpl length. rewrite <- !Z.add_assoc. done.
Qed.

Lemma run_load_dir s p d : vs_dirs s !! p = Some d → load_dirstream p s = Ok (d, s).
Proof. intros Hd. unfold load_dirstream, get, of_option, mbind, M_bind. by rewrite Hd. Qed.

(** The state with another memory and the stream at [dirp] moved. *)
Definition after_entry s (dirp : Z) (d : DIR) (m : bmem) : vst H D :=
  set_dirs (<[dirp := d]> (vs_dirs s)) (set_kmem m (vs_heap s) s).

Lemma after_bytes {A} (c : M bmem A) s dirp d m a m' : c m = Ok (a, m') →
  on_bytes c (after_entry s dirp d m) = Ok (a, after_entry s dirp d m').
Proof. intros Hc. exact (run_on_bytes c (after_entry s dirp d m) a m' Hc). Qed.

Lemma advance_none s dirp d bs : stream s dirp d bs → d_next_direntry_offset d < bs →
  advance_dir tmp1 tmp2 dirp s = Ok (true, s).
Proof.
  intros [Hd (fs & Hfs & Hbs) _ _ _ _] Hlt. unfold advance_dir. rewrite (bind_ok _ _ _ _ _ (run_load_dir _ _ _ Hd)).
  rewrite (bind_ok _ _ _ _ _ (run_load_fs s _ fs Hfs)). rewrite Hbs.
  by destruct (Z.leb_spec bs (d_next_direntry_offset d)); [lia|].
Qed.

Lemma field8_run s p bs k : bytes_at (vs_mem s) p bs → 0 ≤ k < Z.of_nat (length bs) →
  field8 p k s = Ok (byte_at bs k, s).
Proof. intros Hb Hk. apply run_read. by apply load8_at. Qed.

Lemma field16_run s p bs k : bytes_at (vs_mem s) p bs → 0 ≤ k → k + 2 ≤ Z.of_nat (length bs) →
  field16 p k s = Ok (u16_at bs k, s).
Proof. intros Hb Hk Hl. apply run_read. by apply load16_at. Qed.

(** An entry [eb] at [tmp] and the room for a dirent at [p], apart from it. *)
Record entry_at (m : bmem) (tmp : Z) (eb : list Z) (p : Z) : Prop := EntryAt {
  ea_ok : entry_ok eb;
  ea_bytes : bytes_at m tmp eb;
  ea_room : mapped m p (DIRENT_NAME + 256);
  ea_apart : disjoint_blocks p (DIRENT_NAME + 256) tmp (Z.of_nat (length eb))
}.

Lemma entry_at_write m tmp eb p q bs : entry_at m tmp eb p → p ≤ q →
  q + Z.of_nat (length bs) ≤ p + (DIRENT_NAME + 256) → entry_at (write_at m q bs) tmp eb p.
Proof.
  intros [Hok Hb Hr Ha] H1 H2. split; [done| |by apply mapped_write|done].
  apply bytes_at_write; [|done]. destruct Ha; [right|left]; lia.
Qed.

Lemma entry_sizes eb : entry_ok eb →
  0 ≤ de_name_length eb < 256 ∧ Z.of_nat (length (de_name eb)) = de_name_length eb ∧
  0 ≤ de_size eb < 65536 ∧ 8 ≤ Z.of_nat (length eb).
Proof.
  intros [Hby Hsz Hnm Hch Hin]. pose proof (byte_at_range eb DE_NAME_LENGTH Hby) as Hlen.
  fold (de_name_length eb) in Hlen. unfold is_byte, DE_NAME in *.
  pose proof (u16_at_range eb DE_TOTAL_SIZE Hby) as Hszr. fold (de_size eb) in Hszr.
  split_and!; try lia. apply slice_length; unfold DE_NAME; lia.
Qed.

Lemma copy_name_run s tmp eb p : entry_at (vs_mem s) tmp eb p →
  copy_name tmp p s = Ok (tt, set_kmem (write_at (vs_mem s) (p + DIRENT_NAME) (de_name eb ++ [0])) (vs_heap s) s).
Proof.
  intros Hea. pose proof Hea as [Hok Hb Hr Ha]. destruct (entry_sizes eb Hok) as (Hlen & Hnl & _ & H8).
  pose proof (eo_name _ Hok) as Hnm. unfold DE_NAME, DIRENT_NAME in *.
  pose proof (entry_at_write _ _ _ _ (p + 11) (de_name eb) Hea ltac:(lia) ltac:(unfold DIRENT_NAME; lia)) as Hea1.
  set (m0 := write_at (vs_mem s) (p + 11) (de_name eb)) in *.
  unfold copy_name. rewrite (bind_ok _ _ _ (de_name_length eb) s) by (apply field8_run; [done|unfold DE_NAME_LENGTH; lia]).
  rewrite (bind_ok _ _ _ (p + 11) (set_kmem m0 (vs_heap s) s)).
  2: { apply run_on_bytes. rewrite <- Hnl. apply memcpy_run.
       - apply bytes_at_slice; [unfold DE_NAME; lia|lia|done].
       - eapply mapped_sub; [exact Hr|lia|lia].
       - by apply slice_bytes, Hok.
       - rewrite Hnl. unfold DE_NAME. destruct Ha; lia. }
  rewrite (bind_ok _ _ _ (de_name_length eb) (set_kmem m0 (vs_heap s) s))
    by (apply field8_run; [apply Hea1|unfold DE_NAME_LENGTH; lia]).
  rewrite run_poke; [|apply (ea_room _ _ _ _ Hea1); unfold DIRENT_NAME; lia].
  by rewrite write_at_snoc, Hnl.
Qed.

Lemma fill_dirent_run s tmp eb p next m dirp d :
  entry_at m tmp eb p → let st := after_entry s dirp d in
  fill_dirent tmp p next (st (write_at m (p + DIRENT_NAME) (de_name eb ++ [0]))) =
    Ok (tt, st (write_at m p (dirent_bytes eb next))).
Proof.
  intros Hea st. destruct (entry_sizes eb (ea_ok _ _ _ _ Hea)) as (Hlen & Hnl & _ & H8). rewrite <- write_dirent.
  assert (Hea1 : entry_at (write_at m (p + DIRENT_NAME) (de_name eb ++ [0])) tmp eb p).
  { apply entry_at_write; [done|unfold DIRENT_NAME; lia|]. rewrite length_app. unfold DIRENT_NAME. simpl. lia. }
  set (m1 := write_at m (p + DIRENT_NAME) (de_name eb ++ [0])) in *.
  assert (Hput : ∀ m q bs, entry_at m tmp eb p → p ≤ q → q + Z.of_nat (length bs) ≤ p + 11 →
                 entry_at (write_at m q bs) tmp eb p)
    by (intros; apply entry_at_write; [done|done|unfold DIRENT_NAME; lia]).
  pose proof (Hput _ p (bytes32 (de_inode eb)) Hea1 ltac:(lia) ltac:(simpl; lia)) as Hea2. set (m2 := write_at m1 p _) in *.
  pose proof (Hput _ (p + 4) (bytes32 next) Hea2 ltac:(lia) ltac:(simpl; lia)) as Hea3. set (m3 := write_at m2 _ _) in *.
  pose proof (Hput _ (p + 8) [u8 (de_name_length eb + SIZEOF_DIRENT + 1);
    u8 ((de_name_length eb + SIZEOF_DIRENT + 1) / 256)] Hea3 ltac:(lia) ltac:(simpl; lia)) as Hea4.
  set (m4 := write_at m3 _ _) in *.
  assert (Hmap : ∀ m q n, entry_at m tmp eb p → p ≤ q → q + n ≤ p + 11 → mapped m q n)
    by (intros ? q n Hx Hq Hn; eapply mapped_sub; [apply (ea_room _ _ _ _ Hx)|lia|unfold DIRENT_NAME; lia]).
  unfold fill_dirent.
  rewrite (bind_ok _ _ _ (de_inode eb) (st m1)) by (apply field32_run; [apply Hea1|unfold DE_INODE; lia..]).
  rewrite (bind_ok _ _ _ tt (st m2)).
  2: { apply after_bytes. unfold DI_INO. rewrite Z.add_0_r. by apply store32_run, Hmap; [|lia|lia]. }
  rewrite (bind_ok _ _ _ tt (st m3)) by (by apply after_bytes, store32_run, Hmap; [|unfold DI_OFF; lia..]).
  rewrite (bind_ok _ _ _ (de_name_length eb) (st m3)) by (apply field8_run; [apply Hea3|unfold DE_NAME_LENGTH; lia]).
  rewrite (bind_ok _ _ _ tt (st m4)) by (by apply after_bytes, store16_run, Hmap; [|unfold DI_RECLEN; lia..]).
  rewrite (bind_ok _ _ _ (byte_at eb DE_TYPE) (st m4)) by (apply field8_run; [apply Hea4|unfold DE_TYPE; lia]).
  apply after_bytes, run_store8. apply (ea_room _ _ _ _ Hea4). unfold DI_TYPE, DIRENT_NAME. lia.
Qed.

Lemma stream_entry s dirp d bs eb : stream s dirp d bs → entry_ok eb →
  bytes_at (vs_mem s) (d_filebuffer d + d_next_direntry_offset d) eb →
  d_next_direntry_offset d + Z.of_nat (length eb) ≤ bs →
  entry_at (vs_mem s) (d_filebuffer d + d_next_direntry_offset d) eb (d_dirent d).
Proof.
  intros [_ _ _ Hoff Hm Ha] Hok Hb Hl. split; try done. destruct Ha; [left|right]; lia.
Qed.

Lemma read_dir_step s dirp d bs eb : stream s dirp d bs → entry_ok eb →
  bytes_at (vs_mem s) (d_filebuffer d + d_next_direntry_offset d) eb →
  d_next_direntry_offset d + Z.of_nat (length eb) ≤ bs →
  ext2_read_dir tmp1 tmp2 dirp s =
    Ok (d_dirent d, after_entry s dirp (moved d (de_size eb))
      (write_at (vs_mem s) (d_dirent d) (dirent_bytes eb (d_next_direntry_offset d + de_size eb)))).
Proof.
  intros Hst Hok Hb Hl. pose proof Hst as [Hd _ [Hfb Hfe] Hoff Hdm Hap].
  destruct (entry_sizes eb Hok) as (Hlen & Hnl & Hsz & H8). pose proof (stream_entry s dirp d bs eb Hst Hok Hb Hl) as Hea.
  pose proof (eo_size _ Hok) as Hes.
  unfold ext2_read_dir. rewrite (bind_ok _ _ _ _ _ (advance_none s dirp d bs Hst ltac:(lia))). cbn [negb].
  rewrite (bind_ok _ _ _ _ _ (run_load_dir _ _ _ Hd)), (u32_small (d_filebuffer d + _)) by lia.
  rewrite (bind_ok _ _ _ (de_inode eb) s) by (apply field32_run; [done|unfold DE_INODE; lia..]).
  rewrite (proj2 (Z.eqb_neq _ _) (eo_inode _ Hok)), (bind_ok _ _ _ _ _ (copy_name_run s _ eb _ Hea)).
  rewrite (bind_ok _ _ _ (de_size eb) (set_kmem (write_at (vs_mem s) (d_dirent d + DIRENT_NAME) (de_name eb ++ [0])) (vs_heap s) s)).
  2: { apply field16_run; [|unfold DE_TOTAL_SIZE; lia..].
       apply (entry_at_write _ _ _ _ _ _ Hea); [unfold DIRENT_NAME; lia|].
       rewrite length_app. unfold DIRENT_NAME. simpl. lia. }
  rewrite (u32_small (d_next_direntry_offset d + _)) by lia.
  rewrite (bind_ok _ _ _ tt (after_entry s dirp (moved d (de_size eb))
    (write_at (vs_mem s) (d_dirent d + DIRENT_NAME) (de_name eb ++ [0])))) by done.
  by rewrite (bind_ok _ _ _ _ _ (fill_dirent_run s _ eb _ _ _ _ _ Hea)).
Qed.

(** ** Listing *)

(** Calls of [ext2_read_dir] that return the dirent [p] with the names and inodes of
    the entries in turn; only the dirent's bytes change. *)
Fixpoint reads_entries (dirp p : Z) (ebs : list (list Z)) s : Prop :=
  match ebs with
  | [] => True
  | eb :: ebs => ∃ s', ext2_read_dir tmp1 tmp2 dirp s = Ok (p, s') ∧
      cstr (vs_mem s') (p + DIRENT_NAME) (de_name eb) ∧ load32 p (vs_mem s') = Ok (de_inode eb, vs_mem s') ∧
      (∀ q, ¬ p ≤ q < p + (DIRENT_NAME + 256) → vs_mem s' !! q = vs_mem s !! q) ∧
      reads_entries dirp p ebs s'
  end.

Lemma dirent_length eb next : entry_ok eb → Z.of_nat (length (dirent_bytes eb next)) = 12 + de_name_length eb.
Proof.
  intros Hok. destruct (entry_sizes eb Hok) as (_ & Hnl & _). unfold dirent_bytes.
  rewrite !length_app, !Nat2Z.inj_add, Hnl. simpl. lia.
Qed.

Lemma dirent_name m p eb next : entry_ok eb →
  cstr (write_at m p (dirent_bytes eb next)) (p + DIRENT_NAME) (de_name eb).
Proof.
  intros Hok. split; [|apply Hok]. pose proof (write_at_in m p (dirent_bytes eb next)) as Hw.
  unfold dirent_bytes in Hw at 2. do 4 apply bytes_at_app in Hw as [_ Hw]. simpl length in Hw.
  by replace (p + Z.of_nat 4 + Z.of_nat 4 + Z.of_nat 2 + Z.of_nat 1) with (p + DIRENT_NAME) in Hw by (unfold DIRENT_NAME; lia).
Qed.

Lemma dirent_inode m p eb next : entry_ok eb →
  load32 p (write_at m p (dirent_bytes eb next)) = Ok (de_inode eb, write_at m p (dirent_bytes eb next)).
Proof.
  intros Hok. pose proof (dirent_length eb next Hok) as Hl. destruct (entry_sizes eb Hok) as (? & _).
  rewrite <- (Z.add_0_r p) at 1. erewrite load32_at; [|apply write_at_in|lia|lia].
  do 2 f_equal. exact (u32_bytes (de_inode eb) (u32_at_range eb _ (eo_bytes _ Hok))).
Qed.

Lemma read_dir_list ebs : ∀ s dirp d bs,
  stream s dirp d bs → Forall entry_ok ebs →
  bytes_at (vs_mem s) (d_filebuffer d + d_next_direntry_offset d) (concat ebs) →
  d_next_direntry_offset d + Z.of_nat (length (concat ebs)) ≤ bs →
  reads_entries dirp (d_dirent d) ebs s.
Proof.
  induction ebs as [|eb ebs IH]; intros s dirp d bs Hst Hok Hb Hl; [done|].
  apply Forall_cons in Hok as [Hok Hoks]. simpl in Hb, Hl. rewrite length_app in Hl.
  apply bytes_at_app in Hb as [Hb Hbs]. pose proof Hst as [Hd Hfs Hbuf Hoff Hdm Hap].
  destruct (entry_sizes eb Hok) as (Hlen & _ & Hsz & H8). pose proof (eo_size _ Hok) as Hes.
  set (next := d_next_direntry_offset d + de_size eb). pose proof (dirent_length eb next Hok) as Hdl.
  assert (Hout : ∀ q, ¬ d_dirent d ≤ q < d_dirent d + (DIRENT_NAME + 256) →
    write_at (vs_mem s) (d_dirent d) (dirent_bytes eb next) !! q = vs_mem s !! q).
  { intros q Hq. apply write_at_out. unfold DIRENT_NAME in Hq. lia. }
  eexists. split; [apply (read_dir_step s dirp d bs); [done|done|done|lia]|]. fold next.
  split; [by apply dirent_name|]. split; [by apply dirent_inode|]. split; [exact Hout|].
  apply (IH _ dirp (moved d (de_size eb)) bs); try done.
  - split; try done; [apply lookup_insert_eq|simpl; lia|exact (mapped_write _ _ _ _ _ Hdm)].
  - simpl. rewrite Hes, Z.add_assoc. eapply bytes_at_frame; [|exact Hbs]. intros q Hq. apply Hout.
    unfold DIRENT_NAME in *. destruct Hap; lia.
  - simpl. lia.
Qed.
End dir.

(** ** Theorems *)

(** C35: A directory is listed in order.  Calling [ext2_read_dir] on a stream again
    and again returns the dirent of the stream filled with the name, as a string,
    and the inode of each entry of the block in turn, and changes no byte outside
    the dirent. *)
Theorem read_dir_entries {H D : Type} `{!KernelHeap H, !DiskDriver D} tmp1 tmp2 (s : vst H D) dirp d bs ebs :
  stream s dirp d bs → Forall entry_ok ebs →
  bytes_at (vs_mem s) (d_filebuffer d + d_next_direntry_offset d) (concat ebs) →
  d_next_direntry_offset d + Z.of_nat (length (concat ebs)) ≤ bs →
  reads_entries tmp1 tmp2 dirp (d_dirent d) ebs s.
Proof. apply read_dir_list. Qed.

(** The entries [bin] (inode 5) and [sh] (inode 6). *)
Definition demo_entries : list (list Z) :=
  [ [5; 0; 0; 0; 12; 0; 3; 2] ++ BIN ++ [0]; [6; 0; 0; 0; 12; 0; 2; 1] ++ SH ++ [0; 0] ].

Definition demo_stream : DIR := Dir 3000 0 1 0 0 1400 1100.

Lemma demo_entries_ok : Forall entry_ok demo_entries.
Proof.
  repeat constructor; try (by vm_compute); unfold is_byte, is_char; vm_compute; done.
Qed.

Lemma read_dir_entries_witness :
  (de_name <$> demo_entries) = [BIN; SH] ∧
  reads_entries 600 730 4000 1100 demo_entries
    (after_entry small_vfs 4000 demo_stream (write_at small_mem 1400 (concat demo_entries))).
Proof.
  split; [by vm_compute|].
  refine (read_dir_entries 600 730 (after_entry small_vfs 4000 demo_stream
    (write_at small_mem 1400 (concat demo_entries))) 4000 demo_stream 128 demo_entries _ _ _ _).
  - split.
    + apply lookup_insert_eq.
    + by exists small_fs.
    + by split.
    + done.
    + apply mapped_write, small_mapped; [done|]. right. by split.
    + by left.
  - exact demo_entries_ok.
  - apply write_at_in.
  - by vm_compute.
Defined.

(** The types of inodes and of vfs nodes correspond.  Each of the seven vfs types
    becomes an inode type that converts back to it, and each of the seven inode types
    a vfs type that converts back; but a type byte of a directory entry is none of
    these inode types, so the dirent's type is 0 whatever the entry is. *)
Theorem inode_type_roundtrip :
  Forall (λ t, _ext2_inode_type_to_vfs_type (_ext2_vfs_type_to_inode_type t) = t)
    [VFS_FILE; VFS_DIRECTORY; VFS_CHARDEVICE; VFS_BLOCKDEVICE; VFS_PIPE; VFS_SYMLINK; VFS_SOCKET] ∧
  Forall (λ t, _ext2_vfs_type_to_inode_type (_ext2_inode_type_to_vfs_type t) = t)
    [EXT2_INODE_TYPE_SOCK; EXT2_INODE_TYPE_LINK; EXT2_INODE_TYPE_REG; EXT2_INODE_TYPE_BLK;
     EXT2_INODE_TYPE_DIR; EXT2_INODE_TYPE_CHR; EXT2_INODE_TYPE_FIFO] ∧
  ∀ eb next, entry_ok eb → byte_at (dirent_bytes eb next) DI_TYPE = 0.
Proof.
  split; [by repeat constructor|]. split; [by repeat constructor|]. intros eb next Hok.
  pose proof (byte_at_range eb DE_TYPE (eo_bytes _ Hok)) as Hr. unfold is_byte in Hr.
  change (byte_at (dirent_bytes eb next) DI_TYPE) with (u8 (_ext2_inode_type_to_vfs_type (byte_at eb DE_TYPE))).
  unfold _ext2_inode_type_to_vfs_type, EXT2_INODE_TYPE_DIR, EXT2_INODE_TYPE_REG, EXT2_INODE_TYPE_CHR,
    EXT2_INODE_TYPE_BLK, EXT2_INODE_TYPE_FIFO, EXT2_INODE_TYPE_LINK, EXT2_INODE_TYPE_SOCK.
  by rewrite !(proj2 (Z.eqb_neq _ _)) by lia.
Qed.


Lemma inode_type_roundtrip_witness :
  byte_at (dirent_bytes ([5; 0; 0; 0; 12; 0; 3; 2] ++ BIN ++ [0]) 12) DI_TYPE = 0.
Proof.
  apply inode_type_roundtrip. exact (proj1 (proj1 (Forall_cons _ _ _) demo_entries_ok)).
Defined.
