(* ===== verification/Ext2Vfs.v ===== *)
(** * Files of ext2 through the virtual file system

    The layers together: a path is looked up, a descriptor opened and read, and the
    bytes come from the partition through vfs.c, fs.c, ext2.c and disk.c, with the
    kernel heap underneath. *)
From S2P Require Import Prelude LinkedList Frames Mm HeapApi LibK FdTable Disk Kmem FileIo Vfs VfsPath VfsOps Ext2 Ext2Blocks Ext2Files.

Section stack.
Context {H D : Type} `{HL : HeapLaws H} `{HB : BlockDevice D}.
Variables tmp1 tmp2 fs_name : Z.
#[local] Instance drivers : VfsDrivers H D := ext2_drivers tmp1 tmp2 fs_name.
Implicit Types s : vst H D.

(** [fs_read] of whole blocks is one call of the driver. *)
Lemma fs_read_whole {D'} (drv : DiskDriver D') k n buf t1 t2 (m : bmem) (d : D') m' d' :
  0 < block_size_of D' → 0 ≤ k → 0 < n →
  (k + n) * block_size_of D' + block_size_of D' < 2147483648 →
  drv_read k buf n (m, d) = Ok (n, (m', d')) →
  fs_read (k * block_size_of D') buf (n * block_size_of D') t1 t2 (m, d) =
    Ok (n * block_size_of D', (m', d')).
Proof.
  intros Hb Hk Hn Hsz Hrun. unfold fs_read. destruct (Z.eqb_spec (block_size_of D') 0); [lia|].
  rewrite (u32_small (k * _)) by nia. rewrite Z.div_mul, Z.mod_mul by lia. cbn [Z.eqb negb andb].
  replace (n * block_size_of D' + (block_size_of D' - 0)) with ((n + 1) * block_size_of D') by ring.
  rewrite (u32_small ((n + 1) * _)) by nia. rewrite Z.mod_mul, Z.div_mul by lia.
  rewrite (s32_small n) by nia. erewrite bind_ok by reflexivity. cbn [Z.eqb negb].
  destruct (Z.eqb_spec n 0); [lia|]. cbn [negb].
  erewrite bind_ok by (rewrite (bind_ok _ _ _ _ _ Hrun); reflexivity). cbn.
  rewrite Z.eqb_refl. cbn [negb]. by rewrite (u32_small (n * _)), s32_small by nia.
Qed.

(** Reading whole blocks of an open ext2 file. *)
Lemma read_fd_ext2 s fd v d nd fs sb bgds k n buf t1 t2 L r :
  fd_file s fd v d nd fs → fs_block_read fs = FN_READ_FILE → fd_seek d = k * fs_block_size fs → 0 ≤ k →
  (0 < n)%nat → (k + Z.of_nat n) * fs_block_size fs + fs_block_size fs < 2147483648 →
  mounted s (n_fs_info nd) fs → volume (vs_mem s) fs sb bgds →
  has_inode (vs_fs s) fs sb bgds (n_offset nd) → block_size_of D mod inode_size sb = 0 →
  temps tmp1 tmp2 (D := D) (vs_mem s) →
  let ino := inode_bytes (vs_fs s) fs sb bgds (n_offset nd) in
  has_blocks (vs_fs s) fs ino k n → mapped (vs_mem s) buf (Z.of_nat n * fs_block_size fs) →
  heap_rep (vs_mem s) (vs_heap s) L r →
  charge (inode_size sb) + Z.of_nat n * (charge (fs_block_size fs) * 2) ≤ r →
  let size := Z.of_nat n * fs_block_size fs in
  ∃ m0 h', let m' := write_at m0 buf (file_blocks (vs_fs s) fs ino k n) in
    vfs_read_fd fd buf size t1 t2 s =
      Ok (size, set_vec (move_to v fd (fd_seek d + size) d) (set_kmem m' h' s)) ∧
    same_but_temps tmp1 tmp2 (D := D) (vs_mem s) m0 ∧
    heap_rep m' h' L (r - charge (inode_size sb) - Z.of_nat n * (charge (fs_block_size fs) * 2)).
Proof.
  intros Hff Hrd Hseek Hk Hn Hsz Hmt Hv Hi Hslot Ht ino Hb Hbuf Hh Hr size.
  pose proof (mt_bs _ _ _ Hmt) as Hbs.
  destruct (read_file_run tmp1 tmp2 s (n_fs_info nd) fs sb bgds (n_offset nd) k buf n L r)
    as (m0 & h' & Hrun & Hsame & Hh'); try done; [nia|nia|].
  exists m0, h'. split_and!; [|done|done].
  eapply read_fd_from; [done|done|nia|]. unfold on_fs.
  rewrite Hseek. rewrite (fs_read_whole (node_driver nd fs) k (Z.of_nat n) buf t1 t2 (vs_mem s) s
    (write_at m0 buf (file_blocks (vs_fs s) fs ino k n))
    (with_mem (vs_mem s) (set_kmem (write_at m0 buf (file_blocks (vs_fs s) fs ino k n)) h' s)));
    [by destruct s|simpl; lia|done|lia|simpl; lia|].
  simpl. unfold behind_fs. simpl. unfold call_if. rewrite Hrd, Z.eqb_refl.
  replace (with_mem (vs_mem s) s) with s by by destruct s. by rewrite Hrun.
Qed.
(** ** Theorems *)

(** C4: From a path to the bytes on the disk.  Opening a path that leads to an ext2
    file and reading [n] blocks from the new descriptor returns the number of bytes
    and puts the first [n] blocks of the file, as the inode's block map finds them on
    the partition, into the buffer: path lookup, descriptor table, block layer, inode
    and block map, disk access and kernel heap together.  The disk is unchanged, the
    heap holds what it held before and no other byte but disk_read's temporary
    blocks has changed. *)
Theorem ext2_open_read lit kmalloc_ok lock s path p dirs cwd L r v node nd fs sb bgds flags mode n buf t1 t2 :
  vfs_ok lit s dirs cwd → cstr (vs_mem s) path p → path ≠ 0 →
  Z.of_nat (length cwd + length p) + 2 < 2147483648 →
  (∀ k, kmalloc_ok k = true) → task_fds (vs_fd s) = Some v → vec_ok v →
  resolve dirs (g_vfs_root s) cwd p = Some node → Z.land flags O_DIRECTORY = 0 →
  vs_nodes s !! node = Some nd → n_read nd = 0 → fs_block_read fs = FN_READ_FILE →
  mounted s (n_fs_info nd) fs → volume (vs_mem s) fs sb bgds →
  has_inode (vs_fs s) fs sb bgds (n_offset nd) → block_size_of D mod inode_size sb = 0 →
  temps tmp1 tmp2 (D := D) (vs_mem s) →
  let ino := inode_bytes (vs_fs s) fs sb bgds (n_offset nd) in
  let size := Z.of_nat n * fs_block_size fs in
  has_blocks (vs_fs s) fs ino 0 n → (0 < n)%nat → size + fs_block_size fs < 2147483648 →
  mapped (vs_mem s) buf size → heap_rep (vs_mem s) (vs_heap s) L r →
  path_charge (length cwd) (length p) + charge (inode_size sb)
    + Z.of_nat n * (charge (fs_block_size fs) * 2) ≤ r →
  ∃ fd s1 s2 r', vfs_open_fd lit kmalloc_ok lock path flags mode s = Ok (fd, s1) ∧ lowest_closed v fd ∧
    vfs_read_fd fd buf size t1 t2 s1 = Ok (size, s2) ∧
    bytes_at (vs_mem s2) buf (file_blocks (vs_fs s) fs ino 0 n) ∧ vs_fs s2 = vs_fs s ∧
    heap_rep (vs_mem s2) (vs_heap s2) L r' ∧
    ∀ q, ¬ buf ≤ q < buf + size → ¬ tmp1 ≤ q < tmp1 + block_size_of D →
         ¬ tmp2 ≤ q < tmp2 + block_size_of D → vs_mem s2 !! q = vs_mem s !! q.
Proof.
  intros Hok Hp Hp0 Hl Hk Hv Hvok Hres Hfl Hn Hrd Hfr Hmt Hvol Hi Hslot Ht ino size Hb Hn0 Hsz Hbuf Hh Hr.
  pose proof (mt_bs _ _ _ Hmt) as Hbs. pose proof Hvol as [_ _ _ _ Hisz _].
  pose proof (charge_pos (fs_block_size fs) ltac:(lia)). pose proof (charge_pos (inode_size sb) ltac:(lia)).
  destruct (open_fd_run lit kmalloc_ok lock s path p dirs cwd L r v node flags mode)
    as (fd & v' & h' & e & Hop & Hlow & [Hsl _ Hvs Hmx Hlen Hin] & Hh'); try done; [nia|].
  destruct (read_fd_ext2 (set_vec v' (set_kmem (vs_mem s) h' (with_errno e s))) fd v'
    (FileDescriptor node (u16 mode) flags 0 lock) nd fs sb bgds 0 n buf t1 t2 L
    (r - path_charge (length cwd) (length p))) as (m0 & h2 & Hrun & [Hsame _] & Hh2); try done; try lia.
  { split; try done; try lia; [exact (mt_fs _ _ _ Hmt)|by rewrite Hfr]. }
  { by eapply mounted_same. }
  eexists fd, _, _, _. split; [exact Hop|]. split; [done|]. split; [exact Hrun|]. simpl.
  split; [apply write_at_in|]. split; [done|]. split; [exact Hh2|].
  intros q Hq Hq1 Hq2. rewrite write_at_out; [by apply Hsame|].
  rewrite file_blocks_length by (done || lia || apply (mt_part _ _ _ Hmt)). done.
Qed.
End stack.

Lemma small_vfs_ok : vfs_ok demo_lit small_vfs demo_dirs (SLASH :: BIN).
Proof.
  split; simpl; try done.
  - intros p n Hn. unfold small_nodes in Hn. rewrite !lookup_insert_Some, lookup_singleton_Some in Hn.
    destruct Hn as [[<- <-]|[_ [[<- <-]|[_ [<- <-]]]]]; simpl; [| |done].
    + split; [done|]. split; [done|]. exists (demo_node 1000 0 2200). split; [done|].
      split; [by apply cstr_check|done].
    + split; [done|]. split; [done|]. exists small_node. split; [done|].
      split; [by apply cstr_check|done].
  - by apply cstr_check.
  - eexists. split; [done|]. split; [done|]. by apply cstr_check.
Qed.

Lemma ext2_open_read_witness :
  file_blocks small_image small_fs small_inode 0 2 = replicate 128 9 ++ replicate 128 7 ∧
  ∃ fd s1 s2 r', @vfs_open_fd _ _ _ (ext2_drivers 600 730 0) demo_lit (λ _, true) 0 1040 0 0 small_vfs = Ok (fd, s1) ∧
    lowest_closed demo_vec fd ∧
    @vfs_read_fd _ _ (ext2_drivers 600 730 0) fd 1100 (Z.of_nat 2 * fs_block_size small_fs) 0 0 s1 =
      Ok (Z.of_nat 2 * fs_block_size small_fs, s2) ∧
    bytes_at (vs_mem s2) 1100 (file_blocks (vs_fs small_vfs) small_fs
      (inode_bytes (vs_fs small_vfs) small_fs small_sb small_bgds (n_offset small_node)) 0 2) ∧
    vs_fs s2 = vs_fs small_vfs ∧ heap_rep (vs_mem s2) (vs_heap s2) ∅ r' ∧
    ∀ q, ¬ 1100 ≤ q < 1100 + Z.of_nat 2 * fs_block_size small_fs →
         ¬ 600 ≤ q < 600 + block_size_of (listdisk 128) →
         ¬ 730 ≤ q < 730 + block_size_of (listdisk 128) → vs_mem s2 !! q = vs_mem small_vfs !! q.
Proof.
  split; [by vm_compute|].
  refine (ext2_open_read 600 730 0 demo_lit (λ _, true) 0 small_vfs 1040 SH demo_dirs (SLASH :: BIN) ∅ 16777216
    demo_vec 2200 small_node small_fs small_sb small_bgds 0 0 2 1100 0 0 small_vfs_ok _ _ _ _ _ _ _ _ _ _ _
    small_mounted small_volume small_has_inode _ small_temps _ _ _ _ small_heap _).
  - by apply cstr_check.
  - lia.
  - simpl. lia.
  - done.
  - done.
  - by split.
  - done.
  - done.
  - done.
  - done.
  - done.
  - by vm_compute.
  - change (vs_fs small_vfs) with small_image. change (n_offset small_node) with 1.
    rewrite small_inode_bytes. intros j Hj.
    destruct (decide (j = 0)) as [->|]; [|replace j with 1 by lia].
    + apply (small_has_block 0 3); [by repeat constructor|by vm_compute|lia].
    + apply (small_has_block 1 2); [by repeat constructor|by vm_compute|lia].
  - lia.
  - simpl. lia.
  - apply small_mapped; simpl; lia.
  - vm_compute. discriminate.
Defined.
