(* ===== verification/Video.v ===== *)
(** * The console font and its drawing (kernel/drivers/video: font.c, vesa.c, vga.c, video.c)

    The bitmaps of the printable characters, sixteen bytes each, the drawing of a character
    into the linear framebuffer or the text buffer, and the driver table through which the
    terminals draw. *)
From S2P Require Import Prelude Frames LibK Ports Interrupts.

(** ** font.c *)

Definition MonospaceFont_16_bitmap : list Z := [
  0; 0; 0; 0; 0; 0; 0; 0; 0; 0; 0; 0; 0; 0; 0; 0;
  0; 0; 0; 128; 128; 128; 128; 128; 128; 0; 0; 128; 128; 0; 0; 0;
  0; 0; 0; 160; 160; 160; 160; 0; 0; 0; 0; 0; 0; 0; 0; 0;
  0; 0; 0; 18; 18; 22; 127; 36; 36; 254; 40; 72; 72; 0; 0; 0;
  0; 0; 16; 16; 124; 210; 144; 208; 120; 22; 18; 150; 124; 16; 16; 0;
  0; 0; 0; 96; 144; 144; 98; 12; 48; 70; 9; 9; 6; 0; 0; 0;
  0; 0; 0; 56; 64; 64; 96; 96; 146; 138; 142; 204; 126; 0; 0; 0;
  0; 0; 0; 128; 128; 128; 128; 0; 0; 0; 0; 0; 0; 0; 0; 0;
  0; 0; 32; 64; 64; 128; 128; 128; 128; 128; 128; 64; 64; 32; 0; 0;
  0; 0; 128; 64; 64; 32; 32; 32; 32; 32; 32; 64; 64; 128; 0; 0;
  0; 0; 0; 16; 146; 56; 56; 146; 16; 0; 0; 0; 0; 0; 0; 0;
  0; 0; 0; 0; 0; 16; 16; 16; 254; 16; 16; 16; 0; 0; 0; 0;
  0; 0; 0; 0; 0; 0; 0; 0; 0; 0; 0; 96; 96; 64; 128; 0;
  0; 0; 0; 0; 0; 0; 0; 0; 0; 240; 0; 0; 0; 0; 0; 0;
  0; 0; 0; 0; 0; 0; 0; 0; 0; 0; 0; 192; 192; 0; 0; 0;
  0; 0; 0; 4; 8; 8; 8; 16; 16; 32; 32; 64; 64; 64; 128; 0;
  0; 0; 0; 56; 68; 130; 130; 146; 130; 130; 130; 68; 56; 0; 0; 0;
  0; 0; 0; 96; 160; 32; 32; 32; 32; 32; 32; 32; 248; 0; 0; 0;
  0; 0; 0; 120; 134; 2; 2; 4; 12; 24; 32; 64; 254; 0; 0; 0;
  0; 0; 0; 120; 134; 2; 6; 60; 6; 2; 2; 134; 120; 0; 0; 0;
  0; 0; 0; 12; 20; 52; 36; 68; 132; 254; 4; 4; 4; 0; 0; 0;
  0; 0; 0; 252; 128; 128; 248; 132; 2; 2; 2; 132; 120; 0; 0; 0;
  0; 0; 0; 60; 98; 192; 128; 188; 198; 130; 130; 70; 60; 0; 0; 0;
  0; 0; 0; 254; 6; 4; 8; 8; 16; 16; 32; 32; 64; 0; 0; 0;
  0; 0; 0; 124; 198; 130; 198; 124; 198; 130; 130; 198; 124; 0; 0; 0;
  0; 0; 0; 120; 196; 130; 130; 198; 122; 2; 6; 140; 120; 0; 0; 0;
  0; 0; 0; 0; 0; 0; 192; 192; 0; 0; 0; 192; 192; 0; 0; 0;
  0; 0; 0; 0; 0; 0; 96; 96; 0; 0; 0; 96; 96; 64; 128; 0;
  0; 0; 0; 0; 0; 2; 28; 112; 192; 112; 28; 2; 0; 0; 0; 0;
  0; 0; 0; 0; 0; 0; 254; 0; 0; 254; 0; 0; 0; 0; 0; 0;
  0; 0; 0; 0; 0; 128; 112; 28; 6; 28; 112; 128; 0; 0; 0; 0;
  0; 0; 0; 112; 136; 8; 24; 16; 32; 32; 0; 32; 32; 0; 0; 0;
  0; 0; 0; 60; 102; 66; 142; 146; 146; 146; 146; 142; 64; 96; 28; 0;
  0; 0; 0; 16; 56; 40; 40; 40; 68; 124; 68; 130; 130; 0; 0; 0;
  0; 0; 0; 252; 134; 130; 134; 252; 134; 130; 130; 134; 252; 0; 0; 0;
  0; 0; 0; 60; 66; 192; 128; 128; 128; 128; 192; 66; 60; 0; 0; 0;
  0; 0; 0; 248; 140; 130; 130; 130; 130; 130; 130; 132; 248; 0; 0; 0;
  0; 0; 0; 254; 128; 128; 128; 254; 128; 128; 128; 128; 254; 0; 0; 0;
  0; 0; 0; 254; 128; 128; 128; 254; 128; 128; 128; 128; 128; 0; 0; 0;
  0; 0; 0; 60; 66; 192; 128; 128; 134; 130; 130; 66; 60; 0; 0; 0;
  0; 0; 0; 130; 130; 130; 130; 254; 130; 130; 130; 130; 130; 0; 0; 0;
  0; 0; 0; 248; 32; 32; 32; 32; 32; 32; 32; 32; 248; 0; 0; 0;
  0; 0; 0; 60; 4; 4; 4; 4; 4; 4; 4; 204; 120; 0; 0; 0;
  0; 0; 0; 132; 136; 144; 160; 224; 144; 152; 136; 132; 130; 0; 0; 0;
  0; 0; 0; 128; 128; 128; 128; 128; 128; 128; 128; 128; 254; 0; 0; 0;
  0; 0; 0; 198; 198; 170; 170; 186; 146; 130; 130; 130; 130; 0; 0; 0;
  0; 0; 0; 194; 194; 162; 162; 146; 146; 138; 138; 134; 134; 0; 0; 0;
  0; 0; 0; 56; 68; 130; 130; 130; 130; 130; 130; 68; 56; 0; 0; 0;
  0; 0; 0; 248; 134; 130; 130; 134; 252; 128; 128; 128; 128; 0; 0; 0;
  0; 0; 0; 56; 68; 130; 130; 130; 130; 130; 130; 68; 60; 12; 4; 0;
  0; 0; 0; 248; 134; 130; 130; 134; 252; 132; 130; 130; 129; 0; 0; 0;
  0; 0; 0; 60; 194; 128; 128; 96; 28; 2; 2; 134; 124; 0; 0; 0;
  0; 0; 0; 254; 16; 16; 16; 16; 16; 16; 16; 16; 16; 0; 0; 0;
  0; 0; 0; 130; 130; 130; 130; 130; 130; 130; 130; 198; 124; 0; 0; 0;
  0; 0; 0; 130; 130; 68; 68; 68; 40; 40; 40; 56; 16; 0; 0; 0;
  0; 0; 0; 0; 0; 0; 129; 0; 129; 0; 129; 0; 153; 0; 90; 0;
  90; 0; 126; 0; 36; 0; 36; 0; 36; 0; 0; 0; 0; 0; 0; 0;
  0; 0; 0; 130; 68; 40; 40; 16; 56; 40; 68; 68; 130; 0; 0; 0;
  0; 0; 0; 130; 68; 68; 40; 56; 16; 16; 16; 16; 16; 0; 0; 0;
  0; 0; 0; 254; 6; 4; 8; 16; 16; 32; 64; 192; 254; 0; 0; 0;
  0; 0; 224; 128; 128; 128; 128; 128; 128; 128; 128; 128; 128; 224; 0; 0;
  0; 0; 0; 128; 64; 64; 64; 32; 32; 16; 16; 8; 8; 8; 4; 0;
  0; 0; 224; 32; 32; 32; 32; 32; 32; 32; 32; 32; 32; 224; 0; 0;
  0; 0; 0; 16; 40; 68; 198; 0; 0; 0; 0; 0; 0; 0; 0; 0;
  0; 0; 0; 0; 0; 0; 0; 0; 0; 0; 0; 0; 0; 0; 0; 255;
  0; 192; 64; 32; 0; 0; 0; 0; 0; 0; 0; 0; 0; 0; 0; 0;
  0; 0; 0; 0; 0; 56; 68; 4; 124; 196; 132; 140; 116; 0; 0; 0;
  0; 0; 128; 128; 128; 184; 200; 132; 132; 132; 132; 200; 184; 0; 0; 0;
  0; 0; 0; 0; 0; 56; 68; 128; 128; 128; 128; 68; 56; 0; 0; 0;
  0; 0; 4; 4; 4; 116; 76; 132; 132; 132; 132; 76; 116; 0; 0; 0;
  0; 0; 0; 0; 0; 56; 76; 132; 252; 128; 128; 68; 56; 0; 0; 0;
  0; 0; 28; 32; 32; 252; 32; 32; 32; 32; 32; 32; 32; 0; 0; 0;
  0; 0; 0; 0; 0; 116; 76; 132; 132; 132; 132; 76; 116; 4; 76; 56;
  0; 0; 128; 128; 128; 184; 204; 132; 132; 132; 132; 132; 132; 0; 0; 0;
  0; 0; 16; 16; 0; 112; 16; 16; 16; 16; 16; 16; 254; 0; 0; 0;
  0; 0; 16; 16; 0; 112; 16; 16; 16; 16; 16; 16; 16; 16; 16; 224;
  0; 0; 128; 128; 128; 136; 144; 160; 224; 144; 144; 136; 132; 0; 0; 0;
  0; 0; 240; 16; 16; 16; 16; 16; 16; 16; 16; 16; 14; 0; 0; 0;
  0; 0; 0; 0; 0; 236; 146; 146; 146; 146; 146; 146; 146; 0; 0; 0;
  0; 0; 0; 0; 0; 184; 204; 132; 132; 132; 132; 132; 132; 0; 0; 0;
  0; 0; 0; 0; 0; 120; 72; 132; 132; 132; 132; 72; 120; 0; 0; 0;
  0; 0; 0; 0; 0; 184; 200; 132; 132; 132; 132; 200; 184; 128; 128; 128;
  0; 0; 0; 0; 0; 116; 76; 132; 132; 132; 132; 76; 116; 4; 4; 4;
  0; 0; 0; 0; 0; 176; 200; 128; 128; 128; 128; 128; 128; 0; 0; 0;
  0; 0; 0; 0; 0; 120; 132; 128; 224; 28; 4; 132; 120; 0; 0; 0;
  0; 0; 0; 32; 32; 252; 32; 32; 32; 32; 32; 32; 28; 0; 0; 0;
  0; 0; 0; 0; 0; 132; 132; 132; 132; 132; 132; 204; 116; 0; 0; 0;
  0; 0; 0; 0; 0; 132; 132; 72; 72; 72; 48; 48; 48; 0; 0; 0;
  0; 0; 0; 0; 0; 129; 129; 90; 90; 90; 126; 36; 36; 0; 0; 0;
  0; 0; 0; 0; 0; 132; 72; 48; 48; 48; 72; 72; 132; 0; 0; 0;
  0; 0; 0; 0; 0; 132; 68; 72; 72; 40; 48; 16; 16; 16; 32; 96;
  0; 0; 0; 0; 0; 252; 4; 8; 16; 32; 64; 128; 252; 0; 0; 0;
  0; 0; 24; 32; 32; 32; 32; 32; 192; 32; 32; 32; 32; 32; 24; 0;
  0; 0; 128; 128; 128; 128; 128; 128; 128; 128; 128; 128; 128; 128; 128; 128;
  0; 0; 192; 32; 32; 32; 32; 32; 24; 32; 32; 32; 32; 32; 192; 0;
  0; 0; 0; 0; 0; 0; 0; 0; 114; 140; 0; 0; 0; 0; 0; 0;
  0; 0; 0; 0; 255; 255; 255; 255; 255; 255; 255; 255; 0; 0; 0; 0
].

(** Widths and indices. *)
Definition MonospaceFont_16_data : list (Z * Z) := [
  (5, 0); (1, 16); (3, 32); (8, 48); (7, 64); (8, 80); (7, 96); (1, 112);
  (3, 128); (3, 144); (7, 160); (7, 176); (3, 192); (4, 208); (2, 224); (6, 240);
  (7, 256); (5, 272); (8, 288); (7, 304); (7, 320); (7, 336); (7, 352); (7, 368);
  (7, 384); (7, 400); (2, 416); (3, 432); (7, 448); (7, 464); (7, 480); (5, 496);
  (7, 512); (7, 528); (7, 544); (7, 560); (7, 576); (7, 592); (7, 608); (7, 624);
  (7, 640); (5, 656); (6, 672); (8, 688); (7, 704); (7, 720); (7, 736); (7, 752);
  (7, 768); (7, 784); (8, 800); (7, 816); (7, 832); (7, 848); (7, 864); (9, 880);
  (7, 912); (7, 928); (7, 944); (3, 960); (6, 976); (3, 992); (7, 1008); (8, 1024);
  (3, 1040); (6, 1056); (6, 1072); (6, 1088); (6, 1104); (6, 1120); (6, 1136); (6, 1152);
  (6, 1168); (7, 1184); (4, 1200); (7, 1216); (7, 1232); (7, 1248); (6, 1264); (6, 1280);
  (6, 1296); (6, 1312); (5, 1328); (6, 1344); (6, 1360); (6, 1376); (6, 1392); (8, 1408);
  (6, 1424); (6, 1440); (6, 1456); (5, 1472); (1, 1488); (5, 1504); (7, 1520); (8, 1536)
].

Definition FONTHEIGHT : Z := 16.
Definition FONTWIDTH : Z := 10.

(** An entry of the table; outside of it the read is undefined. *)
Definition getdata {S : Type} (character : Z) : M S (Z * Z) :=
  let i := character - 32 in
  if 0 <=? i then of_option (MonospaceFont_16_data !! Z.to_nat i) else fault.

Definition font_getchar_width {S : Type} (character : Z) : M S Z := d ← getdata (s8 (u8 character)); mret d.1.
Definition font_getchar_index {S : Type} (character : Z) : M S Z := d ← getdata (s8 (u8 character)); mret d.2.

(** The index of the bitmap's first byte, or nothing for the null pointer. *)
Definition font_getchar {S : Type} (character : Z) : M S (option Z) :=
  let c := u8 character in
  if (c <? 32) || (128 <? c) then mret None
  else i ← font_getchar_index c; mret (Some i).

Definition font_row {S : Type} (cpointer l : Z) : M S Z := of_option (MonospaceFont_16_bitmap !! Z.to_nat (cpointer + l)).

(** ** vesa.c *)

Record vesa_ctrl := VesaCtrl { physicalLFB : Z; s_width : Z; s_height : Z; bpp : Z }.

Definition VGA_TO_FULL : list Z :=
  [0; 170; 43520; 43690; 11141120; 11141290; 11162880; 11184810; 5592405; 5592575; 5635925; 5636095; 16733525; 16733695; 16777045; 16777215].

Definition VESA_DISP_INDEX : Z := 462.
Definition VESA_DISP_DATA : Z := 463.
Definition VESA_DISP_W : Z := 1.
Definition VESA_DISP_H : Z := 2.
Definition VESA_DISP_BPP : Z := 3.
Definition VESA_DISP_ENABLE : Z := 4.
Definition VESA_DISP_BANK : Z := 5.
Definition VESA_DISP_W_VIRT : Z := 6.
Definition VESA_DISP_H_VIRT : Z := 7.

Section vesa.
Context `{!Devices}.

Definition set_reg (port data : Z) : M (list io) unit :=
  _ ← port_word_out VESA_DISP_INDEX port; port_word_out VESA_DISP_DATA data.

(** The control structure is the result. *)
Definition init_vesa (physicallfb width height bpp : Z) : M (list io) vesa_ctrl :=
  _ ← set_reg VESA_DISP_ENABLE 0;
  _ ← set_reg VESA_DISP_BPP (bpp * 8);
  _ ← set_reg VESA_DISP_W width;
  _ ← set_reg VESA_DISP_H height;
  _ ← set_reg VESA_DISP_W_VIRT width;
  _ ← set_reg VESA_DISP_H_VIRT (height * 2);
  _ ← set_reg VESA_DISP_ENABLE (Z.lor 1 64);
  _ ← set_reg VESA_DISP_BANK 0;
  mret (VesaCtrl physicallfb width height bpp).
End vesa.

Section drawing.
Variable g_display : vesa_ctrl.

(** A pixel is a 32-bit word. *)
Definition vesa_draw_pixel_at_offset (offset color : Z) : M bmem unit :=
  store32 (physicalLFB g_display + 4 * u32 offset) (u32 color).

Definition vesa_draw_pixel (x y color : Z) : M bmem unit :=
  vesa_draw_pixel_at_offset (u32 (y * s_width g_display + x)) color.

Definition vesa_vga_to_full {S : Type} (color : Z) : M S Z :=
  if (0 <=? color) && (color <=? 16) then of_option (VGA_TO_FULL !! Z.to_nat color) else mret 0.

Definition vesa_draw_char (character x y frgcolor bgcolor : Z) : M bmem unit :=
  cpointer ← font_getchar character;
  match cpointer with
  | None => mret tt
  | Some c =>
    for_up (Z.to_nat FONTHEIGHT) 0 (λ l,
      for_up (Z.to_nat FONTWIDTH) 0 (λ b,
        w ← font_getchar_width character;
        let indent := (FONTWIDTH - w) / 2 in
        row ← font_row c l;
        if negb (getbit row b =? 0) then vesa_draw_pixel (x + (FONTWIDTH - b) + indent) (y + l) frgcolor
        else if negb (bgcolor =? -1) then vesa_draw_pixel (x + (FONTWIDTH - b) + indent) (y + l) bgcolor
        else mret tt))
  end.

Definition vesa_clear_screen_ : M bmem Z :=
  memset (physicalLFB g_display) 0 (u32 (bpp g_display * s_width g_display * s_height g_display)).

(** The loop computes offsets and writes nothing. *)
Definition vesa_clear_cell (x y : Z) : M bmem unit := mret tt.
End drawing.

(** ** vga.c *)

Record vga_info := VgaInfo { vga_width : Z; vga_height : Z; vga_bpc : Z; vga_fb : Z }.

Definition init_vga (framebuffer width height bpc : Z) : vga_info := VgaInfo width height bpc framebuffer.
Definition vga_to_full (color : Z) : Z := color.

Definition vga_draw_char (v : vga_info) (character x y frgcolor bgcolor : Z) : M bmem unit :=
  let cell := u32 ((y * vga_width v + x) * vga_bpc v) in
  _ ← store8 (vga_fb v + cell) character;
  store8 (vga_fb v + u32 (cell + 1)) (Z.lor (s8 (u8 (Z.shiftl bgcolor 8))) (Z.land frgcolor 15)).

Definition vga_clear_screen (v : vga_info) : M bmem unit :=
  for_up (Z.to_nat (u32 (vga_width v * vga_height v))) 0 (λ i, store8 (vga_fb v + u32 (i * vga_bpc v)) 0).

(** ** video.c *)

(** The drivers a function pointer of the table leads to. *)
Inductive video_fn := NoFn | VesaFn (d : vesa_ctrl) | VgaFn (v : vga_info).

Record video_driver := VideoDriver {
  draw_pixel_fn : video_fn; draw_char_fn : video_fn; draw_rect_fn : video_fn; draw_line_fn : video_fn; clear_fn : video_fn;
  clear_cell_fn : video_fn; update_cursor_fn : video_fn; vga_to_full_fn : video_fn;
  screen_width : Z; screen_height : Z; screen_bpp : Z; screen_fb : Z
}.

Definition hook_vesa_to_video (d : vesa_ctrl) : video_driver :=
  VideoDriver (VesaFn d) (VesaFn d) NoFn NoFn (VesaFn d) (VesaFn d) NoFn (VesaFn d) (s_width d) (s_height d) (bpp d) (physicalLFB d).
Definition hook_vga_to_video (v : vga_info) : video_driver :=
  VideoDriver NoFn (VgaFn v) NoFn NoFn (VgaFn v) NoFn NoFn (VgaFn v) (vga_width v) (vga_height v) (vga_bpc v) (vga_fb v).

Definition VIDEO_MODE_TERM : Z := 0.
Definition VIDEO_MODE_VESA : Z := 1.

(** The mode and the driver table. *)
Record vidst := VidSt { g_video_mode : Z; g_video_driver : video_driver }.

Definition set_video_mode (vga : vga_info) (vesa : vesa_ctrl) (mode : Z) : M vidst Z :=
  _ ← modify (λ s, VidSt (u32 mode) (if mode =? VIDEO_MODE_TERM then hook_vga_to_video vga
                                     else if mode =? VIDEO_MODE_VESA then hook_vesa_to_video vesa else g_video_driver s));
  mret 0.

Definition get_video_mode : M vidst Z := get g_video_mode.

Definition init_video (vga : vga_info) (vesa : vesa_ctrl) (video_mode : Z) : M vidst Z :=
  _ ← set_video_mode vga vesa video_mode; mret 0.

Section video.
Variable g_driver : video_driver.

(** Calling through a null pointer is undefined. *)
Definition video_vga_to_rgb {S : Type} (vga_color : Z) : M S Z :=
  match vga_to_full_fn g_driver with
  | VesaFn _ => vesa_vga_to_full vga_color
  | VgaFn _ => mret (vga_to_full vga_color)
  | NoFn => fault
  end.

Definition video_get_screen_width : Z := s32 (screen_width g_driver).
Definition video_get_screen_height : Z := s32 (screen_height g_driver).
Definition video_get_screen_bpp : Z := s32 (screen_bpp g_driver).
Definition video_get_screen_fb : Z := s32 (screen_fb g_driver).

Definition video_draw_char (c x y frontgroundcolor backgroundcolor : Z) : M bmem unit :=
  match draw_char_fn g_driver with
  | NoFn => mret tt
  | VesaFn d => vesa_draw_char d c x y frontgroundcolor backgroundcolor
  | VgaFn v => vga_draw_char v c x y frontgroundcolor backgroundcolor
  end.

Definition video_clear_screen : M bmem unit :=
  match clear_fn g_driver with
  | NoFn => mret tt
  | VesaFn d => _ ← vesa_clear_screen_ d; mret tt
  | VgaFn v => vga_clear_screen v
  end.

Definition video_clear_cell (x y : Z) : M bmem unit :=
  match clear_cell_fn g_driver with
  | VesaFn d => vesa_clear_cell x y
  | _ => mret tt
  end.
End video.

(** ** The glyphs *)

(** Row [l] of a character's bitmap. *)
Definition glyph_row (c l : Z) : Z :=
  default 0 (d ← MonospaceFont_16_data !! Z.to_nat (c - 32); MonospaceFont_16_bitmap !! Z.to_nat (d.2 + l)).
Definition glyph_width (c : Z) : Z := default 0 (fst <$> MonospaceFont_16_data !! Z.to_nat (c - 32)).

(** What holds of one character's entry, as a test. *)
Definition glyph_fits (c : Z) : bool :=
  match MonospaceFont_16_data !! Z.to_nat (c - 32) with
  | None => false
  | Some (w, i) =>
    (1 <=? w) && (w <=? 9) && (0 <=? i) && (i + 16 <=? Z.of_nat (length MonospaceFont_16_bitmap)) &&
    ((8 <? w) || forallb (λ l, Z.land (glyph_row c l) (Z.ones (8 - w)) =? 0) (seqZ 0 16))
  end.

Lemma glyphs_fit c : 32 ≤ c ≤ 127 → glyph_fits c = true.
Proof.
  intros Hc. assert (Hall : forallb (λ k, glyph_fits (k + 32)) (seqZ 0 96) = true) by (vm_compute; reflexivity).
  pose proof (bytes_all _ _ (c - 32) Hall ltac:(lia)) as H. cbv beta in H. by replace (c - 32 + 32) with c in H by lia.
Qed.

(** The accessors on a printable character. *)
Lemma font_ok {S} c (s : S) : 32 ≤ c ≤ 127 → ∃ w i, MonospaceFont_16_data !! Z.to_nat (c - 32) = Some (w, i) ∧ 1 ≤ w ≤ 9 ∧ 0 ≤ i ∧
  i + 16 ≤ Z.of_nat (length MonospaceFont_16_bitmap) ∧ font_getchar c s = Ok (Some i, s) ∧ font_getchar_width c s = Ok (w, s).
Proof.
  intros Hc. pose proof (glyphs_fit c Hc) as Hf. unfold glyph_fits in Hf.
  destruct (MonospaceFont_16_data !! Z.to_nat (c - 32)) as [[w i]|] eqn:E; [|done].
  apply andb_prop in Hf as [[[[H1%Z.leb_le H2%Z.leb_le]%andb_prop H3%Z.leb_le]%andb_prop H4%Z.leb_le]%andb_prop _].
  assert (Hd : getdata (s8 (u8 c)) s = Ok ((w, i), s)).
  { unfold getdata, s8. rewrite u8_small by lia. destruct (Z.ltb_spec c 128); [|lia]. destruct (Z.leb_spec 0 (c - 32)); [|lia]. by rewrite E. }
  exists w, i. split_and!; try done.
  - unfold font_getchar. rewrite u8_small by lia. destruct (Z.ltb_spec c 32), (Z.ltb_spec 128 c); try lia. cbn [orb].
    unfold font_getchar_index. rewrite (bind_ok _ _ s i s); [done|]. by rewrite (bind_ok _ _ _ _ _ Hd).
  - unfold font_getchar_width. by rewrite (bind_ok _ _ _ _ _ Hd).
Qed.

Lemma font_row_ok {S} c w i l (s : S) : MonospaceFont_16_data !! Z.to_nat (c - 32) = Some (w, i) → 0 ≤ i →
  i + 16 ≤ Z.of_nat (length MonospaceFont_16_bitmap) → 0 ≤ l < 16 → font_row i l s = Ok (glyph_row c l, s).
Proof.
  intros E Hi Hl Hr. unfold font_row, glyph_row. rewrite E. cbn [mbind option_bind snd].
  destruct (lookup_lt_is_Some_2 MonospaceFont_16_bitmap (Z.to_nat (i + l))) as [x Hx]; [lia|]. by rewrite Hx.
Qed.

(** C39: The font table.  Every character from the space to 127 has a width and sixteen rows inside the bitmap, and when it is at most eight
    pixels wide its ink lies in the leftmost bits its width counts.  Control characters and those above 128 have
    no glyph; for 128 itself, which passes the test, the table is read out of bounds. *)
Theorem font_in_bounds {S} (s : S) c :
  (32 ≤ c ≤ 127 → ∃ w i, font_getchar c s = Ok (Some i, s) ∧ font_getchar_width c s = Ok (w, s) ∧ 1 ≤ w ≤ 9 ∧
     ∀ l, 0 ≤ l < 16 → ∃ row, font_row i l s = Ok (row, s) ∧ (w ≤ 8 → ∀ b, 0 ≤ b < 8 - w → Z.testbit row b = false)) ∧
  (0 ≤ c < 32 ∨ 128 < c < 256 → font_getchar c s = Ok (None, s)) ∧
  font_getchar 128 s = Fault.
Proof.
  split_and!.
  - intros Hc. destruct (font_ok c s Hc) as (w & i & E & Hw & Hi & Hl & Hg & Hgw). exists w, i. split_and!; try done; try lia.
    intros l Hll. exists (glyph_row c l). split; [by eapply font_row_ok|]. intros Hw8 b Hb.
    pose proof (glyphs_fit c Hc) as Hf. unfold glyph_fits in Hf. rewrite E in Hf. apply andb_prop in Hf as [_ Hf].
    destruct (Z.ltb_spec 8 w); [lia|]. cbn [orb] in Hf. rewrite forallb_forall in Hf.
    specialize (Hf l ltac:(apply list_elem_of_In, elem_of_seqZ; lia)). apply Z.eqb_eq in Hf.
    assert (Hb0 : Z.testbit (Z.land (glyph_row c l) (Z.ones (8 - w))) b = false) by by rewrite Hf, Z.bits_0.
    rewrite Z.land_spec, Z.ones_spec_low, andb_true_r in Hb0 by lia. done.
  - intros Hc. unfold font_getchar. rewrite u8_small by lia. by destruct (Z.ltb_spec c 32), (Z.ltb_spec 128 c); try lia.
  - reflexivity.
Qed.

Lemma font_in_bounds_witness :
  (32 ≤ 87 ≤ 127 → ∃ w i, font_getchar 87 tt = Ok (Some i, tt) ∧ font_getchar_width 87 tt = Ok (w, tt) ∧ 1 ≤ w ≤ 9 ∧
     ∀ l, 0 ≤ l < 16 → ∃ row, font_row i l tt = Ok (row, tt) ∧ (w ≤ 8 → ∀ b, 0 ≤ b < 8 - w → Z.testbit row b = false)) ∧
  (0 ≤ 87 < 32 ∨ 128 < 87 < 256 → font_getchar 87 tt = Ok (None, tt)) ∧
  font_getchar 128 tt = Fault.
Proof. apply (font_in_bounds tt 87). Defined.

(** The one glyph that is wider has two bytes per row, of which every other one is drawn as a row of its own. *)
Lemma wide_glyph : glyph_width 87 = 9 ∧ ∀ l, 0 ≤ l < 8 → glyph_row 87 (2 * l + 1) = 0.
Proof.
  split; [by vm_compute|]. intros l Hl.
  assert (Hall : forallb (λ l, glyph_row 87 (2 * l + 1) =? 0) (seqZ 0 8) = true) by (vm_compute; reflexivity).
  apply Z.eqb_eq. exact (bytes_all _ _ _ Hall Hl).
Qed.

(** ** Drawing *)

Definition paint (lfb : Z) (m : bmem) (ps : list (Z * Z)) : bmem := foldl (λ m p, write_at m (lfb + 4 * p.1) (bytes32 (u32 p.2))) m ps.

Lemma paint_app lfb m ps qs : paint lfb m (ps ++ qs) = paint lfb (paint lfb m ps) qs.
Proof. apply foldl_app. Qed.

Lemma paint_out lfb m ps q : (∀ k c, (k, c) ∈ ps → ¬ lfb + 4 * k ≤ q < lfb + 4 * k + 4) → paint lfb m ps !! q = m !! q.
Proof.
  induction ps as [|[k c] ps IH] using rev_ind; intros Hq; [done|]. rewrite paint_app. cbn [paint foldl fst snd].
  rewrite write_at_out. { apply IH. intros k' c' Hk. apply (Hq k' c'), elem_of_app. by left. }
  simpl. apply (Hq k c), elem_of_app. right. left.
Qed.

(** A pixel that is only painted in one color has it in the end. *)
Lemma paint_in lfb m ps k c : (k, c) ∈ ps → (∀ c', (k, c') ∈ ps → c' = c) → bytes_at (paint lfb m ps) (lfb + 4 * k) (bytes32 (u32 c)).
Proof.
  induction ps as [|[k0 c0] ps IH] using rev_ind; intros Hin Hc; [by apply elem_of_nil in Hin|]. rewrite paint_app. cbn [paint foldl fst snd].
  destruct (decide (k0 = k)) as [->|Hne].
  - rewrite (Hc c0) by (apply elem_of_app; right; left). apply write_at_in.
  - eapply bytes_at_frame; [|apply IH].
    + intros q Hq. apply write_at_out. simpl in *. lia.
    + apply elem_of_app in Hin as [Hin|Hin]; [done|]. apply list_elem_of_singleton in Hin. congruence.
    + intros c' Hc'. apply Hc, elem_of_app. by left.
Qed.

Lemma mapped_paint lfb m ps q n : mapped m q n → mapped (paint lfb m ps) q n.
Proof. revert m. induction ps as [|p ps IH]; intros m Hm; [done|]. apply IH, mapped_write, Hm. Qed.

Section glyph.
Variables (d : vesa_ctrl) (c x y fg bg : Z).

(** Where column [b], counted from the right, of row [l] is drawn. *)
Definition place (l b : Z) : Z := (y + l) * s_width d + (x + (FONTWIDTH - b) + (FONTWIDTH - glyph_width c) / 2).

Definition dot (l b : Z) : list (Z * Z) :=
  if Z.testbit (glyph_row c l) b then [(place l b, fg)] else if bg =? -1 then [] else [(place l b, bg)].

Definition dots : list (Z * Z) := flat_map (λ l, flat_map (dot l) (seqZ 0 10)) (seqZ 0 16).

Lemma in_dots k col : (k, col) ∈ dots ↔ ∃ l b, 0 ≤ l < 16 ∧ 0 ≤ b < 10 ∧ (k, col) ∈ dot l b.
Proof.
  unfold dots. rewrite list_elem_of_In, in_flat_map. split.
  - intros (l & Hl & Hx). apply in_flat_map in Hx as (b & Hb & Hx). rewrite <- list_elem_of_In, elem_of_seqZ in Hl, Hb.
    exists l, b. split; [lia|]. split; [lia|]. by apply list_elem_of_In.
  - intros (l & b & Hl & Hb & Hx). exists l. rewrite in_flat_map, <- list_elem_of_In, elem_of_seqZ. split; [lia|].
    exists b. rewrite <- list_elem_of_In, elem_of_seqZ, <- list_elem_of_In. split; [lia|done].
Qed.

Lemma getbit_bit n b : 0 ≤ b < 31 → getbit n b =? 0 = negb (Z.testbit n b).
Proof.
  intros Hb. unfold getbit. rewrite Z.shiftl_1_l.
  assert (E : Z.land n (2 ^ b) = Z.b2z (Z.testbit n b) * 2 ^ b).
  { apply Z.bits_inj'. intros k Hk. rewrite Z.land_spec, Z.pow2_bits_eqb by lia.
    destruct (Z.testbit n b) eqn:Et; simpl Z.b2z; rewrite ?Z.mul_1_l, ?Z.mul_0_l, ?Z.bits_0, ?Z.pow2_bits_eqb by lia;
      destruct (Z.eqb_spec b k) as [->|]; rewrite ?andb_true_r, ?andb_false_r; done. }
  assert (0 < 2 ^ b < 2147483648) by (split; [lia|]; change 2147483648 with (2 ^ 31); apply Z.pow_lt_mono_r; lia).
  rewrite E. destruct (Z.testbit n b); simpl Z.b2z; rewrite ?Z.mul_1_l, ?Z.mul_0_l, s32_small by lia; rewrite Z.shiftr_div_pow2 by lia.
  - rewrite Z.div_same by lia. done.
  - by rewrite Z.div_0_l by lia.
Qed.

Hypothesis printable : 32 ≤ c ≤ 127.
Hypothesis on_screen : ∀ l b, 0 ≤ l < 16 → 0 ≤ b < 10 → 0 ≤ place l b < 4294967296.

Lemma draw_dot m l b w i : MonospaceFont_16_data !! Z.to_nat (c - 32) = Some (w, i) → 0 ≤ l < 16 → 0 ≤ b < 10 →
  mapped m (physicalLFB d + 4 * place l b) 4 →
  wp (w ← font_getchar_width c;
      let indent := (FONTWIDTH - w) / 2 in
      row ← font_row i l;
      if negb (getbit row b =? 0) then vesa_draw_pixel d (x + (FONTWIDTH - b) + indent) (y + l) fg
      else if negb (bg =? -1) then vesa_draw_pixel d (x + (FONTWIDTH - b) + indent) (y + l) bg
      else mret tt) (λ _ m', m' = paint (physicalLFB d) m (dot l b)) m.
Proof.
  intros E Hl Hb Hm. destruct (font_ok c m printable) as (w' & i' & E' & Hw & Hi & Hlen & _ & Hgw). rewrite E in E'. injection E' as <- <-.
  apply wp_bind. eapply run_wp; [exact Hgw|]. cbv zeta. apply wp_bind. eapply run_wp; [by eapply font_row_ok|].
  rewrite getbit_bit, negb_involutive by lia.
  assert (Hp : ∀ col, vesa_draw_pixel d (x + (FONTWIDTH - b) + (FONTWIDTH - w) / 2) (y + l) col m = Ok (tt, paint (physicalLFB d) m [(place l b, col)])).
  { intros col. unfold vesa_draw_pixel, vesa_draw_pixel_at_offset.
    assert (Epl : (y + l) * s_width d + (x + (FONTWIDTH - b) + (FONTWIDTH - w) / 2) = place l b) by (unfold place, glyph_width; by rewrite E).
    rewrite Epl, !(u32_small (place l b)) by (try apply on_screen; try done; by rewrite u32_small by (by apply on_screen); apply on_screen).
    rewrite store32_run by done. done. }
  unfold dot. destruct (Z.testbit (glyph_row c l) b); [by eapply run_wp; [apply Hp|]|].
  destruct (Z.eqb_spec bg (-1)); cbn [negb]; [by apply wp_ret|]. by eapply run_wp; [apply Hp|].
Qed.

Lemma seqZ_snoc (i : Z) : 0 ≤ i → seqZ 0 (i + 1) = seqZ 0 i ++ [i].
Proof. intros Hi. rewrite <- (Z2Nat.id i) by done. replace (Z.of_nat (Z.to_nat i) + 1) with (Z.of_nat (S (Z.to_nat i))) by lia. by rewrite seqZ_S. Qed.

(** A loop that paints what [g] says for each number. *)
Lemma for_up_paints (g : Z → list (Z * Z)) body (n : nat) m :
  (∀ j m', 0 ≤ j < Z.of_nat n → (∃ ps, m' = paint (physicalLFB d) m ps) → wp (body j) (λ _ m'', m'' = paint (physicalLFB d) m' (g j)) m') →
  wp (for_up n 0 body) (λ _ m', m' = paint (physicalLFB d) m (flat_map g (seqZ 0 (Z.of_nat n)))) m.
Proof.
  intros Hb. apply (wp_for_up (λ i m', m' = paint (physicalLFB d) m (flat_map g (seqZ 0 i)))); [done| |].
  - intros j m' Hj ->. eapply wp_mono; [apply Hb; [lia|by eexists]|]. intros [] m'' ->.
    rewrite seqZ_snoc, flat_map_app, <- paint_app by lia. simpl. by rewrite app_nil_r.
  - intros m' ->. by rewrite Z.add_0_l.
Qed.

Lemma draw_char_run m : (∀ l b, 0 ≤ l < 16 → 0 ≤ b < 10 → mapped m (physicalLFB d + 4 * place l b) 4) →
  vesa_draw_char d c x y fg bg m = Ok (tt, paint (physicalLFB d) m dots).
Proof.
  intros Hm. destruct (font_ok c m printable) as (w & i & E & _ & _ & _ & Hg & _). unfold vesa_draw_char. rewrite (bind_ok _ _ _ _ _ Hg).
  match goal with |- ?r m = _ => assert (Hw : wp r (λ _ m', m' = paint (physicalLFB d) m dots) m) end.
  { apply (for_up_paints (λ l, flat_map (dot l) (seqZ 0 10)) _ 16). intros l m1 Hl [ps ->].
    apply (for_up_paints (dot l) _ 10). intros b m2 Hb [qs ->].
    apply draw_dot with (w := w); [done|lia|lia|]. do 2 apply mapped_paint. apply Hm; lia. }
  destruct (wp_run _ _ _ Hw) as ([] & m' & Hr & ->). exact Hr.
Qed.
End glyph.

(** C34: Drawing a character.  [vesa_draw_char] paints the ink of the glyph in the foreground color and, unless the
    background is -1, the rest of its ten by sixteen pixels in the background color, and changes
    no other pixel.  Column 0 of a bitmap is drawn ten pixels and the indentation to the right of the
    position, so a character of six or more pixels reaches into the next cell. *)
Theorem char_drawn d c x y fg bg m :
  32 ≤ c ≤ 127 → 10 ≤ s_width d →
  (∀ l b, 0 ≤ l < 16 → 0 ≤ b < 10 → 0 ≤ place d c x y l b < 4294967296 ∧ mapped m (physicalLFB d + 4 * place d c x y l b) 4) →
  ∃ m', vesa_draw_char d c x y fg bg m = Ok (tt, m') ∧
    (∀ l b, 0 ≤ l < 16 → 0 ≤ b < 10 →
       if Z.testbit (glyph_row c l) b then bytes_at m' (physicalLFB d + 4 * place d c x y l b) (bytes32 (u32 fg))
       else bg ≠ -1 → bytes_at m' (physicalLFB d + 4 * place d c x y l b) (bytes32 (u32 bg))) ∧
    (∀ q, (∀ l b, 0 ≤ l < 16 → 0 ≤ b < 10 → ¬ physicalLFB d + 4 * place d c x y l b ≤ q < physicalLFB d + 4 * place d c x y l b + 4) →
       m' !! q = m !! q).
Proof.
  intros Hc Hw Hpl. exists (paint (physicalLFB d) m (dots d c x y fg bg)). split_and!.
  - apply draw_char_run; [done|intros; by apply Hpl..].
  - assert (Hinj : ∀ l b l' b', 0 ≤ l < 16 → 0 ≤ b < 10 → 0 ≤ l' < 16 → 0 ≤ b' < 10 → place d c x y l b = place d c x y l' b' → l = l' ∧ b = b').
    { unfold place. intros l b l' b' ???? E. assert (l = l') by nia. split; [done|]. subst. lia. }
    assert (Hcol : ∀ l b col, 0 ≤ l < 16 → 0 ≤ b < 10 → (place d c x y l b, col) ∈ dot d c x y fg bg l b →
      bytes_at (paint (physicalLFB d) m (dots d c x y fg bg)) (physicalLFB d + 4 * place d c x y l b) (bytes32 (u32 col))).
    { intros l b col Hl Hb Hd. apply paint_in; [apply in_dots; by exists l, b|]. intros c' (l' & b' & Hl' & Hb' & Hd')%in_dots.
      assert (Hk : place d c x y l' b' = place d c x y l b).
      { unfold dot in Hd'. repeat case_match; [..|]; try (by apply elem_of_nil in Hd'); apply list_elem_of_singleton in Hd'; congruence. }
      apply Hinj in Hk as [-> ->]; [|done..]. unfold dot in Hd, Hd'.
      repeat case_match; [..|]; try (by apply elem_of_nil in Hd'); apply list_elem_of_singleton in Hd, Hd'; congruence. }
    intros l b Hl Hb. destruct (Z.testbit (glyph_row c l) b) eqn:Et; [|intros Hbg]; apply Hcol; try done; unfold dot; rewrite Et.
    + by apply list_elem_of_singleton.
    + destruct (Z.eqb_spec bg (-1)); [done|]. by apply list_elem_of_singleton.
  - intros q Hq. apply paint_out. intros k col (l & b & Hl & Hb & Hd)%in_dots.
    assert (k = place d c x y l b) as ->.
    { unfold dot in Hd. repeat case_match; [..|]; try (by apply elem_of_nil in Hd); apply list_elem_of_singleton in Hd; congruence. }
    by apply Hq.
Qed.

(** The text mode loses the background.  [vga_draw_char] writes the character and an attribute that only holds the four bits of
    the foreground color, whatever the background. *)
Theorem vga_background_lost v c x y fg bg m :
  let cell := (y * vga_width v + x) * vga_bpc v in
  0 ≤ cell < 4294967295 → mapped m (vga_fb v + cell) 2 →
  vga_draw_char v c x y fg bg m = Ok (tt, write_at m (vga_fb v + cell) [u8 c; fg mod 16]).
Proof.
  intros cell Hcell Hm. unfold vga_draw_char. fold cell. rewrite !(u32_small cell), (u32_small (cell + 1)) by lia.
  assert (Hbg : s8 (u8 (Z.shiftl bg 8)) = 0).
  { unfold s8, u8. rewrite Z.shiftl_mul_pow2 by lia. change (2 ^ 8) with 256. by rewrite Z_mod_mult. }
  rewrite Hbg, Z.lor_0_l, (land_ones_mod fg 4) by done. change (2 ^ 4) with 16.
  rewrite (bind_ok _ _ _ _ _ (run_store8 m (vga_fb v + cell) c ltac:(apply Hm; lia))).
  rewrite run_store8 by (apply lookup_insert_is_Some'; right; apply Hm; lia).
  rewrite (u8_small (fg mod 16)) by (pose proof (Z.mod_pos_bound fg 16); lia). rewrite <- !write_at_cons. by rewrite Z.add_assoc.
Qed.

(** ** A small screen *)

Definition demo_screen : vesa_ctrl := VesaCtrl 4096 40 17 4.
Definition demo_fb : bmem := write_at ∅ 4096 (replicate 2720 0).

Lemma demo_fb_mapped : mapped demo_fb 4096 2720.
Proof. apply (bytes_at_mapped _ _ (replicate 2720 0) (write_at_in _ _ _)). Qed.

Lemma char_drawn_witness :
  ∃ m', vesa_draw_char demo_screen 65 0 0 255 (-1) demo_fb = Ok (tt, m') ∧
    (∀ l b, 0 ≤ l < 16 → 0 ≤ b < 10 →
       if Z.testbit (glyph_row 65 l) b then bytes_at m' (4096 + 4 * place demo_screen 65 0 0 l b) (bytes32 (u32 255))
       else -1 ≠ -1 → bytes_at m' (4096 + 4 * place demo_screen 65 0 0 l b) (bytes32 (u32 (-1)))) ∧
    (∀ q, (∀ l b, 0 ≤ l < 16 → 0 ≤ b < 10 → ¬ 4096 + 4 * place demo_screen 65 0 0 l b ≤ q < 4096 + 4 * place demo_screen 65 0 0 l b + 4) →
       m' !! q = demo_fb !! q).
Proof.
  apply (char_drawn demo_screen 65 0 0 255 (-1) demo_fb); [lia|simpl; lia|]. intros l b Hl Hb. unfold place, FONTWIDTH.
  assert (Ew : (10 - glyph_width 65) / 2 = 1) by (vm_compute; reflexivity). rewrite Ew. cbn [s_width physicalLFB demo_screen].
  split; [lia|]. intros q Hq. apply demo_fb_mapped. lia.
Defined.

Lemma vga_background_lost_witness :
  vga_draw_char (VgaInfo 80 25 2 4096) 65 3 2 7 4 demo_fb = Ok (tt, write_at demo_fb (4096 + (2 * 80 + 3) * 2) [u8 65; 7 mod 16]).
Proof.
  apply (vga_background_lost (VgaInfo 80 25 2 4096) 65 3 2 7 4 demo_fb); [simpl; lia|]. intros q Hq. apply demo_fb_mapped. simpl in Hq. lia.
Defined.
