(* ===== verification/Format.v ===== *)
(** * Formatted text

    The loops that print numbers, which kernel/yanix/functions/kernelio.c and
    kernel/yanix/functions/debug.c share, over any way to put out a character, and the
    text that a format stands for. *)
From S2P Require Import Prelude LibK.

Section numbers.
Context {St : Type} (put : Z → M St unit).

(** A 32-bit number has at most 10 digits. *)
Definition DIGIT_FUEL : nat := 33.

(** The loop that reverses a number in base [base]; [wrap] is the arithmetic of the
    type of reversed_int. *)
Definition reverse_digits (wrap : Z → Z) (base n : Z) : M St (Z * Z) :=
  loop DIGIT_FUEL (λ '(tmp_int, reversed_int, zeros_before),
    if 0 <? tmp_int then
      let reversed_int := wrap (wrap (reversed_int * base) + tmp_int mod base) in
      let zeros_before := if (reversed_int =? 0) && (tmp_int mod base =? 0) then zeros_before + 1 else zeros_before in
      mret (inl (tmp_int / base, reversed_int, zeros_before))
    else mret (inr (reversed_int, zeros_before))) (n, 0, 0).

(** The character of a digit; in base 10 it is always a figure. *)
Definition digit_char (d : Z) : Z := if 10 <=? d then 65 + (d - 10) else 48 + d.

Definition print_reversed (base reversed_int : Z) : M St unit :=
  loop DIGIT_FUEL (λ reversed_int,
    if 0 <? reversed_int then
      _ ← put (digit_char (reversed_int mod base));
      mret (inl (reversed_int / base))
    else mret (inr tt)) reversed_int.

Definition print_zeros (n : Z) : M St unit :=
  loop (S (Z.to_nat n)) (λ i,
    if i <? n then _ ← put 48; mret (inl (i + 1)) else mret (inr tt)) 0.

(** The digits of a number, in the order they are read. *)
Definition print_number (wrap : Z → Z) (base n : Z) : M St unit :=
  '(reversed_int, zeros_before) ← reverse_digits wrap base n;
  _ ← (if reversed_int =? 0 then put 48 else mret tt);
  _ ← print_reversed base reversed_int;
  print_zeros zeros_before.

(** %i: the sign is written between the two loops. *)
Definition print_int (tmp_int : Z) : M St unit :=
  let isneg := tmp_int <? 0 in
  '(reversed_int, zeros_before) ← reverse_digits s32 10 (if isneg then s32 (- tmp_int) else tmp_int);
  _ ← (if isneg then put 45 else mret tt);
  _ ← (if reversed_int =? 0 then put 48 else mret tt);
  _ ← print_reversed 10 reversed_int;
  print_zeros zeros_before.

(** The number of hexadecimal digits, 0 for 0. *)
Definition hex_size (n : Z) : M St Z :=
  loop DIGIT_FUEL (λ '(tmp, intsize),
    if tmp =? 0 then mret (inr intsize) else mret (inl (tmp / 16, intsize + 1))) (n, 0).

(** A hexadecimal number of [wanted_bits] digits at least. *)
Definition print_padded (wanted_bits tmp_int : Z) : M St unit :=
  intsize ← hex_size tmp_int;
  '(reversed_int, zeros_before) ← reverse_digits u32 16 tmp_int;
  _ ← print_zeros (wanted_bits - intsize);
  _ ← print_reversed 16 reversed_int;
  print_zeros zeros_before.
End numbers.

(** ** Digits *)

(** The digits of [n], the lowest first. *)
Fixpoint low_digits (f : nat) (base n : Z) : list Z :=
  match f with
  | O => []
  | S f => if 0 <? n then n mod base :: low_digits f base (n / base) else []
  end.

(** The number that digits stand for, the highest first. *)
Definition value_of (base acc : Z) (ds : list Z) : Z := foldl (λ a d, a * base + d) acc ds.

(** A number as it is read. *)
Definition show_number (base n : Z) : list Z :=
  if n =? 0 then [48] else digit_char <$> lrev (low_digits 32 base n).

Fixpoint lead0 (ds : list Z) : nat :=
  match ds with d :: ds => if d =? 0 then S (lead0 ds) else O | [] => O end.

Lemma value_snoc base acc ds d : value_of base acc (ds ++ [d]) = value_of base acc ds * base + d.
Proof. unfold value_of. by rewrite foldl_app. Qed.

Lemma low_digits_range f base n : 0 < base → Forall (λ d, 0 ≤ d < base) (low_digits f base n).
Proof.
  intros Hb. revert n. induction f as [|f IH]; intros n; [constructor|]. simpl. destruct (0 <? n); [|constructor].
  constructor; [by apply Z.mod_pos_bound|done].
Qed.

Lemma value_ge base acc ds : 1 ≤ base → 0 ≤ acc → Forall (λ d, 0 ≤ d < base) ds → acc ≤ value_of base acc ds.
Proof.
  intros Hb Ha Hds. revert acc Ha. induction Hds as [|d ds Hd _ IH]; intros acc Ha; [done|].
  change (value_of base acc (d :: ds)) with (value_of base (acc * base + d) ds). etransitivity; [|apply IH]; nia.
Qed.

Lemma half_pow f n base : 2 ≤ base → 0 ≤ n < 2 ^ Z.of_nat (S f) → 0 ≤ n / base < 2 ^ Z.of_nat f.
Proof.
  intros Hb Hn. rewrite Nat2Z.inj_succ, Z.pow_succ_r in Hn by lia. split; [apply Z.div_pos; lia|].
  apply Z.div_lt_upper_bound; [lia|]. pose proof (Z.pow_pos_nonneg 2 (Z.of_nat f) ltac:(lia) ltac:(lia)). nia.
Qed.

(** The reference: reading the digits gives the number back. *)
Lemma show_value f base n : 2 ≤ base → 0 ≤ n < 2 ^ Z.of_nat f → value_of base 0 (lrev (low_digits f base n)) = n.
Proof.
  intros Hb. revert n. induction f as [|f IH]; intros n Hn; [simpl in *; unfold value_of; simpl; lia|].
  simpl. destruct (Z.ltb_spec 0 n); [|unfold value_of; simpl; lia].
  rewrite reverse_cons, value_snoc, IH by (by apply half_pow). pose proof (Z.div_mod n base ltac:(lia)). lia.
Qed.

Lemma low_digits_pos f base n acc : 2 ≤ base → 0 < n < 2 ^ Z.of_nat f → 0 ≤ acc → 0 < value_of base acc (low_digits f base n).
Proof.
  intros Hb. revert n acc. induction f as [|f IH]; intros n acc Hn Ha; [simpl in Hn; lia|].
  simpl. destruct (Z.ltb_spec 0 n); [|lia].
  change (value_of base acc (?d :: ?ds)) with (value_of base (acc * base + d) ds).
  pose proof (Z.mod_pos_bound n base ltac:(lia)). pose proof (Z.div_mod n base ltac:(lia)).
  destruct (decide (n / base = 0)) as [E|E].
  - rewrite E. destruct f; simpl; unfold value_of; simpl; nia.
  - pose proof (half_pow f n base Hb ltac:(lia)). apply IH; nia.
Qed.

(** Zeros in front do not count. *)
Lemma lead0_split ds : ∃ ds', ds = replicate (lead0 ds) 0 ++ ds' ∧ head ds' ≠ Some 0.
Proof.
  induction ds as [|d ds (ds' & IH & Hh)]; [by exists []|]. simpl. destruct (Z.eqb_spec d 0) as [->|Hne].
  - exists ds'. split; [|done]. simpl. by f_equal.
  - exists (d :: ds). split; [done|]. simpl. congruence.
Qed.

Lemma value_zeros base k ds : value_of base 0 (replicate k 0 ++ ds) = value_of base 0 ds.
Proof. induction k as [|k IH]; [done|]. exact IH. Qed.

Lemma value_pos base ds : 2 ≤ base → Forall (λ d, 0 ≤ d < base) ds → ds ≠ [] → head ds ≠ Some 0 → 0 < value_of base 0 ds.
Proof.
  intros Hb Hds Hne Hh. destruct ds as [|d ds]; [done|]. apply Forall_cons in Hds as [Hd Hds].
  assert (d ≠ 0) by (intros ->; by apply Hh).
  pose proof (value_ge base d ds ltac:(lia) ltac:(lia) Hds). exact ltac:(change (0 < value_of base d ds); lia).
Qed.

Lemma low_digits_length f base n : (length (low_digits f base n) ≤ f)%nat.
Proof. revert n. induction f as [|f IH]; intros n; simpl; [lia|]. destruct (0 <? n); simpl; [|lia]. specialize (IH (n / base)). lia. Qed.

(** ** Formats *)

(** A signed number, and a hexadecimal one of [w] digits at least. *)
Definition show_int (n : Z) : list Z := if n <? 0 then 45 :: show_number 10 (- n) else show_number 10 n.

Definition show_padded (w n : Z) : list Z :=
  let ds := low_digits 32 16 n in
  replicate (Z.to_nat (w - Z.of_nat (length ds))) 48 ++ (digit_char <$> lrev ds).

(** The pieces of a format, each with its argument: a character that stands for itself,
    %%, %c, %s (the string [t] at [p]), %.<ds>s, %i, %u, %x and %<d1><d2>x. *)
Inductive piece :=
| Lit (b : Z)
| Percent
| Char (b : Z)
| Str (p : Z) (t : list Z)
| Cut (ds : list Z) (p : Z) (t : list Z)
| Int (n : Z)
| Unsigned (n : Z)
| Hex (n : Z)
| Padded (d1 d2 n : Z).

Definition fmt_of (x : piece) : list Z :=
  match x with
  | Lit b => [b]
  | Percent => [37; 37]
  | Char _ => [37; 99]
  | Str _ _ => [37; 115]
  | Cut ds _ _ => [37; 46] ++ ds ++ [115]
  | Int _ => [37; 105]
  | Unsigned _ => [37; 117]
  | Hex _ => [37; 120]
  | Padded d1 d2 _ => [37; d1; d2; 120]
  end.

Definition args_of (x : piece) : list Z :=
  match x with
  | Lit _ | Percent => []
  | Char b => [b]
  | Str p _ | Cut _ p _ => [p]
  | Int n | Unsigned n | Hex n | Padded _ _ n => [u32 n]
  end.

(** What it looks like. *)
Definition render (x : piece) : list Z :=
  match x with
  | Lit b | Char b => [b]
  | Percent => [37]
  | Str _ t | Cut _ _ t => t
  | Int n => show_int n
  | Unsigned n => show_number 10 n
  | Hex n => show_number 16 n
  | Padded d1 d2 n => show_padded ((d1 - 48) * 10 + d2 - 48) n
  end.

(** The characters [printk] counts: numbers are left out. *)
Definition counted (x : piece) : Z :=
  match x with
  | Lit _ | Percent | Char _ => 1
  | Str _ t | Cut _ _ t => Z.of_nat (length t)
  | _ => 0
  end.

Definition format (ps : list piece) : list Z := concat (fmt_of <$> ps).
Definition arguments (ps : list piece) : list Z := concat (args_of <$> ps).
Definition rendered (ps : list piece) : list Z := concat (render <$> ps).
Definition count (ps : list piece) : Z := foldr (λ x n, counted x + n) 0 ps.

Lemma counted_nonneg x : 0 ≤ counted x.
Proof. destruct x; simpl; lia. Qed.

Lemma count_nonneg ps : 0 ≤ count ps.
Proof. induction ps as [|x ps IH]; [done|]. pose proof (counted_nonneg x). change (0 ≤ counted x + count ps). lia. Qed.

Lemma format_length ps : (length ps ≤ length (format ps))%nat.
Proof.
  induction ps as [|x ps IH]; [done|]. change (format (x :: ps)) with (fmt_of x ++ format ps). rewrite length_app.
  assert (1 ≤ length (fmt_of x))%nat by (destruct x; simpl; lia). simpl. lia.
Qed.

(** ** Output *)

Section outputs.
Context {St : Type} (W : list Z → St → Prop).

(** [c] returns [a] and writes [t]. *)
Definition outputs {A} (c : M St A) (a : A) (t : list Z) : Prop :=
  ∀ text s, W text s → ∃ s', c s = Ok (a, s') ∧ W (text ++ t) s'.

Lemma emits_ret {A} (a : A) : outputs (mret a) a [].
Proof. intros text s Hw. exists s. by rewrite app_nil_r. Qed.

Lemma emits_bind {A B} (c : M St A) (f : A → M St B) a b t u :
  outputs c a t → outputs (f a) b u → outputs (c ≫= f) b (t ++ u).
Proof.
  intros Hc Hf text s Hw. destruct (Hc text s Hw) as (s1 & H1 & Hw1). destruct (Hf _ _ Hw1) as (s2 & H2 & Hw2).
  exists s2. rewrite (bind_ok _ _ _ _ _ H1). by rewrite app_assoc.
Qed.

(** A command that writes nothing, and one in tail position. *)
Lemma emits_then {A B} (c : M St A) (f : A → M St B) a b u :
  outputs c a [] → outputs (f a) b u → outputs (c ≫= f) b u.
Proof. apply emits_bind. Qed.

Lemma emits_last {A B} (c : M St A) (f : A → M St B) a b t :
  outputs c a t → outputs (f a) b [] → outputs (c ≫= f) b t.
Proof. intros Hc Hf. rewrite <- (app_nil_r t). by eapply emits_bind. Qed.

Lemma emits_next {A R} n (body : A → M St (A + R)) a a' r t u :
  outputs (body a) (inl a') t → outputs (loop n body a') r u → outputs (loop (S n) body a) r (t ++ u).
Proof. intros Hb Hl. cbn [loop]. eapply emits_bind; [exact Hb|done]. Qed.

Lemma emits_done {A R} n (body : A → M St (A + R)) a r : outputs (body a) (inr r) [] → outputs (loop (S n) body a) r [].
Proof. intros Hb. cbn [loop]. eapply emits_then; [exact Hb|apply emits_ret]. Qed.
End outputs.

(** [put] writes every character it accepts, and it accepts the printable ones. *)
Class Sink {St : Type} (W : list Z → St → Prop) (accepts : Z → Prop) (put : Z → M St unit) : Prop := {
  sink_put : ∀ b, accepts b → outputs W (put b) tt [b];
  sink_ascii : ∀ b, 32 ≤ b < 128 → accepts b
}.

Section sink.
Context {St : Type} {W : list Z → St → Prop} {accepts : Z → Prop} {put : Z → M St unit} `{!Sink W accepts put}.

Lemma digit_accepted d : 0 ≤ d < 16 → accepts (digit_char d).
Proof. intros Hd. apply (sink_ascii (put := put)). unfold digit_char. destruct (Z.leb_spec 10 d); lia. Qed.

(** *** Numbers *)

Lemma emits_zeros n : outputs W (print_zeros put n) tt (replicate (Z.to_nat n) 48).
Proof.
  unfold print_zeros.
  assert (Hgen : ∀ f i, n - i ≤ Z.of_nat f → outputs W (loop (S f) (λ i,
    if i <? n then _ ← put 48; mret (inl (i + 1)) else mret (inr tt)) i) tt (replicate (Z.to_nat (n - i)) 48)).
  { induction f as [|f IH]; intros i Hi; destruct (Z.ltb_spec i n) as [Hlt|Hge]; [lia| | |].
    2: { replace (Z.to_nat (n - i)) with (S (Z.to_nat (n - (i + 1)))) by lia. change (replicate (S ?k) 48) with ([48] ++ replicate k 48).
         eapply emits_next; [|apply IH; lia]. destruct (Z.ltb_spec i n); [|lia].
         eapply emits_last; [apply sink_put, (sink_ascii (accepts := accepts)); lia|apply emits_ret]. }
    all: replace (Z.to_nat (n - i)) with O by lia; apply emits_done;
      destruct (Z.ltb_spec i n); [lia|]; apply emits_ret. }
  pose proof (Hgen (Z.to_nat n) 0 ltac:(lia)) as H0. by rewrite Z.sub_0_r in H0.
Qed.

Lemma emits_reverse wrap base B f : ∀ n acc z,
  (∀ x, 0 ≤ x < B → wrap x = x) → 2 ≤ base → 0 ≤ n < 2 ^ Z.of_nat f → 0 ≤ acc →
  value_of base acc (low_digits f base n) < B →
  outputs W (loop (S f) (λ '(tmp_int, reversed_int, zeros_before),
    if 0 <? tmp_int then
      let reversed_int := wrap (wrap (reversed_int * base) + tmp_int mod base) in
      let zeros_before := if (reversed_int =? 0) && (tmp_int mod base =? 0) then zeros_before + 1 else zeros_before in
      mret (inl (tmp_int / base, reversed_int, zeros_before))
    else mret (inr (reversed_int, zeros_before))) (n, acc, z))
    (value_of base acc (low_digits f base n), if acc =? 0 then z + Z.of_nat (lead0 (low_digits f base n)) else z) [].
Proof.
  induction f as [|f IH]; intros n acc z Hw Hb Hn Ha HB.
  { simpl in Hn. apply emits_done. destruct (Z.ltb_spec 0 n); [lia|]. simpl. destruct (acc =? 0); rewrite ?Z.add_0_r; apply emits_ret. }
  simpl low_digits in *. destruct (Z.ltb_spec 0 n) as [Hpos|Hz].
  2: { apply emits_done. destruct (Z.ltb_spec 0 n); [lia|]. simpl. destruct (acc =? 0); rewrite ?Z.add_0_r; apply emits_ret. }
  set (d := n mod base) in *. assert (Hd : 0 ≤ d < base) by (apply Z.mod_pos_bound; lia).
  change (value_of base acc (d :: ?ds)) with (value_of base (acc * base + d) ds) in *.
  pose proof (value_ge base (acc * base + d) _ ltac:(lia) ltac:(nia) (low_digits_range f base (n / base) ltac:(lia))).
  change (@nil Z) with ([] ++ [] : list Z). eapply emits_next.
  - destruct (Z.ltb_spec 0 n); [|lia]. fold d. rewrite (Hw (acc * base)), Hw by nia. apply emits_ret.
  - cbv zeta. simpl lead0. destruct (Z.eqb_spec (acc * base + d) 0) as [E|E].
    + assert (acc = 0 ∧ d = 0) as [-> ->] by nia. cbn [Z.eqb andb].
      pose proof (IH (n / base) 0 (z + 1) Hw Hb (half_pow f n base Hb Hn) ltac:(lia) HB) as HI. cbn [Z.eqb] in HI.
      replace (z + Z.of_nat (S (lead0 (low_digits f base (n / base))))) with (z + 1 + Z.of_nat (lead0 (low_digits f base (n / base)))) by lia.
      exact HI.
    + cbn [andb]. pose proof (IH (n / base) (acc * base + d) z Hw Hb (half_pow f n base Hb Hn) ltac:(nia) HB) as HI.
      rewrite (proj2 (Z.eqb_neq _ _) E) in HI. destruct (Z.eqb_spec acc 0) as [->|]; [|exact HI].
      destruct (Z.eqb_spec d 0); [lia|]. by rewrite Z.add_0_r.
Qed.

Lemma emits_reversed base f : ∀ ds, 2 ≤ base ≤ 16 → Forall (λ d, 0 ≤ d < base) ds → head ds ≠ Some 0 → (length ds ≤ f)%nat →
  outputs W (loop (S f) (λ reversed_int,
    if 0 <? reversed_int then
      _ ← put (digit_char (reversed_int mod base)); mret (inl (reversed_int / base))
    else mret (inr tt)) (value_of base 0 ds)) tt (digit_char <$> lrev ds).
Proof.
  induction f as [|f IH]; intros ds Hb Hds Hh Hf; destruct ds as [|d ds _] using rev_ind.
  1, 3: apply emits_done, emits_ret.
  all: rewrite length_app in Hf; simpl in Hf.
  { lia. }
  pose proof (value_pos base (ds ++ [d]) ltac:(lia) Hds ltac:(by destruct ds) Hh) as Hpos. rewrite value_snoc in *.
  apply Forall_app in Hds as [Hds Hd]. apply Forall_cons in Hd as [Hd _].
  rewrite reverse_snoc. change (digit_char <$> d :: lrev ds) with ([digit_char d] ++ (digit_char <$> lrev ds)).
  eapply emits_next.
  - destruct (Z.ltb_spec 0 (value_of base 0 ds * base + d)); [|lia].
    rewrite (Z.add_comm (_ * base) d), Z.mod_add, (Z.mod_small d) by lia. rewrite Z.div_add, (Z.div_small d) by lia.
    eapply emits_last; [apply sink_put, digit_accepted; lia|apply emits_ret].
  - apply IH; try done; [|lia]. by destruct ds.
Qed.

(** The reversed number and the zeros that reversing lost. *)
Lemma emits_digits base n : 2 ≤ base ≤ 16 →
  let ds := low_digits 32 base n in
  outputs W (_ ← print_reversed put base (value_of base 0 ds); print_zeros put (Z.of_nat (lead0 ds))) tt
    (digit_char <$> lrev ds).
Proof.
  intros Hb ds. destruct (lead0_split ds) as (ds' & E & Hh).
  pose proof (low_digits_range 32 base n ltac:(lia)) as Hr. fold ds in Hr. rewrite E in Hr. apply Forall_app in Hr as [_ Hr].
  assert (Hl : (length ds' ≤ 32)%nat).
  { pose proof (low_digits_length 32 base n) as Hl. fold ds in Hl. rewrite E, length_app in Hl. lia. }
  set (z := lead0 ds) in *. rewrite E, value_zeros, reverse_app, reverse_replicate, fmap_app, fmap_replicate.
  eapply emits_bind; [by apply (emits_reversed base 32 ds')|].
  pose proof (emits_zeros (Z.of_nat z)) as Hz. by rewrite Nat2Z.id in Hz.
Qed.

(** The number fits when it is written backwards. *)
Definition reversible (base B n : Z) : Prop := 0 ≤ n < 4294967296 ∧ value_of base 0 (low_digits 32 base n) < B.

Lemma emits_tail base n : 2 ≤ base ≤ 16 → 0 ≤ n < 4294967296 →
  let ds := low_digits 32 base n in
  outputs W (_ ← (if value_of base 0 ds =? 0 then put 48 else mret tt);
         _ ← print_reversed put base (value_of base 0 ds); print_zeros put (Z.of_nat (lead0 ds))) tt
    (show_number base n).
Proof.
  intros Hb Hn ds. unfold show_number. fold ds. destruct (Z.eqb_spec n 0) as [->|Hne].
  - eapply emits_last; [apply sink_put, (sink_ascii (accepts := accepts)); lia|]. exact (emits_digits base 0 Hb).
  - pose proof (low_digits_pos 32 base n 0 ltac:(lia) ltac:(change (2 ^ Z.of_nat 32) with 4294967296; lia) ltac:(lia)) as Hp.
    fold ds in Hp. destruct (Z.eqb_spec (value_of base 0 ds) 0); [lia|]. eapply emits_then; [apply emits_ret|].
    by apply emits_digits.
Qed.

Lemma emits_reverse_digits wrap base B n :
  (∀ x, 0 ≤ x < B → wrap x = x) → 2 ≤ base → reversible base B n →
  outputs W (reverse_digits wrap base n)
    (value_of base 0 (low_digits 32 base n), Z.of_nat (lead0 (low_digits 32 base n))) [].
Proof.
  intros Hw Hb [Hn Hv]. apply (emits_reverse wrap base B 32 n 0 0); try done.
Qed.

Lemma emits_number wrap base B n :
  (∀ x, 0 ≤ x < B → wrap x = x) → 2 ≤ base ≤ 16 → reversible base B n →
  outputs W (print_number put wrap base n) tt (show_number base n).
Proof.
  intros Hw Hb Hr. unfold print_number. eapply emits_then; [apply (emits_reverse_digits wrap base B); [done|lia|done]|].
  apply emits_tail; [done|apply Hr].
Qed.

(** Eight hexadecimal digits always fit. *)
Lemma hex_reversible n : 0 ≤ n < 4294967296 → reversible 16 4294967296 n.
Proof.
  intros Hn. split; [done|]. assert (Hgen : ∀ k f n acc, 0 ≤ n < 16 ^ Z.of_nat k → 0 ≤ acc →
    value_of 16 acc (low_digits f 16 n) < (acc + 1) * 16 ^ Z.of_nat k).
  { induction k as [|k IH]; intros f x acc Hx Ha.
    - assert (x = 0) as -> by (simpl in Hx; lia). destruct f; simpl; unfold value_of; simpl; lia.
    - rewrite Nat2Z.inj_succ, Z.pow_succ_r in * by lia. pose proof (Z.pow_pos_nonneg 16 (Z.of_nat k) ltac:(lia) ltac:(lia)).
      destruct f; simpl; [unfold value_of; simpl; nia|]. destruct (Z.ltb_spec 0 x); [|unfold value_of; simpl; nia].
      change (value_of 16 acc (?d :: ?ds)) with (value_of 16 (acc * 16 + d) ds). pose proof (Z.mod_pos_bound x 16 ltac:(lia)).
      eapply Z.lt_le_trans; [apply IH|nia]; [|nia]. split; [apply Z.div_pos; lia|apply Z.div_lt_upper_bound; lia]. }
  pose proof (Hgen 8%nat 32%nat n 0 ltac:(simpl; lia) ltac:(lia)) as H8.
  change ((0 + 1) * 16 ^ Z.of_nat 8) with 4294967296 in H8. exact H8.
Qed.

Lemma emits_int n : -2147483648 < n → reversible 10 2147483648 (Z.abs n) → outputs W (print_int put n) tt (show_int n).
Proof.
  intros Hn Hr. unfold print_int, show_int. assert (Hs : ∀ x, 0 ≤ x < 2147483648 → s32 x = x) by (intros; apply s32_small; lia).
  destruct (Z.ltb_spec n 0) as [Hneg|Hpos].
  - assert (Habs : Z.abs n < 2147483648) by lia. rewrite Z.abs_neq in * by lia. rewrite s32_small by lia.
    eapply emits_then; [apply (emits_reverse_digits s32 10 2147483648); [done|lia|done]|].
    change (45 :: ?l) with ([45] ++ l). eapply emits_bind; [apply sink_put, (sink_ascii (accepts := accepts)); lia|].
    apply emits_tail; [lia|apply Hr].
  - rewrite Z.abs_eq in * by lia. eapply emits_then; [apply (emits_reverse_digits s32 10 2147483648); [done|lia|done]|].
    eapply emits_then; [apply emits_ret|]. apply emits_tail; [lia|apply Hr].
Qed.

Lemma emits_hex_size f : ∀ n k, 0 ≤ n < 2 ^ Z.of_nat f →
  outputs W (loop (S f) (λ '(tmp, intsize), if tmp =? 0 then mret (inr intsize) else mret (inl (tmp / 16, intsize + 1))) (n, k))
    (k + Z.of_nat (length (low_digits f 16 n))) [].
Proof.
  induction f as [|f IH]; intros n k Hn.
  - assert (n = 0) as -> by (simpl in Hn; lia). cbn [low_digits length]. rewrite Z.add_0_r. apply emits_done, emits_ret.
  - simpl low_digits. destruct (Z.ltb_spec 0 n).
    + change (@nil Z) with ([] ++ [] : list Z). eapply emits_next; [destruct (Z.eqb_spec n 0); [lia|apply emits_ret]|].
      pose proof (IH (n / 16) (k + 1) (half_pow f n 16 ltac:(lia) Hn)) as HI. simpl length.
      by replace (k + Z.of_nat (S (length (low_digits f 16 (n / 16))))) with (k + 1 + Z.of_nat (length (low_digits f 16 (n / 16)))) by lia.
    + assert (n = 0) as -> by lia. cbn [length]. rewrite Z.add_0_r. apply emits_done, emits_ret.
Qed.

Lemma emits_padded w n : 0 ≤ n < 4294967296 → outputs W (print_padded put w n) tt (show_padded w n).
Proof.
  intros Hn. unfold print_padded, show_padded.
  eapply emits_then; [by apply (emits_hex_size 32 n 0)|].
  eapply emits_then; [apply (emits_reverse_digits u32 16 4294967296); [intros; by apply u32_small|lia|by apply hex_reversible]|].
  eapply emits_bind; [apply emits_zeros|]. apply emits_digits. lia.
Qed.
End sink.

Lemma s32_u32 n : -2147483648 ≤ n < 2147483648 → s32 (u32 n) = n.
Proof.
  intros Hn. unfold s32. rewrite (u32_small (u32 n)) by apply u32_range. destruct (decide (0 ≤ n)).
  - rewrite u32_small by lia. destruct (Z.ltb_spec n 2147483648); lia.
  - assert (E : u32 n = n + 4294967296).
    { unfold u32. symmetry. apply (Z.mod_unique _ _ (-1)); lia. }
    rewrite E. destruct (Z.ltb_spec (n + 4294967296) 2147483648); lia.
Qed.
