(* ===== verification/Tty.v ===== *)
(** * Terminals (kernel/yanix/tty/tty_dev.c, termios.c)

    A terminal keeps its screen as pairs of a character and a color in a byte buffer,
    and a cursor; text may hold escape sequences.  What is sent to the video driver
    (drivers/video/video.c) is recorded as a list of calls, the latest first.  The
    video mode, the size of the screen and the color conversion of the driver are
    parameters, and so are the addresses [kmalloc] returns at start-up. *)
From S2P Require Import Prelude LibK.

(** ** State *)

Record tty_dev := TtyDev {
  td_buffer : Z;
  td_id : Z;
  td_c_col : Z;
  td_c_row : Z;
  td_disabled : Z
}.

Record tty_ctrl := TtyCtrl {
  tc_col_max : Z;
  tc_row_max : Z;
  tc_colorbit_size : Z;
  tc_char_size : Z;
  tc_color : Z;
  tc_default_color : Z;
  tc_bold : Z
}.

Inductive video_call :=
| DrawChar (c x y fg bg : Z)
| UpdateCursor (x y : Z)
| ClearScreen.

(** [tty_control_struct] (NULL before start-up), the array [tty_devices], and the
    tty number of the running task. *)
Record ttys := Ttys {
  tt_mem : bmem;
  tt_ctrl : option tty_ctrl;
  tt_devs : list tty_dev;
  tt_video : list video_call;
  tt_task : Z
}.

Definition TTY_DEVICE_AMOUNT : nat := 3.
Definition TTY_BLACK : Z := 0.
Definition TTY_BLUE : Z := 1.
Definition TTY_GREEN : Z := 2.
Definition TTY_CYAN : Z := 3.
Definition TTY_RED : Z := 4.
Definition TTY_PURPLE : Z := 5.
Definition TTY_ORANGE : Z := 6.
Definition TTY_GRAY : Z := 7.
Definition TTY_DARK_GRAY : Z := 8.
Definition TTY_LIGHT_BLUE : Z := 9.
Definition TTY_LIGHT_GREEN : Z := 10.
Definition TTY_LIGHT_CYAN : Z := 11.
Definition TTY_LIGHT_RED : Z := 12.
Definition TTY_PINK : Z := 13.
Definition TTY_YELLOW : Z := 14.
Definition TTY_WHITE : Z := 15.
Definition VIDEO_MODE_TERM : Z := 0.
Definition FONTWIDTH : Z := 10.
Definition FONTHEIGHT : Z := 16.

Definition NEWLINE : Z := 10.
Definition RETURN : Z := 13.
Definition TAB : Z := 9.
Definition BACKSPACE : Z := 8.
Definition ESC : Z := 27.
Definition SPACE : Z := 32.

(** ** Access *)

Definition set_tmem (m : bmem) (s : ttys) : ttys := Ttys m (tt_ctrl s) (tt_devs s) (tt_video s) (tt_task s).
Definition set_ctrl (c : tty_ctrl) (s : ttys) : ttys := Ttys (tt_mem s) (Some c) (tt_devs s) (tt_video s) (tt_task s).
Definition set_devs (ds : list tty_dev) (s : ttys) : ttys := Ttys (tt_mem s) (tt_ctrl s) ds (tt_video s) (tt_task s).
Definition set_task_tty (t : Z) (s : ttys) : ttys := Ttys (tt_mem s) (tt_ctrl s) (tt_devs s) (tt_video s) t.

Definition video (c : video_call) : M ttys unit :=
  modify (λ s, Ttys (tt_mem s) (tt_ctrl s) (tt_devs s) (c :: tt_video s) (tt_task s)).

Definition on_tmem {A} (c : M bmem A) : M ttys A := λ s,
  match c (tt_mem s) with
  | Ok (a, m) => Ok (a, set_tmem m s)
  | Fault => Fault
  | Hang => Hang
  end.

Definition tty_control : M ttys tty_ctrl := c ← get tt_ctrl; of_option c.

Definition load_dev (i : Z) : M ttys tty_dev :=
  ds ← get tt_devs; if i <? 0 then fault else of_option (ds !! Z.to_nat i).

Definition store_dev (i : Z) (d : tty_dev) : M ttys unit :=
  _ ← load_dev i; modify (λ s, set_devs (<[Z.to_nat i := d]> (tt_devs s)) s).

Definition with_cursor (col row : Z) (d : tty_dev) : tty_dev :=
  TtyDev (td_buffer d) (td_id d) col row (td_disabled d).

Definition with_disabled (v : Z) (d : tty_dev) : tty_dev :=
  TtyDev (td_buffer d) (td_id d) (td_c_col d) (td_c_row d) v.

Definition with_color (v : Z) (c : tty_ctrl) : tty_ctrl :=
  TtyCtrl (tc_col_max c) (tc_row_max c) (tc_colorbit_size c) (tc_char_size c) v (tc_default_color c) (tc_bold c).

Definition with_bold (v : Z) (c : tty_ctrl) : tty_ctrl :=
  TtyCtrl (tc_col_max c) (tc_row_max c) (tc_colorbit_size c) (tc_char_size c) (tc_color c) (tc_default_color c) v.

Section tty.
(** get_video_mode, video_get_screen_width and _height, video_vga_to_rgb. *)
Variables video_mode screen_width screen_height : Z.
Variable vga_to_rgb : Z → Z.

(** A device is named by its index; [tty_get_device] takes the address of the array
    element and does not check the index. *)
Definition tty_get_device (tty_id : Z) : M ttys Z := _ ← tty_control; mret tty_id.

(** ** The display *)

(** [i] is an offset in the buffer. *)
Definition draw_cell (d : tty_dev) (c : tty_ctrl) (i : Z) : M ttys unit :=
  let cell := u32 (tc_char_size c + tc_colorbit_size c) in
  attr ← on_tmem (load8 (td_buffer d + i + 1));
  let color := Z.land (s8 attr) 15 in
  let bg := Z.shiftr (s8 attr) 4 in
  if (cell =? 0) || (tc_col_max c =? 0) then fault
  else
    let xloc := s32 ((i / cell) mod tc_col_max c) in
    let yloc := s32 ((i / cell) / tc_col_max c) in
    if negb (video_mode =? VIDEO_MODE_TERM) then
      if tc_row_max c =? 0 then fault
      else
        let xloc := s32 (xloc * (u32 screen_width / tc_col_max c)) in
        let yloc := s32 (yloc * (u32 screen_height / tc_row_max c)) in
        ch ← on_tmem (load8 (td_buffer d + i));
        _ ← (if (SPACE <? s8 ch) && (s8 ch <=? 126) then
               video (DrawChar SPACE xloc yloc (vga_to_rgb color) (vga_to_rgb bg))
             else mret tt);
        video (DrawChar (s8 ch) xloc yloc (vga_to_rgb color) (vga_to_rgb bg))
    else
      ch ← on_tmem (load8 (td_buffer d + i));
      video (DrawChar (s8 ch) xloc yloc color bg).

Definition tty_update_display (tty_dev startcol startrow endcol endrow : Z) : M ttys unit :=
  c ← tty_control;
  let cell := u32 (tc_char_size c + tc_colorbit_size c) in
  let startloc := u32 (u32 (tc_col_max c * startrow + startcol) * cell) in
  let endloc := u32 (u32 (tc_col_max c * endrow + endcol) * cell) in
  _ ← loop (S (Z.to_nat endloc)) (λ i,
        if i <? endloc then
          d ← load_dev tty_dev;
          _ ← draw_cell d c i;
          mret (inl (u32 (i + cell)))
        else mret (inr tt)) startloc;
  d ← load_dev tty_dev;
  video (UpdateCursor (s32 (td_c_col d)) (s32 (td_c_row d))).

(** The rows from the second one on, each copied one up. *)
Definition _tty_scroll (tty_dev : Z) : M ttys unit :=
  c ← tty_control;
  let rowsize := u32 (tc_col_max c * u32 (tc_colorbit_size c + tc_char_size c)) in
  d ← load_dev tty_dev;
  _ ← loop (S (Z.to_nat (tc_row_max c))) (λ i,
        if i <? tc_row_max c then
          _ ← on_tmem (memcpy (td_buffer d + u32 ((i - 1) * rowsize)) (td_buffer d + u32 (i * rowsize)) rowsize);
          mret (inl (i + 1))
        else mret (inr tt)) 1;
  _ ← on_tmem (memset (td_buffer d + u32 (u32 (tc_row_max c - 1) * rowsize)) 0 rowsize);
  video ClearScreen.

(** ** Colors *)

Definition tty_set_color (fg bg : Z) : M ttys unit :=
  _ ← (if negb (fg =? -1) then
         c ← tty_control;
         modify (set_ctrl (with_color (Z.lor (Z.land (tc_color c) 240) (u32 fg)) c))
       else mret tt);
  if negb (bg =? -1) then
    c ← tty_control;
    modify (set_ctrl (with_color (Z.lor (Z.land (tc_color c) 15) (u32 (Z.shiftl bg 4))) c))
  else mret tt.

Definition tty_reset_color : M ttys unit :=
  c ← tty_control; modify (set_ctrl (with_color (tc_default_color c) c)).

(** The switch. *)
Definition color_code (escapecolor : Z) : M ttys Z :=
  if escapecolor =? 30 then mret TTY_BLACK
  else if escapecolor =? 31 then mret TTY_RED
  else if escapecolor =? 32 then mret TTY_GREEN
  else if escapecolor =? 33 then mret TTY_ORANGE
  else if escapecolor =? 34 then mret TTY_BLUE
  else if escapecolor =? 35 then mret TTY_PURPLE
  else if escapecolor =? 36 then mret TTY_CYAN
  else if escapecolor =? 37 then mret TTY_GRAY
  else if escapecolor =? 90 then mret TTY_DARK_GRAY
  else if escapecolor =? 91 then mret TTY_LIGHT_RED
  else if escapecolor =? 92 then mret TTY_LIGHT_GREEN
  else if escapecolor =? 93 then mret TTY_YELLOW
  else if escapecolor =? 94 then mret TTY_LIGHT_BLUE
  else if escapecolor =? 95 then mret TTY_PINK
  else if escapecolor =? 96 then mret TTY_LIGHT_CYAN
  else if escapecolor =? 97 then mret TTY_WHITE
  else if escapecolor =? 0 then
    c ← tty_control; _ ← modify (set_ctrl (with_bold 0 c)); mret TTY_WHITE
  else if escapecolor =? 1 then
    c ← tty_control;
    let c := with_bold 1 c in
    let color := s32 (tc_color c) in
    let c := if (color <=? TTY_GRAY) && (TTY_BLACK <=? color)
             then with_color (u32 (tc_color c + TTY_DARK_GRAY)) c else c in
    _ ← modify (set_ctrl c);
    mret (-1)
  else mret (-1).

(** In bold the colors 30 to 37 are the bright ones: the recursive call has bold off. *)
Definition escape_to_tty_color (escapecolor : Z) : M ttys Z :=
  c ← tty_control;
  if negb (tc_bold c =? 0) && (30 <=? escapecolor) && (escapecolor <=? 37) then
    _ ← modify (set_ctrl (with_bold 0 c));
    color ← color_code (escapecolor + 60);
    c ← tty_control;
    _ ← modify (set_ctrl (with_bold 1 c));
    mret color
  else color_code escapecolor.

(** ** Clearing *)

Definition tty_clear_cell (tty_dev col row : Z) : M ttys unit :=
  c ← tty_control;
  d ← load_dev tty_dev;
  let l := s32 (u32 (u32 (row * tc_col_max c + col) * 2)) in
  _ ← on_tmem (store8 (td_buffer d + l) SPACE);
  tty_update_display tty_dev col row (s32 (col + 1)) row.

Definition tty_clear_buf (tty_dev : Z) : M ttys unit :=
  c ← tty_control;
  d ← load_dev tty_dev;
  _ ← loop (S (Z.to_nat (tc_col_max c))) (λ i,
        if i <? tc_col_max c then
          _ ← loop (S (Z.to_nat (tc_row_max c))) (λ j,
                if j <? tc_row_max c then
                  let l := s32 (u32 (u32 (j * tc_col_max c + i) * 2)) in
                  _ ← on_tmem (store8 (td_buffer d + l) SPACE);
                  _ ← on_tmem (store8 (td_buffer d + l + 1) (tc_color c));
                  mret (inl (j + 1))
                else mret (inr tt)) 0;
          mret (inl (i + 1))
        else mret (inr tt)) 0;
  _ ← store_dev tty_dev (with_cursor 0 0 d);
  tty_update_display tty_dev 0 0 (s32 (tc_col_max c - 1)) (s32 (tc_row_max c - 1)).

(** ** Escape sequences *)

Record escape_seq := EscapeSeq {
  es_iter : Z;
  es_curcol : Z;
  es_currow : Z;
  es_startc : Z;
  es_startr : Z
}.

Definition with_iter (v : Z) (e : escape_seq) : escape_seq :=
  EscapeSeq v (es_curcol e) (es_currow e) (es_startc e) (es_startr e).

(** The number and the position behind it. *)
Definition parse_dec_uint (str : Z) : M ttys (Z * Z) :=
  fuel ← get (λ s, S (size (tt_mem s)));
  loop fuel (λ '(num, str),
    b ← on_tmem (load8 str);
    if b =? 0 then mret (inr (u32 num, str))
    else if (s8 b <? 48) || (57 <? s8 b) then mret (inr (u32 num, str))
    else mret (inl (s32 (s32 (num * 10) + (s8 b - 48)), str + 1))) (0, str).

(** The sequences with one parameter; [None] is an unknown one so far. *)
Definition one_param (es : escape_seq) (param1 ch : Z) : M ttys (option escape_seq) :=
  c ← tty_control;
  if ch =? 109 then
    color ← escape_to_tty_color (s32 param1);
    _ ← tty_set_color color (-1);
    mret (Some es)
  else if ch =? 65 then
    let param1 := if s32 (es_currow es - param1) <? 0 then u32 (param1 - es_currow es) else param1 in
    mret (Some (EscapeSeq (es_iter es) (es_curcol es) (s32 (es_currow es - param1)) (es_startc es) (es_startr es)))
  else if ch =? 67 then
    let param1 := if u32 (tc_col_max c - 1) <? u32 (es_curcol es + param1)
                  then u32 (tc_col_max c - 1 - param1) else param1 in
    mret (Some (EscapeSeq (es_iter es) (s32 (es_curcol es + param1)) (es_currow es) (es_startc es) (es_startr es)))
  else mret None.

(** The sequences with two parameters. *)
Definition two_params (es : escape_seq) (param1 param2 ch : Z) : M ttys escape_seq :=
  if (ch =? 72) || (ch =? 102) then
    let curcol := s32 (param2 - 1) in
    let currow := s32 (param1 - 1) in
    mret (EscapeSeq (es_iter es) curcol currow
            (if curcol <? es_startc es then curcol else es_startc es)
            (if currow <? es_startr es then currow else es_startr es))
  else if ch =? 109 then
    color ← escape_to_tty_color (s32 param1);
    _ ← tty_set_color color (-1);
    color ← escape_to_tty_color (s32 param2);
    _ ← tty_set_color color (-1);
    mret es
  else mret es.

Definition parse_escape_control_sequence (tty_dev : Z) (es : escape_seq) (seq : Z) : M ttys escape_seq :=
  ch ← on_tmem (load8 seq);
  if ch =? 72 then mret (EscapeSeq (s32 (es_iter es + 1)) 0 0 0 0)
  else if ch =? 74 then _ ← tty_clear_buf tty_dev; mret (with_iter (s32 (es_iter es + 1)) es)
  else if ch =? 109 then
    c ← tty_control;
    _ ← tty_set_color (s32 (tc_default_color c)) (-1);
    mret (with_iter (s32 (es_iter es + 1)) es)
  else
    '(param1, p) ← parse_dec_uint seq;
    ch ← on_tmem (load8 p);
    r ← one_param es param1 ch;
    '(es, p) ← match r with
               | Some es => mret (es, p)
               | None =>
                 if negb (ch =? 59) then mret (es, p)
                 else
                   '(param2, p) ← parse_dec_uint (p + 1);
                   ch ← on_tmem (load8 p);
                   es ← two_params es param1 param2 ch;
                   mret (es, p)
               end;
    mret (with_iter (s32 (es_iter es + (p - seq + 1))) es).

Definition parse_escape_sequence (tty_dev : Z) (es : escape_seq) (seq : Z) : M ttys escape_seq :=
  ch ← on_tmem (load8 seq);
  if ch =? 91 then parse_escape_control_sequence tty_dev (with_iter (s32 (es_iter es + 1)) es) (seq + 1)
  else mret es.

(** ** Writing *)

(** The loop's variables. *)
Record wloop := Wloop { wl_i : Z; wl_col : Z; wl_row : Z; wl_startc : Z; wl_startr : Z; wl_full : bool }.

Definition at_cell (w : wloop) (col row : Z) : wloop :=
  Wloop (wl_i w) col row (wl_startc w) (wl_startr w) (wl_full w).

(** One character: where it goes and where the cursor is then. *)
Definition put_char (tty_dev text : Z) (w : wloop) : M ttys wloop :=
  c ← tty_control;
  character ← on_tmem (load8 (text + wl_i w));
  if (character =? NEWLINE) || (character =? RETURN) then mret (at_cell w 0 (u32 (wl_row w + 1)))
  else if character =? TAB then mret (at_cell w (u32 (wl_col w + 4)) (wl_row w))
  else if character =? ESC then
    es ← parse_escape_sequence tty_dev
           (EscapeSeq (s32 (wl_i w)) (s32 (wl_col w)) (s32 (wl_row w)) (s32 (wl_startc w)) (s32 (wl_startr w)))
           (text + wl_i w + 1);
    mret (Wloop (u32 (es_iter es)) (u32 (es_curcol es)) (u32 (es_currow es)) (u32 (es_startc es))
            (u32 (es_startr es)) (wl_full w))
  else if character =? BACKSPACE then
    if wl_col w =? 0 then mret w
    else
      _ ← tty_clear_cell tty_dev (s32 (wl_col w - 1)) (s32 (wl_row w));
      mret (at_cell w (wl_col w - 1) (wl_row w))
  else
    d ← load_dev tty_dev;
    let l := s32 (u32 (u32 (wl_row w * tc_col_max c + wl_col w) * u32 (tc_colorbit_size c + tc_char_size c))) in
    _ ← on_tmem (store8 (td_buffer d + l) character);
    _ ← on_tmem (store8 (td_buffer d + l + 1) (tc_color c));
    mret (at_cell w (u32 (wl_col w + 1)) (wl_row w)).

(** Wrapping at the end of a line and scrolling at the end of the screen. *)
Definition wrap_scroll (tty_dev : Z) (w : wloop) : M ttys wloop :=
  c ← tty_control;
  let w := if tc_col_max c <=? wl_col w then at_cell w 0 (u32 (wl_row w + 1)) else w in
  if tc_row_max c <=? wl_row w then
    _ ← _tty_scroll tty_dev;
    mret (Wloop (wl_i w) 0 (u32 (wl_row w - 1)) (wl_startc w) (wl_startr w) true)
  else mret w.

Definition next_char (w : wloop) : wloop :=
  Wloop (u32 (wl_i w + 1)) (wl_col w) (wl_row w) (wl_startc w) (wl_startr w) (wl_full w).

Definition write_loop (tty_dev text bytes_to_write : Z) (w : wloop) : M ttys wloop :=
  loop (S (Z.to_nat bytes_to_write)) (λ w,
    if wl_i w <? bytes_to_write then
      w ← put_char tty_dev text w;
      w ← wrap_scroll tty_dev w;
      mret (inl (next_char w))
    else mret (inr w)) w.

(** [tty_dev] is [None] for NULL. *)
Definition tty_write (dev : option Z) (text bytes_to_write col row : Z) : M ttys Z :=
  match dev with
  | None => mret (-1)
  | Some tty_dev =>
    d ← load_dev tty_dev;
    if negb (td_disabled d =? 0) then mret 0
    else
      let at_cursor := (col =? -1) || (row =? -1) in
      let cur_col := if at_cursor then td_c_col d else u32 col in
      let cur_row := if at_cursor then td_c_row d else u32 row in
      w ← write_loop tty_dev text bytes_to_write (Wloop 0 cur_col cur_row cur_col cur_row false);
      _ ← (if at_cursor then d ← load_dev tty_dev; store_dev tty_dev (with_cursor (wl_col w) (wl_row w) d)
           else mret tt);
      c ← tty_control;
      _ ← (if wl_full w then
             tty_update_display tty_dev 0 0 (s32 (tc_col_max c - 1)) (s32 (tc_row_max c - 1))
           else tty_update_display tty_dev (s32 (wl_startc w)) (s32 (wl_startr w)) (s32 (wl_col w)) (s32 (wl_row w)));
      mret (s32 (wl_i w + 1))
  end.

(** ** The other operations *)

Definition tty_set_cursor_col (tty_dev newcol : Z) : M ttys unit :=
  d ← load_dev tty_dev; store_dev tty_dev (with_cursor (u32 newcol) (td_c_row d) d).

Definition tty_set_cursor_row (tty_dev newrow : Z) : M ttys unit :=
  d ← load_dev tty_dev; store_dev tty_dev (with_cursor (td_c_col d) (u32 newrow) d).

Definition tty_disable : M ttys unit :=
  t ← get tt_task; i ← tty_get_device t; d ← load_dev i; store_dev i (with_disabled 1 d).

Definition tty_enable : M ttys unit :=
  t ← get tt_task; i ← tty_get_device t; d ← load_dev i; store_dev i (with_disabled 0 d).

Definition TC_DISABLE : Z := 1.
Definition TC_ENABLE : Z := 2.

Definition termios_cmd (request : Z) : M ttys Z :=
  if request =? TC_DISABLE then _ ← tty_disable; mret 0
  else if request =? TC_ENABLE then _ ← tty_enable; mret 0
  else mret (-1).

(** [ctrl], [devices] and [bufs] are the addresses [kmalloc] returns, [bold] what the
    new structure happens to hold in its field bold. *)
Definition init_tty_devices (ctrl devices : Z) (bufs : list Z) (bold : Z) : M ttys Z :=
  let term := video_mode =? VIDEO_MODE_TERM in
  let cols := if term then screen_width else Z.quot screen_width FONTWIDTH in
  let rows := if term then screen_height else Z.quot screen_height FONTHEIGHT in
  let tty_buf_size := s32 (cols * rows * 2) in
  if ctrl =? 0 then mret (-1)
  else
    let color := Z.lor TTY_WHITE (Z.shiftl TTY_BLACK 4) in
    _ ← modify (set_ctrl (TtyCtrl (u32 cols) (u32 rows) 1 1 color color bold));
    if devices =? 0 then mret (-1)
    else
      _ ← modify (set_devs (imap (λ i b, TtyDev b (Z.of_nat i) 0 0 0) (take TTY_DEVICE_AMOUNT bufs)));
      _ ← modify (set_task_tty 0);
      d ← load_dev 0;
      _ ← loop (S (Z.to_nat tty_buf_size)) (λ i,
            if i <? tty_buf_size then
              _ ← on_tmem (store8 (td_buffer d + i + 1) color);
              mret (inl (i + 2))
            else mret (inr tt)) 0;
      mret 0.
End tty.
