(* ===== verification/TtyScreen.v ===== *)
(** * What a terminal shows (kernel/yanix/tty/tty_dev.c)

    The abstract screen is a list of cells with a cursor; [tty_write] implements the
    typing of characters on it, with wrapping and scrolling. *)
From S2P Require Import Prelude LibK Disk Kmem Tty.

(** ** The abstract screen *)

(** Character and color of the cells, row by row, and the cursor. *)
Record screen := Screen { sc_cells : list (Z * Z); sc_col : Z; sc_row : Z }.

(** The bytes of the buffer. *)
Definition flat (cells : list (Z * Z)) : list Z := concat ((λ '(c, a), [c; a]) <$> cells).

(** Typing [ch] in [color] on lines of [cols] cells. *)
Definition type_char (cols color ch : Z) (sc : screen) : screen :=
  let here := Z.to_nat (sc_row sc * cols + sc_col sc) in
  if (ch =? NEWLINE) || (ch =? RETURN) then Screen (sc_cells sc) 0 (sc_row sc + 1)
  else if ch =? TAB then Screen (sc_cells sc) (sc_col sc + 4) (sc_row sc)
  else if ch =? BACKSPACE then
    if sc_col sc =? 0 then sc
    else Screen (alter (λ '(_, a), (SPACE, a)) (here - 1)%nat (sc_cells sc)) (sc_col sc - 1) (sc_row sc)
  else Screen (<[here := (ch, u8 color)]> (sc_cells sc)) (sc_col sc + 1) (sc_row sc).

(** The next line at the end of a line, and the screen one line up at its end. *)
Definition wrap (cols rows : Z) (sc : screen) : screen :=
  let sc := if cols <=? sc_col sc then Screen (sc_cells sc) 0 (sc_row sc + 1) else sc in
  if rows <=? sc_row sc then
    Screen (drop (Z.to_nat cols) (sc_cells sc) ++ replicate (Z.to_nat cols) (0, 0)) 0 (sc_row sc - 1)
  else sc.

Definition type_text (cols rows color : Z) (text : list Z) (sc : screen) : screen :=
  foldl (λ sc ch, wrap cols rows (type_char cols color ch sc)) sc text.

(** ** Cells as bytes *)

Lemma flat_app a b : flat (a ++ b) = flat a ++ flat b.
Proof. unfold flat. by rewrite fmap_app, concat_app. Qed.

Lemma flat_length cells : length (flat cells) = (2 * length cells)%nat.
Proof.
  induction cells as [|[c a] cells IH]; [done|].
  change (flat ((c, a) :: cells)) with (c :: a :: flat cells). simpl length. lia.
Qed.

Lemma flat_replicate n : flat (replicate n (0, 0)) = replicate (2 * n) 0.
Proof.
  induction n as [|n IH]; [done|]. replace (2 * S n)%nat with (S (S (2 * n))) by lia.
  cbn [replicate]. rewrite <- IH. done.
Qed.

Lemma flat_drop n cells : flat (drop n cells) = drop (2 * n) (flat cells).
Proof.
  revert cells. induction n as [|n IH]; intros cells; [done|].
  replace (2 * S n)%nat with (S (S (2 * n))) by lia. destruct cells as [|[c a] cells]; [done|]. apply IH.
Qed.

Lemma flat_insert cells k c a : (k < length cells)%nat →
  flat (<[k := (c, a)]> cells) = splice (flat cells) (2 * Z.of_nat k) [c; a].
Proof.
  intros Hk. destruct (lookup_lt_is_Some_2 cells k Hk) as [x Hx].
  rewrite insert_take_drop by done. rewrite <- (take_drop_middle cells k x Hx) at 3.
  rewrite flat_app. change (x :: drop (S k) cells) with ([x] ++ drop (S k) cells).
  rewrite !flat_app. symmetry. destruct x as [c' a']. apply splice_app; [|done].
  rewrite flat_length, length_take. lia.
Qed.

Lemma flat_lookup cells k c a : cells !! k = Some (c, a) →
  flat cells !! (2 * k)%nat = Some c ∧ flat cells !! (2 * k + 1)%nat = Some a.
Proof.
  revert cells. induction k as [|k IH]; intros [|[c' a'] cells]; simpl; intros Hk; try done.
  - by injection Hk as -> ->.
  - destruct (IH cells Hk) as [H1 H2]. replace (k + S (k + 0))%nat with (S (2 * k)) by lia. split; [done|].
    replace (S (2 * k) + 1)%nat with (S (2 * k + 1)) by lia. done.
Qed.

(** Overwriting part of a block that was written. *)
Lemma write_at_splice m p bs a new : 0 ≤ a → a + Z.of_nat (length new) ≤ Z.of_nat (length bs) →
  write_at (write_at m p bs) (p + a) new = write_at m p (splice bs a new).
Proof.
  intros Ha Hl. apply map_eq. intros q. rewrite !write_at_lookup.
  assert (Hs : length (splice bs a new) = length bs) by by apply splice_length. rewrite Hs.
  destruct (decide (p + a ≤ q < _)) as [Hin|Hout].
  - destruct (decide _); [|lia]. unfold splice.
    assert (Ht : length (take (Z.to_nat a) bs) = Z.to_nat a) by (rewrite length_take; lia).
    rewrite lookup_app_r, lookup_app_l by lia. f_equal. lia.
  - destruct (decide _); [|done]. rewrite splice_lookup; [done|done|done|lia].
Qed.

(** ** Running the code *)

Section run.
Variables video_mode screen_width screen_height : Z.
Variable vga_to_rgb : Z → Z.
Local Notation display := (tty_update_display video_mode screen_width screen_height vga_to_rgb).
Implicit Types (s : ttys) (c : tty_ctrl) (d : tty_dev).

Definition with_video (vs : list video_call) s : ttys :=
  Ttys (tt_mem s) (tt_ctrl s) (tt_devs s) (vs ++ tt_video s) (tt_task s).

(** Device [i] is [d], and the screen has an even number of columns. *)
Record tty_ok s (i : Z) d c : Prop := TtyOk {
  ok_ctrl : tt_ctrl s = Some c;
  ok_sizes : tc_colorbit_size c = 1 ∧ tc_char_size c = 1;
  ok_cols : 0 < tc_col_max c ∧ tc_col_max c mod 2 = 0;
  ok_rows : 0 < tc_row_max c;
  ok_size : 2 * (tc_col_max c * tc_row_max c) < 2147483648;
  ok_dev : 0 ≤ i ∧ tt_devs s !! Z.to_nat i = Some d
}.

(** The buffer's bytes are [X], in a memory that is otherwise [m0]. *)
Definition holds (m0 : bmem) s d c (X : list Z) : Prop :=
  tt_mem s = write_at m0 (td_buffer d) X ∧ Z.of_nat (length X) = 2 * (tc_col_max c * tc_row_max c).

Lemma tty_ok_video vs s i d c : tty_ok s i d c → tty_ok (with_video vs s) i d c.
Proof. by intros []. Qed.

Lemma tty_ok_mem m s i d c : tty_ok s i d c → tty_ok (set_tmem m s) i d c.
Proof. by intros []. Qed.

Lemma run_control s c : tt_ctrl s = Some c → tty_control s = Ok (c, s).
Proof. intros Hc. unfold tty_control, get, of_option, mbind, M_bind. by rewrite Hc. Qed.

Lemma run_load_dev s i d c : tty_ok s i d c → load_dev i s = Ok (d, s).
Proof.
  intros [_ _ _ _ _ [Hi Hd]]. unfold load_dev, get, of_option, mbind, M_bind.
  destruct (Z.ltb_spec i 0); [lia|]. by rewrite Hd.
Qed.

Lemma run_tmem {A} (f : M bmem A) s a m : f (tt_mem s) = Ok (a, m) → on_tmem f s = Ok (a, set_tmem m s).
Proof. intros Hf. unfold on_tmem. by rewrite Hf. Qed.

Lemma run_tmem_at {A} (f : M bmem A) s a m m' : f m = Ok (a, m') → on_tmem f (set_tmem m s) = Ok (a, set_tmem m' s).
Proof. intros Hf. exact (run_tmem f (set_tmem m s) a m' Hf). Qed.

Lemma set_tmem_id s : set_tmem (tt_mem s) s = s.
Proof. by destruct s. Qed.

Lemma run_tload s p b : tt_mem s !! p = Some b → on_tmem (load8 p) s = Ok (b, s).
Proof. intros Hb. erewrite run_tmem by by apply run_load8. by rewrite set_tmem_id. Qed.

Lemma holds_mapped m0 s d c X k : holds m0 s d c X → 0 ≤ k < 2 * (tc_col_max c * tc_row_max c) →
  ∃ b, tt_mem s !! (td_buffer d + k) = Some b.
Proof.
  intros [-> Hl] Hk. destruct (write_at_mapped m0 (td_buffer d) X (td_buffer d + k) ltac:(lia)) as [b Hb]. eauto.
Qed.

Lemma draw_cell_run m0 s i d c X k :
  tty_ok s i d c → holds m0 s d c X → 0 ≤ k → k + 1 < 2 * (tc_col_max c * tc_row_max c) →
  ∃ vs, draw_cell video_mode screen_width screen_height vga_to_rgb d c k s = Ok (tt, with_video vs s).
Proof.
  intros [Hc [Hs1 Hs2] [Hcol _] Hrow Hsz _] Hh Hk Hk1. unfold draw_cell. rewrite Hs1, Hs2. change (u32 (1 + 1)) with 2.
  destruct (holds_mapped m0 s d c X k Hh) as [ch Hch]; [lia|].
  destruct (holds_mapped m0 s d c X (k + 1) Hh) as [a Ha]; [lia|]. rewrite Z.add_assoc in Ha.
  rewrite (bind_ok _ _ _ _ _ (run_tload s _ _ Ha)). cbn [Z.eqb orb].
  destruct (Z.eqb_spec (tc_col_max c) 0); [lia|]. destruct (negb (video_mode =? VIDEO_MODE_TERM)).
  - destruct (Z.eqb_spec (tc_row_max c) 0); [lia|]. rewrite (bind_ok _ _ _ _ _ (run_tload s _ _ Hch)).
    destruct ((SPACE <? s8 ch) && (s8 ch <=? 126)); eexists.
    + apply (f_equal (λ v, Ok (tt, Ttys (tt_mem s) (tt_ctrl s) (tt_devs s) v (tt_task s)))).
      instantiate (1 := [_; _]). reflexivity.
    + apply (f_equal (λ v, Ok (tt, Ttys (tt_mem s) (tt_ctrl s) (tt_devs s) v (tt_task s)))).
      instantiate (1 := [_]). reflexivity.
  - rewrite (bind_ok _ _ _ _ _ (run_tload s _ _ Hch)). eexists.
    apply (f_equal (λ v, Ok (tt, Ttys (tt_mem s) (tt_ctrl s) (tt_devs s) v (tt_task s)))).
    instantiate (1 := [_]). reflexivity.
Qed.

Lemma with_video_app us vs s : with_video us (with_video vs s) = with_video (us ++ vs) s.
Proof. unfold with_video. simpl. by rewrite app_assoc. Qed.

(** Updating the display only sends calls to the video driver. *)
Lemma display_run m0 s i d c X sc sr ec er :
  tty_ok s i d c → holds m0 s d c X →
  0 ≤ sc ≤ tc_col_max c → 0 ≤ sr < tc_row_max c → 0 ≤ ec ≤ tc_col_max c → 0 ≤ er < tc_row_max c →
  ∃ vs, display i sc sr ec er s = Ok (tt, with_video vs s).
Proof.
  intros Hok Hh Hsc Hsr Hec Her. pose proof Hok as [Hc [Hs1 Hs2] [Hcol _] Hrow Hsz _].
  unfold tty_update_display. rewrite (bind_ok _ _ _ _ _ (run_control s c Hc)), Hs1, Hs2. change (u32 (1 + 1)) with 2.
  set (start := tc_col_max c * sr + sc). set (end_ := tc_col_max c * er + ec).
  assert (Hst : 0 ≤ start ≤ tc_col_max c * tc_row_max c) by (unfold start; nia).
  assert (Hen : 0 ≤ end_ ≤ tc_col_max c * tc_row_max c) by (unfold end_; nia).
  rewrite (u32_small start), (u32_small end_), !u32_small by lia.
  assert (Hgen : ∀ f k vs, 0 ≤ k → end_ - k ≤ Z.of_nat f → ∃ us,
    loop (S f) (λ j, if j <? end_ * 2 then
        d ← load_dev i; _ ← draw_cell video_mode screen_width screen_height vga_to_rgb d c j; mret (inl (u32 (j + 2)))
      else mret (inr tt)) (k * 2) (with_video vs s) = Ok (tt, with_video us s)).
  { induction f as [|f IH]; intros k vs Hk Hf.
    - exists vs. apply loop_done. by destruct (Z.ltb_spec (k * 2) (end_ * 2)); [lia|].
    - destruct (Z.ltb_spec k end_) as [Hlt|Hge].
      + destruct (draw_cell_run m0 (with_video vs s) i d c X (k * 2)) as [us Hd];
          [by apply tty_ok_video|done|lia|lia|]. rewrite with_video_app in Hd.
        destruct (IH (k + 1) (us ++ vs)) as [ws Hrun]; [lia|lia|]. exists ws.
        erewrite loop_next; [exact Hrun|]. destruct (Z.ltb_spec (k * 2) (end_ * 2)); [|lia].
        rewrite (bind_ok _ _ _ _ _ (run_load_dev _ i d c (tty_ok_video vs s i d c Hok))), (bind_ok _ _ _ _ _ Hd).
        rewrite u32_small by lia. by replace (k * 2 + 2) with ((k + 1) * 2) by lia.
      + exists vs. apply loop_done. by destruct (Z.ltb_spec (k * 2) (end_ * 2)); [lia|]. }
  destruct (Hgen (Z.to_nat (end_ * 2)) start []) as [us Hrun]; [lia|lia|].
  assert (Hnil : with_video [] s = s) by by destruct s. rewrite Hnil in Hrun.
  rewrite (bind_ok _ _ _ _ _ Hrun), (bind_ok _ _ _ _ _ (run_load_dev _ i d c (tty_ok_video us s i d c Hok))).
  exists (UpdateCursor (s32 (td_c_col d)) (s32 (td_c_row d)) :: us). done.
Qed.

(** ** Scrolling *)

(** The buffer after the first [k] rows of [rs] bytes have been copied one up. *)
Definition moved_up (rs k : nat) (X : list Z) : list Z := take (k * rs) (drop rs X) ++ drop (k * rs) X.

Lemma moved_up_length rs k X : ((k + 1) * rs ≤ length X)%nat → length (moved_up rs k X) = length X.
Proof. intros Hl. unfold moved_up. rewrite length_app, length_take, !length_drop. lia. Qed.

Lemma moved_up_row rs k X : ((k + 2) * rs ≤ length X)%nat →
  slice (moved_up rs k X) (Z.of_nat ((k + 1) * rs)) (Z.of_nat rs) = take rs (drop (k * rs) (drop rs X)).
Proof.
  intros Hl. unfold slice, moved_up. rewrite !Nat2Z.id, drop_app.
  assert (Ht : length (take (k * rs) (drop rs X)) = (k * rs)%nat) by (rewrite length_take, length_drop; lia).
  rewrite (drop_ge (take _ _)) by lia. rewrite Ht. simpl app.
  rewrite !drop_drop. f_equal. f_equal. lia.
Qed.

Lemma moved_up_next rs k X : ((k + 2) * rs ≤ length X)%nat →
  splice (moved_up rs k X) (Z.of_nat (k * rs)) (take rs (drop (k * rs) (drop rs X))) = moved_up rs (k + 1) X.
Proof.
  intros Hl. unfold splice. rewrite Nat2Z.id.
  assert (Ht : length (take (k * rs) (drop rs X)) = (k * rs)%nat) by (rewrite length_take, length_drop; lia).
  assert (Hr : length (take rs (drop (k * rs) (drop rs X))) = rs) by (rewrite length_take, !length_drop; lia).
  rewrite Hr. unfold moved_up at 1 2. rewrite take_app_length' by done.
  rewrite drop_app, (drop_ge (take _ _)) by lia. rewrite Ht. simpl app. rewrite app_assoc, take_take_drop.
  unfold moved_up. f_equal; [f_equal; lia|]. rewrite drop_drop. f_equal. lia.
Qed.

Lemma row_copy m0 b rs k X : ((k + 2) * rs ≤ length X)%nat → Forall is_byte X →
  memcpy (b + Z.of_nat (k * rs)) (b + Z.of_nat ((k + 1) * rs)) (Z.of_nat rs) (write_at m0 b (moved_up rs k X)) =
    Ok (b + Z.of_nat (k * rs), write_at m0 b (moved_up rs (k + 1) X)).
Proof.
  intros Hl HX. pose proof (moved_up_length rs k X ltac:(lia)) as Hml.
  set (row := take rs (drop (k * rs) (drop rs X))).
  assert (Hr : length row = rs) by (unfold row; rewrite length_take, !length_drop; lia).
  replace (Z.of_nat rs) with (Z.of_nat (length row)) by lia. rewrite memcpy_run.
  - rewrite write_at_splice by lia. by rewrite moved_up_next.
  - unfold row. rewrite <- moved_up_row by done. apply bytes_at_slice; [lia|lia|apply write_at_in].
  - eapply mapped_sub; [apply write_at_mapped|lia|lia].
  - by apply Forall_take, Forall_drop, Forall_drop.
  - rewrite Hr. left. lia.
Qed.

(** The loop that copies the rows up, [k] of them done. *)
Lemma scroll_loop m0 s b rs X R f : ∀ k,
  let rows := Z.to_nat R in
  length X = (rows * rs)%nat → Z.of_nat (length X) < 2147483648 → Forall is_byte X → (k < rows ≤ k + f + 1)%nat →
  loop (S f) (λ j, if j <? R then
      _ ← on_tmem (memcpy (b + u32 ((j - 1) * Z.of_nat rs)) (b + u32 (j * Z.of_nat rs)) (Z.of_nat rs));
      mret (inl (j + 1)) else mret (inr tt)) (Z.of_nat k + 1) (set_tmem (write_at m0 b (moved_up rs k X)) s) =
  Ok (tt, set_tmem (write_at m0 b (moved_up rs (rows - 1) X)) s).
Proof.
  induction f as [|f IH]; intros k rows HlX Hsz HX Hk; destruct (Z.ltb_spec (Z.of_nat k + 1) R) as [Hlt|Hge]; [lia| | |].
  2: { erewrite loop_next; [apply (IH (k + 1)%nat); try done; lia|].
       destruct (Z.ltb_spec (Z.of_nat k + 1) R); [|lia].
       rewrite (bind_ok _ _ _ (b + Z.of_nat (k * rs)) (set_tmem (write_at m0 b (moved_up rs (k + 1) X)) s)).
       - unfold mret, M_ret. repeat f_equal. lia.
       - rewrite !u32_small by nia.
         replace ((Z.of_nat k + 1 - 1) * Z.of_nat rs) with (Z.of_nat (k * rs)) by lia.
         replace ((Z.of_nat k + 1) * Z.of_nat rs) with (Z.of_nat ((k + 1) * rs)) by lia.
         apply run_tmem_at. apply row_copy; [nia|done]. }
  all: rewrite (loop_done _ _ _ _ tt (set_tmem (write_at m0 b (moved_up rs k X)) s));
    [by replace k with (rows - 1)%nat by lia|];
    by destruct (Z.ltb_spec (Z.of_nat k + 1) R); [lia|].
Qed.

Lemma scroll_run m0 s i d c X :
  tty_ok s i d c → holds m0 s d c X → Forall is_byte X →
  let rs := Z.to_nat (2 * tc_col_max c) in
  _tty_scroll i s =
    Ok (tt, with_video [ClearScreen] (set_tmem (write_at m0 (td_buffer d) (drop rs X ++ replicate rs 0)) s)).
Proof.
  intros Hok [Hm Hl] HX rs. pose proof Hok as [Hc [Hs1 Hs2] [Hcol Hev] Hrow Hsz _].
  unfold _tty_scroll. rewrite (bind_ok _ _ _ _ _ (run_control s c Hc)), Hs1, Hs2. change (u32 (1 + 1)) with 2.
  set (b := td_buffer d) in *. set (rows := Z.to_nat (tc_row_max c)).
  assert (Hrs : Z.of_nat rs = 2 * tc_col_max c) by lia.
  assert (HlX : length X = (rows * rs)%nat) by (unfold rows, rs; nia).
  rewrite (u32_small (tc_col_max c * 2)) by nia. rewrite (bind_ok _ _ _ _ _ (run_load_dev s i d c Hok)). fold b.
  replace (tc_col_max c * 2) with (Z.of_nat rs) by lia.
  assert (Hrows : (0 < rows)%nat) by lia.
  assert (Hml : length (moved_up rs (rows - 1) X) = length X) by (apply moved_up_length; nia).
  rewrite (bind_ok _ _ _ tt (set_tmem (write_at m0 b (moved_up rs (rows - 1) X)) s)).
  2: { pose proof (scroll_loop m0 s b rs X (tc_row_max c) rows 0%nat HlX ltac:(nia) HX ltac:(unfold rows; lia)) as H0.
       change (moved_up rs 0 X) with X in H0. rewrite <- Hm, set_tmem_id in H0. exact H0. }
  rewrite (bind_ok _ _ _ (b + Z.of_nat ((rows - 1) * rs)) (set_tmem (write_at m0 b (drop rs X ++ replicate rs 0)) s)); [done|].
  rewrite (u32_small (tc_row_max c - 1)), u32_small by nia.
  replace ((tc_row_max c - 1) * Z.of_nat rs) with (Z.of_nat ((rows - 1) * rs)) by (unfold rows; nia).
  assert (Hlast : (length X = (rows - 1) * rs + rs)%nat) by nia.
  set (k := ((rows - 1) * rs)%nat) in *. assert (Hrs4 : rs = (4 * (rs / 4))%nat).
  { pose proof (Z.div_mod (tc_col_max c) 2 ltac:(lia)). set (h := tc_col_max c / 2) in *.
    replace rs with (Z.to_nat h * 4)%nat by lia. rewrite Nat.div_mul by lia. lia. }
  apply run_tmem_at. rewrite memset_zero_run, <- Hrs4.
  2: { eapply mapped_sub; [apply write_at_mapped|lia|rewrite Hml; lia]. }
  rewrite write_at_splice by (rewrite ?length_replicate; lia). do 3 f_equal.
  assert (Ht : length (take k (drop rs X)) = k) by (rewrite length_take, length_drop; lia).
  assert (Hd : take k (drop rs X) = drop rs X) by (apply take_ge; rewrite length_drop; lia).
  unfold splice, moved_up. rewrite Nat2Z.id, length_replicate. fold k. rewrite take_app_length' by done.
  rewrite (drop_ge (take k (drop rs X) ++ _)) by (rewrite length_app, Ht, length_drop; lia). by rewrite app_nil_r, Hd.
Qed.

(** ** Typing *)

(** The screen's cells fill it, are bytes, and the cursor is on it. *)
Record screen_ok c (sc : screen) : Prop := ScreenOk {
  so_length : Z.of_nat (length (sc_cells sc)) = tc_col_max c * tc_row_max c;
  so_bytes : Forall is_byte (flat (sc_cells sc));
  so_col : 0 ≤ sc_col sc < tc_col_max c;
  so_row : 0 ≤ sc_row sc < tc_row_max c
}.

(** [s] with [sc]'s cells in the buffer and more calls to the video driver. *)
Definition showing (m0 : bmem) d s (cells : list (Z * Z)) (vs : list video_call) : ttys :=
  with_video vs (set_tmem (write_at m0 (td_buffer d) (flat cells)) s).

Lemma showing_holds m0 d s c cells vs :
  Z.of_nat (length cells) = tc_col_max c * tc_row_max c → holds m0 (showing m0 d s cells vs) d c (flat cells).
Proof. intros Hl. split; [done|]. rewrite flat_length. lia. Qed.

Lemma showing_ok m0 s i d c cells vs : tty_ok s i d c → tty_ok (showing m0 d s cells vs) i d c.
Proof. intros Hok. by apply tty_ok_video, tty_ok_mem. Qed.

Lemma showing_video m0 s d cells us vs :
  with_video us (showing m0 d s cells vs) = showing m0 d s cells (us ++ vs).
Proof. apply with_video_app. Qed.

Lemma cell_index c sc : 0 < tc_col_max c → screen_ok c sc →
  (Z.to_nat (sc_row sc * tc_col_max c + sc_col sc) < length (sc_cells sc))%nat ∧
  0 ≤ sc_row sc * tc_col_max c + sc_col sc < tc_col_max c * tc_row_max c.
Proof. intros Hc [Hl _ Hcol Hrow]. split; nia. Qed.

(** Storing the two bytes of a cell. *)
Lemma store_cell m0 b cells k ch a : (k < length cells)%nat →
  write_at (write_at m0 b (flat cells)) (b + 2 * Z.of_nat k) [ch; a] = write_at m0 b (flat (<[k := (ch, a)]> cells)).
Proof.
  intros Hk. rewrite write_at_splice; [by rewrite flat_insert|lia|]. rewrite flat_length. simpl. lia.
Qed.

(** A character of no special meaning is stored where the cursor says. *)
Lemma plain_store s i d c text w ch :
  tty_ok s i d c → tt_mem s !! (text + wl_i w) = Some ch → is_byte ch →
  ch ≠ NEWLINE → ch ≠ RETURN → ch ≠ TAB → ch ≠ ESC → ch ≠ BACKSPACE → 0 ≤ wl_col w → 0 ≤ wl_row w →
  let off := 2 * (wl_row w * tc_col_max c + wl_col w) in
  off < 2147483646 → mapped (tt_mem s) (td_buffer d + off) 2 →
  put_char video_mode screen_width screen_height vga_to_rgb i text w s =
    Ok (at_cell w (wl_col w + 1) (wl_row w), set_tmem (write_at (tt_mem s) (td_buffer d + off) [ch; u8 (tc_color c)]) s).
Proof.
  intros Hok Hch Hby H1 H2 H3 H4 H5 Hco Hro off Hoff Hmap. pose proof Hok as [Hc [Hs1 Hs2] [Hcol _] Hrow Hsz _].
  unfold is_byte in Hby. unfold put_char.
  rewrite (bind_ok _ _ _ _ _ (run_control _ c Hc)), (bind_ok _ _ _ _ _ (run_tload _ _ _ Hch)).
  rewrite (proj2 (Z.eqb_neq _ _) H1), (proj2 (Z.eqb_neq _ _) H2), (proj2 (Z.eqb_neq _ _) H3), (proj2 (Z.eqb_neq _ _) H4),
    (proj2 (Z.eqb_neq _ _) H5). cbn [orb].
  rewrite (bind_ok _ _ _ _ _ (run_load_dev _ i d c Hok)), Hs1, Hs2. change (u32 (1 + 1)) with 2.
  rewrite (u32_small (wl_row w * _ + _)), (u32_small (_ * 2)), s32_small by nia.
  replace ((wl_row w * tc_col_max c + wl_col w) * 2) with off by lia. set (b := td_buffer d) in *.
  rewrite (bind_ok _ _ _ tt (set_tmem (write_at (tt_mem s) (b + off) [ch]) s)).
  2: { erewrite run_tmem by (apply run_store8, Hmap; lia). by rewrite u8_small by lia. }
  rewrite (bind_ok _ _ _ tt (set_tmem (write_at (tt_mem s) (b + off) [ch; u8 (tc_color c)]) s));
    [by rewrite (u32_small (wl_col w + 1)) by nia|].
  erewrite run_tmem_at; [reflexivity|].
  rewrite run_store8 by (apply mapped_write with (p := b + off) (n := 2); [done|lia]).
  simpl. by rewrite insert_insert_ne by lia.
Qed.

Lemma plain_run m0 s i d c sc vs text w ch :
  tty_ok s i d c → screen_ok c sc → wl_col w = sc_col sc → wl_row w = sc_row sc →
  tt_mem (showing m0 d s (sc_cells sc) vs) !! (text + wl_i w) = Some ch → is_byte ch →
  ch ≠ NEWLINE → ch ≠ RETURN → ch ≠ TAB → ch ≠ ESC → ch ≠ BACKSPACE →
  let here := Z.to_nat (sc_row sc * tc_col_max c + sc_col sc) in
  put_char video_mode screen_width screen_height vga_to_rgb i text w (showing m0 d s (sc_cells sc) vs) =
    Ok (at_cell w (sc_col sc + 1) (sc_row sc), showing m0 d s (<[here := (ch, u8 (tc_color c))]> (sc_cells sc)) vs).
Proof.
  intros Hok Hsc Ewc Ewr Hch Hby H1 H2 H3 H4 H5 here. pose proof Hok as [_ _ [Hcol _] Hrow Hsz _].
  pose proof (cell_index c sc Hcol Hsc) as [Hk Hpos]. fold here in Hk. pose proof Hsc as [_ _ Hco Hro].
  assert (Eoff : 2 * (wl_row w * tc_col_max c + wl_col w) = 2 * Z.of_nat here) by (rewrite Ewc, Ewr; lia).
  rewrite (plain_store _ i d c text w ch (showing_ok m0 s i d c (sc_cells sc) vs Hok)); try done; try lia.
  - rewrite Eoff, <- Ewc, <- Ewr. unfold showing. rewrite <- store_cell by done. reflexivity.
  - rewrite Eoff. eapply mapped_sub; [apply write_at_mapped|lia|]. rewrite flat_length. lia.
Qed.

(** A space over a character: the color stays. *)
Lemma space_run m0 s d cells vs k ch a :
  cells !! k = Some (ch, a) → (k < length cells)%nat →
  on_tmem (store8 (td_buffer d + 2 * Z.of_nat k) SPACE) (showing m0 d s cells vs) =
    Ok (tt, showing m0 d s (<[k := (SPACE, a)]> cells) vs).
Proof.
  intros Hcell Hk. destruct (flat_lookup cells k ch a Hcell) as [_ Ha]. set (b := td_buffer d).
  assert (Hmap : mapped (write_at m0 b (flat cells)) (b + 2 * Z.of_nat k) 2).
  { eapply mapped_sub; [apply write_at_mapped|lia|]. rewrite flat_length. lia. }
  erewrite run_tmem by (apply run_store8, Hmap; lia).
  unfold showing. fold b. rewrite <- (store_cell m0 b cells k SPACE a) by lia.
  change [SPACE; a] with ([SPACE] ++ [a]). rewrite write_at_snoc.
  rewrite (insert_id _ (b + 2 * Z.of_nat k + _) a); [done|].
  change (write_at (write_at m0 b (flat cells)) (b + 2 * Z.of_nat k) [SPACE])
    with (<[b + 2 * Z.of_nat k := SPACE]> (write_at m0 b (flat cells))).
  rewrite lookup_insert_ne by (simpl; lia). pose proof (write_at_in m0 b (flat cells) _ _ Ha) as Hw.
  replace (b + Z.of_nat (2 * k + 1)) with (b + 2 * Z.of_nat k + Z.of_nat (length [SPACE])) in Hw by (simpl; lia).
  exact Hw.
Qed.

Lemma backspace_run m0 s i d c sc vs text w :
  tty_ok s i d c → screen_ok c sc → wl_col w = sc_col sc → wl_row w = sc_row sc → sc_col sc ≠ 0 →
  tt_mem (showing m0 d s (sc_cells sc) vs) !! (text + wl_i w) = Some BACKSPACE →
  let here := Z.to_nat (sc_row sc * tc_col_max c + sc_col sc) in
  ∃ us, put_char video_mode screen_width screen_height vga_to_rgb i text w (showing m0 d s (sc_cells sc) vs) =
    Ok (at_cell w (sc_col sc - 1) (sc_row sc),
        showing m0 d s (alter (λ '(_, a), (SPACE, a)) (here - 1)%nat (sc_cells sc)) us).
Proof.
  intros Hok Hsc Ewc Ewr H0 Hch here. pose proof Hok as [Hc [Hs1 Hs2] [Hcol _] Hrow Hsz _].
  pose proof (cell_index c sc Hcol Hsc) as [Hk Hpos]. fold here in Hk. pose proof Hsc as [Hl _ Hco Hro].
  set (cells := sc_cells sc) in *. set (k := (here - 1)%nat).
  destruct (lookup_lt_is_Some_2 cells k) as [[ch a] Hcell]; [lia|].
  assert (Ealt : alter (λ '(_, a), (SPACE, a)) k cells = <[k := (SPACE, a)]> cells).
  { apply list_eq. intros j. destruct (decide (j = k)) as [->|Hne].
    - by rewrite list_lookup_alter_eq, list_lookup_insert_eq, Hcell by lia.
    - by rewrite list_lookup_alter_ne, list_lookup_insert_ne by done. }
  fold k. rewrite Ealt. pose proof (showing_ok m0 s i d c cells vs Hok) as Hok'.
  unfold put_char. rewrite (bind_ok _ _ _ _ _ (run_control _ c (ok_ctrl _ _ _ _ Hok'))).
  rewrite (bind_ok _ _ _ _ _ (run_tload _ _ _ Hch)), Ewc, Ewr. cbn [Z.eqb orb NEWLINE RETURN TAB ESC BACKSPACE Pos.eqb].
  rewrite (proj2 (Z.eqb_neq _ _) H0). unfold tty_clear_cell.
  rewrite (s32_small (sc_col sc - 1)), (s32_small (sc_row sc)) by nia.
  destruct (display_run m0 (showing m0 d s (<[k := (SPACE, a)]> cells) vs) i d c (flat (<[k := (SPACE, a)]> cells))
    (sc_col sc - 1) (sc_row sc) (sc_col sc) (sc_row sc)) as [us Hdisp]; try lia.
  { by apply showing_ok. } { apply showing_holds. rewrite length_insert. done. }
  rewrite showing_video in Hdisp. exists (us ++ vs).
  erewrite bind_ok; [done|]. rewrite (bind_ok _ _ _ _ _ (run_control _ c (ok_ctrl _ _ _ _ Hok'))).
  rewrite (bind_ok _ _ _ _ _ (run_load_dev _ i d c Hok')).
  rewrite (u32_small (sc_row sc * _ + _)), (u32_small (_ * 2)), (s32_small (_ * 2)), (s32_small (_ + 1)) by nia.
  set (b := td_buffer d).
  replace ((sc_row sc * tc_col_max c + (sc_col sc - 1)) * 2) with (2 * Z.of_nat k) by lia.
  rewrite (bind_ok _ _ _ tt (showing m0 d s (<[k := (SPACE, a)]> cells) vs)).
  { by replace (sc_col sc - 1 + 1) with (sc_col sc) by lia. }
  by apply space_run with (ch := ch); [|lia].
Qed.

Lemma put_char_run m0 s i d c sc vs text w ch :
  tty_ok s i d c → screen_ok c sc → wl_col w = sc_col sc → wl_row w = sc_row sc →
  tt_mem (showing m0 d s (sc_cells sc) vs) !! (text + wl_i w) = Some ch → is_byte ch → ch ≠ ESC →
  let sc' := type_char (tc_col_max c) (tc_color c) ch sc in
  ∃ us, put_char video_mode screen_width screen_height vga_to_rgb i text w (showing m0 d s (sc_cells sc) vs) =
    Ok (at_cell w (sc_col sc') (sc_row sc'), showing m0 d s (sc_cells sc') us).
Proof.
  intros Hok Hsc Ewc Ewr Hch Hby Hesc sc'. pose proof Hok as [Hc _ [Hcol _] Hrow Hsz _].
  pose proof Hsc as [_ _ Hco Hro].
  destruct (decide (ch = BACKSPACE ∧ sc_col sc ≠ 0)) as [[-> H0]|Hbs].
  { destruct (backspace_run m0 s i d c sc vs text w) as [us Hrun]; try done.
    exists us. rewrite Hrun. unfold sc', type_char. simpl. by rewrite (proj2 (Z.eqb_neq _ _) H0). }
  exists vs. destruct (decide (ch ≠ NEWLINE ∧ ch ≠ RETURN ∧ ch ≠ TAB ∧ ch ≠ BACKSPACE)) as [(H1 & H2 & H3 & H4)|Hspec].
  { rewrite (plain_run m0 s i d c sc vs text w ch) by done. unfold sc', type_char.
    by rewrite !(proj2 (Z.eqb_neq _ _)) by done. }
  unfold put_char. rewrite (bind_ok _ _ _ _ _ (run_control _ c (ok_ctrl _ _ _ _ (showing_ok m0 s i d c _ vs Hok)))).
  rewrite (bind_ok _ _ _ _ _ (run_tload _ _ _ Hch)). unfold sc', type_char. rewrite <- Ewr, <- Ewc.
  destruct (Z.eqb_spec ch NEWLINE), (Z.eqb_spec ch RETURN); cbn [orb]; try by rewrite u32_small by nia.
  destruct (Z.eqb_spec ch TAB); [by rewrite u32_small by nia|]. rewrite (proj2 (Z.eqb_neq _ _) Hesc).
  destruct (Z.eqb_spec ch BACKSPACE); [|tauto]. destruct (Z.eqb_spec (wl_col w) 0); [|exfalso; apply Hbs; lia].
  destruct w, sc. by simpl in *; subst.
Qed.

(** Between typing a character and wrapping. *)
Record typed_ok c (sc : screen) : Prop := TypedOk {
  ty_length : Z.of_nat (length (sc_cells sc)) = tc_col_max c * tc_row_max c;
  ty_bytes : Forall is_byte (flat (sc_cells sc));
  ty_col : 0 ≤ sc_col sc ≤ tc_col_max c + 3;
  ty_row : 0 ≤ sc_row sc ≤ tc_row_max c;
  ty_end : sc_row sc = tc_row_max c → sc_col sc = 0
}.

Lemma bytes_insert cells k ch a : Forall is_byte (flat cells) → is_byte ch → is_byte a →
  Forall is_byte (flat (<[k := (ch, a)]> cells)).
Proof.
  intros Hf Hc Ha. destruct (decide (k < length cells)%nat) as [Hk|Hk].
  - rewrite flat_insert by done. unfold splice. repeat apply Forall_app_2; [by apply Forall_take| |by apply Forall_drop].
    apply Forall_cons. split; [done|]. apply Forall_cons. by split.
  - by rewrite list_insert_ge by lia.
Qed.

Lemma bytes_alter cells k : Forall is_byte (flat cells) →
  Forall is_byte (flat (alter (λ '(_, a), (SPACE, a)) k cells)).
Proof.
  revert k. induction cells as [|[x a] cells IH]; intros k Hf; [done|].
  change (flat ((x, a) :: cells)) with (x :: a :: flat cells) in Hf. inversion Hf as [|? ? Hx Hf']; subst.
  inversion Hf' as [|? ? Ha Hf'']; subst. destruct k as [|k]; simpl.
  - change (flat ((SPACE, a) :: cells)) with (SPACE :: a :: flat cells).
    apply Forall_cons. split; [done|]. apply Forall_cons. by split.
  - change (flat ((x, a) :: ?l)) with (x :: a :: flat l). constructor; [done|]. constructor; [done|]. by apply IH.
Qed.

Lemma type_char_ok c sc ch : screen_ok c sc → is_byte ch → typed_ok c (type_char (tc_col_max c) (tc_color c) ch sc).
Proof.
  intros [Hl Hb Hco Hro] Hch. unfold type_char.
  destruct ((ch =? NEWLINE) || (ch =? RETURN)); [by split; simpl; try lia|].
  destruct (ch =? TAB); [by split; simpl; try lia|].
  destruct (ch =? BACKSPACE).
  - destruct (Z.eqb_spec (sc_col sc) 0); [by split; try lia|].
    split; simpl; try lia; [by rewrite length_alter|by apply bytes_alter].
  - split; simpl; try lia; [by rewrite length_insert|].
    apply bytes_insert; [done|done|by apply Z.mod_pos_bound].
Qed.

Lemma wrap_run m0 s i d c sc vs w :
  tty_ok s i d c → typed_ok c sc → wl_col w = sc_col sc → wl_row w = sc_row sc →
  let sc' := wrap (tc_col_max c) (tc_row_max c) sc in
  ∃ us full, wrap_scroll i w (showing m0 d s (sc_cells sc) vs) =
      Ok (Wloop (wl_i w) (sc_col sc') (sc_row sc') (wl_startc w) (wl_startr w) full, showing m0 d s (sc_cells sc') us) ∧
    screen_ok c sc'.
Proof.
  intros Hok [Hl Hb Hco Hro Hend] Ewc Ewr sc'. pose proof Hok as [Hc [Hs1 Hs2] [Hcol Hev] Hrow Hsz _].
  set (sc1 := if tc_col_max c <=? sc_col sc then Screen (sc_cells sc) 0 (sc_row sc + 1) else sc).
  assert (Hsc1 : sc_cells sc1 = sc_cells sc ∧ 0 ≤ sc_col sc1 < tc_col_max c ∧ 0 ≤ sc_row sc1 ≤ tc_row_max c)
    by (unfold sc1; destruct (Z.leb_spec (tc_col_max c) (sc_col sc)); simpl; split_and!; try done; lia).
  destruct Hsc1 as (Ecells & Hc1 & Hr1).
  set (w1 := if tc_col_max c <=? wl_col w then at_cell w 0 (u32 (wl_row w + 1)) else w).
  assert (Hw1 : wl_i w1 = wl_i w ∧ wl_col w1 = sc_col sc1 ∧ wl_row w1 = sc_row sc1 ∧
                wl_startc w1 = wl_startc w ∧ wl_startr w1 = wl_startr w).
  { unfold w1, sc1. rewrite Ewc, Ewr. destruct (Z.leb_spec (tc_col_max c) (sc_col sc)); simpl; [|done].
    by rewrite u32_small by nia. }
  destruct Hw1 as (Ei & Ec & Er & Esc & Esr).
  unfold wrap_scroll. rewrite (bind_ok _ _ _ _ _ (run_control _ c (ok_ctrl _ _ _ _ (showing_ok m0 s i d c _ vs Hok)))).
  fold w1. unfold sc', wrap. fold sc1. rewrite Er. destruct (Z.leb_spec (tc_row_max c) (sc_row sc1)) as [Hge|Hlt].
  - pose proof (scroll_run m0 (showing m0 d s (sc_cells sc) vs) i d c (flat (sc_cells sc)) (showing_ok _ _ _ _ _ _ _ Hok)
      (showing_holds m0 d s c (sc_cells sc) vs Hl) Hb) as Hscroll.
    rewrite (bind_ok _ _ _ _ _ Hscroll). exists (ClearScreen :: vs), true. rewrite Ecells, Ei, Esc, Esr, u32_small by nia.
    set (n := Z.to_nat (tc_col_max c)). assert (Hn : Z.to_nat (2 * tc_col_max c) = (2 * n)%nat) by lia.
    rewrite Hn, <- flat_drop, <- flat_replicate, <- flat_app. split; [done|].
    split; simpl; try lia.
    + rewrite length_app, length_drop, length_replicate. unfold n. nia.
    + rewrite flat_app. apply Forall_app_2; [rewrite flat_drop; by apply Forall_drop|].
      rewrite flat_replicate. apply Forall_replicate. by split.
  - exists vs, (wl_full w1). rewrite Ecells. split; [|by split; rewrite ?Ecells; try lia].
    rewrite <- Ei, <- Ec, <- Er, <- Esc, <- Esr. by destruct w1.
Qed.

Lemma write_loop_run f : ∀ m0 s i d c sc vs text w rest n,
  tty_ok s i d c → screen_ok c sc → wl_col w = sc_col sc → wl_row w = sc_row sc →
  bytes_at m0 (text + wl_i w) rest → Forall is_byte rest → ESC ∉ rest →
  disjoint_blocks (text + wl_i w) (Z.of_nat (length rest)) (td_buffer d) (2 * (tc_col_max c * tc_row_max c)) →
  0 ≤ wl_i w → wl_i w + Z.of_nat (length rest) = n → n < 4294967295 → (length rest ≤ f)%nat →
  let sc' := type_text (tc_col_max c) (tc_row_max c) (tc_color c) rest sc in
  ∃ w' us, loop (S f) (λ w,
      if wl_i w <? n then
        w ← put_char video_mode screen_width screen_height vga_to_rgb i text w;
        w ← wrap_scroll i w;
        mret (inl (next_char w))
      else mret (inr w)) w (showing m0 d s (sc_cells sc) vs) = Ok (w', showing m0 d s (sc_cells sc') us) ∧
    screen_ok c sc' ∧ wl_i w' = n ∧ wl_col w' = sc_col sc' ∧ wl_row w' = sc_row sc' ∧
    wl_startc w' = wl_startc w ∧ wl_startr w' = wl_startr w.
Proof.
  induction f as [|f IH]; intros m0 s i d c sc vs text w rest n Hok Hsc Ewc Ewr Hb Hby Hesc Hdis Hi Hn Hmax Hf sc'.
  - destruct rest; [|simpl in Hf; lia]. simpl in Hn. exists w, vs. split; [|split_and!; done || lia].
    apply loop_done. by destruct (Z.ltb_spec (wl_i w) n); [lia|].
  - destruct rest as [|ch rest].
    { simpl in Hn. exists w, vs. split; [|split_and!; done || lia]. apply loop_done. by destruct (Z.ltb_spec (wl_i w) n); [lia|]. }
    cbn [length] in *. apply Forall_cons in Hby as [Hch Hby]. apply not_elem_of_cons in Hesc as [Hne Hesc].
    change (ch :: rest) with ([ch] ++ rest) in Hb. apply bytes_at_app in Hb as [Hb1 Hb2].
    assert (Hload : tt_mem (showing m0 d s (sc_cells sc) vs) !! (text + wl_i w) = Some ch).
    { simpl. rewrite write_at_out.
      - rewrite <- (Z.add_0_r (_ + _)). exact (Hb1 0%nat ch eq_refl).
      - rewrite flat_length. pose proof (so_length _ _ Hsc). destruct Hdis; lia. }
    destruct (put_char_run m0 s i d c sc vs text w ch) as [us Hput]; try done.
    set (sc1 := type_char (tc_col_max c) (tc_color c) ch sc) in *.
    destruct (wrap_run m0 s i d c sc1 us (at_cell w (sc_col sc1) (sc_row sc1)) Hok (type_char_ok c sc ch Hsc Hch) eq_refl eq_refl)
      as (us2 & full & Hwrap & Hsc2). set (sc2 := wrap (tc_col_max c) (tc_row_max c) sc1) in *. simpl in Hwrap.
    destruct (IH m0 s i d c sc2 us2 text (Wloop (wl_i w + 1) (sc_col sc2) (sc_row sc2) (wl_startc w) (wl_startr w) full) rest n)
      as (w' & us3 & Hrun & Hsc3 & H1 & H2 & H3 & H4 & H5); try (simpl; done); try (simpl; lia).
    { simpl. by rewrite Z.add_assoc. } { simpl. destruct Hdis; [left|right]; lia. }
    exists w', us3. split; [|done]. erewrite loop_next; [exact Hrun|].
    destruct (Z.ltb_spec (wl_i w) n); [|lia]. rewrite (bind_ok _ _ _ _ _ Hput), (bind_ok _ _ _ _ _ Hwrap).
    unfold next_char. simpl. by rewrite u32_small by lia.
Qed.

Lemma write_at_id m p bs : bytes_at m p bs → write_at m p bs = m.
Proof.
  intros Hb. apply map_eq. intros q. rewrite write_at_lookup. destruct (decide _); [|done].
  destruct (lookup_lt_is_Some_2 bs (Z.to_nat (q - p))) as [b Hx]; [lia|]. rewrite Hx. symmetry.
  apply Hb in Hx. by replace (p + Z.of_nat (Z.to_nat (q - p))) with q in Hx by lia.
Qed.

(** What is left to do after the loop: the cursor and the display. *)
Lemma finish_run m0 s s1 i d c X text n w :
  tty_ok s i d c → td_disabled d = 0 → tty_ok s1 i d c → holds m0 s1 d c X →
  write_loop video_mode screen_width screen_height vga_to_rgb i text n
    (Wloop 0 (td_c_col d) (td_c_row d) (td_c_col d) (td_c_row d) false) s = Ok (w, s1) →
  wl_full w = true ∨
    0 ≤ wl_startc w ≤ tc_col_max c ∧ 0 ≤ wl_startr w < tc_row_max c ∧
    0 ≤ wl_col w ≤ tc_col_max c ∧ 0 ≤ wl_row w < tc_row_max c →
  ∃ vs, tty_write video_mode screen_width screen_height vga_to_rgb (Some i) text n (-1) (-1) s =
    Ok (s32 (wl_i w + 1),
        with_video vs (set_devs (<[Z.to_nat i := with_cursor (wl_col w) (wl_row w) d]> (tt_devs s1)) s1)).
Proof.
  intros Hok Hdis Hok1 Hh Hrun Hw. pose proof Hok1 as [Hc _ [Hcol _] Hrow Hsz [Hi Hdev]].
  set (d' := with_cursor (wl_col w) (wl_row w) d). set (s2 := set_devs (<[Z.to_nat i := d']> (tt_devs s1)) s1).
  assert (Hok2 : tty_ok s2 i d' c).
  { destruct Hok1. split; try done. split; [done|]. simpl. apply list_lookup_insert_eq. by apply lookup_lt_Some in Hdev. }
  assert (Hdisp : ∃ vs, (if wl_full w then display i 0 0 (s32 (tc_col_max c - 1)) (s32 (tc_row_max c - 1))
    else display i (s32 (wl_startc w)) (s32 (wl_startr w)) (s32 (wl_col w)) (s32 (wl_row w))) s2 = Ok (tt, with_video vs s2)).
  { destruct (wl_full w).
    - rewrite !s32_small by nia. eapply display_run; [exact Hok2|exact Hh|lia..].
    - destruct Hw as [?|(H1 & H2 & H3 & H4)]; [done|]. rewrite !s32_small by nia.
      eapply display_run; [exact Hok2|exact Hh|lia..]. }
  destruct Hdisp as [vs Hdisp]. exists vs.
  unfold tty_write. rewrite (bind_ok _ _ _ _ _ (run_load_dev s i d c Hok)), Hdis. cbn [Z.eqb negb orb Pos.eqb].
  rewrite (bind_ok _ _ _ _ _ Hrun). rewrite (bind_ok _ _ _ tt s2).
  2: { rewrite (bind_ok _ _ _ _ _ (run_load_dev s1 i d c Hok1)). unfold store_dev.
       by rewrite (bind_ok _ _ _ _ _ (run_load_dev s1 i d c Hok1)). }
  by rewrite (bind_ok _ _ _ _ _ (run_control s2 c (ok_ctrl _ _ _ _ Hok2))), (bind_ok _ _ _ _ _ Hdisp).
Qed.
End run.

(** ** Theorems *)

(** [tty_write] on the abstract screen. *)
Lemma tty_write_run mode width height rgb (s : ttys) i d c cells text txt :
  tty_ok s i d c → td_disabled d = 0 → screen_ok c (Screen cells (td_c_col d) (td_c_row d)) →
  bytes_at (tt_mem s) (td_buffer d) (flat cells) →
  bytes_at (tt_mem s) text txt → Forall is_byte txt → ESC ∉ txt → Z.of_nat (length txt) < 2147483647 →
  disjoint_blocks text (Z.of_nat (length txt)) (td_buffer d) (2 * (tc_col_max c * tc_row_max c)) →
  let sc' := type_text (tc_col_max c) (tc_row_max c) (tc_color c) txt (Screen cells (td_c_col d) (td_c_row d)) in
  ∃ s', tty_write mode width height rgb (Some i) text (Z.of_nat (length txt)) (-1) (-1) s =
      Ok (Z.of_nat (length txt) + 1, s') ∧
    bytes_at (tt_mem s') (td_buffer d) (flat (sc_cells sc')) ∧ screen_ok c sc' ∧
    tt_devs s' = <[Z.to_nat i := with_cursor (sc_col sc') (sc_row sc') d]> (tt_devs s) ∧
    tt_ctrl s' = tt_ctrl s ∧ tt_task s' = tt_task s ∧
    ∀ q, ¬ td_buffer d ≤ q < td_buffer d + 2 * (tc_col_max c * tc_row_max c) → tt_mem s' !! q = tt_mem s !! q.
Proof.
  intros Hok Hdis Hsc Hcells Htxt Hby Hesc Hlen Hap sc'. pose proof Hok as [Hc _ [Hcol _] Hrow Hsz [Hi Hdev]].
  destruct (write_loop_run mode width height rgb (Z.to_nat (Z.of_nat (length txt))) (tt_mem s) s i d c
    (Screen cells (td_c_col d) (td_c_row d)) [] text
    (Wloop 0 (td_c_col d) (td_c_row d) (td_c_col d) (td_c_row d) false) txt (Z.of_nat (length txt)))
    as (w & us & Hrun & Hsc' & Ei & Ec & Er & Esc & Esr); simpl; try done; try lia.
  { by rewrite Z.add_0_r. } { by rewrite Z.add_0_r. }
  fold sc' in Hrun, Hsc', Ec, Er. cbn [sc_cells wl_startc wl_startr] in Hrun, Esc, Esr.
  assert (E0 : showing (tt_mem s) d s cells [] = s)
    by (unfold showing, with_video, set_tmem; simpl; rewrite (write_at_id _ _ _ Hcells); by destruct s).
  rewrite E0 in Hrun. pose proof Hsc' as [Hl' _ Hco' Hro']. pose proof Hsc as [_ _ Hco Hro]. simpl in Hco, Hro.
  destruct (finish_run mode width height rgb (tt_mem s) s (showing (tt_mem s) d s (sc_cells sc') us) i d c
    (flat (sc_cells sc')) text (Z.of_nat (length txt)) w) as [vs Hfin]; try done.
  { by apply showing_ok. } { by apply showing_holds. } { right. lia. }
  eexists. rewrite Ei, Ec, Er, s32_small in Hfin by lia. split_and!; [exact Hfin|apply write_at_in|done|done|done|done|].
  intros q Hq. simpl. apply write_at_out. rewrite flat_length. lia.
Qed.


(** A screen of four columns and two rows at 100, and a text at 200. *)
Definition demo_ctrl : tty_ctrl := TtyCtrl 4 2 1 1 7 7 0.
Definition demo_dev : tty_dev := TtyDev 100 0 0 0 0.
Definition demo_cells : list (Z * Z) := replicate 8 (SPACE, 7).
Definition demo_text : list Z := [97; 98; 10; 99; 100; 101; 102; 103].
Definition demo_tty : ttys :=
  Ttys (write_at (write_at ∅ 100 (flat demo_cells)) 200 demo_text) (Some demo_ctrl) [demo_dev] [] 0.

Lemma demo_tty_ok : tty_ok demo_tty 0 demo_dev demo_ctrl.
Proof. by split. Qed.

Lemma demo_screen_ok : screen_ok demo_ctrl (Screen demo_cells (td_c_col demo_dev) (td_c_row demo_dev)).
Proof. split; try done. apply (bool_decide_unpack _). by vm_compute. Qed.

