(* ===== verification/TtyEscape.v ===== *)
(** * Escape sequences of the terminal (kernel/yanix/tty/tty_dev.c)

    Decimal parameters, and the sequence that places the cursor: where it puts the
    cursor for positions on the screen, and for those that are not. *)
From S2P Require Import Prelude LibK Disk Kmem Tty TtyScreen.

Section parse.
Implicit Types s : ttys.

Lemma digits_loop f : ∀ s p ds e acc,
  bytes_at (tt_mem s) p (ds ++ [e]) → Forall is_digit ds → ¬ is_digit e → is_byte e →
  0 ≤ acc → digits_value acc ds < 2147483648 → (length ds < f)%nat →
  loop f (λ '(num, str),
    b ← on_tmem (load8 str);
    if b =? 0 then mret (inr (u32 num, str))
    else if (s8 b <? 48) || (57 <? s8 b) then mret (inr (u32 num, str))
    else mret (inl (s32 (s32 (num * 10) + (s8 b - 48)), str + 1))) (acc, p) s =
  Ok ((digits_value acc ds, p + Z.of_nat (length ds)), s).
Proof.
  induction f as [|f IH]; intros s p ds e acc Hb Hd He Hbe Ha Hn Hf; [lia|].
  destruct ds as [|b ds].
  - apply loop_done. pose proof (Hb 0%nat e eq_refl) as H0. simpl in H0. rewrite Z.add_0_r in H0.
    rewrite (bind_ok _ _ _ _ _ (run_tload s p e H0)). simpl in Hn. simpl. rewrite Z.add_0_r.
    unfold is_digit, is_byte in *. unfold s8. rewrite u32_small by lia.
    destruct (Z.eqb_spec e 0); [done|]. destruct (Z.ltb_spec e 128).
    + destruct (Z.ltb_spec e 48), (Z.ltb_spec 57 e); try done. exfalso. lia.
    + by destruct (Z.ltb_spec (e - 256) 48); [|lia].
  - apply Forall_cons in Hd as [Hbd Hd]. unfold is_digit in Hbd. simpl in Hn.
    pose proof (digits_value_ge (acc * 10 + (b - 48)) ds Hd ltac:(lia)) as Hm.
    pose proof (Hb 0%nat b eq_refl) as H0. simpl in H0. rewrite Z.add_0_r in H0.
    erewrite loop_next.
    2: { rewrite (bind_ok _ _ _ _ _ (run_tload s p b H0)). destruct (Z.eqb_spec b 0); [lia|].
         unfold s8. destruct (Z.ltb_spec b 128); [|lia].
         destruct (Z.ltb_spec b 48); [lia|]. destruct (Z.ltb_spec 57 b); [lia|]. cbn [orb].
         rewrite (s32_small (acc * 10)), s32_small by lia. reflexivity. }
    rewrite (IH s (p + 1) ds e); try done; try lia.
    + do 3 f_equal. simpl. lia.
    + change ((b :: ds) ++ [e]) with ([b] ++ (ds ++ [e])) in Hb. by apply bytes_at_app in Hb as [_ Hb].
    + simpl in Hf. lia.
Qed.

(** Digits up to a byte that is none. *)
Lemma parse_run s p ds e :
  bytes_at (tt_mem s) p (ds ++ [e]) → Forall is_digit ds → ¬ is_digit e → is_byte e → digits_value 0 ds < 2147483648 →
  parse_dec_uint p s = Ok ((digits_value 0 ds, p + Z.of_nat (length ds)), s).
Proof.
  intros Hb Hd He Hbe Hn. unfold parse_dec_uint. rewrite (bind_ok _ _ _ (S (size (tt_mem s))) s) by done.
  eapply digits_loop; try done. apply bytes_at_size in Hb. rewrite length_app in Hb. simpl in Hb. lia.
Qed.
End parse.

(** [ESC [ row ; col H]. *)
Definition position_seq (rs cs : list Z) : list Z := [ESC; 91] ++ rs ++ [59] ++ cs ++ [72].

Section position.
Variables video_mode screen_width screen_height : Z.
Variable vga_to_rgb : Z → Z.
Implicit Types s : ttys.

Lemma position_length rs cs : Z.of_nat (length (position_seq rs cs)) = Z.of_nat (length rs) + Z.of_nat (length cs) + 4.
Proof. unfold position_seq. rewrite !length_app. simpl. lia. Qed.

Lemma digit_first rs : Forall is_digit rs → rs ≠ [] → ∃ b rs', rs = b :: rs' ∧ 48 ≤ b ≤ 57.
Proof. intros Hd Hne. destruct rs as [|b rs]; [done|]. apply Forall_cons in Hd as [Hb _]. by exists b, rs. Qed.

Lemma min_if a b : Z.min a b = if a <? b then a else b.
Proof. destruct (Z.ltb_spec a b); lia. Qed.

(** The sequence, from its first byte. *)
Lemma position_run s i c text rs cs w :
  tt_ctrl s = Some c → bytes_at (tt_mem s) (text + wl_i w) (position_seq rs cs) →
  Forall is_digit rs → rs ≠ [] → Forall is_digit cs → digits_value 0 rs < 2147483648 → digits_value 0 cs < 2147483648 →
  0 ≤ wl_i w → wl_i w + Z.of_nat (length (position_seq rs cs)) < 2147483648 →
  0 ≤ wl_startc w < 2147483648 → 0 ≤ wl_startr w < 2147483648 →
  let row := digits_value 0 rs - 1 in
  let col := digits_value 0 cs - 1 in
  put_char video_mode screen_width screen_height vga_to_rgb i text w s =
    Ok (Wloop (wl_i w + Z.of_nat (length (position_seq rs cs)) - 1) (u32 col) (u32 row)
          (u32 (Z.min col (wl_startc w))) (u32 (Z.min row (wl_startr w))) (wl_full w), s).
Proof.
  intros Hc Hb Hrs Hne Hcs Hnr Hnc Hi Hlen Hsc Hsr row col. rewrite position_length in *.
  destruct (digit_first rs Hrs Hne) as (b & rs' & Ers & Hbr).
  pose proof (digits_value_ge 0 rs Hrs ltac:(lia)). pose proof (digits_value_ge 0 cs Hcs ltac:(lia)).
  unfold position_seq in Hb. apply bytes_at_app in Hb as [H2 Hb]. cbn [length] in Hb.
  set (seq := text + wl_i w + Z.of_nat 2) in *.
  assert (Hpar1 : bytes_at (tt_mem s) seq (rs ++ [59])) by (rewrite app_assoc in Hb; by apply bytes_at_app in Hb as [Hb _]).
  apply bytes_at_app in Hb as [Hrow Hb]. apply bytes_at_app in Hb as [Hsemi Hpar2]. cbn [length] in Hpar2.
  set (p1 := seq + Z.of_nat (length rs)) in *.
  pose proof (H2 0%nat ESC eq_refl) as Hl0. pose proof (H2 1%nat 91 eq_refl) as Hl1. rewrite Z.add_0_r in Hl0.
  assert (Hl2 : tt_mem s !! seq = Some b) by (rewrite Ers in Hrow; rewrite <- (Z.add_0_r seq); exact (Hrow 0%nat b eq_refl)).
  pose proof (Hsemi 0%nat 59 eq_refl) as Hl3. rewrite Z.add_0_r in Hl3.
  assert (Hl4 : tt_mem s !! (p1 + 1 + Z.of_nat (length cs)) = Some 72).
  { apply bytes_at_app in Hpar2 as [_ Hh]. rewrite <- (Z.add_0_r (_ + _)). exact (Hh 0%nat 72 eq_refl). }
  unfold put_char. rewrite (bind_ok _ _ _ _ _ (run_control s c Hc)), (bind_ok _ _ _ _ _ (run_tload s _ _ Hl0)).
  change ((ESC =? NEWLINE) || (ESC =? RETURN)) with false. change (ESC =? TAB) with false. rewrite Z.eqb_refl. cbv iota.
  rewrite !s32_small by lia. unfold parse_escape_sequence.
  set (es := EscapeSeq (wl_i w + (Z.of_nat (length rs) + Z.of_nat (length cs) + 4) - 1) col row
               (Z.min col (wl_startc w)) (Z.min row (wl_startr w))).
  rewrite (bind_ok _ _ _ es s);
    [unfold es; cbn [es_iter es_curcol es_currow es_startc es_startr]; by rewrite (u32_small (_ - 1)) by lia|].
  change (text + wl_i w + 1) with (text + wl_i w + Z.of_nat 1).
  rewrite (bind_ok _ _ _ _ _ (run_tload s _ _ Hl1)), Z.eqb_refl.
  replace (text + wl_i w + Z.of_nat 1 + 1) with seq by lia. unfold parse_escape_control_sequence.
  rewrite (bind_ok _ _ _ _ _ (run_tload s _ _ Hl2)).
  destruct (Z.eqb_spec b 72); [lia|]. destruct (Z.eqb_spec b 74); [lia|]. destruct (Z.eqb_spec b 109); [lia|].
  rewrite (bind_ok _ _ _ _ _ (parse_run s seq rs 59 Hpar1 Hrs ltac:(unfold is_digit; lia) ltac:(by split) Hnr)). fold p1.
  rewrite (bind_ok _ _ _ _ _ (run_tload s _ _ Hl3)), (bind_ok _ _ _ None s) by (unfold one_param; by rewrite (bind_ok _ _ _ _ _ (run_control s c Hc))).
  rewrite Z.eqb_refl. cbn [negb].
  rewrite (bind_ok _ _ _ (with_iter (wl_i w + 1) es, p1 + 1 + Z.of_nat (length cs)) s).
  - unfold es, with_iter. cbn [es_iter es_curcol es_currow es_startc es_startr]. unfold mret, M_ret. rewrite s32_small by lia.
    do 3 f_equal. lia.
  - rewrite (bind_ok _ _ _ _ _ (parse_run s (p1 + 1) cs 72 Hpar2 Hcs ltac:(unfold is_digit; lia) ltac:(by split) Hnc)).
    rewrite (bind_ok _ _ _ _ _ (run_tload s _ _ Hl4)). unfold two_params. cbn [Z.eqb Pos.eqb orb].
    rewrite (s32_small (digits_value 0 cs - 1)), (s32_small (digits_value 0 rs - 1)) by lia. unfold es, with_iter, mbind, M_bind, mret, M_ret.
    cbn [es_iter es_curcol es_currow es_startc es_startr]. rewrite s32_small by lia. fold row col.
    by rewrite !min_if, !(s32_small (wl_startc w)), !(s32_small (wl_startr w)) by lia.
Qed.

Local Notation write_body i text n := (λ w,
    if wl_i w <? n then
      w ← put_char video_mode screen_width screen_height vga_to_rgb i text w;
      w ← wrap_scroll i w;
      mret (inl (next_char w))
    else mret (inr w)).

(** The loop's state when [tty_write] starts. *)
Definition start_at (d : tty_dev) : wloop := Wloop 0 (td_c_col d) (td_c_row d) (td_c_col d) (td_c_row d) false.

(** What the sequence makes of it, before wrapping. *)
Definition placed (rs cs : list Z) (d : tty_dev) : wloop :=
  let row := digits_value 0 rs - 1 in
  let col := digits_value 0 cs - 1 in
  Wloop (Z.of_nat (length (position_seq rs cs)) - 1) col row (Z.min col (td_c_col d)) (Z.min row (td_c_row d)) false.

(** The parameters are decimal numbers from 1 on. *)
Definition params_ok (rs cs : list Z) : Prop :=
  Forall is_digit rs ∧ Forall is_digit cs ∧
  1 ≤ digits_value 0 rs < 2147483648 ∧ 1 ≤ digits_value 0 cs < 2147483648 ∧
  Z.of_nat (length (position_seq rs cs)) < 2147483640.

Lemma placed_run s i c d text rs cs :
  tt_ctrl s = Some c → bytes_at (tt_mem s) text (position_seq rs cs) → params_ok rs cs →
  0 ≤ td_c_col d < 2147483648 → 0 ≤ td_c_row d < 2147483648 →
  put_char video_mode screen_width screen_height vga_to_rgb i text (start_at d) s = Ok (placed rs cs d, s).
Proof.
  intros Hc Hb (Hrs & Hcs & Hnr & Hnc & Hlen) Hco Hro.
  rewrite (position_run s i c text rs cs (start_at d)); unfold start_at; cbn [wl_i wl_startc wl_startr]; try done; try lia.
  - unfold placed. by rewrite !u32_small by lia.
  - by rewrite Z.add_0_r.
  - intros ->. cbn in Hnr. lia.
Qed.
End position.

Section overrun.
Variables video_mode screen_width screen_height : Z.
Variable vga_to_rgb : Z → Z.
Implicit Types s : ttys.

(** The cells one line up. *)
Definition lifted (c : tty_ctrl) (cells : list (Z * Z)) : list (Z * Z) :=
  drop (Z.to_nat (tc_col_max c)) cells ++ replicate (Z.to_nat (tc_col_max c)) (0, 0).

(** Below the last line: the screen goes up by one line, whatever the distance. *)
Lemma scroll_once m0 s i d c cells vs w :
  tty_ok s i d c → Z.of_nat (length cells) = tc_col_max c * tc_row_max c → Forall is_byte (flat cells) →
  0 ≤ wl_col w < tc_col_max c → tc_row_max c ≤ wl_row w < 2147483648 →
  wrap_scroll i w (showing m0 d s cells vs) =
    Ok (Wloop (wl_i w) 0 (wl_row w - 1) (wl_startc w) (wl_startr w) true,
        showing m0 d s (lifted c cells) (ClearScreen :: vs)) ∧
  Z.of_nat (length (lifted c cells)) = tc_col_max c * tc_row_max c ∧ Forall is_byte (flat (lifted c cells)).
Proof.
  intros Hok Hl Hb Hco Hro. pose proof Hok as [Hc [Hs1 Hs2] [Hcol Hev] Hrow Hsz _]. split.
  - unfold wrap_scroll. rewrite (bind_ok _ _ _ _ _ (run_control _ c (ok_ctrl _ _ _ _ (showing_ok m0 s i d c _ vs Hok)))).
    destruct (Z.leb_spec (tc_col_max c) (wl_col w)); [lia|]. destruct (Z.leb_spec (tc_row_max c) (wl_row w)); [|lia].
    pose proof (scroll_run m0 (showing m0 d s cells vs) i d c (flat cells) (showing_ok _ _ _ _ _ _ _ Hok)
      (showing_holds m0 d s c cells vs Hl) Hb) as Hscroll.
    rewrite (bind_ok _ _ _ _ _ Hscroll), u32_small by lia. unfold lifted.
    replace (Z.to_nat (2 * tc_col_max c)) with (2 * Z.to_nat (tc_col_max c))%nat by lia.
    by rewrite <- flat_drop, <- flat_replicate, <- flat_app.
  - unfold lifted. split.
    + rewrite length_app, length_drop, length_replicate. nia.
    + rewrite flat_app. apply Forall_app_2; [rewrite flat_drop; by apply Forall_drop|].
      rewrite flat_replicate. apply Forall_replicate. by split.
Qed.

Lemma showing_start s d cells : bytes_at (tt_mem s) (td_buffer d) (flat cells) → showing (tt_mem s) d s cells [] = s.
Proof. intros Hb. unfold showing, with_video, set_tmem. simpl. rewrite (write_at_id _ _ _ Hb). by destruct s. Qed.

(** A character for a cell behind the buffer's end. *)
Lemma store_behind m0 s i d c cells vs text w ch :
  tty_ok s i d c → Z.of_nat (length cells) = tc_col_max c * tc_row_max c →
  tt_mem (showing m0 d s cells vs) !! (text + wl_i w) = Some ch → SPACE ≤ ch < 128 → 0 ≤ wl_col w →
  tc_row_max c ≤ wl_row w →
  let off := 2 * (wl_row w * tc_col_max c + wl_col w) in
  off < 2147483646 → mapped m0 (td_buffer d + off) 2 →
  put_char video_mode screen_width screen_height vga_to_rgb i text w (showing m0 d s cells vs) =
    Ok (at_cell w (wl_col w + 1) (wl_row w), showing (write_at m0 (td_buffer d + off) [ch; u8 (tc_color c)]) d s cells vs).
Proof.
  intros Hok Hl Hload Hch Hco Hro off Hoff Hmap. pose proof Hok as [_ _ [Hcol _] Hrow _ _]. unfold SPACE in Hch.
  assert (Hbig : 2 * (tc_col_max c * tc_row_max c) ≤ off) by (unfold off; nia).
  rewrite (plain_store _ _ _ _ _ i d c text w ch (showing_ok m0 s i d c cells vs Hok)); try done;
    unfold NEWLINE, RETURN, TAB, ESC, BACKSPACE, is_byte; try lia.
  - fold off. unfold showing. simpl tt_mem. by rewrite write_at_comm by (rewrite flat_length; simpl; lia).
  - fold off. intros q Hq. simpl. rewrite write_at_out by (rewrite flat_length; lia). by apply Hmap.
Qed.

(** The sequence for a row below the screen and a character: two lines of scrolling,
    and the character behind the buffer. *)
Lemma overrun_loop s i d c cells text rs cs ch :
  tty_ok s i d c → screen_ok c (Screen cells (td_c_col d) (td_c_row d)) →
  bytes_at (tt_mem s) (td_buffer d) (flat cells) →
  bytes_at (tt_mem s) text (position_seq rs cs ++ [ch]) → params_ok rs cs →
  let n := Z.of_nat (length (position_seq rs cs)) in
  let off := 2 * ((digits_value 0 rs - 2) * tc_col_max c) in
  disjoint_blocks text (n + 1) (td_buffer d) (2 * (tc_col_max c * tc_row_max c)) →
  tc_row_max c + 2 ≤ digits_value 0 rs → digits_value 0 cs ≤ tc_col_max c → off < 2147483646 → SPACE ≤ ch < 128 →
  mapped (tt_mem s) (td_buffer d + off) 2 →
  let m1 := write_at (tt_mem s) (td_buffer d + off) [ch; u8 (tc_color c)] in
  ∃ w cells' vs, write_loop video_mode screen_width screen_height vga_to_rgb i text (n + 1) (start_at d) s =
      Ok (w, showing m1 d s cells' vs) ∧
    Z.of_nat (length cells') = tc_col_max c * tc_row_max c ∧ wl_i w = n + 1 ∧ wl_full w = true.
Proof.
  intros Hok [Hl Hby Hco Hro] Hcells Htext Hpar n off Hap Hrs Hcs Hoff Hch Hmap m1. cbn [sc_cells sc_col sc_row] in *.
  pose proof Hok as [Hc _ [Hcol Hev] Hrow Hsz _]. pose proof Hpar as (_ & _ & Hnr & Hnc & Hlen). fold n in Hlen.
  apply bytes_at_app in Htext as [Hseq Hnext]. fold n in Hnext.
  pose proof (Hnext 0%nat ch eq_refl) as Hload. rewrite Z.add_0_r in Hload.
  assert (Hn : 4 ≤ n) by (unfold n; rewrite position_length; lia). pose proof (Z.div_mod (tc_col_max c) 2 ltac:(lia)).
  set (w0 := placed rs cs d). set (w1 := Wloop n 0 (digits_value 0 rs - 2) (wl_startc w0) (wl_startr w0) true).
  destruct (scroll_once (tt_mem s) s i d c cells [] w0 Hok Hl Hby) as (Hs & Hl1 & Hby1);
    [simpl; lia|simpl; nia|]. rewrite (showing_start _ _ _ Hcells) in Hs. set (cells1 := lifted c cells) in *.
  destruct (scroll_once m1 s i d c cells1 [ClearScreen] (at_cell w1 1 (digits_value 0 rs - 2)) Hok Hl1 Hby1) as (Hss & Hl2 & _);
    [simpl; lia|simpl; nia|]. set (cells2 := lifted c cells1) in *.
  set (w2 := Wloop (n + 1) 0 (digits_value 0 rs - 3) (wl_startc w0) (wl_startr w0) true).
  exists w2, cells2, [ClearScreen; ClearScreen]. split; [|done]. unfold write_loop.
  replace (S (Z.to_nat (n + 1))) with (S (S (S (Z.to_nat n - 1)))) by lia.
  rewrite (loop_next _ _ _ _ w1 (showing (tt_mem s) d s cells1 [ClearScreen])).
  2: { unfold start_at at 1. cbn [wl_i]. destruct (Z.ltb_spec 0 (n + 1)); [|lia].
       rewrite (bind_ok _ _ _ _ _ (placed_run video_mode screen_width screen_height vga_to_rgb s i c d text rs cs Hc Hseq Hpar
         ltac:(nia) ltac:(nia))). fold w0. rewrite (bind_ok _ _ _ _ _ Hs). unfold next_char. cbn [wl_i wl_col wl_row wl_startc wl_startr wl_full].
       unfold w1, w0, placed. cbn [wl_i wl_row]. fold n. rewrite u32_small by lia. unfold mret, M_ret. do 3 f_equal. f_equal; lia. }
  rewrite (loop_next _ _ _ _ w2 (showing m1 d s cells2 [ClearScreen; ClearScreen])).
  - apply loop_done. cbn [wl_i w2]. by rewrite Z.ltb_irrefl.
  - cbn [wl_i w1]. destruct (Z.ltb_spec n (n + 1)); [|lia].
    rewrite (bind_ok _ _ _ (at_cell w1 1 (digits_value 0 rs - 2)) (showing m1 d s cells1 [ClearScreen])).
    + rewrite (bind_ok _ _ _ _ _ Hss). unfold next_char, w2. cbn [wl_i wl_col wl_row wl_startc wl_startr wl_full at_cell w1].
      rewrite u32_small by lia. unfold mret, M_ret. do 3 f_equal. f_equal; lia.
    + rewrite (store_behind (tt_mem s) s i d c cells1 [ClearScreen] text w1 ch Hok Hl1);
        unfold w1; cbn [wl_i wl_col wl_row]; rewrite ?Z.add_0_r; try done; try lia.
      simpl. rewrite write_at_out; [done|]. rewrite flat_length. destruct Hap; lia.
Qed.
End overrun.

(** The screen of four columns and two rows, with other text at 200 and two bytes
    behind the buffer at 156. *)
Definition demo_seq (txt : list Z) : ttys :=
  Ttys (write_at (write_at (write_at ∅ 156 [0; 0]) 100 (flat demo_cells)) 200 txt) (Some demo_ctrl) [demo_dev] [] 0.

Lemma demo_seq_ok txt : tty_ok (demo_seq txt) 0 demo_dev demo_ctrl.
Proof. by split. Qed.

Lemma demo_seq_cells txt : bytes_at (tt_mem (demo_seq txt)) 100 (flat demo_cells).
Proof. apply bytes_at_write; [by left|apply write_at_in]. Qed.

(** ** Theorems *)

(** Placing the cursor.  [ESC [ row ; col H] with a row and a column on the
    screen, counted from 1 and written with any number of digits, leaves the cursor
    there, wherever it was: the write changes no byte of memory and neither the colors
    nor the size of the terminal. *)
Theorem escape_moves_cursor mode width height rgb (s : ttys) i d c cells text rs cs :
  tty_ok s i d c → td_disabled d = 0 → screen_ok c (Screen cells (td_c_col d) (td_c_row d)) →
  bytes_at (tt_mem s) (td_buffer d) (flat cells) →
  bytes_at (tt_mem s) text (position_seq rs cs) → params_ok rs cs →
  digits_value 0 rs ≤ tc_row_max c → digits_value 0 cs ≤ tc_col_max c →
  let n := Z.of_nat (length (position_seq rs cs)) in
  ∃ s', tty_write mode width height rgb (Some i) text n (-1) (-1) s = Ok (n + 1, s') ∧
    tt_devs s' = <[Z.to_nat i := with_cursor (digits_value 0 cs - 1) (digits_value 0 rs - 1) d]> (tt_devs s) ∧
    tt_mem s' = tt_mem s ∧ tt_ctrl s' = tt_ctrl s.
Proof.
  intros Hok Hdis [Hl _ Hco Hro] Hcells Hseq Hpar Hrs Hcs n. cbn [sc_cells sc_col sc_row] in *.
  pose proof Hok as [Hc _ [Hcol _] Hrow Hsz _]. pose proof Hpar as (_ & _ & Hnr & Hnc & Hlen).
  assert (Hn : 4 ≤ n) by (unfold n; rewrite position_length; lia).
  assert (Hrun : write_loop mode width height rgb i text n (start_at d) s = Ok (next_char (placed rs cs d), s)).
  { unfold write_loop. replace (S (Z.to_nat n)) with (S (S (Z.to_nat n - 1))) by lia. erewrite loop_next.
    2: { unfold start_at at 1. cbn [wl_i]. destruct (Z.ltb_spec 0 n); [|lia].
         rewrite (bind_ok _ _ _ _ _ (placed_run mode width height rgb s i c d text rs cs Hc Hseq Hpar ltac:(nia) ltac:(nia))).
         rewrite (bind_ok _ _ _ (placed rs cs d) s); [reflexivity|]. unfold wrap_scroll.
         rewrite (bind_ok _ _ _ _ _ (run_control s c Hc)). unfold placed. cbn [wl_col wl_row].
         destruct (Z.leb_spec (tc_col_max c) (digits_value 0 cs - 1)); [lia|]. cbn [wl_row].
         by destruct (Z.leb_spec (tc_row_max c) (digits_value 0 rs - 1)); [lia|]. }
    apply loop_done. unfold next_char, placed. cbn [wl_i]. fold n. rewrite u32_small by lia.
    by destruct (Z.ltb_spec (n - 1 + 1) n); [lia|]. }
  destruct (finish_run mode width height rgb (tt_mem s) s s i d c (flat cells) text n (next_char (placed rs cs d)))
    as [vs Hfin]; try done.
  - split; [by rewrite (write_at_id _ _ _ Hcells)|]. rewrite flat_length. lia.
  - right. unfold next_char, placed. cbn [wl_col wl_row wl_startc wl_startr]. lia.
  - unfold next_char, placed in Hfin. cbn [wl_i wl_col wl_row] in Hfin. fold n in Hfin.
    rewrite u32_small, s32_small in Hfin by lia. replace (n - 1 + 1 + 1) with (n + 1) in Hfin by lia.
    eexists. split; [exact Hfin|done].
Qed.

Lemma escape_moves_cursor_witness :
  let rs := [48; 50] in let cs := [51] in
  let n := Z.of_nat (length (position_seq rs cs)) in
  let s := demo_seq (position_seq rs cs) in
  ∃ s', tty_write 0 80 25 id (Some 0) 200 n (-1) (-1) s = Ok (n + 1, s') ∧
    tt_devs s' = <[Z.to_nat 0 := with_cursor 2 1 demo_dev]> (tt_devs s) ∧
    tt_mem s' = tt_mem s ∧ tt_ctrl s' = tt_ctrl s.
Proof.
  refine (escape_moves_cursor 0 80 25 id (demo_seq _) 0 demo_dev demo_ctrl demo_cells 200 [48; 50] [51]
    (demo_seq_ok _) eq_refl demo_screen_ok (demo_seq_cells _) _ _ _ _).
  - apply write_at_in.
  - split_and!; try by vm_compute. all: apply (bool_decide_unpack _); by vm_compute.
  - by vm_compute.
  - by vm_compute.
Defined.

(** A position below the screen.  For a row two or more below the last one the
    sequence scrolls by one line only and leaves the cursor below the screen; a
    character that follows is then stored outside the buffer, at the place the cell
    would have if the screen went on. *)
Theorem escape_overruns_buffer mode width height rgb (s : ttys) i d c cells text rs cs ch :
  tty_ok s i d c → td_disabled d = 0 → screen_ok c (Screen cells (td_c_col d) (td_c_row d)) →
  bytes_at (tt_mem s) (td_buffer d) (flat cells) →
  bytes_at (tt_mem s) text (position_seq rs cs ++ [ch]) → params_ok rs cs →
  let n := Z.of_nat (length (position_seq rs cs)) in
  let size := 2 * (tc_col_max c * tc_row_max c) in
  let off := 2 * ((digits_value 0 rs - 2) * tc_col_max c) in
  disjoint_blocks text (n + 1) (td_buffer d) size →
  tc_row_max c + 2 ≤ digits_value 0 rs → digits_value 0 cs ≤ tc_col_max c → off < 2147483646 → SPACE ≤ ch < 128 →
  mapped (tt_mem s) (td_buffer d + off) 2 →
  ∃ s', tty_write mode width height rgb (Some i) text (n + 1) (-1) (-1) s = Ok (n + 2, s') ∧
    size ≤ off ∧ tt_mem s' !! (td_buffer d + off) = Some ch.
Proof.
  intros Hok Hdis Hsc Hcells Htext Hpar n size off Hap Hrs Hcs Hoff Hch Hmap.
  destruct (overrun_loop mode width height rgb s i d c cells text rs cs ch) as (w & cells' & vs & Hrun & Hl & Hi & Hfull); try done.
  destruct (finish_run mode width height rgb _ s _ i d c (flat cells') text (n + 1) w Hok Hdis
    (showing_ok _ _ _ _ _ _ _ Hok) (showing_holds _ _ _ _ _ _ Hl) Hrun (or_introl Hfull)) as [us Hfin].
  pose proof Hpar as (_ & _ & _ & _ & Hlen). fold n in Hi, Hlen. rewrite Hi, s32_small in Hfin by lia.
  replace (n + 1 + 1) with (n + 2) in Hfin by lia. pose proof Hok as [_ _ [Hcol _] _ _ _].
  eexists. split_and!; [exact Hfin|unfold size, off; nia|]. simpl. rewrite write_at_out.
  - by rewrite lookup_insert_eq.
  - rewrite flat_length. fold off. unfold off. nia.
Qed.

Lemma escape_overruns_buffer_witness :
  let rs := [57] in let cs := [49] in
  let n := Z.of_nat (length (position_seq rs cs)) in
  let s := demo_seq (position_seq rs cs ++ [120]) in
  ∃ s', tty_write 0 80 25 id (Some 0) 200 (n + 1) (-1) (-1) s = Ok (n + 2, s') ∧
    16 ≤ 56 ∧ tt_mem s' !! (100 + 56) = Some 120.
Proof.
  refine (escape_overruns_buffer 0 80 25 id (demo_seq _) 0 demo_dev demo_ctrl demo_cells 200 [57] [49] 120
    (demo_seq_ok _) eq_refl demo_screen_ok (demo_seq_cells _) _ _ _ _ _ _ _ _).
  - apply write_at_in.
  - split_and!; try by vm_compute. all: apply (bool_decide_unpack _); by vm_compute.
  - right. by vm_compute.
  - by vm_compute.
  - by vm_compute.
  - by vm_compute.
  - by vm_compute.
  - intros q Hq. change (is_Some (tt_mem (demo_seq (position_seq [57] [49] ++ [120])) !! q)).
    assert (q = 156 ∨ q = 157) as [-> | ->] by (change (100 + 56 ≤ q < 100 + 56 + 2) in Hq; lia); eexists; by vm_compute.
Defined.
