(* ===== verification/Serial.v ===== *)
(** * The serial line (kernel/drivers/serial/serial.c, kernel/yanix/functions/debug.c)

    The driver of the 16550 at port 0x3F8 and the debug output that goes through it.
    The loops that wait for the line status run as long as the bit is clear: [patience]
    bounds that.  String literals are at the addresses [lit] gives, the variable
    arguments are a list of words, and reading a missing one is [Fault]. *)
From S2P Require Import Prelude LibK Disk Format Ports.

Record ser := Ser { se_mem : bmem; se_io : list io }.

Definition on_line {A} (c : M (list io) A) : M ser A := λ s,
  match c (se_io s) with
  | Ok (a, tr) => Ok (a, Ser (se_mem s) tr)
  | Fault => Fault
  | Hang => Hang
  end.

Definition on_smem {A} (c : M bmem A) : M ser A := λ s,
  match c (se_mem s) with
  | Ok (a, m) => Ok (a, Ser m (se_io s))
  | Fault => Fault
  | Hang => Hang
  end.

Definition SERIAL_PORT : Z := 1016.
Definition SERIAL_CMD_ENABLE_FIFO : Z := 199.
Definition SERIAL_CMD_ENABLE_IRQ_RTS_DTS : Z := Z.lor (Z.lor (Z.shiftl 1 3) (Z.shiftl 1 1)) (Z.shiftl 1 0).

Section serial.
Context `{!Devices}.
(** A bound on the number of times the line is not ready. *)
Variable patience : nat.
Variable lit : list Z → Z.

(** ** serial.c *)

Definition check_data_received : M (list io) Z :=
  v ← port_byte_in (SERIAL_PORT + 5);
  mret (Z.land v 1).

(** A char is signed. *)
Definition serial_read : M (list io) Z :=
  _ ← loop patience (λ _ : unit,
        r ← check_data_received;
        if r =? 0 then mret (inl tt) else mret (inr tt)) tt;
  v ← port_byte_in SERIAL_PORT;
  mret (s8 v).

Definition check_can_transmit : M (list io) Z :=
  v ← port_byte_in (SERIAL_PORT + 5);
  mret (Z.land v 32).

Definition serial_put (data : Z) : M (list io) unit :=
  _ ← loop patience (λ _ : unit,
        r ← check_can_transmit;
        if r =? 0 then mret (inl tt) else mret (inr tt)) tt;
  port_byte_out SERIAL_PORT data.

Definition serial_write_noc (data len : Z) : M ser unit :=
  loop (S (Z.to_nat len)) (λ i,
    if i <? len then
      c ← on_smem (load8 (data + i));
      _ ← on_line (serial_put c);
      mret (inl (i + 1))
    else mret (inr tt)) 0.

Definition serial_write (data : Z) : M ser unit :=
  fuel ← get (λ s, mem_fuel (se_mem s));
  loop fuel (λ i,
    c ← on_smem (load8 (data + i));
    if c =? 0 then mret (inr tt)
    else
      _ ← on_line (serial_put c);
      mret (inl (i + 1))) 0.

Definition NEWLINE : list Z := [10].
Definition SERIAL_INITIALISED : list Z := [83; 101; 114; 105; 97; 108; 32; 105; 110; 105; 116; 105; 97; 108; 105; 115; 101; 100; 10].

Definition init_serial : M ser unit :=
  _ ← on_line (port_byte_out (SERIAL_PORT + 1) 0);
  _ ← on_line (port_byte_out (SERIAL_PORT + 0) 3);
  _ ← on_line (port_byte_out (SERIAL_PORT + 1) 0);
  _ ← on_line (port_byte_out (SERIAL_PORT + 3) 3);
  _ ← on_line (port_byte_out (SERIAL_PORT + 2) SERIAL_CMD_ENABLE_FIFO);
  _ ← on_line (port_byte_out (SERIAL_PORT + 4) SERIAL_CMD_ENABLE_IRQ_RTS_DTS);
  _ ← serial_write (lit NEWLINE);
  serial_write (lit SERIAL_INITIALISED).

(** ** debug.c *)

Definition DEBUGPRINT (str : Z) : M ser unit := serial_write str.

Definition DEBUGPUT (c : Z) : M ser unit := on_line (serial_put c).

Definition debug_print (str : Z) : M ser unit := DEBUGPRINT str.

Definition next_arg (args : list Z) : M ser (Z * list Z) :=
  match args with a :: args => mret (a, args) | [] => fault end.

(** The arguments end with a null pointer. *)
Definition debug_print_m (str : Z) (args : list Z) : M ser unit :=
  _ ← debug_print str;
  '(arg, args) ← next_arg args;
  loop (S (length args)) (λ '(arg, args),
    if arg =? 0 then mret (inr tt)
    else
      _ ← debug_print arg;
      '(arg, args) ← next_arg args;
      mret (inl (arg, args))) (arg, args).

Definition putchark (c : Z) : M ser unit := DEBUGPUT c.

Definition print_line (str : Z) : M ser unit := DEBUGPRINT str.

(** The conversions of numbers, a copy of printk's. *)
Definition debug_int (tmp_int : Z) : M ser unit := print_int putchark tmp_int.
Definition debug_unsigned (tmp_int : Z) : M ser unit := print_number putchark u32 10 tmp_int.
Definition debug_hex (tmp_int : Z) : M ser unit := print_number putchark u32 16 tmp_int.
Definition debug_padded (wanted_bits tmp_int : Z) : M ser unit := print_padded putchark wanted_bits tmp_int.

(** A conversion: [p] is the address of the percent sign; the result is how far [i] goes
    and the arguments that are left. *)
Definition debug_conversion (p : Z) (args : list Z) : M ser (Z * list Z) :=
  c ← on_smem (load8 (p + 1));
  if c =? 37 then _ ← putchark 37; mret (2, args)
  else if c =? 99 then
    '(a, args) ← next_arg args;
    _ ← putchark (u8 a);
    mret (2, args)
  else if c =? 115 then
    '(a, args) ← next_arg args;
    _ ← print_line a;
    mret (2, args)
  else if c =? 105 then
    '(a, args) ← next_arg args;
    _ ← debug_int (s32 a);
    mret (2, args)
  else if c =? 117 then
    '(a, args) ← next_arg args;
    _ ← debug_unsigned (u32 a);
    mret (2, args)
  else if c =? 120 then
    '(a, args) ← next_arg args;
    _ ← debug_hex (u32 a);
    mret (2, args)
  else
    c3 ← on_smem (load8 (p + 3));
    if c3 =? 120 then
      '(a, args) ← next_arg args;
      c1 ← on_smem (load8 (p + 1));
      c2 ← on_smem (load8 (p + 2));
      _ ← debug_padded ((s8 c1 - 48) * 10 + s8 c2 - 48) (u32 a);
      mret (4, args)
    else mret (2, args).

Definition debug_step (fmt : Z) : Z * list Z → M ser (Z * list Z + unit) := λ '(i, args),
  character ← on_smem (load8 (fmt + i));
  if character =? 0 then mret (inr tt)
  else if character =? 37 then
    '(len, args) ← debug_conversion (fmt + i) args;
    mret (inl (u32 (i + len), args))
  else
    _ ← putchark character;
    mret (inl (u32 (i + 1), args)).

Definition _debug_printk (fmt : Z) (args : list Z) : M ser unit :=
  fuel ← get (λ s, mem_fuel (se_mem s));
  loop fuel (debug_step fmt) (0, args).
End serial.

(** ** The line as its ports show it *)

(** The 16550: bit 7 of the line control register selects the divisor latch, which
    shares its ports with the data and the interrupt enable registers. *)
Record uart := Uart { ua_dlab : bool; ua_low : Z; ua_high : Z; ua_sent : list Z }.

Definition uart_step (e : io) (u : uart) : uart :=
  match e with
  | OutB p x =>
    if p =? SERIAL_PORT + 3 then Uart (Z.testbit x 7) (ua_low u) (ua_high u) (ua_sent u)
    else if p =? SERIAL_PORT then
      if ua_dlab u then Uart true x (ua_high u) (ua_sent u) else Uart false (ua_low u) (ua_high u) (ua_sent u ++ [x])
    else if (p =? SERIAL_PORT + 1) && ua_dlab u then Uart true (ua_low u) x (ua_sent u)
    else u
  | _ => u
  end.

(** From the state [u] that the line starts in. *)
Definition uart_of (u : uart) (tr : list io) : uart := foldr uart_step u tr.

Section line.
Context `{!Devices}.

Definition line_status (tr : list io) : Z := u8 (answer8 tr (SERIAL_PORT + 5)).

(** After [k] more looks at the line status. *)
Fixpoint line_looks (k : nat) (tr : list io) : list io :=
  match k with O => tr | S k => line_looks k (InB (SERIAL_PORT + 5) (line_status tr) :: tr) end.

(** The bits [mask] are clear for [k] looks and one of them is set then. *)
Definition ready_after (mask : Z) (k : nat) (tr : list io) : Prop :=
  (∀ j, (j < k)%nat → Z.land (line_status (line_looks j tr)) mask = 0) ∧ Z.land (line_status (line_looks k tr)) mask ≠ 0.

(** The transmitter gets empty within [patience] looks. *)
Class Transmits (patience : nat) : Prop :=
  transmits : ∀ tr, ∃ k, (k < patience)%nat ∧ ready_after 32 k tr.

Lemma line_looks_uart u k tr : uart_of u (line_looks k tr) = uart_of u tr.
Proof. revert tr. induction k as [|k IH]; intros tr; simpl; [done|]. by rewrite IH. Qed.

Lemma line_wait mask k : ∀ tr fuel, (k < fuel)%nat → ready_after mask k tr →
  loop fuel (λ _ : unit, r ← (v ← port_byte_in (SERIAL_PORT + 5); mret (Z.land v mask));
    if r =? 0 then mret (inl tt) else mret (inr tt)) tt tr = Ok (tt, line_looks (S k) tr).
Proof.
  assert (Hin : ∀ tr, (v ← port_byte_in (SERIAL_PORT + 5); mret (Z.land v mask)) tr =
    Ok (Z.land (line_status tr) mask, InB (SERIAL_PORT + 5) (line_status tr) :: tr)) by done.
  induction k as [|k IH]; intros tr [|fuel] Hf [Hb Hn]; try lia.
  - apply loop_done. rewrite (bind_ok _ _ _ _ _ (Hin tr)). simpl in Hn. by rewrite (proj2 (Z.eqb_neq _ _) Hn).
  - erewrite loop_next; [|rewrite (bind_ok _ _ _ _ _ (Hin tr)); pose proof (Hb 0%nat ltac:(lia)) as H0; simpl in H0; by rewrite H0].
    rewrite IH; [done|lia|]. split; [|done]. intros j Hj. apply (Hb (S j)). lia.
Qed.
End line.

Section sending.
Context `{!Devices} (patience : nat) `{!Transmits patience}.
(** What the line was when it was switched on, the memory, and what was sent before. *)
Variables (u0 : uart) (m0 : bmem) (before : list Z) (low high : Z).

(** [text] has gone out and nothing else has happened. *)
Definition sent (text : list Z) (s : ser) : Prop :=
  se_mem s = m0 ∧ uart_of u0 (se_io s) = Uart false low high (before ++ text).

Lemma put_run b tr : is_byte b → ∃ tr', serial_put patience b tr = Ok (tt, tr') ∧
  uart_of u0 tr' = uart_step (OutB SERIAL_PORT b) (uart_of u0 tr).
Proof.
  intros Hb. destruct (transmits tr) as (k & Hk & Hr). unfold serial_put, check_can_transmit.
  rewrite (bind_ok _ _ _ _ _ (line_wait 32 k tr patience Hk Hr)). eexists. split; [reflexivity|].
  unfold SERIAL_PORT. rewrite u16_small, u8_small by (unfold is_byte in Hb; lia).
  change (uart_of u0 (?e :: ?t)) with (uart_step e (uart_of u0 t)). by rewrite line_looks_uart.
Qed.

#[local] Instance line_sink : Sink sent is_byte (putchark patience).
Proof.
  split; [|unfold is_byte; lia]. intros b Hb text s [Hm Hu]. destruct (put_run b (se_io s) Hb) as (tr & E & Hu').
  exists (Ser (se_mem s) tr). unfold putchark, DEBUGPUT, on_line. rewrite E. split; [done|]. split; [done|].
  simpl. rewrite Hu', Hu. simpl. by rewrite <- app_assoc.
Qed.

Notation sends := (outputs sent).

Lemma sends_load p b : m0 !! p = Some b → sends (on_smem (load8 p)) b [].
Proof.
  intros Hp text s [Hm Hu]. exists s. unfold on_smem. rewrite Hm, (run_load8 m0 p b Hp), app_nil_r.
  destruct s; simpl in *; subst; done.
Qed.

Lemma sends_at p l k b : bytes_at m0 p l → l !! k = Some b → sends (on_smem (load8 (p + Z.of_nat k))) b [].
Proof. intros Hb Hk. apply sends_load. by apply Hb. Qed.

Lemma sends_string_loop p f : ∀ t i, bytes_at m0 (p + i) (t ++ [0]) → Forall is_char t → (length t < f)%nat →
  sends (loop f (λ i, c ← on_smem (load8 (p + i));
    if c =? 0 then mret (inr tt) else _ ← on_line (serial_put patience c); mret (inl (i + 1))) i) tt t.
Proof.
  induction f as [|f IH]; intros t i Hb Hc Hf; [lia|]. destruct t as [|c t].
  - apply emits_done. eapply emits_then; [rewrite <- (Z.add_0_r (p + i)); by apply (sends_at _ [0] 0%nat)|apply emits_ret].
  - apply Forall_cons in Hc as [Hc Ht]. unfold is_char in Hc. change ((c :: t) ++ [0]) with ([c] ++ (t ++ [0])) in Hb.
    apply bytes_at_app in Hb as [Hb1 Hb2]. change (c :: t) with ([c] ++ t). eapply emits_next.
    + eapply emits_then; [rewrite <- (Z.add_0_r (p + i)); by apply (sends_at _ [c] 0%nat)|].
      destruct (Z.eqb_spec c 0); [lia|]. eapply emits_last; [apply (sink_put (Sink := line_sink)); unfold is_byte; lia|apply emits_ret].
    + apply IH; [by rewrite Z.add_assoc|done|simpl in Hf; lia].
Qed.

Lemma sends_string p t : cstr m0 p t → sends (serial_write patience p) tt t.
Proof.
  intros Hs text s Hw. unfold serial_write. rewrite (bind_ok _ _ _ (mem_fuel m0) s) by (unfold get; by rewrite (proj1 Hw)).
  apply (sends_string_loop p); [|apply Hs|by apply (cstr_fuel _ p)|done]. rewrite Z.add_0_r. apply Hs.
Qed.

(** What a piece of a format needs; there is no %.<n>s here. *)
Definition debug_piece_ok (x : piece) : Prop :=
  match x with
  | Lit b => is_byte b ∧ b ≠ 0 ∧ b ≠ 37
  | Percent => True
  | Char b => is_byte b
  | Str p t => cstr m0 p t
  | Cut _ _ _ => False
  | Int n => -2147483648 < n < 2147483648 ∧ reversible 10 2147483648 (Z.abs n)
  | Unsigned n => reversible 10 4294967296 n
  | Hex n => 0 ≤ n < 4294967296
  | Padded d1 d2 n => is_digit d1 ∧ is_digit d2 ∧ 0 ≤ n < 4294967296
  end.

Lemma sends_conversion x p rest : debug_piece_ok x → (∀ b, x ≠ Lit b) → bytes_at m0 p (fmt_of x) →
  sends (debug_conversion patience p (args_of x ++ rest)) (Z.of_nat (length (fmt_of x)), rest) (render x).
Proof.
  intros Hok Hnl Hb. unfold debug_conversion, debug_int, debug_unsigned, debug_hex, debug_padded. pose proof (λ k b, sends_at p (fmt_of x) k b Hb) as Hl.
  destruct x as [b| |b|q t|ds q t|n|n|n|d1 d2 n]; [by destruct (Hnl b)|..]; simpl in Hok; try done.
  all: eapply emits_then; [by apply (Hl 1%nat)|].
  - eapply emits_last; [apply sink_put; unfold is_byte; lia|apply emits_ret].
  - eapply emits_then; [apply emits_ret|]. pose proof Hok as [? ?]. simpl. rewrite u8_small by lia.
    eapply emits_last; [by apply sink_put|apply emits_ret].
  - eapply emits_then; [apply emits_ret|]. eapply emits_last; [by apply sends_string|apply emits_ret].
  - destruct Hok as (Hn & Hrv). eapply emits_then; [apply emits_ret|]. cbv beta iota. rewrite s32_u32 by lia.
    eapply emits_last; [apply emits_int; [lia|done]|apply emits_ret].
  - eapply emits_then; [apply emits_ret|]. cbv beta iota. rewrite u32_small by apply u32_range. rewrite u32_small by apply Hok.
    eapply emits_last; [apply (emits_number u32 10 4294967296); [intros; by apply u32_small|lia|done]|apply emits_ret].
  - eapply emits_then; [apply emits_ret|]. cbv beta iota. rewrite u32_small by apply u32_range. rewrite u32_small by apply Hok.
    eapply emits_last; [apply (emits_number u32 16 4294967296); [intros; by apply u32_small|lia|by apply hex_reversible]|apply emits_ret].
  - destruct Hok as (H1 & H2 & Hn). unfold is_digit in H1, H2.
    rewrite !(proj2 (Z.eqb_neq d1 _)) by lia.
    eapply emits_then; [by apply (Hl 3%nat)|]. eapply emits_then; [apply emits_ret|].
    eapply emits_then; [by apply (Hl 1%nat)|]. eapply emits_then; [by apply (Hl 2%nat)|]. cbv beta iota.
    rewrite u32_small by apply u32_range. rewrite u32_small by apply Hn. unfold s8.
    destruct (Z.ltb_spec d1 128); [|lia]. destruct (Z.ltb_spec d2 128); [|lia].
    eapply emits_last; [by apply emits_padded|apply emits_ret].
Qed.

Lemma sends_step fmt i x rest : debug_piece_ok x → bytes_at m0 (fmt + i) (fmt_of x) →
  0 ≤ i → i + Z.of_nat (length (fmt_of x)) < 4294967296 →
  sends (debug_step patience fmt (i, args_of x ++ rest)) (inl (i + Z.of_nat (length (fmt_of x)), rest)) (render x).
Proof.
  intros Hok Hb Hi Hil. unfold debug_step.
  assert (Hx : (∃ b, x = Lit b) ∨ ∀ b, x ≠ Lit b) by (destruct x; eauto). destruct Hx as [[b ->]|Hc].
  - destruct Hok as (Hp & Hb0 & H37). eapply emits_then.
    { rewrite <- (Z.add_0_r (fmt + i)). by apply (sends_at _ [b] 0%nat). }
    rewrite (proj2 (Z.eqb_neq _ _) Hb0), (proj2 (Z.eqb_neq _ _) H37). cbn [fmt_of length] in *.
    eapply emits_last; [by apply sink_put|]. rewrite u32_small by lia. apply emits_ret.
  - eapply emits_then.
    { rewrite <- (Z.add_0_r (fmt + i)). apply (sends_at _ (fmt_of x) 0%nat 37); [done|].
      destruct x as [b| | | | | | | |]; try done. by destruct (Hc b). }
    cbn [Z.eqb Pos.eqb]. eapply emits_last; [by apply sends_conversion|]. cbv beta iota. rewrite u32_small by lia. apply emits_ret.
Qed.

Lemma sends_format fmt f : ∀ ps i, Forall debug_piece_ok ps → bytes_at m0 (fmt + i) (format ps ++ [0]) →
  0 ≤ i → i + Z.of_nat (length (format ps)) < 4294967296 → (length ps < f)%nat →
  sends (loop f (debug_step patience fmt) (i, arguments ps)) tt (rendered ps).
Proof.
  induction f as [|f IH]; intros ps i Hok Hb Hi Hil Hf; [lia|]. destruct ps as [|x ps].
  - apply emits_done. unfold debug_step. eapply emits_then; [rewrite <- (Z.add_0_r (fmt + i)); by apply (sends_at _ [0] 0%nat 0)|].
    apply emits_ret.
  - apply Forall_cons in Hok as [Hx Hok]. change (format (x :: ps)) with (fmt_of x ++ format ps) in *.
    change (arguments (x :: ps)) with (args_of x ++ arguments ps). change (rendered (x :: ps)) with (render x ++ rendered ps).
    rewrite <- app_assoc in Hb. apply bytes_at_app in Hb as [Hb1 Hb2]. rewrite length_app in *.
    eapply emits_next; [apply sends_step; try done; lia|]. simpl in Hf. apply IH; try done; [|lia..]. by rewrite Z.add_assoc.
Qed.

Lemma sends_debug_printk fmt ps : Forall debug_piece_ok ps → bytes_at m0 fmt (format ps ++ [0]) →
  Z.of_nat (length (format ps)) < 4294967296 → sends (_debug_printk patience fmt (arguments ps)) tt (rendered ps).
Proof.
  intros Hok Hb Hl text s Hw. unfold _debug_printk. rewrite (bind_ok _ _ _ (mem_fuel m0) s) by (unfold get; by rewrite (proj1 Hw)).
  pose proof (bytes_at_size _ _ _ Hb) as Hs. rewrite length_app in Hs. pose proof (format_length ps). unfold mem_fuel.
  apply (sends_format fmt); try done; [by rewrite Z.add_0_r|simpl in Hs; lia].
Qed.
End sending.

(** ** Theorems *)

(** A line whose transmitter is empty at every second look. *)
Definition demo_line : Devices :=
  {| answer8 tr p := match tr with InB _ 0 :: _ => 32 | _ => 0 end; answer16 _ _ := 0; answer32 _ _ := 0 |}.

Lemma demo_transmits : Transmits (H := demo_line) 2.
Proof.
  intros tr. assert (Hc : line_status (H := demo_line) tr = 32 ∨ line_status (H := demo_line) tr = 0).
  { unfold line_status. simpl. destruct tr as [|[? v| | | | | ] ?]; try (by right). destruct v; [by left|by right..]. }
  destruct Hc as [E|E].
  - exists 0%nat. split; [lia|]. split; [lia|]. simpl. by rewrite E.
  - exists 1%nat. split; [lia|]. split.
    + intros j Hj. assert (j = 0)%nat as -> by lia. simpl. by rewrite E.
    + simpl. by rewrite E.
Qed.

(** The format [n=%i %08x] at 100. *)
Definition demo_debug : list piece := [Lit 110; Lit 61; Int (-42); Lit 32; Padded 48 56 48879].
Definition demo_debug_mem : bmem := write_at ∅ 100 (format demo_debug ++ [0]).



(** The speed of the line.  [init_serial] means to set the divisor to 3, but it never
    selects the divisor latch: on a line in its normal mode the 3 is sent as a character
    in front of the greeting, and the divisor stays what it was. *)
Theorem init_serial_divisor_lost `{!Devices} patience `{!Transmits patience} lit u s :
  ua_dlab (uart_of u (se_io s)) = false → cstr (se_mem s) (lit NEWLINE) NEWLINE →
  cstr (se_mem s) (lit SERIAL_INITIALISED) SERIAL_INITIALISED →
  let v := uart_of u (se_io s) in
  ∃ s', init_serial patience lit s = Ok (tt, s') ∧ se_mem s' = se_mem s ∧
    uart_of u (se_io s') = Uart false (ua_low v) (ua_high v) (ua_sent v ++ [3] ++ NEWLINE ++ SERIAL_INITIALISED).
Proof.
  intros Hd Hn Hg v. set (outs := [OutB 1020 11; OutB 1018 199; OutB 1019 3; OutB 1017 0; OutB 1016 3; OutB 1017 0]).
  assert (Hv : uart_of u (outs ++ se_io s) = Uart false (ua_low v) (ua_high v) ((ua_sent v ++ [3]) ++ [])).
  { unfold uart_of. rewrite foldr_app. fold (uart_of u (se_io s)). fold v in Hd |- *. rewrite app_nil_r. destruct v. simpl in Hd. by subst. }
  pose proof (λ p t, sends_string patience u (se_mem s) (ua_sent v ++ [3]) (ua_low v) (ua_high v) p t) as Hs.
  destruct (Hs _ _ Hn [] (Ser (se_mem s) (outs ++ se_io s)) (conj eq_refl Hv)) as (s1 & E1 & Hw1).
  destruct (Hs _ _ Hg _ s1 Hw1) as (s2 & E2 & Hm2 & Hu2). exists s2. split_and!; [|done|].
  - unfold init_serial. do 6 (erewrite bind_ok; [|reflexivity]). by rewrite (bind_ok _ _ _ _ _ E1).
  - rewrite Hu2, <- !app_assoc. done.
Qed.

Lemma init_serial_divisor_lost_witness :
  let H := demo_line in
  let lit := λ t, if decide (t = NEWLINE) then 100 else 200 in
  let m := write_at (write_at ∅ 100 (NEWLINE ++ [0])) 200 (SERIAL_INITIALISED ++ [0]) in
  ∃ s', init_serial 2 lit (Ser m []) = Ok (tt, s') ∧ se_mem s' = m ∧
    uart_of (Uart false 12 0 []) (se_io s') = Uart false 12 0 ([] ++ [3] ++ NEWLINE ++ SERIAL_INITIALISED).
Proof.
  intros H lit m.
  refine (init_serial_divisor_lost (H := demo_line) 2 (Transmits0 := demo_transmits) lit (Uart false 12 0 []) (Ser m []) eq_refl _ _).
  - split; [|repeat constructor; lia]. apply bytes_at_write; [by left|apply write_at_in].
  - split; [apply write_at_in|repeat constructor; lia].
Defined.
