(* ===== verification/Boot.v ===== *)
(** * The boot loader (bootloader/stage2)

    The second stage finds the active partition, reads the kernel's inode from the ext2
    file system on it and copies the file to its address.  Blocks are read by
    load_block.asm with BIOS interrupt 0x13, a parameter; KERNEL_INODE and KERNEL_ENTRY
    are given when it is compiled.  Messages are left out of the
    functions that load; [boot_print] and [boot_print_int] write them.  The fields of the structures on disk are at their offsets in memory. *)
From S2P Require Import Prelude LibK Disk Format.

Record boot := Boot { bt_mem : bmem; bt_place : Z; bt_offset : Z }.

Definition on_bmem {A} (c : M bmem A) : M boot A := λ s,
  match c (bt_mem s) with
  | Ok (a, m) => Ok (a, Boot m (bt_place s) (bt_offset s))
  | Fault => Fault
  | Hang => Hang
  end.

(** Drive, first block and count, to the bytes or an error. *)
Class Bios := { int13 : Z → Z → Z → option (list Z) }.

Definition SUPERBLOCK_POS : Z := 1024.
Definition BOOT_EXT2_SIGNATURE : Z := 61267.
Definition INODE_SIZE : Z := 128.
Definition PLACEMENT_START : Z := 61440.
Definition PART_OFFSET : Z := 31744 + 446.
Definition FLAG_ACTIVE : Z := Z.shiftl 1 7.
Definition FS_TYPE_EXT2 : Z := 1.

(** Sizes and offsets of superblock_t, inode_t, bgd_t and partition_t. *)
Definition BSB_SIZE : Z := 84.
Definition BSB_BLOCK_SIZE_FRAG : Z := 24.
Definition BSB_INODES_IN_BLOCKGROUP : Z := 40.
Definition BSB_SIGNATURE : Z := 56.
Definition BBGD_SIZE : Z := 32.
Definition BBGD_START_INODE_TABLE : Z := 8.
Definition INODE_FILE_SIZE : Z := 4.
Definition INODE_DIRECT : Z := 40.
Definition INODE_SINGLE_INDIRECT : Z := 88.
Definition PARTITION_SIZE : Z := 16.
Definition PART_START_LBA : Z := 8.
Definition PART_TOTAL_SECTS : Z := 12.

(** ** mem/malloc.c, mem/memcpy.c, math/pow.c *)

Definition boot_malloc (size : Z) (aligned : bool) : M boot Z :=
  _ ← (if aligned then modify (λ s, Boot (bt_mem s) (u32 (Z.land (bt_place s) 4294963200 + 4096)) (bt_offset s)) else mret tt);
  _ ← modify (λ s, Boot (bt_mem s) (u32 (bt_place s + size)) (bt_offset s));
  p ← get bt_place;
  mret (u32 (p - size)).

Definition boot_free (size : Z) : M boot unit := modify (λ s, Boot (bt_mem s) (u32 (bt_place s - size)) (bt_offset s)).

Definition boot_memcpy (destptr srcptr size : Z) : M boot Z :=
  _ ← loop (S (Z.to_nat size)) (λ i,
        if i <? size then
          b ← on_bmem (load8 (srcptr + i));
          _ ← on_bmem (store8 (destptr + i) b);
          mret (inl (i + 1))
        else mret (inr tt)) 0;
  mret destptr.

Fixpoint boot_pow_loop (n : nat) (x r : Z) : Z :=
  match n with O => r | S n => boot_pow_loop n x (s32 (r * x)) end.

Definition boot_pow (x n : Z) : Z := boot_pow_loop (Z.to_nat (n - 1)) x x.

(** ** print_pm.c *)

Definition VIDEO_MEM : Z := 753664.
Definition VIDEO_COLS : Z := 80.

(** The memory and [loc]. *)
Record vid := Vid { vi_mem : bmem; vi_loc : Z }.

Definition on_vmem {A} (c : M bmem A) : M vid A := λ s,
  match c (vi_mem s) with
  | Ok (a, m) => Ok (a, Vid m (vi_loc s))
  | Fault => Fault
  | Hang => Hang
  end.

Definition set_loc (l : Z) : M vid unit := modify (λ s, Vid (vi_mem s) l).

Definition boot_print_char (c : Z) : M vid unit :=
  loc ← get vi_loc;
  _ ← on_vmem (store8 (VIDEO_MEM + loc) c);
  _ ← on_vmem (store8 (VIDEO_MEM + (loc + 1)) 15);
  set_loc (u32 (loc + 2)).

Definition boot_print (txt : Z) : M vid unit :=
  fuel ← get (λ s, mem_fuel (vi_mem s));
  loop fuel (λ i,
    c ← on_vmem (load8 (txt + i));
    if c =? 0 then mret (inr tt)
    else
      _ ← (if c =? 10 then
             loc ← get vi_loc;
             set_loc (u32 (loc + (VIDEO_COLS - (loc / 2) mod VIDEO_COLS) * 2))
           else c ← on_vmem (load8 (txt + i)); boot_print_char c);
      mret (inl (i + 1))) 0.

(** A negative number is printed as 0. *)
Definition boot_print_int (integer : Z) : M vid unit := print_number boot_print_char s32 10 integer.

Section ext2.
Context `{!Bios}.
Variables KERNEL_INODE KERNEL_ENTRY : Z.

(** load_block.asm: the transfer address is segment:offset; after an error there is only
    a message. *)
Definition load_block (drive startlba amount low_loc high_loc : Z) : M boot unit :=
  match int13 (u8 drive) (u32 startlba) (u16 amount) with
  | Some bs => on_bmem (store_bytes (16 * u16 high_loc + u16 low_loc) bs)
  | None => mret tt
  end.

(** ** fs/ext2.c *)

(** [1024 << sb->block_size_frag] *)
Definition sb_block_size (sb : Z) : M boot Z :=
  frag ← on_bmem (load32 (sb + BSB_BLOCK_SIZE_FRAG));
  mret (u32 (Z.shiftl 1024 frag)).

Definition _inode_offset_block (inode_index sb : Z) : M boot Z :=
  n ← on_bmem (load32 (sb + BSB_INODES_IN_BLOCKGROUP));
  bs ← sb_block_size sb;
  k ← umod (u32 (inode_index - 1)) n;
  udiv (u32 (k * INODE_SIZE)) bs.

Definition _inode_offset_rel_to_block (inode_index sb : Z) : M boot Z :=
  n ← on_bmem (load32 (sb + BSB_INODES_IN_BLOCKGROUP));
  bs ← sb_block_size sb;
  k ← umod (u32 (inode_index - 1)) n;
  r ← umod k (bs / INODE_SIZE);
  mret (u32 (r * INODE_SIZE)).

Definition get_inode_ref (inode_index startinode blocksize sb disk : Z) : M boot Z :=
  bs ← sb_block_size sb;
  buf ← boot_malloc bs false;
  k ← _inode_offset_block inode_index sb;
  count ← udiv bs blocksize;
  off ← get bt_offset;
  _ ← load_block disk (u32 (off + u32 (u32 (k + startinode) * count))) count buf 0;
  r ← _inode_offset_rel_to_block inode_index sb;
  mret (u32 (buf + r)).

Definition load_ext2_block (block placement_address sb bs disk : Z) : M boot unit :=
  size ← sb_block_size sb;
  count ← udiv size bs;
  off ← get bt_offset;
  load_block disk (u32 (off + u32 (block * count))) count (placement_address mod 16) (placement_address / 16).

Definition _handle_indirirect_bp (indirect_bp_index block sb bs disk : Z) : M boot Z :=
  size ← sb_block_size sb;
  indirect_bp ← boot_malloc size true;
  _ ← load_ext2_block indirect_bp_index indirect_bp sb bs disk;
  ret ← on_bmem (load32 (indirect_bp + 4 * block));
  _ ← boot_free 4096;
  mret ret.

Definition _ext2_get_block_loc (inode block sb blocksize disk : Z) : M boot Z :=
  if block <? 12 then on_bmem (load32 (inode + INODE_DIRECT + 4 * block))
  else
    size ← sb_block_size sb;
    if block <? size / 4 + 12 then
      p ← on_bmem (load32 (inode + INODE_SINGLE_INDIRECT));
      _handle_indirirect_bp p (block - 12) sb blocksize disk
    else if block <? u32 (boot_pow (s32 (size / 4)) 2) + 12 then mret 0
    else mret 0.

(** The loop over the blocks: where the next block goes and how often a part was copied. *)
Definition load_kernel_step (kernel_inode sb blocksize disk total_block_count : Z) :
    Z * Z * Z → M boot (Z * Z * Z + Z * Z) := λ '(i, placement_address, copy_iter),
  if i <? total_block_count then
    x ← _ext2_get_block_loc kernel_inode i sb blocksize disk;
    if x =? 0 then mret (inr (placement_address, copy_iter))
    else
      _ ← load_ext2_block x placement_address sb blocksize disk;
      size ← sb_block_size sb;
      let placement_address := u32 (placement_address + size) in
      if placement_address =? u32 (placement_address + 512 * 1024) then
        _ ← boot_memcpy (u32 (KERNEL_ENTRY + 512 * 1024 * copy_iter)) PLACEMENT_START (512 * 1024);
        mret (inl (i + 1, PLACEMENT_START, u32 (copy_iter + 1)))
      else mret (inl (i + 1, placement_address, copy_iter))
  else mret (inr (placement_address, copy_iter)).

Definition _load_kernel (kernel_inode sb blocksize disk : Z) : M boot unit :=
  file_size ← on_bmem (load32 (kernel_inode + INODE_FILE_SIZE));
  size ← sb_block_size sb;
  total_block_count ← udiv file_size size;
  '(placement_address, copy_iter) ←
    loop (S (Z.to_nat total_block_count)) (load_kernel_step kernel_inode sb blocksize disk total_block_count) (0, PLACEMENT_START, 0);
  _ ← boot_memcpy (u32 (KERNEL_ENTRY + 512 * 1024 * copy_iter)) PLACEMENT_START (u32 (placement_address - PLACEMENT_START));
  mret tt.

(** At the end there is no return statement; no caller looks at the result. *)
Definition load_ext2_kernel (startlba disk blocksize_phys : Z) : M boot Z :=
  pos ← udiv SUPERBLOCK_POS blocksize_phys;
  let superblock_lba := u32 (startlba + pos) in
  _ ← modify (λ s, Boot (bt_mem s) (bt_place s) startlba);
  sb ← boot_malloc BSB_SIZE true;
  bgd ← boot_malloc BBGD_SIZE false;
  _ ← load_block disk superblock_lba 1 sb 0;
  size ← sb_block_size sb;
  d ← udiv size blocksize_phys;
  _ ← load_block disk (u32 (superblock_lba + d)) 1 bgd 0;
  signature ← on_bmem (load16 (sb + BSB_SIGNATURE));
  if negb (signature =? BOOT_EXT2_SIGNATURE) then mret 1
  else
    start ← on_bmem (load32 (bgd + BBGD_START_INODE_TABLE));
    inode_refrence ← get_inode_ref KERNEL_INODE start blocksize_phys sb disk;
    _ ← _load_kernel inode_refrence sb blocksize_phys disk;
    mret 0.

(** ** loadkernel.c *)

Definition determine_fs (startlba total_sects disk blocksize : Z) : Z := FS_TYPE_EXT2.

Definition load_kernel (startlba total_sects disk blocksize : Z) : M boot Z :=
  if determine_fs startlba total_sects disk blocksize =? FS_TYPE_EXT2 then
    _ ← load_ext2_kernel startlba disk blocksize;
    mret 0
  else mret 1.

(** The number of the partition when it jumps to the kernel; it stops without one. *)
Definition findkernel (disk blocksize : Z) : M boot Z :=
  loop 5 (λ i,
    if i <? 4 then
      let part := PART_OFFSET + PARTITION_SIZE * i in
      flags ← on_bmem (load8 part);
      if negb (Z.land flags FLAG_ACTIVE =? 0) then
        start ← on_bmem (load32 (part + PART_START_LBA));
        sects ← on_bmem (load32 (part + PART_TOTAL_SECTS));
        r ← load_kernel start sects disk blocksize;
        if negb (r =? 0) then hang else mret (inr i)
      else mret (inl (i + 1))
    else hang) 0.
End ext2.

(** ** Text on the screen *)

(** White characters. *)
Definition white (t : list Z) : list Z := concat ((λ c, [c; 15]) <$> t).

Lemma white_length t : length (white t) = (2 * length t)%nat.
Proof.
  induction t as [|c t IH]; [done|]. change (white (c :: t)) with ([c; 15] ++ white t).
  rewrite length_app, IH. simpl. lia.
Qed.

Lemma print_char_run c m l : 0 ≤ l < 65536 → is_byte c → mapped m (VIDEO_MEM + l) 2 →
  boot_print_char c (Vid m l) = Ok (tt, Vid (write_at m (VIDEO_MEM + l) [c; 15]) (l + 2)).
Proof.
  intros Hl Hc Hm. unfold boot_print_char. rewrite (bind_ok _ _ _ l (Vid m l)) by done.
  rewrite (bind_ok _ _ _ tt (Vid (<[VIDEO_MEM + l := c]> m) l)).
  2: { unfold on_vmem. cbn [vi_mem vi_loc]. rewrite run_store8 by (apply Hm; lia). by rewrite u8_small. }
  rewrite (bind_ok _ _ _ tt (Vid (write_at m (VIDEO_MEM + l) [c; 15]) l)).
  2: { unfold on_vmem. cbn [vi_mem vi_loc]. rewrite run_store8 by (apply mapped_insert with (n := 2) (p := VIDEO_MEM + l); [done|lia]).
       rewrite <- write_at_cons, Z.add_assoc. done. }
  unfold set_loc, modify. cbn [vi_mem]. by rewrite u32_small by lia.
Qed.

Lemma print_loop p t m f : ∀ i l, (i + length t < f + i)%nat → bytes_at m (p + Z.of_nat i) (t ++ [0]) → Forall is_char t → 10 ∉ t →
  0 ≤ l → l + 2 * Z.of_nat (length t) ≤ 65536 → mapped m (VIDEO_MEM + l) (2 * Z.of_nat (length t)) →
  p + Z.of_nat i + Z.of_nat (length t) < VIDEO_MEM →
  loop f (λ i, c ← on_vmem (load8 (p + i));
    if c =? 0 then mret (inr tt)
    else
      _ ← (if c =? 10 then
             loc ← get vi_loc;
             set_loc (u32 (loc + (VIDEO_COLS - (loc / 2) mod VIDEO_COLS) * 2))
           else c ← on_vmem (load8 (p + i)); boot_print_char c);
      mret (inl (i + 1))) (Z.of_nat i) (Vid m l) =
  Ok (tt, Vid (write_at m (VIDEO_MEM + l) (white t)) (l + 2 * Z.of_nat (length t))).
Proof.
  revert t m. induction f as [|f IH]; intros t m i l Hf Hb Hc Hn Hl Hl2 Hm Hp; [lia|].
  assert (Hld : ∀ b, (t ++ [0]) !! 0%nat = Some b → on_vmem (load8 (p + Z.of_nat i)) (Vid m l) = Ok (b, Vid m l)).
  { intros b Hx. unfold on_vmem. cbn [vi_mem]. rewrite (run_load8 _ _ b); [done|]. rewrite <- (Z.add_0_r (_ + _)). exact (Hb 0%nat b Hx). }
  destruct t as [|c t].
  - apply loop_done. rewrite (bind_ok _ _ _ _ _ (Hld 0 eq_refl)). simpl. by rewrite Z.add_0_r.
  - apply Forall_cons in Hc as [Hc Ht]. unfold is_char in Hc. apply not_elem_of_cons in Hn as [Hn10 Hn]. simpl length in *.
    erewrite loop_next.
    2: { rewrite (bind_ok _ _ _ _ _ (Hld c eq_refl)). destruct (Z.eqb_spec c 0); [lia|]. destruct (Z.eqb_spec c 10); [congruence|].
         erewrite bind_ok; [reflexivity|]. rewrite (bind_ok _ _ _ _ _ (Hld c eq_refl)). apply print_char_run; [lia|split; lia|].
         intros q Hq. apply Hm. lia. }
    change ((c :: t) ++ [0]) with ([c] ++ (t ++ [0])) in Hb. apply bytes_at_app in Hb as [_ Hb]. simpl in Hb.
    replace (Z.of_nat i + 1) with (Z.of_nat (S i)) by lia. rewrite (IH t); try done; try lia.
    + change (white (c :: t)) with ([c; 15] ++ white t). rewrite <- write_at_app_l. simpl length.
      replace (VIDEO_MEM + (l + 2)) with (VIDEO_MEM + l + Z.of_nat 2) by lia. do 3 f_equal. lia.
    + apply bytes_at_write; [left; rewrite length_app; simpl; lia|]. by replace (p + Z.of_nat (S i)) with (p + Z.of_nat i + 1) by lia.
    + apply mapped_write. intros q Hq. apply Hm. lia.
Qed.

(** Text without newlines appears white on black from the cursor on, and the cursor moves
    behind it. *)
Theorem boot_print_shows p t m l : cstr m p t → 10 ∉ t → 0 ≤ l → l + 2 * Z.of_nat (length t) ≤ 65536 →
  mapped m (VIDEO_MEM + l) (2 * Z.of_nat (length t)) → p + Z.of_nat (length t) < VIDEO_MEM →
  boot_print p (Vid m l) = Ok (tt, Vid (write_at m (VIDEO_MEM + l) (white t)) (l + 2 * Z.of_nat (length t))).
Proof.
  intros Hs Hn Hl Hl2 Hm Hp. unfold boot_print. rewrite (bind_ok _ _ _ (mem_fuel m) (Vid m l)) by done.
  apply (print_loop p t m (mem_fuel m) 0 l); try done; [|rewrite Z.add_0_r; apply Hs|apply Hs|lia].
  pose proof (cstr_fuel _ _ _ Hs). lia.
Qed.

(** ** The kernel on disk *)

Section kernel.
Context `{!Bios}.
Variables (KERNEL_INODE KERNEL_ENTRY : Z) (disk : list Z) (drive phys count start : Z).
Hypothesis disk_bytes : Forall is_byte disk.
Hypothesis phys_blocks : 1024 = count * phys.
Hypothesis count_range : 1 ≤ count ≤ 128.
Hypothesis start_range : 0 ≤ start.
Hypothesis disk_size : Z.of_nat (length disk) ≤ 4294967296 * phys.
(** The BIOS delivers the disk's blocks. *)
Hypothesis bios_reads : ∀ lba n, 0 ≤ lba → 0 ≤ n ≤ 128 → (lba + n) * phys ≤ Z.of_nat (length disk) →
  int13 (u8 drive) lba n = Some (slice disk (lba * phys) (n * phys)).

(** A block of the file system on the partition. *)
Definition fsblock (b : Z) : list Z := slice disk (start * phys + 1024 * b) 1024.
Definition on_disk (b : Z) : Prop := 0 ≤ b ∧ start * phys + 1024 * (b + 1) ≤ Z.of_nat (length disk).

(** Where block [i] of the file with this inode is. *)
Definition file_block (inode : list Z) (i : Z) : Z :=
  if i <? 12 then u32_at inode (INODE_DIRECT + 4 * i)
  else u32_at (fsblock (u32_at inode INODE_SINGLE_INDIRECT)) (4 * (i - 12)).

(** The first [n] blocks of the file. *)
Definition file_data (inode : list Z) (n : Z) : list Z := concat ((λ i, fsblock (file_block inode i)) <$> seqZ 0 n).

Lemma phys_pos : 0 < phys.
Proof. nia. Qed.

Lemma fsblock_length b : on_disk b → Z.of_nat (length (fsblock b)) = 1024.
Proof. intros [Hb Hl]. unfold fsblock. pose proof phys_pos. rewrite slice_length; nia. Qed.

Lemma fsblock_bytes b : Forall is_byte (fsblock b).
Proof. by apply slice_bytes. Qed.

Lemma file_data_snoc inode n : 0 ≤ n → file_data inode (n + 1) = file_data inode n ++ fsblock (file_block inode n).
Proof.
  intros Hn. unfold file_data. rewrite seqZ_app by lia. rewrite fmap_app, concat_app. f_equal. simpl. rewrite app_nil_r.
  by replace (0 + n) with n by lia.
Qed.

Lemma file_data_length inode n : (∀ i, 0 ≤ i < n → on_disk (file_block inode i)) → 0 ≤ n →
  Z.of_nat (length (file_data inode n)) = 1024 * n.
Proof.
  intros Hd Hn. pattern n. revert n Hn Hd. refine (natlike_ind _ _ _); [done|]. intros n Hn IH Hd.
  unfold Z.succ. rewrite file_data_snoc, length_app, Nat2Z.inj_add, fsblock_length by (try apply Hd; lia).
  rewrite IH by (intros; apply Hd; lia). lia.
Qed.

(** *** Reading blocks *)

Lemma bmem_run {A} (c : M bmem A) s a m : c (bt_mem s) = Ok (a, m) → on_bmem c s = Ok (a, Boot m (bt_place s) (bt_offset s)).
Proof. unfold on_bmem. by intros ->. Qed.

Lemma bmem_read {A} (c : M bmem A) s a : c (bt_mem s) = Ok (a, bt_mem s) → on_bmem c s = Ok (a, s).
Proof. intros E. rewrite (bmem_run _ _ _ _ E). by destruct s. Qed.

Lemma boot_block_run lba n p s : 0 ≤ lba < 4294967296 → 0 ≤ n ≤ 128 → (lba + n) * phys ≤ Z.of_nat (length disk) →
  0 ≤ p < 1048576 → mapped (bt_mem s) p (n * phys) →
  load_block drive lba n (p mod 16) (p / 16) s =
    Ok (tt, Boot (write_at (bt_mem s) p (slice disk (lba * phys) (n * phys))) (bt_place s) (bt_offset s)).
Proof.
  intros Hl Hn Hd Hp Hm. unfold load_block. rewrite u32_small, (u16_small n) by lia. rewrite bios_reads by lia.
  rewrite !u16_small by (Z.to_euclidean_division_equations; lia). replace (16 * (p / 16) + p mod 16) with p by (pose proof (Z.div_mod p 16); lia).
  apply bmem_run, store_bytes_run; [|by apply slice_bytes]. pose proof phys_pos. rewrite slice_length by nia. done.
Qed.

(** A low address can also be given as the offset. *)
Lemma load_low_run lba n p s : 0 ≤ lba < 4294967296 → 0 ≤ n ≤ 128 → (lba + n) * phys ≤ Z.of_nat (length disk) →
  0 ≤ p < 65536 → mapped (bt_mem s) p (n * phys) →
  load_block drive lba n p 0 s =
    Ok (tt, Boot (write_at (bt_mem s) p (slice disk (lba * phys) (n * phys))) (bt_place s) (bt_offset s)).
Proof.
  intros Hl Hn Hd Hp Hm. unfold load_block. rewrite u32_small, (u16_small n) by lia. rewrite bios_reads by lia.
  change (u16 0) with 0. rewrite u16_small by lia. change (16 * 0 + p) with p.
  apply bmem_run, store_bytes_run; [|by apply slice_bytes]. pose proof phys_pos. rewrite slice_length by nia. done.
Qed.

(** Blocks of 1024 bytes. *)
Definition small_blocks (m : bmem) (sb : Z) : Prop := bytes_at m (sb + BSB_BLOCK_SIZE_FRAG) [0; 0; 0; 0].

Lemma block_size_run sb s : small_blocks (bt_mem s) sb → sb_block_size sb s = Ok (1024, s).
Proof.
  intros Hb. unfold sb_block_size. rewrite (bind_ok _ _ _ 0 s); [done|]. apply bmem_read.
  rewrite <- (Z.add_0_r (sb + _)). by rewrite (load32_at _ _ _ 0 Hb).
Qed.

Lemma count_run s : udiv 1024 phys s = Ok (count, s : boot).
Proof. pose proof phys_pos. rewrite udiv_ok by lia. rewrite phys_blocks, Z.div_mul by lia. done. Qed.

Lemma on_disk_lba b : on_disk b → 0 ≤ start + b * count < 4294967296 ∧ (start + b * count + count) * phys ≤ Z.of_nat (length disk) ∧
  0 ≤ b * count < 4294967296.
Proof. intros [Hb Hl]. pose proof phys_pos. nia. Qed.

Lemma ext2_block_run b p sb s : small_blocks (bt_mem s) sb → bt_offset s = start → on_disk b → 0 ≤ p < 1048576 → mapped (bt_mem s) p 1024 →
  load_ext2_block b p sb phys drive s = Ok (tt, Boot (write_at (bt_mem s) p (fsblock b)) (bt_place s) (bt_offset s)).
Proof.
  intros Hs Ho Hb Hp Hm. unfold load_ext2_block. rewrite (bind_ok _ _ _ _ _ (block_size_run sb s Hs)), (bind_ok _ _ _ _ _ (count_run s)).
  rewrite (bind_ok _ _ _ start s) by (unfold get; by rewrite Ho). destruct (on_disk_lba b Hb) as (H1 & H2 & H3).
  rewrite !(u32_small) by (rewrite ?u32_small; lia). rewrite boot_block_run; [|done|lia|done|done|by rewrite <- phys_blocks].
  unfold fsblock. rewrite <- phys_blocks. replace ((start + b * count) * phys) with (start * phys + 1024 * b); [done|]. rewrite phys_blocks. lia.
Qed.
Lemma boot_memcpy_loop dst src bs m pl off j : ∀ i, i + Z.of_nat j = Z.of_nat (length bs) → 0 ≤ i →
  bytes_at m src bs → Forall is_byte bs → mapped m dst (Z.of_nat (length bs)) → disjoint_blocks src (Z.of_nat (length bs)) dst (Z.of_nat (length bs)) →
  loop (S j) (λ i, if i <? Z.of_nat (length bs) then
      b ← on_bmem (load8 (src + i)); _ ← on_bmem (store8 (dst + i) b); mret (inl (i + 1)) else mret (inr tt)) i
    (Boot (write_at m dst (take (Z.to_nat i) bs)) pl off) = Ok (tt, Boot (write_at m dst bs) pl off).
Proof.
  induction j as [|j IH]; intros i Hij Hi Hb Hby Hm Hd.
  - apply loop_done. destruct (Z.ltb_spec i (Z.of_nat (length bs))); [lia|]. by rewrite take_ge by lia.
  - assert (Hl : (length (take (Z.to_nat i) bs) = Z.to_nat i)%nat) by (rewrite length_take; lia).
    assert (Hbs : bytes_at (write_at m dst (take (Z.to_nat i) bs)) src bs).
    { apply bytes_at_write; [|done]. rewrite Hl. destruct Hd; [left|right]; lia. }
    erewrite loop_next; [apply (IH (i + 1)); try done; lia|]. destruct (Z.ltb_spec i (Z.of_nat (length bs))); [|lia].
    erewrite bind_ok; [|apply bmem_read; apply load8_at; [exact Hbs|lia]].
    pose proof (byte_at_range bs i Hby) as Hr. erewrite bind_ok; [reflexivity|]. erewrite bmem_run; [reflexivity|].
    cbn [bt_mem]. rewrite run_store8 by (apply (mapped_write _ dst (Z.of_nat (length bs))); [done|lia]).
    rewrite u8_small by apply Hr. do 2 f_equal. replace (Z.to_nat (i + 1)) with (S (Z.to_nat i)) by lia.
    assert (E : bs !! Z.to_nat i = Some (byte_at bs i)).
    { unfold byte_at. destruct (lookup_lt_is_Some_2 bs (Z.to_nat i)) as [b ->]; [lia|done]. }
    rewrite (take_S_r bs _ _ E), write_at_snoc, Hl, Z2Nat.id by lia. done.
Qed.

Lemma boot_memcpy_run dst src bs s : bytes_at (bt_mem s) src bs → Forall is_byte bs → mapped (bt_mem s) dst (Z.of_nat (length bs)) →
  disjoint_blocks src (Z.of_nat (length bs)) dst (Z.of_nat (length bs)) →
  boot_memcpy dst src (Z.of_nat (length bs)) s = Ok (dst, Boot (write_at (bt_mem s) dst bs) (bt_place s) (bt_offset s)).
Proof.
  intros Hb Hby Hm Hd. unfold boot_memcpy. erewrite bind_ok; [reflexivity|]. rewrite Nat2Z.id.
  pose proof (boot_memcpy_loop dst src bs (bt_mem s) (bt_place s) (bt_offset s) (length bs) 0) as Hl. simpl in Hl.
  destruct s. apply Hl; done.
Qed.
(** *** Loading the file *)

(** The allocator stands in the page at [A], so a block of pointers goes to the page after
    it; the file's blocks go to [PLACEMENT_START] and on.  Nothing else changes. *)
Section loading.
Variables (A sb ino n : Z) (inode : list Z) (m0 : bmem).
Hypothesis A_page : A mod 4096 = 0.
Hypothesis A_range : 0 ≤ A ∧ A + 5120 ≤ PLACEMENT_START.
Hypothesis n_range : 0 ≤ n ≤ 268.
Hypothesis inode_length : 92 ≤ Z.of_nat (length inode).
Hypothesis inode_bytes : Forall is_byte inode.
Hypothesis blocks_on_disk : ∀ i, 0 ≤ i < n → on_disk (file_block inode i) ∧ file_block inode i ≠ 0.
Hypothesis indirect_on_disk : 12 < n → on_disk (u32_at inode INODE_SINGLE_INDIRECT).

Definition scratch (q : Z) : Prop := A + 4096 ≤ q < A + 5120 ∨ PLACEMENT_START ≤ q < PLACEMENT_START + 1024 * n.

Hypothesis sb_kept : ∀ q, sb + BSB_BLOCK_SIZE_FRAG ≤ q < sb + BSB_BLOCK_SIZE_FRAG + 4 → ¬ scratch q.
Hypothesis ino_kept : ∀ q, ino ≤ q < ino + Z.of_nat (length inode) → ¬ scratch q.
Hypothesis sb_small : small_blocks m0 sb.
Hypothesis ino_bytes : bytes_at m0 ino inode.

Record booting (i : Z) (s : boot) : Prop := Booting {
  bo_offset : bt_offset s = start;
  bo_page : A ≤ bt_place s < A + 4096;
  bo_kept : ∀ q, ¬ scratch q → bt_mem s !! q = m0 !! q;
  bo_mapped : ∀ q, is_Some (m0 !! q) → is_Some (bt_mem s !! q);
  bo_loaded : bytes_at (bt_mem s) PLACEMENT_START (file_data inode i)
}.

Lemma booting_small i s : booting i s → small_blocks (bt_mem s) sb.
Proof. intros Hb. eapply bytes_at_frame; [|exact sb_small]. intros q Hq. apply (bo_kept _ _ Hb), sb_kept. simpl in Hq. lia. Qed.

Lemma booting_inode i s : booting i s → bytes_at (bt_mem s) ino inode.
Proof. intros Hb. eapply bytes_at_frame; [|exact ino_bytes]. intros q Hq. apply (bo_kept _ _ Hb), ino_kept. lia. Qed.

Lemma page_of x : A ≤ x < A + 4096 → 0 ≤ x < 4294967296 → Z.land x 4294963200 = A.
Proof.
  intros Hx Hr. rewrite land_page_base by lia. replace (x mod 4096) with (x - A); [lia|].
  apply (Z.mod_unique _ _ (A / 4096)); [lia|]. pose proof (Z.div_mod A 4096). lia.
Qed.

Lemma boot_indirect_run i k s : booting i s → 0 ≤ i ≤ n → mapped m0 (A + 4096) 1024 → on_disk (u32_at inode INODE_SINGLE_INDIRECT) → 0 ≤ k < 256 →
  ∃ s', _handle_indirirect_bp (u32_at inode INODE_SINGLE_INDIRECT) k sb phys drive s =
    Ok (u32_at (fsblock (u32_at inode INODE_SINGLE_INDIRECT)) (4 * k), s') ∧ booting i s'.
Proof.
  intros Hb Hi Hm Hd Hk. set (x := u32_at inode INODE_SINGLE_INDIRECT) in *. pose proof Hb as [Ho Hp Hkp Hmp Hld].
  unfold PLACEMENT_START in *. unfold _handle_indirirect_bp.
  rewrite (bind_ok _ _ _ _ _ (block_size_run sb s (booting_small i s Hb))).
  set (s1 := Boot (bt_mem s) (A + 5120) (bt_offset s)).
  rewrite (bind_ok _ _ _ (A + 4096) s1).
  2: { unfold boot_malloc, mbind, M_bind, modify, get. cbn. rewrite (page_of (bt_place s)) by lia. rewrite (u32_small (A + 4096)) by lia.
       rewrite !u32_small by (rewrite ?u32_small; lia). unfold mret, M_ret, s1. do 2 f_equal; [lia|]. f_equal. lia. }
  assert (Hm1 : mapped (bt_mem s1) (A + 4096) 1024) by (intros q Hq; by apply Hmp, Hm).
  rewrite (bind_ok _ _ _ _ _ (ext2_block_run x (A + 4096) sb s1 (booting_small i s Hb) Ho Hd ltac:(lia) Hm1)).
  pose proof (fsblock_length x Hd) as Hlen. set (s2 := Boot _ _ _).
  rewrite (bind_ok _ _ _ (u32_at (fsblock x) (4 * k)) s2).
  2: { apply bmem_read. apply load32_at; [apply write_at_in|lia|lia]. }
  eexists. split; [reflexivity|]. split; cbn [bt_mem bt_place bt_offset s2 s1].
  - done.
  - rewrite u32_small by lia. lia.
  - intros q Hq. rewrite write_at_out; [by apply Hkp|]. unfold scratch in Hq. lia.
  - intros q Hq. destruct (decide (A + 4096 ≤ q < A + 5120)) as [Hin|Hout].
    + apply (mapped_write _ (A + 4096) 1024); [done|lia].
    + rewrite write_at_out by lia. by apply Hmp.
  - apply bytes_at_write; [|done]. right. unfold PLACEMENT_START. lia.
Qed.

Lemma block_loc_run i s : booting i s → 0 ≤ i < n → mapped m0 (A + 4096) 1024 →
  ∃ s', _ext2_get_block_loc ino i sb phys drive s = Ok (file_block inode i, s') ∧ booting i s'.
Proof.
  intros Hb Hi Hm. unfold _ext2_get_block_loc, file_block. destruct (Z.ltb_spec i 12).
  - exists s. split; [|done]. apply bmem_read. rewrite <- Z.add_assoc. apply load32_at; [by apply booting_inode with i|unfold INODE_DIRECT; lia|unfold INODE_DIRECT; lia].
  - rewrite (bind_ok _ _ _ _ _ (block_size_run sb s (booting_small i s Hb))). change (1024 / 4 + 12) with 268.
    destruct (Z.ltb_spec i 268); [|lia]. rewrite (bind_ok _ _ _ (u32_at inode INODE_SINGLE_INDIRECT) s).
    2: { apply bmem_read. apply load32_at; [by apply booting_inode with i|done|unfold INODE_SINGLE_INDIRECT; lia]. }
    apply boot_indirect_run; try done; try lia. apply indirect_on_disk. lia.
Qed.
Lemma step_run i s : booting i s → 0 ≤ i < n → mapped m0 (A + 4096) 1024 → mapped m0 PLACEMENT_START (1024 * n) →
  ∃ s', load_kernel_step KERNEL_ENTRY ino sb phys drive n (i, PLACEMENT_START + 1024 * i, 0) s =
    Ok (inl (i + 1, PLACEMENT_START + 1024 * (i + 1), 0), s') ∧ booting (i + 1) s'.
Proof.
  intros Hb Hi Hm Hmp. unfold load_kernel_step. destruct (Z.ltb_spec i n); [|lia].
  destruct (block_loc_run i s Hb Hi Hm) as (s1 & E1 & Hb1). rewrite (bind_ok _ _ _ _ _ E1).
  destruct (blocks_on_disk i Hi) as [Hd Hne]. rewrite (proj2 (Z.eqb_neq _ _) Hne). pose proof Hb1 as [Ho Hp Hkp Hmpd Hld].
  unfold PLACEMENT_START in *. set (x := file_block inode i) in *.
  rewrite (bind_ok _ _ _ _ _ (ext2_block_run x (61440 + 1024 * i) sb s1 (booting_small i s1 Hb1) Ho Hd ltac:(lia) ltac:(intros q Hq; apply Hmpd, Hmp; lia))).
  set (s2 := Boot _ _ _). pose proof (fsblock_length x Hd) as Hlen.
  pose proof (file_data_length inode i ltac:(intros; apply blocks_on_disk; lia) ltac:(lia)) as Hfl.
  assert (Hb2 : booting (i + 1) s2).
  { split; cbn [bt_mem bt_place bt_offset s2]; try done.
    - intros q Hq. rewrite write_at_out; [by apply Hkp|]. unfold scratch, PLACEMENT_START in Hq. lia.
    - intros q Hq. destruct (decide (61440 + 1024 * i ≤ q < 61440 + 1024 * i + 1024)) as [Hin|Hout].
      + apply (mapped_write _ (61440 + 1024 * i) 1024); [intros z Hz; apply Hmpd, Hmp; lia|lia].
      + rewrite write_at_out by lia. by apply Hmpd.
    - rewrite file_data_snoc by lia. apply bytes_at_app. unfold PLACEMENT_START. split.
      + apply bytes_at_write; [left; lia|done].
      + rewrite Hfl. apply write_at_in. }
  rewrite (bind_ok _ _ _ _ _ (block_size_run sb s2 (booting_small _ _ Hb2))). exists s2. split; [|done].
  rewrite (u32_small (61440 + 1024 * i + 1024)) by lia. rewrite (u32_small (_ + 512 * 1024)) by lia.
  rewrite (proj2 (Z.eqb_neq _ _)) by lia. replace (61440 + 1024 * i + 1024) with (61440 + 1024 * (i + 1)) by lia. done.
Qed.

Lemma load_loop_run j : ∀ i s, i + Z.of_nat j = n → 0 ≤ i → booting i s → mapped m0 (A + 4096) 1024 → mapped m0 PLACEMENT_START (1024 * n) →
  ∃ s', loop (S j) (load_kernel_step KERNEL_ENTRY ino sb phys drive n) (i, PLACEMENT_START + 1024 * i, 0) s =
    Ok ((PLACEMENT_START + 1024 * n, 0), s') ∧ booting n s'.
Proof.
  induction j as [|j IH]; intros i s Hij Hi Hb Hm Hmp.
  - assert (i = n) as -> by lia. exists s. split; [|done]. apply loop_done. unfold load_kernel_step. destruct (Z.ltb_spec n n); [lia|done].
  - destruct (step_run i s Hb ltac:(lia) Hm Hmp) as (s1 & E1 & Hb1). rewrite (loop_next _ _ _ _ _ _ E1). apply IH; try done; lia.
Qed.
Lemma load_kernel_run s : bt_mem s = m0 → bt_offset s = start → A ≤ bt_place s < A + 4096 →
  u32_at inode INODE_FILE_SIZE / 1024 = n → mapped m0 (A + 4096) 1024 → mapped m0 PLACEMENT_START (1024 * n) →
  mapped m0 KERNEL_ENTRY (1024 * n) → PLACEMENT_START + 1024 * n ≤ KERNEL_ENTRY < 4294967296 →
  ∃ s', _load_kernel KERNEL_ENTRY ino sb phys drive s = Ok (tt, s') ∧ bytes_at (bt_mem s') KERNEL_ENTRY (file_data inode n).
Proof.
  intros Hm Ho Hp Hn Hma Hmp Hmk Hk.
  assert (Hb : booting 0 s).
  { split; [done|done|intros q _; by rewrite Hm|intros q; by rewrite Hm|by intros j x Hx]. }
  unfold _load_kernel. rewrite (bind_ok _ _ _ (u32_at inode INODE_FILE_SIZE) s).
  2: { apply bmem_read. apply load32_at; [by apply booting_inode with 0|done|unfold INODE_FILE_SIZE; lia]. }
  rewrite (bind_ok _ _ _ _ _ (block_size_run sb s (booting_small 0 s Hb))).
  rewrite (bind_ok _ _ _ n s) by (rewrite udiv_ok by lia; by rewrite Hn).
  destruct (load_loop_run (Z.to_nat n) 0 s) as (s1 & E1 & Hb1); try done; try lia.
  rewrite Z.mul_0_r, Z.add_0_r in E1. rewrite (bind_ok _ _ _ _ _ E1). cbv beta iota.
  pose proof (file_data_length inode n ltac:(intros; apply blocks_on_disk; lia) ltac:(lia)) as Hl.
  pose proof Hb1 as [_ _ _ Hmpd Hld]. unfold PLACEMENT_START in *.
  rewrite Z.mul_0_r, Z.add_0_r, (u32_small KERNEL_ENTRY), u32_small by lia.
  replace (61440 + 1024 * n - 61440) with (Z.of_nat (length (file_data inode n))) by lia.
  eexists. rewrite (bind_ok _ _ _ _ _ (boot_memcpy_run KERNEL_ENTRY 61440 (file_data inode n) s1 Hld
    ltac:(apply Forall_concat, Forall_fmap, Forall_true; intros; apply fsblock_bytes)
    ltac:(rewrite Hl; intros q Hq; by apply Hmpd, Hmk) ltac:(left; lia))). split; [reflexivity|]. apply write_at_in.
Qed.
End loading.

(** *** Finding it *)

(** The superblock, the first group descriptor and the kernel's inode, eight to a block. *)
Definition superblock : list Z := slice disk (start * phys + SUPERBLOCK_POS) phys.
Definition group : list Z := slice disk (start * phys + 2048) phys.
Definition table_block : Z := u32_at group BBGD_START_INODE_TABLE + (KERNEL_INODE - 1) / 8.
Definition kernel_inode : list Z := slice (fsblock table_block) (128 * ((KERNEL_INODE - 1) mod 8)) 128.
Definition kernel_blocks : Z := u32_at kernel_inode INODE_FILE_SIZE / 1024.

(** A file system the loader can read: 1024-byte blocks, the kernel's inode in the first
    group, and its blocks within the direct and indirect pointers. *)
Record bootable : Prop := {
  bo_phys : 512 ≤ phys;
  bo_super : start * phys + 3072 ≤ Z.of_nat (length disk);
  bo_frag : slice superblock BSB_BLOCK_SIZE_FRAG 4 = [0; 0; 0; 0];
  bo_signature : u16_at superblock BSB_SIGNATURE = BOOT_EXT2_SIGNATURE;
  bo_group : 1 ≤ KERNEL_INODE ≤ u32_at superblock BSB_INODES_IN_BLOCKGROUP ∧ KERNEL_INODE ≤ 33554432;
  bo_table : on_disk table_block;
  bo_count : kernel_blocks ≤ 268;
  bo_blocks : ∀ i, 0 ≤ i < kernel_blocks → on_disk (file_block kernel_inode i) ∧ file_block kernel_inode i ≠ 0;
  bo_indirect : 12 < kernel_blocks → on_disk (u32_at kernel_inode INODE_SINGLE_INDIRECT)
}.

Lemma kernel_inode_length : on_disk table_block → Z.of_nat (length kernel_inode) = 128.
Proof.
  intros Hd. unfold kernel_inode. pose proof (fsblock_length _ Hd). pose proof (Z.mod_pos_bound (KERNEL_INODE - 1) 8).
  apply slice_length; lia.
Qed.
Lemma byte_at_take l n k : 0 ≤ k < Z.of_nat n → byte_at (take n l) k = byte_at l k.
Proof. intros Hk. unfold byte_at. by rewrite lookup_take_lt by lia. Qed.

Lemma u32_at_take l n k : 0 ≤ k → k + 4 ≤ Z.of_nat n → u32_at (take n l) k = u32_at l k.
Proof. intros Hk Hn. unfold u32_at. rewrite !byte_at_take by lia. done. Qed.

Lemma u16_at_take l n k : 0 ≤ k → k + 2 ≤ Z.of_nat n → u16_at (take n l) k = u16_at l k.
Proof. intros Hk Hn. unfold u16_at. rewrite !byte_at_take by lia. done. Qed.

Lemma superblock_length : bootable → Z.of_nat (length superblock) = phys ∧ Z.of_nat (length (take 84 superblock)) = 84.
Proof.
  intros Hbo. pose proof (bo_phys Hbo). pose proof (bo_super Hbo). pose proof phys_pos.
  assert (Hsl : Z.of_nat (length superblock) = phys) by (unfold superblock, SUPERBLOCK_POS in *; apply slice_length; nia).
  split; [done|]. rewrite length_take. lia.
Qed.

Lemma superblock_small m sb : bootable → bytes_at m sb (take 84 superblock) → small_blocks m sb.
Proof.
  intros Hbo Hb. unfold small_blocks. rewrite <- (bo_frag Hbo).
  replace (slice superblock BSB_BLOCK_SIZE_FRAG 4) with (slice (take 84 superblock) BSB_BLOCK_SIZE_FRAG 4); [by apply bytes_at_slice|].
  unfold slice. rewrite skipn_firstn_comm, take_take. done.
Qed.

(** The inode's place in the table, once the superblock is at [sb]. *)
Lemma inode_place_run sb s : bootable → bytes_at (bt_mem s) sb (take 84 superblock) →
  _inode_offset_block KERNEL_INODE sb s = Ok ((KERNEL_INODE - 1) / 8, s) ∧
  _inode_offset_rel_to_block KERNEL_INODE sb s = Ok (128 * ((KERNEL_INODE - 1) mod 8), s).
Proof.
  intros Hbo Hb. destruct (bo_group Hbo) as [Hgr Hki]. destruct (superblock_length Hbo) as [_ Hlen].
  pose proof (superblock_small _ _ Hbo Hb) as Hsm.
  assert (Hn : on_bmem (load32 (sb + BSB_INODES_IN_BLOCKGROUP)) s = Ok (u32_at superblock BSB_INODES_IN_BLOCKGROUP, s)).
  { apply bmem_read. rewrite (load32_at _ _ _ BSB_INODES_IN_BLOCKGROUP Hb) by (rewrite ?Hlen; done). by rewrite u32_at_take. }
  pose proof (u32_at_range superblock BSB_INODES_IN_BLOCKGROUP ltac:(by apply slice_bytes)) as Hr.
  set (n := u32_at superblock BSB_INODES_IN_BLOCKGROUP) in *.
  unfold _inode_offset_block, _inode_offset_rel_to_block. rewrite !(bind_ok _ _ _ _ _ Hn), !(bind_ok _ _ _ _ _ (block_size_run sb s Hsm)).
  rewrite u32_small by lia. rewrite !(bind_ok _ _ _ (KERNEL_INODE - 1) s) by (rewrite umod_ok by lia; rewrite Z.mod_small by lia; done).
  unfold INODE_SIZE. change (1024 / 128) with 8. split.
  - rewrite udiv_ok, u32_small by lia. change 1024 with (8 * 128). by rewrite Z.div_mul_cancel_r.
  - rewrite (bind_ok _ _ _ ((KERNEL_INODE - 1) mod 8) s) by (by rewrite umod_ok). pose proof (Z.mod_pos_bound (KERNEL_INODE - 1) 8).
    rewrite u32_small by lia. by rewrite Z.mul_comm.
Qed.

Lemma boot_inode_ref_run sb p s : bootable → bytes_at (bt_mem s) sb (take 84 superblock) →
  bt_place s = p → 0 ≤ p < 60000 → sb + 84 ≤ p → bt_offset s = start → mapped (bt_mem s) p 1024 →
  get_inode_ref KERNEL_INODE (u32_at group BBGD_START_INODE_TABLE) phys sb drive s =
    Ok (p + 128 * ((KERNEL_INODE - 1) mod 8), Boot (write_at (bt_mem s) p (fsblock table_block)) (p + 1024) start).
Proof.
  intros Hbo Hb Hpl Hp Hd Hof Hm. pose proof (superblock_small _ _ Hbo Hb) as Hsm. unfold get_inode_ref.
  rewrite (bind_ok _ _ _ _ _ (block_size_run sb s Hsm)). set (s1 := Boot (bt_mem s) (p + 1024) start).
  rewrite (bind_ok _ _ _ p s1).
  2: { unfold boot_malloc, mbind, M_bind, modify, get, mret, M_ret. cbn. rewrite Hpl, Hof, (u32_small (p + 1024)) by lia.
       rewrite u32_small by lia. do 2 f_equal. lia. }
  destruct (inode_place_run sb s1 Hbo Hb) as [E1 _]. rewrite (bind_ok _ _ _ _ _ E1), (bind_ok _ _ _ _ _ (count_run s1)).
  rewrite (bind_ok _ _ _ start s1) by done. pose proof (bo_table Hbo) as Ht. destruct (on_disk_lba _ Ht) as (H1 & H2 & H3).
  assert (Htb : u32 ((KERNEL_INODE - 1) / 8 + u32_at group BBGD_START_INODE_TABLE) = table_block).
  { unfold table_block in *. rewrite Z.add_comm. apply u32_small. nia. }
  rewrite Htb, (u32_small (table_block * count)), (u32_small (start + _)) by lia.
  rewrite (bind_ok _ _ _ _ _ (load_low_run (start + table_block * count) count p s1 ltac:(lia) ltac:(lia) H2 ltac:(lia) ltac:(rewrite <- phys_blocks; done))).
  cbn [bt_mem bt_place bt_offset s1]. rewrite <- phys_blocks.
  replace (slice disk ((start + table_block * count) * phys) 1024) with (fsblock table_block).
  2: { unfold fsblock. f_equal. nia. }
  set (s2 := Boot _ _ _). destruct (inode_place_run sb s2 Hbo) as [_ E2].
  { apply bytes_at_write; [|done]. left. rewrite length_take. lia. }
  rewrite (bind_ok _ _ _ _ _ E2). pose proof (Z.mod_pos_bound (KERNEL_INODE - 1) 8). rewrite u32_small by lia. done.
Qed.

(** The page after the one the allocator stands in. *)
Definition first_page (s : boot) : Z := Z.land (bt_place s) 4294963200 + 4096.

(** The memory the loader uses. *)
Record room (s : boot) : Prop := {
  ro_place : 0 ≤ bt_place s < 4294967296;
  ro_low : first_page s + 5120 ≤ PLACEMENT_START;
  ro_work : mapped (bt_mem s) (first_page s) 5120;
  ro_blocks : mapped (bt_mem s) PLACEMENT_START (1024 * kernel_blocks);
  ro_kernel : mapped (bt_mem s) KERNEL_ENTRY (1024 * kernel_blocks);
  ro_apart : PLACEMENT_START + 1024 * kernel_blocks ≤ KERNEL_ENTRY < 4294967296
}.

Lemma first_page_facts s : room s → first_page s mod 4096 = 0 ∧ 4096 ≤ first_page s.
Proof.
  intros Hr. pose proof (ro_place _ Hr). unfold first_page. rewrite land_page_base by lia. Z.to_euclidean_division_equations; lia.
Qed.

(** The superblock and the group descriptor are loaded over each other, but only behind the
    parts that are used. *)
Lemma load_ext2_kernel_run s : bootable → room s → start < 4294967296 →
  ∃ r s', load_ext2_kernel KERNEL_INODE KERNEL_ENTRY start drive phys s = Ok (r, s') ∧
    bytes_at (bt_mem s') KERNEL_ENTRY (file_data kernel_inode kernel_blocks).
Proof.
  intros Hbo Hro Hst. destruct (first_page_facts s Hro) as [HA HA0]. destruct (superblock_length Hbo) as [Hsl Hsl84].
  pose proof (bo_phys Hbo) as Hph. pose proof (bo_super Hbo) as Hsu. destruct Hro as [Hpl Hlow Hwk Hmb Hmk Hap]. set (A := first_page s) in *.
  unfold PLACEMENT_START in *. set (m := bt_mem s) in *.
  unfold load_ext2_kernel. rewrite (bind_ok _ _ _ count s) by apply count_run. set (s0 := Boot m (bt_place s) start).
  rewrite (bind_ok _ _ _ tt s0) by done.
  rewrite (bind_ok _ _ _ A (Boot m (A + 84) start)).
  2: { unfold boot_malloc, mbind, M_bind, modify, get, mret, M_ret, BSB_SIZE. cbn [bt_place bt_mem bt_offset s0].
       change (Z.land (bt_place s) 4294963200 + 4096) with A. rewrite (u32_small A), (u32_small (A + 84)), (u32_small (A + 84 - 84)) by lia. do 2 f_equal. lia. }
  rewrite (bind_ok _ _ _ (A + 84) (Boot m (A + 116) start)).
  2: { unfold boot_malloc, mbind, M_bind, modify, get, mret, M_ret, BBGD_SIZE. cbn [bt_place bt_mem bt_offset].
       rewrite (u32_small (A + 84 + 32)), (u32_small (A + 84 + 32 - 32)) by lia. do 2 f_equal; [lia|]. f_equal. lia. }
  rewrite (u32_small (start + count)) by nia.
  rewrite (bind_ok _ _ _ _ _ (load_low_run (start + count) 1 A (Boot m (A + 116) start) ltac:(nia) ltac:(lia) ltac:(nia) ltac:(lia)
    ltac:(intros q Hq; apply Hwk; nia))).
  replace (slice disk ((start + count) * phys) (1 * phys)) with superblock by (unfold superblock, SUPERBLOCK_POS; f_equal; nia).
  cbn [bt_mem bt_place bt_offset]. set (m1 := write_at m A superblock).
  assert (B1 : bytes_at m1 A (take 84 superblock)).
  { rewrite <- (Z.add_0_r A). apply (bytes_at_slice m1 A superblock 0 84); [lia|lia|apply write_at_in]. }
  rewrite (bind_ok _ _ _ _ _ (block_size_run A (Boot m1 (A + 116) start) (superblock_small _ _ Hbo B1))), (bind_ok _ _ _ _ _ (count_run _)).
  rewrite (u32_small (start + count + count)) by nia.
  assert (M1 : ∀ q k, A ≤ q → q + k ≤ A + 5120 → mapped m1 q k) by (intros q k Hq Hk; apply mapped_write; intros z Hz; apply Hwk; lia).
  rewrite (bind_ok _ _ _ _ _ (load_low_run (start + count + count) 1 (A + 84) (Boot m1 (A + 116) start) ltac:(nia) ltac:(lia) ltac:(nia) ltac:(lia) ltac:(apply M1; nia))).
  replace (slice disk ((start + count + count) * phys) (1 * phys)) with group by (unfold group; f_equal; nia).
  cbn [bt_mem bt_place bt_offset]. set (m2 := write_at m1 (A + 84) group).
  assert (B2 : bytes_at m2 A (take 84 superblock)) by (apply bytes_at_write; [left; lia|done]).
  assert (G2 : bytes_at m2 (A + 84) group) by apply write_at_in.
  assert (Hgl : Z.of_nat (length group) = phys) by (unfold group; apply slice_length; nia).
  assert (M2 : ∀ q k, A ≤ q → q + k ≤ A + 5120 → mapped m2 q k) by (intros q k Hq Hk; by apply mapped_write, M1).
  set (s2 := Boot m2 (A + 116) start). rewrite (bind_ok _ _ _ (u16_at superblock BSB_SIGNATURE) s2).
  2: { apply bmem_read. change (bt_mem s2) with m2. rewrite (load16_at _ _ _ BSB_SIGNATURE B2) by (rewrite ?Hsl84; done). by rewrite u16_at_take. }
  rewrite (bo_signature Hbo), Z.eqb_refl. cbn [negb]. rewrite (bind_ok _ _ _ (u32_at group BBGD_START_INODE_TABLE) s2).
  2: { apply bmem_read. change (bt_mem s2) with m2. rewrite (load32_at _ _ _ BBGD_START_INODE_TABLE G2); [done|done|unfold BBGD_START_INODE_TABLE; lia]. }
  rewrite (bind_ok _ _ _ _ _ (boot_inode_ref_run A (A + 116) s2 Hbo B2 eq_refl ltac:(lia) ltac:(lia) eq_refl ltac:(apply M2; lia))).
  cbn [bt_mem s2]. set (m3 := write_at m2 (A + 116) _). set (s3 := Boot m3 _ _). set (ino := A + 116 + _).
  pose proof (fsblock_length _ (bo_table Hbo)) as Htl. pose proof (kernel_inode_length (bo_table Hbo)) as Hil.
  pose proof (Z.mod_pos_bound (KERNEL_INODE - 1) 8 ltac:(lia)) as Hmod.
  assert (B3 : bytes_at m3 A (take 84 superblock)) by (apply bytes_at_write; [left; lia|done]).
  assert (I3 : bytes_at m3 ino kernel_inode) by (apply bytes_at_slice; [lia|lia|apply write_at_in]).
  assert (M3 : ∀ q k, mapped m q k → mapped m3 q k) by (intros q k Hq; by do 3 apply mapped_write).
  assert (Hkb : 0 ≤ kernel_blocks).
  { unfold kernel_blocks. apply Z.div_pos; [|lia]. apply u32_at_range. apply slice_bytes, fsblock_bytes. }
  destruct (load_kernel_run A A ino kernel_blocks kernel_inode m3) with (s := s3) as (s' & E & Hk); try done; unfold scratch, BSB_BLOCK_SIZE_FRAG, ino in *; try lia.
  - unfold PLACEMENT_START. lia.
  - pose proof (bo_count Hbo). lia.
  - exact (bo_blocks Hbo).
  - exact (bo_indirect Hbo).
  - unfold PLACEMENT_START. lia.
  - unfold PLACEMENT_START. lia.
  - by apply superblock_small.
  - simpl. lia.
  - apply M3. intros q Hq. apply Hwk. lia.
  - by apply M3.
  - by apply M3.
  - exists 0, s'. by rewrite (bind_ok _ _ _ _ _ E).
Qed.

(** The first partition with the active flag in the table at [PART_OFFSET] is [i]. *)
Definition boots_from (table : list Z) (i : Z) : Prop :=
  0 ≤ i < 4 ∧ length table = 64%nat ∧ Forall is_byte table ∧
  (∀ j, 0 ≤ j < i → Z.land (byte_at table (PARTITION_SIZE * j)) FLAG_ACTIVE = 0) ∧
  Z.land (byte_at table (PARTITION_SIZE * i)) FLAG_ACTIVE ≠ 0 ∧
  u32_at table (PARTITION_SIZE * i + PART_START_LBA) = start.

Lemma findkernel_run table i s : bytes_at (bt_mem s) PART_OFFSET table → boots_from table i → bootable → room s →
  ∃ s', findkernel KERNEL_INODE KERNEL_ENTRY drive phys s = Ok (i, s') ∧
    bytes_at (bt_mem s') KERNEL_ENTRY (file_data kernel_inode kernel_blocks).
Proof.
  intros Ht (Hi & Hl & Htb & Hno & Hyes & Hst) Hbo Hro. unfold PARTITION_SIZE, PART_START_LBA in *.
  pose proof (u32_at_range table (16 * i + 8) Htb) as Hsr. rewrite Hst in Hsr.
  destruct (load_ext2_kernel_run s Hbo Hro ltac:(lia)) as (r & s' & E & Hk). exists s'. split; [|done]. unfold findkernel.
  assert (Hfl : ∀ j, 0 ≤ j < 4 → on_bmem (load8 (PART_OFFSET + 16 * j)) s = Ok (byte_at table (16 * j), s)).
  { intros j Hj. apply bmem_read, load8_at; [done|lia]. }
  assert (Hgen : ∀ f j, 0 ≤ j ≤ i → (Z.to_nat (i - j) < f)%nat → loop f (λ i,
    if i <? 4 then
      let part := PART_OFFSET + 16 * i in
      flags ← on_bmem (load8 part);
      if negb (Z.land flags FLAG_ACTIVE =? 0) then
        start ← on_bmem (load32 (part + 8));
        sects ← on_bmem (load32 (part + PART_TOTAL_SECTS));
        r ← load_kernel KERNEL_INODE KERNEL_ENTRY start sects drive phys;
        if negb (r =? 0) then hang else mret (inr i)
      else mret (inl (i + 1))
    else hang) j s = Ok (i, s')).
  { induction f as [|f IH]; intros j Hj Hf; [lia|]. destruct (decide (j = i)) as [->|Hne].
    - apply loop_done. destruct (Z.ltb_spec i 4); [|lia]. cbv zeta. rewrite (bind_ok _ _ _ _ _ (Hfl i ltac:(lia))).
      rewrite (proj2 (Z.eqb_neq _ _) Hyes). cbn [negb].
      rewrite (bind_ok _ _ _ start s) by (apply bmem_read; rewrite <- Z.add_assoc, (load32_at _ _ _ _ Ht); [by rewrite Hst|lia|lia]).
      erewrite bind_ok; [|apply bmem_read; rewrite <- Z.add_assoc; apply load32_at; [exact Ht|unfold PART_TOTAL_SECTS; lia|unfold PART_TOTAL_SECTS; lia]].
      rewrite (bind_ok _ _ _ 0 s'); [done|]. unfold load_kernel, determine_fs. cbn. by rewrite (bind_ok _ _ _ _ _ E).
    - erewrite loop_next; [apply (IH (j + 1)); lia|]. destruct (Z.ltb_spec j 4); [|lia]. cbv zeta. rewrite (bind_ok _ _ _ _ _ (Hfl j ltac:(lia))).
      rewrite Hno by lia. done. }
  apply Hgen; lia.
Qed.

(** C6: Booting.  From a partition table whose first active entry leads to an ext2 file
    system of 1024-byte blocks with the kernel's inode in the first group, [findkernel]
    jumps to the kernel, and at its address are exactly the whole blocks of the kernel
    file, in order, through direct and indirect block pointers. *)
Theorem kernel_booted table i s : bytes_at (bt_mem s) PART_OFFSET table → boots_from table i → bootable → room s →
  ∃ s', findkernel KERNEL_INODE KERNEL_ENTRY drive phys s = Ok (i, s') ∧
    bytes_at (bt_mem s') KERNEL_ENTRY (file_data kernel_inode kernel_blocks).
Proof. apply findkernel_run. Qed.
End kernel.

(** A disk with a partition from its second sector: superblock, group descriptor, a table
    whose second inode is a kernel of one block, and the block. *)
Definition boot_image : list Z :=
  replicate 512 0 ++ replicate 1024 0 ++
  (replicate 40 0 ++ [8; 0; 0; 0] ++ replicate 12 0 ++ [83; 239] ++ replicate 966 0) ++
  (replicate 8 0 ++ [3; 0; 0; 0] ++ replicate 1012 0) ++
  (replicate 132 0 ++ [0; 4; 0; 0] ++ replicate 32 0 ++ [4; 0; 0; 0] ++ replicate 852 0) ++
  replicate 1024 7.

Definition demo_bios : Bios := {|
  int13 := λ _ lba n, if (0 <=? lba) && ((lba + n) * 512 <=? Z.of_nat (length boot_image)) then Some (slice boot_image (lba * 512) (n * 512)) else None
|}.

Definition demo_table : list Z := replicate 16 0 ++ ([128] ++ replicate 7 0 ++ [1; 0; 0; 0] ++ replicate 4 0) ++ replicate 32 0.

Definition demo_boot : boot :=
  Boot (write_at (write_at (write_at (write_at ∅ 8192 (replicate 5120 0)) 32190 demo_table) 61440 (replicate 1024 0)) 65536 (replicate 1024 0)) 4096 0.

Lemma kernel_booted_witness :
  file_data boot_image 512 1 (kernel_inode 2 boot_image 512 1) (kernel_blocks 2 boot_image 512 1) = replicate 1024 7 ∧
  ∃ s', @findkernel demo_bios 2 65536 128 512 demo_boot = Ok (1, s') ∧
    bytes_at (bt_mem s') 65536 (file_data boot_image 512 1 (kernel_inode 2 boot_image 512 1) (kernel_blocks 2 boot_image 512 1)).
Proof.
  split; [by vm_compute|].
  assert (Hby : Forall is_byte boot_image).
  { unfold boot_image. rewrite !Forall_app. split_and!; try (apply Forall_replicate; by split); by repeat constructor. }
  assert (Hkb : kernel_blocks 2 boot_image 512 1 = 1) by by vm_compute.
  assert (Hfb : file_block boot_image 512 1 (kernel_inode 2 boot_image 512 1) 0 = 4) by by vm_compute.
  assert (Hod : ∀ b, 0 ≤ b ≤ 4 → on_disk boot_image 512 1 b).
  { intros b Hb. unfold on_disk. change (Z.of_nat (length boot_image)) with 5632. lia. }
  refine (@kernel_booted demo_bios 2 65536 boot_image 128 512 2 1 Hby eq_refl _ _ _ _ demo_table 1 demo_boot _ _ _ _).
  - lia.
  - lia.
  - by vm_compute.
  - intros lba n Hl Hn Hd. cbn [int13 demo_bios]. rewrite (proj2 (Z.leb_le _ _) Hl), (proj2 (Z.leb_le _ _) Hd). reflexivity.
  - unfold demo_boot. cbn [bt_mem]. do 2 (apply bytes_at_write; [left; by vm_compute|]). apply write_at_in.
  - unfold boots_from. split_and!; [lia|lia|done| | |by vm_compute|by vm_compute].
    + unfold demo_table. rewrite !Forall_app. split_and!; try (apply Forall_replicate; by split); by repeat constructor.
    + intros j Hj. assert (j = 0) as -> by lia. by vm_compute.
  - assert (Htb : table_block 2 boot_image 512 1 = 3) by by vm_compute.
    split; [lia|by vm_compute|by vm_compute|by vm_compute|split; [split; [lia|by vm_compute]|lia]|rewrite Htb; apply Hod; lia|rewrite Hkb; lia| |rewrite Hkb; lia].
    rewrite Hkb. intros i Hi. assert (i = 0) as -> by lia. rewrite Hfb. split; [apply Hod; lia|done].
  - assert (Hm : ∀ m p l q k, bytes_at m p l → p ≤ q → q + k ≤ p + Z.of_nat (length l) → mapped m q k).
    { intros m p l q k Hb Hq Hk z Hz. apply (bytes_at_mapped m p l Hb). lia. }
    unfold demo_boot. split; cbn [bt_mem bt_place]; [lia|by vm_compute| |rewrite Hkb|rewrite Hkb|rewrite Hkb; unfold PLACEMENT_START; lia].
    + apply (Hm _ 8192 (replicate 5120 0)); [|by vm_compute|by vm_compute]. do 3 (apply bytes_at_write; [left; by vm_compute|]). apply write_at_in.
    + apply (Hm _ 61440 (replicate 1024 0)); [|by vm_compute|by vm_compute]. apply bytes_at_write; [left; by vm_compute|]. apply write_at_in.
    + apply (Hm _ 65536 (replicate 1024 0)); [|by vm_compute|by vm_compute]. apply write_at_in.
Defined.
