(* ===== verification/Printk.v ===== *)
(** * Kernel output (kernel/yanix/functions/kernelio.c, kernel/fs/fs.c)

    [printk] formats into a buffer of 128 bytes and hands the buffer to descriptor 1
    when it is full and at the end.  The variable arguments are a list of words, a
    missing one is [Fault]; string literals are at the addresses [lit] gives. *)
From S2P Require Import Prelude LibK Format Tty.

(** The terminals and what went to the serial port, the latest byte first. *)
Record cst := Cst { c_tt : ttys; c_serial : list Z }.

Definition on_tt {A} (c : M ttys A) : M cst A := λ s,
  match c (c_tt s) with
  | Ok (a, t) => Ok (a, Cst t (c_serial s))
  | Fault => Fault
  | Hang => Hang
  end.

Definition to_serial (b : Z) : M cst unit := modify (λ s, Cst (c_tt s) (b :: c_serial s)).

(** What [printk] needs of the file system: [vfs_write_fd]. *)
Class Descriptors := { write_fd : Z → Z → Z → M cst Z }.

(** wbuffer's fill [iter] and [g_kernel_log_level]. *)
Record kst := Kst { k_con : cst; k_iter : Z; k_level : Z }.

Definition on_con {A} (c : M cst A) : M kst A := λ s,
  match c (k_con s) with
  | Ok (a, t) => Ok (a, Kst t (k_iter s) (k_level s))
  | Fault => Fault
  | Hang => Hang
  end.

Definition set_iter (v : Z) : M kst unit := modify (λ s, Kst (k_con s) v (k_level s)).

Definition kload (p : Z) : M kst Z := on_con (on_tt (on_tmem (load8 p))).

Definition kstore (p b : Z) : M kst unit := on_con (on_tt (on_tmem (store8 p b))).

Section stdout.
Variables video_mode screen_width screen_height : Z.
Variable vga_to_rgb : Z → Z.

(** The write function of /dev/stdout. *)
Definition tty_stdoutwrite (buffer size : Z) : M cst Z :=
  _ ← loop (S (Z.to_nat size)) (λ i,
        if i <? size then
          b ← on_tt (on_tmem (load8 (buffer + i)));
          _ ← to_serial b;
          mret (inl (i + 1))
        else mret (inr tt)) 0;
  t ← on_tt (get tt_task);
  dev ← on_tt (tty_get_device t);
  on_tt (tty_write video_mode screen_width screen_height vga_to_rgb (Some dev) buffer size (-1) (-1)).

(** The same loop and the same write. *)
Definition tty_stderrwrite (buffer size : Z) : M cst Z := tty_stdoutwrite buffer size.

Definition clear_screenk : M cst unit :=
  t ← on_tt (get tt_task);
  dev ← on_tt (tty_get_device t);
  on_tt (tty_clear_buf video_mode screen_width screen_height vga_to_rgb dev).
End stdout.

Section printk.
Context `{!Descriptors}.
(** The address of wbuffer, and those of literals. *)
Variable wbuffer : Z.
Variable lit : list Z → Z.

Definition flushbuf : M kst unit :=
  iter ← get k_iter;
  _ ← on_con (write_fd 1 wbuffer (u32 iter));
  set_iter 0.

Definition writebuf (c : Z) : M kst unit :=
  iter ← get k_iter;
  _ ← (if iter =? 127 then flushbuf else mret tt);
  iter ← get k_iter;
  _ ← kstore (wbuffer + iter) c;
  set_iter (s32 (iter + 1)).

Definition print (txt len : Z) : M kst Z :=
  loop (S (Z.to_nat len)) (λ i,
    if i <? len then
      c ← kload (txt + i);
      _ ← writebuf c;
      mret (inl (i + 1))
    else mret (inr len)) 0.

(** The number, and the number of its digits. *)
Definition parse_uint (str : Z) : M kst (Z * Z) :=
  fuel ← get (λ s, S (size (tt_mem (c_tt (k_con s)))));
  loop fuel (λ '(ret, len),
    b ← kload (str + len);
    if b =? 0 then mret (inr (ret, len))
    else if (57 <? s8 b) || (s8 b <? 48) then mret (inr (ret, len))
    else mret (inl (s32 (s32 (ret * 10) + (s8 b - 48)), len + 1))) (0, 0).

Definition va_arg (args : list Z) : M kst (Z * list Z) :=
  match args with a :: args => mret (a, args) | [] => fault end.

(** A conversion: [p] is the address of the percent sign; the result is how far it goes,
    how many characters are counted, and the arguments that are left. *)
Definition conversion (p : Z) (args : list Z) : M kst (Z * Z * list Z) :=
  c ← kload (p + 1);
  if c =? 37 then _ ← writebuf 37; mret (2, 1, args)
  else if c =? 99 then
    '(a, args) ← va_arg args;
    _ ← writebuf (u8 a);
    mret (2, 1, args)
  else if c =? 46 then
    '(num, len) ← parse_uint (p + 2);
    c ← kload (p + 2 + len);
    if c =? 115 then
      '(a, args) ← va_arg args;
      n ← print a (u32 num);
      mret (len + 3, n, args)
    else mret (len + 3, 0, args)
  else if c =? 115 then
    '(a, args) ← va_arg args;
    l ← on_con (on_tt (on_tmem (strlen a)));
    n ← print a l;
    mret (2, n, args)
  else if c =? 105 then
    '(a, args) ← va_arg args;
    _ ← print_int writebuf (s32 a);
    mret (2, 0, args)
  else if c =? 117 then
    '(a, args) ← va_arg args;
    _ ← print_number writebuf u32 10 (u32 a);
    mret (2, 0, args)
  else if c =? 120 then
    '(a, args) ← va_arg args;
    _ ← print_number writebuf u32 16 (u32 a);
    mret (2, 0, args)
  else
    c3 ← kload (p + 3);
    if c3 =? 120 then
      '(a, args) ← va_arg args;
      c1 ← kload (p + 1);
      c2 ← kload (p + 2);
      _ ← print_padded writebuf ((s8 c1 - 48) * 10 + s8 c2 - 48) (u32 a);
      mret (4, 0, args)
    else mret (2, 0, args).

(** The loop over the format; [written] counts characters. *)
Definition format_step (fmt : Z) : Z * Z * list Z → M kst (Z * Z * list Z + Z) := λ '(i, written, args),
  character ← kload (fmt + i);
  if character =? 0 then mret (inr written)
  else if character =? 37 then
    '(len, n, args) ← conversion (fmt + i) args;
    mret (inl (u32 (i + len), u32 (written + n), args))
  else
    _ ← writebuf character;
    mret (inl (u32 (i + 1), u32 (written + 1), args)).

Definition DEBUG_PREFIX : list Z := [27; 91; 51; 51; 59; 49; 109; 91; 32; 68; 69; 66; 85; 71; 32; 93; 32].
Definition INFO_PREFIX : list Z := [91; 32; 73; 78; 70; 79; 32; 93; 32; 32].
Definition WARNING_PREFIX : list Z := [91; 87; 65; 82; 78; 73; 78; 71; 93; 32].
Definition NOTICE_PREFIX : list Z := [91; 78; 79; 84; 73; 67; 69; 93; 32].
Definition RESET_SEQ : list Z := [27; 91; 48; 109].

(** The level a format starts with, if it does; the test of [fmt[i]] looks at [fmt[0]]. *)
Definition log_prefix (fmt : Z) : M kst (option Z) :=
  c0 ← kload fmt;
  if negb (c0 =? 60) then mret None
  else
    c1 ← kload (fmt + 1);
    if (s8 c1 <=? 55) && (48 <=? s8 c0) then
      c2 ← kload (fmt + 2);
      if c2 =? 62 then mret (Some (s8 c1 - 48)) else mret None
    else mret None.

(** [printk] calls itself for the text of a level; [depth] bounds the recursion. *)
Fixpoint printk_rec (depth : nat) (fmt : Z) (args : list Z) : M kst Z :=
  match depth with
  | O => hang
  | S depth =>
    level ← get k_level;
    pre ← log_prefix fmt;
    let loglevel := match pre with Some l => l | None => s32 level end in
    let start := match pre with Some _ => 3 | None => 0 end in
    _ ← (if loglevel =? 7 then _ ← printk_rec depth (lit DEBUG_PREFIX) []; mret tt
         else if loglevel =? 6 then _ ← printk_rec depth (lit INFO_PREFIX) []; mret tt
         else if loglevel =? 4 then
           _ ← on_con (on_tt (tty_set_color TTY_ORANGE (-1)));
           _ ← printk_rec depth (lit WARNING_PREFIX) []; mret tt
         else if loglevel =? 5 then
           _ ← on_con (on_tt (tty_set_color TTY_LIGHT_BLUE (-1)));
           _ ← printk_rec depth (lit NOTICE_PREFIX) []; mret tt
         else mret tt);
    fuel ← get (λ s, S (size (tt_mem (c_tt (k_con s)))));
    written ← loop fuel (format_step fmt) (start, 0, args);
    _ ← flushbuf;
    _ ← (if negb (loglevel =? 0) then
           _ ← printk_rec depth (lit RESET_SEQ) [];
           on_con (on_tt tty_reset_color)
         else mret tt);
    mret (s32 written)
  end.

(** The texts of the levels have no level of their own, so with [g_kernel_log_level] 0
    the recursion is one deep. *)
Definition PRINTK_DEPTH : nat := 2.

Definition printk (fmt : Z) (args : list Z) : M kst Z := printk_rec PRINTK_DEPTH fmt args.

(** One line of a dump: %08x:, two groups of eight times %02x, and a newline. *)
Definition HD_BYTE : list Z := [37; 48; 50; 120].
Definition HD_FORMAT : list Z :=
  [37; 48; 56; 120; 58; 32; 32] ++ concat (replicate 7 (HD_BYTE ++ [32])) ++ HD_BYTE ++ [32; 32; 32] ++
  concat (replicate 7 (HD_BYTE ++ [32])) ++ HD_BYTE ++ [10].

(** The sixteen bytes of a line. *)
Definition hd_bytes (tmp : Z) : M kst (list Z) :=
  foldr (λ k rest, bs ← rest; b ← kload (tmp + Z.of_nat k); mret (b :: bs)) (mret []) (seq 0 16).

Definition printk_hd (ptr size : Z) : M kst unit :=
  loop (S (S (Z.to_nat size))) (λ i,
    if i <=? size then
      bs ← hd_bytes (ptr + i);
      _ ← printk (lit HD_FORMAT) (u32 (ptr + i) :: bs);
      mret (inl (u32 (i + 16)))
    else mret (inr tt)) 0.
End printk.
