(* ===== verification/PrintkSpec.v ===== *)
(** * What printk writes (kernel/yanix/functions/kernelio.c)

    A format is a list of pieces with a reference rendering; [printk] writes it, for
    every descriptor 1 that shows what it is given.  The terminal is one: the text
    ends up on the abstract screen. *)
From S2P Require Import Prelude LibK Format Disk Kmem Tty TtyScreen Printk.

(** ** The interface to descriptor 1 *)

Definition con_mem (c : cst) : bmem := tt_mem (c_tt c).

Definition with_con_mem (m : bmem) (c : cst) : cst := Cst (set_tmem m (c_tt c)) (c_serial c).

Definition kmem (s : kst) : bmem := con_mem (k_con s).

(** Text without escape sequences. *)
Definition plain (b : Z) : Prop := is_byte b ∧ b ≠ ESC.

(** Everything written so far is shown; showing more changes only the memory [owned]. *)
Class Shows `{!Descriptors} (wbuffer : Z) (owned : Z → Prop) := {
  shown : list Z → cst → Prop;
  shown_write : ∀ out bs c, shown out c → bytes_at (con_mem c) wbuffer bs → Forall plain bs → (length bs ≤ 127)%nat →
    ∃ r c', write_fd 1 wbuffer (Z.of_nat (length bs)) c = Ok (r, c') ∧ shown (out ++ bs) c' ∧
      ∀ q, ¬ owned q → con_mem c' !! q = con_mem c !! q;
  shown_frame : ∀ out m c, shown out c → (∀ q, owned q → m !! q = con_mem c !! q) → shown out (with_con_mem m c);
  buffer_free : ∀ q, wbuffer ≤ q < wbuffer + 128 → ¬ owned q
}.

Section emit.
Context `{!Descriptors} (wbuffer : Z) (owned : Z → Prop) `{!Shows wbuffer owned}.
Variables (m0 : bmem) (level : Z).

Definition busy (q : Z) : Prop := owned q ∨ wbuffer ≤ q < wbuffer + 128.

(** [text] is what was written since the start, part of it still in the buffer; the memory
    that is not [busy] is [m0]. *)
Record writing (text : list Z) (s : kst) : Prop := Writing {
  wr_out : list Z;
  wr_pending : list Z;
  wr_text : text = wr_out ++ wr_pending;
  wr_shown : shown wr_out (k_con s);
  wr_bytes : bytes_at (kmem s) wbuffer wr_pending;
  wr_plain : Forall plain wr_pending;
  wr_iter : k_iter s = Z.of_nat (length wr_pending);
  wr_room : (length wr_pending ≤ 127)%nat;
  wr_mapped : mapped (kmem s) wbuffer 128;
  wr_kept : ∀ q, ¬ busy q → kmem s !! q = m0 !! q;
  wr_level : k_level s = level
}.

Notation emits := (outputs writing).

(** Memory that is not busy can be read. *)
Lemma emits_read {A} (f : M bmem A) a : (∀ m, (∀ q, ¬ busy q → m !! q = m0 !! q) → f m = Ok (a, m)) →
  emits (on_con (on_tt (on_tmem f))) a [].
Proof.
  intros Hf text s Hw. exists s. rewrite app_nil_r. split; [|done].
  unfold on_con, on_tt. rewrite (run_tmem f _ a (kmem s)) by (apply Hf, (wr_kept _ _ Hw)).
  unfold kmem, con_mem. rewrite set_tmem_id. by destruct s as [[? ?] ? ?].
Qed.

Lemma emits_load p b : m0 !! p = Some b → ¬ busy p → emits (kload p) b [].
Proof. intros Hp Hb. apply emits_read. intros m Hm. apply run_load8. by rewrite Hm. Qed.

(** After [flushbuf] everything is shown. *)
Lemma flush_run text s : writing text s →
  ∃ s', flushbuf wbuffer s = Ok (tt, s') ∧ writing text s' ∧ shown text (k_con s') ∧ k_iter s' = 0.
Proof.
  intros [out pend -> Hsh Hb Hp Hi Hr Hm Hk Hl].
  destruct (shown_write out pend (k_con s) Hsh Hb Hp Hr) as (r & c' & Hw & Hsh' & Hf).
  exists (Kst c' 0 (k_level s)). unfold flushbuf. rewrite (bind_ok _ _ _ (k_iter s) s) by done.
  rewrite Hi, u32_small by lia. rewrite (bind_ok _ _ _ r (Kst c' (k_iter s) (k_level s))) by (unfold on_con; by rewrite Hw).
  split_and!; try done. exists (out ++ pend) []; try done.
  - by rewrite app_nil_r.
  - simpl. lia.
  - intros q Hq. unfold kmem. simpl. rewrite Hf by by apply buffer_free. by apply Hm.
  - intros q Hq. unfold kmem. simpl. rewrite Hf by (intros Ho; apply Hq; by left). by apply Hk.
Qed.

(** A byte in a buffer with room. *)
Lemma store_run text s b : writing text s → k_iter s ≠ 127 → plain b →
  ∃ s', (_ ← kstore (wbuffer + k_iter s) b; set_iter (s32 (k_iter s + 1))) s = Ok (tt, s') ∧ writing (text ++ [b]) s'.
Proof.
  intros [out pend -> Hsh Hb Hp Hi Hr Hm Hk Hl] Hne Hpl. pose proof Hpl as [[Hb0 Hb1] _].
  set (m' := <[wbuffer + k_iter s := b]> (kmem s)).
  assert (Hrun : kstore (wbuffer + k_iter s) b s = Ok (tt, Kst (with_con_mem m' (k_con s)) (k_iter s) (k_level s))).
  { unfold kstore, on_con, on_tt. rewrite (run_tmem _ _ tt m'); [done|]. unfold m'.
    rewrite run_store8 by (apply Hm; lia). by rewrite u8_small by lia. }
  eexists. rewrite (bind_ok _ _ _ _ _ Hrun). split; [reflexivity|]. exists out (pend ++ [b]); try done.
  - by rewrite app_assoc.
  - apply shown_frame; [done|]. intros q Hq. unfold m'. apply lookup_insert_ne. intros <-. eapply buffer_free; [|done]. lia.
  - unfold kmem, con_mem. simpl. unfold m'. rewrite Hi. apply bytes_at_app. split.
    + intros i x Hx. pose proof (lookup_lt_Some _ _ _ Hx). rewrite lookup_insert_ne by lia. by apply Hb.
    + intros i x Hx. destruct i; [|done]. simpl in Hx. injection Hx as <-. rewrite Z.add_0_r. apply lookup_insert_eq.
  - apply Forall_app_2; [done|]. by apply Forall_singleton.
  - simpl. rewrite length_app, s32_small by lia. simpl. lia.
  - rewrite length_app. simpl. lia.
  - unfold kmem, con_mem. simpl. unfold m'. by apply mapped_insert.
  - intros q Hq. unfold kmem, con_mem. simpl. unfold m'. rewrite lookup_insert_ne; [by apply Hk|].
    intros <-. apply Hq. right. lia.
Qed.

Lemma emits_byte b : plain b → emits (writebuf wbuffer b) tt [b].
Proof.
  intros Hp text s Hw. unfold writebuf. rewrite (bind_ok _ _ _ (k_iter s) s) by done.
  destruct (Z.eqb_spec (k_iter s) 127) as [Heq|Hne].
  - destruct (flush_run text s Hw) as (s1 & H1 & Hw1 & _ & H0). rewrite (bind_ok _ _ _ _ _ H1).
    rewrite (bind_ok _ _ _ (k_iter s1) s1) by done. by apply store_run; [|rewrite H0|].
  - rewrite (bind_ok _ _ _ tt s) by done. rewrite (bind_ok _ _ _ (k_iter s) s) by done. by apply store_run.
Qed.

#[local] Instance writebuf_sink : Sink writing plain (writebuf wbuffer).
Proof. split; [apply emits_byte|]. unfold plain, is_byte, ESC. lia. Qed.

(** Bytes of memory. *)
Lemma emits_bytes p bs k f : ∀ i,
  (∀ q, p ≤ q < p + k → ¬ busy q) → bytes_at m0 (p + i) bs → Forall plain bs →
  i + Z.of_nat (length bs) = k → 0 ≤ i → (length bs ≤ f)%nat →
  emits (loop (S f) (λ i, if i <? k then c ← kload (p + i); _ ← writebuf wbuffer c; mret (inl (i + 1)) else mret (inr k)) i) k bs.
Proof.
  revert bs. induction f as [|f IH]; intros bs i Hnb Hb Hp Hk Hi Hf.
  - destruct bs; [|simpl in Hf; lia]. simpl in Hk. apply emits_done.
    destruct (Z.ltb_spec i k); [lia|]. apply emits_ret.
  - destruct bs as [|b bs].
    { simpl in Hk. apply emits_done. destruct (Z.ltb_spec i k); [lia|]. apply emits_ret. }
    cbn [length] in *. apply Forall_cons in Hp as [Hpb Hp]. change (b :: bs) with ([b] ++ bs) in Hb |- *.
    apply bytes_at_app in Hb as [Hb1 Hb2]. eapply emits_next; [|apply (IH bs (i + 1)); try done; try lia].
    + destruct (Z.ltb_spec i k); [|lia]. eapply emits_then.
      * apply emits_load; [|apply Hnb; lia]. rewrite <- (Z.add_0_r (p + i)). exact (Hb1 0%nat b eq_refl).
      * eapply emits_last; [by apply emits_byte|apply emits_ret].
    + by rewrite Z.add_assoc.
Qed.

Lemma emits_print p bs : bytes_at m0 p bs → Forall plain bs → (∀ q, p ≤ q < p + Z.of_nat (length bs) → ¬ busy q) →
  emits (print wbuffer p (Z.of_nat (length bs))) (Z.of_nat (length bs)) bs.
Proof. intros Hb Hp Hnb. unfold print. apply emits_bytes; try done; try lia. by rewrite Z.add_0_r. Qed.

(** Digits up to a byte that is none. *)
Lemma emits_parse_loop p f : ∀ ds e acc k,
  (∀ q, p + k ≤ q ≤ p + k + Z.of_nat (length ds) → ¬ busy q) →
  bytes_at m0 (p + k) (ds ++ [e]) → Forall is_digit ds → ¬ is_digit e → 0 ≤ e < 128 → 0 ≤ acc →
  digits_value acc ds < 2147483648 → (length ds < f)%nat →
  emits (loop f (λ '(ret, len),
    b ← kload (p + len);
    if b =? 0 then mret (inr (ret, len))
    else if (57 <? s8 b) || (s8 b <? 48) then mret (inr (ret, len))
    else mret (inl (s32 (s32 (ret * 10) + (s8 b - 48)), len + 1))) (acc, k))
    (digits_value acc ds, k + Z.of_nat (length ds)) [].
Proof.
  induction f as [|f IH]; intros ds e acc k Hnb Hb Hd He Hbe Ha Hv Hf; [lia|].
  assert (Hload : ∀ b, (ds ++ [e]) !! 0%nat = Some b → emits (kload (p + k)) b []).
  { intros b Hx. apply emits_load; [|apply Hnb; lia]. rewrite <- (Z.add_0_r (p + k)). exact (Hb 0%nat b Hx). }
  destruct ds as [|b ds].
  - apply emits_done. eapply emits_then; [by apply Hload|]. simpl. rewrite Z.add_0_r. unfold is_digit in He. unfold s8.
    destruct (Z.eqb_spec e 0); [apply emits_ret|]. destruct (Z.ltb_spec e 128); [|lia].
    destruct (Z.ltb_spec 57 e), (Z.ltb_spec e 48); try apply emits_ret. exfalso. lia.
  - apply Forall_cons in Hd as [Hbd Hd]. unfold is_digit in Hbd. simpl in Hv.
    pose proof (digits_value_ge (acc * 10 + (b - 48)) ds Hd ltac:(lia)).
    change (@nil Z) with ([] ++ [] : list Z). eapply emits_next.
    + eapply emits_then; [by apply Hload|]. unfold s8. destruct (Z.eqb_spec b 0); [lia|]. destruct (Z.ltb_spec b 128); [|lia].
      destruct (Z.ltb_spec 57 b); [lia|]. destruct (Z.ltb_spec b 48); [lia|]. cbn [orb].
      rewrite (s32_small (acc * 10)), s32_small by lia. apply emits_ret.
    + simpl length in *. replace (k + Z.of_nat (S (length ds))) with (k + 1 + Z.of_nat (length ds)) by lia.
      apply (IH ds e (acc * 10 + (b - 48)) (k + 1)); try done; try lia.
      * intros q Hq. apply Hnb. lia.
      * change ((b :: ds) ++ [e]) with ([b] ++ (ds ++ [e])) in Hb. apply bytes_at_app in Hb as [_ Hb].
        by rewrite Z.add_assoc.
Qed.

Lemma kept_bytes_at text s p bs : writing text s → (∀ q, p ≤ q < p + Z.of_nat (length bs) → ¬ busy q) → bytes_at m0 p bs →
  bytes_at (kmem s) p bs.
Proof.
  intros Hw Hnb. apply bytes_at_frame. intros q Hq. apply (wr_kept _ _ Hw). by apply Hnb.
Qed.

Lemma emits_parse p ds e :
  (∀ q, p ≤ q ≤ p + Z.of_nat (length ds) → ¬ busy q) →
  bytes_at m0 p (ds ++ [e]) → Forall is_digit ds → ¬ is_digit e → 0 ≤ e < 128 → digits_value 0 ds < 2147483648 →
  emits (parse_uint p) (digits_value 0 ds, Z.of_nat (length ds)) [].
Proof.
  intros Hnb Hb Hd He Hbe Hv text s Hw. unfold parse_uint.
  rewrite (bind_ok _ _ _ (S (size (kmem s))) s) by done.
  assert (Hsz : (length (ds ++ [e]) ≤ size (kmem s))%nat).
  { apply bytes_at_size with (p := p). eapply kept_bytes_at; [done| |done]. intros q Hq. apply Hnb.
    rewrite length_app in Hq. simpl in Hq. lia. }
  rewrite length_app in Hsz. simpl in Hsz.
  apply (emits_parse_loop p _ ds e 0 0); rewrite ?Z.add_0_r; try done; lia.
Qed.

(** *** Formats *)

Definition readable (p : Z) (n : nat) : Prop := ∀ q, p ≤ q < p + Z.of_nat n → ¬ busy q.

Definition piece_ok (x : piece) : Prop :=
  match x with
  | Lit b => plain b ∧ b ≠ 0 ∧ b ≠ 37
  | Percent => True
  | Char b => plain b
  | Str p t => cstr m0 p t ∧ p ≠ 0 ∧ Forall plain t ∧ readable p (S (length t))
  | Cut ds p t =>
    Forall is_digit ds ∧ digits_value 0 ds = Z.of_nat (length t) ∧ digits_value 0 ds < 2147483648 ∧
    bytes_at m0 p t ∧ Forall plain t ∧ readable p (length t)
  | Int n => -2147483648 < n < 2147483648 ∧ reversible 10 2147483648 (Z.abs n)
  | Unsigned n => reversible 10 4294967296 n
  | Hex n => 0 ≤ n < 4294967296
  | Padded d1 d2 n => is_digit d1 ∧ is_digit d2 ∧ 0 ≤ n < 4294967296
  end.

Lemma emits_at p l k b : bytes_at m0 p l → readable p (length l) → l !! k = Some b → emits (kload (p + Z.of_nat k)) b [].
Proof.
  intros Hb Hr Hk. pose proof (lookup_lt_Some _ _ _ Hk). apply emits_load; [by apply Hb|]. apply Hr. lia.
Qed.

Lemma emits_strlen p t : cstr m0 p t → p ≠ 0 → readable p (S (length t)) →
  emits (on_con (on_tt (on_tmem (strlen p)))) (Z.of_nat (length t)) [].
Proof.
  intros [Hb Hc] Hp Hr. apply emits_read. intros m Hm. apply strlen_run; [|done]. split; [|done].
  eapply bytes_at_frame; [|done]. intros q Hq. apply Hm, Hr. rewrite length_app in Hq. simpl in Hq. lia.
Qed.

(** A conversion writes what its piece renders to. *)
Lemma emits_conversion x p rest : piece_ok x → (∀ b, x ≠ Lit b) → bytes_at m0 p (fmt_of x) → readable p (length (fmt_of x)) →
  emits (conversion wbuffer p (args_of x ++ rest)) (Z.of_nat (length (fmt_of x)), counted x, rest) (render x).
Proof.
  intros Hok Hnl Hb Hr. unfold conversion. pose proof (λ k b, emits_at p (fmt_of x) k b Hb Hr) as Hl.
  destruct x as [b| |b|q t|ds q t|n|n|n|d1 d2 n]; [by destruct (Hnl b)|..]; simpl in Hok.
  all: eapply emits_then; [by apply (Hl 1%nat)|].
  - eapply emits_last; [apply emits_byte; unfold plain, is_byte, ESC; lia|apply emits_ret].
  - eapply emits_then; [apply emits_ret|]. pose proof Hok as [[? ?] _]. simpl. rewrite u8_small by lia.
    eapply emits_last; [by apply emits_byte|apply emits_ret].
  - destruct Hok as (Hc & Hp & Hpl & Hrd). eapply emits_then; [apply emits_ret|].
    eapply emits_then; [by apply emits_strlen|]. eapply emits_last; [apply (emits_print q t); [|done|]|apply emits_ret].
    + destruct Hc as [Hc _]. by apply bytes_at_app in Hc as [Hc _].
    + intros z Hz. apply Hrd. lia.
  - destruct Hok as (Hd & Hv & Hlt & Hbt & Hpl & Hrd). cbn [fmt_of] in *. pose proof (digits_value_ge 0 ds Hd ltac:(lia)).
    rewrite !length_app in *. cbn [length] in *. change ([37; 46] ++ ds ++ [115]) with ([37; 46] ++ (ds ++ [115])) in Hb.
    apply bytes_at_app in Hb as [_ Hb]. cbn [length] in Hb. change (Z.of_nat 2) with 2 in Hb.
    eapply emits_then; [apply (emits_parse (p + 2) ds 115); try done; [|unfold is_digit; lia]|].
    { intros z Hz. apply Hr. lia. }
    eapply emits_then.
    { apply emits_load; [|apply Hr; lia]. apply bytes_at_app in Hb as [_ Hb]. rewrite <- (Z.add_0_r (_ + _ + _)). exact (Hb 0%nat 115 eq_refl). }
    eapply emits_then; [apply emits_ret|]. cbv beta iota. rewrite u32_small, Hv by lia.
    eapply emits_last; [by apply (emits_print q t)|].
    replace (Z.of_nat (length ds) + 3) with (Z.of_nat (2 + (length ds + 1))) by lia. apply emits_ret.
  - destruct Hok as (Hn & Hrv). eapply emits_then; [apply emits_ret|]. cbv beta iota. rewrite s32_u32 by lia.
    eapply emits_last; [apply emits_int; [lia|done]|apply emits_ret].
  - eapply emits_then; [apply emits_ret|]. cbv beta iota. rewrite u32_small by apply u32_range. rewrite u32_small by apply Hok.
    eapply emits_last; [apply (emits_number u32 10 4294967296); [intros; by apply u32_small|lia|done]|apply emits_ret].
  - eapply emits_then; [apply emits_ret|]. cbv beta iota. rewrite u32_small by apply u32_range. rewrite u32_small by apply Hok.
    eapply emits_last; [apply (emits_number u32 16 4294967296); [intros; by apply u32_small|lia|by apply hex_reversible]|apply emits_ret].
  - destruct Hok as (H1 & H2 & Hn). unfold is_digit in H1, H2.
    rewrite !(proj2 (Z.eqb_neq d1 _)) by lia.
    eapply emits_then; [by apply (Hl 3%nat)|]. eapply emits_then; [apply emits_ret|].
    eapply emits_then; [by apply (Hl 1%nat)|]. eapply emits_then; [by apply (Hl 2%nat)|]. cbv beta iota.
    rewrite u32_small by apply u32_range. rewrite u32_small by apply Hn. unfold s8.
    destruct (Z.ltb_spec d1 128); [|lia]. destruct (Z.ltb_spec d2 128); [|lia].
    eapply emits_last; [by apply emits_padded|apply emits_ret].
Qed.

(** One piece in the loop over the format. *)
Lemma emits_step fmt i n x rest : piece_ok x → bytes_at m0 (fmt + i) (fmt_of x) → readable (fmt + i) (length (fmt_of x)) →
  0 ≤ i → i + Z.of_nat (length (fmt_of x)) < 2147483648 → 0 ≤ n → n + counted x < 2147483648 →
  emits (format_step wbuffer fmt (i, n, args_of x ++ rest))
    (inl (i + Z.of_nat (length (fmt_of x)), n + counted x, rest)) (render x).
Proof.
  intros Hok Hb Hr Hi Hil Hn Hnl. pose proof (counted_nonneg x). unfold format_step.
  assert (Hx : (∃ b, x = Lit b) ∨ ∀ b, x ≠ Lit b) by (destruct x; eauto). destruct Hx as [[b ->]|Hc].
  - destruct Hok as (Hp & Hb0 & H37). eapply emits_then.
    { rewrite <- (Z.add_0_r (fmt + i)). by apply (emits_at _ [b] 0%nat). }
    rewrite (proj2 (Z.eqb_neq _ _) Hb0), (proj2 (Z.eqb_neq _ _) H37). cbn [fmt_of length counted] in *.
    eapply emits_last; [by apply emits_byte|]. rewrite !u32_small by lia. apply emits_ret.
  - eapply emits_then.
    { rewrite <- (Z.add_0_r (fmt + i)). apply (emits_at _ (fmt_of x) 0%nat 37); [done|done|].
      destruct x as [b| | | | | | | |]; try done. by destruct (Hc b). }
    cbn [Z.eqb Pos.eqb]. eapply emits_last; [by apply emits_conversion|]. cbv beta iota.
    rewrite !u32_small by lia. apply emits_ret.
Qed.

Lemma emits_format fmt f : ∀ ps i n,
  Forall piece_ok ps → bytes_at m0 (fmt + i) (format ps ++ [0]) → readable (fmt + i) (S (length (format ps))) →
  0 ≤ i → i + Z.of_nat (length (format ps)) < 2147483648 → 0 ≤ n → n + count ps < 2147483648 → (length ps < f)%nat →
  emits (loop f (format_step wbuffer fmt) (i, n, arguments ps)) (n + count ps) (rendered ps).
Proof.
  induction f as [|f IH]; intros ps i n Hok Hb Hr Hi Hil Hn Hnl Hf; [lia|]. destruct ps as [|x ps].
  - cbn [count foldr]. rewrite Z.add_0_r. apply emits_done. unfold format_step. eapply emits_then.
    { rewrite <- (Z.add_0_r (fmt + i)). by apply (emits_at _ [0] 0%nat 0). }
    apply emits_ret.
  - apply Forall_cons in Hok as [Hx Hok]. change (format (x :: ps)) with (fmt_of x ++ format ps) in *.
    change (arguments (x :: ps)) with (args_of x ++ arguments ps). change (rendered (x :: ps)) with (render x ++ rendered ps).
    change (count (x :: ps)) with (counted x + count ps) in *. pose proof (counted_nonneg x). pose proof (count_nonneg ps).
    rewrite <- app_assoc in Hb. apply bytes_at_app in Hb as [Hb1 Hb2]. rewrite length_app in *.
    eapply emits_next.
    + apply emits_step; try done; try lia. intros q Hq. apply Hr. lia.
    + rewrite Z.add_assoc. apply IH; try done; try lia.
      * by rewrite Z.add_assoc.
      * intros q Hq. apply Hr. lia.
      * simpl in Hf. lia.
Qed.

Lemma log_none fmt l : bytes_at m0 fmt (l ++ [0]) → readable fmt (S (length l)) → head l ≠ Some 60 →
  emits (log_prefix fmt) None [].
Proof.
  intros Hb Hr Hh. unfold log_prefix. destruct (l ++ [0]) as [|c l'] eqn:E; [by destruct l|].
  assert (Hc : c ≠ 60) by (destruct l; simpl in *; congruence).
  eapply emits_then.
  { rewrite <- (Z.add_0_r fmt). apply (emits_at fmt (c :: l') 0%nat c); [done| |done].
    rewrite <- E, length_app, Nat.add_1_r. done. }
  rewrite (proj2 (Z.eqb_neq _ _) Hc). apply emits_ret.
Qed.

(** The whole of [printk], with no log level. *)
Lemma printk_run lit depth fmt ps text s :
  writing text s → level = 0 → Forall piece_ok ps → head (format ps) ≠ Some 60 →
  bytes_at m0 fmt (format ps ++ [0]) → readable fmt (S (length (format ps))) →
  Z.of_nat (length (format ps)) < 2147483648 → count ps < 2147483648 →
  ∃ s', printk_rec wbuffer lit (S depth) fmt (arguments ps) s = Ok (count ps, s') ∧
    writing (text ++ rendered ps) s' ∧ shown (text ++ rendered ps) (k_con s') ∧ k_iter s' = 0.
Proof.
  intros Hw Hlv Hok Hh Hb Hr Hlen Hcnt. pose proof (count_nonneg ps). cbn [printk_rec].
  rewrite (bind_ok _ _ _ 0 s) by (unfold get; by rewrite (wr_level _ _ Hw), Hlv).
  destruct (log_none fmt (format ps) Hb Hr Hh text s Hw) as (s1 & H1 & Hw1). rewrite app_nil_r in Hw1.
  rewrite (bind_ok _ _ _ _ _ H1). change (s32 0) with 0. cbn [Z.eqb negb].
  rewrite (bind_ok _ _ _ tt s1) by done. rewrite (bind_ok _ _ _ (S (size (kmem s1))) s1) by done.
  assert (Hsz : (length (format ps ++ [0%Z]) ≤ size (kmem s1))%nat).
  { apply bytes_at_size with (p := fmt). eapply kept_bytes_at; [exact Hw1| |done].
    rewrite length_app, Nat.add_1_r. exact Hr. }
  rewrite length_app in Hsz. simpl in Hsz. pose proof (format_length ps).
  destruct (emits_format fmt (S (size (kmem s1))) ps 0 0) with (text := text) (s := s1) as (s2 & Hp2 & Hw2);
    rewrite ?Z.add_0_r; try done; try lia.
  rewrite (bind_ok _ _ _ _ _ Hp2). destruct (flush_run _ _ Hw2) as (s3 & Hf3 & Hw3 & Hs3 & Hi3).
  rewrite (bind_ok _ _ _ _ _ Hf3), (bind_ok _ _ _ tt s3) by done. exists s3.
  rewrite Z.add_0_l, s32_small by lia. done.
Qed.
End emit.

(** What [printk] shows, from its own start. *)
Lemma printk_shows `{!Descriptors} wbuffer owned `{!Shows wbuffer owned} lit s out fmt ps :
  shown out (k_con s) → k_iter s = 0 → k_level s = 0 → mapped (kmem s) wbuffer 128 →
  Forall (piece_ok wbuffer owned (kmem s)) ps → head (format ps) ≠ Some 60 →
  bytes_at (kmem s) fmt (format ps ++ [0]) → readable wbuffer owned fmt (S (length (format ps))) →
  Z.of_nat (length (format ps)) < 2147483648 → count ps < 2147483648 →
  ∃ s', printk wbuffer lit fmt (arguments ps) s = Ok (count ps, s') ∧
    shown (out ++ rendered ps) (k_con s') ∧ k_iter s' = 0 ∧ k_level s' = 0 ∧
    ∀ q, ¬ busy wbuffer owned q → kmem s' !! q = kmem s !! q.
Proof.
  intros Hsh Hi Hl Hm Hok Hh Hb Hr Hlen Hcnt.
  assert (Hw : writing wbuffer owned (kmem s) 0 out s).
  { exists out []; try done; [by rewrite app_nil_r|simpl; lia]. }
  destruct (printk_run wbuffer owned (kmem s) 0 lit 1 fmt ps out s) as (s' & Hp & Hw' & Hs' & Hi'); try done.
  exists s'. split_and!; try done; [exact (wr_level _ _ _ _ _ _ Hw')|exact (wr_kept _ _ _ _ _ _ Hw')].
Qed.

(** ** The terminal as descriptor 1 *)

Section screen.
Variables (mode width height : Z) (rgb : Z → Z).

(** The write functions behind descriptors 1 and 2 of a task. *)
#[local] Instance console_descriptors : Descriptors := {|
  write_fd fd buf n :=
    if fd =? 1 then tty_stdoutwrite mode width height rgb buf n
    else if fd =? 2 then tty_stderrwrite mode width height rgb buf n
    else mret (-1)
|}.

(** Terminal [i] with buffer [buf], the screen [sc0] and the serial bytes at the start. *)
Variables (i buf : Z) (c : tty_ctrl) (sc0 : screen) (serial0 : list Z) (wbuffer : Z).

Definition screen_size : Z := 2 * (tc_col_max c * tc_row_max c).

Definition in_screen (q : Z) : Prop := buf ≤ q < buf + screen_size.

Definition after (out : list Z) : screen := type_text (tc_col_max c) (tc_row_max c) (tc_color c) out sc0.

Record on_screen (out : list Z) (s : cst) : Prop := OnScreen {
  os_dev : tty_dev;
  os_ok : tty_ok (c_tt s) i os_dev c;
  os_task : tt_task (c_tt s) = i;
  os_enabled : td_disabled os_dev = 0;
  os_buffer : td_buffer os_dev = buf;
  os_cursor : td_c_col os_dev = sc_col (after out) ∧ td_c_row os_dev = sc_row (after out);
  os_screen : screen_ok c (after out);
  os_cells : bytes_at (con_mem s) buf (flat (sc_cells (after out)));
  os_serial : c_serial s = lrev out ++ serial0
}.

(** The bytes go to the serial port first. *)
Lemma serial_run buffer bs s f : ∀ k, bytes_at (con_mem s) (buffer + k) bs → 0 ≤ k → (length bs ≤ f)%nat → ∀ n, n = k + Z.of_nat (length bs) →
  loop (S f) (λ i, if i <? n then b ← on_tt (on_tmem (load8 (buffer + i))); _ ← to_serial b; mret (inl (i + 1)) else mret (inr tt)) k s =
  Ok (tt, Cst (c_tt s) (lrev bs ++ c_serial s)).
Proof.
  revert bs s. induction f as [|f IH]; intros bs s k Hb Hk Hf n ->.
  - destruct bs; [|simpl in Hf; lia]. apply loop_done. simpl. rewrite Z.add_0_r, Z.ltb_irrefl. by destruct s.
  - destruct bs as [|b bs]; [apply loop_done; simpl; rewrite Z.add_0_r, Z.ltb_irrefl; by destruct s|].
    change (b :: bs) with ([b] ++ bs) in Hb. apply bytes_at_app in Hb as [Hb1 Hb2]. cbn [length] in *.
    assert (Hload : on_tt (on_tmem (load8 (buffer + k))) s = Ok (b, s)).
    { unfold on_tt. rewrite (run_tload (c_tt s) _ b); [by destruct s|]. rewrite <- (Z.add_0_r (buffer + k)). exact (Hb1 0%nat b eq_refl). }
    rewrite (loop_next _ _ _ _ (k + 1) (Cst (c_tt s) (b :: c_serial s))).
    + rewrite (IH bs (Cst (c_tt s) (b :: c_serial s)) (k + 1)); [|by rewrite Z.add_assoc|lia|lia|lia].
      rewrite reverse_cons, <- app_assoc. done.
    + destruct (Z.ltb_spec k (k + Z.of_nat (S (length bs)))); [|lia]. by rewrite (bind_ok _ _ _ _ _ Hload).
Qed.

Lemma after_app out bs : after (out ++ bs) = type_text (tc_col_max c) (tc_row_max c) (tc_color c) bs (after out).
Proof. unfold after, type_text. by rewrite foldl_app. Qed.

(** What is written to the standard output is typed on the screen. *)
Lemma stdout_run out text bs s : on_screen out s → bytes_at (con_mem s) text bs → Forall plain bs → (length bs ≤ 127)%nat →
  disjoint_blocks text (Z.of_nat (length bs)) buf screen_size →
  ∃ s', tty_stdoutwrite mode width height rgb text (Z.of_nat (length bs)) s = Ok (Z.of_nat (length bs) + 1, s') ∧ on_screen (out ++ bs) s' ∧
    ∀ q, ¬ in_screen q → con_mem s' !! q = con_mem s !! q.
Proof.
  intros [d Hok Ht Hen Hbuf [Hcc Hcr] Hsc Hcells Hser] Hb Hp Hl Hap.
  set (s1 := Cst (c_tt s) (lrev bs ++ c_serial s)).
  assert (Hby : Forall is_byte bs) by (eapply Forall_impl; [done|by intros ? []]).
  assert (Hesc : ESC ∉ bs) by (intros Hin; rewrite Forall_forall in Hp; by destruct (Hp ESC Hin)).
  assert (Esc : Screen (sc_cells (after out)) (td_c_col d) (td_c_row d) = after out) by (rewrite Hcc, Hcr; by destruct (after out)).
  destruct (tty_write_run mode width height rgb (c_tt s) i d c (sc_cells (after out)) text bs)
    as (t' & Hrun & Hcells' & Hsc' & Hdevs & Hctrl & Htask & Hout); try done; try lia.
  { by rewrite Esc. } { by rewrite Hbuf. } { by rewrite Hbuf. }
  rewrite Esc, <- after_app in *. rewrite Hbuf in *.
  exists (Cst t' (lrev bs ++ c_serial s)). split_and!; [| |exact Hout].
  - unfold tty_stdoutwrite. rewrite (bind_ok _ _ _ tt s1).
    2: { apply serial_run; [by rewrite Z.add_0_r|lia|lia|lia]. }
    rewrite (bind_ok _ _ _ i s1) by (unfold on_tt, get; simpl; by rewrite Ht).
    rewrite (bind_ok _ _ _ i s1).
    + unfold on_tt, s1. cbn [c_tt c_serial]. by rewrite Hrun.
    + unfold on_tt, tty_get_device. simpl. by rewrite (bind_ok _ _ _ _ _ (run_control _ c (ok_ctrl _ _ _ _ Hok))).
  - pose proof Hok as [Hc Hss Hcol Hrow Hsz [Hi Hdev]].
    exists (with_cursor (sc_col (after (out ++ bs))) (sc_row (after (out ++ bs))) d); try done.
    + split; try done; [cbn [c_tt]; by rewrite Hctrl|]. split; [done|]. cbn [c_tt]. rewrite Hdevs. apply list_lookup_insert_eq.
      by apply lookup_lt_Some in Hdev.
    + simpl. by rewrite Htask.
    + simpl. by rewrite Hser, reverse_app, app_assoc.
Qed.

Hypothesis apart : disjoint_blocks wbuffer 128 buf screen_size.

Lemma screen_write out bs s : on_screen out s → bytes_at (con_mem s) wbuffer bs → Forall plain bs → (length bs ≤ 127)%nat →
  ∃ r s', write_fd 1 wbuffer (Z.of_nat (length bs)) s = Ok (r, s') ∧ on_screen (out ++ bs) s' ∧
    ∀ q, ¬ in_screen q → con_mem s' !! q = con_mem s !! q.
Proof.
  intros Hs Hb Hp Hl. destruct (stdout_run out wbuffer bs s) as (s' & E & Hs' & Hq); try done; [destruct apart; [left|right]; lia|].
  by exists (Z.of_nat (length bs) + 1), s'.
Qed.

Lemma screen_frame out m s : on_screen out s → (∀ q, in_screen q → m !! q = con_mem s !! q) → on_screen out (with_con_mem m s).
Proof.
  intros [d Hok Ht Hen Hbuf Hcur Hsc Hcells Hser] Hm. exists d; try done; [by apply tty_ok_mem|].
  eapply bytes_at_frame; [|exact Hcells]. intros q Hq. apply Hm. unfold in_screen, screen_size.
  rewrite flat_length in Hq. pose proof (so_length _ _ Hsc). lia.
Qed.

#[local] Instance screen_shows : Shows wbuffer in_screen.
Proof.
  refine {| shown := on_screen; shown_write := screen_write; shown_frame := screen_frame |}.
  intros q Hq Hin. unfold in_screen in Hin. destruct apart; lia.
Defined.
End screen.

(** ** A console *)

(** The screen of four columns and two rows at 100, wbuffer at 300, and the format x=%x %i
    at 500. *)
Definition demo_pieces : list piece := [Lit 120; Lit 61; Hex 255; Lit 32; Int (-7)].

Definition demo_console : kst :=
  Kst (Cst (Ttys (write_at (write_at (write_at ∅ 100 (flat demo_cells)) 300 (replicate 128 0)) 500 (format demo_pieces ++ [0]))
              (Some demo_ctrl) [demo_dev] [] 0) []) 0 0.

Lemma demo_console_ok : tty_ok (c_tt (k_con demo_console)) 0 demo_dev demo_ctrl.
Proof. by split. Qed.

Lemma demo_console_cells : bytes_at (kmem demo_console) 100 (flat demo_cells).
Proof. apply bytes_at_write; [by left|]. apply bytes_at_write; [by left|apply write_at_in]. Qed.

Lemma demo_console_mapped : mapped (kmem demo_console) 300 128.
Proof.
  intros q Hq. unfold kmem, con_mem, demo_console. cbn [k_con c_tt tt_mem]. rewrite write_at_out by lia.
  destruct (write_at_mapped (write_at ∅ 100 (flat demo_cells)) 300 (replicate 128 0) q) as [b Hb]; [rewrite length_replicate; lia|].
  by exists b.
Qed.

Lemma demo_apart : disjoint_blocks 300 128 100 (screen_size demo_ctrl).
Proof. right. by vm_compute. Qed.

Lemma demo_pieces_ok owned : Forall (piece_ok 300 owned (kmem demo_console)) demo_pieces.
Proof.
  assert (Hp : ∀ b, 32 ≤ b < 37 ∨ 37 < b < 128 → plain b ∧ b ≠ 0 ∧ b ≠ 37) by (unfold plain, is_byte, ESC; lia).
  repeat apply Forall_cons_2; try apply Forall_nil_2.
  - apply Hp. lia.
  - apply Hp. lia.
  - simpl. lia.
  - apply Hp. lia.
  - by vm_compute.
Qed.

(** ** Theorems *)

(** C18: Formatted output.  With no log level, [printk] of any format made of characters,
    %%, %c, %s, %.<n>s, %i, %u, %x and %<nn>x writes exactly the text the pieces render to,
    through a buffer of 128 bytes that is flushed as often as needed: every descriptor 1
    that shows what it is given shows that text after what it showed before, the buffer
    is empty, and memory outside it and outside the descriptor's own is unchanged.
    Hexadecimal numbers are right for all 32-bit values, decimal ones if their digits fit
    in 32 bits when reversed.  The result counts the characters that are not part of
    numbers. *)
Theorem printk_formats `{!Descriptors} wbuffer owned `{!Shows wbuffer owned} lit s out fmt ps :
  shown out (k_con s) → k_iter s = 0 → k_level s = 0 → mapped (kmem s) wbuffer 128 →
  Forall (piece_ok wbuffer owned (kmem s)) ps → head (format ps) ≠ Some 60 →
  bytes_at (kmem s) fmt (format ps ++ [0]) → readable wbuffer owned fmt (S (length (format ps))) →
  Z.of_nat (length (format ps)) < 2147483648 → count ps < 2147483648 →
  ∃ s', printk wbuffer lit fmt (arguments ps) s = Ok (count ps, s') ∧
    shown (out ++ rendered ps) (k_con s') ∧ k_iter s' = 0 ∧ k_level s' = 0 ∧
    ∀ q, ¬ busy wbuffer owned q → kmem s' !! q = kmem s !! q.
Proof. apply printk_shows. Qed.

Lemma printk_formats_witness :
  let H := console_descriptors 0 80 25 id in
  let Hs : Shows 300 (in_screen 100 demo_ctrl) :=
    screen_shows 0 80 25 id 0 100 demo_ctrl (Screen demo_cells 0 0) [] 300 demo_apart in
  rendered demo_pieces = [120; 61; 70; 70; 32; 45; 55] ∧
  ∃ s', printk 300 (λ _, 0) 500 (arguments demo_pieces) demo_console = Ok (count demo_pieces, s') ∧
    shown ([] ++ rendered demo_pieces) (k_con s') ∧ k_iter s' = 0 ∧ k_level s' = 0 ∧
    ∀ q, ¬ busy 300 (in_screen 100 demo_ctrl) q → kmem s' !! q = kmem demo_console !! q.
Proof.
  intros H Hs. split; [reflexivity|].
  refine (printk_formats 300 (in_screen 100 demo_ctrl) (λ _, 0) demo_console [] 500 demo_pieces
    _ eq_refl eq_refl demo_console_mapped (demo_pieces_ok _) _ _ _ _ _).
  - exists demo_dev; try done; [apply demo_screen_ok|apply demo_console_cells].
  - by vm_compute.
  - apply write_at_in.
  - intros q Hq [Hin|Hin]; [unfold in_screen, screen_size in Hin; simpl in Hin|]; lia.
  - by vm_compute.
  - by vm_compute.
Defined.

(** C36: From [printk] to the screen.  On a task whose descriptor 1 is its terminal,
    [printk] of a format leaves the screen that typing its rendered text gives: the
    terminal's buffer holds exactly those cells, with wrapping and scrolling, its cursor
    is that of the abstract screen, the same bytes went to the serial port in order, and
    no memory but the two buffers has changed. *)
Theorem printk_on_screen mode width height rgb lit s i d c cells wbuffer fmt ps :
  let tt := c_tt (k_con s) in
  let H := console_descriptors mode width height rgb in
  tty_ok tt i d c → tt_task tt = i → td_disabled d = 0 →
  screen_ok c (Screen cells (td_c_col d) (td_c_row d)) → bytes_at (kmem s) (td_buffer d) (flat cells) →
  k_iter s = 0 → k_level s = 0 → mapped (kmem s) wbuffer 128 →
  disjoint_blocks wbuffer 128 (td_buffer d) (screen_size c) →
  let own := in_screen (td_buffer d) c in
  Forall (piece_ok wbuffer own (kmem s)) ps → head (format ps) ≠ Some 60 →
  bytes_at (kmem s) fmt (format ps ++ [0]) → readable wbuffer own fmt (S (length (format ps))) →
  Z.of_nat (length (format ps)) < 2147483648 → count ps < 2147483648 →
  let sc' := type_text (tc_col_max c) (tc_row_max c) (tc_color c) (rendered ps) (Screen cells (td_c_col d) (td_c_row d)) in
  ∃ s' d', printk wbuffer lit fmt (arguments ps) s = Ok (count ps, s') ∧
    tty_ok (c_tt (k_con s')) i d' c ∧ td_c_col d' = sc_col sc' ∧ td_c_row d' = sc_row sc' ∧ td_buffer d' = td_buffer d ∧
    bytes_at (kmem s') (td_buffer d) (flat (sc_cells sc')) ∧
    c_serial (k_con s') = lrev (rendered ps) ++ c_serial (k_con s) ∧
    ∀ q, ¬ busy wbuffer own q → kmem s' !! q = kmem s !! q.
Proof.
  intros tt H Hok Ht Hen Hsc Hcells Hi Hl Hm Hap own Hps Hh Hb Hr Hlen Hcnt sc'.
  pose (Hs := screen_shows mode width height rgb i (td_buffer d) c (Screen cells (td_c_col d) (td_c_row d))
    (c_serial (k_con s)) wbuffer Hap).
  destruct (printk_shows wbuffer own lit s [] fmt ps) as (s' & Hp & Hsh & _ & _ & Hk); try done.
  { exists d; done. }
  destruct Hsh as [d' Hok' _ _ Hbuf' [Hc' Hr'] _ Hcells' Hser']. by exists s', d'.
Qed.

Lemma printk_on_screen_witness :
  let H := console_descriptors 0 80 25 id in
  let sc' := type_text 4 2 7 (rendered demo_pieces) (Screen demo_cells 0 0) in
  sc_cells sc' = [(120, 7); (61, 7); (70, 7); (70, 7); (32, 7); (45, 7); (55, 7); (32, 7)] ∧
  ∃ s' d', printk 300 (λ _, 0) 500 (arguments demo_pieces) demo_console = Ok (count demo_pieces, s') ∧
    tty_ok (c_tt (k_con s')) 0 d' demo_ctrl ∧ td_c_col d' = sc_col sc' ∧ td_c_row d' = sc_row sc' ∧ td_buffer d' = 100 ∧
    bytes_at (kmem s') 100 (flat (sc_cells sc')) ∧
    c_serial (k_con s') = lrev (rendered demo_pieces) ++ [] ∧
    ∀ q, ¬ busy 300 (in_screen 100 demo_ctrl) q → kmem s' !! q = kmem demo_console !! q.
Proof.
  intros H sc'. split; [reflexivity|].
  refine (printk_on_screen 0 80 25 id (λ _, 0) demo_console 0 demo_dev demo_ctrl demo_cells 300 500 demo_pieces
    demo_console_ok eq_refl eq_refl demo_screen_ok demo_console_cells eq_refl eq_refl demo_console_mapped
    demo_apart (demo_pieces_ok _) _ _ _ _ _).
  - by vm_compute.
  - apply write_at_in.
  - intros q Hq [Hin|Hin]; [unfold in_screen, screen_size in Hin; simpl in Hin|]; lia.
  - by vm_compute.
  - by vm_compute.
Defined.

(** A default log level.  With [g_kernel_log_level] set to 6 or 7 [printk] of a format
    without a level of its own never returns: it prints the level's text by calling
    itself, and that text has no level either, so every depth of recursion is used up. *)
Theorem printk_level_recurses `{!Descriptors} wbuffer lit s depth fmt args c :
  k_level s = 6 ∨ k_level s = 7 →
  bytes_at (kmem s) (lit INFO_PREFIX) (INFO_PREFIX ++ [0]) → bytes_at (kmem s) (lit DEBUG_PREFIX) (DEBUG_PREFIX ++ [0]) →
  kmem s !! fmt = Some c → c ≠ 60 →
  printk_rec wbuffer lit depth fmt args s = Hang.
Proof.
  intros Hlv Hinfo Hdebug Hc Hne. revert fmt args c Hc Hne. induction depth as [|depth IH]; intros fmt args c Hc Hne; [done|].
  cbn [printk_rec]. rewrite (bind_ok _ _ _ (k_level s) s) by done.
  assert (Hload : kload fmt s = Ok (c, s)).
  { unfold kload, on_con, on_tt. rewrite (run_tload (c_tt (k_con s)) fmt c Hc). by destruct s as [[? ?] ? ?]. }
  rewrite (bind_ok _ _ _ None s).
  2: { unfold log_prefix. rewrite (bind_ok _ _ _ _ _ Hload). by rewrite (proj2 (Z.eqb_neq _ _) Hne). }
  pose proof (Hinfo 0%nat 91 eq_refl) as H6. pose proof (Hdebug 0%nat 27 eq_refl) as H7. rewrite Z.add_0_r in H6, H7.
  destruct Hlv as [-> | ->]; [change (s32 6) with 6|change (s32 7) with 7]; cbn [Z.eqb Pos.eqb]; unfold mbind, M_bind.
  - by rewrite (IH _ [] _ H6).
  - by rewrite (IH _ [] _ H7).
Qed.

Lemma printk_level_recurses_witness :
  let H := console_descriptors 0 80 25 id in
  let m := write_at (write_at (write_at ∅ 500 [104; 105; 0]) 600 (INFO_PREFIX ++ [0])) 700 (DEBUG_PREFIX ++ [0]) in
  printk_rec 300 (λ l, if decide (l = INFO_PREFIX) then 600 else 700) 5 500 []
    (Kst (Cst (Ttys m None [] [] 0) []) 0 7) = Hang.
Proof.
  refine (printk_level_recurses 300 _ (Kst (Cst (Ttys _ None [] [] 0) []) 0 7) 5 500 [] 104 (or_intror eq_refl) _ _ _ _).
  - apply bytes_at_write; [by left|apply write_at_in].
  - apply write_at_in.
  - by vm_compute.
  - done.
Defined.
