(* ===== verification/Stdin.v ===== *)
(** * The standard input (kernel/fs/fs.c)

    What the keyboard types goes through [tty_stdinwrite]: a character is put into the pipe
    of /dev/stdin and shown on the terminal, a backspace takes the last character back.  A
    line that was edited this way is proved to be what a program reads, and what the screen
    shows.  The pipe of the node is a part of the state. *)
From S2P Require Import Prelude LibK Ringbuffer Disk Format Tty TtyScreen Printk PrintkSpec.

Record stdin := StdIn { si_con : cst; si_pipe : option ringbuffer; si_errno : Z }.

Definition on_scon {A} (c : M cst A) : M stdin A := λ s,
  match c (si_con s) with
  | Ok (a, t) => Ok (a, StdIn t (si_pipe s) (si_errno s))
  | Fault => Fault
  | Hang => Hang
  end.

(** An operation on the pipe of the node, which leaves the ring buffer and errno. *)
Definition on_stdin_pipe {A} (c : option ringbuffer → result (A * option ringbuffer) * Z) : M stdin A := λ s,
  match c (si_pipe s) with
  | (Ok (a, r), e) => Ok (a, StdIn (si_con s) r (if e =? 0 then si_errno s else e))
  | (Fault, _) => Fault
  | (Hang, _) => Hang
  end.

Definition ERASE : Z := 8.

Section stdin.
Variables (mode width height : Z) (rgb : Z → Z).

Definition tty_stdinwrite (buffer size : Z) : M stdin Z :=
  b ← on_scon (on_tt (on_tmem (load8 buffer)));
  if b =? ERASE then
    r ← on_stdin_pipe (pipe_remove 1);
    _ ← (if r =? 0 then on_scon (tty_stdoutwrite mode width height rgb buffer size) else mret 0);
    mret 0
  else
    bs ← on_scon (on_tt (on_tmem (load_bytes (Z.to_nat size) buffer)));
    _ ← on_stdin_pipe (pipe_write_raw bs 0);
    _ ← on_scon (tty_stdoutwrite mode width height rgb buffer size);
    mret (s32 size).

(** ** Typing *)

(** A key as the keyboard sends it: one byte from its variable [c]. *)
Definition press (c key : Z) : M stdin unit :=
  _ ← on_scon (on_tt (on_tmem (store8 c key)));
  _ ← tty_stdinwrite c 1;
  mret tt.

Fixpoint type_keys (c : Z) (keys : list Z) : M stdin unit :=
  match keys with
  | [] => mret tt
  | k :: keys => _ ← press c k; type_keys c keys
  end.

(** The line that keys make of [line]. *)
Fixpoint edit (line : list Z) (keys : list Z) : list Z :=
  match keys with
  | [] => line
  | k :: keys => edit (if k =? ERASE then take (length line - 1) line else line ++ [k]) keys
  end.

(** What they show, when the line has [n] characters: a backspace only when there is one to
    take back. *)
Fixpoint echo (n : nat) (keys : list Z) : list Z :=
  match keys with
  | [] => []
  | k :: keys =>
    if k =? ERASE then if (n =? 0)%nat then echo 0 keys else k :: echo (n - 1) keys
    else k :: echo (S n) keys
  end.

(** Terminal, its buffer, the screen and the serial bytes at the start; where keys are. *)
Variables (i buf : Z) (ctrl : tty_ctrl) (sc0 : screen) (serial0 : list Z) (c : Z).
Hypothesis apart : disjoint_blocks c 1 buf (screen_size ctrl).

(** The screen shows [out] and the pipe holds the unfinished [line]. *)
Record typing (out line : list Z) (room : Z) (s : stdin) : Prop := Typing {
  ty_pipe : ringbuffer;
  ty_screen : on_screen i buf ctrl sc0 serial0 out (si_con s);
  ty_key : mapped (con_mem (si_con s)) c 1;
  ty_is : si_pipe s = Some ty_pipe;
  ty_line : rb_is ty_pipe line;
  ty_open : rb_cursize ty_pipe = 0;
  ty_block : nonblock ty_pipe = false;
  ty_room : virtual_end ty_pipe + room < USHRT_MAX
}.

Lemma run_scon {A} (m : M cst A) s a t : m (si_con s) = Ok (a, t) → on_scon m s = Ok (a, StdIn t (si_pipe s) (si_errno s)).
Proof. intros H. unfold on_scon. by rewrite H. Qed.

Lemma key_outside : ¬ in_screen buf ctrl c.
Proof. unfold in_screen. destruct apart; lia. Qed.

(** The key is in memory, and the rest as it was. *)
Lemma press_key out line room s k : typing out line room s → plain k →
  ∃ s', on_scon (on_tt (on_tmem (store8 c k))) s = Ok (tt, s') ∧ typing out line room s' ∧ bytes_at (con_mem (si_con s')) c [k] ∧
    si_pipe s' = si_pipe s.
Proof.
  intros [r Hs Hk Hr Hl Ho Hb Hroom] [Hby _]. set (m := <[c := u8 k]> (con_mem (si_con s))).
  exists (StdIn (with_con_mem m (si_con s)) (si_pipe s) (si_errno s)). split; [|split; [|split; [|done]]].
  - apply run_scon. unfold on_tt, on_tmem. fold (con_mem (si_con s)). rewrite run_store8 by (apply Hk; lia). done.
  - exists r; try done.
    + apply screen_frame; [done|]. intros q Hq. unfold m. rewrite lookup_insert_ne; [done|]. intros <-. by apply key_outside.
    + by apply mapped_insert.
  - intros [|j] b Hj; [|done]. injection Hj as <-. rewrite Z.add_0_r. change (m !! c = Some k). unfold m.
    rewrite lookup_insert_eq. by rewrite u8_small.
Qed.

Lemma show_key out k s : on_screen i buf ctrl sc0 serial0 out s → bytes_at (con_mem s) c [k] → plain k →
  ∃ s', tty_stdoutwrite mode width height rgb c 1 s = Ok (2, s') ∧ on_screen i buf ctrl sc0 serial0 (out ++ [k]) s' ∧
    con_mem s' !! c = con_mem s !! c.
Proof.
  intros Hs Hb Hk. destruct (stdout_run mode width height rgb i buf ctrl sc0 serial0 out c [k] s) as (s' & E & Hs' & Hq); try done.
  { by apply Forall_singleton. } { simpl. lia. }
  exists s'. split; [done|]. split; [done|]. by apply Hq, key_outside.
Qed.

Lemma load_key s k : bytes_at (con_mem (si_con s)) c [k] → on_scon (on_tt (on_tmem (load8 c))) s = Ok (k, s) ∧
  on_scon (on_tt (on_tmem (load_bytes 1 c))) s = Ok ([k], s).
Proof.
  intros Hb. split.
  - erewrite run_scon; [|unfold on_tt; erewrite run_tload; [done|]; rewrite <- (Z.add_0_r c); exact (Hb 0%nat k eq_refl)].
    by destruct s as [[]].
  - pose proof (load_bytes_run (con_mem (si_con s)) [k] c Hb) as E. cbn [length] in E. unfold con_mem in E.
    unfold on_scon, on_tt, on_tmem. rewrite E. by destruct s as [[[]]].
Qed.

(** A key that is not a backspace goes into the pipe and onto the screen. *)
Lemma press_put out line room s k : typing out line (room + 1) s → 0 ≤ room → plain k → k ≠ ERASE →
  ∃ s' r', press c k s = Ok (tt, s') ∧ si_pipe s' = Some r' ∧ on_screen i buf ctrl sc0 serial0 (out ++ [k]) (si_con s') ∧
    mapped (con_mem (si_con s')) c 1 ∧ rb_is r' (line ++ [k]) ∧ rb_cursize r' = released false [k] 0 0 (Z.of_nat (length line)) ∧
    nonblock r' = false ∧ virtual_end r' + room < USHRT_MAX.
Proof.
  intros Ht Hroom Hk He. destruct (press_key _ _ _ _ k Ht Hk) as (s1 & E1 & [r Hs Hm Hr Hl Ho Hb Hro] & Hkey & _).
  destruct (load_key s1 k Hkey) as [El Els].
  destruct (write_run r line [k] Hl) as (r' & Ew & Hl' & Hc & Hve & _ & Hfl); [simpl; lia|].
  set (s2 := StdIn (si_con s1) (Some r') (si_errno s1)).
  assert (E2 : on_stdin_pipe (pipe_write_raw [k] 0) s1 = Ok (1, s2)).
  { unfold on_stdin_pipe, pipe_write_raw. rewrite Hr.
    assert (Hid : (r ← get id; _ ← set_rb_flags (Z.lor (rb_flags r) (Z.land 0 RB_O_NONBLOCK)); ringbuffer_write [k]) r = ringbuffer_write [k] r).
    { unfold get, id, set_rb_flags, modify, mbind, M_bind. rewrite Z.land_0_l, Z.lor_0_r. by destruct r. }
    by rewrite Hid, Ew. }
  destruct (show_key out k (si_con s2) Hs Hkey Hk) as (t & E3 & Hs3 & Hq).
  exists (StdIn t (Some r') (si_errno s1)), r'. split_and!; try done.
  - unfold press. rewrite (bind_ok _ _ _ _ _ E1). erewrite bind_ok; [done|]. unfold tty_stdinwrite. rewrite (bind_ok _ _ _ _ _ El).
    destruct (Z.eqb_spec k ERASE); [done|]. rewrite (bind_ok _ _ _ _ _ Els), (bind_ok _ _ _ _ _ E2).
    by rewrite (bind_ok _ _ _ _ _ (run_scon _ _ _ _ E3)).
  - intros q Hqr. replace q with c by lia. cbn. rewrite Hq. apply Hm. lia.
  - by rewrite Hc, Hb, Ho.
  - unfold nonblock in *. by rewrite Hfl.
  - rewrite Hve. simpl. lia.
Qed.

(** A character. *)
Lemma press_char out line room s k : typing out line (room + 1) s → 0 ≤ room → plain k → k ≠ ERASE → k ≠ NEWLINE →
  ∃ s', press c k s = Ok (tt, s') ∧ typing (out ++ [k]) (line ++ [k]) room s'.
Proof.
  intros Ht Hroom Hk He Hn. destruct (press_put out line room s k Ht Hroom Hk He) as (s' & r' & E & Hr & Hs & Hm & Hl & Hc & Hb & Hv).
  exists s'. split; [done|]. exists r'; try done. rewrite Hc. apply (released_none [k]). set_solver.
Qed.

(** A backspace. *)
Lemma press_erase out line room s : typing out line room s → 0 ≤ room →
  ∃ s', press c ERASE s = Ok (tt, s') ∧
    typing (out ++ if (length line =? 0)%nat then [] else [ERASE]) (take (length line - 1) line) room s'.
Proof.
  intros Ht Hroom. assert (Hk : plain ERASE) by done.
  destruct (press_key _ _ _ _ ERASE Ht Hk) as (s1 & E1 & [r Hs Hm Hr Hl Ho Hb Hro] & Hkey & _).
  destruct (load_key s1 ERASE Hkey) as [El _]. destruct (decide (line = [])) as [->|Hne].
  - exists s1. split.
    + unfold press. rewrite (bind_ok _ _ _ _ _ E1). erewrite bind_ok; [done|]. unfold tty_stdinwrite. rewrite (bind_ok _ _ _ _ _ El). cbn [Z.eqb ERASE Pos.eqb].
      rewrite (bind_ok _ _ _ (-1) s1); [done|]. unfold on_stdin_pipe, pipe_remove. rewrite Hr, remove_none by done. rewrite <- Hr. by destruct s1.
    + cbn. rewrite app_nil_r. by exists r.
  - destruct (exists_last Hne) as (q & x & ->). rewrite length_app. cbn [length].
    destruct (remove_run r q x Hl) as (r' & Er & Hl' & Hve & Hc & Hfl); [lia|lia|].
    set (s2 := StdIn (si_con s1) (Some r') (si_errno s1)).
    assert (E2 : on_stdin_pipe (pipe_remove 1) s1 = Ok (0, s2)) by (unfold on_stdin_pipe, pipe_remove; by rewrite Hr, Er).
    destruct (show_key out ERASE (si_con s2) Hs Hkey Hk) as (t & E3 & Hs3 & Hq).
    exists (StdIn t (Some r') (si_errno s1)). split.
    + unfold press. rewrite (bind_ok _ _ _ _ _ E1). erewrite bind_ok; [done|]. unfold tty_stdinwrite. rewrite (bind_ok _ _ _ _ _ El). cbn [Z.eqb ERASE Pos.eqb].
      rewrite (bind_ok _ _ _ _ _ E2). cbn [Z.eqb]. by rewrite (bind_ok _ _ _ _ _ (run_scon _ _ _ _ E3)).
    + destruct (Nat.eqb_spec (length q + 1) 0); [lia|]. rewrite Nat.add_sub, take_app_length. exists r'; try done.
      * intros p Hp. replace p with c by lia. cbn. rewrite Hq. apply Hm. lia.
      * by rewrite Hc.
      * unfold nonblock in *. by rewrite Hfl.
      * lia.
Qed.

Lemma type_run keys : ∀ out line room s, typing out line (room + Z.of_nat (length keys)) s → 0 ≤ room → Forall plain keys → NEWLINE ∉ keys →
  ∃ s', type_keys c keys s = Ok (tt, s') ∧ typing (out ++ echo (length line) keys) (edit line keys) room s'.
Proof.
  induction keys as [|k keys IH]; intros out line room s Ht Hroom Hp Hn; cbn [type_keys echo edit].
  { exists s. rewrite app_nil_r. split; [done|]. by rewrite Z.add_0_r in Ht. }
  apply Forall_cons in Hp as [Hk Hp]. apply not_elem_of_cons in Hn as [Hnk Hn]. cbn [length] in Ht.
  destruct (Z.eqb_spec k ERASE) as [->|He].
  - destruct (press_erase out line (room + Z.of_nat (length keys)) s) as (s1 & E1 & Ht1); [|lia|].
    { destruct Ht as [r ? ? ? ? ? ? Hr]. exists r; try done. lia. }
    destruct (IH _ _ room s1 Ht1 Hroom Hp Hn) as (s' & E & Ht'). exists s'. split; [by rewrite (bind_ok _ _ _ _ _ E1)|].
    rewrite length_take in Ht'. destruct (Nat.eqb_spec (length line) 0) as [E0|E0].
    + rewrite E0, app_nil_r in Ht'. by rewrite E0.
    + rewrite <- app_assoc in Ht'. by replace (Nat.min (length line - 1) (length line)) with (length line - 1)%nat in Ht' by lia.
  - destruct (press_char out line (room + Z.of_nat (length keys)) s k) as (s1 & E1 & Ht1); try done; [by replace (room + Z.of_nat (length keys) + 1) with (room + Z.of_nat (S (length keys))) by lia|lia|].
    destruct (IH _ _ room s1 Ht1 Hroom Hp Hn) as (s' & E & Ht'). exists s'. split; [by rewrite (bind_ok _ _ _ _ _ E1)|].
    by rewrite length_app, Nat.add_1_r, <- app_assoc in Ht'.
Qed.

End stdin.

(** ** An example *)

(** The console of [PrintkSpec] with an empty pipe, and the keys a, b, backspace, c. *)
Definition demo_stdin : stdin := StdIn (k_con demo_console) (Some (pipe_create (replicate (Z.to_nat USHRT_MAX) 0))) 0.

