(* ===== verification/Elf.v ===== *)
(** * Loading programs (kernel/yanix/execute/elf.c)

    [load_elf_into_mem] reads the header of a program and its table of program
    headers into buffers, loads every segment and sets the program break.  Every
    field is read from memory where the C code reads it.  The open file and the
    mapping of user pages are given by the class [ElfEnv]; [ElfEnvLaws] states
    what is relied on of vfs_read, vfs_lseek and map_mem. *)
From S2P Require Import Prelude LibK Disk.

Class ElfEnv (F : Type) := {
  ef_read : Z → F → list Z * F;
  ef_seek : Z → F → F;
  ef_map : Z → Z → Z → bmem → bmem
}.

(** A file is a sequence of bytes with a position; a read that stays inside the
    file gives its bytes there.  Mapping keeps what is mapped and maps the range. *)
Class ElfEnvLaws (F : Type) `{!ElfEnv F} := {
  image : F → list Z;
  position : F → Z;
  image_seek : ∀ p f, image (ef_seek p f) = image f;
  position_seek : ∀ p f, 0 ≤ p → position (ef_seek p f) = p;
  image_read : ∀ n f, image (ef_read n f).2 = image f;
  read_slice : ∀ n f, 0 ≤ n → 0 ≤ position f → position f + n ≤ Z.of_nat (length (image f)) →
    (ef_read n f).1 = slice (image f) (position f) n;
  map_keeps : ∀ a b w m q v, m !! q = Some v → ef_map a b w m !! q = Some v;
  map_maps : ∀ a b w m, mapped (ef_map a b w m) a (b - a)
}.

Definition ELF_MAGIC : Z := 1179403647.
Definition ELF_BIT32 : Z := 1.
Definition ELF_ARCH_X86 : Z := 3.
Definition ELF_SUPPORTED : Z := 1.
Definition ELF_TYPE_EXEC : Z := 2.
Definition ELF_PHDR_NULL : Z := 0.
Definition ELF_PHDR_LOAD : Z := 1.
Definition ELF_W : Z := 2.
Definition ENOEXEC : Z := 8.
Definition SIZEOF_HDR : Z := 52.
Definition SIZEOF_PHDR : Z := 32.

Record elf32_phdr := Phdr {
  ph_type : Z;
  ph_offset : Z;
  ph_vaddr : Z;
  ph_paddr : Z;
  ph_filesize : Z;
  ph_memsize : Z;
  ph_flags : Z;
  ph_align : Z
}.

Record elfst (F : Type) := ElfSt {
  el_mem : bmem;
  el_file : F;
  el_program_start : Z;
  el_program_break : Z;
  el_errno : Z
}.
Arguments ElfSt {F}.
Arguments el_mem {F}.
Arguments el_file {F}.
Arguments el_program_start {F}.
Arguments el_program_break {F}.
Arguments el_errno {F}.

Section elf.
Context {F : Type} `{!ElfEnv F}.

Definition on_elmem {A} (c : M bmem A) : M (elfst F) A := λ s,
  match c (el_mem s) with
  | Ok (a, m) =>
    Ok (a, ElfSt m (el_file s) (el_program_start s) (el_program_break s) (el_errno s))
  | Fault => Fault
  | Hang => Hang
  end.

Definition el_set_errno (e : Z) : M (elfst F) unit :=
  modify (λ s, ElfSt (el_mem s) (el_file s) (el_program_start s) (el_program_break s) e).

Definition set_file (f : F) : M (elfst F) unit :=
  modify (λ s, ElfSt (el_mem s) f (el_program_start s) (el_program_break s) (el_errno s)).

Definition read_file (buf n : Z) : M (elfst F) Z :=
  f ← get el_file;
  let '(bs, f') := ef_read n f in
  _ ← on_elmem (store_bytes buf bs);
  _ ← set_file f';
  mret (Z.of_nat (length bs)).

Definition seek_file (p : Z) : M (elfst F) unit :=
  f ← get el_file; set_file (ef_seek p f).

Definition phdr_at (p : Z) : M (elfst F) elf32_phdr :=
  on_elmem (a ← load32 p; b ← load32 (p + 4); c ← load32 (p + 8); d ← load32 (p + 12);
            e ← load32 (p + 16); f ← load32 (p + 20); g ← load32 (p + 24); h ← load32 (p + 28);
            mret (Phdr a b c d e f g h)).

Definition elf_check_support (hdr : Z) : M (elfst F) Z :=
  magic ← on_elmem (load32 hdr);
  bit_type ← on_elmem (load8 (hdr + 4));
  arch_type ← on_elmem (load16 (hdr + 18));
  elf_header_version ← on_elmem (load8 (hdr + 6));
  type ← on_elmem (load16 (hdr + 16));
  if negb (magic =? ELF_MAGIC) then _ ← el_set_errno ENOEXEC; mret (-1)
  else if negb (bit_type =? ELF_BIT32) then _ ← el_set_errno ENOEXEC; mret (-1)
  else if negb (arch_type =? ELF_ARCH_X86) then _ ← el_set_errno ENOEXEC; mret (-1)
  else if elf_header_version <? ELF_SUPPORTED then _ ← el_set_errno ENOEXEC; mret (-1)
  else if negb (type =? ELF_TYPE_EXEC) then _ ← el_set_errno ENOEXEC; mret (-1)
  else mret 0.

Definition _elf_load_pheader (phdr : Z) : M (elfst F) Z :=
  ph ← phdr_at phdr;
  _ ← modify (λ s, ElfSt (ef_map (ph_vaddr ph) (u32 (ph_vaddr ph + ph_memsize ph))
                            (Z.land (ph_flags ph) ELF_W) (el_mem s))
                     (el_file s) (el_program_start s) (el_program_break s) (el_errno s));
  ph ← phdr_at phdr;
  _ ← on_elmem (memset (ph_vaddr ph) 0 (ph_memsize ph));
  ph ← phdr_at phdr;
  _ ← seek_file (ph_offset ph);
  _ ← read_file (ph_vaddr ph) (ph_filesize ph);
  ph ← phdr_at phdr;
  _ ← (if ph_filesize ph <? ph_memsize ph then
         on_elmem (memset (u32 (ph_vaddr ph + ph_filesize ph)) 0 (ph_memsize ph - ph_filesize ph))
       else mret 0);
  mret 0.

Definition pheader_table_amount (hdr : Z) : M (elfst F) Z := on_elmem (load16 (hdr + 44)).

(** The loop over the program table; [inl] goes on with the next index. *)
Definition load_segment (hdr tbl i : Z) : M (elfst F) (Z + Z) :=
  n ← pheader_table_amount hdr;
  if i <? n then
    ph ← phdr_at (tbl + i * SIZEOF_PHDR);
    if ph_memsize ph <? ph_filesize ph then _ ← el_set_errno ENOEXEC; mret (inr (-1))
    else if ph_type ph =? ELF_PHDR_NULL then mret (inl (i + 1))
    else if ph_type ph =? ELF_PHDR_LOAD then
      r ← _elf_load_pheader (tbl + i * SIZEOF_PHDR);
      if r =? -1 then mret (inr (-1)) else mret (inl (i + 1))
    else mret (inl (i + 1))
  else mret (inr 0).

(** The end and the start of the program so far. *)
Definition grow_program (hdr tbl : Z) : Z * Z * Z → M (elfst F) (Z * Z * Z + Z * Z) :=
  λ '(i, pbrk, pstrt),
    n ← pheader_table_amount hdr;
    if i <? n then
      ph ← phdr_at (tbl + i * SIZEOF_PHDR);
      let e := u32 (ph_vaddr ph + ph_memsize ph) in
      mret (inl (i + 1, if pbrk <? e then e else pbrk,
                 if ph_vaddr ph <? pstrt then ph_vaddr ph else pstrt))
    else mret (inr (pbrk, pstrt)).

Definition _elf_loop_over_program_table (hdr tbl : Z) : M (elfst F) Z :=
  n ← pheader_table_amount hdr;
  r ← loop (S (Z.to_nat n)) (load_segment hdr tbl) 0;
  if r =? -1 then mret (-1)
  else
    ph0 ← phdr_at tbl;
    '(pbrk, pstrt) ← loop (S (Z.to_nat n)) (grow_program hdr tbl)
      (1, u32 (ph_vaddr ph0 + ph_memsize ph0), ph_vaddr ph0);
    _ ← modify (λ s, ElfSt (el_mem s) (el_file s) pstrt pbrk (el_errno s));
    mret 0.

(** [hdr] and [tbl] are the buffers [kmalloc] returns. *)
Definition load_elf_into_mem (hdr tbl : Z) : M (elfst F) Z :=
  _ ← read_file hdr SIZEOF_HDR;
  ok ← elf_check_support hdr;
  if ok =? -1 then mret 0
  else
    n ← pheader_table_amount hdr;
    let phdr_sz := SIZEOF_PHDR * n in
    off ← on_elmem (load32 (hdr + 28));
    _ ← seek_file off;
    _ ← read_file tbl phdr_sz;
    r ← _elf_loop_over_program_table hdr tbl;
    if r =? -1 then mret 0
    else on_elmem (load32 (hdr + 24)).
End elf.

(** ** Program headers *)

Definition phdr_of (bs : list Z) (k : Z) : elf32_phdr :=
  Phdr (u32_at bs k) (u32_at bs (k + 4)) (u32_at bs (k + 8)) (u32_at bs (k + 12))
    (u32_at bs (k + 16)) (u32_at bs (k + 20)) (u32_at bs (k + 24)) (u32_at bs (k + 28)).

(** What a step leaves of the memory outside a range. *)
Definition kept (m m' : bmem) (a n : Z) : Prop :=
  ∀ q v, m !! q = Some v → ¬ a ≤ q < a + n → m' !! q = Some v.

Lemma kept_trans m1 m2 m3 a n : kept m1 m2 a n → kept m2 m3 a n → kept m1 m3 a n.
Proof. intros H1 H2 q v Hq Hn. apply H2; [|done]. by apply H1. Qed.

Lemma kept_write m p bs a n :
  a ≤ p → p + Z.of_nat (length bs) ≤ a + n → kept m (write_at m p bs) a n.
Proof. intros Ha Hn q v Hq Hout. rewrite write_at_out; [done|lia]. Qed.

Lemma kept_bytes m m' a n p bs :
  kept m m' a n → disjoint_blocks p (Z.of_nat (length bs)) a n → bytes_at m p bs →
  bytes_at m' p bs.
Proof.
  intros Hk Hd Hb i b Hi. apply Hk; [by apply Hb|]. pose proof (lookup_lt_Some _ _ _ Hi).
  destruct Hd; lia.
Qed.

(** ** One segment *)

(** The segment [ph] of the file [img] is in memory: its bytes, and zeros up to its
    size in memory when that is a whole number of words. *)
Definition segment_loaded (img : list Z) (m : bmem) (ph : elf32_phdr) : Prop :=
  bytes_at m (ph_vaddr ph) (slice img (ph_offset ph) (ph_filesize ph)) ∧
  (ph_memsize ph mod 4 = 0 →
   ∀ q, ph_vaddr ph + ph_filesize ph ≤ q < ph_vaddr ph + ph_memsize ph → m !! q = Some 0).

Definition segment_ok (img : list Z) (ph : elf32_phdr) : Prop :=
  0 ≤ ph_vaddr ph ∧ 0 ≤ ph_offset ph ∧ 0 ≤ ph_filesize ph ≤ ph_memsize ph ∧
  ph_vaddr ph + ph_memsize ph < 4294967296 ∧
  ph_offset ph + ph_filesize ph ≤ Z.of_nat (length img).

Lemma memset_zero_z m dst n : mapped m dst n → 0 ≤ n →
  memset dst 0 n m = Ok (dst, write_at m dst (replicate (4 * (Z.to_nat n / 4)) 0)).
Proof. intros Hm Hn. rewrite <- (Z2Nat.id n) in Hm |- * by done. rewrite memset_zero_run by done. by rewrite Z2Nat.id. Qed.

Lemma zeroed m p n q : p ≤ q < p + Z.of_nat n → write_at m p (replicate n 0) !! q = Some 0.
Proof.
  intros Hq. replace q with (p + Z.of_nat (Z.to_nat (q - p))) by lia.
  apply write_at_in, lookup_replicate. split; [done|lia].
Qed.

(** ** Well-formed programs *)

Definition elf_hdr (img : list Z) : list Z := slice img 0 SIZEOF_HDR.
Definition elf_phnum (img : list Z) : Z := u16_at img 44.
Definition elf_table (img : list Z) : list Z :=
  slice img (u32_at img 28) (SIZEOF_PHDR * elf_phnum img).
Definition elf_ph (img : list Z) (i : Z) : elf32_phdr := phdr_of (elf_table img) (i * SIZEOF_PHDR).

Arguments elf_ph : simpl never.

Definition apart (p n : Z) (ph : elf32_phdr) : Prop :=
  disjoint_blocks p n (ph_vaddr ph) (ph_memsize ph).

(** [img] is a program the loader supports: its tables and segments lie inside the
    file, the segments fit the address space, and they overlap neither each other
    nor the loader's buffers at [hdr] and [tbl]. *)
Record elf_ok (img : list Z) (hdr tbl : Z) : Prop := ElfOk {
  eo_bytes : Forall is_byte img;
  eo_hdr : SIZEOF_HDR ≤ Z.of_nat (length img);
  eo_magic : u32_at img 0 = ELF_MAGIC;
  eo_bits : byte_at img 4 = ELF_BIT32;
  eo_arch : u16_at img 18 = ELF_ARCH_X86;
  eo_version : ELF_SUPPORTED ≤ byte_at img 6;
  eo_type : u16_at img 16 = ELF_TYPE_EXEC;
  eo_phnum : 1 ≤ elf_phnum img;
  eo_table : u32_at img 28 + SIZEOF_PHDR * elf_phnum img ≤ Z.of_nat (length img);
  eo_bufs : disjoint_blocks hdr SIZEOF_HDR tbl (SIZEOF_PHDR * elf_phnum img);
  eo_sizes : ∀ i, 0 ≤ i < elf_phnum img →
    ph_filesize (elf_ph img i) ≤ ph_memsize (elf_ph img i);
  eo_segments : ∀ i, 0 ≤ i < elf_phnum img → ph_type (elf_ph img i) = ELF_PHDR_LOAD →
    segment_ok img (elf_ph img i) ∧ apart hdr SIZEOF_HDR (elf_ph img i) ∧
    apart tbl (SIZEOF_PHDR * elf_phnum img) (elf_ph img i);
  eo_disjoint : ∀ i j, 0 ≤ i < j → j < elf_phnum img →
    ph_type (elf_ph img i) = ELF_PHDR_LOAD → ph_type (elf_ph img j) = ELF_PHDR_LOAD →
    apart (ph_vaddr (elf_ph img i)) (ph_memsize (elf_ph img i)) (elf_ph img j)
}.

Lemma byte_at_hdr img k : 0 ≤ k < SIZEOF_HDR → byte_at (elf_hdr img) k = byte_at img k.
Proof.
  intros Hk. unfold byte_at, elf_hdr, slice. rewrite drop_0, lookup_take_lt; [done|].
  unfold SIZEOF_HDR in *. lia.
Qed.

Lemma u16_at_hdr img k : 0 ≤ k → k + 2 ≤ SIZEOF_HDR → u16_at (elf_hdr img) k = u16_at img k.
Proof. intros H1 H2. unfold u16_at. by rewrite !byte_at_hdr by lia. Qed.

Lemma u32_at_hdr img k : 0 ≤ k → k + 4 ≤ SIZEOF_HDR → u32_at (elf_hdr img) k = u32_at img k.
Proof. intros H1 H2. unfold u32_at. by rewrite !byte_at_hdr by lia. Qed.

Lemma segment_loaded_kept img m m' a n ph :
  segment_ok img ph → kept m m' a n → disjoint_blocks (ph_vaddr ph) (ph_memsize ph) a n →
  segment_loaded img m ph → segment_loaded img m' ph.
Proof.
  intros (Hv & Ho & Hf & Hm & Hl) Hk Hd [Hb Hz]. split.
  - eapply kept_bytes; [done| |done]. rewrite slice_length by lia. destruct Hd; [left|right]; lia.
  - intros H4 q Hq. apply Hk; [by apply Hz|]. destruct Hd; lia.
Qed.

(** The highest end and the lowest start of the first [k] headers. *)
Definition spans (img : list Z) (k pbrk pstrt : Z) : Prop :=
  (∀ j, 0 ≤ j < k →
     u32 (ph_vaddr (elf_ph img j) + ph_memsize (elf_ph img j)) ≤ pbrk ∧
     pstrt ≤ ph_vaddr (elf_ph img j)) ∧
  (∃ j, 0 ≤ j < k ∧ u32 (ph_vaddr (elf_ph img j) + ph_memsize (elf_ph img j)) = pbrk) ∧
  (∃ j, 0 ≤ j < k ∧ ph_vaddr (elf_ph img j) = pstrt).

Lemma spans_step img k pbrk pstrt :
  0 ≤ k → spans img k pbrk pstrt →
  let e := u32 (ph_vaddr (elf_ph img k) + ph_memsize (elf_ph img k)) in
  spans img (k + 1) (if pbrk <? e then e else pbrk)
    (if ph_vaddr (elf_ph img k) <? pstrt then ph_vaddr (elf_ph img k) else pstrt).
Proof.
  intros Hk (Hall & (j1 & Hj1 & E1) & (j2 & Hj2 & E2)) e. split_and!.
  - intros j Hj. destruct (decide (j = k)) as [->|]; [fold e; bool_cases; lia|].
    destruct (Hall j); [lia|]. bool_cases; lia.
  - destruct (Z.ltb_spec pbrk e); [exists k; split; [lia|done]|exists j1; split; [lia|done]].
  - destruct (Z.ltb_spec (ph_vaddr (elf_ph img k)) pstrt);
      [exists k; split; [lia|done]|exists j2; split; [lia|done]].
Qed.

Section elf_proofs.
Context {F : Type} `{HL : ElfEnvLaws F}.

Lemma on_elmem_ok {A} (c : M bmem A) (s : elfst F) a m :
  c (el_mem s) = Ok (a, m) →
  on_elmem c s = Ok (a, ElfSt m (el_file s) (el_program_start s) (el_program_break s) (el_errno s)).
Proof. intros H. unfold on_elmem. by rewrite H. Qed.

Lemma on_elmem_pure {A} (c : M bmem A) (s : elfst F) a :
  c (el_mem s) = Ok (a, el_mem s) → on_elmem c s = Ok (a, s).
Proof. intros H. erewrite on_elmem_ok by exact H. by destruct s. Qed.

Lemma phdr_at_ok p bs k (s : elfst F) :
  bytes_at (el_mem s) p bs → 0 ≤ k → k + 32 ≤ Z.of_nat (length bs) →
  phdr_at (p + k) s = Ok (phdr_of bs k, s).
Proof.
  intros Hb Hk Hl. unfold phdr_at. apply on_elmem_pure. rewrite <- !Z.add_assoc.
  do 8 erewrite bind_ok by (apply (load32_at _ p bs); [done|lia|lia]). done.
Qed.

Lemma read_file_ok buf n (s : elfst F) :
  let img := image (el_file s) in
  let p := position (el_file s) in
  0 ≤ n → 0 ≤ p → p + n ≤ Z.of_nat (length img) → Forall is_byte img →
  mapped (el_mem s) buf n →
  ∃ f', read_file buf n s = Ok (n, ElfSt (write_at (el_mem s) buf (slice img p n)) f'
      (el_program_start s) (el_program_break s) (el_errno s)) ∧ image f' = img.
Proof.
  intros img p Hn Hp Hl Hby Hm. unfold read_file. erewrite bind_ok by reflexivity.
  pose proof (read_slice n (el_file s) Hn Hp Hl) as Hrs. pose proof (image_read n (el_file s)) as Him.
  destruct (ef_read n (el_file s)) as [bs f']. simpl in Hrs, Him. fold img p in Hrs.
  assert (Hlen : Z.of_nat (length bs) = n) by (rewrite Hrs; by apply slice_length).
  exists f'. split; [|done]. erewrite bind_ok.
  2: { apply on_elmem_ok, store_bytes_run; [by rewrite Hlen|]. rewrite Hrs. by apply slice_bytes. }
  erewrite bind_ok by reflexivity. unfold mret, M_ret. by rewrite Hlen, Hrs.
Qed.

(** The memory a segment ends up in. *)
Definition segment_memory (img : list Z) (m : bmem) (ph : elf32_phdr) : bmem :=
  let m1 := ef_map (ph_vaddr ph) (u32 (ph_vaddr ph + ph_memsize ph))
              (Z.land (ph_flags ph) ELF_W) m in
  let m2 := write_at m1 (ph_vaddr ph) (replicate (4 * (Z.to_nat (ph_memsize ph) / 4)) 0) in
  let m3 := write_at m2 (ph_vaddr ph) (slice img (ph_offset ph) (ph_filesize ph)) in
  if ph_filesize ph <? ph_memsize ph then
    write_at m3 (ph_vaddr ph + ph_filesize ph)
      (replicate (4 * (Z.to_nat (ph_memsize ph - ph_filesize ph) / 4)) 0)
  else m3.

Lemma words_le n : 0 ≤ n → Z.of_nat (4 * (Z.to_nat n / 4)) ≤ n.
Proof. intros Hn. pose proof (Nat.Div0.mul_div_le (Z.to_nat n) 4). lia. Qed.

Lemma words_eq n : 0 ≤ n → n mod 4 = 0 → Z.of_nat (4 * (Z.to_nat n / 4)) = n.
Proof.
  intros Hn Hm. apply Z.mod_divide in Hm as [k ->]; [|lia].
  rewrite Z2Nat.inj_mul, Nat.div_mul by lia. lia.
Qed.

Lemma segment_memory_kept img m ph :
  segment_ok img ph → kept m (segment_memory img m ph) (ph_vaddr ph) (ph_memsize ph).
Proof.
  intros (Hv & Ho & Hf & Hm & Hl). unfold segment_memory.
  pose proof (words_le (ph_memsize ph) ltac:(lia)).
  assert (H3 : kept m (write_at (write_at (ef_map (ph_vaddr ph) (u32 (ph_vaddr ph + ph_memsize ph))
    (Z.land (ph_flags ph) ELF_W) m) (ph_vaddr ph)
    (replicate (4 * (Z.to_nat (ph_memsize ph) / 4)) 0)) (ph_vaddr ph)
    (slice img (ph_offset ph) (ph_filesize ph))) (ph_vaddr ph) (ph_memsize ph)).
  { eapply kept_trans; [intros q v Hq _; by apply map_keeps|].
    eapply kept_trans; apply kept_write; rewrite ?length_replicate, ?slice_length; lia. }
  destruct (Z.ltb_spec (ph_filesize ph) (ph_memsize ph)); [|done].
  eapply kept_trans; [exact H3|]. apply kept_write; [lia|]. rewrite length_replicate.
  pose proof (words_le (ph_memsize ph - ph_filesize ph) ltac:(lia)). lia.
Qed.

Lemma segment_memory_loaded img m ph :
  segment_ok img ph → segment_loaded img (segment_memory img m ph) ph.
Proof.
  intros (Hv & Ho & Hf & Hm & Hl). unfold segment_memory.
  set (m1 := ef_map _ _ _ m). set (m2 := write_at m1 _ _). set (m3 := write_at m2 _ _).
  assert (Hlen : Z.of_nat (length (slice img (ph_offset ph) (ph_filesize ph))) = ph_filesize ph)
    by (apply slice_length; lia).
  assert (H3 : bytes_at m3 (ph_vaddr ph) (slice img (ph_offset ph) (ph_filesize ph)))
    by apply write_at_in.
  assert (Hz : ph_memsize ph mod 4 = 0 → ∀ q,
    ph_vaddr ph + ph_filesize ph ≤ q < ph_vaddr ph + ph_memsize ph → m3 !! q = Some 0).
  { intros H4 q Hq. unfold m3. rewrite write_at_out by lia. apply zeroed.
    rewrite words_eq by lia. lia. }
  destruct (Z.ltb_spec (ph_filesize ph) (ph_memsize ph)); [|by split]. split.
  - apply bytes_at_write; [|done]. rewrite Hlen. left. lia.
  - intros H4 q Hq.
    destruct (decide (ph_vaddr ph + ph_filesize ph ≤ q < ph_vaddr ph + ph_filesize ph +
      Z.of_nat (4 * (Z.to_nat (ph_memsize ph - ph_filesize ph) / 4)))) as [Hin|Hout].
    + by apply zeroed.
    + rewrite write_at_out by (rewrite length_replicate; lia). by apply Hz.
Qed.

Lemma load_pheader_ok tbl T k ph (s : elfst F) :
  let img := image (el_file s) in
  phdr_of T k = ph → bytes_at (el_mem s) tbl T → 0 ≤ k → k + 32 ≤ Z.of_nat (length T) → segment_ok img ph →
  Forall is_byte img → disjoint_blocks tbl (Z.of_nat (length T)) (ph_vaddr ph) (ph_memsize ph) →
  ∃ f', _elf_load_pheader (tbl + k) s =
    Ok (0, ElfSt (segment_memory img (el_mem s) ph) f' (el_program_start s) (el_program_break s)
             (el_errno s)) ∧ image f' = img.
Proof.
  intros img Eph Hb Hk Hl Hok Hby Hd. pose proof Hok as (Hv & Ho & Hf & Hm & Hend).
  unfold segment_memory. set (m1 := ef_map _ _ _ _). set (m2 := write_at m1 _ _).
  set (m3 := write_at m2 _ _).
  pose proof (words_le (ph_memsize ph) ltac:(lia)) as Hw.
  assert (K1 : bytes_at m1 tbl T) by (intros i b Hi; by apply map_keeps, Hb).
  assert (K2 : bytes_at m2 tbl T).
  { apply bytes_at_write; [|done]. rewrite length_replicate. destruct Hd; [left|right]; lia. }
  assert (Hlen : Z.of_nat (length (slice img (ph_offset ph) (ph_filesize ph))) = ph_filesize ph)
    by (apply slice_length; lia).
  assert (K3 : bytes_at m3 tbl T).
  { apply bytes_at_write; [|done]. rewrite Hlen. destruct Hd; [left|right]; lia. }
  assert (Hmap : mapped m1 (ph_vaddr ph) (ph_memsize ph)).
  { pose proof (map_maps (ph_vaddr ph) (u32 (ph_vaddr ph + ph_memsize ph))
      (Z.land (ph_flags ph) ELF_W) (el_mem s)) as H. rewrite u32_small in H at 2 by lia.
    intros q Hq. apply H. lia. }
  unfold _elf_load_pheader.
  erewrite bind_ok by by apply phdr_at_ok. rewrite Eph. erewrite bind_ok by reflexivity. fold m1.
  erewrite bind_ok by by apply phdr_at_ok. rewrite Eph.
  erewrite bind_ok by (apply on_elmem_ok, memset_zero_z; [done|lia]). simpl. fold m2.
  erewrite bind_ok by by apply phdr_at_ok. rewrite Eph. erewrite bind_ok by reflexivity. simpl.
  destruct (read_file_ok (ph_vaddr ph) (ph_filesize ph) (ElfSt m2 (ef_seek (ph_offset ph) (el_file s))
    (el_program_start s) (el_program_break s) (el_errno s))) as (f' & Er & Hf'); simpl;
    rewrite ?image_seek, ?position_seek by done; try done; [lia| |].
  { apply mapped_write. intros q Hq. apply Hmap. lia. }
  simpl in Er, Hf'. rewrite image_seek in Er, Hf'. rewrite position_seek in Er by done.
  fold img m3 in Er. erewrite bind_ok by exact Er.
  erewrite bind_ok by by apply phdr_at_ok. rewrite Eph. exists f'. split; [|done].
  destruct (Z.ltb_spec (ph_filesize ph) (ph_memsize ph)); [|done].
  rewrite u32_small by lia. erewrite bind_ok; cycle 1.
  { apply on_elmem_ok, memset_zero_z; [|lia]. simpl. do 2 apply mapped_write.
    intros q Hq. apply Hmap. lia. }
  done.
Qed.

(** ** The whole program *)

Section program.
Context (img : list Z) (hdr tbl : Z) (Hok : elf_ok img hdr tbl).

Record elf_inv (i : Z) (s : elfst F) : Prop := ElfInv {
  ei_image : image (el_file s) = img;
  ei_hdr : bytes_at (el_mem s) hdr (elf_hdr img);
  ei_tbl : bytes_at (el_mem s) tbl (elf_table img);
  ei_loaded : ∀ j, 0 ≤ j < i → j < elf_phnum img → ph_type (elf_ph img j) = ELF_PHDR_LOAD →
    segment_loaded img (el_mem s) (elf_ph img j)
}.

Lemma hdr_length : Z.of_nat (length (elf_hdr img)) = SIZEOF_HDR.
Proof. apply slice_length; [lia|done|]. pose proof (eo_hdr _ _ _ Hok). lia. Qed.

Lemma phnum_range : 1 ≤ elf_phnum img < 65536.
Proof.
  pose proof (eo_phnum _ _ _ Hok). pose proof (u16_at_range img 44 (eo_bytes _ _ _ Hok)).
  unfold elf_phnum in *. lia.
Qed.

Lemma table_length : Z.of_nat (length (elf_table img)) = SIZEOF_PHDR * elf_phnum img.
Proof.
  pose proof (u32_at_range img 28 (eo_bytes _ _ _ Hok)). pose proof phnum_range.
  apply slice_length; [lia|unfold SIZEOF_PHDR; lia|apply Hok].
Qed.

Lemma amount_ok (s : elfst F) : bytes_at (el_mem s) hdr (elf_hdr img) →
  pheader_table_amount hdr s = Ok (elf_phnum img, s).
Proof.
  intros Hb. unfold pheader_table_amount, elf_phnum. rewrite <- u16_at_hdr by done.
  apply on_elmem_pure, load16_at; [done|done|]. by rewrite hdr_length.
Qed.

Lemma ph_at_ok i (s : elfst F) : bytes_at (el_mem s) tbl (elf_table img) → 0 ≤ i < elf_phnum img →
  phdr_at (tbl + i * SIZEOF_PHDR) s = Ok (elf_ph img i, s).
Proof.
  intros Hb Hi. apply phdr_at_ok; [done|unfold SIZEOF_PHDR; lia|].
  rewrite table_length. unfold SIZEOF_PHDR. lia.
Qed.

Lemma elf_inv_skip i s : elf_inv i s → ph_type (elf_ph img i) ≠ ELF_PHDR_LOAD → elf_inv (i + 1) s.
Proof.
  intros [] Ht. constructor; try done. intros j Hj Hn Hl.
  destruct (decide (j = i)) as [->|]; [done|]. apply ei_loaded0; [lia|done..].
Qed.

Lemma load_segment_ok i s : elf_inv i s → 0 ≤ i < elf_phnum img →
  ∃ s', load_segment hdr tbl i s = Ok (inl (i + 1), s') ∧ elf_inv (i + 1) s'.
Proof.
  intros Hinv Hi. pose proof Hinv as [Him Hh Ht Hld]. unfold load_segment.
  erewrite bind_ok by by apply amount_ok. rewrite (proj2 (Z.ltb_lt i (elf_phnum img))) by lia.
  erewrite bind_ok by by apply ph_at_ok.
  pose proof (eo_sizes _ _ _ Hok i Hi) as Hsz.
  rewrite (proj2 (Z.ltb_ge (ph_memsize (elf_ph img i)) (ph_filesize (elf_ph img i)))) by lia.
  destruct (Z.eqb_spec (ph_type (elf_ph img i)) ELF_PHDR_NULL) as [E|_].
  { exists s. split; [done|]. apply elf_inv_skip; [done|]. by rewrite E. }
  destruct (Z.eqb_spec (ph_type (elf_ph img i)) ELF_PHDR_LOAD) as [E|E].
  2: { exists s. split; [done|]. by apply elf_inv_skip. }
  destruct (eo_segments _ _ _ Hok i Hi E) as (Hsok & Hah & Hat).
  destruct (load_pheader_ok tbl (elf_table img) (i * SIZEOF_PHDR) (elf_ph img i) s)
    as (f' & El & Hf'); try done; rewrite ?Him, ?table_length; try done.
  { unfold SIZEOF_PHDR. lia. }
  { unfold SIZEOF_PHDR. lia. }
  { apply Hok. }
  erewrite bind_ok by exact El. simpl. eexists. split; [reflexivity|].
  rewrite Him in *. pose proof (segment_memory_kept img (el_mem s) _ Hsok) as Hk.
  constructor; simpl; [done| | |].
  - eapply kept_bytes; [done| |done]. by rewrite hdr_length.
  - eapply kept_bytes; [done| |done]. by rewrite table_length.
  - intros j Hj Hn Hl. destruct (decide (j = i)) as [->|Hne]; [by apply segment_memory_loaded|].
    eapply segment_loaded_kept; [| done | |apply Hld; [lia|done..]].
    + destruct (eo_segments _ _ _ Hok j) as [? _]; [lia|done|done].
    + apply (eo_disjoint _ _ _ Hok j i); [lia..|done|done].
Qed.

Lemma load_segments_ok s : elf_inv 0 s →
  ∃ s', loop (S (Z.to_nat (elf_phnum img))) (load_segment hdr tbl) 0 s = Ok (0, s') ∧
    elf_inv (elf_phnum img) s'.
Proof.
  intros Hinv. enough (H : wp (loop (S (Z.to_nat (elf_phnum img))) (load_segment hdr tbl) 0)
    (λ r s', r = 0 ∧ elf_inv (elf_phnum img) s') s).
  { apply wp_run in H as (? & s' & E & -> & H). eauto. }
  apply (wp_loop _ (λ k i s, Z.of_nat k = elf_phnum img - i ∧ 0 ≤ i ∧ elf_inv i s))
    with (n := Z.to_nat (elf_phnum img)); [|pose proof phnum_range; split_and!; [lia|lia|done]|lia].
  intros k i s1 (Hk & Hi & Hinv1). destruct (decide (i < elf_phnum img)).
  - destruct (load_segment_ok i s1 Hinv1) as (s2 & E & H2); [lia|]. eapply run_wp; [exact E|].
    exists (k - 1)%nat. split_and!; [lia..|done].
  - assert (i = elf_phnum img) as -> by lia. eapply run_wp.
    { unfold load_segment. erewrite bind_ok by (apply amount_ok, Hinv1).
      rewrite Z.ltb_irrefl. reflexivity. }
    by split.
Qed.

Lemma grow_program_ok s pbrk pstrt : elf_inv (elf_phnum img) s → spans img 1 pbrk pstrt →
  ∃ b st, loop (S (Z.to_nat (elf_phnum img))) (grow_program hdr tbl) (1, pbrk, pstrt) s =
      Ok (b, st, s) ∧ spans img (elf_phnum img) b st.
Proof.
  intros Hinv Hsp. enough (H : wp (loop (S (Z.to_nat (elf_phnum img))) (grow_program hdr tbl)
    (1, pbrk, pstrt)) (λ '(b, st) s', s' = s ∧ spans img (elf_phnum img) b st) s).
  { apply wp_run in H as ([b st] & s' & E & -> & H). eauto. }
  pose proof phnum_range.
  apply (wp_loop _ (λ k '(i, b, st) s', Z.of_nat k = elf_phnum img - i ∧ 1 ≤ i ∧ s' = s ∧
    spans img i b st)) with (n := Z.to_nat (elf_phnum img - 1)); [|split_and!; [lia|lia|done..]|lia].
  intros k [[i b] st] s1 (Hk & Hi & -> & Hs1). unfold grow_program.
  destruct (decide (i < elf_phnum img)).
  - eapply run_wp.
    { erewrite bind_ok by (apply amount_ok, Hinv). rewrite (proj2 (Z.ltb_lt i (elf_phnum img))) by lia.
      erewrite bind_ok by (apply ph_at_ok; [apply Hinv|lia]). reflexivity. }
    exists (k - 1)%nat. split; [lia|]. split_and!; [lia..|done|]. apply spans_step; [lia|done].
  - assert (i = elf_phnum img) as -> by lia. eapply run_wp.
    { erewrite bind_ok by (apply amount_ok, Hinv). rewrite Z.ltb_irrefl. reflexivity. }
    by split.
Qed.

Lemma program_table_ok s : elf_inv 0 s →
  ∃ s', _elf_loop_over_program_table hdr tbl s = Ok (0, s') ∧ elf_inv (elf_phnum img) s' ∧
    spans img (elf_phnum img) (el_program_break s') (el_program_start s').
Proof.
  intros Hinv. pose proof phnum_range. unfold _elf_loop_over_program_table.
  erewrite bind_ok by (apply amount_ok, Hinv).
  destruct (load_segments_ok s Hinv) as (s1 & E1 & H1). erewrite bind_ok by exact E1. simpl.
  pose proof (ph_at_ok 0 s1 (ei_tbl _ _ H1) ltac:(lia)) as E0. rewrite Z.add_0_r in E0.
  erewrite bind_ok by exact E0. set (ph0 := elf_ph img 0).
  destruct (grow_program_ok s1 (u32 (ph_vaddr ph0 + ph_memsize ph0)) (ph_vaddr ph0) H1)
    as (b & st & E2 & H2).
  { split_and!.
    - intros j Hj. assert (j = 0) as -> by lia. fold ph0. lia.
    - exists 0. split; [lia|done].
    - exists 0. split; [lia|done]. }
  erewrite bind_ok by exact E2. cbv beta iota. erewrite bind_ok by reflexivity. eexists. split; [reflexivity|].
  split; [|done]. by destruct H1.
Qed.

Lemma check_support_ok (s : elfst F) : bytes_at (el_mem s) hdr (elf_hdr img) →
  elf_check_support hdr s = Ok (0, s).
Proof.
  intros Hb. pose proof hdr_length as Hl. unfold elf_check_support.
  rewrite <- (Z.add_0_r hdr) at 1.
  erewrite bind_ok by (apply on_elmem_pure, (load32_at _ _ (elf_hdr img)); [done|lia|by rewrite Hl]).
  erewrite bind_ok by (apply on_elmem_pure, (load8_at _ _ (elf_hdr img)); [done|by rewrite Hl]).
  erewrite bind_ok by (apply on_elmem_pure, (load16_at _ _ (elf_hdr img)); [done|lia|by rewrite Hl]).
  erewrite bind_ok by (apply on_elmem_pure, (load8_at _ _ (elf_hdr img)); [done|by rewrite Hl]).
  erewrite bind_ok by (apply on_elmem_pure, (load16_at _ _ (elf_hdr img)); [done|lia|by rewrite Hl]).
  rewrite u32_at_hdr, !u16_at_hdr, !byte_at_hdr by done.
  rewrite (eo_magic _ _ _ Hok), (eo_bits _ _ _ Hok), (eo_arch _ _ _ Hok), (eo_type _ _ _ Hok).
  simpl. pose proof (eo_version _ _ _ Hok).
  by destruct (Z.ltb_spec (byte_at img 6) ELF_SUPPORTED); [lia|].
Qed.
End program.
End elf_proofs.

(** ** Theorems *)


(** A file as a list with a position, and a mapping that adds zero bytes. *)
Definition listfile : Type := list Z * Z.

Definition map_zeros (a b w : Z) (m : bmem) : bmem :=
  foldr (λ q m, match m !! q with Some _ => m | None => <[q := 0]> m end) m (seqZ a (b - a)).

#[export] Instance listfile_env : ElfEnv listfile := {
  ef_read n f := (slice f.1 f.2 n, (f.1, f.2 + n));
  ef_seek p f := (f.1, p);
  ef_map := map_zeros
}.

Lemma map_zeros_keeps a b w m q v : m !! q = Some v → map_zeros a b w m !! q = Some v.
Proof.
  intros Hq. unfold map_zeros. induction (seqZ a (b - a)) as [|x l IH]; simpl; [done|].
  destruct (foldr _ m l !! x) eqn:E; [done|]. rewrite lookup_insert_ne; [done|].
  intros ->. congruence.
Qed.

Lemma map_zeros_maps a b w m : mapped (map_zeros a b w m) a (b - a).
Proof.
  intros q Hq. unfold map_zeros. assert (Hin : q ∈ seqZ a (b - a)) by (apply elem_of_seqZ; lia).
  revert Hin. induction (seqZ a (b - a)) as [|x l IH]; simpl; [by intros ?%not_elem_of_nil|].
  intros Hin. destruct (foldr _ m l !! x) eqn:E.
  - apply elem_of_cons in Hin as [->|Hin]; [by eexists|by apply IH].
  - destruct (decide (x = q)) as [->|]; [rewrite lookup_insert_eq; by eexists|].
    rewrite lookup_insert_ne by done. apply IH. set_solver.
Qed.

#[export] Instance listfile_laws : ElfEnvLaws listfile.
Proof.
  refine {| image := fst; position := snd |}; try done.
  - intros. by apply map_zeros_keeps.
  - intros. apply map_zeros_maps.
Defined.

(** A program with one segment of 3 bytes at 4096, 8 bytes long in memory. *)
Definition demo_elf : list Z :=
  [127; 69; 76; 70; 1; 1; 1; 0; 0; 0; 0; 0; 0; 0; 0; 0; 2; 0; 3; 0; 1; 0; 0; 0] ++
  [0; 16; 0; 0; 52; 0; 0; 0; 0; 0; 0; 0; 0; 0; 0; 0; 52; 0; 32; 0; 1; 0; 0; 0; 0; 0; 0; 0] ++
  [1; 0; 0; 0; 84; 0; 0; 0; 0; 16; 0; 0; 0; 16; 0; 0; 3; 0; 0; 0; 8; 0; 0; 0; 5; 0; 0; 0; 0; 0; 0; 0] ++
  [144; 144; 195].

Definition demo_elf_state : elfst listfile :=
  ElfSt (write_at ∅ 100 (replicate 100 0)) (demo_elf, 0) 0 0 0.

Lemma demo_elf_ok : elf_ok demo_elf 100 160.
Proof.
  assert (Hph : ∀ i, 0 ≤ i < elf_phnum demo_elf → i = 0).
  { intros i. change (elf_phnum demo_elf) with 1. lia. }
  assert (E0 : elf_ph demo_elf 0 = Phdr 1 84 4096 4096 3 8 5 0) by by vm_compute.
  constructor.
  - apply (Forall_impl (λ b, bool_decide (0 ≤ b < 256) = true)).
    + repeat constructor.
    + intros x Hx. by apply bool_decide_eq_true in Hx.
  - vm_compute. discriminate.
  - by vm_compute.
  - by vm_compute.
  - by vm_compute.
  - vm_compute. discriminate.
  - by vm_compute.
  - vm_compute. discriminate.
  - vm_compute. discriminate.
  - left. vm_compute. discriminate.
  - intros i ->%Hph. rewrite E0. simpl. lia.
  - intros i ->%Hph _. rewrite E0. unfold segment_ok, apart, disjoint_blocks. simpl.
    change (Z.of_nat (length demo_elf)) with 87. change (elf_phnum demo_elf) with 1.
    unfold SIZEOF_HDR, SIZEOF_PHDR. lia.
  - intros i j Hi Hj. pose proof (Hph j). pose proof (Hph i). lia.
Qed.

Lemma demo_image : image (el_file demo_elf_state) = demo_elf.
Proof. reflexivity. Qed.

