(* ===== verification/Input.v ===== *)
(** * Keyboard and mouse (kernel/drivers/keyboard.c, kernel/drivers/ps2/mouse.c)

    The keyboard turns scancodes into characters through three keymaps that
    [set_keymap] fills from a file.  Writes to file descriptors and the signal
    for ctrl-c are recorded in order as [kb_event]s.  The mouse is driven through
    I/O ports: [inb] and [outb], on a hardware state, are parameters. *)
From S2P Require Import Prelude Frames LibK.

(** ** keyboard.c *)

Record key_mod := KeyMod { km_ctrl : Z; km_shift : Z; km_alt : Z; km_altgr : Z }.

Inductive kb_event :=
| KbPacket (scancode key : Z)
| KbStdin (c : Z)
| KbSigint.

Record kb := Kb {
  g_modifier : key_mod;
  keymap_normal : Z;
  keymap_shift : Z;
  keymap_altgr : Z;
  kb_mem : bmem;
  kb_out : list kb_event
}.

Definition LSHIFT_D : Z := 42.
Definition LSHIFT_U : Z := 170.
Definition CAPS_LCK : Z := 58.
Definition RSHIFT_D : Z := 54.
Definition RSHIFT_U : Z := 182.
Definition ALTGR_D : Z := 56.
Definition ALTGR_U : Z := 184.
Definition RETURN_D : Z := 28.
Definition LCTRL_D : Z := 29.
Definition LCTRL_U : Z := 157.
Definition BACKSPACE_D : Z := 14.
Definition KEYMAP_SIZE : Z := 128.

Definition set_modifier (k : key_mod) : M kb unit :=
  modify (λ s, Kb k (keymap_normal s) (keymap_shift s) (keymap_altgr s) (kb_mem s) (kb_out s)).

Definition emit (e : kb_event) : M kb unit :=
  modify (λ s, Kb (g_modifier s) (keymap_normal s) (keymap_shift s) (keymap_altgr s) (kb_mem s)
                 (kb_out s ++ [e])).

Definition kb_load8 (p : Z) : M kb Z := m ← get kb_mem; of_option (m !! p).

Definition modifiers (scancode : Z) : M kb Z :=
  k ← get g_modifier;
  if (scancode =? LSHIFT_U) || (scancode =? RSHIFT_U) then
    _ ← set_modifier (KeyMod (km_ctrl k) 0 (km_alt k) (km_altgr k)); mret 0
  else if (scancode =? LSHIFT_D) || (scancode =? RSHIFT_D) then
    _ ← set_modifier (KeyMod (km_ctrl k) 1 (km_alt k) (km_altgr k)); mret 0
  else if scancode =? CAPS_LCK then
    _ ← set_modifier (KeyMod (km_ctrl k) (if km_shift k =? 0 then 1 else 0) (km_alt k) (km_altgr k));
    mret 0
  else if scancode =? ALTGR_D then
    _ ← set_modifier (KeyMod (km_ctrl k) (km_shift k) (km_alt k) 1); mret 0
  else if scancode =? ALTGR_U then
    _ ← set_modifier (KeyMod (km_ctrl k) (km_shift k) (km_alt k) 0); mret 0
  else if scancode =? LCTRL_U then
    _ ← set_modifier (KeyMod 0 (km_shift k) (km_alt k) (km_altgr k)); mret 0
  else if scancode =? LCTRL_D then
    _ ← set_modifier (KeyMod 1 (km_shift k) (km_alt k) (km_altgr k)); mret 0
  else if scancode =? BACKSPACE_D then mret 8
  else if scancode =? RETURN_D then mret 10
  else mret (-1).

(** A [char] of a keymap is signed. *)
Definition getkey (scancode : Z) : M kb Z :=
  c ← modifiers scancode;
  if 0 <=? c then mret c
  else if 128 <? scancode then mret 0
  else
    s ← get id;
    if negb (km_shift (g_modifier s) =? 0) then b ← kb_load8 (keymap_shift s + scancode); mret (s8 b)
    else if negb (km_altgr (g_modifier s) =? 0) then
      b ← kb_load8 (keymap_altgr s + scancode); mret (s8 b)
    else if negb (keymap_normal s =? 0) then
      b ← kb_load8 (keymap_normal s + scancode); mret (s8 b)
    else mret 0.

Definition combination (c : Z) : M kb Z :=
  k ← get g_modifier;
  if negb (km_ctrl k =? 0) && (c =? 99) then _ ← emit KbSigint; mret 1 else mret 0.

Definition send_scancode (scancode : Z) : M kb Z :=
  n ← get keymap_normal;
  if n =? 0 then mret 0
  else
    c ← getkey scancode;
    _ ← emit (KbPacket scancode c);
    r ← combination c;
    _ ← (if negb (r =? 0) then emit (KbStdin 94) else mret tt);
    _ ← (if negb (c =? 0) then emit (KbStdin c) else mret tt);
    mret 0.

(** The loop of [set_keymap] with [n] iterations left, at index [i]; [buf] moves
    on with every line that is not empty. *)
Fixpoint set_keymap_loop (n : nat) (i map buf : Z) : M bmem unit :=
  match n with
  | O => mret tt
  | S n' =>
    c ← load8 (buf + i);
    if c =? 10 then
      _ ← store8 (map + i) i;
      set_keymap_loop n' (i + 1) map buf
    else
      _ ← store8 (map + i) c;
      set_keymap_loop n' (i + 1) map (buf + 1)
  end.

Definition set_keymap (map buf size : Z) : M bmem unit :=
  set_keymap_loop (Z.to_nat size) 0 map buf.

(** ** mouse.c *)

Definition HOOKS : nat := 8.

Record mouse := Mouse {
  mouse_xrel : Z;
  mouse_yrel : Z;
  mouse_xloc : Z;
  mouse_yloc : Z;
  mouse_lbut : Z;
  mouse_rbut : Z;
  mouse_mbut : Z;
  mouse_lheld : Z;
  mousehooks : list Z;
  MOUSELOOPING : Z;
  MOUSELOOPINTERVAL : Z
}.

Definition with_hooks (l : list Z) (s : mouse) : mouse :=
  Mouse (mouse_xrel s) (mouse_yrel s) (mouse_xloc s) (mouse_yloc s) (mouse_lbut s) (mouse_rbut s)
    (mouse_mbut s) (mouse_lheld s) l (MOUSELOOPING s) (MOUSELOOPINTERVAL s).

Definition with_looping (l i : Z) (s : mouse) : mouse :=
  Mouse (mouse_xrel s) (mouse_yrel s) (mouse_xloc s) (mouse_yloc s) (mouse_lbut s) (mouse_rbut s)
    (mouse_mbut s) (mouse_lheld s) (mousehooks s) l i.

(** The index of the first slot that holds [v]. *)
Fixpoint hook_slot (l : list Z) (v : Z) : option nat :=
  match l with
  | [] => None
  | x :: l' => if x =? v then Some O else S <$> hook_slot l' v
  end.

Definition register_mouse_hook (hook : Z) : M mouse Z :=
  l ← get mousehooks;
  match hook_slot l 0 with
  | Some i => _ ← modify (with_hooks (<[i := hook]> l)); mret 0
  | None => mret 0
  end.

Definition remove_mouse_hook (hook : Z) : M mouse Z :=
  l ← get mousehooks;
  match hook_slot l hook with
  | Some i => _ ← modify (with_hooks (<[i := 0]> l)); mret 0
  | None => mret 1
  end.

Section mouse_ports.
Context {hw : Type} (inb : Z → hw → Z * hw) (outb : Z → Z → hw → hw).

Definition port_byte_in (port : Z) : M (mouse * hw) Z := λ '(s, h),
  let '(v, h') := inb port h in Ok (u8 v, (s, h')).

Definition port_byte_out (port v : Z) : M (mouse * hw) unit := λ '(s, h),
  Ok (tt, (s, outb port v h)).

Definition on_mouse {A} (c : M mouse A) : M (mouse * hw) A := λ '(s, h),
  match c s with
  | Ok (a, s') => Ok (a, (s', h))
  | Fault => Fault
  | Hang => Hang
  end.

(** [while (_time_out--)]: at most [n] polls of the status port. *)
Fixpoint mouse_wait_loop (n : nat) (ready : Z → bool) : M (mouse * hw) unit :=
  match n with
  | O => mret tt
  | S n' => v ← port_byte_in 100; if ready v then mret tt else mouse_wait_loop n' ready
  end.

Definition mouse_time_out : nat := 100000.

Definition mouse_wait (a_type : Z) : M (mouse * hw) unit :=
  if a_type =? 0 then mouse_wait_loop mouse_time_out (λ v, Z.land v 1 =? 1)
  else mouse_wait_loop mouse_time_out (λ v, Z.land v 2 =? 0).

Definition mouse_write (a_write : Z) : M (mouse * hw) unit :=
  _ ← mouse_wait 1;
  _ ← port_byte_out 100 212;
  _ ← mouse_wait 1;
  port_byte_out 96 a_write.

Definition mouse_read : M (mouse * hw) Z := _ ← mouse_wait 0; port_byte_in 96.

Definition mouse_moved (byte1 dx dy width height : Z) (s : mouse) : mouse :=
  let lheld := if negb (mouse_lbut s =? 0) && negb (getbit byte1 0 =? 0) then 1 else 0 in
  let xrel := s8 dx in
  let yrel := s8 dy in
  let x := s32 (mouse_xloc s + xrel) in
  let y := s32 (mouse_yloc s - yrel) in
  Mouse xrel yrel
    (if (0 <? x) && (x <? width) then x else mouse_xloc s)
    (if (0 <? y) && (y <? height) then y else mouse_yloc s)
    (getbit byte1 0) (getbit byte1 1) (getbit byte1 2) lheld (mousehooks s)
    (MOUSELOOPING s) (MOUSELOOPINTERVAL s).

(** [width] and [height] are the screen's. *)
Definition mouse_poll (width height : Z) : M (mouse * hw) unit :=
  out ← port_byte_in 100;
  if out =? 61 then
    byte1 ← port_byte_in 96;
    dx ← port_byte_in 96;
    dy ← port_byte_in 96;
    on_mouse (modify (mouse_moved byte1 dx dy width height))
  else mret tt.

Definition init_mouse : M (mouse * hw) Z :=
  _ ← on_mouse (modify (with_looping 1 10));
  _ ← on_mouse (modify (with_hooks (replicate HOOKS 0)));
  _ ← mouse_wait 1;
  _ ← port_byte_out 100 168;
  _ ← mouse_wait 1;
  _ ← port_byte_out 100 32;
  _ ← mouse_wait 0;
  st ← port_byte_in 96;
  let _status := Z.lor st 2 in
  _ ← mouse_wait 1;
  _ ← port_byte_out 100 96;
  _ ← mouse_wait 1;
  _ ← port_byte_out 96 _status;
  _ ← mouse_write 246;
  _ ← mouse_read;
  _ ← mouse_write 244;
  _ ← mouse_read;
  mret 0.

Fixpoint mouse_polls (n : nat) (width height : Z) : M (mouse * hw) unit :=
  match n with
  | O => mret tt
  | S n' => _ ← mouse_poll width height; mouse_polls n' width height
  end.
End mouse_ports.

(** ** The keymap file

    One line per scancode: empty, or one character. *)
Definition keyline (l : option Z) : list Z := match l with None => [10] | Some c => [c; 10] end.

Definition keymap_file (ls : list (option Z)) : list Z := concat (keyline <$> ls).

(** A scancode with an empty line stands for itself. *)
Definition keymap_of (k : nat) (ls : list (option Z)) : list Z :=
  imap (λ i l, match l with None => u8 (Z.of_nat (k + i)) | Some c => c end) ls.

Lemma keymap_of_cons k l ls :
  keymap_of k (l :: ls) =
  match l with None => u8 (Z.of_nat k) | Some c => c end :: keymap_of (S k) ls.
Proof.
  unfold keymap_of. rewrite imap_cons. f_equal; [by rewrite Nat.add_0_r|].
  apply imap_ext. intros i x _. simpl. by rewrite Nat.add_succ_r.
Qed.

Lemma keymap_of_length k ls : length (keymap_of k ls) = length ls.
Proof. apply length_imap. Qed.

Definition keyline_ok (l : option Z) : Prop :=
  match l with None => True | Some c => is_byte c ∧ c ≠ 10 end.

(** One line: the byte read is its first, and what the store leaves. *)
Lemma set_keymap_step l n i map buf m :
  bytes_at m (buf + i) (keyline l) → is_Some (m !! (map + i)) → keyline_ok l →
  set_keymap_loop (S n) i map buf m =
  set_keymap_loop n (i + 1) map (buf + match l with None => 0 | Some _ => 1 end)
    (<[map + i := match l with None => u8 i | Some c => c end]> m).
Proof.
  intros Hb Hm Hl. simpl. destruct l as [c|]; simpl in Hb.
  - destruct Hl as [Hc Hc10]. pose proof (Hb 0%nat c eq_refl) as H0. rewrite Z.add_0_r in H0.
    erewrite bind_ok by by apply run_load8. destruct (Z.eqb_spec c 10); [done|].
    erewrite bind_ok by by apply run_store8. by rewrite u8_small.
  - pose proof (Hb 0%nat 10 eq_refl) as H0. rewrite Z.add_0_r in H0.
    erewrite bind_ok by by apply run_load8. simpl.
    erewrite bind_ok by by apply run_store8. by rewrite Z.add_0_r.
Qed.

Lemma set_keymap_loop_ok ls : ∀ k map buf m,
  let i := Z.of_nat k in
  bytes_at m (buf + i) (keymap_file ls) → mapped m (map + i) (Z.of_nat (length ls)) →
  Forall keyline_ok ls →
  map + i + Z.of_nat (length ls) ≤ buf + i ∨
    buf + i + Z.of_nat (length (keymap_file ls)) ≤ map + i →
  set_keymap_loop (length ls) i map buf m = Ok (tt, write_at m (map + i) (keymap_of k ls)).
Proof.
  induction ls as [|l ls IH]; intros k map buf m i Hb Hm Hl Hd; [done|].
  rewrite keymap_of_cons. inversion Hl as [|?? Hl1 Hl2]; subst.
  change (keymap_file (l :: ls)) with (keyline l ++ keymap_file ls) in Hb, Hd.
  apply bytes_at_app in Hb as [Hb1 Hb2]. rewrite length_app in Hd. simpl length in Hm, Hd |- *.
  rewrite (set_keymap_step l) by (done || apply Hm; lia).
  assert (Hkl : Z.of_nat (length (keyline l)) = match l with None => 1 | Some _ => 2 end)
    by (by destruct l).
  set (b := match l with None => u8 i | Some c => c end).
  set (buf' := buf + match l with None => 0 | Some _ => 1 end).
  assert (Hbuf' : buf' + (i + 1) = buf + i + Z.of_nat (length (keyline l)))
    by (unfold buf'; destruct l; simpl; lia).
  replace (i + 1) with (Z.of_nat (S k)) in * by lia.
  rewrite (IH (S k) map buf' (<[map + i := b]> m)); [| | |done|].
  - rewrite <- write_at_cons. do 3 f_equal. lia.
  - rewrite Hbuf'. eapply bytes_at_frame; [|done]. intros q Hq. apply lookup_insert_ne. lia.
  - apply mapped_insert. intros q Hq. apply Hm. lia.
  - rewrite Hbuf'. lia.
Qed.

(** [set_keymap] reads a keymap file: when the file has one line per scancode,
    empty or with one character, the keymap ends up with that character at its
    scancode, and with the scancode itself where the line is empty; nothing
    outside the keymap changes. *)
Theorem set_keymap_correct (ls : list (option Z)) (map buf : Z) (m : bmem)
    (Hb : bytes_at m buf (keymap_file ls)) (Hm : mapped m map (Z.of_nat (length ls)))
    (Hl : Forall keyline_ok ls)
    (Hd : map + Z.of_nat (length ls) ≤ buf ∨ buf + Z.of_nat (length (keymap_file ls)) ≤ map) :
  ∃ m', set_keymap map buf (Z.of_nat (length ls)) m = Ok (tt, m') ∧
    (∀ i l, ls !! i = Some l →
       m' !! (map + Z.of_nat i) =
         Some (match l with None => u8 (Z.of_nat i) | Some c => c end)) ∧
    ∀ q, ¬ map ≤ q < map + Z.of_nat (length ls) → m' !! q = m !! q.
Proof.
  exists (write_at m map (keymap_of 0 ls)). split_and!.
  - unfold set_keymap. rewrite Nat2Z.id.
    pose proof (set_keymap_loop_ok ls 0%nat map buf m) as H. simpl in H.
    rewrite !Z.add_0_r in H. by apply H.
  - intros i l Hi. apply write_at_in. unfold keymap_of. by rewrite list_lookup_imap, Hi.
  - intros q Hq. apply write_at_out. by rewrite keymap_of_length.
Qed.

Definition demo_keymap : bmem := write_at ∅ 100 (keymap_file [Some 97; None; Some 98] ++ replicate 3 0).

Lemma set_keymap_correct_witness :
  ∃ m', set_keymap 105 100 3 demo_keymap = Ok (tt, m') ∧
    (∀ i l, [Some 97; None; Some 98] !! i = Some l →
       m' !! (105 + Z.of_nat i) =
         Some (match l with None => u8 (Z.of_nat i) | Some c => c end)) ∧
    ∀ q, ¬ 105 ≤ q < 105 + 3 → m' !! q = demo_keymap !! q.
Proof.
  pose proof (write_at_in ∅ 100 (keymap_file [Some 97; None; Some 98] ++ replicate 3 0)) as H.
  apply bytes_at_app in H as [H1 H2].
  apply (set_keymap_correct [Some 97; None; Some 98] 105 100 demo_keymap).
  - exact H1.
  - exact (bytes_at_mapped _ _ _ H2).
  - repeat constructor; unfold is_byte; lia.
  - right. simpl. lia.
Defined.

(** ** The mouse stays on the screen *)

Definition on_screen (width height : Z) (s : mouse) : Prop :=
  0 ≤ mouse_xloc s < width ∧ 0 ≤ mouse_yloc s < height.

Section mouse_proofs.
Context {hw : Type} (inb : Z → hw → Z * hw).

Lemma port_byte_in_ok port s h : ∃ v h', port_byte_in inb port (s, h) = Ok (v, (s, h')).
Proof. unfold port_byte_in. destruct (inb port h) as [v h']. by eexists _, _. Qed.

Lemma mouse_poll_ok width height s h :
  on_screen width height s →
  ∃ s' h', mouse_poll inb width height (s, h) = Ok (tt, (s', h')) ∧ on_screen width height s' ∧
    mousehooks s' = mousehooks s.
Proof.
  intros Hs. unfold mouse_poll.
  destruct (port_byte_in_ok 100 s h) as (out & h1 & E1). erewrite bind_ok by exact E1.
  destruct (out =? 61); [|by exists s, h1].
  destruct (port_byte_in_ok 96 s h1) as (b & h2 & E2). erewrite bind_ok by exact E2.
  destruct (port_byte_in_ok 96 s h2) as (dx & h3 & E3). erewrite bind_ok by exact E3.
  destruct (port_byte_in_ok 96 s h3) as (dy & h4 & E4). erewrite bind_ok by exact E4.
  eexists _, h4. split; [reflexivity|]. split; [|done].
  destruct Hs as [Hx Hy]. unfold on_screen, mouse_moved. simpl. bool_cases; simpl; lia.
Qed.
End mouse_proofs.

(** Whatever bytes the mouse sends, any number of [mouse_poll]s returns and
    keeps the pointer inside the screen. *)
Theorem mouse_stays_on_screen {hw : Type} (inb : Z → hw → Z * hw) (n : nat) (width height : Z)
    (s : mouse) (h : hw) (Hs : on_screen width height s) :
  ∃ s' h', mouse_polls inb n width height (s, h) = Ok (tt, (s', h')) ∧
    on_screen width height s' ∧ mousehooks s' = mousehooks s.
Proof.
  revert s h Hs. induction n as [|n IH]; intros s h Hs; [by exists s, h|]. simpl.
  destruct (mouse_poll_ok inb width height s h Hs) as (s1 & h1 & E1 & Hs1 & Hh1).
  erewrite bind_ok by exact E1.
  destruct (IH s1 h1 Hs1) as (s2 & h2 & E2 & Hs2 & Hh2). exists s2, h2. by rewrite <- Hh1.
Qed.

(** A mouse that sends its bytes in turn. *)
Definition demo_inb (port : Z) (h : list Z) : Z * list Z :=
  match h with [] => (0, []) | b :: h' => (b, h') end.

Lemma mouse_stays_on_screen_witness :
  ∃ s' h', mouse_polls demo_inb 2 320 200
      (Mouse 0 0 319 100 0 0 0 0 [] 1 10, [61; 1; 5; 250; 61; 0; 251; 3]) = Ok (tt, (s', h')) ∧
    on_screen 320 200 s' ∧ mousehooks s' = [].
Proof.
  apply (mouse_stays_on_screen demo_inb 2 320 200).
  unfold on_screen. simpl. lia.
Defined.
