(* ===== verification/Winserv.v ===== *)
(** * The window server (src/apps/winserv, src/external/eclib/vector.h, src/libs/libgfx)

    The growing vector of eclib for pointers, the windows and the renderer of the server,
    and the frame drawing of libgfx, over the byte memory of a program.  [memcpy] and
    [memset] are those of the C library.  [renderer_render] is proved to show the windows
    one over the other in the order they were made. *)
From S2P Require Import Prelude LibK.

(** ** The C library *)

(** Copying bytes that do not overlap. *)
Definition copy_mem (dst src n : Z) : M bmem unit := bs ← load_bytes (Z.to_nat n) src; store_bytes dst bs.

Definition fill_mem (dst value n : Z) : M bmem unit := store_bytes dst (replicate (Z.to_nat n) (u8 value)).

(** ** eclib/vector.h, for pointers *)

Definition VECTOR_STARTCAP : Z := 8.
Definition ECLIB_EIND : Z := 1.
Definition ECLIB_EDESTR : Z := 2.
Definition SIZEOF_ITEM : Z := 4.

Record vec := Vec {
  v_buffer : list Z;
  v_size : Z;
  v_capacity : Z;
  v_destroyed : Z;
  v_error : Z;
  v_iter : Z
}.

Section vec.
(** The words in a new block of so many bytes, [None] when there is no memory. *)
Variable alloc : Z → option (list Z).

(** The results are not tested. *)
Definition vec_create : option vec :=
  buffer ← alloc (SIZEOF_ITEM * VECTOR_STARTCAP);
  Some (Vec buffer 0 VECTOR_STARTCAP 0 0 0).

Definition CHECK_INDEX (v : vec) (ind : Z) : bool := (ind <? v_size v) && (v_destroyed v =? 0).

Definition with_error (e : Z) (v : vec) : vec :=
  Vec (v_buffer v) (v_size v) (v_capacity v) (v_destroyed v) e (v_iter v).

(** The test of [destroyed] behind the first one is never true. *)
Definition vec_get (index : Z) : M vec Z :=
  _ ← modify (with_error 0);
  v ← get (λ v, v);
  if negb (CHECK_INDEX v index) then _ ← modify (with_error ECLIB_EIND); mret 0
  else if negb (v_destroyed v =? 0) then _ ← modify (with_error ECLIB_EDESTR); mret 0
  else of_option (v_buffer v !! Z.to_nat index).

(** A slot of the buffer. *)
Definition put_slot (index object : Z) : M vec unit :=
  v ← get (λ v, v);
  _ ← of_option (v_buffer v !! Z.to_nat index);
  modify (λ v, Vec (<[Z.to_nat index := object]> (v_buffer v)) (v_size v) (v_capacity v) (v_destroyed v) (v_error v) (v_iter v)).

Definition vec_wipe (index : Z) : M vec Z :=
  v ← get (λ v, v);
  if negb (CHECK_INDEX v index) then mret (-1) else _ ← put_slot index 0; mret 0.

Definition vec_reserve (amount : Z) : M vec Z :=
  v ← get (λ v, v);
  if amount <? v_capacity v then mret (-1)
  else
    let prevcap := s32 (v_capacity v) in
    buf ← of_option (alloc (u32 (SIZEOF_ITEM * amount)));
    let n := Z.to_nat (u32 (prevcap * SIZEOF_ITEM) / SIZEOF_ITEM) in
    if (length buf <? n)%nat || (length (v_buffer v) <? n)%nat then fault
    else
      _ ← modify (λ v, Vec (take n (v_buffer v) ++ drop n buf) (v_size v) amount (v_destroyed v) (v_error v) (v_iter v));
      mret 0.

(** [error] and [iter] are what the new block holds. *)
Definition vec_copy (srcvec : vec) (error iter : Z) : option vec :=
  buf ← alloc (u32 (SIZEOF_ITEM * v_capacity srcvec));
  let n := Z.to_nat (u32 (SIZEOF_ITEM * v_capacity srcvec) / SIZEOF_ITEM) in
  if (length buf <? n)%nat || (length (v_buffer srcvec) <? n)%nat then None
  else Some (Vec (take n (v_buffer srcvec) ++ drop n buf) (v_size srcvec) (v_capacity srcvec) (v_destroyed srcvec) error iter).

Definition vec_push (object : Z) : M vec Z :=
  v ← get (λ v, v);
  if negb (v_destroyed v =? 0) then mret (-1)
  else
    _ ← (if v_size v =? v_capacity v then vec_reserve (u32 (v_capacity v * 2)) else mret 0);
    _ ← put_slot (v_size v) object;
    let size := u32 (v_size v + 1) in
    _ ← modify (λ v, Vec (v_buffer v) size (v_capacity v) (v_destroyed v) (v_error v) (v_iter v));
    mret (s32 size).

Definition vec_set (index object : Z) : M vec Z :=
  v ← get (λ v, v);
  if negb (v_destroyed v =? 0) then mret (-1)
  else if negb (CHECK_INDEX v index) then mret (-1)
  else _ ← put_slot index object; mret 0.

(** The size stays. *)
Definition vec_pop : M vec Z :=
  _ ← modify (with_error 0);
  v ← get (λ v, v);
  if negb (v_destroyed v =? 0) then _ ← modify (with_error ECLIB_EDESTR); mret 0
  else if v_size v =? 0 then _ ← modify (with_error ECLIB_EIND); mret 0
  else of_option (v_buffer v !! Z.to_nat (v_size v - 1)).

Definition vec_iter : M vec Z :=
  v ← get (λ v, v);
  let iter i := modify (λ v, Vec (v_buffer v) (v_size v) (v_capacity v) (v_destroyed v) (v_error v) i) in
  if v_iter v =? s32 (v_size v) then _ ← iter 0; mret (-1)
  else _ ← iter (s32 (v_iter v + 1)); mret (v_iter v).
End vec.

(** ** The server *)

Record ywindow := YWindow {
  title : Z;
  yw_x : Z;
  yw_y : Z;
  width : Z;
  height : Z;
  buffer : Z
}.

Record screen := Screen {
  scr_width : Z;
  scr_height : Z;
  zbuf : Z;
  framebuf : Z
}.

Record ws := Ws {
  ws_mem : bmem;
  ws_windows : gmap Z ywindow;
  g_winlist : vec;
  g_screen : screen
}.

Definition YW_BPP : Z := 4.
Definition YW_DEF_X : Z := 100.
Definition YW_DEF_Y : Z := 100.

Definition on_wsmem {A} (c : M bmem A) : M ws A := λ s,
  match c (ws_mem s) with
  | Ok (a, m) => Ok (a, Ws m (ws_windows s) (g_winlist s) (g_screen s))
  | Fault => Fault
  | Hang => Hang
  end.

Definition on_winlist {A} (c : M vec A) : M ws A := λ s,
  match c (g_winlist s) with
  | Ok (a, v) => Ok (a, Ws (ws_mem s) (ws_windows s) v (g_screen s))
  | Fault => Fault
  | Hang => Hang
  end.

Definition load_window (p : Z) : M ws ywindow := ws ← get ws_windows; of_option (ws !! p).

(** A line of a window. *)
Definition copy_line (win : ywindow) : Z * Z * Z → M ws (Z * Z * Z + unit) := λ '(i, loc, src),
  if i <? height win then
    _ ← on_wsmem (copy_mem loc src (u32 (width win * 4)));
    scr ← get g_screen;
    mret (inl (s32 (i + 1), loc + s32 (scr_width scr * 4), src + s32 (width win * 4)))
  else mret (inr tt).

Definition copy_windowbuf (win : Z) : M ws unit :=
  win ← load_window win;
  scr ← get g_screen;
  let startpos := s32 (yw_y win * (scr_width scr * 4) + yw_x win * 4) in
  loop (S (Z.to_nat (height win))) (copy_line win) (0, zbuf scr + startpos, buffer win).

Definition screenflip : M ws unit :=
  scr ← get g_screen;
  on_wsmem (copy_mem (framebuf scr) (zbuf scr) (u32 (scr_width scr * scr_height scr * 4))).

Definition render_step (_ : unit) : M ws (unit + unit) :=
  i ← on_winlist vec_iter;
  if i =? -1 then mret (inr tt)
  else
    win ← on_winlist (vec_get i);
    _ ← copy_windowbuf win;
    mret (inl tt).

(** Nothing is returned. *)
Definition renderer_render : M ws unit :=
  scr ← get g_screen;
  _ ← on_wsmem (fill_mem (zbuf scr) 255 (u32 (scr_width scr * scr_height scr * 4)));
  size ← get (λ s, v_size (g_winlist s));
  _ ← loop (S (Z.to_nat size)) render_step tt;
  screenflip.

Section create.
Variable alloc : Z → option (list Z).
(** [malloc] and [free] of the C library. *)
Variables (malloc : Z → M bmem Z) (free : Z → M bmem unit).

Definition SIZEOF_YWINDOW : Z := 24.

Definition renderer_pushwin (win : Z) : M ws Z := on_winlist (vec_push alloc win).

Definition create_winbuf (w h : Z) : M ws Z := on_wsmem (malloc (u32 (YW_BPP * w * h))).

Definition set_window (p : Z) (w : ywindow) : M ws unit :=
  modify (λ s, Ws (ws_mem s) (<[p := w]> (ws_windows s)) (g_winlist s) (g_screen s)).

Definition yws_create (t x y w h : Z) : M ws Z :=
  win ← on_wsmem (malloc SIZEOF_YWINDOW);
  if win =? 0 then mret 0
  else
    buf ← create_winbuf w h;
    _ ← set_window win (YWindow t x y w h buf);
    if buf =? 0 then _ ← on_wsmem (free win); mret 0
    else _ ← renderer_pushwin win; mret win.

Definition yws_create_simple (t w h : Z) : M ws Z := yws_create t YW_DEF_X YW_DEF_Y w h.
End create.

(** ** libgfx *)

Record __gfx := Gfx {
  fb : Z;
  bpp : Z;
  gfx_w : Z;
  gfx_h : Z;
  dbuf : Z;
  dbuf_size : Z;
  dbuf_line : Z
}.

Section gfx.
Variable g_gfx : __gfx.

Definition lgfx_draw_point_raw (offset color : Z) : M bmem unit :=
  let l := s32 (u32 (offset * bpp g_gfx)) in
  _ ← store8 (dbuf g_gfx + l) (Z.land (Z.shiftr color 16) 255);
  _ ← store8 (dbuf g_gfx + l + 1) (Z.land (Z.shiftr color 8) 255);
  store8 (dbuf g_gfx + l + 2) (Z.land color 255).

Definition lgfx_flip_display : M bmem Z := _ ← fill_mem (dbuf g_gfx) 0 (u32 (dbuf_size g_gfx)); mret 0.

Definition lgfx_update_display : M bmem Z := _ ← copy_mem (fb g_gfx) (dbuf g_gfx) (u32 (dbuf_size g_gfx)); mret 0.

Definition lgfx_draw_frame (frameptr : Z) : M bmem Z := _ ← copy_mem (fb g_gfx) frameptr (u32 (dbuf_size g_gfx)); mret 0.

Definition frame_line (linelen yres : Z) : Z * Z * Z → M bmem (Z * Z * Z + unit) := λ '(y, offset, fp),
  if y <? yres then
    _ ← copy_mem offset fp (u32 linelen);
    mret (inl (s32 (y + 1), offset + dbuf_line g_gfx, u32 (fp + linelen)))
  else mret (inr tt).

Definition lgfx_draw_frame_32 (fp xres yres : Z) : M bmem unit :=
  loop (S (Z.to_nat yres)) (frame_line (s32 (xres * 4)) yres) (0, fb g_gfx, fp).
End gfx.

(** ** Copying rectangles *)

Lemma copy_mem_run m dst src n : map_Forall (λ _, is_byte) m → 0 ≤ n → mapped m dst n → mapped m src n →
  copy_mem dst src n m = Ok (tt, write_at m dst (block m src (Z.to_nat n))).
Proof.
  intros Hb Hn Hd Hs. unfold copy_mem. set (bs := block m src (Z.to_nat n)).
  assert (Hl : length bs = Z.to_nat n) by apply block_length.
  rewrite (bind_ok _ _ _ bs m).
  2: { rewrite <- Hl. apply load_bytes_run, block_at. by rewrite Z2Nat.id. }
  apply store_bytes_run; [rewrite Hl; by rewrite Z2Nat.id|].
  apply Forall_lookup. intros i b Hi. pose proof (lookup_lt_Some _ _ _ Hi) as Hlt.
  unfold bs in Hi. rewrite block_lookup in Hi by lia. injection Hi as <-.
  destruct (Hs (src + Z.of_nat i)) as [c Hc]; [lia|]. rewrite Hc. exact (Hb _ _ Hc).
Qed.

(** What the memory holds after [n] lines of [len] bytes of a rectangle with lines [len] at
    [src] were copied into the picture at [z] with lines of [D] bytes, from line [y] and
    byte [a] on. *)
Record pasted (m : bmem) (z D L src y a len n : Z) (m' : bmem) : Prop := Pasted {
  pd_in : ∀ o, 0 ≤ o < L → m' !! (z + o) =
    if bool_decide (y ≤ o `div` D < y + n ∧ a ≤ o `mod` D < a + len) then m !! (src + (o `div` D - y) * len + (o `mod` D - a))
    else m !! (z + o);
  pd_out : ∀ q, ¬ z ≤ q < z + L → m' !! q = m !! q
}.

Lemma pasted_line m z D L src y a len n m1 : 0 ≤ y → 0 ≤ a → 0 ≤ len → a + len ≤ D → 0 ≤ n → (y + n + 1) * D ≤ L →
  mapped m src ((n + 1) * len) → src + (n + 1) * len ≤ z ∨ z + L ≤ src →
  pasted m z D L src y a len n m1 →
  pasted m z D L src y a len (n + 1) (write_at m1 (z + (y + n) * D + a) (block m1 (src + n * len) (Z.to_nat len))).
Proof.
  intros Hy Ha Hlen Hw Hn HL Hm Hd [Hin Hout].
  destruct (decide (len = 0)) as [->|Hne].
  { split; [|done]. intros o Ho. simpl. rewrite Hin by done. do 2 case_bool_decide; naive_solver lia. }
  assert (HD : 0 < D) by lia.
  split.
  - intros o Ho. pose proof (Z.div_mod o D ltac:(lia)) as Hdm. pose proof (Z.mod_pos_bound o D HD) as Hmb.
    set (r := o `div` D) in *. set (c := o `mod` D) in *.
    rewrite write_at_lookup, block_length, Z2Nat.id by done.
    case_decide as Hq.
    + assert (Hr : r = y + n) by nia. assert (Hc : a ≤ c < a + len) by nia.
      rewrite block_lookup by lia. rewrite bool_decide_true by lia.
      rewrite Z2Nat.id by lia. rewrite Hout by nia.
      replace (src + n * len + (z + o - (z + (y + n) * D + a))) with (src + (r - y) * len + (c - a)) by nia.
      destruct (Hm (src + (r - y) * len + (c - a))) as [b Hb]; [nia|]. by rewrite Hb.
    + rewrite Hin by done. fold r c. case_bool_decide as H1; case_bool_decide as H2; try done; [naive_solver lia|].
      exfalso. assert (r = y + n) by lia. nia.
  - intros q Hq. rewrite write_at_lookup, block_length, Z2Nat.id by done. rewrite decide_False; [by apply Hout|].
    intros Hx. apply Hq. nia.
Qed.

(** The rectangle lies in the picture, and its bytes elsewhere. *)
Record fits (m : bmem) (z D L src y a len n : Z) : Prop := Fits {
  ft_y : 0 ≤ y;
  ft_a : 0 ≤ a;
  ft_len : 0 ≤ len;
  ft_line : a + len ≤ D;
  ft_n : 0 ≤ n;
  ft_lines : (y + n) * D ≤ L;
  ft_src : mapped m src (n * len);
  ft_dst : mapped m z L;
  ft_apart : src + n * len ≤ z ∨ z + L ≤ src;
  ft_bytes : map_Forall (λ _, is_byte) m
}.

Section paste.
Context {m : bmem} {z D L src y a len h : Z} (Hf : fits m z D L src y a len h).

Lemma pasted_none : pasted m z D L src y a len 0 m.
Proof. split; [|done]. intros o Ho. rewrite bool_decide_false by lia. done. Qed.

Lemma pasted_some n m1 q : n ≤ h → pasted m z D L src y a len n m1 → is_Some (m !! q) → is_Some (m1 !! q).
Proof.
  destruct Hf. intros Hn [Hin Hout] Hq. destruct (decide (z ≤ q < z + L)) as [Hz|Hz]; [|by rewrite Hout].
  replace q with (z + (q - z)) in * by lia. rewrite Hin by lia. case_bool_decide; [|done].
  apply ft_src0. nia.
Qed.

Lemma pasted_bytes n m1 : n ≤ h → pasted m z D L src y a len n m1 → map_Forall (λ _, is_byte) m1.
Proof.
  destruct Hf. intros Hn [Hin Hout] q b Hq. destruct (decide (z ≤ q < z + L)) as [Hz|Hz]; [|rewrite Hout in Hq by done; exact (ft_bytes0 _ _ Hq)].
  replace q with (z + (q - z)) in Hq by lia. rewrite Hin in Hq by lia. case_bool_decide; exact (ft_bytes0 _ _ Hq).
Qed.

Lemma paste_line n m1 : 0 ≤ n < h → pasted m z D L src y a len n m1 →
  ∃ m2, copy_mem (z + (y + n) * D + a) (src + n * len) len m1 = Ok (tt, m2) ∧ pasted m z D L src y a len (n + 1) m2.
Proof.
  intros Hn Hp. pose proof Hf as Hf'. destruct Hf'. eexists. split.
  - apply copy_mem_run; [eapply pasted_bytes; [|done]; lia|done| |]; intros q Hq;
      (eapply pasted_some; [|exact Hp|]; [lia|]); [apply ft_dst0|apply ft_src0]; nia.
  - apply pasted_line; try done; try nia. intros q Hq. apply ft_src0. nia.
Qed.
End paste.

(** ** The vector as a list *)

(** The vector holds the pointers [ps], and no walk over it is under way. *)
Record vec_is (v : vec) (ps : list Z) : Prop := VecIs {
  vi_size : v_size v = Z.of_nat (length ps);
  vi_room : v_size v ≤ v_capacity v;
  vi_cap : 0 < v_capacity v < 134217728;
  vi_len : Z.of_nat (length (v_buffer v)) = v_capacity v;
  vi_items : take (length ps) (v_buffer v) = ps;
  vi_live : v_destroyed v = 0;
  vi_error : v_error v = 0;
  vi_iter : v_iter v = 0
}.

Section vec_list.
Context {alloc : Z → option (list Z)}.
Hypothesis alloc_words : ∀ n, 0 ≤ n < 2147483648 → ∃ ws, alloc (SIZEOF_ITEM * n) = Some ws ∧ Z.of_nat (length ws) = n.

Lemma vec_create_list : ∃ v, vec_create alloc = Some v ∧ vec_is v [].
Proof.
  destruct (alloc_words VECTOR_STARTCAP) as (ws & Hw & Hl); [done|]. unfold vec_create. rewrite Hw. eexists. split; [done|].
  by split.
Qed.

Lemma put_slot_run v i x : 0 ≤ i < Z.of_nat (length (v_buffer v)) →
  put_slot i x v = Ok (tt, Vec (<[Z.to_nat i := x]> (v_buffer v)) (v_size v) (v_capacity v) (v_destroyed v) (v_error v) (v_iter v)).
Proof.
  intros Hi. unfold put_slot. rewrite (bind_ok _ _ _ v v) by done.
  destruct (lookup_lt_is_Some_2 (v_buffer v) (Z.to_nat i)) as [y Hy]; [lia|]. by rewrite (bind_ok _ _ _ y v) by by rewrite Hy.
Qed.

Lemma vec_reserve_list v ps : vec_is v ps → v_capacity v < 67108864 →
  ∃ v', vec_reserve alloc (v_capacity v * 2) v = Ok (0, v') ∧ vec_is v' ps ∧ v_capacity v' = v_capacity v * 2.
Proof.
  intros [Hs Hr Hc Hl Hi Hd He Hit] Hcap. destruct (alloc_words (v_capacity v * 2)) as (ws & Hw & Hwl); [lia|].
  set (n := Z.to_nat (v_capacity v)).
  exists (Vec (take n (v_buffer v) ++ drop n ws) (v_size v) (v_capacity v * 2) (v_destroyed v) (v_error v) (v_iter v)).
  split; [|split; [|done]].
  - unfold vec_reserve. rewrite (bind_ok _ _ _ v v) by done. destruct (Z.ltb_spec (v_capacity v * 2) (v_capacity v)); [lia|].
    rewrite (u32_small (SIZEOF_ITEM * _)) by (unfold SIZEOF_ITEM; lia). rewrite (bind_ok _ _ _ ws v) by by rewrite Hw.
    cbv zeta. rewrite s32_small, u32_small by (unfold SIZEOF_ITEM; lia). rewrite Z.div_mul by done. fold n.
    destruct (Nat.ltb_spec (length ws) n); [lia|]. destruct (Nat.ltb_spec (length (v_buffer v)) n); [lia|]. done.
  - split; cbn; try done; try lia.
    + rewrite length_app, length_take, length_drop. lia.
    + rewrite take_app_le by (rewrite length_take; lia). rewrite take_take. by rewrite Nat.min_l by lia.
Qed.

Lemma vec_push_list v ps p : vec_is v ps → Z.of_nat (length ps) < 67108864 →
  ∃ v', vec_push alloc p v = Ok (Z.of_nat (length ps) + 1, v') ∧ vec_is v' (ps ++ [p]).
Proof.
  intros Hv Hn.
  assert (∃ v1, (if v_size v =? v_capacity v then vec_reserve alloc (u32 (v_capacity v * 2)) else mret 0) v = Ok (0, v1) ∧
    vec_is v1 ps ∧ v_size v1 < v_capacity v1) as (v1 & E1 & [Hs Hr Hc Hl Hi Hd He Hit] & Hlt).
  { pose proof (vi_size _ _ Hv). pose proof (vi_cap _ _ Hv). destruct (Z.eqb_spec (v_size v) (v_capacity v)) as [E|E].
    - rewrite u32_small by lia. destruct (vec_reserve_list v ps Hv) as (v1 & E1 & Hv1 & Hc1); [lia|].
      exists v1. split; [done|]. split; [done|]. rewrite (vi_size _ _ Hv1). lia.
    - exists v. split; [done|]. split; [done|]. pose proof (vi_room _ _ Hv). lia. }
  eexists. split.
  - unfold vec_push. rewrite (bind_ok _ _ _ v v) by done. rewrite (vi_live _ _ Hv). cbn [negb Z.eqb].
    rewrite (bind_ok _ _ _ _ _ E1), (vi_size _ _ Hv). rewrite (bind_ok _ _ _ _ _ (put_slot_run v1 (Z.of_nat (length ps)) p ltac:(lia))).
    cbv zeta. rewrite u32_small by lia. cbn. rewrite s32_small by lia. done.
  - split; cbn; try done.
    + rewrite length_app. simpl. lia.
    + lia.
    + by rewrite length_insert.
    + rewrite length_app, Nat2Z.id, Nat.add_1_r. rewrite (take_S_r _ _ p) by (apply list_lookup_insert_eq; lia).
      by rewrite take_insert_ge, Hi by lia.
Qed.
End vec_list.

(** ** What the screen shows *)

Definition covers (w : ywindow) (px py : Z) : Prop := yw_x w ≤ px < yw_x w + width w ∧ yw_y w ≤ py < yw_y w + height w.

#[export] Instance covers_dec w px py : Decision (covers w px py).
Proof. unfold covers. apply _. Defined.

(** The window made last among those at a pixel. *)
Definition top_window (ws : list ywindow) (px py : Z) : option ywindow := last (filter (λ w, covers w px py) ws).

(** Byte [k] of a pixel: that of the topmost window, white where there is none. *)
Definition shown_byte (m : bmem) (ws : list ywindow) (px py k : Z) : option Z :=
  match top_window ws px py with
  | Some w => m !! (buffer w + 4 * ((py - yw_y w) * width w + (px - yw_x w)) + k)
  | None => Some 255
  end.

Lemma top_window_snoc ws w px py : top_window (ws ++ [w]) px py = if bool_decide (covers w px py) then Some w else top_window ws px py.
Proof.
  unfold top_window. rewrite filter_app. case_bool_decide as Hc.
  - by rewrite filter_cons_True, filter_nil, last_snoc.
  - by rewrite filter_cons_False, filter_nil, app_nil_r.
Qed.

(** A window lies on the screen and its buffer outside of the picture. *)
Record window_ok (m : bmem) (scr : screen) (w : ywindow) : Prop := WindowOk {
  wo_x : 0 ≤ yw_x w;
  wo_y : 0 ≤ yw_y w;
  wo_w : 0 ≤ width w;
  wo_h : 0 < height w;
  wo_right : yw_x w + width w ≤ scr_width scr;
  wo_bottom : yw_y w + height w ≤ scr_height scr;
  wo_buffer : mapped m (buffer w) (height w * (4 * width w));
  wo_apart : buffer w + height w * (4 * width w) ≤ zbuf scr ∨ zbuf scr + 4 * scr_width scr * scr_height scr ≤ buffer w
}.

Record screen_ok (m : bmem) (scr : screen) : Prop := ScreenOk {
  sn_w : 0 < scr_width scr;
  sn_h : 0 < scr_height scr;
  sn_small : 4 * scr_width scr * scr_height scr < 2147483648;
  sn_zbuf : mapped m (zbuf scr) (4 * scr_width scr * scr_height scr);
  sn_fb : mapped m (framebuf scr) (4 * scr_width scr * scr_height scr);
  sn_bytes : map_Forall (λ _, is_byte) m
}.

(** The picture in [zbuf] shows the windows [ws] of [m]. *)
Record pictured (m : bmem) (scr : screen) (ws : list ywindow) (m' : bmem) : Prop := Pictured {
  pc_in : ∀ o, 0 ≤ o < 4 * scr_width scr * scr_height scr → m' !! (zbuf scr + o) =
    shown_byte m ws (o `mod` (4 * scr_width scr) `div` 4) (o `div` (4 * scr_width scr)) (o `mod` (4 * scr_width scr) `mod` 4);
  pc_out : ∀ q, ¬ zbuf scr ≤ q < zbuf scr + 4 * scr_width scr * scr_height scr → m' !! q = m !! q;
  pc_bytes : map_Forall (λ _, is_byte) m'
}.

Lemma pictured_mapped m scr ws m' p n : pictured m scr ws m' → Forall (window_ok m scr) ws → screen_ok m scr → mapped m p n → mapped m' p n.
Proof.
  intros [Hin Hout _] Hws [Hw Hh _ _ _ _] Hm q Hq.
  destruct (decide (zbuf scr ≤ q < zbuf scr + 4 * scr_width scr * scr_height scr)) as [Hz|Hz]; [|rewrite Hout by done; by apply Hm].
  replace q with (zbuf scr + (q - zbuf scr)) by lia. rewrite Hin by lia. unfold shown_byte. destruct (top_window _ _ _) as [w|] eqn:E; [|done].
  unfold top_window in E. apply last_Some_elem_of, list_elem_of_filter in E as [Hc Hel].
  rewrite Forall_forall in Hws. destruct (Hws w Hel). destruct Hc as [Hcx Hcy]. apply wo_buffer0.
  pose proof (Z.mod_pos_bound ((q - zbuf scr) `mod` (4 * scr_width scr)) 4 ltac:(lia)).
  set (c := _ `mod` 4) in *. set (px := _ `div` 4) in *. set (py := _ `div` _) in *. nia.
Qed.

(** Painting one more window. *)
Lemma pictured_paste m scr ws w m1 m2 : screen_ok m scr → window_ok m scr w → pictured m scr ws m1 →
  pasted m1 (zbuf scr) (4 * scr_width scr) (4 * scr_width scr * scr_height scr) (buffer w) (yw_y w) (4 * yw_x w) (4 * width w) (height w) m2 →
  map_Forall (λ _, is_byte) m2 → pictured m scr (ws ++ [w]) m2.
Proof.
  intros [Hw Hh _ _ _ _] [? ? ? ? ? ? Hbuf Hap] [Hin Hout _] [Pin Pout] Hb. split; [| |done].
  - intros o Ho. rewrite Pin by done. unfold shown_byte. rewrite top_window_snoc.
    set (D := 4 * scr_width scr) in *. pose proof (Z.mod_pos_bound o D ltac:(lia)) as HcD.
    set (py := o `div` D) in *. set (c := o `mod` D) in *.
    pose proof (Z.div_mod c 4 ltac:(lia)) as Hc. pose proof (Z.mod_pos_bound c 4 ltac:(lia)) as Hk.
    set (px := c `div` 4) in *. set (k := c `mod` 4) in *. unfold covers.
    case_bool_decide as H1; case_bool_decide as H2; [| exfalso; lia | exfalso; lia |by rewrite Hin].
    rewrite Hout by nia. f_equal. nia.
  - intros q Hq. by rewrite Pout, Hout.
Qed.

Definition set_wsmem (m : bmem) (s : ws) : ws := Ws m (ws_windows s) (g_winlist s) (g_screen s).
Definition set_winlist (v : vec) (s : ws) : ws := Ws (ws_mem s) (ws_windows s) v (g_screen s).

Lemma run_wsmem {A} (c : M bmem A) s a m : c (ws_mem s) = Ok (a, m) → on_wsmem c s = Ok (a, set_wsmem m s).
Proof. intros H. unfold on_wsmem. by rewrite H. Qed.

Lemma run_winlist {A} (c : M vec A) s a v : c (g_winlist s) = Ok (a, v) → on_winlist c s = Ok (a, set_winlist v s).
Proof. intros H. unfold on_winlist. by rewrite H. Qed.

Lemma lines_run m scr w : let z := zbuf scr in let D := 4 * scr_width scr in let L := 4 * scr_width scr * scr_height scr in
  fits m z D L (buffer w) (yw_y w) (4 * yw_x w) (4 * width w) (height w) → L < 2147483648 → 0 < scr_height scr →
  ∀ k i s, g_screen s = scr → 0 ≤ i → height w = i + Z.of_nat k → height w < 2147483648 →
  pasted m z D L (buffer w) (yw_y w) (4 * yw_x w) (4 * width w) i (ws_mem s) →
  ∃ m', loop (S k) (copy_line w) (i, z + (yw_y w + i) * D + 4 * yw_x w, buffer w + i * (4 * width w)) s = Ok (tt, set_wsmem m' s) ∧
    pasted m z D L (buffer w) (yw_y w) (4 * yw_x w) (4 * width w) (height w) m'.
Proof.
  intros z D L Hf HL Hsh. induction k as [|k IH]; intros i s Hscr Hi Hk Hh Hp.
  - exists (ws_mem s). split; [|by replace (height w) with i by lia].
    erewrite loop_done; [done|]. unfold copy_line. destruct (Z.ltb_spec i (height w)); [lia|]. by destruct s.
  - destruct (paste_line Hf i (ws_mem s)) as (m1 & E1 & Hp1); [lia|done|].
    destruct (IH (i + 1) (set_wsmem m1 s)) as (m' & E' & Hp'); [done|lia..|done|].
    exists m'. split; [|done]. assert (0 ≤ 4 * width w ≤ D) by (destruct Hf; lia).
    rewrite (loop_next _ _ _ _ (i + 1, z + (yw_y w + (i + 1)) * D + 4 * yw_x w, buffer w + (i + 1) * (4 * width w)) (set_wsmem m1 s)); [exact E'|].
    unfold copy_line. destruct (Z.ltb_spec i (height w)); [|lia].
    rewrite (Z.mul_comm (width w) 4), u32_small by (unfold D, L in *; nia). rewrite (bind_ok _ _ _ _ _ (run_wsmem _ _ _ _ E1)).
    rewrite (bind_ok _ _ _ scr (set_wsmem m1 s)) by (by rewrite <- Hscr). rewrite !s32_small by (unfold D, L in *; nia).
    rewrite (Z.mul_comm (scr_width scr) 4). fold D.
    replace (z + (yw_y w + (i + 1)) * D + 4 * yw_x w) with (z + (yw_y w + i) * D + 4 * yw_x w + D) by ring.
    by replace (buffer w + (i + 1) * (4 * width w)) with (buffer w + i * (4 * width w) + 4 * width w) by ring.
Qed.

Lemma copy_windowbuf_run m s p w ws : screen_ok m (g_screen s) → window_ok m (g_screen s) w → Forall (window_ok m (g_screen s)) ws →
  pictured m (g_screen s) ws (ws_mem s) → ws_windows s !! p = Some w →
  ∃ m', copy_windowbuf p s = Ok (tt, set_wsmem m' s) ∧ pictured m (g_screen s) (ws ++ [w]) m'.
Proof.
  intros Hs Hw Hws Hp Hl. set (scr := g_screen s) in *. pose proof Hs as [? ? ? Hz _ _]. pose proof Hw as [? ? ? ? ? ? Hbuf Hap].
  assert (Hf : fits (ws_mem s) (zbuf scr) (4 * scr_width scr) (4 * scr_width scr * scr_height scr) (buffer w) (yw_y w) (4 * yw_x w) (4 * width w) (height w)).
  { split; try done; try nia; [by eapply pictured_mapped..|apply Hp]. }
  destruct (lines_run (ws_mem s) scr w Hf ltac:(done) ltac:(done) (Z.to_nat (height w)) 0 s) as (m' & E & Hp'); [done|lia|lia|nia|by apply pasted_none|].
  exists m'. split; [|eapply pictured_paste; [done..|]; by eapply (pasted_bytes Hf); [|done]].
  unfold copy_windowbuf. rewrite (bind_ok _ _ _ w s).
  2: { unfold load_window. rewrite (bind_ok _ _ _ (ws_windows s) s) by done. by rewrite Hl. }
  rewrite (bind_ok _ _ _ scr s) by done. cbv zeta. rewrite s32_small.
  2: { assert ((yw_y w + 1) * (4 * scr_width scr) ≤ scr_height scr * (4 * scr_width scr)) by (apply Z.mul_le_mono_nonneg_r; lia). nia. }
  rewrite <- E.
  replace (zbuf scr + (yw_y w * (scr_width scr * 4) + yw_x w * 4)) with (zbuf scr + (yw_y w + 0) * (4 * scr_width scr) + 4 * yw_x w) by ring.
  by replace (buffer w + 0 * (4 * width w)) with (buffer w) by ring.
Qed.

Definition walking (v : vec) (i : Z) : vec := Vec (v_buffer v) (v_size v) (v_capacity v) (v_destroyed v) (v_error v) i.

Lemma vec_step v ps i p : vec_is v ps → ps !! Z.to_nat i = Some p → 0 ≤ i → vec_iter (walking v i) = Ok (i, walking v (i + 1)) ∧
  vec_get i (walking v (i + 1)) = Ok (p, walking v (i + 1)).
Proof.
  intros [Hs Hr Hc Hl Hi Hd He Hit] Hp H0. pose proof (lookup_lt_Some _ _ _ Hp). split.
  - unfold vec_iter. rewrite (bind_ok _ _ _ (walking v i) (walking v i)) by done. cbn [v_iter v_size walking]. cbv zeta.
    rewrite !s32_small by lia. destruct (Z.eqb_spec i (v_size v)); [lia|]. done.
  - unfold vec_get. rewrite (bind_ok _ _ _ tt (walking v (i + 1))) by (unfold with_error, walking; by rewrite <- He).
    rewrite (bind_ok _ _ _ (walking v (i + 1)) (walking v (i + 1))) by done. unfold CHECK_INDEX. cbn [v_size v_destroyed v_buffer walking].
    rewrite Hd. destruct (Z.ltb_spec i (v_size v)); [|lia]. cbn [andb negb Z.eqb].
    rewrite <- Hi in Hp. rewrite lookup_take_Some in Hp. by destruct Hp as [-> _].
Qed.

Lemma vec_stop v ps : vec_is v ps → vec_iter (walking v (Z.of_nat (length ps))) = Ok (-1, v).
Proof.
  intros [Hs Hr Hc Hl Hi Hd He Hit]. unfold vec_iter. rewrite (bind_ok _ _ _ (walking v (Z.of_nat (length ps))) (walking v (Z.of_nat (length ps)))) by done.
  cbn [v_iter v_size walking]. rewrite s32_small, Hs, Z.eqb_refl by lia. destruct v. cbn in *. by subst.
Qed.

Lemma walk_run m v ps ws scr W : screen_ok m scr → vec_is v ps → Forall2 (λ p w, W !! p = Some w) ps ws → Forall (window_ok m scr) ws →
  ∀ k i m1, Z.of_nat (length ps) = i + Z.of_nat k → 0 ≤ i → pictured m scr (take (Z.to_nat i) ws) m1 →
  ∃ m', loop (S k) render_step tt (Ws m1 W (walking v i) scr) = Ok (tt, Ws m' W v scr) ∧ pictured m scr ws m'.
Proof.
  intros Hs Hv HW Hws. pose proof (Forall2_length _ _ _ HW) as Hlen. induction k as [|k IH]; intros i m1 Hk Hi Hp.
  - exists m1. rewrite take_ge in Hp by lia. split; [|done]. erewrite loop_done; [done|]. unfold render_step.
    replace i with (Z.of_nat (length ps)) by lia.
    by erewrite bind_ok by (apply run_winlist; cbn; by apply (vec_stop v ps)).
  - destruct (lookup_lt_is_Some_2 ps (Z.to_nat i)) as [p Hpp]; [lia|]. destruct (lookup_lt_is_Some_2 ws (Z.to_nat i)) as [w Hww]; [lia|].
    destruct (vec_step v ps i p Hv Hpp Hi) as [E1 E2]. pose proof (Forall2_lookup_lr _ _ _ _ _ _ HW Hpp Hww) as Hl. cbn in Hl.
    pose proof (Forall_lookup_1 _ _ _ _ Hws Hww) as Hw.
    destruct (copy_windowbuf_run m (Ws m1 W (walking v (i + 1)) scr) p w (take (Z.to_nat i) ws)) as (m2 & E3 & Hp2); try done; [by apply Forall_take|].
    rewrite <- take_S_r in Hp2 by done. destruct (IH (i + 1) m2) as (m' & E' & Hp'); [lia|lia|by replace (Z.to_nat (i + 1)) with (S (Z.to_nat i)) by lia|].
    exists m'. split; [|done]. rewrite (loop_next _ _ _ _ tt (Ws m2 W (walking v (i + 1)) scr)); [exact E'|].
    unfold render_step. erewrite bind_ok by (apply run_winlist; exact E1). destruct (Z.eqb_spec i (-1)); [lia|].
    erewrite bind_ok by (apply run_winlist; exact E2). by erewrite bind_ok by exact E3.
Qed.

(** The state of the server with the windows [ws], oldest first. *)
Record server_ok (s : ws) (ps : list Z) (ws : list ywindow) : Prop := ServerOk {
  so_list : vec_is (g_winlist s) ps;
  so_windows : Forall2 (λ p w, ws_windows s !! p = Some w) ps ws;
  so_screen : screen_ok (ws_mem s) (g_screen s);
  so_shown : Forall (window_ok (ws_mem s) (g_screen s)) ws;
  so_apart : framebuf (g_screen s) + 4 * scr_width (g_screen s) * scr_height (g_screen s) ≤ zbuf (g_screen s) ∨
    zbuf (g_screen s) + 4 * scr_width (g_screen s) * scr_height (g_screen s) ≤ framebuf (g_screen s)
}.

(** An empty picture is white. *)
Lemma fill_white m scr : screen_ok m scr →
  ∃ m', fill_mem (zbuf scr) 255 (4 * scr_width scr * scr_height scr) m = Ok (tt, m') ∧ pictured m scr [] m'.
Proof.
  intros [Hw Hh Hs Hz _ Hb]. set (L := 4 * scr_width scr * scr_height scr) in *. assert (HL : 0 ≤ L) by (unfold L; nia).
  eexists. split; [apply store_bytes_run|split].
  - by rewrite length_replicate, Z2Nat.id.
  - by apply Forall_replicate.
  - intros o Ho. fold L in Ho. rewrite write_at_lookup, length_replicate, Z2Nat.id, decide_True by lia. by apply lookup_replicate_2; lia.
  - intros q Hq. fold L in Hq. by rewrite write_at_lookup, length_replicate, Z2Nat.id, decide_False by lia.
  - intros q b. rewrite write_at_lookup. case_decide; [|by apply Hb]. by intros [-> _]%lookup_replicate_1.
Qed.

(** C12: What the screen shows.  [renderer_render] draws the windows one over the other in
    the order they were made: every pixel of the framebuffer is that of the window made
    last among those that cover it, and white where there is none.  Windows, their
    buffers and all memory besides the picture and the framebuffer stay as they were. *)
Theorem windows_composited s ps ws : server_ok s ps ws →
  let scr := g_screen s in
  ∃ m', renderer_render s = Ok (tt, Ws m' (ws_windows s) (g_winlist s) scr) ∧
    (∀ px py k, 0 ≤ px < scr_width scr → 0 ≤ py < scr_height scr → 0 ≤ k < 4 →
      m' !! (framebuf scr + 4 * (py * scr_width scr + px) + k) = shown_byte (ws_mem s) ws px py k) ∧
    ∀ q, ¬ zbuf scr ≤ q < zbuf scr + 4 * scr_width scr * scr_height scr →
      ¬ framebuf scr ≤ q < framebuf scr + 4 * scr_width scr * scr_height scr → m' !! q = ws_mem s !! q.
Proof.
  intros [Hv HW Hs Hws Hap]. cbv zeta. set (scr := g_screen s) in *. pose proof Hs as [? ? ? Hz Hfb _].
  set (L := 4 * scr_width scr * scr_height scr) in *. assert (HL : 0 ≤ L) by (unfold L; nia).
  destruct (fill_white (ws_mem s) scr Hs) as (m1 & E1 & Hp1). fold L in E1.
  destruct (walk_run (ws_mem s) (g_winlist s) ps ws scr (ws_windows s) Hs Hv HW Hws (length ps) 0 m1) as (m2 & E2 & Hp2); [lia..|done|].
  assert (Hm : ∀ p n, mapped (ws_mem s) p n → mapped m2 p n) by (intros; by eapply pictured_mapped).
  assert (E3 : copy_mem (framebuf scr) (zbuf scr) L m2 = Ok (tt, write_at m2 (framebuf scr) (block m2 (zbuf scr) (Z.to_nat L)))).
  { apply copy_mem_run; [apply Hp2|done|by apply Hm..]. }
  eexists. split; [|split].
  - unfold renderer_render. rewrite (bind_ok _ _ _ scr s) by done. replace (scr_width scr * scr_height scr * 4) with L by (unfold L; ring).
    rewrite u32_small by lia. erewrite bind_ok by (apply run_wsmem; exact E1). rewrite (bind_ok _ _ _ (v_size (g_winlist s)) (set_wsmem m1 s)) by done.
    rewrite (vi_size _ _ Hv), Nat2Z.id. replace (walking (g_winlist s) 0) with (g_winlist s) in E2 by (rewrite <- (vi_iter _ _ Hv); by destruct (g_winlist s)).
    erewrite bind_ok by exact E2. unfold screenflip. erewrite bind_ok by done. cbn [g_screen]. replace (scr_width scr * scr_height scr * 4) with L by (unfold L; ring).
    rewrite u32_small by lia. by erewrite run_wsmem by exact E3.
  - intros px py k Hx Hy Hk. set (o := 4 * (py * scr_width scr + px) + k). assert (Ho : 0 ≤ o < L) by (unfold o, L; nia).
    replace (framebuf scr + 4 * (py * scr_width scr + px) + k) with (framebuf scr + o) by (unfold o; ring).
    rewrite write_at_lookup, block_length, Z2Nat.id, decide_True, block_lookup by lia.
    replace (zbuf scr + Z.of_nat (Z.to_nat (framebuf scr + o - framebuf scr))) with (zbuf scr + o) by lia.
    destruct (Hm _ _ Hz (zbuf scr + o)) as [b Hb]; [lia|]. rewrite Hb. trans (Some b); [done|]. rewrite <- Hb, (pc_in _ _ _ _ Hp2) by done.
    assert (Eo : o = 4 * scr_width scr * py + (4 * px + k)) by (unfold o; ring).
    rewrite <- (Z.div_unique_pos o (4 * scr_width scr) py (4 * px + k)) by lia.
    rewrite <- (Z.mod_unique_pos o (4 * scr_width scr) py (4 * px + k)) by lia.
    rewrite <- (Z.div_unique_pos (4 * px + k) 4 px k), <- (Z.mod_unique_pos (4 * px + k) 4 px k) by lia. done.
  - intros q Hqz Hqf. rewrite write_at_lookup, block_length, Z2Nat.id, decide_False by lia. by apply Hp2.
Qed.

(** ** Making windows *)

(** [malloc] found a block. *)
Record gives (malloc : Z → M bmem Z) (n : Z) (m : bmem) (p : Z) (m' : bmem) : Prop := Gives {
  gv_run : malloc n m = Ok (p, m');
  gv_pos : p ≠ 0;
  gv_new : mapped m' p n;
  gv_old : m ⊆ m';
  gv_fresh : ∀ q, p ≤ q < p + n → m !! q = None;
  gv_bytes : map_Forall (λ _, is_byte) m'
}.

Lemma mapped_more m m' p n : m ⊆ m' → mapped m p n → mapped m' p n.
Proof. intros Hs Hm q Hq. destruct (Hm q Hq) as [b Hb]. exists b. by eapply lookup_weaken. Qed.

Lemma fresh_apart m p n z k : 0 < n → 0 < k → (∀ q, p ≤ q < p + n → m !! q = None) → mapped m z k → p + n ≤ z ∨ z + k ≤ p.
Proof.
  intros Hn Hk Hf Hm. destruct (decide (p + n ≤ z ∨ z + k ≤ p)) as [|Hov]; [done|]. exfalso.
  destruct (Hm (Z.max p z)) as [b Hb]; [lia|]. rewrite Hf in Hb by lia. done.
Qed.

Lemma window_ok_more m m' scr w : m ⊆ m' → window_ok m scr w → window_ok m' scr w.
Proof. intros Hs []. split; try done. by eapply mapped_more. Qed.

Lemma screen_ok_more m m' scr : m ⊆ m' → map_Forall (λ _, is_byte) m' → screen_ok m scr → screen_ok m' scr.
Proof. intros Hs Hb []. split; try done; by eapply mapped_more. Qed.

(** [yws_create] returns a window on top of the others when [malloc] finds room for it. *)
Theorem yws_create_on_top alloc malloc free s ps ws t x y w h p m1 buf m2 :
  (∀ n, 0 ≤ n < 2147483648 → ∃ words, alloc (SIZEOF_ITEM * n) = Some words ∧ Z.of_nat (length words) = n) →
  server_ok s ps ws → Z.of_nat (length ps) < 67108864 → ws_windows s !! p = None →
  0 ≤ x → 0 ≤ y → 0 < w → 0 < h → x + w ≤ scr_width (g_screen s) → y + h ≤ scr_height (g_screen s) →
  gives malloc SIZEOF_YWINDOW (ws_mem s) p m1 → gives malloc (4 * w * h) m1 buf m2 →
  ∃ s', yws_create alloc malloc free t x y w h s = Ok (p, s') ∧ ws_mem s' = m2 ∧ g_screen s' = g_screen s ∧
    server_ok s' (ps ++ [p]) (ws ++ [YWindow t x y w h buf]).
Proof.
  intros Hal [Hv HW Hs Hws Hap] Hn Hp Hx Hy Hw Hh Hr Hb [E1 Hp0 _ Hsub1 _ _] [E2 Hb0 Hm2 Hsub2 Hf2 Hby].
  destruct (vec_push_list Hal (g_winlist s) ps p Hv Hn) as (v' & Ev & Hv').
  assert (Hsub : ws_mem s ⊆ m2) by (by trans m1). pose proof Hs as [? ? Hsm Hz _ _].
  assert (Hsize : u32 (YW_BPP * w * h) = 4 * w * h) by (unfold YW_BPP; apply u32_small; nia).
  eexists. split; [|split; [|split]].
  - unfold yws_create. erewrite bind_ok by (apply run_wsmem; exact E1). rewrite (proj2 (Z.eqb_neq _ _) Hp0).
    unfold create_winbuf. rewrite Hsize. erewrite bind_ok by (apply run_wsmem; exact E2). erewrite bind_ok by done.
    rewrite (proj2 (Z.eqb_neq _ _) Hb0). unfold renderer_pushwin. by erewrite bind_ok by (apply run_winlist; exact Ev).
  - done.
  - done.
  - split; cbn; [done| | | |done].
    + apply Forall2_app; [|by repeat constructor; rewrite lookup_insert_eq].
      eapply Forall2_impl; [exact HW|]. intros p' w' Hl. cbn in Hl |- *. rewrite lookup_insert_ne; [done|]. intros <-. congruence.
    + by eapply screen_ok_more.
    + apply Forall_app. split; [eapply Forall_impl; [exact Hws|]; intros w' Hw'; by eapply window_ok_more|].
      apply Forall_singleton. split; cbn; try done; try lia; [by replace (h * (4 * w)) with (4 * w * h) by ring|].
      replace (h * (4 * w)) with (4 * w * h) by ring. apply (fresh_apart m1); [nia..|done|by eapply mapped_more].
Qed.

(** ** Frames of libgfx *)

(** [lgfx_draw_frame_32] of a frame that fits copies it to the upper left of the
    framebuffer: every byte of the frame's lines is the frame's, the others stay. *)
Theorem frame_drawn g m fp xres yres :
  fits m (fb g) (dbuf_line g) (dbuf_size g) fp 0 0 (4 * xres) yres → 0 ≤ fp → fp + yres * (4 * xres) < 4294967296 →
  dbuf_line g < 2147483648 → yres < 2147483648 →
  ∃ m', lgfx_draw_frame_32 g fp xres yres m = Ok (tt, m') ∧
    pasted m (fb g) (dbuf_line g) (dbuf_size g) fp 0 0 (4 * xres) yres m'.
Proof.
  intros Hf Hfp Hend Hline Hy. pose proof Hf as [_ _ Hlen Hfit Hn _ _ _ _ _].
  assert (Hloop : ∀ k i m1, 0 ≤ i → yres = i + Z.of_nat k → pasted m (fb g) (dbuf_line g) (dbuf_size g) fp 0 0 (4 * xres) i m1 →
    ∃ m', loop (S k) (frame_line g (4 * xres) yres) (i, fb g + i * dbuf_line g, fp + i * (4 * xres)) m1 = Ok (tt, m') ∧
      pasted m (fb g) (dbuf_line g) (dbuf_size g) fp 0 0 (4 * xres) yres m').
  { induction k as [|k IH]; intros i m1 Hi Hk Hp.
    - exists m1. split; [|by replace yres with i by lia]. erewrite loop_done; [done|]. unfold frame_line. destruct (Z.ltb_spec i yres); [lia|done].
    - destruct (paste_line Hf i m1) as (m2 & E2 & Hp2); [lia|done|]. rewrite !Z.add_0_l, Z.add_0_r in E2.
      destruct (IH (i + 1) m2) as (m' & E' & Hp'); [lia..|done|]. exists m'. split; [|done].
      rewrite (loop_next _ _ _ _ (i + 1, fb g + (i + 1) * dbuf_line g, fp + (i + 1) * (4 * xres)) m2); [exact E'|].
      unfold frame_line. destruct (Z.ltb_spec i yres); [|lia]. rewrite (u32_small (4 * xres)) by lia. rewrite (bind_ok _ _ _ _ _ E2).
      rewrite s32_small, u32_small by nia.
      replace (fb g + (i + 1) * dbuf_line g) with (fb g + i * dbuf_line g + dbuf_line g) by ring.
      by replace (fp + (i + 1) * (4 * xres)) with (fp + i * (4 * xres) + 4 * xres) by ring. }
  destruct (Hloop (Z.to_nat yres) 0 m) as (m' & E & Hp); [lia|lia|by apply pasted_none|].
  exists m'. split; [|done]. unfold lgfx_draw_frame_32. rewrite (Z.mul_comm xres 4), s32_small by lia.
  rewrite !Z.mul_0_l, !Z.add_0_r in E. exact E.
Qed.

(** ** An example *)

(** A screen of two by two pixels with the picture at 100 and the framebuffer at 200, a wide
    window at 300 and one over it at 400. *)
Definition demo_wsmem : bmem :=
  write_at (write_at (write_at (write_at ∅ 100 (replicate 16 0)) 200 (replicate 16 0)) 300 [1; 2; 3; 4; 5; 6; 7; 8]) 400 [11; 12; 13; 14; 15; 16; 17; 18].

Definition demo_windows : list ywindow := [YWindow 0 0 0 2 1 300; YWindow 0 1 0 1 2 400].

Definition demo_ws : ws :=
  Ws demo_wsmem {[ 10 := YWindow 0 0 0 2 1 300; 20 := YWindow 0 1 0 1 2 400 ]} (Vec [10; 20; 0; 0; 0; 0; 0; 0] 2 8 0 0 0) (Screen 2 2 100 200).

Lemma windows_composited_witness :
  let scr := g_screen demo_ws in
  ∃ m', renderer_render demo_ws = Ok (tt, Ws m' (ws_windows demo_ws) (g_winlist demo_ws) scr) ∧
    (∀ px py k, 0 ≤ px < scr_width scr → 0 ≤ py < scr_height scr → 0 ≤ k < 4 →
      m' !! (framebuf scr + 4 * (py * scr_width scr + px) + k) = shown_byte demo_wsmem demo_windows px py k) ∧
    ∀ q, ¬ zbuf scr ≤ q < zbuf scr + 4 * scr_width scr * scr_height scr →
      ¬ framebuf scr ≤ q < framebuf scr + 4 * scr_width scr * scr_height scr → m' !! q = demo_wsmem !! q.
Proof.
  apply (windows_composited demo_ws [10; 20] demo_windows). split.
  - by split.
  - by repeat constructor.
  - split; try done.
    + intros q Hq. apply mapped_write with (n := 16) (p := 100); [|done]. do 2 apply mapped_write. exact (write_at_mapped ∅ 100 (replicate 16 0)).
    + intros q Hq. apply mapped_write with (n := 16) (p := 200); [|done]. apply mapped_write. exact (write_at_mapped _ 200 (replicate 16 0)).
    + apply (bool_decide_unpack _). by vm_compute.
  - apply Forall_cons. split; [|apply Forall_singleton]; split; simpl; try lia.
    + apply mapped_write. exact (write_at_mapped _ 300 [1; 2; 3; 4; 5; 6; 7; 8]).
    + exact (write_at_mapped _ 400 [11; 12; 13; 14; 15; 16; 17; 18]).
  - simpl. lia.
Defined.
