(* ===== verification/Yash.v ===== *)
(** * The shell's command line (src/system/yash/yash.c)

    [split_command] cuts the line that was read into words and fills the array of arguments.
    [malloc] is an allocator that meets [UserLaws]; [memcpy] is that of the C library.  A
    line of words is proved to give the list of its words. *)
From S2P Require Import Prelude LinkedList Frames Mm HeapApi LibK FdTable Disk Kmem FileIo Vfs VfsPath Env Winserv.

Definition MAXARGS : Z := 32.
Definition BLANK : Z := 32.
Definition RETURN_CHAR : Z := 10.

Section yash.
Context {H : Type} `{!KernelHeap H}.

Definition create_string (str len : Z) : M (bmem * H) Z :=
  c ← on_mem (load8 (str + len - 1));
  let len := if c =? RETURN_CHAR then len - 1 else len in
  newstr ← hmalloc_user (u32 (len + 1));
  _ ← on_mem (copy_mem newstr str (u32 len));
  _ ← on_mem (store8 (newstr + len) 0);
  mret newstr.

Section split.
(** The address of g_args. *)
Variable g_args : Z.

(** A character of the command: its place, the start of the word, the number of arguments
    and the length of the word. *)
Definition split_step : Z * Z * Z * Z → M (bmem * H) (Z * Z * Z * Z + Z) := λ '(cmd, lastptr, argcnt, len),
  c ← on_mem (load8 cmd);
  if (c =? BLANK) || (c =? 0) then
    if argcnt =? MAXARGS then mret (inr 0)
    else
      s ← create_string lastptr len;
      _ ← on_mem (store32 (g_args + 4 * argcnt) s);
      let argcnt := argcnt + 1 in
      c ← on_mem (load8 cmd);
      if c =? 0 then _ ← on_mem (store32 (g_args + 4 * argcnt) 0); mret (inr g_args)
      else mret (inl (cmd + 1, cmd + 1, argcnt, 0))
  else mret (inl (cmd + 1, lastptr, argcnt, len + 1)).

Definition split_command (cmd : Z) : M (bmem * H) Z :=
  fuel ← get (λ s, S (size s.1));
  loop fuel split_step (cmd, cmd, 0, 0).
End split.
End yash.

(** ** Words *)

(** A word with the newline it may end in. *)
Definition is_word (t : list Z) : Prop := t ≠ [] ∧ Forall (λ c, is_char c ∧ c ≠ BLANK) t.

Definition chomp (t : list Z) : list Z := if decide (last t = Some RETURN_CHAR) then take (length t - 1) t else t.

(** Words separated by single blanks, with 0 at the end. *)
Fixpoint line_of (ts : list (list Z)) : list Z :=
  match ts with
  | [] => [0]
  | [t] => t ++ [0]
  | t :: ts => t ++ BLANK :: line_of ts
  end.

(** What copies of the words take. *)
Definition words_charge {H : Type} `{!KernelHeap H, !UserLaws H} (ts : list (list Z)) : Z :=
  foldr (λ t c, ucharge (Z.of_nat (length (chomp t)) + 1) + c) 0 ts.

Lemma chomp_prefix t : chomp t `prefix_of` t.
Proof. unfold chomp. destruct (decide _); [|done]. exists (drop (length t - 1) t). by rewrite take_drop. Qed.

Lemma chomp_chars t : is_word t → Forall is_char (chomp t).
Proof.
  intros [_ Ht]. destruct (chomp_prefix t) as [u E]. rewrite E in Ht. apply Forall_app in Ht as [Ht _].
  eapply Forall_impl; [exact Ht|]. by intros c [].
Qed.

Section create.
Context {H : Type} `{!KernelHeap H, !UserLaws H}.

(** A copy of a word without its newline. *)
Lemma create_string_run m h r str t : user_rep m h r → map_Forall (λ _, is_byte) m → bytes_at m str t → is_word t →
  Z.of_nat (length t) < 2147483647 → ucharge (Z.of_nat (length (chomp t)) + 1) ≤ r →
  ∃ p m' h', create_string str (Z.of_nat (length t)) (m, h) = Ok (p, (m', h')) ∧ m ⊆ m' ∧ cstr m' p (chomp t) ∧ 0 < p < 4294967296 ∧
    unmapped m p (Z.of_nat (length (chomp t)) + 1) ∧ map_Forall (λ _, is_byte) m' ∧ user_rep m' h' (r - ucharge (Z.of_nat (length (chomp t)) + 1)).
Proof.
  intros Hr Hby Hb Hw Hlen Hc. pose proof (chomp_chars t Hw) as Hch. set (s := chomp t) in *.
  destruct (hmalloc_user_ok (Z.of_nat (length s) + 1) m h r Hr) as (p & bs & h' & Hrun & Hp & Htop & Hsz & Hbs & Hu & Hr'); [|done|].
  { destruct (chomp_prefix t) as [u E]. fold s in E. rewrite E, length_app in Hlen. lia. }
  set (m1 := write_at m p bs) in *. assert (Hsub : m ⊆ m1) by by apply fresh_write_sub.
  assert (Hm1 : map_Forall (λ _, is_byte) m1).
  { intros q b. unfold m1. rewrite write_at_lookup. case_decide; [|by apply Hby]. intros Hq. rewrite Forall_forall in Hbs. apply Hbs. by eapply list_elem_of_lookup_2. }
  assert (Hs1 : bytes_at m1 str s).
  { apply (bytes_at_sub _ _ _ _ Hsub). destruct (chomp_prefix t) as [u E]. fold s in E. rewrite E in Hb. by apply bytes_at_app in Hb as [Hb _]. }
  assert (Hmap : mapped m1 p (Z.of_nat (length s) + 1)) by (eapply mapped_sub; [apply write_at_mapped|lia|lia]).
  assert (Hblk : block m1 str (length s) = s).
  { apply list_eq_same_length with (n := length s); [done|by rewrite block_length|]. intros i x y Hi Hx Hy. rewrite block_lookup in Hx by lia.
    injection Hx as <-. by rewrite (Hs1 i y Hy). }
  set (m2 := write_at m1 p s). assert (Hmap2 : is_Some (m2 !! (p + Z.of_nat (length s)))) by (apply (mapped_write _ _ _ p s Hmap); lia).
  assert (Hsl : 0 ≤ Z.of_nat (length s) < 4294967295) by lia.
  exists p, (write_at m1 p (s ++ [0])), h'. split_and!; try lia.
  - unfold create_string. destruct Hw as [Hne Ht]. destruct (exists_last Hne) as (t' & x & Et).
    assert (Hlast : m !! (str + Z.of_nat (length t) - 1) = Some x).
    { replace (str + Z.of_nat (length t) - 1) with (str + Z.of_nat (length t')) by (rewrite Et, length_app; simpl; lia).
      apply Hb. rewrite Et. by apply list_lookup_middle. }
    rewrite (bind_ok _ _ _ _ _ (on_mem_ok _ m h _ _ (run_load8 _ _ _ Hlast))). cbv zeta.
    assert (El : (if x =? RETURN_CHAR then Z.of_nat (length t) - 1 else Z.of_nat (length t)) = Z.of_nat (length s)).
    { unfold s, chomp. rewrite Et, last_snoc, length_app. simpl. destruct (Z.eqb_spec x RETURN_CHAR) as [->|Hx].
      - rewrite decide_True by done. rewrite Nat.add_sub, take_app_length. lia.
      - rewrite decide_False by congruence. rewrite length_app. done. }
    rewrite El, (u32_small (Z.of_nat (length s) + 1)), (u32_small (Z.of_nat (length s))) by lia. rewrite (bind_ok _ _ _ _ _ Hrun).
    rewrite (bind_ok _ _ _ tt (m2, h')).
    2: { apply on_mem_ok. rewrite copy_mem_run; [by rewrite Nat2Z.id, Hblk|done|lia| |by apply bytes_at_mapped]. intros q Hq. apply Hmap. lia. }
    rewrite (bind_ok _ _ _ tt (write_at m1 p (s ++ [0]), h')); [done|]. apply on_mem_ok. rewrite run_store8 by done.
    unfold m2. rewrite write_at_snoc. done.
  - apply map_subseteq_spec. intros q b Hq. rewrite write_at_out; [by eapply lookup_weaken|].
    intros Hin. rewrite length_app in Hin. simpl in Hin. rewrite Hu in Hq by lia. done.
  - split; [apply write_at_in|done].
  - intros q Hq. apply Hu. lia.
  - intros q b. rewrite write_at_lookup. case_decide; [|by apply Hm1]. intros Hq.
    apply list_elem_of_lookup_2, elem_of_app in Hq as [Hq|Hq]; [|by apply list_elem_of_singleton in Hq as ->].
    rewrite Forall_forall in Hch. specialize (Hch b Hq). unfold is_char, is_byte in *. lia.
  - eapply user_rep_dom; [|exact Hr']. apply dom_write_at. rewrite length_app. simpl. intros q Hq. apply Hmap. lia.
Qed.
End create.

(** ** Splitting *)

Section split_run.
Context {H : Type} `{!KernelHeap H, !UserLaws H}.
Variables (g_args : Z) (m0 : bmem).

(** The words [pre] are in the array; memory outside of it is as in [m0]. *)
Record split_to (pre : list (list Z)) (m : bmem) : Prop := SplitTo {
  sp_ptrs : list Z;
  sp_keep : ∀ q b, m0 !! q = Some b → ¬ g_args ≤ q < g_args + 128 → m !! q = Some b;
  sp_array : mapped m g_args 128;
  sp_bytes : map_Forall (λ _, is_byte) m;
  sp_words : words_at m g_args sp_ptrs;
  sp_strings : Forall2 (λ p s, cstr m p s ∧ p ≠ 0 ∧ disjoint_blocks p (Z.of_nat (length s) + 1) g_args 128) sp_ptrs pre
}.

(** Storing in the array keeps the strings. *)
Lemma kept_string m p s q w : g_args ≤ q → q + 4 ≤ g_args + 128 → disjoint_blocks p (Z.of_nat (length s) + 1) g_args 128 → cstr m p s →
  cstr (write_at m q (bytes32 w)) p s.
Proof.
  intros H1 H2 Hd [Hb Hc]. split; [|done]. apply bytes_at_write; [|done]. unfold disjoint_blocks in *. rewrite length_app. simpl. lia.
Qed.

Lemma bytes_stored m q w : map_Forall (λ _, is_byte) m → map_Forall (λ _, is_byte) (write_at m q (bytes32 w)).
Proof.
  intros Hm x b. rewrite write_at_lookup. case_decide; [|by apply Hm]. intros Hx. pose proof (bytes32_bytes w) as Hw.
  rewrite Forall_forall in Hw. apply Hw. by eapply list_elem_of_lookup_2.
Qed.

(** One more word [s], copied to [p]. *)
Lemma split_to_more pre m m1 p s : split_to pre m → m ⊆ m1 → map_Forall (λ _, is_byte) m1 → cstr m1 p s → 0 < p < 4294967296 →
  unmapped m p (Z.of_nat (length s) + 1) → (length pre < 32)%nat →
  mapped m1 (g_args + 4 * Z.of_nat (length pre)) 4 ∧
  split_to (pre ++ [s]) (write_at m1 (g_args + 4 * Z.of_nat (length pre)) (bytes32 p)).
Proof.
  intros [ps Hk Ha _ Hw Hs] Hm1 Hby Hc Hp Hu Hn. pose proof (Forall2_length _ _ _ Hs) as Hl.
  assert (Ha1 : mapped m1 g_args 128) by (intros q Hq; destruct (Ha q Hq) as [b Hb]; exists b; by eapply lookup_weaken).
  assert (Hap : disjoint_blocks p (Z.of_nat (length s) + 1) g_args 128) by (apply (unmapped_apart m); [done|done|lia|lia]).
  split; [intros q Hq; apply Ha1; lia|]. set (q := g_args + 4 * Z.of_nat (length pre)).
  exists (ps ++ [p]).
  - intros x b Hx Ho. rewrite write_at_out by (unfold q; simpl; lia). eapply lookup_weaken; [by apply Hk|done].
  - by apply mapped_write.
  - by apply bytes_stored.
  - intros k w Hkw. apply lookup_app_Some in Hkw as [Hkw|[Hge Hkw]].
    + destruct (words_at_sub _ _ _ _ Hm1 Hw k w Hkw) as [Hb Hr]. split; [|done]. apply bytes_at_write; [|done].
      apply lookup_lt_Some in Hkw. left. simpl. unfold q. lia.
    + apply list_lookup_singleton_Some in Hkw as [Hz <-]. replace k with (length pre) by lia. split; [apply write_at_in|lia].
  - apply Forall2_app; [|constructor; [|constructor]].
    + eapply Forall2_impl; [exact Hs|]. intros a t (Hat & Ha0 & Had). split_and!; try done. apply kept_string; [unfold q; lia..|done|by eapply cstr_sub].
    + split_and!; [apply kept_string; [unfold q; lia..|done|done]|lia|done].
Qed.

(** Walking over the characters of a word. *)
Lemma walk_word f k m h str t2 : ∀ t1, bytes_at m str (t1 ++ t2) → Forall (λ c, is_char c ∧ c ≠ BLANK) t2 →
  loop (length t2 + f) (split_step g_args) (str + Z.of_nat (length t1), str, k, Z.of_nat (length t1)) (m, h) =
  loop f (split_step g_args) (str + Z.of_nat (length (t1 ++ t2)), str, k, Z.of_nat (length (t1 ++ t2))) (m, h).
Proof.
  induction t2 as [|c t2 IH]; intros t1 Hb Hc; [by rewrite app_nil_r|]. apply Forall_cons in Hc as [[Hc Hbl] Hrest]. cbn [length Nat.add].
  assert (Hat : m !! (str + Z.of_nat (length t1)) = Some c) by (apply Hb; by apply list_lookup_middle).
  rewrite (loop_next _ _ _ _ (str + Z.of_nat (length (t1 ++ [c])), str, k, Z.of_nat (length (t1 ++ [c]))) (m, h)).
  - rewrite IH; [by rewrite <- app_assoc|by rewrite <- app_assoc|done].
  - unfold split_step. rewrite (bind_ok _ _ _ _ _ (on_mem_ok _ m h _ _ (run_load8 _ _ _ Hat))).
    destruct (Z.eqb_spec c BLANK); [done|]. unfold is_char in Hc. destruct (Z.eqb_spec c 0); [lia|]. cbn [orb].
    rewrite length_app. cbn [length]. replace (Z.of_nat (length t1 + 1)) with (Z.of_nat (length t1) + 1) by lia. by rewrite Z.add_assoc.
Qed.

(** The end of a word: it is copied and entered. *)
Lemma end_word pre m h r str t : split_to pre m → user_rep m h r → bytes_at m str t → is_word t → Z.of_nat (length t) < 2147483647 →
  ucharge (Z.of_nat (length (chomp t)) + 1) ≤ r → (length pre < 32)%nat →
  ∃ m' h', (s ← create_string str (Z.of_nat (length t)); on_mem (store32 (g_args + 4 * Z.of_nat (length pre)) s)) (m, h) = Ok (tt, (m', h')) ∧
    split_to (pre ++ [chomp t]) m' ∧ user_rep m' h' (r - ucharge (Z.of_nat (length (chomp t)) + 1)) ∧
    ∀ q b, m !! q = Some b → ¬ g_args ≤ q < g_args + 128 → m' !! q = Some b.
Proof.
  intros Hs Hr Hb Hw Hl Hc Hn.
  destruct (create_string_run m h r str t Hr (sp_bytes _ _ Hs) Hb Hw Hl Hc) as (p & m1 & h1 & E & Hsub & Hcs & Hp & Hu & Hby & Hr1).
  destruct (split_to_more pre m m1 p (chomp t) Hs Hsub Hby Hcs Hp Hu Hn) as [Hmap Hs1].
  eexists _, h1. split; [rewrite (bind_ok _ _ _ _ _ E); apply on_mem_ok, store32_run, Hmap|]. split; [exact Hs1|]. split.
  - eapply user_rep_dom; [|exact Hr1]. by apply dom_write_at.
  - intros q b Hq Ho. rewrite write_at_out by (simpl; lia). by eapply lookup_weaken.
Qed.

Lemma split_loop ts : ∀ pre m h r cmd f, split_to pre m → user_rep m h r → words_charge ts ≤ r → bytes_at m cmd (line_of ts) →
  disjoint_blocks cmd (Z.of_nat (length (line_of ts))) g_args 128 → ts ≠ [] → Forall is_word ts →
  Forall (λ t, Z.of_nat (length t) < 2147483647) ts → (length pre + length ts < 32)%nat → (length (line_of ts) ≤ f)%nat →
  ∃ m' h', loop f (split_step g_args) (cmd, cmd, Z.of_nat (length pre), 0) (m, h) = Ok (g_args, (m', h')) ∧
    argument_list m' g_args (pre ++ (chomp <$> ts)) ∧ ∀ q b, m0 !! q = Some b → ¬ g_args ≤ q < g_args + 128 → m' !! q = Some b.
Proof.
  induction ts as [|t ts IH]; intros pre m h r cmd f Hs Hr Hch Hb Hd Hne Hw Hl Hn Hf; [done|].
  apply Forall_cons in Hw as [Hwt Hw]. apply Forall_cons in Hl as [Hlt Hl]. cbn [words_charge foldr length] in Hch, Hn.
  assert (Hrest : 0 ≤ words_charge ts).
  { clear. induction ts as [|t ts IH]; [done|]. cbn [words_charge foldr]. pose proof (ucharge_pos (Z.of_nat (length (chomp t)) + 1) ltac:(lia)).
    unfold words_charge in IH. lia. }
  fold (words_charge ts) in Hch.
  assert (∃ d rest, line_of (t :: ts) = t ++ d :: rest ∧ ((d = 0 ∧ ts = []) ∨ (d = BLANK ∧ rest = line_of ts ∧ ts ≠ []))) as (d & rest & El & Hcase).
  { destruct ts as [|t' ts]; [exists 0, []; by auto|exists BLANK, (line_of (t' :: ts)); by auto]. }
  rewrite El in Hb, Hd, Hf. rewrite length_app in Hd, Hf. cbn [length] in Hd, Hf.
  pose proof Hb as [Hbt Hbd]%bytes_at_app. change (d :: rest) with ([d] ++ rest) in Hbd. apply bytes_at_app in Hbd as [Hbd Hbr]. cbn [length] in Hbr.
  destruct (end_word pre m h r cmd t Hs Hr Hbt Hwt Hlt ltac:(lia) ltac:(lia)) as (m1 & h1 & E1 & Hs1 & Hr1 & Hk1).
  assert (Hcmd : m !! (cmd + Z.of_nat (length t)) = Some d) by (rewrite <- (Z.add_0_r (cmd + _)); exact (Hbd 0%nat d eq_refl)).
  assert (Hcmd1 : m1 !! (cmd + Z.of_nat (length t)) = Some d) by (apply Hk1; [done|destruct Hd; lia]).
  replace f with (length t + S (f - length t - 1))%nat by lia. set (g := (f - length t - 1)%nat).
  pose proof (walk_word (S g) (Z.of_nat (length pre)) m h cmd t [] ltac:(done) ltac:(by apply Hwt)) as Ew.
  cbn [length app] in Ew. change (Z.of_nat 0) with 0 in Ew. rewrite Z.add_0_r in Ew. rewrite Ew. clear Ew.
  assert (Estep : split_step g_args (cmd + Z.of_nat (length t), cmd, Z.of_nat (length pre), Z.of_nat (length t)) (m, h) =
    (if d =? 0 then _ ← on_mem (store32 (g_args + 4 * (Z.of_nat (length pre) + 1)) 0); mret (inr g_args)
     else mret (inl (cmd + Z.of_nat (length t) + 1, cmd + Z.of_nat (length t) + 1, Z.of_nat (length pre) + 1, 0))) (m1, h1)).
  { unfold split_step. rewrite (bind_ok _ _ _ _ _ (on_mem_ok _ m h _ _ (run_load8 _ _ _ Hcmd))).
    assert (Hbd0 : (d =? BLANK) || (d =? 0) = true) by (destruct Hcase as [[-> _]|[-> _]]; done). rewrite Hbd0.
    unfold MAXARGS. destruct (Z.eqb_spec (Z.of_nat (length pre)) 32); [lia|].
    unfold mbind at 1, M_bind at 1 in E1. unfold mbind at 1, M_bind at 1. destruct (create_string cmd (Z.of_nat (length t)) (m, h)) as [[p [m2 h2]]| |]; [|done..].
    rewrite (bind_ok _ _ _ _ _ E1). cbv zeta. by rewrite (bind_ok _ _ _ _ _ (on_mem_ok _ m1 h1 _ _ (run_load8 _ _ _ Hcmd1))). }
  destruct Hcase as [[-> ->]|(-> & -> & Hne')].
  - destruct Hs1 as [ps Hk Ha Hby Hwo Hst]. pose proof (Forall2_length _ _ _ Hst) as Hlen. rewrite length_app in Hlen. cbn [length] in Hlen.
    set (q := g_args + 4 * Z.of_nat (length ps)). exists (write_at m1 q (bytes32 0)), h1. split_and!.
    + erewrite loop_done; [done|]. rewrite Estep. cbn [Z.eqb]. replace (Z.of_nat (length pre) + 1) with (Z.of_nat (length ps)) by lia.
      erewrite bind_ok; [done|]. apply on_mem_ok, store32_run. intros x Hx. apply Ha. unfold q in Hx. lia.
    + exists ps. split.
      * intros k w Hkw. apply lookup_app_Some in Hkw as [Hkw|[Hge Hkw]].
        -- destruct (Hwo k w Hkw) as [Hx Hrg]. split; [|done]. apply bytes_at_write; [|done]. apply lookup_lt_Some in Hkw. left. simpl. unfold q. lia.
        -- apply list_lookup_singleton_Some in Hkw as [Hz <-]. replace k with (length ps) by lia. split; [apply write_at_in|lia].
      * cbn [fmap list_fmap]. eapply Forall2_impl; [exact Hst|]. intros a u (Hau & Ha0 & Had). split; [|done]. apply kept_string; [unfold q; lia..|done|done].
    + intros x b Hx Ho. rewrite write_at_out by (unfold q; simpl; lia). by apply Hk.
  - destruct (IH (pre ++ [chomp t]) m1 h1 (r - ucharge (Z.of_nat (length (chomp t)) + 1)) (cmd + Z.of_nat (length t) + 1) g) as (m' & h' & E & Hargs & Hkeep); try done; try lia.
    + intros j b Hj. pose proof (lookup_lt_Some _ _ _ Hj). apply Hk1; [by apply Hbr|]. destruct Hd; lia.
    + destruct Hd; [left|right]; lia.
    + rewrite length_app. cbn [length]. lia.
    + exists m', h'. split; [|by rewrite <- app_assoc in Hargs]. erewrite loop_next; [exact E|]. rewrite Estep, length_app. cbn [length].
      by replace (Z.of_nat (length pre + 1)) with (Z.of_nat (length pre) + 1) by lia.
Qed.
End split_run.

(** ** Theorems *)

(** C37: Splitting a command.  A line of at most 31 words with single blanks between them, as
    it was read with its newline, gives the array of arguments: [split_command] returns
    [g_args] with pointers to copies of the words in order, the newline cut off, and NULL
    behind them; no other byte that was there before has changed. *)
Theorem command_split {H : Type} `{!KernelHeap H, !UserLaws H} g_args m h r cmd ts :
  user_rep m h r → words_charge ts ≤ r → bytes_at m cmd (line_of ts) → map_Forall (λ _, is_byte) m →
  mapped m g_args 128 → disjoint_blocks cmd (Z.of_nat (length (line_of ts))) g_args 128 →
  ts ≠ [] → (length ts < 32)%nat → Forall is_word ts → Forall (λ t, Z.of_nat (length t) < 2147483647) ts →
  ∃ m' h', split_command g_args cmd (m, h) = Ok (g_args, (m', h')) ∧ argument_list m' g_args (chomp <$> ts) ∧
    ∀ q b, m !! q = Some b → ¬ g_args ≤ q < g_args + 128 → m' !! q = Some b.
Proof.
  intros Hr Hc Hb Hby Ha Hd Hne Hn Hw Hl. unfold split_command. rewrite (bind_ok _ _ _ (S (size m)) (m, h)) by done.
  assert (Hs : split_to g_args m [] m) by (exists []; [done..|by intros ? ?|constructor]).
  destruct (split_loop g_args m ts [] m h r cmd (S (size m)) Hs) as (m' & h' & E & Hargs & Hk); try done.
  - pose proof (bytes_at_size _ _ _ Hb). lia.
  - by exists m', h'.
Qed.

(** ls -l with its newline at 1000 and the array at 1100. *)
Definition demo_tokens : list (list Z) := [[108; 115]; [45; 108; 10]].

Definition demo_shell_mem : bmem := write_at (write_at ∅ 1000 (line_of demo_tokens)) 1100 (replicate 128 0).

Lemma command_split_witness :
  line_of demo_tokens = [108; 115; 32; 45; 108; 10; 0] ∧
  ∃ m' h', @split_command mm demo_kernel_heap 1100 1000 (demo_shell_mem, uheap_mm) = Ok (1100, (m', h')) ∧
    argument_list m' 1100 [[108; 115]; [45; 108]] ∧
    ∀ q b, demo_shell_mem !! q = Some b → ¬ 1100 ≤ q < 1100 + 128 → m' !! q = Some b.
Proof.
  split; [reflexivity|].
  refine (@command_split mm demo_kernel_heap (mm_user_laws (λ _, 0)) 1100 demo_shell_mem uheap_mm 16777216 1000 demo_tokens _ _ _ _ _ _ _ _ _ _).
  - apply low_user_heap, (bool_decide_unpack _). by vm_compute.
  - vm_compute. discriminate.
  - apply bytes_at_write; [by left|apply write_at_in].
  - apply (bool_decide_unpack _). by vm_compute.
  - apply (write_at_mapped _ 1100 (replicate 128 0)).
  - left. by vm_compute.
  - done.
  - simpl. lia.
  - repeat constructor; unfold is_char, BLANK; lia || done.
  - by repeat constructor.
Defined.
